(* ===== verification/_CoqProject ===== *)
-Q . S2P
Prelude.v
Strings.v
Bytes.v
Printf.v
Umalloc.v
UmallocTheorems.v
Syscall.v
Shell.v
ShellLex.v
ShellParse.v
ShellTheorems.v
ShellRun.v
Spinlock.v
Machine.v
Kalloc.v
Vm.v
VmSpec.v
VmSpace.v
VmFree.v
VmCopy.v
VmTheorems.v
Pipe.v
Console.v
ConsoleTheorems.v
Kbd.v
Grep.v
Ide.v
Store.v
Bio.v
BioTheorems.v
Log.v
LogSpec.v
LogTheorems.v
Fs.v
FsTxn.v
FsAlloc.v
FsInode.v
FsFile.v
FsWrite.v
FsCommit.v
FsDir.v
FsPath.v
FsTheorems.v
File.v
FileWrite.v
Sysfile.v
FileCount.v
FileTheorems.v
Exec.v
ExecSpec.v
ExecStack.v
ExecTheorems.v
ExecFile.v
StateLists.v
Proc.v
ProcRefine.v
ProcInv.v
ProcSpec.v
ProcLife.v
ProcExit.v
ProcSched.v
ProcBoot.v
ProcDemo.v
ProcTheorems.v
BufSleep.v
Trap.v
Sysproc.v
Mkfs.v
MkfsSpec.v
MkfsAppend.v
MkfsImage.v
MkfsTheorems.v
