(* ===== verification/Prelude.v ===== *)
(** * Verification of the Yeet-v6 kernel

    Yeet-v6 is an xv6 for 32-bit PCs, built here as its Makefile configures it
    ([CS333_P1] to [CS333_P5] defined).  This library models the kernel's
    services, from the disk driver up to the traps and system calls, the user
    library, the shell and the program that makes the disk image, and proves what
    each of them promises to the next.

    ** How code becomes definitions

    A routine is a function in the monad [M S] of this file: it takes the state of
    its component, and returns a value and a state or an [error]: a [panic], an
    invalid access ([Fault]), a lock that is never released to it ([Spin]), or a
    sleep ([Asleep]).  Words are integers kept in range, and the operations that
    can leave it wrap ([u32], [u16], [u8], [s32]).  Pointers are numbers or
    indices, and what they point to is in the state.  [wp E m Q s] says that [m]
    from [s] returns with [Q], or stops with an error in [E]; [no_error] makes that
    a total statement.

    A loop that is not bounded by its data has fuel, and [NoFuel] is an error like
    the others, so a total statement shows that the fuel is enough: the number of
    entries for a walk through a table or list ([NBUF], [NINODE], [NPROC], the
    headers below the break, the pages of the memory), one more than the length of
    the string or file for a loop over it (the bytes still to append in mkfs), four
    times the length of the line plus four for the parser of the shell, which calls
    four routines for a token, the number of blocks left to write for the loops
    of writing, the time the disk controller stays busy for the polling of its status,
    and one interrupt more than there are buffers for a sleep of the disk driver.

    ** Files, from the bottom up

    - Prelude: machine integers, errors, the monad and its rules.
    - Strings (string.c, ulib.c), Bytes (little-endian layout), Printf (printf.c,
      and cprintf of console.c): strings, numbers and formatted output.
    - Umalloc, UmallocTheorems (umalloc.c, sys_sbrk of sysproc.c): the user memory
      allocator on headers in memory; the heap as a row of blocks.
    - Syscall (syscall.c, syscall.h): arguments from user memory, dispatch.
    - Shell, ShellLex, ShellParse, ShellTheorems, ShellRun (sh.c, and gets of
      ulib.c): the parser on positions of the line buffer against a grammar of
      tokens, and runcmd as the tree of its system calls.  [malloc] is a parameter
      (the class [Malloc]) that may fail at any call.
    - Spinlock (spinlock.c): the locks as code of one CPU and as the atomic steps
      of several; Machine: what the services share of the CPU, the locks and
      [wakeup].
    - Kalloc (kalloc.c): pages and the free list through them.
    - Vm, VmSpec, VmSpace, VmFree, VmCopy, VmTheorems (vm.c): page tables in those
      pages, and address spaces.
    - Pipe (pipe.c), Grep (grep.c).
    - Console, ConsoleTheorems (console.c), Kbd (kbd.c, kbd.h): the line discipline
      on its ring buffer, the screen, and the keyboard from scan codes on.
    - Ide (ide.c): the request queue, the controller, and the processes that sleep on
      buffers.  Store: the interface
      [BufferCacheSpec] between the cache and its clients.  Bio, BioTheorems
      (bio.c): the cache, which implements Store.
    - Log, LogSpec, LogTheorems (log.c): transactions over any implementation of
      Store, crashes and recovery.
    - Fs (fs.c) with FsTxn, FsAlloc, FsInode, FsFile, FsWrite, FsCommit, FsDir,
      FsPath and FsTheorems: blocks, inodes, files, directories and paths over the
      log.
    - File, FileWrite (file.c, pipealloc of pipe.c), Sysfile (sysfile.c),
      FileCount, FileTheorems: open files, the calls on them, and their counts.
    - Exec (exec.c, elf.h, sys_exec of sysfile.c), written over the class [ExecFs] of
      the file system calls it makes; ExecSpec, ExecStack, ExecTheorems; ExecFile
      shows that Fs and Log implement that class.
    - StateLists, Proc (proc.c, proc.h, uproc.h): the process lists and every
      routine on the process table, written over the interface [StateLists];
      ProcRefine carries what ProcInv, ProcSpec, ProcLife, ProcExit, ProcSched and
      ProcBoot show over abstract lists to the pointers; ProcDemo, ProcTheorems.
      BufSleep reads the list of sleepers that Ide keeps off the process table.
    - Trap (trap.c, traps.h), Sysproc (sysproc.c): traps and the process system calls
      on the state of Proc.
    - Mkfs (mkfs.c), a program of the host, on an image of sectors; MkfsSpec,
      MkfsAppend, MkfsImage and MkfsTheorems read the image with the vocabulary of
      the kernel's file system.

    ** What the theorems show

    - Concurrency: two CPUs never hold a lock at once, in any interleaving
      (Spinlock); a pipe delivers the bytes written in order, whatever the
      schedule (Pipe).
    - Crash safety: whatever prefix of its disk writes a commit has done, recovery
      gives the disk before or after the transaction, and recovery may itself be
      interrupted (LogTheorems).  [three_operations_overflow] shows that three
      operations are admitted together which may overflow the log.
    - Refinement: any script of cache operations that keeps to the rules of the
      interface behaves as if there were no buffers (Bio, BioTheorems); the driver
      serves requests in order and returns, unless the one wake-up goes to another
      process that sleeps on the buffer (Ide); the pointer lists of proc.c
      implement duplicate-free lists (StateLists, ProcRefine).
    - Files: what is written is read back, directory entries are found again, a
      path leads where the directories say, free blocks stay free (FsTheorems);
      long writes are split into transactions that fit (FileTheorems); the count of
      an open file is the number of its descriptors (FileCount).  The image that
      mkfs makes satisfies what the theorems about paths assume of a disk, and holds
      the files it was given (MkfsTheorems).
    - Programs: exec gives the process the segments of the file, a guarded stack and
      the arguments of main; a failing exec returns -1 (ExecTheorems).
    - Memory: pages are never given out twice (Kalloc); address spaces are isolated
      from each other and from the kernel, and growing, copying and freeing them
      touches nothing else (VmTheorems); the blocks of malloc are disjoint, and
      all of them together are one block once freed (UmallocTheorems).
    - Processes: fork makes a copy of the caller or undoes what it did; exit leaves a
      zombie, hands the children to init and wakes the parent; these, wait, sleep,
      wakeup, kill, the scheduler and the promotion keep every process on the one
      list its state and priority name (ProcTheorems).  A timer interrupt wakes the
      process that waits for the clock and preempts every tenth tick, an exception
      ends the process (Trap), and a sleep lasts the ticks asked for on a clock that
      wraps around (Sysproc).
    - The terminal: the parser of the shell accepts exactly the lines of its grammar,
      a pipeline is connected as written, and no input stops the shell, also without
      memory (ShellTheorems, ShellRun); what is typed, on the keys of a PC keyboard, and
      edited is what a read returns (ConsoleTheorems, Kbd).
    - Bounds and errors: the ranges that arguments of system calls are checked
      against, and where the checks fall short (Syscall, FileTheorems,
      UmallocTheorems), and the root directory of mkfs that covers a block it does
      not have (MkfsTheorems); the theorems about code that does not do what it means to
      are about the code as it is.

    ** What stands for code outside

    The answers of the kernel to [sbrk], the memory [malloc] has for the shell, the
    results of [read] in grep and of the
    host's [read] in mkfs, and the memory and file system calls of proc.c are
    arguments, with what they may do as named hypotheses (or the class [ProcEnv]).
    So are the handlers of the devices in trap.c, the interrupt controller, the
    console and the fault address (the class [TrapEnv]), and the real-time clock and
    the power port of sysproc.c ([SysprocEnv]).  The tick counter is part of the
    state of Proc.  The disk controller follows the ATA interface the driver
    programs.

    ** Not modelled

    - trapasm.S, swtch.S, vectors.pl, tvinit and idtinit of trap.c, the boot code
      (bootasm.S, entry.S, entryother.S, bootmain.c, main.c, mp.c) and the devices
      (lapic.c, ioapic.c, picirq.c, timer.c, uart.c): assembler, descriptor tables
      and device registers whose behaviour is not in the sources.
    - the user programs but grep and the shell, and the tests: they only make system
      calls and print.
    - the line of leftover characters the shell prints before a syntax error, and the
      line iinit prints.
    - the debugging dumps of proc.c, seginit, ideinit and getcallerpcs: printing
      and register set-up. *)

From stdpp Require Import base numbers list strings gmap.

#[global] Set Default Goal Selector "!".

Open Scope Z_scope.

(** ** Machine integers

    [uint] is a 32-bit unsigned word, [int] its signed reading, [ushort]
    and [uchar] the 16- and 8-bit words.  A value is kept as a [Z] in range
    and every arithmetic operation of the code that can leave the range is
    wrapped explicitly. *)

Definition u32 (z : Z) : Z := z mod 2 ^ 32.
Definition u16 (z : Z) : Z := z mod 2 ^ 16.
Definition u8 (z : Z) : Z := z mod 2 ^ 8.

(** The signed reading of a 32-bit word (two's complement). *)
Definition s32 (z : Z) : Z := (z + 2 ^ 31) mod 2 ^ 32 - 2 ^ 31.

(** The signed reading of a byte: plain [char] is signed on i386. *)
Definition s8 (z : Z) : Z := (z + 2 ^ 7) mod 2 ^ 8 - 2 ^ 7.

Lemma u32_small z : 0 <= z < 2 ^ 32 -> u32 z = z.
Proof. intros. by apply Z.mod_small. Qed.

Lemma s32_id z : -2 ^ 31 <= z < 2 ^ 31 -> s32 z = z.
Proof. intros. unfold s32. rewrite Z.mod_small; lia. Qed.

(** ** Record update

    [update eta proj v x] is the record [x] with field [proj] set to [v], for
    the eta-expansion [eta] of the record type. *)
Ltac update eta proj v x :=
  let e := eval unfold eta in eta in
  let t := eval pattern proj in e in
  match t with
  | ?g _ => let r := eval cbv beta in (g (fun _ => v) x) in exact r
  end.

(** Replace [t] by a variable [x], of which only the hypotheses already
    proved about [t] are kept. *)
Ltac abstract_as t x := let e := fresh in remember t as x eqn:e in *; clear e.

(** ** Outcomes

    A kernel routine returns normally, stops the machine with [panic],
    dereferences an invalid pointer, spins on a lock that another CPU holds,
    sleeps until another process or an interrupt wakes it, or (in a loop of the
    model that is bounded by fuel) has not finished. *)

Inductive error :=
  | Panic (msg : string)
  | Fault
  | Spin
  | Asleep
  | NoFuel.

Inductive outcome (A : Type) :=
  | Ok (a : A)
  | Err (e : error).
Arguments Ok {A} a.
Arguments Err {A} e.

#[export] Instance error_eq_dec : EqDecision error.
Proof. solve_decision. Defined.

#[export] Instance outcome_ret : MRet outcome := fun A a => Ok a.
#[export] Instance outcome_bind : MBind outcome := fun A B f m =>
  match m with Ok a => f a | Err e => Err e end.

(** State passing over [outcome]. *)
Definition M (S A : Type) : Type := S -> outcome (A * S).

#[export] Instance M_ret {S} : MRet (M S) := fun A a s => Ok (a, s).
#[export] Instance M_bind {S} : MBind (M S) := fun A B f m s =>
  match m s with Ok (a, s') => f a s' | Err e => Err e end.

Section monad.
Context {S : Type}.

Definition get : M S S := fun s => Ok (s, s).
Definition put (s : S) : M S unit := fun _ => Ok (tt, s).
Definition gets {A} (f : S -> A) : M S A := fun s => Ok (f s, s).
Definition modify (f : S -> S) : M S unit := fun s => Ok (tt, f s).
Definition fail {A} (e : error) : M S A := fun _ => Err e.
Definition panic {A} (msg : string) : M S A := fail (Panic msg).
Definition lift {A} (o : outcome A) : M S A := fun s =>
    match o with Ok a => Ok (a, s) | Err e => Err e end.
Definition when (b : bool) (m : M S unit) : M S unit :=
    if b then m else mret tt.

Lemma bind_Ok {A B} (m : M S A) (f : A -> M S B) s a s' :
    m s = Ok (a, s') -> (m ≫= f) s = f a s'.
Proof. unfold mbind, M_bind. by intros ->. Qed.

Lemma bind_Err {A B} (m : M S A) (f : A -> M S B) s e :
    m s = Err e -> (m ≫= f) s = Err e.
Proof. unfold mbind, M_bind. by intros ->. Qed.

Lemma bind_Ok_inv {A B} (m : M S A) (f : A -> M S B) s b s' :
    (m ≫= f) s = Ok (b, s') -> exists a s1, m s = Ok (a, s1) /\ f a s1 = Ok (b, s').
Proof. unfold mbind, M_bind. destruct (m s) as [[a s1]|]; naive_solver. Qed.
End monad.

(** ** Weakest preconditions

    [wp E m Q s]: run from [s], [m] either returns a value and a state that
    satisfy [Q], or stops with an error allowed by [E].  With [E] empty it is
    total correctness. *)
Definition wp {S A} (E : error -> Prop) (m : M S A) (Q : A -> S -> Prop) (s : S) : Prop :=
  match m s with
  | Ok (a, s') => Q a s'
  | Err e => E e
  end.

Definition no_error (e : error) : Prop := False.

Section wp.
Context {S : Type} {E : error -> Prop}.

Lemma wp_bind {A B} (m : M S A) (f : A -> M S B) Q s :
  wp E m (fun a => wp E (f a) Q) s -> wp E (m ≫= f) Q s.
Proof. unfold wp, mbind, M_bind. by destruct (m s) as [[]|]. Qed.

Lemma wp_mono {A} (m : M S A) (P Q : A -> S -> Prop) s :
  wp E m P s -> (forall a s', P a s' -> Q a s') -> wp E m Q s.
Proof. unfold wp. destruct (m s) as [[]|]; auto. Qed.

Lemma wp_ret {A} (a : A) (Q : A -> S -> Prop) s : Q a s -> wp E (mret a) Q s.
Proof. done. Qed.

Lemma wp_gets {A} (f : S -> A) (Q : A -> S -> Prop) s : Q (f s) s -> wp E (gets f) Q s.
Proof. done. Qed.

Lemma wp_get (Q : S -> S -> Prop) s : Q s s -> wp E get Q s.
Proof. done. Qed.

Lemma wp_modify (f : S -> S) (Q : unit -> S -> Prop) s : Q tt (f s) -> wp E (modify f) Q s.
Proof. done. Qed.

Lemma wp_lift {A} (o : outcome A) (Q : A -> S -> Prop) s a :
  o = Ok a -> Q a s -> wp E (lift o) Q s.
Proof. intros ->. done. Qed.

Lemma wp_when (b : bool) (m : M S unit) (Q : unit -> S -> Prop) s :
  (b = true -> wp E m Q s) -> (b = false -> Q tt s) -> wp E (when b m) Q s.
Proof. destruct b; intros H1 H2; [by apply H1|by apply H2]. Qed.

Lemma wp_Ok {A} (m : M S A) (Q : A -> S -> Prop) s a s' :
  m s = Ok (a, s') -> Q a s' -> wp E m Q s.
Proof. unfold wp. by intros ->. Qed.

(** An exact result, by execution. *)
Lemma wp_eq {A} (m : M S A) s a s' :
  wp no_error m (fun b t => b = a /\ t = s') s -> m s = Ok (a, s').
Proof. unfold wp. destruct (m s) as [[b t]|]; [by intros [-> ->]|done]. Qed.

Lemma wp_no_error {A} (m : M S A) (Q : A -> S -> Prop) s :
  wp no_error m Q s -> exists a s', m s = Ok (a, s') /\ Q a s'.
Proof. unfold wp. destruct (m s) as [[a s']|]; [eauto|done]. Qed.
End wp.

(** What a rule says of a run that did return. *)
Lemma wp_run {S A} (m : M S A) (Q : A -> S -> Prop) s a s' :
  m s = Ok (a, s') -> wp (fun _ => True) m Q s -> Q a s'.
Proof. unfold wp. intros ->. done. Qed.

(** ** Lists *)

Lemma NoDup_bounded_length (xs : list nat) n :
  NoDup xs -> (forall x, x ∈ xs -> (x < n)%nat) -> (length xs <= n)%nat.
Proof.
  intros Hnd Hb. rewrite <- (length_seq n 0). apply submseteq_length, NoDup_submseteq; [done|].
  intros x Hx. apply elem_of_seq. specialize (Hb x Hx). lia.
Qed.
