(* ===== verification/Strings.v ===== *)
(** * Byte strings (string.c, ulib.c)

    A byte is a [Z] between 0 and 255.  A routine that walks a [char *] gets
    the bytes of the object from that address on as a list; running off the
    end of the list is a fault.  [memset] and [memmove], whose two pointers
    may point into one object, work on indices of one memory. *)

From stdpp Require Import base numbers list sets strings.
From S2P Require Import Prelude.

Open Scope Z_scope.

Definition byte (z : Z) : Prop := 0 <= z < 256.

(** The bytes of a C string up to its terminator. *)
Fixpoint cstr (s : list Z) : list Z :=
  match s with
  | [] => []
  | c :: s => if c =? 0 then [] else c :: cstr s
  end.

(** The object at [s] holds a terminated string. *)
Definition terminated (s : list Z) : Prop := 0 ∈ s.

(** ** string.c *)

(** [n] stores of one byte from index [d] on ([stosb]). *)
Fixpoint stosb (m : list Z) (d : nat) (c : Z) (n : nat) : outcome (list Z) :=
  match n with
  | O => Ok m
  | S n => match m !! d with
           | Some _ => stosb (<[d := u8 c]> m) (S d) c n
           | None => Err Fault
           end
  end.

(** [n] stores of one little-endian word from index [d] on ([stosl]). *)
Fixpoint stosl (m : list Z) (d : nat) (w : Z) (n : nat) : outcome (list Z) :=
  match n with
  | O => Ok m
  | S n =>
      m ← stosb m d w 1;
      m ← stosb m (d + 1) (Z.shiftr w 8) 1;
      m ← stosb m (d + 2) (Z.shiftr w 16) 1;
      m ← stosb m (d + 3) (Z.shiftr w 24) 1;
      stosl m (d + 4) w n
  end.

Definition memset (m : list Z) (dst : nat) (c : Z) (n : nat) : outcome (list Z) :=
  if ((dst mod 4 =? 0) && (n mod 4 =? 0))%nat then
    let c := Z.land c 255 in
    stosl m dst (Z.lor (Z.lor (Z.lor (Z.shiftl c 24) (Z.shiftl c 16)) (Z.shiftl c 8)) c)
      (n / 4)
  else stosb m dst c n.

Fixpoint memcmp (s1 s2 : list Z) (n : nat) {struct n} : outcome Z :=
  match n with
  | O => Ok 0
  | S n =>
      match s1, s2 with
      | a :: s1, b :: s2 => if negb (a =? b) then Ok (a - b) else memcmp s1 s2 n
      | _, _ => Err Fault
      end
  end.

(** [*d++ = *s++], [n] times. *)
Fixpoint copy_up (m : list Z) (d s n : nat) : outcome (list Z) :=
  match n with
  | O => Ok m
  | S n => match m !! s, m !! d with
           | Some c, Some _ => copy_up (<[d := c]> m) (S d) (S s) n
           | _, _ => Err Fault
           end
  end.

(** [*--d = *--s], [n] times, with [d] and [s] one past the last byte. *)
Fixpoint copy_down (m : list Z) (d s n : nat) : outcome (list Z) :=
  match n with
  | O => Ok m
  | S n => match m !! (s - 1)%nat, m !! (d - 1)%nat with
           | Some c, Some _ => copy_down (<[(d - 1)%nat := c]> m) (d - 1) (s - 1) n
           | _, _ => Err Fault
           end
  end.

Definition memmove (m : list Z) (dst src n : nat) : outcome (list Z) :=
  if ((src <? dst) && (dst <? src + n))%nat then
    copy_down m (dst + n) (src + n) n
  else copy_up m dst src n.

Fixpoint strncmp (p q : list Z) (n : nat) {struct n} : outcome Z :=
  match n with
  | O => Ok 0
  | S n =>
      match p, q with
      | a :: p, b :: q =>
          if negb (a =? 0) && (a =? b) then strncmp p q n else Ok (a - b)
      | _, _ => Err Fault
      end
  end.

(** [while(n-- > 0) *s++ = 0]. *)
Fixpoint zero_fill (s : list Z) (n : nat) {struct n} : outcome (list Z) :=
  match n with
  | O => Ok s
  | S n => match s with
           | _ :: s => r ← zero_fill s n; Ok (0 :: r)
           | [] => Err Fault
           end
  end.

Fixpoint strncpy (s t : list Z) (n : nat) {struct n} : outcome (list Z) :=
  match n with
  | O => Ok s
  | S n =>
      match s, t with
      | _ :: s, c :: t =>
          if c =? 0 then r ← zero_fill s n; Ok (0 :: r)
          else r ← strncpy s t n; Ok (c :: r)
      | _, _ => Err Fault
      end
  end.

(** [while(--n > 0 && ( *s++ = *t++) != 0); *s = 0], where [n] is already
    decremented.  The pointer [s] is past the copied NUL when the loop ends
    because of it. *)
Fixpoint safestrcpy_loop (s t : list Z) (n : nat) {struct n} : outcome (list Z) :=
  match n with
  | O => match s with _ :: s => Ok (0 :: s) | [] => Err Fault end
  | S n =>
      match s, t with
      | _ :: s, c :: t =>
          if c =? 0 then
            match s with _ :: s => Ok (0 :: 0 :: s) | [] => Err Fault end
          else r ← safestrcpy_loop s t n; Ok (c :: r)
      | _, _ => Err Fault
      end
  end.

Definition safestrcpy (s t : list Z) (n : Z) : outcome (list Z) :=
  if n <=? 0 then Ok s else safestrcpy_loop s t (Z.to_nat (n - 1)).

Fixpoint strlen (s : list Z) : outcome Z :=
  match s with
  | [] => Err Fault
  | c :: s => if c =? 0 then Ok 0 else n ← strlen s; Ok (n + 1)
  end.

(** ** ulib.c *)

Module Ulib.

Fixpoint strcpy (s t : list Z) : outcome (list Z) :=
  match s, t with
  | _ :: s, c :: t => if c =? 0 then Ok (0 :: s) else r ← strcpy s t; Ok (c :: r)
  | _, _ => Err Fault
  end.

Fixpoint strcmp (p q : list Z) : outcome Z :=
  match p, q with
  | a :: p, b :: q => if negb (a =? 0) && (a =? b) then strcmp p q else Ok (a - b)
  | _, _ => Err Fault
  end.

(** [strchr] returns the string from the first [c] on, or null. *)
Fixpoint strchr (s : list Z) (c : Z) : outcome (option (list Z)) :=
  match s with
  | [] => Err Fault
  | x :: s' => if x =? 0 then Ok None else if x =? c then Ok (Some s) else strchr s' c
  end.

(** ulib's [memmove] only copies upwards. *)
Definition umemmove (m : list Z) (dst src n : nat) : outcome (list Z) :=
  copy_up m dst src n.

Fixpoint skip_spaces (s : list Z) : list Z :=
  match s with
  | c :: s' => if c =? 32 then skip_spaces s' else s
  | [] => []
  end.

(** [while('0' <= *s && *s <= last) n = n*base + *s++ - '0'] in [int]. *)
Fixpoint digits_loop (base last n : Z) (s : list Z) : Z :=
  match s with
  | c :: s => if (48 <=? s8 c) && (s8 c <=? last)
              then digits_loop base last (s32 (n * base + c - 48)) s
              else n
  | [] => n
  end.

(** The common body of [atoi] (base 10, digits to '9') and [atoo] (base 8,
    digits to '7'). *)
Definition parse_int (base last : Z) (s : list Z) : Z :=
  let s := skip_spaces s in
  let sign := if bool_decide (head s = Some 45) then -1 else 1 in
  let s := if bool_decide (head s = Some 43 \/ head s = Some 45) then tail s else s in
  s32 (sign * digits_loop base last 0 s).

Definition atoi (s : list Z) : Z := parse_int 10 57 s.
Definition atoo (s : list Z) : Z := parse_int 8 55 s.

End Ulib.

(** ** Block copies *)

(** Memory [m'] is [m] with the [n] bytes from [d] on given by [f]. *)
Definition updated (m m' : list Z) (d n : nat) (f : nat -> option Z) : Prop :=
  forall i, m' !! i = if decide (d <= i < d + n)%nat then f i else m !! i.

Lemma stosb_spec m d c n :
  (d + n <= length m)%nat ->
  exists m', stosb m d c n = Ok m' /\ length m' = length m /\
    updated m m' d n (fun _ => Some (u8 c)).
Proof.
  revert m d. induction n as [|n IH]; intros m d Hl; simpl.
  - exists m. split_and!; [done..|]. intros i. by rewrite decide_False by lia.
  - destruct (lookup_lt_is_Some_2 m d) as [x ->]; [lia|].
    destruct (IH (<[d := u8 c]> m) (S d)) as (m' & -> & Hlen & Hu).
    { rewrite length_insert. lia. }
    exists m'. rewrite length_insert in Hlen. split_and!; [done..|]. intros i. rewrite Hu.
    destruct (decide (i = d)) as [->|].
    + rewrite decide_False, decide_True by lia. apply list_lookup_insert_eq. lia.
    + rewrite list_lookup_insert_ne by done. by repeat case_decide; try lia.
Qed.

Lemma stosl_spec m d w c n :
  u8 w = c -> u8 (Z.shiftr w 8) = c -> u8 (Z.shiftr w 16) = c -> u8 (Z.shiftr w 24) = c ->
  (d + 4 * n <= length m)%nat ->
  exists m', stosl m d w n = Ok m' /\ length m' = length m /\
    updated m m' d (4 * n) (fun _ => Some c).
Proof.
  intros E0 E1 E2 E3. revert m d. induction n as [|n IH]; intros m d Hl.
  - exists m. split_and!; [done..|]. intros i. by rewrite decide_False by lia.
  - cbn [stosl]. unfold mbind, outcome_bind.
    destruct (stosb_spec m d w 1) as (m0 & -> & L0 & U0); [lia|].
    destruct (stosb_spec m0 (d + 1) (Z.shiftr w 8) 1) as (m1 & -> & L1 & U1); [lia|].
    destruct (stosb_spec m1 (d + 2) (Z.shiftr w 16) 1) as (m2 & -> & L2 & U2); [lia|].
    destruct (stosb_spec m2 (d + 3) (Z.shiftr w 24) 1) as (m3 & -> & L3 & U3); [lia|].
    destruct (IH m3 (d + 4)%nat) as (m4 & -> & L4 & U4); [lia|].
    exists m4. split_and!; [done|lia|]. intros i. rewrite U4, U3, U2, U1, U0.
    repeat case_decide; try lia; congruence.
Qed.

(** The word [memset] stores has the byte [c] in every position. *)
Lemma splat_byte c k :
  k = 0 \/ k = 8 \/ k = 16 \/ k = 24 ->
  let b := Z.land c 255 in
  u8 (Z.shiftr (Z.lor (Z.lor (Z.lor (Z.shiftl b 24) (Z.shiftl b 16)) (Z.shiftl b 8)) b) k) = u8 c.
Proof.
  intros Hk b. unfold u8. rewrite <- !Z.land_ones by lia. apply Z.bits_inj'. intros i Hi.
  rewrite (Z.land_spec _ (Z.ones 8)), (Z.land_spec c (Z.ones 8)).
  destruct (Z.le_gt_cases 8 i) as [Hge|Hlt].
  { rewrite !Z.ones_spec_high by lia. by rewrite !andb_false_r. }
  rewrite !Z.ones_spec_low by lia. rewrite !andb_true_r, Z.shiftr_spec by lia.
  rewrite !Z.lor_spec, !Z.shiftl_spec by lia. unfold b.
  change 255 with (Z.ones 8).
  assert (Hb : forall j, j < 0 \/ 8 <= j -> Z.testbit (Z.land c (Z.ones 8)) j = false).
  { intros j [Hj|Hj]; [by apply Z.testbit_neg_r|].
    by rewrite Z.land_spec, Z.ones_spec_high, andb_false_r by lia. }
  assert (Hc : Z.testbit (Z.land c (Z.ones 8)) i = Z.testbit c i).
  { by rewrite Z.land_spec, Z.ones_spec_low, andb_true_r by lia. }
  destruct Hk as [->|[->|[->| ->]]].
  - rewrite (Hb (i + 0 - 24)), (Hb (i + 0 - 16)), (Hb (i + 0 - 8)) by lia.
    by rewrite Z.add_0_r.
  - rewrite (Hb (i + 8 - 24)), (Hb (i + 8 - 16)), (Hb (i + 8)) by lia.
    by replace (i + 8 - 8) with i by lia; rewrite orb_false_r.
  - rewrite (Hb (i + 16 - 24)), (Hb (i + 16 - 8)), (Hb (i + 16)) by lia.
    by replace (i + 16 - 16) with i by lia; rewrite !orb_false_r.
  - rewrite (Hb (i + 24 - 16)), (Hb (i + 24 - 8)), (Hb (i + 24)) by lia.
    by replace (i + 24 - 24) with i by lia; rewrite !orb_false_r.
Qed.

Lemma memset_updated m dst c n :
  (dst + n <= length m)%nat ->
  exists m', memset m dst c n = Ok m' /\ length m' = length m /\
    updated m m' dst n (fun _ => Some (u8 c)).
Proof.
  intros Hl. unfold memset. destruct (_ && _) eqn:E; [|by apply stosb_spec].
  apply andb_true_iff in E as [_ E%Nat.eqb_eq]. apply Nat.Div0.div_exact in E.
  destruct (stosl_spec m dst
    (let b := Z.land c 255 in
     Z.lor (Z.lor (Z.lor (Z.shiftl b 24) (Z.shiftl b 16)) (Z.shiftl b 8)) b)
    (u8 c) (n / 4)) as (m' & Hm & Hlen & Hu).
  - pose proof (splat_byte c 0 ltac:(lia)) as H. cbv zeta in H. by rewrite Z.shiftr_0_r in H.
  - apply (splat_byte c 8). lia.
  - apply (splat_byte c 16). lia.
  - apply (splat_byte c 24). lia.
  - lia.
  - exists m'. rewrite <- E in Hu. eauto.
Qed.

Lemma copy_up_spec m d s n :
  (d + n <= length m)%nat -> (s + n <= length m)%nat ->
  (d <= s \/ s + n <= d)%nat ->
  exists m', copy_up m d s n = Ok m' /\ length m' = length m /\
    updated m m' d n (fun i => m !! (s + (i - d))%nat).
Proof.
  revert m d s. induction n as [|n IH]; intros m d s Hd Hs Ho; simpl.
  - exists m. split_and!; [done..|]. intros i. by rewrite decide_False by lia.
  - destruct (lookup_lt_is_Some_2 m s) as [c Hc]; [lia|].
    destruct (lookup_lt_is_Some_2 m d) as [x Hx]; [lia|]. rewrite Hc, Hx.
    destruct (IH (<[d := c]> m) (S d) (S s)) as (m' & -> & Hlen & Hu);
      [rewrite ?length_insert; lia..|].
    exists m'. rewrite length_insert in Hlen. split_and!; [done..|]. intros i. rewrite Hu.
    destruct (decide (i = d)) as [->|].
    + rewrite decide_False, decide_True by lia. rewrite list_lookup_insert_eq by lia.
      by rewrite Nat.sub_diag, Nat.add_0_r.
    + rewrite (list_lookup_insert_ne m d i) by done. repeat case_decide; try lia; [|done].
      rewrite list_lookup_insert_ne by lia. f_equal. lia.
Qed.

Lemma copy_down_spec m d s n :
  (n <= s)%nat -> (s <= d)%nat -> (d <= length m)%nat ->
  exists m', copy_down m d s n = Ok m' /\ length m' = length m /\
    updated m m' (d - n) n (fun i => m !! (s - n + (i - (d - n)))%nat).
Proof.
  revert m d s. induction n as [|n IH]; intros m d s Hn Hs Hd; simpl.
  - exists m. split_and!; [done..|]. intros i. by rewrite decide_False by lia.
  - destruct (lookup_lt_is_Some_2 m (s - 1)) as [c Hc]; [lia|].
    destruct (lookup_lt_is_Some_2 m (d - 1)) as [x Hx]; [lia|]. rewrite Hc, Hx.
    destruct (IH (<[(d - 1)%nat := c]> m) (d - 1)%nat (s - 1)%nat) as (m' & -> & Hlen & Hu);
      [rewrite ?length_insert; lia..|].
    exists m'. rewrite length_insert in Hlen. split_and!; [done..|]. intros i. rewrite Hu.
    destruct (decide (i = d - 1)%nat) as [->|].
    + rewrite decide_False, decide_True by lia. rewrite list_lookup_insert_eq by lia.
      rewrite <- Hc. f_equal. lia.
    + rewrite (list_lookup_insert_ne m (d - 1) i) by done. repeat case_decide; try lia; [|done].
      rewrite list_lookup_insert_ne by lia. f_equal. lia.
Qed.

Lemma memmove_updated m dst src n :
  (dst + n <= length m)%nat -> (src + n <= length m)%nat ->
  exists m', memmove m dst src n = Ok m' /\ length m' = length m /\
    updated m m' dst n (fun i => m !! (src + (i - dst))%nat).
Proof.
  intros Hd Hs. unfold memmove. destruct (_ && _)%nat eqn:E.
  - apply andb_true_iff in E as [E1%Nat.ltb_lt E2%Nat.ltb_lt].
    destruct (copy_down_spec m (dst + n) (src + n) n) as (m' & Hm & Hl & Hu); [lia..|].
    exists m'. rewrite !Nat.add_sub in Hu. eauto.
  - apply copy_up_spec; [done..|].
    apply andb_false_iff in E as [E%Nat.ltb_ge|E%Nat.ltb_ge]; lia.
Qed.

(** ** String routines *)

(** A string routine bounded by [n] reads the object only up to its NUL. *)
Definition readable (s : list Z) (n : nat) : Prop :=
  terminated s \/ (n <= length s)%nat.

Lemma readable_S s n :
  readable s (S n) -> exists c s', s = c :: s' /\ (c <> 0 -> readable s' n).
Proof.
  intros Hr. destruct s as [|c s].
  { destruct Hr as [H|H]; [by apply not_elem_of_nil in H|simpl in H; lia]. }
  exists c, s. split; [done|]. intros Hc. destruct Hr as [[E|H]%elem_of_cons|H]; [congruence|by left|].
  right. simpl in H. lia.
Qed.

Lemma strncmp_ok p q n :
  readable p n -> readable q n ->
  exists r, strncmp p q n = Ok r /\ (r = 0 <-> take n (cstr p) = take n (cstr q)).
Proof.
  revert p q. induction n as [|n IH]; intros p q Hp Hq; [by exists 0|].
  destruct (readable_S _ _ Hp) as (a & p' & -> & Hp').
  destruct (readable_S _ _ Hq) as (b & q' & -> & Hq'). simpl.
  destruct (Z.eqb_spec a 0) as [->|Ha]; simpl.
  - exists (0 - b). split; [done|]. destruct (Z.eqb_spec b 0); split; intros; [done|lia|lia|done].
  - destruct (Z.eqb_spec a b) as [->|Hab].
    + rewrite (proj2 (Z.eqb_neq b 0) Ha). destruct (IH p' q') as (r & Hr & Hiff); [auto..|].
      exists r. split; [done|]. rewrite Hiff. split; [intros ->; done|]. by intros [= ->].
    + exists (a - b). split; [done|]. split; [lia|].
      destruct (Z.eqb_spec b 0); [done|]. intros [= ? _]. lia.
Qed.

Lemma zero_fill_ok s n :
  (n <= length s)%nat -> zero_fill s n = Ok (replicate n 0 ++ drop n s).
Proof.
  revert s. induction n as [|n IH]; intros [|x s] Hl; simpl in *; [done..|lia|].
  rewrite IH by lia. done.
Qed.

Lemma strncpy_ok s t n :
  (n <= length s)%nat -> readable t n ->
  strncpy s t n = Ok (take n (cstr t ++ replicate n 0) ++ drop n s).
Proof.
  revert s t. induction n as [|n IH]; intros s t Hs Ht; [done|].
  destruct (readable_S _ _ Ht) as (c & t' & -> & Ht'). destruct s as [|x s]; [simpl in Hs; lia|].
  simpl in *. destruct (Z.eqb_spec c 0) as [->|Hc]; simpl.
  - rewrite zero_fill_ok by lia. simpl.
    by rewrite take_ge by (rewrite length_replicate; lia).
  - rewrite IH by (auto; lia). simpl. do 3 f_equal.
    change (0 :: replicate n 0) with (replicate (S n) 0).
    rewrite replicate_S_end, app_assoc, (take_app_le _ [0]); [done|].
    rewrite length_app, length_replicate. lia.
Qed.

Lemma safestrcpy_loop_ok s t n :
  (n < length s)%nat -> readable t n ->
  exists r, safestrcpy_loop s t n = Ok r /\ length r = length s /\
    cstr r = take n (cstr t) /\ 0 ∈ take (S n) r /\ drop (S n) r = drop (S n) s.
Proof.
  revert s t. induction n as [|n IH]; intros s t Hs Ht.
  - destruct s as [|x s]; [simpl in Hs; lia|]. simpl. eexists. split_and!; [done..|set_solver|done].
  - destruct (readable_S _ _ Ht) as (c & t' & -> & Ht'). destruct s as [|x s]; [simpl in Hs; lia|].
    simpl in Hs |- *. destruct (Z.eqb_spec c 0) as [->|Hc].
    + destruct s as [|y s]; [simpl in Hs; lia|]. eexists. split_and!; [done..|set_solver|done].
    + destruct (IH s t') as (r & -> & Hl & Hr & H0 & Hd); [lia|auto|]. simpl.
      eexists. split_and!; [done|simpl; lia|simpl|simpl; set_solver|done].
      rewrite (proj2 (Z.eqb_neq c 0) Hc). by rewrite Hr.
Qed.

Lemma strlen_ok s : terminated s -> strlen s = Ok (Z.of_nat (length (cstr s))).
Proof.
  intros H. induction s as [|c s IH]; [by apply not_elem_of_nil in H|]. simpl.
  destruct (Z.eqb_spec c 0) as [->|Hc]; [done|].
  apply elem_of_cons in H as [|H]; [done|]. rewrite IH by done. simpl. f_equal. lia.
Qed.

(** ** Properties *)

(** The kernel's [memmove] copies the bytes the source held before the
    call, whether or not the areas overlap, and changes nothing else. *)
Theorem memmove_correct m dst src n :
  (dst + n <= length m)%nat -> (src + n <= length m)%nat ->
  exists m', memmove m dst src n = Ok m' /\ length m' = length m /\
    forall i, m' !! i = if decide (dst <= i < dst + n)%nat then m !! (src + (i - dst))%nat else m !! i.
Proof. apply memmove_updated. Qed.

Lemma memmove_correct_witness :
  exists m', memmove [1; 2; 3; 4; 5; 6] 2 0 4 = Ok m' /\ length m' = 6%nat /\
    forall i, m' !! i = if decide (2 <= i < 2 + 4)%nat then [1; 2; 3; 4; 5; 6] !! (0 + (i - 2))%nat
                     else [1; 2; 3; 4; 5; 6] !! i.
Proof. apply (memmove_correct [1; 2; 3; 4; 5; 6] 2 0 4); simpl; lia. Defined.

(** [memset] stores the low byte of its argument in the [n] bytes and
    nowhere else, by words or by bytes depending on the alignment. *)
Theorem memset_correct m dst c n :
  (dst + n <= length m)%nat ->
  exists m', memset m dst c n = Ok m' /\ length m' = length m /\
    forall i, m' !! i = if decide (dst <= i < dst + n)%nat then Some (u8 c) else m !! i.
Proof. apply memset_updated. Qed.

Lemma memset_correct_witness :
  exists m', memset (replicate 12 7) 4 (-1) 8 = Ok m' /\ length m' = 12%nat /\
    forall i, m' !! i = if decide (4 <= i < 4 + 8)%nat then Some (u8 (-1)) else replicate 12 7 !! i.
Proof. apply (memset_correct (replicate 12 7) 4 (-1) 8). simpl. lia. Defined.

(** [safestrcpy] into a buffer of at least [n] bytes always leaves a
    terminated string, the source cut to [n-1] bytes, and writes nothing past
    the [n] bytes; [strncpy] pads with NULs but does not terminate a string of
    [n] bytes or more. *)
Theorem safestrcpy_strncpy s t n :
  (n < length s)%nat -> readable t (S n) ->
  (exists r, safestrcpy s t (Z.of_nat (S n)) = Ok r /\ length r = length s /\
     cstr r = take n (cstr t) /\ 0 ∈ take (S n) r /\ drop (S n) r = drop (S n) s) /\
  strncpy s t (S n) = Ok (take (S n) (cstr t ++ replicate (S n) 0) ++ drop (S n) s).
Proof.
  intros Hs Ht. assert (Htn : readable t n) by (destruct Ht; [by left|right; lia]).
  split; [|apply strncpy_ok; [lia|done]]. unfold safestrcpy.
  destruct (Z.leb_spec (Z.of_nat (S n)) 0); [lia|].
  replace (Z.to_nat (Z.of_nat (S n) - 1)) with n by lia. by apply safestrcpy_loop_ok.
Qed.

Lemma safestrcpy_strncpy_witness :
  (exists r, safestrcpy [9; 9; 9; 9] [104; 105; 33; 33; 0] 4 = Ok r /\ length r = 4%nat /\
     cstr r = take 3 (cstr [104; 105; 33; 33; 0]) /\ 0 ∈ take 4 r /\ drop 4 r = []) /\
  strncpy [9; 9; 9; 9] [104; 105; 33; 33; 0] 4
    = Ok (take 4 (cstr [104; 105; 33; 33; 0] ++ replicate 4 0) ++ []).
Proof.
  apply (safestrcpy_strncpy [9; 9; 9; 9] [104; 105; 33; 33; 0] 3); [simpl; lia|].
  right. simpl. lia.
Defined.
