(* ===== verification/Bytes.v ===== *)
(** * Byte blocks

    Disk blocks, pages and C structures laid out in memory are lists of bytes.
    [rd_bytes] and [wr_bytes] are a bounded read and write at an offset, and
    [le_bytes]/[le_val] the little-endian layout of the x86 integers. *)

From stdpp Require Import base numbers list.
From S2P Require Import Prelude Strings.

Open Scope Z_scope.

Definition rd_bytes (m : list Z) (off n : nat) : option (list Z) :=
  if (off + n <=? length m)%nat then Some (take n (drop off m)) else None.

Definition wr_bytes (m : list Z) (off : nat) (bs : list Z) : option (list Z) :=
  if (off + length bs <=? length m)%nat then
    Some (take off m ++ bs ++ drop (off + length bs) m)
  else None.

Fixpoint le_bytes (n : nat) (z : Z) : list Z :=
  match n with
  | O => []
  | S n => z mod 256 :: le_bytes n (z / 256)
  end.

Fixpoint le_val (bs : list Z) : Z :=
  match bs with
  | [] => 0
  | b :: bs => b + 256 * le_val bs
  end.

(** [uint], [ushort] fields at a byte offset. *)
Definition get32 (m : list Z) (off : nat) : option Z := le_val <$> rd_bytes m off 4.
Definition put32 (m : list Z) (off : nat) (v : Z) : option (list Z) := wr_bytes m off (le_bytes 4 v).
Definition get16 (m : list Z) (off : nat) : option Z := le_val <$> rd_bytes m off 2.
Definition put16 (m : list Z) (off : nat) (v : Z) : option (list Z) := wr_bytes m off (le_bytes 2 v).

(** ** Lengths and bounds *)

Lemma length_le_bytes n z : length (le_bytes n z) = n.
Proof. revert z. induction n; intros; cbn; auto. Qed.

Lemma le_bytes_byte n z : Forall byte (le_bytes n z).
Proof.
  revert z. induction n as [|n IH]; intros z; cbn; constructor; [|apply IH].
  unfold byte. pose proof (Z.mod_pos_bound z 256). lia.
Qed.

Lemma le_val_bytes n z : le_val (le_bytes n z) = z mod 256 ^ Z.of_nat n.
Proof.
  revert z. induction n as [|n IH]; intros z; [simpl; by rewrite Z.mod_1_r|].
  cbn [le_bytes le_val]. rewrite IH, Nat2Z.inj_succ, Z.pow_succ_r by lia.
  rewrite Z.rem_mul_r by lia. lia.
Qed.

Lemma le_val_range bs : Forall byte bs -> 0 <= le_val bs < 256 ^ Z.of_nat (length bs).
Proof.
  induction 1 as [|b bs Hb _ IH]; [simpl; lia|]. unfold byte in Hb.
  cbn [le_val length]. rewrite Nat2Z.inj_succ, Z.pow_succ_r by lia. lia.
Qed.

Lemma le_bytes_val bs : Forall byte bs -> le_bytes (length bs) (le_val bs) = bs.
Proof.
  induction 1 as [|b bs Hb _ IH]; [done|]. unfold byte in Hb. cbn [le_val length le_bytes].
  replace (b + 256 * le_val bs) with (le_val bs * 256 + b) by lia.
  rewrite Z.div_add_l, Z.div_small, Z.add_0_r, IH by lia. f_equal.
  rewrite Z.add_comm, Z.mod_add, Z.mod_small; lia.
Qed.

Lemma rd_bytes_Some m off n : (off + n <= length m)%nat -> rd_bytes m off n = Some (take n (drop off m)).
Proof. intros H. unfold rd_bytes. by rewrite (proj2 (Nat.leb_le _ _) H). Qed.

Lemma rd_bytes_length m off n bs : rd_bytes m off n = Some bs -> length bs = n /\ (off + n <= length m)%nat.
Proof.
  unfold rd_bytes. destruct (Nat.leb_spec (off + n) (length m)); [|done]. intros [= <-].
  rewrite length_take, length_drop. lia.
Qed.

Lemma wr_bytes_Some m off bs : (off + length bs <= length m)%nat ->
  wr_bytes m off bs = Some (take off m ++ bs ++ drop (off + length bs) m).
Proof. intros H. unfold wr_bytes. by rewrite (proj2 (Nat.leb_le _ _) H). Qed.

Lemma wr_bytes_inv m off bs m' : wr_bytes m off bs = Some m' ->
  (off + length bs <= length m)%nat /\ m' = take off m ++ bs ++ drop (off + length bs) m.
Proof. unfold wr_bytes. destruct (Nat.leb_spec (off + length bs) (length m)); naive_solver. Qed.

Lemma wr_bytes_length m off bs m' : wr_bytes m off bs = Some m' -> length m' = length m.
Proof.
  intros (H & ->)%wr_bytes_inv. rewrite !length_app, length_take, length_drop. lia.
Qed.

(** ** Pointwise reading *)

Lemma wr_bytes_lookup m off bs m' i : wr_bytes m off bs = Some m' ->
  m' !! i = if bool_decide (off <= i < off + length bs)%nat then bs !! (i - off)%nat else m !! i.
Proof.
  intros (H & ->)%wr_bytes_inv. case_bool_decide as Hi.
  - rewrite lookup_app_r; rewrite length_take; [|lia].
    rewrite Nat.min_l by lia. by rewrite lookup_app_l by lia.
  - destruct (decide (i < off)%nat).
    + rewrite lookup_app_l by (rewrite length_take; lia). by rewrite lookup_take_lt.
    + rewrite lookup_app_r; rewrite length_take; [|lia]. rewrite Nat.min_l by lia.
      rewrite lookup_app_r by lia. rewrite lookup_drop. f_equal. lia.
Qed.

Lemma rd_bytes_lookup m off n bs i : rd_bytes m off n = Some bs -> (i < n)%nat -> bs !! i = m !! (off + i)%nat.
Proof.
  unfold rd_bytes. destruct (_ <=? _)%nat; [|done]. intros [= <-] Hi.
  by rewrite lookup_take_lt, lookup_drop.
Qed.

Lemma rd_bytes_eq m m' off off' n :
  length m = length m' -> off = off' ->
  (forall i, (off <= i < off + n)%nat -> m !! i = m' !! i) -> rd_bytes m off n = rd_bytes m' off' n.
Proof.
  intros Hl <- H. unfold rd_bytes. rewrite <-Hl. destruct (Nat.leb_spec (off + n) (length m)); [|done].
  f_equal. apply list_eq_same_length with n; try (rewrite length_take, length_drop; lia).
  intros i x y Hi. rewrite !lookup_take_lt, !lookup_drop by lia. rewrite H by lia. congruence.
Qed.

(** ** Reading back *)

Lemma rd_wr_bytes m off bs m' : wr_bytes m off bs = Some m' -> rd_bytes m' off (length bs) = Some bs.
Proof.
  intros H. pose proof (wr_bytes_length _ _ _ _ H) as Hl. apply wr_bytes_inv in H as (Hb & ->).
  rewrite rd_bytes_Some by lia. f_equal.
  rewrite drop_app_length' by (rewrite length_take; lia). by rewrite take_app_length.
Qed.

Lemma rd_wr_bytes_other m off bs m' off' n : wr_bytes m off bs = Some m' ->
  (off' + n <= off \/ off + length bs <= off')%nat -> rd_bytes m' off' n = rd_bytes m off' n.
Proof.
  intros H Hd. apply rd_bytes_eq; [by eapply wr_bytes_length|done|].
  intros i Hi. rewrite (wr_bytes_lookup _ _ _ _ _ H). case_bool_decide; [lia|done].
Qed.

Lemma get32_put32 m off v m' : put32 m off v = Some m' -> get32 m' off = Some (v mod 2 ^ 32).
Proof.
  unfold put32, get32. intros H%rd_wr_bytes. rewrite length_le_bytes in H. rewrite H.
  change (Some (le_val (le_bytes 4 v)) = Some (v mod 2 ^ 32)). by rewrite le_val_bytes.
Qed.

Lemma get32_put32_ne m off v m' off' : put32 m off v = Some m' ->
  (off' + 4 <= off \/ off + 4 <= off')%nat -> get32 m' off' = get32 m off'.
Proof.
  unfold put32, get32. intros H Hd. f_equal. eapply rd_wr_bytes_other; [done|].
  rewrite length_le_bytes. lia.
Qed.

Lemma put32_Some m off v : (off + 4 <= length m)%nat -> is_Some (put32 m off v).
Proof. intros H. unfold put32. rewrite wr_bytes_Some; [done|]. by rewrite length_le_bytes. Qed.

Lemma get32_Some m off : (off + 4 <= length m)%nat -> is_Some (get32 m off).
Proof. intros H. unfold get32. by rewrite rd_bytes_Some. Qed.

Lemma put32_length m off v m' : put32 m off v = Some m' -> length m' = length m.
Proof. apply wr_bytes_length. Qed.

Lemma get16_put16 m off v m' : put16 m off v = Some m' -> get16 m' off = Some (v mod 2 ^ 16).
Proof.
  unfold put16, get16. intros H%rd_wr_bytes. rewrite length_le_bytes in H. rewrite H.
  change (Some (le_val (le_bytes 2 v)) = Some (v mod 2 ^ 16)). by rewrite le_val_bytes.
Qed.

Lemma get16_put16_ne m off v m' off' : put16 m off v = Some m' ->
  (off' + 2 <= off \/ off + 2 <= off')%nat -> get16 m' off' = get16 m off'.
Proof.
  unfold put16, get16. intros H Hd. f_equal. eapply rd_wr_bytes_other; [done|]. rewrite length_le_bytes. lia.
Qed.

Lemma get16_put32_ne m off v m' off' : put32 m off v = Some m' ->
  (off' + 2 <= off \/ off + 4 <= off')%nat -> get16 m' off' = get16 m off'.
Proof.
  unfold put32, get16. intros H Hd. f_equal. eapply rd_wr_bytes_other; [done|]. rewrite length_le_bytes. lia.
Qed.

Lemma get32_put16_ne m off v m' off' : put16 m off v = Some m' ->
  (off' + 4 <= off \/ off + 2 <= off')%nat -> get32 m' off' = get32 m off'.
Proof.
  unfold put16, get32. intros H Hd. f_equal. eapply rd_wr_bytes_other; [done|]. rewrite length_le_bytes. lia.
Qed.

Lemma put16_Some m off v : (off + 2 <= length m)%nat -> is_Some (put16 m off v).
Proof. intros H. unfold put16. rewrite wr_bytes_Some; [done|]. by rewrite length_le_bytes. Qed.

Lemma put16_length m off v m' : put16 m off v = Some m' -> length m' = length m.
Proof. apply wr_bytes_length. Qed.

#[global] Arguments get32 : simpl never.
#[global] Arguments put32 : simpl never.
#[global] Arguments get16 : simpl never.
#[global] Arguments put16 : simpl never.
#[global] Arguments rd_bytes : simpl never.
#[global] Arguments wr_bytes : simpl never.
#[global] Arguments le_bytes : simpl never.
