(* ===== verification/Printf.v ===== *)
(** * Formatted output (printf.c, and [printint]/[cprintf] of console.c)

    The bytes that [printf] writes to its descriptor and [cprintf] to the
    console.  The variable arguments are a list of 32-bit words; a string
    argument is an address, and [mem] gives the bytes from an address on. *)

From stdpp Require Import base numbers list sets strings.
From S2P Require Import Prelude Strings.

Open Scope Z_scope.

(** "0123456789ABCDEF" (printf.c) and "0123456789abcdef" (console.c). *)
Definition digits_upper (d : Z) : Z := if d <? 10 then 48 + d else 55 + d.
Definition digits_lower (d : Z) : Z := if d <? 10 then 48 + d else 87 + d.

(** [do { buf[i++] = digits[x % base]; } while((x /= base) != 0)]. *)
Fixpoint put_digits (digits : Z -> Z) (fuel : nat) (base x : Z) : outcome (list Z) :=
  match fuel with
  | O => Err NoFuel
  | S fuel =>
      let d := digits (x mod base) in
      let x := x / base in
      if x =? 0 then Ok [d]
      else r ← put_digits digits fuel base x; Ok (d :: r)
  end.

(** The buffer is written from its end; [char buf[16]]. *)
Definition put_number (digits : Z -> Z) (base x : Z) (neg : bool) : outcome (list Z) :=
  b ← put_digits digits 33 base x;
  let b := if neg then b ++ [45] else b in
  if (length b <=? 16)%nat then Ok (reverse b) else Err Fault.

Module User.

Definition printint (xx base : Z) (sgn : bool) : outcome (list Z) :=
  let neg := sgn && (s32 xx <? 0) in
  put_number digits_upper base (if neg then u32 (- xx) else u32 xx) neg.

(** The loop over the format; [pct] is [state == '%']. *)
Fixpoint printf_loop (mem : Z -> list Z) (pct : bool) (fmt : list Z) (ap : list Z)
    : outcome (list Z) :=
  match fmt with
  | [] => Err Fault
  | c :: fmt =>
      if c =? 0 then Ok []
      else if negb pct then
        if c =? 37 then printf_loop mem true fmt ap
        else r ← printf_loop mem false fmt ap; Ok (c :: r)
      else
        let next out ap := r ← printf_loop mem false fmt ap; Ok (out ++ r) in
        if c =? 37 then next [c] ap                                  (* %% *)
        else if (c =? 100) || (c =? 120) || (c =? 112) || (c =? 115) || (c =? 99) then
          match ap with
          | [] => Err Fault
          | a :: ap =>
              if c =? 100 then o ← printint a 10 true; next o ap        (* %d *)
              else if (c =? 120) || (c =? 112) then
                o ← printint a 16 false; next o ap                      (* %x %p *)
              else if c =? 115 then                                   (* %s *)
                let s := if a =? 0 then [40; 110; 117; 108; 108; 41; 0] else mem a in
                n ← strlen s; next (take (Z.to_nat n) s) ap
              else next [u8 a] ap                                     (* %c *)
          end
        else next [37; c] ap
  end.

Definition printf (mem : Z -> list Z) (fmt : list Z) (ap : list Z) : outcome (list Z) :=
  printf_loop mem false fmt ap.

End User.

Module Console.

Definition printint (xx base : Z) (sign : bool) : outcome (list Z) :=
  let sign := sign && (s32 xx <? 0) in
  put_number digits_lower base (if sign then u32 (- xx) else u32 xx) sign.

(** [cprintf] without its lock; [%c] is not known. *)
Fixpoint cprintf_loop (mem : Z -> list Z) (fmt : list Z) (argp : list Z) {struct fmt}
    : outcome (list Z) :=
  match fmt with
  | [] => Err Fault
  | c :: fmt =>
      if c =? 0 then Ok []
      else if negb (c =? 37) then r ← cprintf_loop mem fmt argp; Ok (c :: r)
      else
        match fmt with
        | [] => Err Fault
        | c :: fmt =>
            let next out ap := r ← cprintf_loop mem fmt ap; Ok (out ++ r) in
            if c =? 0 then Ok []
            else if c =? 37 then next [37] argp
            else if (c =? 100) || (c =? 120) || (c =? 112) || (c =? 115) then
              match argp with
              | [] => Err Fault
              | a :: argp =>
                  if c =? 100 then o ← printint a 10 true; next o argp
                  else if (c =? 120) || (c =? 112) then o ← printint a 16 false; next o argp
                  else
                    let s := if a =? 0 then [40; 110; 117; 108; 108; 41; 0] else mem a in
                    n ← strlen s; next (take (Z.to_nat n) s) argp
              end
            else next [37; c] argp
        end
  end.

Definition cprintf (mem : Z -> list Z) (fmt : list Z) (argp : list Z) : outcome (list Z) :=
  cprintf_loop mem fmt argp.

End Console.

(** ** Digits *)

Lemma s32_mod_eq a b : a mod 2 ^ 32 = b mod 2 ^ 32 -> s32 a = s32 b.
Proof.
  intros H. unfold s32. f_equal. rewrite (Z.add_mod a), (Z.add_mod b) by done. by rewrite H.
Qed.

Lemma s32_mod a : (s32 a) mod 2 ^ 32 = a mod 2 ^ 32.
Proof.
  unfold s32. rewrite Zminus_mod, Z.mod_mod by done. rewrite <- Zminus_mod.
  f_equal. lia.
Qed.

Lemma u32_mod a : (u32 a) mod 2 ^ 32 = a mod 2 ^ 32.
Proof. unfold u32. by rewrite Z.mod_mod. Qed.

Lemma s32_range a : - 2 ^ 31 <= s32 a < 2 ^ 31.
Proof. unfold s32. pose proof (Z.mod_pos_bound (a + 2 ^ 31) (2 ^ 32)). lia. Qed.

(** The digits of [x], least first. *)
Lemma put_digits_ok digits base n fuel x :
  2 <= base -> 0 <= x < base ^ Z.of_nat (S n) -> (n < fuel)%nat ->
  exists ds, put_digits digits fuel base x = Ok (digits <$> ds) /\ (1 <= length ds <= S n)%nat /\
    Forall (fun d => 0 <= d < base) ds /\
    foldl (fun v d => v * base + d) 0 (reverse ds) = x.
Proof.
  intros Hb. revert fuel x. induction n as [|n IH]; intros fuel x Hx Hf;
    (destruct fuel as [|fuel]; [lia|]); cbn [put_digits].
  - change (base ^ Z.of_nat 1) with (base ^ 1) in Hx. rewrite Z.pow_1_r in Hx.
    rewrite Z.div_small, Z.mod_small by lia. exists [x]. simpl. split_and!; [done|lia|lia| |lia].
    repeat constructor; lia.
  - assert (Hm : 0 <= x mod base < base) by (apply Z.mod_pos_bound; lia).
    assert (Hd : x = x / base * base + x mod base) by (rewrite Z.mul_comm; apply Z.div_mod; lia).
    destruct (Z.eqb_spec (x / base) 0) as [E|E].
    + exists [x mod base]. split_and!; [done|simpl; lia|simpl; lia| |simpl; lia].
      repeat constructor; lia.
    + destruct (IH fuel (x / base)) as (ds & -> & Hl & Hds & Hv); [|lia|].
      { split; [apply Z.div_pos; lia|]. apply Z.div_lt_upper_bound; [lia|].
        rewrite Nat2Z.inj_succ, Z.pow_succ_r in Hx by lia. lia. }
      exists (x mod base :: ds). split_and!; [done|simpl; lia|simpl; lia|by constructor|].
      rewrite reverse_cons, foldl_app. simpl. rewrite Hv. lia.
Qed.

(** [atoi]'s loop over decimal digits computes modulo 2^32. *)
Lemma digits_loop_value ds acc :
  Forall (fun d => 0 <= d < 10) ds ->
  Ulib.digits_loop 10 57 (s32 acc) ((digits_upper <$> ds) ++ [0])
  = s32 (foldl (fun v d => v * 10 + d) acc ds).
Proof.
  revert acc. induction ds as [|d ds IH]; intros acc Hds; [done|].
  apply Forall_cons in Hds as [Hd Hds]. cbn [fmap list_fmap app Ulib.digits_loop foldl].
  assert (E : digits_upper d = 48 + d) by (unfold digits_upper; destruct (Z.ltb_spec d 10); lia).
  rewrite E. assert (Es : s8 (48 + d) = 48 + d) by (unfold s8; rewrite Z.mod_small; lia).
  rewrite Es. destruct (Z.leb_spec 48 (48 + d)); [|lia]. destruct (Z.leb_spec (48 + d) 57); [|lia].
  simpl. rewrite <- IH by done. f_equal. apply s32_mod_eq.
  rewrite Z.add_sub_swap, (Z.add_comm (_ - 48)). replace (48 + d + (s32 acc * 10 - 48)) with (s32 acc * 10 + d) by lia.
  rewrite Z.add_mod, Z.mul_mod, s32_mod by done.
  by rewrite <- Z.mul_mod, <- Z.add_mod by done.
Qed.

Lemma put_number_ok digits base x neg n :
  2 <= base -> 0 <= x < base ^ Z.of_nat (S n) -> (S n < 16)%nat ->
  exists ds, put_number digits base x neg
      = Ok ((if neg then [45] else []) ++ reverse (digits <$> ds)) /\
    (1 <= length ds <= S n)%nat /\ Forall (fun d => 0 <= d < base) ds /\
    foldl (fun v d => v * base + d) 0 (reverse ds) = x.
Proof.
  intros Hb Hx Hn. destruct (put_digits_ok digits base n 33 x) as (ds & E & Hl & Hds & Hv); [done|done|lia|].
  exists ds. split; [|done]. unfold put_number. rewrite E. simpl.
  destruct neg.
  - destruct (Nat.leb_spec (length ((digits <$> ds) ++ [45])) 16) as [_|H].
    + by rewrite reverse_app.
    + rewrite length_app, length_fmap in H. simpl in H. lia.
  - destruct (Nat.leb_spec (length (digits <$> ds)) 16) as [_|H]; [done|].
    rewrite length_fmap in H. lia.
Qed.

(** Decimal output reads back: for every [int], printf's [%d] writes at most
    eleven bytes, never overruns its 16-byte buffer, and ulib's [atoi] of what
    it wrote is the number, [INT_MIN] included. *)
Theorem atoi_printf mem xx :
  - 2 ^ 31 <= xx < 2 ^ 31 ->
  exists out, User.printf mem [37; 100; 0] [u32 xx] = Ok out /\ (length out <= 11)%nat /\
    Ulib.atoi (out ++ [0]) = xx.
Proof.
  intros Hxx. assert (Es : s32 (u32 xx) = xx).
  { unfold s32, u32. rewrite Zplus_mod_idemp_l, Z.mod_small; lia. }
  set (neg := xx <? 0). set (x := if neg then u32 (- u32 xx) else u32 (u32 xx)).
  assert (Hx : 0 <= x < 10 ^ Z.of_nat 10).
  { assert (Hu : forall z, 0 <= u32 z < 2 ^ 32) by (intros; apply Z.mod_pos_bound; lia).
    unfold x. destruct neg; [specialize (Hu (- u32 xx))|specialize (Hu (u32 xx))]; lia. }
  destruct (put_number_ok digits_upper 10 x neg 9) as (ds & E & Hl & Hds & Hv); [lia|done|lia|].
  assert (Hrun : User.printf mem [37; 100; 0] [u32 xx]
    = Ok ((if neg then [45] else []) ++ reverse (digits_upper <$> ds))).
  { unfold User.printf. simpl. unfold User.printint. rewrite Es. change (xx <? 0) with neg.
    simpl andb. fold x. rewrite E. simpl. by rewrite app_nil_r. }
  eexists. split; [exact Hrun|]. split.
  { rewrite length_app, length_reverse, length_fmap. destruct neg; simpl; lia. }
  rewrite <- fmap_reverse, <- app_assoc. set (rs := reverse ds) in *.
  assert (Hrs : Forall (fun d => 0 <= d < 10) rs) by by apply Forall_reverse.
  pose proof (digits_loop_value rs 0 Hrs) as Hloop. rewrite Hv in Hloop.
  change (s32 0) with 0 in Hloop. unfold Ulib.atoi, Ulib.parse_int.
  destruct neg eqn:En.
  - cbn [app Ulib.skip_spaces head tail]. change (45 =? 32) with false. cbn iota.
    cbn [head tail]. rewrite !bool_decide_true by auto. cbn [tail]. rewrite Hloop.
    apply Z.ltb_lt in En. unfold x. transitivity (s32 xx); [|unfold s32; rewrite Z.mod_small; lia].
    apply s32_mod_eq. rewrite Z.mul_mod, s32_mod, u32_mod by done.
    rewrite <- Z.mul_mod by done. replace (-1 * - u32 xx) with (u32 xx) by lia. apply u32_mod.
  - assert (Hd : exists d rs', rs = d :: rs' /\ 0 <= d < 10).
    { destruct rs as [|d rs'] eqn:Er; [|apply Forall_cons in Hrs as [? _]; eauto].
      apply (f_equal length) in Er. unfold rs in Er. rewrite length_reverse in Er. simpl in Er. lia. }
    destruct Hd as (d & rs' & Er & Hd).
    assert (E48 : digits_upper d = 48 + d) by (unfold digits_upper; destruct (Z.ltb_spec d 10); lia).
    rewrite Er in *. cbn [app fmap list_fmap] in *. rewrite E48 in *.
    cbn [Ulib.skip_spaces]. destruct (Z.eqb_spec (48 + d) 32); [lia|]. cbn [head tail].
    rewrite !bool_decide_false by (intros; naive_solver lia). rewrite Hloop, Z.mul_1_l.
    apply Z.ltb_ge in En. unfold x.
    transitivity (s32 xx); [|unfold s32; rewrite Z.mod_small; lia].
    apply s32_mod_eq. by rewrite s32_mod, !u32_mod.
Qed.

Lemma atoi_printf_witness :
  exists out, User.printf (fun _ => []) [37; 100; 0] [u32 (- 2 ^ 31)] = Ok out /\
    (length out <= 11)%nat /\ Ulib.atoi (out ++ [0]) = - 2 ^ 31.
Proof. apply (atoi_printf (fun _ => []) (- 2 ^ 31)). lia. Defined.
