(* ===== verification/Umalloc.v ===== *)
(** * The user memory allocator (umalloc.c, sys_sbrk)

    The allocator of Kernighan and Ritchie: a circular list of free blocks in the
    order of their addresses, threaded through the headers at their start.
    Addresses are numbers; the memory of the process is its headers, eight bytes
    each, below the break.  The kernel's answers to [sbrk] are a list of
    booleans: whether it finds the memory.

    What a block holds after its header is the program's: the invariant says
    nothing about it, and a step of the program may write there. *)

From stdpp Require Import base numbers list gmap strings.
From S2P Require Import Prelude.

Open Scope Z_scope.

(** [union header]. *)
Record header := mkheader {
  s_ptr : Z;
  s_size : Z;
}.

Record hst := mkhst {
  h_mem : gmap Z header;
  h_brk : Z;
  h_freep : Z;
  h_grows : list bool;
}.

Definition set_h_mem (v : gmap Z header) (s : hst) : hst := mkhst v (h_brk s) (h_freep s) (h_grows s).
Definition set_h_freep (v : Z) (s : hst) : hst := mkhst (h_mem s) (h_brk s) v (h_grows s).

Definition cell (m : gmap Z header) (a : Z) : header := default (mkheader 0 0) (m !! a).

(** Loads and stores of a header below the break. *)
Definition in_memory (s : hst) (a : Z) : bool := (0 <=? a) && (a + 8 <=? h_brk s).
Definition ld (a : Z) : M hst header := fun s =>
  if in_memory s a then Ok (cell (h_mem s) a, s) else Err Fault.
Definition st (a : Z) (h : header) : M hst unit := fun s =>
  if in_memory s a then Ok (tt, set_h_mem (<[a := h]> (h_mem s)) s) else Err Fault.
Definition st_ptr (a v : Z) : M hst unit := h ← ld a; st a (mkheader v (s_size h)).
Definition st_size (a v : Z) : M hst unit := h ← ld a; st a (mkheader (s_ptr h) v).

(** [bp + n] for a [Header *bp]. *)
Definition plus (bp n : Z) : Z := u32 (bp + 8 * n).

(** [sbrk(n)], with the argument already an [int]: the old break, or -1 when the
    kernel has no memory or the process would reach the kernel's addresses. *)
Definition TOP : Z := 2 ^ 31.
Definition sbrk (n : Z) : M hst Z := fun s =>
  match h_grows s with
  | true :: g =>
      if (0 <? n) && (TOP <=? u32 (h_brk s + n)) then Ok (u32 (-1), mkhst (h_mem s) (h_brk s) (h_freep s) g)
      else Ok (h_brk s, mkhst (h_mem s) (u32 (h_brk s + n)) (h_freep s) g)
  | false :: g => Ok (u32 (-1), mkhst (h_mem s) (h_brk s) (h_freep s) g)
  | [] => Ok (u32 (-1), s)
  end.

(** The headers there are: a bound on the length of the list. *)
Definition headers (s : hst) : nat := Z.to_nat (h_brk s / 8).

(** [for(p = freep; !(bp > p && bp < p->s.ptr); p = p->s.ptr)]: the block after
    which [bp] goes. *)
Fixpoint free_find (fuel : nat) (bp p : Z) : M hst Z :=
  h ← ld p;
  if (p <? bp) && (bp <? s_ptr h) then mret p
  else if (s_ptr h <=? p) && ((p <? bp) || (bp <? s_ptr h)) then mret p
  else match fuel with
       | O => fail NoFuel
       | S fuel => free_find fuel bp (s_ptr h)
       end.

Definition free (ap : Z) : M hst unit :=
  let bp := u32 (ap - 8) in
  k ← gets headers;
  f ← gets h_freep;
  p ← free_find k bp f;
  b ← ld bp;
  h ← ld p;
  (if plus bp (s_size b) =? s_ptr h then
     n ← ld (s_ptr h);
     st_size bp (u32 (s_size b + s_size n)) ;;
     h ← ld p;
     n ← ld (s_ptr h);
     st_ptr bp (s_ptr n)
   else st_ptr bp (s_ptr h)) ;;
  h ← ld p;
  (if plus p (s_size h) =? bp then
     b ← ld bp;
     st_size p (u32 (s_size h + s_size b)) ;;
     b ← ld bp;
     st_ptr p (s_ptr b)
   else st_ptr p bp) ;;
  modify (set_h_freep p).

(** [freep] after the new memory has been freed, or 0. *)
Definition morecore (nu : Z) : M hst Z :=
  let nu := if nu <? 4096 then 4096 else nu in
  p ← sbrk (s32 (u32 (nu * 8)));
  if p =? u32 (-1) then mret 0 else
  st_size p nu ;;
  free (u32 (p + 8)) ;;
  gets h_freep.

(** The block [p], with [prevp] before it, is large enough. *)
Definition take_block (nunits prevp p : Z) : M hst Z :=
  h ← ld p;
  q ← (if s_size h =? nunits then
         st_ptr prevp (s_ptr h) ;; mret p
       else
         st_size p (u32 (s_size h - nunits)) ;;
         h ← ld p;
         let q := plus p (s_size h) in
         st_size q nunits ;;
         mret q);
  modify (set_h_freep prevp) ;;
  mret (plus q 1).

(** [for(p = prevp->s.ptr; ; prevp = p, p = p->s.ptr)]. *)
Fixpoint malloc_loop (fuel : nat) (nunits prevp p : Z) : M hst Z :=
  h ← ld p;
  if nunits <=? s_size h then take_block nunits prevp p else
  let go p := match fuel with
              | O => fail NoFuel
              | S fuel => h ← ld p; malloc_loop fuel nunits p (s_ptr h)
              end in
  f ← gets h_freep;
  if p =? f then
    p ← morecore nunits;
    if p =? 0 then mret 0 else go p
  else go p.

(** A pointer, or 0. *)
Definition malloc (base nbytes : Z) : M hst Z :=
  let nunits := u32 (nbytes + 8 - 1) / 8 + 1 in
  f ← gets h_freep;
  prevp ← (if f =? 0 then
             st_ptr base base ;; modify (set_h_freep base) ;; st_size base 0 ;; mret base
           else mret f);
  k ← gets headers;
  h ← ld prevp;
  malloc_loop (2 * k + 2) nunits prevp (s_ptr h).

(** ** The heap as a row of blocks

    [T] lists the blocks from the start [lo] of the heap on: their sizes in
    headers, and whether they are free. *)

Definition tile : Type := Z * bool.

Fixpoint span (T : list tile) : Z :=
  match T with [] => 0 | (n, _) :: T => n + span T end.

(** The blocks with mark [b], with their addresses. *)
Fixpoint marked (b : bool) (lo : Z) (T : list tile) : list (Z * Z) :=
  match T with
  | [] => []
  | (n, f) :: T => (if Bool.eqb f b then [(lo, n)] else []) ++ marked b (lo + 8 * n) T
  end.
Notation frees := (marked true).
Notation lives := (marked false).

Definition sized (T : list tile) : Prop := Forall (fun t => 0 < t.1) T.

(** No two free blocks touch. *)
Fixpoint coalesced (T : list tile) : Prop :=
  match T with
  | (_, true) :: (((_, true) :: _) as T') => False
  | _ :: T => coalesced T
  | [] => True
  end.

(** The links from [a] through the blocks [l] to [e], and the sizes of the blocks. *)
Fixpoint seg (m : gmap Z header) (a : Z) (l : list (Z * Z)) (e : Z) : Prop :=
  match l with
  | [] => s_ptr (cell m a) = e
  | (b, n) :: l => s_ptr (cell m a) = b /\ s_size (cell m b) = n /\ seg m b l e
  end.

Record heap_ok (base lo : Z) (T : list tile) (s : hst) : Prop := {
  ho_base : 0 < base /\ base + 8 <= lo;
  ho_align : (8 | lo);
  ho_sized : sized T;
  ho_coal : coalesced T;
  ho_brk : h_brk s = lo + 8 * span T;
  ho_top : h_brk s < TOP;
  ho_base0 : s_size (cell (h_mem s) base) = 0;
  ho_ring : seg (h_mem s) base (frees lo T) base;
  ho_lives : Forall (fun x => s_size (cell (h_mem s) x.1) = x.2) (lives lo T);
  ho_freep : h_freep s ∈ base :: (frees lo T).*1;
}.

(** ** Rows of blocks *)

Lemma span_app T T' : span (T ++ T') = span T + span T'.
Proof. induction T as [|[n f] T IH]; simpl; lia. Qed.

Lemma marked_app b lo T T' : marked b lo (T ++ T') = marked b lo T ++ marked b (lo + 8 * span T) T'.
Proof.
  revert lo. induction T as [|[n f] T IH]; intros lo; simpl; [by rewrite Z.add_0_r|].
  rewrite IH, app_assoc. do 2 f_equal. lia.
Qed.

Lemma span_nonneg T : sized T -> 0 <= span T.
Proof. induction 1 as [|[n f] T Hn _ IH]; simpl in *; lia. Qed.

(** Every block lies within the row. *)
Lemma marked_range b lo T x : sized T -> x ∈ marked b lo T -> lo <= x.1 /\ 0 < x.2 /\ x.1 + 8 * x.2 <= lo + 8 * span T.
Proof.
  intros HT. revert lo. induction HT as [|[n f] T Hn HT IH]; intros lo; simpl in *; [by intros ?%elem_of_nil|].
  pose proof (span_nonneg T HT). intros [Hx|Hx]%elem_of_app.
  - destruct (Bool.eqb f b); [|by apply elem_of_nil in Hx]. apply list_elem_of_singleton in Hx as ->. simpl. lia.
  - apply IH in Hx. lia.
Qed.

(** Free and used blocks have different addresses. *)
Lemma marked_disjoint lo T x y : sized T -> x ∈ frees lo T -> y ∈ lives lo T -> x.1 <> y.1.
Proof.
  intros HT. revert lo. induction HT as [|[n f] T Hn HT IH]; intros lo; simpl in *; [by intros ?%elem_of_nil|].
  intros [Hx|Hx]%elem_of_app [Hy|Hy]%elem_of_app.
  - destruct f; simpl in *; [by apply elem_of_nil in Hy|by apply elem_of_nil in Hx].
  - destruct f; simpl in *; [|by apply elem_of_nil in Hx]. apply list_elem_of_singleton in Hx as ->.
    apply marked_range in Hy; [|done]. simpl. lia.
  - destruct f; simpl in *; [by apply elem_of_nil in Hy|]. apply list_elem_of_singleton in Hy as ->.
    apply marked_range in Hx; [|done]. simpl. lia.
  - by eapply IH.
Qed.

(** The number of blocks is bounded by the memory they take. *)
Lemma marked_length b lo T : sized T -> Z.of_nat (length (marked b lo T)) <= span T.
Proof.
  intros HT. revert lo. induction HT as [|[n f] T Hn HT IH]; intros lo; simpl in *; [done|].
  rewrite length_app. specialize (IH (lo + 8 * n)). destruct (Bool.eqb f b); simpl; lia.
Qed.

Lemma coalesced_app_inv T T' : coalesced (T ++ T') -> coalesced T /\ coalesced T'.
Proof.
  induction T as [|[n f] T IH]; [done|]. intros H. destruct T as [|[n' f'] T]; simpl in *.
  - split; [by destruct f|]. destruct f; [|done]. by destruct T' as [|[? []] T'].
  - destruct f, f'; simpl in *; try done; by apply IH.
Qed.

Lemma coalesced_cons t T : coalesced T -> ~ (t.2 = true /\ exists n T', T = (n, true) :: T') -> coalesced (t :: T).
Proof.
  destruct t as [n f]. intros HT Hn. simpl. destruct f; [|done]. destruct T as [|[n' []] T]; [done| |done].
  exfalso. apply Hn. split; [done|]. by exists n', T.
Qed.

Lemma coalesced_snoc T t : coalesced T -> ~ (t.2 = true /\ exists n T', T = T' ++ [(n, true)]) -> coalesced (T ++ [t]).
Proof.
  destruct t as [k g]. induction T as [|[n f] T IH]; intros HT Hn; [by destruct g|]. simpl in *.
  destruct T as [|[n' f'] T].
  - destruct f, g; simpl; try done. exfalso. apply Hn. split; [done|]. by exists n, [].
  - assert (coalesced (((n', f') :: T) ++ [(k, g)])) as H.
    { apply IH; [by destruct f, f'|]. intros [Hg (a & T' & He)]. apply Hn. split; [done|]. exists a, ((n, f) :: T'). by rewrite He. }
    destruct f, f'; simpl in *; done.
Qed.

Lemma coalesced_mid T t T' : coalesced (T ++ [t]) -> coalesced (t :: T') -> coalesced (T ++ t :: T').
Proof.
  induction T as [|[n f] T IH]; [done|]. intros H1 H2. simpl in *. destruct T as [|[n' f'] T]; simpl in *.
  - destruct t as [k []], f; done.
  - destruct f, f'; simpl in *; try done; by apply IH.
Qed.

(** ** Links *)

(** The first address of [l] before [e], and the last after [a]. *)
Definition first (l : list (Z * Z)) (e : Z) : Z := match l with [] => e | (b, _) :: _ => b end.
Definition final (a : Z) (l : list (Z * Z)) : Z := match last l with Some x => x.1 | None => a end.

(** [seg] from the first block of [l] on. *)
Definition rest (m : gmap Z header) (l : list (Z * Z)) (e : Z) : Prop :=
  match l with [] => True | (b, n) :: l => s_size (cell m b) = n /\ seg m b l e end.

Lemma seg_rest m a l e : seg m a l e <-> s_ptr (cell m a) = first l e /\ rest m l e.
Proof. destruct l as [|[b n] l]; simpl; tauto. Qed.

Lemma seg_app m a l l' e : seg m a (l ++ l') e <-> seg m a l (first l' e) /\ rest m l' e.
Proof.
  revert a. induction l as [|[b n] l IH]; intros a; cbn [seg app]; [apply seg_rest|]. rewrite IH. tauto.
Qed.

Lemma final_snoc a l x : final a (l ++ [x]) = x.1.
Proof. unfold final. by rewrite last_snoc. Qed.

Lemma final_cons a b n l : final a ((b, n) :: l) = final b l.
Proof. unfold final. destruct l as [|y l]; [done|]. rewrite last_cons. destruct (last (y :: l)) eqn:H; [done|]. by apply last_None in H. Qed.

Lemma final_elem a l : final a l ∈ a :: l.*1.
Proof.
  unfold final. destruct (last l) as [x|] eqn:Hl; [|left]. right. apply last_Some_elem_of in Hl.
  apply list_elem_of_fmap. by exists x.
Qed.

Lemma cell_same m a h : cell (<[a := h]> m) a = h.
Proof. unfold cell. by rewrite lookup_insert_eq. Qed.

Lemma cell_other m a b h : b <> a -> cell (<[a := h]> m) b = cell m b.
Proof. intros. unfold cell. by rewrite lookup_insert_ne. Qed.

Lemma seg_frame m m' a l e : (forall x, x ∈ a :: l.*1 -> cell m' x = cell m x) -> seg m a l e -> seg m' a l e.
Proof.
  revert a. induction l as [|[b n] l IH]; intros a Hf; simpl in *.
  - rewrite Hf; [done|left].
  - rewrite (Hf a) by left. rewrite (Hf b) by (right; left). intros (-> & -> & Hs). split_and!; [done|done|].
    apply IH; [|done]. intros x Hx. apply Hf. by right.
Qed.

Lemma rest_frame m m' l e : (forall x, x ∈ l.*1 -> cell m' x = cell m x) -> rest m l e -> rest m' l e.
Proof.
  destruct l as [|[b n] l]; [done|]. simpl. intros Hf [Hn Hs]. rewrite (Hf b) by left. split; [done|].
  by eapply seg_frame.
Qed.

(** The last link of a segment goes elsewhere. *)
Lemma seg_redirect m a l e e' n : NoDup (a :: l.*1) -> seg m a l e -> s_size (cell m (final a l)) = n ->
  seg (<[final a l := mkheader e' n]> m) a l e'.
Proof.
  revert a. induction l as [|[b k] l IH]; intros a Hnd Hs Hn.
  - simpl. by rewrite cell_same.
  - cbn [fmap list_fmap fst] in Hnd. apply NoDup_cons in Hnd as [Ha Hnd]. rewrite final_cons in *. destruct Hs as (Hp & Hk & Hs).
    assert (Hb : cell (<[final b l:=mkheader e' n]> m) a = cell m a).
    { apply cell_other. intros ->. by apply Ha, final_elem. }
    cbn [seg]. rewrite Hb. split; [done|]. split; [|by apply IH].
    destruct (decide (final b l = b)) as [He|He]; [|by rewrite cell_other]. rewrite He, cell_same in *. simpl. congruence.
Qed.

Section Rules.
Context {E : error -> Prop}.

Lemma wp_ld a Q s : in_memory s a = true -> Q (cell (h_mem s) a) s -> wp E (ld a) Q s.
Proof. intros Ha HQ. unfold wp, ld. by rewrite Ha. Qed.

Lemma wp_st a h Q s : in_memory s a = true -> Q tt (set_h_mem (<[a := h]> (h_mem s)) s) -> wp E (st a h) Q s.
Proof. intros Ha HQ. unfold wp, st. by rewrite Ha. Qed.

Lemma wp_st_ptr a v Q s : in_memory s a = true ->
  Q tt (set_h_mem (<[a := mkheader v (s_size (cell (h_mem s) a))]> (h_mem s)) s) -> wp E (st_ptr a v) Q s.
Proof. intros Ha HQ. apply wp_bind, wp_ld; [done|]. by apply wp_st. Qed.

Lemma wp_st_size a v Q s : in_memory s a = true ->
  Q tt (set_h_mem (<[a := mkheader (s_ptr (cell (h_mem s) a)) v]> (h_mem s)) s) -> wp E (st_size a v) Q s.
Proof. intros Ha HQ. apply wp_bind, wp_ld; [done|]. by apply wp_st. Qed.
End Rules.

Lemma in_memory_set m s a : in_memory (set_h_mem m s) a = in_memory s a.
Proof. done. Qed.

Lemma in_memory_true s a : 0 <= a -> a + 8 <= h_brk s -> in_memory s a = true.
Proof. intros H1 H2. unfold in_memory. apply andb_true_intro. rewrite !Z.leb_le. lia. Qed.

Lemma marked_nodup b lo T : sized T -> NoDup (marked b lo T).*1.
Proof.
  intros HT. revert lo. induction HT as [|[n f] T Hn HT IH]; intros lo; simpl in *; [constructor|].
  destruct (Bool.eqb f b); [|apply IH]. cbn [fmap list_fmap app fst]. apply NoDup_cons. split; [|apply IH].
  intros (x & Hx & Hin)%list_elem_of_fmap. apply marked_range in Hin; [|done]. lia.
Qed.

Lemma seg_last m a l e : seg m a l e -> s_ptr (cell m (final a l)) = e.
Proof.
  revert a. induction l as [|[b n] l IH]; intros a; [done|]. rewrite final_cons. intros (_ & _ & Hs). by apply IH.
Qed.

Lemma seg_final_size m a l e : seg m a l e -> final a l = a \/ exists n, (final a l, n) ∈ l /\ s_size (cell m (final a l)) = n.
Proof.
  destruct l as [|[b n] l _] using rev_ind; [by left|]. rewrite final_snoc. intros [_ [Hn _]]%seg_app. right. exists n.
  split; [|done]. apply elem_of_app. right. left.
Qed.

(** Increasing addresses after [a]. *)
Fixpoint incr (a : Z) (l : list (Z * Z)) : Prop :=
  match l with [] => True | (b, _) :: l => a < b /\ incr b l end.

Lemma incr_app a l b n l' : incr a (l ++ (b, n) :: l') -> final a l < b.
Proof.
  revert a. induction l as [|[c k] l IH]; intros a; cbn [app incr]; [by intros [? _]|].
  rewrite final_cons. intros [_ H]. by apply IH.
Qed.

Lemma incr_marked b a lo T : sized T -> a < lo -> incr a (marked b lo T).
Proof.
  intros HT. revert a lo. induction HT as [|[n f] T Hn HT IH]; intros a lo Ha; simpl in *; [done|].
  destruct (Bool.eqb f b); simpl; [split; [done|]|]; apply IH; lia.
Qed.

(** ** Where a block goes *)

Section Find.
Context {E : error -> Prop} (base bp : Z) (l1 l2 : list (Z * Z)) (s : hst).
Hypothesis Hring : seg (h_mem s) base (l1 ++ l2) base.
Hypothesis Hincr : incr base (l1 ++ l2).
Hypothesis Hmem : forall x, x ∈ base :: (l1 ++ l2).*1 -> in_memory s x = true.
Hypothesis Hlow : forall x, x ∈ base :: l1.*1 -> x < bp.
Hypothesis Hhigh : forall x, x ∈ l2.*1 -> bp < x.

Lemma mem_final la lb : l1 ++ l2 = la ++ lb -> in_memory s (final base la) = true.
Proof.
  intros He. apply Hmem. pose proof (final_elem base la) as H. rewrite He, fmap_app.
  apply elem_of_cons in H as [->|H]; [left|right]. apply elem_of_app. by left.
Qed.

Lemma ptr_final la lb : l1 ++ l2 = la ++ lb -> s_ptr (cell (h_mem s) (final base la)) = first lb base.
Proof. intros He. rewrite He in Hring. apply seg_app in Hring as [H _]. by apply seg_last. Qed.

Lemma find_low fuel la lb Q : l1 = la ++ lb -> (length lb <= fuel)%nat -> Q (final base l1) s ->
  wp E (free_find fuel bp (final base la)) Q s.
Proof.
  revert fuel la. induction lb as [|[b n] lb IH]; intros fuel la He Hf HQ.
  - rewrite app_nil_r in He. subst la. assert (Hp : final base l1 < bp) by apply Hlow, final_elem.
    assert (Hb : base <= final base l1).
    { destruct l1 as [|[c k] l] using rev_ind; [done|]. rewrite final_snoc. clear -Hincr.
      rewrite <-app_assoc in Hincr. assert (forall a, incr a (l ++ [(c, k)] ++ l2) -> a < c) as H; [|specialize (H _ Hincr); simpl; lia].
      clear. induction l as [|[d j] l IH]; intros a; simpl; [tauto|]. intros [H1 H2%IH]. simpl in H2. lia. }
    destruct fuel; cbn [free_find]; apply wp_bind, wp_ld; try by eapply mem_final.
    all: rewrite (ptr_final l1 l2) by done; destruct (Z.ltb_spec (final base l1) bp); [|lia]; cbn [andb];
      destruct l2 as [|[b n] l]; cbn [first].
    1, 3: assert (Hbb : base < bp) by (apply Hlow; left); destruct (Z.ltb_spec bp base); [lia|];
      destruct (Z.leb_spec base (final base l1)); [|lia]; by apply wp_ret.
    all: assert (bp < b) by (apply Hhigh; left); destruct (Z.ltb_spec bp b); [|lia]; by apply wp_ret.
  - destruct fuel as [|fuel]; [simpl in Hf; lia|]. cbn [free_find]. apply wp_bind, wp_ld.
    { eapply mem_final. by rewrite He, <-app_assoc. }
    rewrite (ptr_final la (((b, n) :: lb) ++ l2)) by (by rewrite He, <-app_assoc). cbn [app first].
    assert (b < bp). { apply Hlow. right. rewrite He, fmap_app. apply elem_of_app. right. left. }
    assert (final base la < b).
    { eapply incr_app. rewrite He, <-app_assoc in Hincr. exact Hincr. }
    destruct (Z.ltb_spec bp b); [lia|]. rewrite andb_false_r. destruct (Z.leb_spec b (final base la)); [lia|]. cbn [andb].
    replace b with (final base (la ++ [(b, n)])) by (by rewrite final_snoc).
    apply IH; [by rewrite <-app_assoc|simpl in Hf; lia|done].
Qed.

Lemma find_high fuel lc ld Q : l2 = lc ++ ld -> lc <> [] -> (length ld + 1 + length l1 <= fuel)%nat -> Q (final base l1) s ->
  wp E (free_find fuel bp (final base (l1 ++ lc))) Q s.
Proof.
  revert fuel lc. induction ld as [|[b n] ld IH]; intros fuel lc He Hne Hf HQ; (destruct fuel as [|fuel]; [lia|]);
    cbn [free_find]; (apply wp_bind, wp_ld; [eapply mem_final; by rewrite He, app_assoc|]);
    (assert (Hp : bp < final base (l1 ++ lc)) by (destruct lc as [|[c k] lc _] using rev_ind; [done|]; rewrite app_assoc, final_snoc;
       apply Hhigh; rewrite He, !fmap_app; apply elem_of_app; left; apply elem_of_app; right; left));
    (destruct (Z.ltb_spec (final base (l1 ++ lc)) bp); [lia|]); cbn [andb].
  - rewrite (ptr_final (l1 ++ lc) []) by (by rewrite He, app_assoc). cbn [first]. assert (base < bp) by (apply Hlow; left).
    destruct (Z.leb_spec base (final base (l1 ++ lc))); [|lia]. cbn [orb andb].
    destruct (Z.ltb_spec bp base); [lia|]. apply (find_low fuel [] l1); [done|simpl in Hf; lia|done].
  - rewrite (ptr_final (l1 ++ lc) ((b, n) :: ld)) by (by rewrite He, app_assoc). cbn [first].
    assert (final base (l1 ++ lc) < b) by (eapply incr_app; rewrite He, app_assoc in Hincr; exact Hincr).
    destruct (Z.leb_spec b (final base (l1 ++ lc))); [lia|]. cbn [andb].
    replace b with (final base (l1 ++ (lc ++ [(b, n)]))) by (by rewrite app_assoc, final_snoc).
    apply IH; [by rewrite <-app_assoc|by destruct lc|simpl in Hf; lia|done].
Qed.

(** From anywhere on the list. *)
Lemma find_all fuel f Q : f ∈ base :: (l1 ++ l2).*1 -> (length (l1 ++ l2) + 1 <= fuel)%nat -> Q (final base l1) s ->
  wp E (free_find fuel bp f) Q s.
Proof.
  intros Hf Hfu HQ. rewrite length_app in Hfu. apply elem_of_cons in Hf as [->|Hf].
  { apply (find_low fuel [] l1); [done|lia|done]. }
  rewrite fmap_app in Hf. apply elem_of_app in Hf as [Hf|Hf]; apply list_elem_of_fmap in Hf as ([b n] & -> & Hin);
    apply list_elem_of_split in Hin as (la & lb & He).
  - simpl. replace b with (final base (la ++ [(b, n)])) by (by rewrite final_snoc).
    apply (find_low fuel _ lb); [by rewrite <-app_assoc|rewrite He, length_app in Hfu; simpl in Hfu; lia|done].
  - simpl. replace b with (final base (l1 ++ (la ++ [(b, n)]))) by (by rewrite app_assoc, final_snoc).
    apply (find_high fuel _ lb); [by rewrite <-app_assoc|by destruct la|rewrite He, length_app in Hfu; simpl in Hfu; lia|done].
Qed.
End Find.

(** ** Freeing a block *)

(** A free block of [k] headers before [T], joined with a free block there. *)
Definition join_r (k : Z) (T : list tile) : Z * list tile :=
  match T with (n, true) :: T => (k + n, T) | _ => (k, T) end.

(** The row after [free] of the block of [k] headers between [T1] and [T2]. *)
Definition freed (T1 : list tile) (k : Z) (T2 : list tile) : list tile :=
  let (kb, T2') := join_r k T2 in
  match last T1 with
  | Some (n, true) => take (length T1 - 1) T1 ++ (n + kb, true) :: T2'
  | _ => T1 ++ (kb, true) :: T2'
  end.

Lemma freed_snoc T n f k T2 : freed (T ++ [(n, f)]) k T2 =
  if f then T ++ (n + (join_r k T2).1, true) :: (join_r k T2).2
  else (T ++ [(n, f)]) ++ ((join_r k T2).1, true) :: (join_r k T2).2.
Proof.
  unfold freed. destruct (join_r k T2) as [kb T2']. rewrite last_snoc. destruct f; [|done].
  rewrite length_app. simpl. by rewrite Nat.add_sub, take_app_length.
Qed.

Section Right.
Context (base bp k : Z) (T2 : list tile).
Let kb := (join_r k T2).1.
Let T2' := (join_r k T2).2.
Let l2 := frees (bp + 8 * k) T2.
Let l2' := frees (bp + 8 * kb) T2'.
Hypothesis Hk : 0 < k.
Hypothesis Hbase : base < bp.
Hypothesis Hsz : sized T2.

(** Whether the block after is free shows in the address of the next free one. *)
Lemma next_free : (bp + 8 * k =? first l2 base) = match T2 with (_, true) :: _ => true | _ => false end.
Proof.
  unfold l2. destruct T2 as [|[n f] T]; simpl.
  - destruct (Z.eqb_spec (bp + 8 * k) base); [lia|done].
  - apply Forall_cons in Hsz as [Hn HT]. simpl in Hn. destruct f; simpl; [by rewrite Z.eqb_refl|].
    destruct (frees (bp + 8 * k + 8 * n) T) as [|[b j] l] eqn:Hl; simpl.
    + destruct (Z.eqb_spec (bp + 8 * k) base); [lia|done].
    + assert (Hin : (b, j) ∈ frees (bp + 8 * k + 8 * n) T) by (rewrite Hl; left).
      apply marked_range in Hin; [|done]. simpl in Hin. destruct (Z.eqb_spec (bp + 8 * k) b); [lia|done].
Qed.

Hypothesis Hco : coalesced T2.

Lemma join_r_row : 0 < kb /\ sized T2' /\ coalesced ((kb, true) :: T2') /\ k + span T2 = kb + span T2' /\
  lives (bp + 8 * k) T2 = lives (bp + 8 * kb) T2' /\ (forall x, x ∈ l2' -> x ∈ l2).
Proof.
  unfold l2', l2, kb, T2'. destruct T2 as [|[n f] T]; simpl; [done|]. apply Forall_cons in Hsz as [Hn HT]. simpl in Hn.
  destruct f; simpl.
  - replace (bp + 8 * (k + n)) with (bp + 8 * k + 8 * n) by lia. split_and!; [lia|done| |lia|done|].
    + destruct T as [|[? []] T]; [done| |done]. by simpl in Hco.
    + intros x Hx. right. exact Hx.
  - split_and!; try done. by apply Forall_cons.
Qed.

Context (m : gmap Z header).
Hypothesis Hrest : rest m l2 base.

Lemma join_r_links : rest m l2' base /\
  if bp + 8 * k =? first l2 base then kb = k + s_size (cell m (first l2 base)) /\ s_ptr (cell m (first l2 base)) = first l2' base
  else kb = k /\ first l2 base = first l2' base.
Proof.
  rewrite next_free. unfold l2, l2', kb, T2' in *. destruct T2 as [|[n f] T]; [done|]. destruct f; simpl in *; [|done].
  destruct Hrest as [Hn [Hp Hr]%seg_rest]. replace (bp + 8 * (k + n)) with (bp + 8 * k + 8 * n) by lia.
  split; [done|]. by rewrite Hn.
Qed.
End Right.

(** The block before [bp] is free when it ends there. *)
Lemma prev_free m base lo T : sized T -> base < lo -> s_size (cell m base) = 0 -> seg m base (frees lo T) (s_ptr (cell m (final base (frees lo T)))) ->
  (final base (frees lo T) + 8 * s_size (cell m (final base (frees lo T))) =? lo + 8 * span T) =
    match last T with Some (_, true) => true | _ => false end.
Proof.
  intros HT Hb H0 Hs. destruct T as [|[n f] T _] using rev_ind.
  { simpl. unfold final. simpl. rewrite H0. destruct (Z.eqb_spec (base + 8 * 0) (lo + 8 * 0)); [lia|done]. }
  apply Forall_app in HT as [HT [Hn _]%Forall_cons]. simpl in Hn. rewrite last_snoc. rewrite marked_app in *. simpl in *.
  rewrite span_app. simpl. destruct f; simpl in *.
  - rewrite final_snoc in *. simpl. apply seg_app in Hs as [_ [Hsz _]]. rewrite Hsz. apply Z.eqb_eq. lia.
  - rewrite app_nil_r in *. apply Z.eqb_neq. intros He.
    assert (final base (frees lo T) + 8 * s_size (cell m (final base (frees lo T))) <= lo + 8 * span T); [|lia].
    pose proof (span_nonneg T HT). destruct (frees lo T) as [|[b j] l _] eqn:Hl using rev_ind.
    + unfold final. simpl. rewrite H0. lia.
    + rewrite final_snoc in *. simpl. apply seg_app in Hs as [_ [Hsz _]]. rewrite Hsz.
      assert (Hin : (b, j) ∈ frees lo T) by (rewrite Hl; apply elem_of_app; right; left).
      apply marked_range in Hin; [|done]. simpl in Hin. lia.
Qed.

Lemma u32_id z : 0 <= z < TOP -> u32 z = z.
Proof. unfold TOP, u32. intros. apply Z.mod_small. lia. Qed.

Section Join.
Context {E : error -> Prop}.

(** The test and the stores of [free] for the block after [bp]. *)
Lemma wp_join_r base bp k T2 p Q s :
  let l2 := frees (bp + 8 * k) T2 in let kb := (join_r k T2).1 in let l2' := frees (bp + 8 * kb) (join_r k T2).2 in
  0 < k -> 0 < base < bp -> sized T2 -> coalesced T2 -> rest (h_mem s) l2 base -> bp + 8 * (k + span T2) < TOP ->
  bp + 8 * (k + span T2) <= h_brk s -> p <> bp -> in_memory s p = true ->
  s_size (cell (h_mem s) bp) = k -> s_ptr (cell (h_mem s) p) = first l2 base ->
  Q tt (set_h_mem (<[bp := mkheader (first l2' base) kb]> (h_mem s)) s) ->
  wp E (if plus bp k =? first l2 base then
          n ← ld (first l2 base);
          st_size bp (u32 (k + s_size n)) ;;
          h ← ld p;
          n ← ld (s_ptr h);
          st_ptr bp (s_ptr n)
        else st_ptr bp (first l2 base)) Q s.
Proof.
  intros l2 kb l2' Hk Hbase HT Hco Hr Htop Hbrk Hp Hmp Hsz Hptr HQ. pose proof (span_nonneg T2 HT) as Hsp.
  assert (Hmb : in_memory s bp = true) by (apply in_memory_true; lia).
  pose proof (next_free base bp k T2 Hk ltac:(lia) HT) as Hnf. fold l2 in Hnf.
  pose proof (join_r_links base bp k T2 Hk ltac:(lia) HT Hco (h_mem s) Hr) as [_ Hl]. fold l2 kb l2' in Hl.
  unfold plus. rewrite u32_id by lia. destruct (bp + 8 * k =? first l2 base) eqn:He.
  2: { destruct Hl as [Hl1 Hl2]. apply wp_st_ptr; [done|]. rewrite Hsz. rewrite <-Hl1 at 1. by rewrite Hl2. }
  destruct Hl as [Hl1 Hl2]. apply Z.eqb_eq in He. destruct T2 as [|[n []] T]; try done.
  apply Forall_cons in HT as [Hn HT]. simpl in Hn. pose proof (span_nonneg T HT). cbn [span] in *.
  assert (Hmn : in_memory s (first l2 base) = true) by (apply in_memory_true; lia).
  apply wp_bind, wp_ld; [done|]. apply wp_bind, wp_st_size; [done|]. apply wp_bind, wp_ld; [done|].
  cbn [h_mem set_h_mem]. rewrite cell_other by done. rewrite Hptr. apply wp_bind, wp_ld; [done|]. apply wp_st_ptr; [done|].
  cbn [h_mem set_h_mem]. rewrite cell_same, (cell_other _ _ (first l2 base)) by lia. rewrite insert_insert_eq. cbn [s_size].
  rewrite Hl2. assert (Hkb : kb = k + n) by done. rewrite u32_id by lia. rewrite <-Hl1. done.
Qed.

(** Those for the block before. *)
Lemma wp_join_l bp p Q s : in_memory s bp = true -> in_memory s p = true -> p <> bp ->
  let c := cell (h_mem s) in
  0 <= p + 8 * s_size (c p) < TOP -> 0 <= s_size (c p) + s_size (c bp) < TOP ->
  Q tt (set_h_mem (<[p := if p + 8 * s_size (c p) =? bp then mkheader (s_ptr (c bp)) (s_size (c p) + s_size (c bp))
                           else mkheader bp (s_size (c p))]> (h_mem s)) s) ->
  wp E (if plus p (s_size (c p)) =? bp then
          b ← ld bp;
          st_size p (u32 (s_size (c p) + s_size b)) ;;
          b ← ld bp;
          st_ptr p (s_ptr b)
        else st_ptr p bp) Q s.
Proof.
  intros Hb Hp Hne c Hr1 Hr2 HQ. unfold plus. rewrite u32_id by done.
  destruct (p + 8 * s_size (c p) =? bp).
  - apply wp_bind, wp_ld; [done|]. apply wp_bind, wp_st_size; [done|]. apply wp_bind, wp_ld; [done|]. apply wp_st_ptr; [done|].
    cbn [h_mem set_h_mem]. rewrite cell_same, cell_other by done. rewrite insert_insert_eq. cbn [s_size]. fold c.
    rewrite u32_id by done. exact HQ.
  - apply wp_st_ptr; [done|]. exact HQ.
Qed.
End Join.

(** The row after a [free]. *)
Lemma freed_row lo T1 k T2 : sized T1 -> 0 < k -> sized T2 -> coalesced T1 -> coalesced T2 ->
  lives lo (freed T1 k T2) = lives lo T1 ++ lives (lo + 8 * span T1 + 8 * k) T2 /\
  span (freed T1 k T2) = span T1 + k + span T2 /\ sized (freed T1 k T2) /\ coalesced (freed T1 k T2).
Proof.
  intros HT1 Hk HT2 Hc1 Hc2.
  destruct (join_r_row (lo + 8 * span T1) k T2 Hk HT2 Hc2) as (Hkb & HT2' & Hc2' & Hsp' & Hlv & _). rewrite Hlv. clear Hlv.
  destruct T1 as [|[n f] T _] using rev_ind.
  { unfold freed. destruct (join_r k T2) as [kb T2']. simpl in *. split_and!; [by rewrite Z.add_0_r|lia|by apply Forall_cons|done]. }
  apply Forall_app in HT1 as [HT [Hn _]%Forall_cons]. simpl in Hn. rewrite freed_snoc. destruct (join_r k T2) as [kb T2'].
  cbn [fst snd] in *. assert (HT3 : sized ((kb, true) :: T2')) by (by apply Forall_cons). rewrite !span_app in *. cbn [span] in *. destruct f.
  - rewrite !marked_app, !span_app. cbn [marked Bool.eqb app span]. rewrite app_nil_r. split_and!.
    + do 2 f_equal. lia.
    + lia.
    + apply Forall_app. split; [done|]. apply Forall_cons. split; [simpl; lia|done].
    + apply coalesced_mid; [|destruct T2' as [|[? []] ?]; [done|by simpl in Hc2'|exact Hc2']].
      apply coalesced_snoc; [exact (proj1 (coalesced_app_inv _ _ Hc1))|]. intros [_ (a & T' & ->)]. rewrite <-app_assoc in Hc1.
      by apply coalesced_app_inv in Hc1 as [_ ?].
  - rewrite !marked_app, !span_app. cbn [marked Bool.eqb app span]. split_and!.
    + do 2 f_equal; lia.
    + lia.
    + apply Forall_app. split; [|done]. apply Forall_app. split; [done|]. by apply Forall_singleton.
    + apply coalesced_mid; [|done]. apply coalesced_snoc; [done|].
      intros [_ (a & T' & [_ [=]]%app_inj_tail)].
Qed.

(** ** [free] keeps the heap *)

Section Free.
Context {E : error -> Prop} (base lo k : Z) (T1 T2 : list tile) (s : hst).
Hypothesis Hh : heap_ok base lo (T1 ++ (k, false) :: T2) s.

Let bp := lo + 8 * span T1.
Let l1 := frees lo T1.
Let l2 := frees (bp + 8 * k) T2.
Let p := final base l1.
Let kb := (join_r k T2).1.
Let T2' := (join_r k T2).2.
Let l2' := frees (bp + 8 * kb) T2'.
Let hb := mkheader (first l2' base) kb.

Lemma free_frees : frees lo (T1 ++ (k, false) :: T2) = l1 ++ l2.
Proof. by rewrite marked_app. Qed.

Lemma free_lives : lives lo (T1 ++ (k, false) :: T2) = lives lo T1 ++ (bp, k) :: lives (bp + 8 * k) T2.
Proof. by rewrite marked_app. Qed.

Lemma free_sizes : sized T1 /\ 0 < k /\ sized T2 /\ 0 <= span T1 /\ 0 <= span T2.
Proof.
  pose proof (ho_sized _ _ _ _ Hh) as [H1 [Hk H2]%Forall_cons]%Forall_app. split_and!; try done; by apply span_nonneg.
Qed.

Lemma free_coal : coalesced T1 /\ coalesced T2.
Proof.
  pose proof (ho_coal _ _ _ _ Hh) as [H1 H2]%coalesced_app_inv. split; [done|]. by destruct T2.
Qed.

Lemma free_brk : h_brk s = bp + 8 * (k + span T2).
Proof. rewrite (ho_brk _ _ _ _ Hh), span_app. simpl. unfold bp. lia. Qed.

Lemma free_links : seg (h_mem s) base l1 (first l2 base) /\ rest (h_mem s) l2 base.
Proof. pose proof (ho_ring _ _ _ _ Hh) as H. rewrite free_frees in H. by apply seg_app. Qed.

Lemma free_low x : x ∈ base :: l1.*1 -> 0 < x < bp.
Proof.
  destruct (ho_base _ _ _ _ Hh). destruct free_sizes as (HT1 & _ & _ & Hsp & _).
  intros [->|Hx]%elem_of_cons; [unfold bp; lia|]. apply list_elem_of_fmap in Hx as (y & -> & Hy).
  apply marked_range in Hy; [|done]. unfold bp. lia.
Qed.

Lemma free_high x : x ∈ l2.*1 -> bp + 8 * k <= x /\ x + 8 <= h_brk s.
Proof.
  destruct free_sizes as (_ & _ & HT2 & _). intros (y & -> & Hy)%list_elem_of_fmap. apply marked_range in Hy; [|done].
  rewrite free_brk. lia.
Qed.

Lemma free_high' x : x ∈ l2'.*1 -> x ∈ l2.*1.
Proof.
  intros (y & -> & Hy)%list_elem_of_fmap. apply list_elem_of_fmap. exists y. split; [done|].
  destruct free_sizes as (_ & Hk & HT2 & _). destruct free_coal as [_ Hc]. by apply (join_r_row bp k T2 Hk HT2 Hc).
Qed.

Lemma free_p : 0 < p < bp.
Proof. apply free_low, final_elem. Qed.

Lemma free_mem x : x ∈ base :: (l1 ++ l2).*1 -> in_memory s x = true.
Proof.
  destruct (ho_base _ _ _ _ Hh). destruct free_sizes as (_ & Hk & _ & Hsp1 & Hsp). pose proof free_brk.
  intros Hx. rewrite fmap_app in Hx. assert (x ∈ base :: l1.*1 \/ x ∈ l2.*1) as [Hl|Hr] by set_solver.
  - assert (0 <= x /\ x + 8 <= bp); [|apply in_memory_true; lia].
    apply elem_of_cons in Hl as [->|Hl]; [unfold bp; lia|]. apply list_elem_of_fmap in Hl as (y & -> & Hy).
    apply marked_range in Hy; [|apply free_sizes]. unfold bp. lia.
  - apply free_high in Hr. destruct free_p. apply in_memory_true; lia.
Qed.

Lemma free_size_bp : s_size (cell (h_mem s) bp) = k.
Proof.
  pose proof (ho_lives _ _ _ _ Hh) as H. rewrite free_lives in H. by apply Forall_app in H as [_ [? _]%Forall_cons].
Qed.

(** The used blocks that stay are not written. *)
Lemma free_untouched x : x ∈ lives lo T1 ++ lives (bp + 8 * k) T2 -> x.1 <> bp /\ x.1 ∉ base :: (l1 ++ l2).*1.
Proof.
  intros Hx. destruct free_sizes as (HT1 & Hk & HT2 & Hsp & _). destruct (ho_base _ _ _ _ Hh) as [Hb1 Hb2].
  assert (Hin : x ∈ lives lo (T1 ++ (k, false) :: T2)).
  { rewrite free_lives. apply elem_of_app in Hx as [Hx|Hx]; apply elem_of_app; [by left|right; by right]. }
  split.
  - apply elem_of_app in Hx as [Hx|Hx]; (apply marked_range in Hx; [|done]); unfold bp in *; lia.
  - intros [He|He]%elem_of_cons.
    + apply marked_range in Hin; [|apply Hh]. lia.
    + apply list_elem_of_fmap in He as (y & He & Hy). rewrite <-free_frees in Hy.
      by apply (marked_disjoint lo _ y x (ho_sized _ _ _ _ Hh) Hy Hin).
Qed.

Lemma free_nodup : NoDup (base :: l1.*1).
Proof.
  apply NoDup_cons. split; [|apply marked_nodup, free_sizes]. intros (y & He & Hy)%list_elem_of_fmap.
  apply marked_range in Hy; [|apply free_sizes]. destruct (ho_base _ _ _ _ Hh). lia.
Qed.

(** The header of the block before: joined with [bp], or linked to it. *)
Let hp : header :=
  if p + 8 * s_size (cell (h_mem s) p) =? bp then mkheader (first l2' base) (s_size (cell (h_mem s) p) + kb)
  else mkheader bp (s_size (cell (h_mem s) p)).
Let m' := <[p := hp]> (<[bp := hb]> (h_mem s)).

Lemma free_cell x : x <> bp -> x <> p -> cell m' x = cell (h_mem s) x.
Proof. intros. unfold m'. by rewrite !cell_other. Qed.

(** The links from the joined or new block on. *)
Lemma free_tail a : s_ptr (cell m' a) = first l2' base -> seg m' a l2' base.
Proof.
  intros Ha. apply seg_rest. split; [done|]. destruct free_sizes as (_ & Hk & HT2 & _). destruct free_coal as [_ Hc].
  destruct free_links as [_ Hr]. destruct (join_r_links base bp k T2 Hk ltac:(pose proof (free_low base ltac:(left)); lia) HT2 Hc (h_mem s) Hr) as [Hr' _].
  eapply rest_frame; [|exact Hr']. intros x Hx%free_high'%free_high. pose proof free_p. apply free_cell; lia.
Qed.

(** Neither list changes before [p]. *)
Lemma free_before l e : (forall x, x ∈ base :: l.*1 -> x ∈ base :: l1.*1 /\ x <> p) -> seg (h_mem s) base l e -> seg m' base l e.
Proof. intros Hl. apply seg_frame. intros x [Hx Hne]%Hl. apply free_low in Hx. apply free_cell; [lia|done]. Qed.

Lemma free_prev : (p + 8 * s_size (cell (h_mem s) p) =? bp) = match last T1 with Some (_, true) => true | _ => false end.
Proof.
  destruct free_links as [Hs1 _]. destruct free_sizes as (HT1 & _). destruct (ho_base _ _ _ _ Hh).
  apply (prev_free (h_mem s) base lo T1 HT1); [lia|apply (ho_base0 _ _ _ _ Hh)|]. fold l1 p.
  unfold p. by rewrite (seg_last _ _ _ _ Hs1).
Qed.

Lemma free_seg_join T n : T1 = T ++ [(n, true)] ->
  seg m' base (frees lo (freed T1 k T2)) base /\ p ∈ base :: (frees lo (freed T1 k T2)).*1 /\ s_size (cell m' base) = 0.
Proof.
  intros HT. pose proof free_prev as Hpf. rewrite HT, last_snoc in Hpf. pose proof free_p as Hp.
  destruct (ho_base _ _ _ _ Hh) as [Hb1 Hb2]. destruct free_sizes as (HT1 & _). destruct free_links as [Hs1 _].
  assert (Hl1 : l1 = frees lo T ++ [(lo + 8 * span T, n)]) by (unfold l1; by rewrite HT, marked_app).
  assert (Hpe : p = lo + 8 * span T) by (unfold p; by rewrite Hl1, final_snoc).
  assert (HT' : sized T) by (rewrite HT in HT1; by apply Forall_app in HT1 as [? _]). pose proof (span_nonneg T HT').
  assert (Hn : s_size (cell (h_mem s) p) = n).
  { rewrite Hl1 in Hs1. apply seg_app in Hs1 as [_ [Hn _]]. by rewrite Hpe. }
  assert (Hfr : frees lo (freed T1 k T2) = frees lo T ++ (p, n + kb) :: l2').
  { rewrite HT, freed_snoc, marked_app. cbn [marked Bool.eqb app]. unfold l2', bp. rewrite Hpe, HT, span_app. cbn [span].
    do 3 f_equal. lia. }
  rewrite Hfr. split_and!.
  - apply seg_app. cbn [first rest]. split.
    + apply free_before.
      * intros x Hx. rewrite Hl1, fmap_app. split; [set_solver|]. intros ->. apply elem_of_cons in Hx as [Hx|Hx]; [lia|].
        apply list_elem_of_fmap in Hx as (y & He & Hy). apply marked_range in Hy; [|done]. lia.
      * rewrite Hl1 in Hs1. apply seg_app in Hs1 as [Hs1 _]. by rewrite Hpe.
    + assert (Hc : cell m' p = hp) by apply cell_same. split; [|apply free_tail]; rewrite Hc; unfold hp; rewrite Hpf; simpl; congruence.
  - right. rewrite fmap_app. apply elem_of_app. right. left.
  - rewrite free_cell by lia. apply (ho_base0 _ _ _ _ Hh).
Qed.

Lemma free_seg_plain : match last T1 with Some (_, true) => False | _ => True end ->
  seg m' base (frees lo (freed T1 k T2)) base /\ p ∈ base :: (frees lo (freed T1 k T2)).*1 /\ s_size (cell m' base) = 0.
Proof.
  intros HT. pose proof free_prev as Hpf. pose proof free_p as Hp. destruct free_links as [Hs1 _].
  assert (Hpl : (p + 8 * s_size (cell (h_mem s) p) =? bp) = false) by (by rewrite Hpf; destruct (last T1) as [[? []]|]).
  assert (Hhp : hp = mkheader bp (s_size (cell (h_mem s) p))) by (unfold hp; by rewrite Hpl).
  assert (Hfr : frees lo (freed T1 k T2) = l1 ++ (bp, kb) :: l2').
  { unfold freed, l2', kb, T2', l1, bp. destruct (join_r k T2) as [kb0 T0]. simpl.
    by destruct (last T1) as [[? []]|]; rewrite ?marked_app. }
  assert (Hcb : cell m' bp = hb) by (unfold m'; rewrite cell_other by lia; apply cell_same).
  rewrite Hfr. split_and!.
  - apply seg_app. cbn [first rest]. split.
    + unfold m'. rewrite Hhp. apply (seg_redirect _ _ _ (first l2 base)); [apply free_nodup| |].
      * eapply seg_frame; [|exact Hs1]. intros x Hx%free_low. apply cell_other. lia.
      * fold p. by rewrite cell_other by lia.
    + rewrite Hcb. split; [done|]. apply free_tail. by rewrite Hcb.
  - pose proof (final_elem base l1) as He. fold p in He. rewrite fmap_app. set_solver.
  - destruct (decide (p = base)) as [He|He].
    + assert (Hc : cell m' p = hp) by apply cell_same. rewrite He in Hc. rewrite Hc, Hhp. simpl. rewrite He. apply (ho_base0 _ _ _ _ Hh).
    + pose proof (free_low base ltac:(left)). rewrite free_cell by lia. apply (ho_base0 _ _ _ _ Hh).
Qed.

Lemma free_heap : heap_ok base lo (freed T1 k T2) (set_h_freep p (set_h_mem m' s)).
Proof.
  destruct free_sizes as (HT1 & Hk & HT2 & _). destruct free_coal as [Hc1 Hc2].
  destruct (freed_row lo T1 k T2 HT1 Hk HT2 Hc1 Hc2) as (Hlv & Hsp & Hsz & Hco).
  assert (seg m' base (frees lo (freed T1 k T2)) base /\ p ∈ base :: (frees lo (freed T1 k T2)).*1 /\ s_size (cell m' base) = 0) as (H1 & H2 & H3).
  { destruct (last T1) as [[n []]|] eqn:Hl; [|apply free_seg_plain; by rewrite Hl..].
    apply last_Some in Hl as [T Hl]. by eapply free_seg_join. }
  split; try done; try apply Hh.
  - simpl. rewrite free_brk, Hsp. unfold bp. lia.
  - cbn [h_mem set_h_freep set_h_mem]. rewrite Hlv. apply Forall_forall. intros x Hx.
    destruct (free_untouched x Hx) as [Hxb Hxf].
    rewrite free_cell; [|done|].
    + pose proof (ho_lives _ _ _ _ Hh) as HF. rewrite Forall_forall in HF. apply HF. rewrite free_lives.
      apply elem_of_app in Hx as [Hx|Hx]; apply elem_of_app; [by left|right; by right].
    + intros Hxp. apply Hxf. rewrite Hxp. pose proof (final_elem base l1) as He. fold p in He. rewrite fmap_app. set_solver.
Qed.

Lemma wp_free Q :
  (forall s', heap_ok base lo (freed T1 k T2) s' -> h_brk s' = h_brk s -> h_grows s' = h_grows s -> h_freep s' = p ->
     (forall x, x <> bp -> x ∉ base :: (l1 ++ l2).*1 -> cell (h_mem s') x = cell (h_mem s) x) -> Q tt s') ->
  wp E (free (bp + 8)) Q s.
Proof.
  intros HQ. destruct free_sizes as (HT1 & Hk & HT2 & Hsp1 & Hsp2). destruct free_coal as [_ Hc2]. destruct free_links as [Hs1 Hr].
  destruct (ho_base _ _ _ _ Hh) as [Hb1 Hb2]. pose proof free_p as Hp. pose proof free_brk as Hbrk. pose proof (ho_top _ _ _ _ Hh) as Htop.
  pose proof free_size_bp as Hsz.
  assert (Hmp : in_memory s p = true).
  { apply free_mem. pose proof (final_elem base l1) as He. fold p in He. rewrite fmap_app. set_solver. }
  assert (Hmb : in_memory s bp = true) by (apply in_memory_true; lia).
  unfold free. rewrite u32_id by lia. replace (bp + 8 - 8) with bp by lia. apply wp_bind, wp_gets, wp_bind, wp_gets, wp_bind.
  apply (find_all base bp l1 l2 s); try done.
  { pose proof (ho_ring _ _ _ _ Hh) as Hg. by rewrite free_frees in Hg. }
  { rewrite <-free_frees. apply incr_marked; [apply Hh|lia]. }
  { apply free_mem. }
  { intros x Hx%free_low. lia. }
  { intros x Hx%free_high. lia. }
  { rewrite <-free_frees. apply (ho_freep _ _ _ _ Hh). }
  { rewrite <-free_frees. unfold headers. pose proof (marked_length true lo _ (ho_sized _ _ _ _ Hh)) as Hlen.
    rewrite (ho_brk _ _ _ _ Hh). assert (span (T1 ++ (k, false) :: T2) + 1 <= (lo + 8 * span (T1 ++ (k, false) :: T2)) / 8); [|lia].
    apply Z.div_le_lower_bound; lia. }
  fold p. apply wp_bind, wp_ld; [done|]. apply wp_bind, wp_ld; [done|]. rewrite Hsz.
  assert (Hpp : s_ptr (cell (h_mem s) p) = first l2 base) by (by apply seg_last). rewrite Hpp.
  apply wp_bind. apply (wp_join_r base bp k T2 p); try done; try lia. fold kb l2' hb.
  apply wp_bind, wp_ld; [done|]. apply wp_bind.
  assert (Hszp : 0 <= s_size (cell (h_mem s) p) /\ p + 8 * s_size (cell (h_mem s) p) <= bp).
  { destruct (seg_final_size _ _ _ _ Hs1) as [He|(n & Hin & He)]; fold p in He.
    - rewrite He, (ho_base0 _ _ _ _ Hh). unfold bp. lia.
    - rewrite He. apply marked_range in Hin; [|done]. fold p in Hin. simpl in Hin. unfold bp. lia. }
  assert (Hkb : 0 < kb /\ kb <= k + span T2).
  { destruct (join_r_row bp k T2 Hk HT2 Hc2) as (H1 & H2 & _ & H3 & _). pose proof (span_nonneg _ H2). fold kb in H1, H3. lia. }
  apply wp_join_l; cbn [h_mem set_h_mem]; rewrite ?cell_same, ?(cell_other _ bp p) by lia; unfold hb; cbn [s_size s_ptr]; try done; try lia.
  apply wp_modify. fold hb hp m'. apply HQ; try done; [apply free_heap|]. intros x Hx Hxf. apply free_cell; [done|].
  intros Hxp. apply Hxf. rewrite Hxp. pose proof (final_elem base l1) as He. fold p in He. rewrite fmap_app. set_solver.
Qed.
End Free.

(** ** Looking for a block *)

Lemma marked_split c lo T la b n lb : marked c lo T = la ++ (b, n) :: lb ->
  exists T1 T2, T = T1 ++ (n, c) :: T2 /\ b = lo + 8 * span T1 /\ la = marked c lo T1 /\ lb = marked c (b + 8 * n) T2.
Proof.
  revert lo la. induction T as [|[k f] T IH]; intros lo la; simpl; [by destruct la|].
  destruct (Bool.eqb f c) eqn:Hfc; simpl.
  - apply Bool.eqb_prop in Hfc as ->. destruct la as [|x la]; simpl.
    + intros [= <- <- <-]. exists [], T. simpl. split_and!; try done. lia.
    + intros [= <- H]. destruct (IH _ _ H) as (T1 & T2 & -> & -> & -> & ->). exists ((k, c) :: T1), T2. simpl.
      rewrite Bool.eqb_reflx. split_and!; try done. lia.
  - intros H. destruct (IH _ _ H) as (T1 & T2 & -> & -> & -> & ->). exists ((k, f) :: T1), T2. simpl.
    rewrite Hfc. split_and!; try done. lia.
Qed.

Lemma heap_mem base lo T s x : heap_ok base lo T s -> x ∈ base :: (frees lo T).*1 -> in_memory s x = true.
Proof.
  intros Hh Hx. destruct (ho_base _ _ _ _ Hh). pose proof (ho_brk _ _ _ _ Hh). pose proof (span_nonneg T (ho_sized _ _ _ _ Hh)).
  apply elem_of_cons in Hx as [->|Hx]; [apply in_memory_true; lia|]. apply list_elem_of_fmap in Hx as (y & -> & Hy).
  apply marked_range in Hy; [|apply Hh]. apply in_memory_true; lia.
Qed.

Lemma incr_final a l x : incr a l -> x ∈ a :: l.*1 -> x <= final a l.
Proof.
  revert a x. induction l as [|[b n] l IH]; intros a x; cbn [incr fmap list_fmap fst].
  - intros _ ->%list_elem_of_singleton. done.
  - rewrite final_cons. intros [Ha Hl] Hx. assert (b <= final b l) by (apply IH; [done|left]).
    apply elem_of_cons in Hx as [->|Hx]; [lia|]. by apply IH.
Qed.

Lemma incr_prefix a l l' : incr a (l ++ l') -> incr a l.
Proof. revert a. induction l as [|[b n] l IH]; intros a; simpl; [done|]. intros [? ?]. split; [done|by apply IH]. Qed.

Lemma incr_suffix a l b n l' : incr a (l ++ (b, n) :: l') -> incr b l'.
Proof. revert a. induction l as [|[c j] l IH]; intros a; simpl; [tauto|]. intros [_ H]. by eapply IH. Qed.

Section Scan.
Context {E : error -> Prop} (base lo nunits : Z) (T : list tile) (s : hst) (fend : nat) (Q : Z -> hst -> Prop).
Hypothesis Hh : heap_ok base lo T s.
Hypothesis Hnu : 0 < nunits.
Context (lf lr : list (Z * Z)).
Hypothesis Hfr : frees lo T = lf ++ lr.
Hypothesis Hf : h_freep s = final base lf.

Definition nofit (l : list (Z * Z)) : Prop := Forall (fun x => x.2 < nunits) l.

(** A block that is large enough is taken; after the last one the list grows. *)
Hypothesis Hfit : forall la b n lb, frees lo T = la ++ (b, n) :: lb -> nunits <= n -> wp E (take_block nunits (final base la) b) Q s.
Hypothesis Hend : forall fuel, (fend <= fuel)%nat -> nofit (frees lo T) ->
  wp E (p ← morecore nunits;
        if p =? 0 then mret 0 else
        match fuel with
        | O => fail NoFuel
        | S fuel => h ← ld p; malloc_loop fuel nunits p (s_ptr h)
        end) Q s.

Lemma scan_size la b n lb : frees lo T = la ++ (b, n) :: lb ->
  in_memory s b = true /\ s_size (cell (h_mem s) b) = n /\ s_ptr (cell (h_mem s) b) = first lb base.
Proof.
  intros He. split_and!.
  - eapply heap_mem; [exact Hh|]. rewrite He, fmap_app. apply elem_of_cons. right. apply elem_of_app. right. left.
  - pose proof (ho_ring _ _ _ _ Hh) as Hs. rewrite He in Hs. by apply seg_app in Hs as [_ [Hn _]].
  - pose proof (ho_ring _ _ _ _ Hh) as Hs. rewrite He in Hs. apply seg_app in Hs as [_ [_ Hn]]. by apply seg_rest in Hn as [? _].
Qed.

Lemma scan_incr : incr base (lf ++ lr).
Proof. rewrite <-Hfr. apply incr_marked; [apply Hh|]. destruct (ho_base _ _ _ _ Hh). lia. Qed.

Lemma scan_low lc la fuel : lf = la ++ lc -> lc <> [] -> nofit la -> nofit lr -> (length lc + fend <= S fuel)%nat ->
  wp E (malloc_loop fuel nunits (final base la) (first lc base)) Q s.
Proof.
  revert la fuel. induction lc as [|[b n] lc IH]; intros la fuel He Hne Hla Hlr Hfu; [done|]. cbn [first].
  assert (He' : frees lo T = la ++ (b, n) :: (lc ++ lr)) by (by rewrite Hfr, He, <-app_assoc).
  destruct (scan_size _ _ _ _ He') as (Hm & Hn & Hp).
  destruct fuel as [|fuel]; cbn [malloc_loop]; (apply wp_bind, wp_ld; [done|]); rewrite Hn;
    (destruct (Z.leb_spec nunits n) as [Hle|Hgt]; [by eapply Hfit|]); cbv zeta; apply wp_bind, wp_gets; rewrite Hf, He.
  - destruct lc as [|[c j] lc]; [|simpl in Hfu; lia]. rewrite final_snoc. cbn [fst]. rewrite Z.eqb_refl. apply (Hend 0); [simpl in Hfu; lia|].
    rewrite He'. apply Forall_app. split; [done|]. by apply Forall_cons.
  - destruct lc as [|[c j] lc].
    + rewrite final_snoc. cbn [fst]. rewrite Z.eqb_refl. apply (Hend (S fuel)); [simpl in Hfu; lia|].
      rewrite He'. apply Forall_app. split; [done|]. by apply Forall_cons.
    + assert (Hlt : b < final base (la ++ (b, n) :: (c, j) :: lc)).
      { pose proof scan_incr as Hi. rewrite He in Hi. apply incr_prefix in Hi. apply incr_suffix in Hi as [Hbc Hi].
        replace (final base (la ++ (b, n) :: (c, j) :: lc)) with (final c lc).
        - enough (c <= final c lc) by lia. apply incr_final; [done|left].
        - rewrite <-(final_cons b c j), <-(final_cons base b n). unfold final. rewrite last_app.
          by destruct (last ((b, n) :: (c, j) :: lc)) eqn:Hl; [|apply last_None in Hl]. }
      destruct (Z.eqb_spec b (final base (la ++ (b, n) :: (c, j) :: lc))); [lia|]. apply wp_bind, wp_ld; [done|]. rewrite Hp. cbn [app first].
      replace b with (final base (la ++ [(b, n)])) by (by rewrite final_snoc).
      apply (IH (la ++ [(b, n)]) fuel); [by rewrite <-app_assoc|done| |done|simpl in *; lia].
      apply Forall_app. split; [done|]. by apply Forall_singleton.
Qed.
Lemma scan_high lb ld fuel : lr = ld ++ lb -> nofit ld -> (length lb + length lf + fend <= fuel)%nat ->
  wp E (malloc_loop fuel nunits (final base (lf ++ ld)) (first lb base)) Q s.
Proof.
  revert ld fuel. induction lb as [|[b n] lb IH]; intros ld fuel He Hld Hfu; cbn [first].
  - rewrite app_nil_r in He. subst ld. pose proof (ho_base0 _ _ _ _ Hh) as H0.
    assert (Hm : in_memory s base = true) by (eapply heap_mem; [exact Hh|left]).
    destruct fuel as [|fuel]; cbn [malloc_loop]; (apply wp_bind, wp_ld; [done|]); rewrite H0;
      (destruct (Z.leb_spec nunits 0); [lia|]); cbv zeta; apply wp_bind, wp_gets; rewrite Hf.
    + destruct lf as [|x l] eqn:Hlf; [|simpl in Hfu; lia]. unfold final. simpl. rewrite Z.eqb_refl. apply (Hend 0); [simpl in Hfu; lia|].
      by rewrite Hfr.
    + destruct (decide (lf = [])) as [Hlf|Hlf].
      * rewrite Hlf. unfold final. simpl. rewrite Z.eqb_refl. apply (Hend (S fuel)); [simpl in Hfu; lia|]. by rewrite Hfr, Hlf.
      * assert (Hlt : base < final base lf).
        { pose proof scan_incr as Hi. destruct lf as [|[c j] l]; [done|]. destruct Hi as [Hc Hi]. rewrite final_cons.
          enough (c <= final c l) by lia. apply incr_final; [|left]. eapply incr_prefix. exact Hi. }
        destruct (Z.eqb_spec base (final base lf)); [lia|]. apply wp_bind, wp_ld; [done|].
        pose proof (ho_ring _ _ _ _ Hh) as Hs. rewrite Hfr in Hs. apply seg_rest in Hs as [Hs _]. rewrite Hs.
        replace (first (lf ++ lr) base) with (first lf base) by (by destruct lf as [|[] ?]).
        apply (scan_low lf []); [done|done|by constructor|done|simpl in Hfu; lia].
  - assert (He' : frees lo T = (lf ++ ld) ++ (b, n) :: lb) by (by rewrite Hfr, He, app_assoc).
    destruct (scan_size _ _ _ _ He') as (Hm & Hn & Hp). destruct fuel as [|fuel]; [simpl in Hfu; lia|].
    cbn [malloc_loop]. apply wp_bind, wp_ld; [done|]. rewrite Hn. destruct (Z.leb_spec nunits n) as [Hle|Hgt]; [by eapply Hfit|].
    cbv zeta. apply wp_bind, wp_gets. rewrite Hf.
    assert (final base lf < b).
    { pose proof scan_incr as Hi. rewrite He, app_assoc in Hi. pose proof (incr_app _ _ _ _ _ Hi) as Hlt.
      assert (final base lf <= final base (lf ++ ld)); [|lia]. apply incr_final; [by eapply incr_prefix|].
      pose proof (final_elem base lf). rewrite fmap_app. set_solver. }
    destruct (Z.eqb_spec b (final base lf)); [lia|]. apply wp_bind, wp_ld; [done|]. rewrite Hp.
    replace b with (final base (lf ++ (ld ++ [(b, n)]))) by (by rewrite app_assoc, final_snoc).
    apply (IH (ld ++ [(b, n)]) fuel); [by rewrite <-app_assoc| |simpl in Hfu; lia].
    apply Forall_app. split; [done|]. by apply Forall_singleton.
Qed.

Lemma wp_scan fuel : (length (frees lo T) + fend <= fuel)%nat ->
  wp E (malloc_loop fuel nunits (final base lf) (first lr base)) Q s.
Proof.
  rewrite Hfr, length_app. intros Hfu. pose proof (scan_high lr [] fuel eq_refl) as H. rewrite app_nil_r in H.
  apply H; [by constructor|lia].
Qed.

End Scan.

(** ** Taking a block *)

(** The blocks before the one handed out: the end of a larger one is taken. *)
Definition before (T1 : list tile) (n nunits : Z) : list tile :=
  if n =? nunits then T1 else T1 ++ [(n - nunits, true)].

Lemma coalesced_used T1 n k T2 : coalesced (T1 ++ (n, true) :: T2) -> coalesced (T1 ++ (k, false) :: T2).
Proof.
  intros H. pose proof (coalesced_app_inv _ _ H) as [H1 H2]. apply coalesced_mid.
  - apply coalesced_snoc; [done|]. by intros [? _].
  - by destruct T2 as [|[? []] ?].
Qed.

Lemma coalesced_resize T1 n k T2 : coalesced (T1 ++ (n, true) :: T2) -> coalesced (T1 ++ [(k, true)]).
Proof.
  intros H. rewrite cons_middle, app_assoc in H. apply coalesced_app_inv in H as [H _]. clear T2.
  induction T1 as [|[c f] T IH]; [done|]. simpl in *. destruct T as [|[d g] T]; simpl in *.
  - by destruct f.
  - destruct f, g; simpl in *; try done; by apply IH.
Qed.

Section Take.
Context {E : error -> Prop} (base lo n nunits : Z) (T1 T2 : list tile) (s : hst).
Hypothesis Hh : heap_ok base lo (T1 ++ (n, true) :: T2) s.
Hypothesis Hnu : 0 < nunits <= n.

Let a := lo + 8 * span T1.
Let l1 := frees lo T1.
Let l2 := frees (a + 8 * n) T2.
Let p := final base l1.
Let q := a + 8 * (n - nunits).

Lemma take_frees : frees lo (T1 ++ (n, true) :: T2) = l1 ++ (a, n) :: l2.
Proof. by rewrite marked_app. Qed.

Lemma take_links : seg (h_mem s) base l1 a /\ s_size (cell (h_mem s) a) = n /\ s_ptr (cell (h_mem s) a) = first l2 base /\ rest (h_mem s) l2 base.
Proof.
  pose proof (ho_ring _ _ _ _ Hh) as H. rewrite take_frees in H. apply seg_app in H as (H1 & H2 & [H3 H4]%seg_rest). done.
Qed.

Lemma take_sizes : sized T1 /\ sized T2 /\ 0 <= span T1 /\ 0 <= span T2 /\ 0 < base /\ base + 8 <= lo /\
  h_brk s = a + 8 * (n + span T2) /\ h_brk s < TOP.
Proof.
  pose proof (ho_sized _ _ _ _ Hh) as [H1 [_ H2]%Forall_cons]%Forall_app. destruct (ho_base _ _ _ _ Hh).
  split_and!; try done; [by apply span_nonneg|by apply span_nonneg| |apply Hh].
  rewrite (ho_brk _ _ _ _ Hh), span_app. simpl. unfold a. lia.
Qed.

Lemma take_low x : x ∈ base :: l1.*1 -> 0 < x < a.
Proof.
  destruct take_sizes as (HT1 & _ & Hsp & _ & Hb1 & Hb2 & _). intros [->|Hx]%elem_of_cons; [unfold a; lia|].
  apply list_elem_of_fmap in Hx as (y & -> & Hy). apply marked_range in Hy; [|done]. unfold a. lia.
Qed.

Lemma take_high x : x ∈ l2.*1 -> a + 8 * n <= x.
Proof.
  destruct take_sizes as (_ & HT2 & _). intros (y & -> & Hy)%list_elem_of_fmap. apply marked_range in Hy; [|done]. lia.
Qed.

Lemma take_p : 0 < p < a.
Proof. apply take_low, final_elem. Qed.

Lemma take_nodup : NoDup (base :: l1.*1).
Proof.
  destruct take_sizes as (HT1 & _ & _ & _ & Hb1 & Hb2 & _).
  apply NoDup_cons. split; [|by apply marked_nodup]. intros (y & He & Hy)%list_elem_of_fmap.
  apply marked_range in Hy; [|done]. lia.
Qed.

(** The used blocks are not written. *)
Lemma take_lives x : x ∈ lives lo T1 ++ lives (a + 8 * n) T2 ->
  (x.1 < a \/ a + 8 * n <= x.1) /\ x.1 <> p /\ s_size (cell (h_mem s) x.1) = x.2.
Proof.
  intros Hx. destruct take_sizes as (HT1 & HT2 & Hsp & _ & Hb1 & Hb2 & _).
  assert (Hin : x ∈ lives lo (T1 ++ (n, true) :: T2)) by (by rewrite marked_app).
  split_and!.
  - apply elem_of_app in Hx as [Hx|Hx]; (apply marked_range in Hx; [|done]); unfold a in *; lia.
  - intros He. pose proof (final_elem base l1) as Hp. fold p in Hp. apply elem_of_cons in Hp as [Hp|Hp].
    + apply marked_range in Hin; [|apply Hh]. lia.
    + apply list_elem_of_fmap in Hp as (y & Hpy & Hy). apply (marked_disjoint lo _ y x (ho_sized _ _ _ _ Hh)); [|done|congruence].
      rewrite take_frees. apply elem_of_app. by left.
  - pose proof (ho_lives _ _ _ _ Hh) as HF. rewrite Forall_forall in HF. by apply HF.
Qed.

(** The whole block. *)
Lemma take_whole : n = nunits ->
  heap_ok base lo (T1 ++ (n, false) :: T2)
    (set_h_freep p (set_h_mem (<[p := mkheader (first l2 base) (s_size (cell (h_mem s) p))]> (h_mem s)) s)).
Proof.
  intros Hn. destruct take_links as (Hs1 & Hsa & Hpa & Hr). destruct take_sizes as (HT1 & HT2 & Hsp & Hsp2 & Hb1 & Hb2 & Hbrk & _).
  pose proof take_p as Hp. set (m' := <[p := _]> (h_mem s)).
  assert (Hfr : frees lo (T1 ++ (n, false) :: T2) = l1 ++ l2) by (by rewrite marked_app).
  split; try apply Hh; cbn [h_mem h_freep h_brk set_h_freep set_h_mem].
  - apply Forall_app. split; [done|]. apply Forall_cons. split; [simpl; lia|done].
  - eapply coalesced_used. apply Hh.
  - rewrite Hbrk, span_app. simpl. unfold a. lia.
  - destruct (decide (p = base)) as [He|He].
    + unfold m'. rewrite He, cell_same. simpl. apply Hh.
    + unfold m'. rewrite cell_other by done. apply Hh.
  - rewrite Hfr. apply seg_app. split; [by eapply seg_redirect; [apply take_nodup|exact Hs1|]|].
    eapply rest_frame; [|exact Hr]. intros x Hx%take_high. apply cell_other. lia.
  - assert (Hl : lives lo (T1 ++ (n, false) :: T2) = lives lo T1 ++ (a, n) :: lives (a + 8 * n) T2) by (by rewrite marked_app).
    rewrite Hl. apply Forall_forall. intros x Hx. destruct (decide (x = (a, n))) as [->|Hne].
    + unfold m'. rewrite cell_other by (simpl; lia). done.
    + destruct (take_lives x) as (_ & Hxp & Hxs); [set_solver|]. unfold m'. by rewrite cell_other.
  - rewrite Hfr. pose proof (final_elem base l1) as He. fold p in He. rewrite fmap_app. set_solver.
Qed.

(** The end of a larger block. *)
Lemma take_end h : nunits < n ->
  heap_ok base lo (T1 ++ (n - nunits, true) :: (nunits, false) :: T2)
    (set_h_freep p (set_h_mem (<[q := mkheader h nunits]> (<[a := mkheader (first l2 base) (n - nunits)]> (h_mem s))) s)).
Proof.
  intros Hn. destruct take_links as (Hs1 & Hsa & Hpa & Hr). destruct take_sizes as (HT1 & HT2 & Hsp & Hsp2 & Hb1 & Hb2 & Hbrk & _).
  pose proof take_p as Hp. set (m' := <[q := _]> _).
  assert (Hq : a < q < a + 8 * n) by (unfold q; lia).
  assert (Hm : forall x, x < a \/ a + 8 * n <= x -> cell m' x = cell (h_mem s) x).
  { intros x Hx. unfold m'. rewrite !cell_other by lia. done. }
  assert (Hma : cell m' a = mkheader (first l2 base) (n - nunits)) by (unfold m'; rewrite cell_other by lia; apply cell_same).
  assert (Hfr : frees lo (T1 ++ (n - nunits, true) :: (nunits, false) :: T2) = l1 ++ (a, n - nunits) :: l2).
  { rewrite marked_app. cbn [marked Bool.eqb app]. unfold l2, a. do 3 f_equal. lia. }
  split; try apply Hh; cbn [h_mem h_freep h_brk set_h_freep set_h_mem].
  - apply Forall_app. split; [done|]. apply Forall_cons. split; [simpl; lia|]. apply Forall_cons. split; [simpl; lia|done].
  - apply coalesced_mid; [eapply coalesced_resize, Hh|]. pose proof (ho_coal _ _ _ _ Hh) as [_ Hc]%coalesced_app_inv.
    simpl. by destruct T2 as [|[? []] ?].
  - rewrite Hbrk, span_app. simpl. unfold a. lia.
  - rewrite Hm by (unfold a; lia). apply Hh.
  - rewrite Hfr. apply seg_app. cbn [first rest]. split_and!.
    + eapply seg_frame; [|exact Hs1]. intros x Hx%take_low. apply Hm. lia.
    + by rewrite Hma.
    + apply seg_rest. rewrite Hma. split; [done|]. eapply rest_frame; [|exact Hr]. intros x Hx%take_high. apply Hm. lia.
  - assert (Hl : lives lo (T1 ++ (n - nunits, true) :: (nunits, false) :: T2) = lives lo T1 ++ (q, nunits) :: lives (a + 8 * n) T2).
    { rewrite marked_app. cbn [marked Bool.eqb app]. unfold q, a. do 2 f_equal. f_equal. lia. }
    rewrite Hl. apply Forall_forall. intros x Hx. destruct (decide (x = (q, nunits))) as [->|Hne].
    + unfold m'. rewrite cell_same. done.
    + destruct (take_lives x) as (Hxr & _ & Hxs); [set_solver|]. by rewrite Hm.
  - rewrite Hfr. pose proof (final_elem base l1) as He. fold p in He. rewrite fmap_app. set_solver.
Qed.

Lemma wp_take Q :
  (forall s', heap_ok base lo (before T1 n nunits ++ (nunits, false) :: T2) s' -> h_brk s' = h_brk s -> h_grows s' = h_grows s ->
     (forall x, x ∉ base :: (frees lo (T1 ++ (n, true) :: T2)).*1 -> x <> q -> cell (h_mem s') x = cell (h_mem s) x) ->
     Q (q + 8) s') ->
  wp E (take_block nunits p a) Q s.
Proof.
  intros HQ. destruct take_links as (Hs1 & Hsa & Hpa & Hr). destruct take_sizes as (HT1 & HT2 & Hsp & Hsp2 & Hb1 & Hb2 & Hbrk & Htop).
  pose proof take_p as Hp. assert (Ha : 0 <= a) by (unfold a; lia).
  assert (Hma : in_memory s a = true) by (apply in_memory_true; lia).
  assert (Hmp : in_memory s p = true) by (apply in_memory_true; lia).
  assert (Hpin : p ∈ base :: (frees lo (T1 ++ (n, true) :: T2)).*1).
  { rewrite take_frees, fmap_app. pose proof (final_elem base l1) as He. fold p in He. set_solver. }
  assert (Hain : a ∈ base :: (frees lo (T1 ++ (n, true) :: T2)).*1).
  { rewrite take_frees, fmap_app. apply elem_of_cons. right. apply elem_of_app. right. left. }
  unfold take_block. apply wp_bind, wp_ld; [done|]. rewrite Hsa, Hpa. unfold before in HQ. destruct (Z.eqb_spec n nunits) as [He|He].
  - apply wp_bind, wp_bind, wp_st_ptr; [done|]. apply wp_ret, wp_bind, wp_modify, wp_ret. unfold plus.
    assert (Hqa : q = a) by (unfold q; lia). rewrite Hqa in HQ. rewrite u32_id by lia. replace (a + 8 * 1) with (a + 8) by lia.
    apply HQ; try done; [rewrite <-He; by apply take_whole|]. intros x Hx _. cbn [h_mem set_h_freep set_h_mem].
    apply cell_other. by intros ->.
  - assert (Hq : a < q /\ q + 8 <= h_brk s) by (unfold q; lia).
    apply wp_bind, wp_bind, wp_st_size; [done|]. rewrite Hpa. rewrite u32_id by lia. apply wp_bind, wp_ld; [done|].
    cbn [h_mem set_h_mem]. rewrite cell_same. cbn [s_size]. unfold plus at 1 2. rewrite u32_id by (unfold q in Hq; lia). fold q.
    apply wp_bind, wp_st_size; [apply in_memory_true; simpl; lia|]. apply wp_ret, wp_bind, wp_modify, wp_ret. unfold plus. rewrite u32_id by lia.
    replace (q + 8 * 1) with (q + 8) by lia. cbn [h_mem set_h_mem].
    rewrite <-app_assoc in HQ. apply HQ; try done; [apply take_end; lia|].
    intros x Hx Hxq. cbn [h_mem set_h_freep set_h_mem]. rewrite !cell_other; [done| |done]. by intros ->.
Qed.
End Take.

(** ** [malloc] *)

(** Two blocks of the row do not overlap. *)
Lemma marked_apart b b' lo T x y : sized T -> x ∈ marked b lo T -> y ∈ marked b' lo T -> x <> y \/ b <> b' ->
  x.1 + 8 * x.2 <= y.1 \/ y.1 + 8 * y.2 <= x.1.
Proof.
  intros HT. revert lo. induction HT as [|[n f] T Hn HT IH]; intros lo; simpl in *; [by intros ?%elem_of_nil|].
  intros [Hx|Hx]%elem_of_app [Hy|Hy]%elem_of_app Hne.
  - destruct (Bool.eqb f b) eqn:Hb; [|by apply elem_of_nil in Hx]. destruct (Bool.eqb f b') eqn:Hb'; [|by apply elem_of_nil in Hy].
    apply list_elem_of_singleton in Hx as ->, Hy as ->. apply Bool.eqb_prop in Hb as <-, Hb' as <-. by destruct Hne.
  - destruct (Bool.eqb f b); [|by apply elem_of_nil in Hx]. apply list_elem_of_singleton in Hx as ->.
    apply marked_range in Hy; [|done]. simpl. lia.
  - destruct (Bool.eqb f b'); [|by apply elem_of_nil in Hy]. apply list_elem_of_singleton in Hy as ->.
    apply marked_range in Hx; [|done]. simpl. lia.
  - by eapply IH.
Qed.

(** [x] is in a used block. *)
Definition in_live (lo : Z) (T : list tile) (x : Z) : Prop := exists y, y ∈ lives lo T /\ y.1 <= x < y.1 + 8 * y.2.

(** What the used blocks hold stays. *)
Definition keeps_live (lo : Z) (T : list tile) (s s' : hst) : Prop :=
  forall x, in_live lo T x -> cell (h_mem s') x = cell (h_mem s) x.

Lemma live_not_ring base lo T s x : heap_ok base lo T s -> in_live lo T x -> x ∉ base :: (frees lo T).*1.
Proof.
  intros Hh (y & Hy & Hx). pose proof (ho_sized _ _ _ _ Hh) as HT. destruct (ho_base _ _ _ _ Hh).
  pose proof (marked_range _ _ _ _ HT Hy). intros [->|Hin]%elem_of_cons; [lia|].
  apply list_elem_of_fmap in Hin as (z & -> & Hz). pose proof (marked_range _ _ _ _ HT Hz).
  pose proof (marked_apart _ _ _ _ _ _ HT Hz Hy ltac:(by right)). lia.
Qed.

Lemma ring_split (a : Z) (l : list (Z * Z)) f : f ∈ a :: l.*1 -> exists lf lr, l = lf ++ lr /\ f = final a lf.
Proof.
  intros [->|Hf]%elem_of_cons; [by exists [], l|]. apply list_elem_of_fmap in Hf as ([b n] & -> & Hin).
  apply list_elem_of_split in Hin as (la & lb & ->). exists (la ++ [(b, n)]), lb. rewrite <-app_assoc, final_snoc. done.
Qed.

Definition grown (nu : Z) : Z := if nu <? 4096 then 4096 else nu.

(** The kernel does not give the memory. *)
Definition refused (s : hst) (nu : Z) : Prop := head (h_grows s) <> Some true \/ TOP <= h_brk s + 8 * grown nu.

Section Grow.
Context {E : error -> Prop} (base lo : Z).

Lemma wp_sbrk n Q s : 0 < n < TOP -> 0 <= h_brk s < TOP ->
  (forall g, head (h_grows s) <> Some true \/ TOP <= h_brk s + n -> Q (u32 (-1)) (mkhst (h_mem s) (h_brk s) (h_freep s) g)) ->
  (forall g, h_brk s + n < TOP -> Q (h_brk s) (mkhst (h_mem s) (h_brk s + n) (h_freep s) g)) ->
  wp E (sbrk n) Q s.
Proof.
  intros Hn Hb H0 H1. pose proof (eq_refl : TOP = 2147483648) as HT. unfold wp, sbrk.
  destruct (h_grows s) as [|[] g] eqn:Hg; [| |by apply H0; left].
  - destruct s as [m b f g]. simpl in *. subst g. apply H0. by left.
  - destruct (Z.ltb_spec 0 n); [|lia]. cbn [andb]. assert (Hu : u32 (h_brk s + n) = h_brk s + n) by (unfold u32; rewrite Z.mod_small; lia).
    rewrite Hu. destruct (Z.leb_spec TOP (h_brk s + n)); [apply H0; by right|by apply H1].
Qed.

Lemma wp_morecore T nu Q s : heap_ok base lo T s -> 0 < nu -> 8 * nu < TOP ->
  (forall s', heap_ok base lo T s' -> keeps_live lo T s s' -> refused s nu -> Q 0 s') ->
  (forall s', heap_ok base lo (freed T (grown nu) []) s' -> keeps_live lo T s s' -> Q (h_freep s') s') ->
  wp E (morecore nu) Q s.
Proof.
  intros Hh Hnu Htop H0 H1. unfold morecore. fold (grown nu). set (k := grown nu) in *.
  assert (Hk : 0 < k /\ 8 * k < TOP) by (unfold k, grown, TOP in *; destruct (Z.ltb_spec nu 4096); lia).
  destruct (ho_base _ _ _ _ Hh) as [Hb1 Hb2]. pose proof (ho_brk _ _ _ _ Hh) as Hbrk. pose proof (ho_top _ _ _ _ Hh) as Ht.
  pose proof (span_nonneg T (ho_sized _ _ _ _ Hh)) as Hsp. pose proof (eq_refl : TOP = 2147483648) as HT.
  assert (Hs32 : s32 (u32 (k * 8)) = 8 * k) by (unfold s32; rewrite u32_id by lia; rewrite Z.mod_small; lia).
  rewrite Hs32. apply wp_bind, wp_sbrk; [lia|lia|intros g Hg; apply wp_ret, H0; [destruct Hh; by split|done|exact Hg]|intros g Hok].
  destruct (Z.eqb_spec (h_brk s) (u32 (-1))) as [He|_]; [change (u32 (-1)) with 4294967295 in He; lia|].
  apply wp_bind, wp_st_size; [apply in_memory_true; simpl; lia|]. cbn [h_mem set_h_mem]. rewrite u32_id by lia.
  set (s1 := set_h_mem _ _).
  assert (Hm1 : forall x, x < h_brk s -> cell (h_mem s1) x = cell (h_mem s) x) by (intros x Hx; apply cell_other; lia).
  assert (Hfr : forall x, x ∈ base :: (frees lo T).*1 -> x < h_brk s).
  { intros x Hx. pose proof (heap_mem _ _ _ _ x Hh Hx) as Hm. unfold in_memory in Hm.
    apply andb_true_iff in Hm as [_ Hm%Z.leb_le]. lia. }
  assert (Hh1 : heap_ok base lo (T ++ [(k, false)]) s1).
  { split; try apply Hh.
    - apply Forall_app. split; [apply Hh|]. apply Forall_singleton. simpl. lia.
    - apply coalesced_snoc; [apply Hh|]. by intros [? _].
    - simpl. rewrite Hbrk, span_app. simpl. lia.
    - simpl. lia.
    - rewrite Hm1 by lia. apply Hh.
    - rewrite marked_app. cbn [marked Bool.eqb app]. rewrite app_nil_r. eapply seg_frame; [|apply Hh]. intros x Hx. by apply Hm1, Hfr.
    - rewrite marked_app. cbn [marked Bool.eqb app]. apply Forall_app. split.
      + pose proof (ho_lives _ _ _ _ Hh) as Hl. rewrite Forall_forall in *. intros x Hx. rewrite Hm1; [by apply Hl|].
        apply marked_range in Hx; [|apply Hh]. lia.
      + apply Forall_singleton. cbn [fst snd]. rewrite <-Hbrk. unfold s1. simpl. by rewrite cell_same.
    - rewrite marked_app. cbn [marked Bool.eqb app]. rewrite app_nil_r. apply Hh. }
  apply wp_bind. rewrite Hbrk at 1. apply (wp_free base lo k T [] s1 Hh1). intros s2 Hh2 _ _ _ Hfr2. apply wp_gets, H1; [done|].
  intros x Hx. pose proof (live_not_ring _ _ _ _ _ Hh Hx) as Hxr. destruct Hx as (y & Hy & Hxy). apply marked_range in Hy; [|apply Hh].
  rewrite Hfr2; [apply Hm1; lia|lia|]. simpl. by rewrite app_nil_r.
Qed.

(** The row then has a block that is large enough. *)
Lemma freed_fits T nu : sized T -> 0 < nu -> ~ nofit nu (frees lo (freed T (grown nu) [])).
Proof.
  intros HT Hnu. assert (Hg : nu <= grown nu) by (unfold grown; destruct (Z.ltb_spec nu 4096); lia).
  destruct T as [|[n f] T _] using rev_ind; [simpl; intros [H _]%Forall_cons; simpl in H; lia|].
  apply Forall_app in HT as [_ [Hn _]%Forall_cons]. rewrite freed_snoc. simpl in *. destruct f.
  - rewrite marked_app. simpl. intros [_ [H _]%Forall_cons]%Forall_app. simpl in H. lia.
  - rewrite (marked_app _ _ (T ++ _)). simpl. intros [_ [H _]%Forall_cons]%Forall_app. simpl in H. lia.
Qed.
End Grow.

Lemma heap_pos base lo T s x : heap_ok base lo T s -> x ∈ base :: (frees lo T).*1 -> 0 < x.
Proof.
  intros Hh Hx. destruct (ho_base _ _ _ _ Hh). apply elem_of_cons in Hx as [->|Hx]; [lia|].
  apply list_elem_of_fmap in Hx as (y & -> & Hy). apply marked_range in Hy; [lia|apply Hh].
Qed.

Lemma ring_ptr base lo T s lf lr : heap_ok base lo T s -> frees lo T = lf ++ lr ->
  in_memory s (final base lf) = true /\ s_ptr (cell (h_mem s) (final base lf)) = first lr base.
Proof.
  intros Hh He. split.
  - eapply heap_mem; [exact Hh|]. pose proof (final_elem base lf). rewrite He, fmap_app. set_solver.
  - pose proof (ho_ring _ _ _ _ Hh) as Hs. rewrite He in Hs. apply seg_app in Hs as [Hs _]. by apply seg_last.
Qed.

Section Malloc.
Context {E : error -> Prop} (base lo nunits : Z).
Hypothesis Hnu : 0 < nunits.

(** What [malloc] did when it returns [q + 8]. *)
Definition got (T : list tile) (s : hst) (Q : Z -> hst -> Prop) : Prop :=
  forall s' T' q, heap_ok base lo T' s' -> lives lo T' ≡ₚ (q, nunits) :: lives lo T -> keeps_live lo T s s' -> Q (q + 8) s'.

Lemma wp_fit T s la b n lb Q : heap_ok base lo T s -> frees lo T = la ++ (b, n) :: lb -> nunits <= n -> got T s Q ->
  wp E (take_block nunits (final base la) b) Q s.
Proof.
  intros Hh He Hn HQ. apply marked_split in He as (T1 & T2 & -> & -> & -> & _).
  apply (wp_take base lo n nunits T1 T2 s Hh (conj Hnu Hn)). intros s' Hh' _ _ Hfr. eapply HQ; [exact Hh'| |].
  - rewrite !marked_app. cbn [marked Bool.eqb app]. unfold before. destruct (Z.eqb_spec n nunits) as [->|Hne].
    + rewrite Z.sub_diag. replace (lo + 8 * span T1 + 8 * 0) with (lo + 8 * span T1) by lia. by rewrite <-Permutation_middle.
    + rewrite !marked_app, span_app. cbn [marked Bool.eqb app span]. rewrite app_nil_r.
      replace (lo + 8 * (span T1 + (n - nunits + 0))) with (lo + 8 * span T1 + 8 * (n - nunits)) by lia.
      replace (lo + 8 * span T1 + 8 * (n - nunits) + 8 * nunits) with (lo + 8 * span T1 + 8 * n) by lia. by rewrite <-Permutation_middle.
  - intros x Hx. pose proof (live_not_ring _ _ _ _ _ Hh Hx) as Hr. apply Hfr; [done|]. intros ->.
    destruct Hx as (y & Hy & Hx). assert (Ha : (lo + 8 * span T1, n) ∈ frees lo (T1 ++ (n, true) :: T2)).
    { rewrite marked_app. apply elem_of_app. right. left. }
    pose proof (marked_apart _ _ _ _ _ _ (ho_sized _ _ _ _ Hh) Ha Hy ltac:(by right)) as Hap. simpl in Hap. lia.
Qed.

Lemma freed_length T k : (length (frees lo (freed T k [])) <= S (length (frees lo T)))%nat.
Proof.
  destruct T as [|[n f] T _] using rev_ind; [done|]. rewrite freed_snoc. cbn [join_r fst snd].
  destruct f; rewrite !marked_app, !length_app; simpl; lia.
Qed.

(** The walk through the list that [morecore] made longer. *)
Lemma wp_walk_grown T k s s' fuel Q : heap_ok base lo T s -> 0 < k -> ~ nofit nunits (frees lo (freed T k [])) ->
  heap_ok base lo (freed T k []) s' -> keeps_live lo T s s' -> (S (length (frees lo T)) <= fuel)%nat -> got T s Q ->
  wp E (h ← ld (h_freep s'); malloc_loop fuel nunits (h_freep s') (s_ptr h)) Q s'.
Proof.
  intros Hh Hk Hfits Hh' Hkeep Hfuel HQ. set (T' := freed T k []) in *.
  destruct (freed_row lo T k [] (ho_sized _ _ _ _ Hh) Hk (Forall_nil_2 _) (ho_coal _ _ _ _ Hh) I) as (Hlv & _). fold T' in Hlv.
  rewrite app_nil_r in Hlv. destruct (ring_split _ _ _ (ho_freep _ _ _ _ Hh')) as (lf & lr & He & Hf).
  destruct (ring_ptr _ _ _ _ _ _ Hh' He) as [Hm Hp]. rewrite Hf. apply wp_bind, wp_ld; [done|]. rewrite Hp.
  apply (wp_scan base lo nunits T' s' 0 Q Hh' Hnu lf lr He Hf).
  - intros la b n lb He' Hn. eapply wp_fit; [exact Hh'|exact He'|exact Hn|]. intros s2 T2 q Hh2 Hq Hk2.
    eapply HQ; [exact Hh2|by rewrite <-Hlv|]. intros x Hx. rewrite Hk2; [by apply Hkeep|]. unfold in_live. by rewrite Hlv.
  - intros; by destruct Hfits.
  - pose proof (freed_length T k). fold T' in H. lia.
Qed.

(** The walk through the list. *)
Lemma wp_walk T s fuel lf lr Q : heap_ok base lo T s -> 8 * nunits < TOP -> frees lo T = lf ++ lr -> h_freep s = final base lf ->
  (2 * headers s <= fuel)%nat -> got T s Q ->
  (forall s', heap_ok base lo T s' -> keeps_live lo T s s' -> nofit nunits (frees lo T) -> refused s nunits -> Q 0 s') ->
  wp E (malloc_loop fuel nunits (final base lf) (first lr base)) Q s.
Proof.
  intros Hh Htop He Hf Hfuel HQ H0.
  apply (wp_scan base lo nunits T s (S (S (length (frees lo T)))) Q Hh Hnu lf lr He Hf).
  - intros la b n lb He' Hn. by eapply wp_fit.
  - intros fuel' Hfuel' Hno. apply wp_bind, (wp_morecore base lo T nunits); [done|done|done| |].
    + intros s' Hh' Hk' Hr. rewrite Z.eqb_refl. apply wp_ret. by apply H0.
    + intros s' Hh' Hk'. destruct fuel' as [|fuel']; [lia|].
      assert (Hp : h_freep s' =? 0 = false).
      { pose proof (heap_pos _ _ _ _ _ Hh' (ho_freep _ _ _ _ Hh')). lia. }
      rewrite Hp. eapply (wp_walk_grown T (grown nunits) s); try done; [|apply freed_fits; [apply Hh|done]|lia].
      unfold grown. destruct (Z.ltb_spec nunits 4096); lia.
  - unfold headers in Hfuel. pose proof (marked_length true lo _ (ho_sized _ _ _ _ Hh)) as Hlen. destruct (ho_base _ _ _ _ Hh).
    rewrite (ho_brk _ _ _ _ Hh) in Hfuel. assert (span T + 1 <= (lo + 8 * span T) / 8); [|lia]. apply Z.div_le_lower_bound; lia.
Qed.
End Malloc.

(** ** The program's view *)

(** The headers that [nbytes] take, with the one for the block itself. *)
Definition units (nbytes : Z) : Z := (nbytes + 7) / 8 + 1.
Definition MAXREQ : Z := TOP - 16.

(** Before the first [malloc], [freep] is null; [exec] left the break at the end
    of a page. *)
Definition fresh (base : Z) (s : hst) : Prop :=
  0 < base /\ base + 8 <= h_brk s /\ (4096 | h_brk s) /\ h_brk s < TOP /\ h_freep s = 0.

Definition ready (base lo : Z) (T : list tile) (s : hst) : Prop :=
  heap_ok base lo T s \/ fresh base s /\ T = [] /\ lo = h_brk s.

Lemma ready_sized base lo T s : ready base lo T s -> sized T.
Proof. intros [Hh|(_ & -> & _)]; [apply Hh|constructor]. Qed.

Lemma units_bound nbytes : 0 <= nbytes <= MAXREQ -> 0 < units nbytes /\ 8 * units nbytes < TOP /\ nbytes <= 8 * (units nbytes - 1).
Proof.
  unfold MAXREQ, TOP, units. intros H. pose proof (Z_div_mod_eq_full (nbytes + 7) 8). pose proof (Z.mod_pos_bound (nbytes + 7) 8). lia.
Qed.

Section Calls.
Context {E : error -> Prop} (base lo : Z).

Lemma wp_malloc_heap T s fuel nunits Q : heap_ok base lo T s -> 0 < nunits -> 8 * nunits < TOP -> (2 * headers s <= fuel)%nat ->
  got base lo nunits T s Q ->
  (forall s', heap_ok base lo T s' -> keeps_live lo T s s' -> nofit nunits (frees lo T) -> refused s nunits -> Q 0 s') ->
  wp E (h ← ld (h_freep s); malloc_loop fuel nunits (h_freep s) (s_ptr h)) Q s.
Proof.
  intros Hh Hnu Htop Hfuel HQ H0. destruct (ring_split _ _ _ (ho_freep _ _ _ _ Hh)) as (lf & lr & He & Hf).
  destruct (ring_ptr _ _ _ _ _ _ Hh He) as [Hm Hp]. rewrite Hf. apply wp_bind, wp_ld; [done|]. rewrite Hp. by eapply wp_walk.
Qed.

Lemma wp_malloc T s nbytes Q : ready base lo T s -> 0 <= nbytes <= MAXREQ ->
  got base lo (units nbytes) T s Q ->
  (forall s', heap_ok base lo T s' -> keeps_live lo T s s' -> nofit (units nbytes) (frees lo T) -> refused s (units nbytes) -> Q 0 s') ->
  wp E (malloc base nbytes) Q s.
Proof.
  intros Hr Hn HQ H0. destruct (units_bound _ Hn) as (Hu1 & Hu2 & _). unfold malloc. replace (u32 (nbytes + 8 - 1) / 8 + 1) with (units nbytes).
  2: { unfold units. rewrite u32_id by (unfold MAXREQ, TOP in *; lia). f_equal. f_equal. lia. }
  apply wp_bind, wp_gets. destruct Hr as [Hh|((Hb1 & Hb2 & Hal & Htop & Hf) & -> & Hlo)].
  - pose proof (heap_pos _ _ _ _ _ Hh (ho_freep _ _ _ _ Hh)). destruct (Z.eqb_spec (h_freep s) 0); [lia|].
    apply wp_bind, wp_ret, wp_bind, wp_gets. eapply wp_malloc_heap; try done. lia.
  - rewrite Hf. cbn [Z.eqb]. assert (Hal8 : (8 | h_brk s)) by (etransitivity; [|exact Hal]; by exists 512).
    assert (Hm : in_memory s base = true) by (apply in_memory_true; lia).
    apply wp_bind, wp_bind, wp_st_ptr; [done|]. apply wp_bind, wp_modify, wp_bind, wp_st_size; [done|]. apply wp_ret, wp_bind, wp_gets.
    set (s1 := set_h_mem _ _). change base with (h_freep s1). apply (wp_malloc_heap []); [|done|done|lia| |].
    + rewrite Hlo. split; try done; simpl; rewrite ?cell_same, ?Z.add_0_r; first [done|by constructor].
    + intros s' T' q Hh' Hq _. eapply HQ; [done|done|]. by intros x (y & ?%elem_of_nil & _).
    + intros s' Hh' _ Hno Hrf. apply H0; try done. by intros x (y & ?%elem_of_nil & _).
Qed.

Lemma wp_free_live T s bp k Q : heap_ok base lo T s -> (bp, k) ∈ lives lo T ->
  (forall s' T', heap_ok base lo T' s' -> lives lo T ≡ₚ (bp, k) :: lives lo T' -> keeps_live lo T' s s' -> Q tt s') ->
  wp E (free (bp + 8)) Q s.
Proof.
  intros Hh Hin HQ. apply list_elem_of_split in Hin as (la & lb & He). apply marked_split in He as (T1 & T2 & -> & -> & -> & ->).
  destruct (free_sizes _ _ _ _ _ _ Hh) as (HT1 & Hk & HT2 & _). destruct (free_coal _ _ _ _ _ _ Hh) as [Hc1 Hc2].
  destruct (freed_row lo T1 k T2 HT1 Hk HT2 Hc1 Hc2) as (Hlv & _).
  apply (wp_free base lo k T1 T2 s Hh). intros s' Hh' _ _ _ Hfr. eapply HQ; [exact Hh'| |].
  - rewrite marked_app, Hlv. simpl. by rewrite <-Permutation_middle.
  - intros x Hx. assert (Hx' : in_live lo (T1 ++ (k, false) :: T2) x /\ x <> lo + 8 * span T1).
    { destruct Hx as (y & Hy & Hxy). rewrite Hlv in Hy. split.
      - exists y. split; [|done]. rewrite marked_app. simpl. set_solver.
      - apply elem_of_app in Hy as [Hy|Hy]; apply marked_range in Hy; try done; lia. }
    destruct Hx' as [Hx1 Hx2]. apply Hfr; [done|]. rewrite <-(free_frees lo k T1 T2). by eapply live_not_ring.
Qed.
End Calls.
