(* ===== verification/UmallocTheorems.v ===== *)
(** * Programs that use the allocator

    The runs of a program that calls [malloc] and [free] and writes only inside
    the blocks it holds, and what the allocator promises it.  The program is not
    one that calls [sbrk] itself. *)

From stdpp Require Import base numbers list gmap strings relations.
From S2P Require Import Prelude Umalloc.

Open Scope Z_scope.

(** The allocator's memory, and the pointers the program holds with the sizes it
    asked for. *)
Definition prog : Type := hst * list (Z * Z).

Inductive mstep (base : Z) : prog -> prog -> Prop :=
| m_malloc s A nbytes p s' : 0 <= nbytes <= MAXREQ -> malloc base nbytes s = Ok (p, s') -> p <> 0 ->
    mstep base (s, A) (s', (p, nbytes) :: A)
| m_null s A nbytes s' : 0 <= nbytes <= MAXREQ -> malloc base nbytes s = Ok (0, s') -> mstep base (s, A) (s', A)
| m_free s A1 p n A2 s' : free p s = Ok (tt, s') -> mstep base (s, A1 ++ (p, n) :: A2) (s', A1 ++ A2)
| m_write s A p n a h : (p, n) ∈ A -> (8 | a) -> p <= a -> a + 8 <= p + n ->
    mstep base (s, A) (set_h_mem (<[a := h]> (h_mem s)) s, A).

(** The block of the row behind a pointer. *)
Definition block (x : Z * Z) : Z * Z := (x.1 - 8, units x.2).

Record held (base lo : Z) (T : list tile) (x : prog) : Prop := {
  hd_ready : ready base lo T x.1;
  hd_lives : lives lo T ≡ₚ block <$> x.2;
  hd_sizes : Forall (fun y => 0 <= y.2 <= MAXREQ) x.2;
}.

(** ** The program's steps keep the heap *)

Lemma heap_ok_write base lo T s bp k a h : heap_ok base lo T s -> (bp, k) ∈ lives lo T -> bp + 8 <= a -> a + 8 <= bp + 8 * k ->
  heap_ok base lo T (set_h_mem (<[a := h]> (h_mem s)) s).
Proof.
  intros Hh Hin Ha1 Ha2. pose proof (live_not_ring _ _ _ _ a Hh) as Hr. pose proof (ho_sized _ _ _ _ Hh) as HT.
  assert (Hal : in_live lo T a) by (exists (bp, k); simpl; split; [done|lia]). specialize (Hr Hal).
  assert (Hc : forall x, x ∈ base :: (frees lo T).*1 -> cell (<[a := h]> (h_mem s)) x = cell (h_mem s) x).
  { intros x Hx. apply cell_other. by intros ->. }
  split; try apply Hh; cbn [h_mem set_h_mem].
  - rewrite Hc; [apply Hh|left].
  - eapply seg_frame; [exact Hc|apply Hh].
  - pose proof (ho_lives _ _ _ _ Hh) as Hl. rewrite Forall_forall in *. intros y Hy. rewrite cell_other; [by apply Hl|].
    intros He. destruct (decide (y = (bp, k))) as [->|Hne]; [simpl in He; lia|].
    pose proof (marked_range _ _ _ _ HT Hy).
    pose proof (marked_apart _ _ _ _ _ _ HT Hy Hin (or_introl Hne)) as Hap. simpl in Hap. lia.
Qed.

Section Held.
Context (base lo : Z).

Lemma held_heap T s A : held base lo T (s, A) -> A <> [] -> heap_ok base lo T s.
Proof.
  intros [[Hh|(_ & -> & _)] Hl _] HA; [done|]. simpl in Hl. symmetry in Hl. by apply Permutation_nil_r, fmap_nil_inv in Hl.
Qed.

(** A held pointer is a used block. *)
Lemma held_block T s A p n : held base lo T (s, A) -> (p, n) ∈ A -> (p - 8, units n) ∈ lives lo T.
Proof.
  intros Hd Hin. rewrite (hd_lives _ _ _ _ Hd). simpl. apply (list_elem_of_fmap_2' block A (p, n)); done.
Qed.

Lemma held_malloc {E : error -> Prop} T s A nbytes : held base lo T (s, A) -> 0 <= nbytes <= MAXREQ ->
  wp E (malloc base nbytes) (fun p s' => keeps_live lo T s s' /\
    (p = 0 /\ held base lo T (s', A) /\ nofit (units nbytes) (frees lo T) /\ refused s (units nbytes) \/
     p <> 0 /\ exists T', held base lo T' (s', (p, nbytes) :: A))) s.
Proof.
  intros [Hr Hl Hs] Hn. simpl in *. apply (wp_malloc base lo T); [done|done| |].
  - intros s1 T' q Hh' Hq Hk. split; [done|]. right. assert (Hin : (q, units nbytes) ∈ lives lo T') by (rewrite Hq; left).
    apply marked_range in Hin; [|apply Hh']. destruct (ho_base _ _ _ _ Hh'). simpl in Hin. split; [lia|]. exists T'. split; simpl; [by left| |].
    + rewrite Hq, Hl. unfold block at 2. simpl. by replace (q + 8 - 8) with q by lia.
    + by apply Forall_cons.
  - intros s1 Hh' Hk Hno Hrf. split; [done|]. left. split_and!; [done| |done|done]. split; simpl; [by left|done|done].
Qed.

Lemma held_free {E : error -> Prop} T s A1 p n A2 : held base lo T (s, A1 ++ (p, n) :: A2) ->
  wp E (free p) (fun _ s' => exists T', held base lo T' (s', A1 ++ A2) /\ keeps_live lo T' s s') s.
Proof.
  intros Hd. assert (HA : A1 ++ (p, n) :: A2 <> []) by (by destruct A1). pose proof (held_heap _ _ _ Hd HA) as Hh.
  assert (Hin : (p - 8, units n) ∈ lives lo T) by (eapply held_block; [done|]; apply elem_of_app; right; left).
  replace p with (p - 8 + 8) at 1 by lia. eapply wp_free_live; [exact Hh|exact Hin|]. intros s' T' Hh' Hp Hk.
  destruct Hd as [_ Hl Hs]. simpl in *. exists T'. split; [|done]. split; simpl; [by left| |].
  - rewrite Hl, !fmap_app, fmap_cons in Hp. rewrite <-Permutation_middle in Hp. apply Permutation_cons_inv in Hp. by rewrite <-Hp, fmap_app.
  - apply Forall_app in Hs as [? [_ ?]%Forall_cons]. by apply Forall_app.
Qed.

Lemma held_step T x y : held base lo T x -> mstep base x y -> exists T', held base lo T' y.
Proof.
  intros Hd Hst. destruct Hst as [s A nbytes p s' Hn Hrun Hp|s A nbytes s' Hn Hrun|s A1 p n A2 s' Hrun|s A p n a h Hin Hal Ha1 Ha2].
  - destruct (wp_run _ _ _ _ _ Hrun (held_malloc _ _ _ _ Hd Hn)) as [_ [[? _]|[_ ?]]]; [by destruct Hp|done].
  - destruct (wp_run _ _ _ _ _ Hrun (held_malloc _ _ _ _ Hd Hn)) as [_ [(_ & ? & _)|[? _]]]; [by exists T|done].
  - destruct (wp_run _ _ _ _ _ Hrun (held_free _ _ _ _ _ _ Hd)) as (T' & ? & _). by exists T'.
  - exists T. assert (Hh : heap_ok base lo T s) by (eapply held_heap; [exact Hd|]; by intros ->; apply elem_of_nil in Hin).
    pose proof (held_block _ _ _ _ _ Hd Hin) as Hb. destruct Hd as [_ Hl Hs]. simpl in *. split; simpl; [left|done|done].
    rewrite Forall_forall in Hs. destruct (units_bound _ (Hs _ Hin)) as (_ & _ & Hu). simpl in Hu. eapply heap_ok_write; [exact Hh|exact Hb|lia|lia].
Qed.
End Held.

Lemma held_rtc base lo x y : (exists T, held base lo T x) -> rtc (mstep base) x y -> exists T, held base lo T y.
Proof. intros HT Hr. induction Hr as [|x y z Hst _ IH]; [done|]. destruct HT as [T HT]. apply IH. by eapply held_step. Qed.

Lemma held_reachable base s0 x : fresh base s0 -> rtc (mstep base) (s0, []) x -> exists T, held base (h_brk s0) T x.
Proof. intros Hf. apply held_rtc. exists []. split; simpl; [by right|done|constructor]. Qed.

(** ** The properties *)

(** Two held pointers are different blocks of the row. *)
Lemma held_nodup base lo T s A : held base lo T (s, A) -> NoDup A.*1.
Proof.
  intros [Hr Hl _]. simpl in *. pose proof (marked_nodup false lo T (ready_sized _ _ _ _ Hr)) as Hnd. rewrite Hl in Hnd.
  rewrite <-list_fmap_compose in Hnd. apply NoDup_fmap_1 with (f := fun p => p - 8). by rewrite <-list_fmap_compose.
Qed.

Lemma ready_top base lo T s : ready base lo T s -> h_brk s = lo + 8 * span T.
Proof. intros [Hh|(_ & -> & ->)]; [apply Hh|simpl; lia]. Qed.

Lemma marked_aligned b lo T x : (8 | lo) -> x ∈ marked b lo T -> (8 | x.1).
Proof.
  revert lo. induction T as [|[n f] T IH]; intros lo Hlo; simpl; [by intros ?%elem_of_nil|].
  intros [Hx|Hx]%elem_of_app.
  - destruct (Bool.eqb f b); [|by apply elem_of_nil in Hx]. by apply list_elem_of_singleton in Hx as ->.
  - eapply IH; [|exact Hx]. apply Z.divide_add_r; [done|]. apply Z.divide_factor_l.
Qed.

(** What a held block holds is in a used block of the row. *)
Lemma held_live base lo T s A p n a : held base lo T (s, A) -> (p, n) ∈ A -> p <= a -> a + 8 <= p + n -> in_live lo T a.
Proof.
  intros Hd Hin Ha1 Ha2. pose proof (hd_sizes _ _ _ _ Hd) as Hs. simpl in Hs. rewrite Forall_forall in Hs.
  destruct (units_bound _ (Hs _ Hin)) as (_ & _ & Hu). exists (p - 8, units n). simpl in *. split; [by eapply held_block|lia].
Qed.

(** C12. Along any run of a program that calls malloc and free and writes inside
    its blocks, the blocks it holds are aligned to eight bytes, lie inside the
    memory that sbrk gave, have at least the size that was asked for and do not
    overlap, headers included. *)
Theorem malloc_blocks_apart base s0 s A : fresh base s0 -> rtc (mstep base) (s0, []) (s, A) ->
  NoDup A.*1 /\
  forall p n, (p, n) ∈ A -> (8 | p) /\ h_brk s0 + 8 <= p /\ p + n <= h_brk s /\
    forall p' n', (p', n') ∈ A -> p' <> p -> p + n <= p' - 8 \/ p' + n' <= p - 8.
Proof.
  intros Hf Hr. destruct (held_reachable _ _ _ Hf Hr) as [T Hd]. split; [by eapply held_nodup|].
  pose proof (hd_ready _ _ _ _ Hd) as Hrd. pose proof (ready_sized _ _ _ _ Hrd) as HT. apply ready_top in Hrd. simpl in Hrd.
  pose proof (hd_sizes _ _ _ _ Hd) as Hs. simpl in Hs. rewrite Forall_forall in Hs. intros p n Hin.
  pose proof (held_block _ _ _ _ _ _ _ Hd Hin) as Hb. destruct (units_bound _ (Hs _ Hin)) as (Hu1 & _ & Hu). simpl in Hu, Hu1.
  pose proof (marked_range _ _ _ _ HT Hb) as Hbr. simpl in Hbr. split_and!; [|lia|lia|].
  - replace p with (p - 8 + 8) by lia. apply Z.divide_add_r; [|by exists 1]. eapply (marked_aligned false (h_brk s0) T (p - 8, units n)); [|done].
    destruct Hf as (_ & _ & H & _). etransitivity; [|exact H]. by exists 512.
  - intros p' n' Hin' Hne. pose proof (held_block _ _ _ _ _ _ _ Hd Hin') as Hb'. destruct (units_bound _ (Hs _ Hin')) as (Hu1' & _ & Hu').
    simpl in Hu', Hu1'. assert (Hdiff : (p - 8, units n) <> (p' - 8, units n')) by (intros [= ? ?]; lia).
    pose proof (marked_apart _ _ _ _ _ _ HT Hb Hb' (or_introl Hdiff)) as Hap. simpl in Hap. lia.
Qed.

(** C13. In every state such a program reaches, malloc of at most 2^31 - 16 bytes
    and free of a held pointer return; malloc returns null only when the kernel
    refuses the memory; and neither changes what the other blocks hold. *)
Theorem malloc_free_return base s0 s A : fresh base s0 -> rtc (mstep base) (s0, []) (s, A) ->
  (forall nbytes, 0 <= nbytes <= MAXREQ -> exists p s', malloc base nbytes s = Ok (p, s') /\ (p = 0 -> refused s (units nbytes)) /\
     forall q n a, (q, n) ∈ A -> q <= a -> a + 8 <= q + n -> cell (h_mem s') a = cell (h_mem s) a) /\
  (forall A1 p m A2, A = A1 ++ (p, m) :: A2 -> exists s', free p s = Ok (tt, s') /\
     forall q n a, (q, n) ∈ A1 ++ A2 -> q <= a -> a + 8 <= q + n -> cell (h_mem s') a = cell (h_mem s) a).
Proof.
  intros Hf Hr. destruct (held_reachable _ _ _ Hf Hr) as [T Hd]. split.
  - intros nbytes Hn. destruct (wp_no_error _ _ _ (held_malloc _ _ _ _ _ nbytes Hd Hn)) as (p & s' & Hrun & Hk & Hcase).
    exists p, s'. split_and!; [done| |].
    + intros ->. destruct Hcase as [(_ & _ & _ & ?)|[? _]]; done.
    + intros q n a Hin Ha1 Ha2. apply Hk. by eapply held_live.
  - intros A1 p m A2 ->. destruct (wp_no_error _ _ _ (held_free _ _ _ _ _ _ _ _ Hd)) as ([] & s' & Hrun & T' & Hd' & Hk).
    exists s'. split; [done|]. intros q n a Hin Ha1 Ha2. apply Hk. by eapply held_live.
Qed.

(** A row without used blocks is one free block. *)
Lemma all_free lo T : coalesced T -> lives lo T = [] -> T = [] \/ exists n, T = [(n, true)].
Proof.
  intros Hc Hl. destruct T as [|[n [|]] T]; [by left| |done]. right. exists n. f_equal.
  destruct T as [|[n' [|]] T]; [done|done|]. simpl in Hl. done.
Qed.

(** When the program has freed all it held, the free list is one block again,
    which is all the memory that sbrk gave: nothing is lost, and no boundary
    between freed blocks remains. *)
Theorem free_all_coalesces base s0 s : fresh base s0 -> rtc (mstep base) (s0, []) (s, []) ->
  h_brk s = h_brk s0 \/
  (s_ptr (cell (h_mem s) base) = h_brk s0 /\ s_ptr (cell (h_mem s) (h_brk s0)) = base /\
   h_brk s0 + 8 * s_size (cell (h_mem s) (h_brk s0)) = h_brk s).
Proof.
  intros Hf Hr. destruct (held_reachable _ _ _ Hf Hr) as [T [Hrd Hl _]]. simpl in *.
  destruct Hrd as [Hh|(_ & _ & He)]; [|by left]. apply Permutation_nil_r in Hl.
  destruct (all_free _ _ (ho_coal _ _ _ _ Hh) Hl) as [->|[n ->]].
  - left. rewrite (ho_brk _ _ _ _ Hh). cbn [span]. lia.
  - right. destruct (ho_ring _ _ _ _ Hh) as (H1 & H2 & H3). rewrite (ho_brk _ _ _ _ Hh), H2. cbn [span]. split_and!; [done|done|lia].
Qed.

(** The size computation wraps around: asking for one of the seven largest
    sizes behaves as asking for none, and gives a block without a byte. *)
Theorem malloc_size_wraps base nbytes s : 2 ^ 32 - 7 <= nbytes < 2 ^ 32 -> malloc base nbytes s = malloc base 0 s.
Proof.
  intros Hn. unfold malloc. replace (u32 (nbytes + 8 - 1) / 8) with (u32 (0 + 8 - 1) / 8); [done|].
  change (u32 (0 + 8 - 1) / 8) with 0. unfold u32. replace (nbytes + 8 - 1) with (nbytes - (2 ^ 32 - 7) + 1 * 2 ^ 32) by lia. rewrite Z_mod_plus_full, Z.mod_small by lia.
  symmetry. apply Z.div_small. lia.
Qed.

(** A run that can only fail with [e]. *)
Lemma wp_fails {S A} (m : M S A) e s : wp (fun x => x = e) m (fun _ _ => False) s -> m s = Err e.
Proof. unfold wp. by destruct (m s) as [[]|]; [|intros ->]. Qed.

(** A request whose size in bytes is negative as an int makes sbrk shrink the
    process, and the header is then stored behind the break. *)
Theorem malloc_negative_sbrk base s g : fresh base s -> h_grows s = true :: g -> malloc base 4294967280 s = Err Fault.
Proof.
  intros (Hb1 & Hb2 & Hal & Htop & Hf) Hg. unfold malloc. change (u32 (4294967280 + 8 - 1) / 8 + 1) with 536870911.
  assert (Hm : in_memory s base = true) by (apply in_memory_true; lia). apply wp_fails.
  apply wp_bind, wp_gets. rewrite Hf. cbn [Z.eqb]. apply wp_bind, wp_bind, wp_st_ptr; [done|]. apply wp_bind, wp_modify, wp_bind, wp_st_size; [done|].
  apply wp_ret, wp_bind, wp_gets, wp_bind, wp_ld; [done|]. cbn [h_mem set_h_mem set_h_freep]. rewrite !cell_same. cbn [s_ptr].
  set (fuel := (2 * _ + 2)%nat). assert (Hfu : exists k, fuel = S k) by (exists (fuel - 1)%nat; unfold fuel; lia). destruct Hfu as [k ->].
  cbn [malloc_loop]. apply wp_bind, wp_ld; [done|]. cbn [h_mem set_h_mem set_h_freep]. rewrite cell_same. cbn [s_size Z.leb Z.compare].
  apply wp_bind, wp_gets. cbn [h_freep set_h_mem set_h_freep]. rewrite Z.eqb_refl. apply wp_bind. unfold morecore.
  change (s32 (u32 ((if 536870911 <? 4096 then 4096 else 536870911) * 8))) with (-8). apply wp_bind.
  unfold wp, sbrk. cbn [h_grows h_brk h_mem h_freep set_h_mem set_h_freep]. rewrite Hg. cbn [Z.ltb Z.compare andb].
  destruct (Z.eqb_spec (h_brk s) (u32 (-1))) as [He|_]; [change (u32 (-1)) with 4294967295 in He; unfold TOP in Htop; lia|].
  set (s2 := mkhst _ _ _ _). assert (Hm2 : in_memory s2 (h_brk s) = false).
  { unfold in_memory. cbn [h_brk s2]. unfold u32. rewrite Z.mod_small by (unfold TOP in Htop; lia). lia. }
  unfold st_size, ld, mbind, M_bind. by rewrite Hm2.
Qed.

(** ** A program that allocates two blocks, writes and frees *)

Definition after {A} (m : M hst A) (s : hst) : hst := match m s with Ok (_, s') => s' | Err _ => s end.

Definition demo_start : hst := mkhst ∅ 12288 0 [true; false].
Definition demo_one : hst := after (malloc 2048 100) demo_start.
Definition demo_two : hst := after (malloc 2048 24) demo_one.
Definition demo_data : hst := set_h_mem (<[44928 := mkheader 5 6]> (h_mem demo_two)) demo_two.
Definition demo_three : hst := after (free 44952) demo_data.
Definition demo_four : hst := after (free 44920) demo_three.

Lemma demo_fresh : fresh 2048 demo_start.
Proof. split_and!; try done. by exists 3. Qed.

Lemma demo_alloc : rtc (mstep 2048) (demo_start, []) (demo_two, [(44920, 24); (44952, 100)]).
Proof.
  eapply rtc_l; [eapply (m_malloc _ _ _ 100 44952 demo_one); [done|by vm_compute|done]|].
  eapply rtc_l; [eapply (m_malloc _ _ _ 24 44920 demo_two); [done|by vm_compute|done]|]. apply rtc_refl.
Qed.

Lemma demo_freed : rtc (mstep 2048) (demo_start, []) (demo_four, []).
Proof.
  etransitivity; [apply demo_alloc|].
  eapply rtc_l; [apply (m_write _ _ _ 44920 24 44928 (mkheader 5 6)); [left|by exists 5616|done|done]|].
  eapply rtc_l; [apply (m_free _ demo_data [(44920, 24)] 44952 100 [] demo_three); by vm_compute|].
  eapply rtc_l; [apply (m_free _ demo_three [] 44920 24 [] demo_four); by vm_compute|]. apply rtc_refl.
Qed.

Lemma malloc_blocks_apart_witness : (8 | 44920) /\ (44920 + 24 <= 44952 - 8 \/ 44952 + 100 <= 44920 - 8).
Proof.
  destruct (malloc_blocks_apart 2048 demo_start demo_two _ demo_fresh demo_alloc) as [_ H].
  destruct (H 44920 24 ltac:(left)) as (H8 & _ & _ & Hap). split; [exact H8|]. apply (Hap 44952 100); [right; left|done].
Defined.

Lemma malloc_free_return_witness : exists s', free 44952 demo_two = Ok (tt, s') /\ cell (h_mem s') 44928 = cell (h_mem demo_two) 44928.
Proof.
  destruct (malloc_free_return 2048 demo_start demo_two _ demo_fresh demo_alloc) as [_ H].
  destruct (H [(44920, 24)] 44952 100 [] eq_refl) as (s' & Hrun & Hk). exists s'. split; [exact Hrun|].
  apply (Hk 44920 24); [left|done|done].
Defined.

Lemma free_all_coalesces_witness : h_brk demo_four = 12288 + 8 * s_size (cell (h_mem demo_four) 12288).
Proof.
  destruct (free_all_coalesces 2048 demo_start demo_four demo_fresh demo_freed) as [H|(_ & _ & H)].
  - exfalso. by vm_compute in H.
  - symmetry. exact H.
Defined.

Lemma malloc_size_wraps_witness : exists s', malloc 2048 4294967295 demo_start = Ok (45056, s') /\ h_brk s' = 45056.
Proof.
  exists (after (malloc 2048 0) demo_start). split; [|by vm_compute].
  rewrite (malloc_size_wraps 2048 4294967295 demo_start); [by vm_compute|done].
Defined.

Lemma malloc_negative_sbrk_witness : malloc 2048 4294967280 demo_start = Err Fault.
Proof. exact (malloc_negative_sbrk 2048 demo_start [false] demo_fresh eq_refl). Defined.
