(* ===== verification/Syscall.v ===== *)
(** * System calls: arguments and dispatch (syscall.c, syscall.h, fcntl.h)

    The kernel reads the arguments of a system call from the memory of the
    process that makes it.  The process is given by the bytes mapped from address
    0 on, its size and its stack pointer; a pointer is a number. *)

From stdpp Require Import base numbers list strings.
From S2P Require Import Prelude Strings Bytes.

Open Scope Z_scope.

(** The modes of [open]. *)
Definition O_RDONLY : Z := 0.
Definition O_WRONLY : Z := 1.
Definition O_RDWR : Z := 2.
Definition O_CREATE : Z := 512.

(** What the routines use of [proc]. *)
Record uctx := mkuctx {
  u_mem : list Z;
  u_sz : Z;
  u_esp : Z;
}.

(** [*ip] on success. *)
Definition fetchint (p : uctx) (addr : Z) : outcome (option Z) :=
  if (u_sz p <=? addr) || (u_sz p <? u32 (addr + 4)) then Ok None
  else match get32 (u_mem p) (Z.to_nat addr) with
       | Some v => Ok (Some (s32 v))
       | None => Err Fault
       end.

(** [for(s = *pp; s < ep; s++)] with [n] bytes left: the string ends after the
    bytes counted so far. *)
Fixpoint fetchstr_loop (p : uctx) (s len : Z) (n : nat) : outcome (option Z) :=
  match n with
  | O => Ok None
  | S n =>
      match u_mem p !! Z.to_nat s with
      | None => Err Fault
      | Some c => if c =? 0 then Ok (Some len) else fetchstr_loop p (s + 1) (len + 1) n
      end
  end.

(** [*pp] and the length on success. *)
Definition fetchstr (p : uctx) (addr : Z) : outcome (option (Z * Z)) :=
  if u_sz p <=? addr then Ok None
  else r ← fetchstr_loop p addr 0 (Z.to_nat (u_sz p - addr));
       Ok (match r with Some len => Some (addr, len) | None => None end).

Definition argint (p : uctx) (n : Z) : outcome (option Z) := fetchint p (u32 (u_esp p + 4 + 4 * n)).

Definition argptr (p : uctx) (n size : Z) : outcome (option Z) :=
  r ← argint p n;
  match r with
  | None => Ok None
  | Some i => if (u_sz p <=? u32 i) || (u_sz p <? u32 (u32 i + size)) then Ok None else Ok (Some (u32 i))
  end.

Definition argstr (p : uctx) (n : Z) : outcome (option (Z * Z)) :=
  r ← argint p n;
  match r with
  | None => Ok None
  | Some addr => fetchstr p (u32 addr)
  end.

(** ** The table *)

Inductive sysname :=
  | sys_fork | sys_exit | sys_wait | sys_pipe | sys_read | sys_kill | sys_exec | sys_fstat | sys_chdir | sys_dup
  | sys_getpid | sys_sbrk | sys_sleep | sys_uptime | sys_open | sys_write | sys_mknod | sys_unlink | sys_link
  | sys_mkdir | sys_close | sys_halt | sys_date | sys_getuid | sys_getgid | sys_getppid | sys_setuid | sys_setgid
  | sys_getprocs | sys_setPriority | sys_getPriority | sys_chmod | sys_chown | sys_chgrp.

#[export] Instance sysname_eq_dec : EqDecision sysname.
Proof. solve_decision. Defined.

(** The numbers of syscall.h. *)
Definition SYS (c : sysname) : nat :=
  match c with
  | sys_fork => 1 | sys_exit => 2 | sys_wait => 3 | sys_pipe => 4 | sys_read => 5 | sys_kill => 6 | sys_exec => 7
  | sys_fstat => 8 | sys_chdir => 9 | sys_dup => 10 | sys_getpid => 11 | sys_sbrk => 12 | sys_sleep => 13
  | sys_uptime => 14 | sys_open => 15 | sys_write => 16 | sys_mknod => 17 | sys_unlink => 18 | sys_link => 19
  | sys_mkdir => 20 | sys_close => 21 | sys_halt => 22 | sys_date => 23 | sys_getuid => 24 | sys_getgid => 25
  | sys_getppid => 26 | sys_setuid => 27 | sys_setgid => 28 | sys_getprocs => 29 | sys_getPriority => 30
  | sys_setPriority => 31 | sys_chmod => 32 | sys_chown => 33 | sys_chgrp => 34
  end.

(** The initialiser of [syscalls], in its order. *)
Definition initialiser : list sysname := [
  sys_fork; sys_exit; sys_wait; sys_pipe; sys_read; sys_kill; sys_exec; sys_fstat; sys_chdir; sys_dup;
  sys_getpid; sys_sbrk; sys_sleep; sys_uptime; sys_open; sys_write; sys_mknod; sys_unlink; sys_link;
  sys_mkdir; sys_close; sys_halt; sys_date; sys_getuid; sys_getgid; sys_getppid; sys_setuid; sys_setgid;
  sys_getprocs; sys_setPriority; sys_getPriority; sys_chmod; sys_chown; sys_chgrp ].

(** [[n] f, ...]: the array is as long as its largest index needs, the other
    entries are null. *)
Definition syscalls : list (option sysname) :=
  foldl (fun t c => <[SYS c := Some c]> (t ++ replicate (S (SYS c) - length t) None)) [] initialiser.

Section Dispatch.
Context {S : Type}.
(** [proc->tf->eax], [cprintf] of the message for an unknown number, and the
    routines of sysfile.c and sysproc.c. *)
Context (get_eax : S -> Z) (set_eax : Z -> S -> S) (unknown : Z -> S -> S) (run : sysname -> M S Z).

Definition syscall : M S unit :=
  num ← gets get_eax;
  match (if (0 <? num) && (num <? Z.of_nat (length syscalls)) then mjoin (syscalls !! Z.to_nat num) else None) with
  | Some c => r ← run c; modify (set_eax r)
  | None => modify (unknown num) ;; modify (set_eax (-1))
  end.
End Dispatch.

(** ** Lemmas *)

Record uctx_ok (p : uctx) : Prop := {
  uo_sz : 0 <= u_sz p < 2 ^ 31;
  uo_mem : u_sz p <= Z.of_nat (length (u_mem p));
}.

Lemma fetchint_ok p addr : uctx_ok p -> 0 <= addr ->
  exists r, fetchint p addr = Ok r /\ (is_Some r <-> addr + 4 <= u_sz p) /\
    forall v, r = Some v -> exists w, get32 (u_mem p) (Z.to_nat addr) = Some w /\ v = s32 w.
Proof.
  intros [Hsz Hm] Ha. unfold fetchint.
  destruct (Z.leb_spec (u_sz p) addr) as [Hge|Hlt]; cbn [orb].
  { exists None. split_and!; try done. split; [by intros []|lia]. }
  unfold u32. rewrite Z.mod_small by lia. destruct (Z.ltb_spec (u_sz p) (addr + 4)) as [Hlt'|Hge].
  { exists None. split_and!; try done. split; [by intros []|lia]. }
  destruct (get32_Some (u_mem p) (Z.to_nat addr)) as [w Hw]; [lia|]. rewrite Hw. eexists. split; [done|]. split.
  - split; [lia|done].
  - intros v [= <-]. by exists w.
Qed.

Lemma fetchstr_loop_ok p s len n : 0 <= s -> (Z.to_nat s + n <= length (u_mem p))%nat ->
  exists r, fetchstr_loop p s len n = Ok r /\
    match r with
    | Some l => exists k, l = len + Z.of_nat k /\ (k < n)%nat /\ u_mem p !! (Z.to_nat s + k)%nat = Some 0 /\
        forall j, (j < k)%nat -> u_mem p !! (Z.to_nat s + j)%nat <> Some 0
    | None => forall j, (j < n)%nat -> u_mem p !! (Z.to_nat s + j)%nat <> Some 0
    end.
Proof.
  revert s len. induction n as [|n IH]; intros s len Hs Hn; cbn [fetchstr_loop].
  { exists None. split; [done|]. lia. }
  destruct (lookup_lt_is_Some_2 (u_mem p) (Z.to_nat s)) as [c Hc]; [lia|]. rewrite Hc.
  destruct (Z.eqb_spec c 0) as [->|Hne].
  { exists (Some len). split; [done|]. exists O. rewrite Nat.add_0_r. split_and!; [lia|lia|done|lia]. }
  destruct (IH (s + 1) (len + 1)) as (r & Hr & Hspec); [lia|lia|]. exists r. split; [done|].
  replace (Z.to_nat (s + 1)) with (S (Z.to_nat s)) in Hspec by lia.
  assert (Hstep : forall k, (forall j, (j < k)%nat -> u_mem p !! (S (Z.to_nat s) + j)%nat <> Some 0) ->
    forall j, (j < S k)%nat -> u_mem p !! (Z.to_nat s + j)%nat <> Some 0).
  { intros k Hk [|j] Hj; [rewrite Nat.add_0_r, Hc; congruence|]. rewrite Nat.add_succ_r. apply (Hk j). lia. }
  destruct r as [l|]; [|by apply Hstep].
  destruct Hspec as (k & -> & Hk & Hz & Hnz). exists (S k). rewrite Nat.add_succ_r. split_and!; [lia|lia|done|]. by apply Hstep.
Qed.

Lemma fetchstr_ok p addr : uctx_ok p -> 0 <= addr ->
  exists r, fetchstr p addr = Ok r /\
    match r with
    | Some (a, len) => a = addr /\ 0 <= len /\ addr + len < u_sz p /\
        u_mem p !! Z.to_nat (addr + len) = Some 0 /\
        forall j, addr <= j < addr + len -> u_mem p !! Z.to_nat j <> Some 0
    | None => forall j, addr <= j < u_sz p -> u_mem p !! Z.to_nat j <> Some 0
    end.
Proof.
  intros [Hsz Hm] Ha. unfold fetchstr. destruct (Z.leb_spec (u_sz p) addr) as [Hge|Hlt].
  { exists None. split; [done|]. lia. }
  destruct (fetchstr_loop_ok p addr 0 (Z.to_nat (u_sz p - addr))) as (r & -> & Hr); [done|lia|].
  cbn [mbind outcome_bind]. destruct r as [l|]; (eexists; split; [reflexivity|]).
  - destruct Hr as (k & -> & Hk & Hz & Hnz). rewrite Z.add_0_l.
    replace (Z.to_nat (addr + Z.of_nat k)) with (Z.to_nat addr + k)%nat by lia. split_and!; [done|lia|lia|done|].
    intros j Hj. replace (Z.to_nat j) with (Z.to_nat addr + Z.to_nat (j - addr))%nat by lia. apply Hnz. lia.
  - intros j Hj. replace (Z.to_nat j) with (Z.to_nat addr + Z.to_nat (j - addr))%nat by lia. apply Hr. lia.
Qed.

Lemma argint_ok p n : uctx_ok p ->
  exists r, argint p n = Ok r /\ (is_Some r <-> u32 (u_esp p + 4 + 4 * n) + 4 <= u_sz p).
Proof.
  intros Hp. destruct (fetchint_ok p (u32 (u_esp p + 4 + 4 * n)) Hp) as (r & Hr & Hs & _); [by apply Z.mod_pos_bound|].
  by exists r.
Qed.

(** ** Properties *)

(** C23. [argptr] never leaves the memory of the process, whatever the stack pointer
    and the argument are: it returns normally, and for a size that is not negative
    the block it hands to the kernel lies within the process. *)
Theorem argptr_bounds p n size : uctx_ok p -> 0 <= size < 2 ^ 31 ->
  exists r, argptr p n size = Ok r /\ forall a, r = Some a -> 0 <= a < u_sz p /\ a + size <= u_sz p.
Proof.
  intros Hp Hs. pose proof (uo_sz _ Hp). unfold argptr. destruct (argint_ok p n Hp) as (r & -> & _). cbn [mbind outcome_bind].
  destruct r as [i|]; [|by exists None]. pose proof (Z.mod_pos_bound i (2 ^ 32) ltac:(done)) as Hi. fold (u32 i) in Hi.
  destruct (Z.leb_spec (u_sz p) (u32 i)); cbn [orb]; [by exists None|].
  unfold u32 at 1. rewrite (Z.mod_small (u32 i + size)) by lia.
  destruct (Z.ltb_spec (u_sz p) (u32 i + size)); [by exists None|]. eexists. split; [done|]. intros a [= <-]. lia.
Qed.

(** [argstr] never leaves the memory of the process either: when it accepts the
    argument, the string ends with a NUL inside the process and its length is the
    one returned; when the stack holds the argument it refuses only a pointer
    after which no NUL follows in the process. *)
Theorem argstr_bounds p n : uctx_ok p ->
  exists r, argstr p n = Ok r /\
    match r with
    | Some (a, len) => 0 <= a /\ 0 <= len /\ a + len < u_sz p /\ u_mem p !! Z.to_nat (a + len) = Some 0 /\
        forall j, a <= j < a + len -> u_mem p !! Z.to_nat j <> Some 0
    | None => u_sz p < u32 (u_esp p + 4 + 4 * n) + 4 \/ exists i, argint p n = Ok (Some i) /\
        forall j, u32 i <= j < u_sz p -> u_mem p !! Z.to_nat j <> Some 0
    end.
Proof.
  intros Hp. unfold argstr. destruct (argint_ok p n Hp) as (r & Hr & Hs). rewrite Hr. cbn [mbind outcome_bind].
  destruct r as [i|].
  - destruct (fetchstr_ok p (u32 i) Hp) as (q & -> & Hq); [by apply Z.mod_pos_bound|]. exists q. split; [done|].
    pose proof (Z.mod_pos_bound i (2 ^ 32) ltac:(done)) as Hi. fold (u32 i) in Hi.
    destruct q as [[a len]|]; [destruct Hq as (-> & Hq); split; [lia|exact Hq]|]. right. by exists i.
  - exists None. split; [done|]. left. destruct (decide (u32 (u_esp p + 4 + 4 * n) + 4 <= u_sz p)) as [Hle|]; [|lia].
    apply Hs in Hle as [? ?]. done.
Qed.

(** A process of 64 bytes: on its stack, at 32, the return address, a pointer to the
    string at 60, and the number -1. *)
Definition demo_ctx : uctx :=
  mkuctx (replicate 36 7 ++ le_bytes 4 60 ++ le_bytes 4 (-1) ++ replicate 16 7 ++ [104; 105; 0; 7]) 64 32.

Lemma demo_ctx_ok : uctx_ok demo_ctx.
Proof. split; simpl; lia. Qed.

Lemma argptr_bounds_witness :
  exists r, argptr demo_ctx 0 4 = Ok r /\ forall a, r = Some a -> 0 <= a < 64 /\ a + 4 <= 64.
Proof. apply (argptr_bounds demo_ctx 0 4 demo_ctx_ok). lia. Defined.

Lemma argstr_bounds_witness :
  argstr demo_ctx 0 = Ok (Some (60, 2)) /\ exists r, argstr demo_ctx 0 = Ok r /\
    match r with
    | Some (a, len) => 0 <= a /\ 0 <= len /\ a + len < 64 /\ u_mem demo_ctx !! Z.to_nat (a + len) = Some 0 /\
        forall j, a <= j < a + len -> u_mem demo_ctx !! Z.to_nat j <> Some 0
    | None => 64 < u32 (32 + 4 + 4 * 0) + 4 \/ exists i, argint demo_ctx 0 = Ok (Some i) /\
        forall j, u32 i <= j < 64 -> u_mem demo_ctx !! Z.to_nat j <> Some 0
    end.
Proof. split; [by vm_compute|]. exact (argstr_bounds demo_ctx 0 demo_ctx_ok). Defined.

(** [argptr] accepts a block of negative size: the sum wraps around and stays below
    the size of the process, although the block, taken as unsigned, does not fit. *)
Theorem argptr_negative_size : argptr demo_ctx 0 (-1) = Ok (Some 60) /\ u_sz demo_ctx < 60 + u32 (-1).
Proof. by vm_compute. Qed.

Lemma syscalls_table c : syscalls !! SYS c = Some (Some c).
Proof. by destruct c; vm_compute. Qed.

Lemma syscalls_numbers n c : syscalls !! n = Some (Some c) -> n = SYS c.
Proof.
  intros H. assert (Hall : Forall (fun '(i, o) => match o with Some c => i = SYS c | None => True end) (imap pair syscalls)).
  { vm_compute. repeat (apply Forall_cons; split; [done|]). apply Forall_nil_2. }
  rewrite Forall_lookup in Hall. apply (Hall n (n, Some c)). rewrite list_lookup_imap, H. done.
Qed.

(** [syscall] runs exactly the routine whose number is in [eax] and puts its result
    there; any other number, negative ones included, prints a message and gives -1. *)
Theorem syscall_dispatches {S} (get_eax : S -> Z) set_eax unknown run s :
  (forall c, get_eax s = Z.of_nat (SYS c) ->
     syscall get_eax set_eax unknown run s =
       match run c s with Ok (r, s') => Ok (tt, set_eax r s') | Err e => Err e end) /\
  ((forall c, get_eax s <> Z.of_nat (SYS c)) ->
     syscall get_eax set_eax unknown run s = Ok (tt, set_eax (-1) (unknown (get_eax s) s))).
Proof.
  assert (Hlen : length syscalls = 35%nat) by done. split.
  - intros c Hc. unfold syscall. erewrite bind_Ok by reflexivity. rewrite Hc, Hlen.
    assert (Hr : 0 < Z.of_nat (SYS c) < 35) by (destruct c; simpl; lia).
    destruct (Z.ltb_spec 0 (Z.of_nat (SYS c))); [|lia]. destruct (Z.ltb_spec (Z.of_nat (SYS c)) (Z.of_nat 35)); [|lia].
    cbn [andb]. rewrite Nat2Z.id, syscalls_table. simpl. unfold mbind, M_bind. by destruct (run c s) as [[r s']|].
  - intros Hno. unfold syscall. erewrite bind_Ok by reflexivity. rewrite Hlen.
    destruct (Z.ltb_spec 0 (get_eax s)) as [Hpos|]; [|done]. destruct (_ <? _); [|done]. cbn [andb].
    destruct (syscalls !! Z.to_nat (get_eax s)) as [[c|]|] eqn:Hl; [|done..].
    apply syscalls_numbers in Hl. exfalso. apply (Hno c). lia.
Qed.

Lemma syscall_dispatches_witness :
  syscall (fun s : Z => s) (fun v _ => v) (fun _ s => s) (fun c s => Ok (Z.of_nat (SYS c) + 1, s)) 5 = Ok (tt, 6).
Proof.
  apply (proj1 (syscall_dispatches (fun s : Z => s) (fun v _ => v) (fun _ s => s)
    (fun c s => Ok (Z.of_nat (SYS c) + 1, s)) 5) sys_read). reflexivity.
Defined.
