(* ===== verification/Shell.v ===== *)
(** * The shell (sh.c, and [gets] of ulib.c)

    A line of input is a buffer of bytes; the parser works on positions in it,
    [*ps] being its state, and builds commands whose strings are pairs of
    positions.  [nulterminate] writes the ends of the strings into the buffer.
    The constructors get their memory from [malloc], of which [Malloc] tells
    whether it succeeds; they do not test its result, and [memset] then writes
    through the null pointer.  The line [parsecmd] prints before the panic about
    input that is left over is not part of the model.

    [runcmd] never returns: what it does is a [behaviour], the tree of its system
    calls with a branch for each result, and the descriptor table of the process
    at each [exec]. *)

From stdpp Require Import base numbers list strings.
From S2P Require Import Prelude Strings Syscall.

Open Scope Z_scope.

Definition MAXARGS : nat := 10.

(** The arguments of an [execcmd] before the null pointer, each with its end. *)
Inductive cmd :=
| EXEC (args : list (nat * nat))
| REDIR (c : cmd) (file efile : nat) (mode fd : Z)
| PIPE (left right : cmd)
| LIST (left right : cmd)
| BACK (c : cmd).

(** Whether [malloc] has memory for the command, at this point of the line.  The
    parser allocates once for each command, when the subcommands are complete. *)
Class Malloc := malloc_ok : nat -> cmd -> bool.

(** It has memory for every command. *)
Class MallocOk {MA : Malloc} : Prop := malloc_succeeds : forall s c, malloc_ok s c = true.

(** The constructors: [memset(cmd, 0, sizeof( *cmd))] and the fields. *)
Definition alloc {MA : Malloc} (c : cmd) : M nat cmd :=
  s ← get;
  if malloc_ok s c then mret c else fail Fault.

Definition execcmd {MA : Malloc} : M nat cmd := alloc (EXEC []).
Definition redircmd {MA : Malloc} (c : cmd) (file efile : nat) (mode fd : Z) : M nat cmd := alloc (REDIR c file efile mode fd).
Definition pipecmd {MA : Malloc} (left right : cmd) : M nat cmd := alloc (PIPE left right).
Definition listcmd {MA : Malloc} (left right : cmd) : M nat cmd := alloc (LIST left right).
Definition backcmd {MA : Malloc} (c : cmd) : M nat cmd := alloc (BACK c).

(** ** Parsing *)

(** [" \t\r\n\v"], ["<|>&;()"]. *)
Definition whitespace : list Z := [32; 9; 13; 10; 11; 0].
Definition symbols : list Z := [60; 124; 62; 38; 59; 40; 41; 0].

(** [strchr(toks, c)] as a condition. *)
Definition among (toks : list Z) (c : Z) : outcome bool :=
  r ← Ulib.strchr toks c; Ok (match r with Some _ => true | None => false end).

Section Parser.
Context {MA : Malloc} (buf : list Z) (es : nat).

Definition at_ (s : nat) : outcome Z := match buf !! s with Some c => Ok c | None => Err Fault end.

(** [while(s < es && strchr(whitespace, *s)) s++], with [n = es - s]. *)
Fixpoint skip_white (n s : nat) : outcome nat :=
  match n with
  | O => Ok s
  | S n => c ← at_ s;
           w ← among whitespace c;
           if (w : bool) then skip_white n (S s) else Ok s
  end.

(** [while(s < es && !strchr(whitespace, *s) && !strchr(symbols, *s)) s++]. *)
Fixpoint skip_word (n s : nat) : outcome nat :=
  match n with
  | O => Ok s
  | S n => c ← at_ s;
           w ← among whitespace c;
           if (w : bool) then Ok s else
           y ← among symbols c;
           if (y : bool) then Ok s else skip_word n (S s)
  end.

(** The token's code, its start and its end. *)
Definition gettoken : M nat (Z * nat * nat) :=
  s ← get;
  s ← lift (skip_white (es - s) s);
  c ← lift (at_ s);
  let q := s in
  '(ret, s) ← lift (if c =? 0 then Ok (c, s)
                    else if bool_decide (c ∈ [124; 40; 41; 59; 38; 60]) then Ok (c, S s)
                    else if c =? 62 then
                      d ← at_ (S s);
                      if d =? 62 then Ok (43, S (S s)) else Ok (c, S s)
                    else e ← skip_word (es - s) s; Ok (97, e));
  let eq := s in
  s ← lift (skip_white (es - s) s);
  modify (fun _ => s) ;;
  mret (ret, q, eq).

Definition peek (toks : list Z) : M nat bool :=
  s ← get;
  s ← lift (skip_white (es - s) s);
  modify (fun _ => s) ;;
  c ← lift (at_ s);
  if c =? 0 then mret false else lift (among toks c).

(** [while(peek(ps, es, "<>"))]. *)
Fixpoint parseredirs (fuel : nat) (c : cmd) : M nat cmd :=
  b ← peek [60; 62; 0];
  if (b : bool) then
    match fuel with
    | O => fail NoFuel
    | S fuel =>
        '(tok, _, _) ← gettoken;
        '(t, q, eq) ← gettoken;
        if negb (t =? 97) then fail (Panic "missing file for redirection") else
        c ← (if tok =? 60 then redircmd c q eq O_RDONLY 0
             else if tok =? 62 then redircmd c q eq (Z.lor O_WRONLY O_CREATE) 1
             else if tok =? 43 then redircmd c q eq (Z.lor O_WRONLY O_CREATE) 1
             else mret c);
        parseredirs fuel c
    end
  else mret c.

(** [cmd->argv[argc] = q; cmd->eargv[argc] = eq], where [cmd] is the [execcmd]
    inside the redirections. *)
Fixpoint add_arg (ret : cmd) (q eq : nat) : cmd :=
  match ret with
  | EXEC args => EXEC (args ++ [(q, eq)])
  | REDIR c file efile mode fd => REDIR (add_arg c q eq) file efile mode fd
  | _ => ret
  end.

(** [while(!peek(ps, es, "|)&;"))]. *)
Fixpoint parseargs (fuel : nat) (ret : cmd) (argc : nat) : M nat cmd :=
  b ← peek [124; 41; 38; 59; 0];
  if (b : bool) then mret ret else
  '(tok, q, eq) ← gettoken;
  if tok =? 0 then mret ret else
  if negb (tok =? 97) then fail (Panic "syntax") else
  let ret := add_arg ret q eq in
  if (MAXARGS <=? S argc)%nat then fail (Panic "too many args") else
  match fuel with
  | O => fail NoFuel
  | S fuel => ret ← parseredirs (S es) ret; parseargs fuel ret (S argc)
  end.

(** [while(peek(ps, es, "&"))]. *)
Fixpoint parseback (fuel : nat) (c : cmd) : M nat cmd :=
  b ← peek [38; 0];
  if (b : bool) then
    match fuel with
    | O => fail NoFuel
    | S fuel => gettoken ;; c ← backcmd c; parseback fuel c
    end
  else mret c.

Fixpoint parseline (fuel : nat) : M nat cmd :=
  match fuel with
  | O => fail NoFuel
  | S fuel =>
      c ← parsepipe fuel;
      c ← parseback (S es) c;
      b ← peek [59; 0];
      if (b : bool) then
        gettoken ;;
        r ← parseline fuel;
        listcmd c r
      else mret c
  end
with parsepipe (fuel : nat) : M nat cmd :=
  match fuel with
  | O => fail NoFuel
  | S fuel =>
      c ← parseexec fuel;
      b ← peek [124; 0];
      if (b : bool) then
        gettoken ;;
        r ← parsepipe fuel;
        pipecmd c r
      else mret c
  end
with parseexec (fuel : nat) : M nat cmd :=
  match fuel with
  | O => fail NoFuel
  | S fuel =>
      b ← peek [40; 0];
      if (b : bool) then parseblock fuel else
      ret ← execcmd;
      ret ← parseredirs (S es) ret;
      parseargs MAXARGS ret 0
  end
with parseblock (fuel : nat) : M nat cmd :=
  match fuel with
  | O => fail NoFuel
  | S fuel =>
      b ← peek [40; 0];
      if negb b then fail (Panic "parseblock") else
      gettoken ;;
      c ← parseline fuel;
      b ← peek [41; 0];
      if negb b then fail (Panic "syntax - missing )") else
      gettoken ;;
      parseredirs (S es) c
  end.
End Parser.

(** [*p = 0]. *)
Definition put_nul (buf : list Z) (p : nat) : outcome (list Z) :=
  if bool_decide (p < length buf)%nat then Ok (<[p := 0]> buf) else Err Fault.

Fixpoint nul_args (buf : list Z) (args : list (nat * nat)) : outcome (list Z) :=
  match args with
  | [] => Ok buf
  | (_, e) :: args => buf ← put_nul buf e; nul_args buf args
  end.

Fixpoint nulterminate (buf : list Z) (c : cmd) : outcome (list Z) :=
  match c with
  | EXEC args => nul_args buf args
  | REDIR c _ efile _ _ => buf ← nulterminate buf c; put_nul buf efile
  | PIPE l r | LIST l r => buf ← nulterminate buf l; nulterminate buf r
  | BACK c => nulterminate buf c
  end.

(** The command and the buffer with its strings. *)
Definition parsecmd {MA : Malloc} (buf : list Z) : outcome (cmd * list Z) :=
  n ← strlen buf;
  let es := Z.to_nat n in
  '(c, s) ← parseline buf es (4 * es + 4) 0%nat;
  '(_, s) ← peek buf es [0] s;
  if negb (s =? es)%nat then Err (Panic "syntax") else
  buf ← nulterminate buf c;
  Ok (c, buf).

(** ** Running *)

(** What an open descriptor stands for.  A pipe is named by the place of its
    command: the branches taken from the command that is run. *)
Inductive handle :=
| Given (k : nat)
| Opened (file : list Z) (mode : Z)
| ReadEnd (pipe : list bool)
| WriteEnd (pipe : list bool).

Definition fdtab : Type := list (option handle).

(** The calls of the built-in commands. *)
Inductive builtin :=
| SetUid (i : Z)
| SetGid (i : Z)
| GetUid
| GetGid
| Complain (msg : string).

Inductive behaviour :=
| Exit
| Print (fmt : string) (args : list (list Z)) (k : behaviour)
| Exec (path : list Z) (argv : list (list Z)) (fds : fdtab) (failed : behaviour)
| Open (file : list Z) (mode : Z) (failed opened : behaviour)
| MakePipe (failed made : behaviour)
| Fork (failed child parent : behaviour)
| Wait (k : behaviour)
| Chdir (path : list Z) (failed done_ : behaviour)
| Builtin (b : builtin) (k : behaviour)
| Stop (e : error).

Definition panic (msg : string) : behaviour := Print (msg +:+ "\n") [] Exit.
Definition fork1 (child parent : behaviour) : behaviour := Fork (panic "fork") child parent.

(** The descriptors of a process: closing one, and taking the lowest free one. *)
Definition close_ (fd : nat) (t : fdtab) : fdtab := <[fd := None]> t.
Fixpoint lowest (t : fdtab) : option nat :=
  match t with
  | [] => None
  | None :: _ => Some 0%nat
  | Some _ :: t => S <$> lowest t
  end.
Definition take_fd (h : handle) (t : fdtab) : option (nat * fdtab) :=
  fd ← lowest t; Some (fd, <[fd := Some h]> t).

(** [dup(fd)], whose result the shell does not use. *)
Definition dup_ (fd : nat) (t : fdtab) : fdtab :=
  match t !! fd with
  | Some (Some h) => match take_fd h t with Some (_, t) => t | None => t end
  | _ => t
  end.

Section Run.
Context (buf : list Z).

Definition str (q : nat) : list Z := cstr (drop q buf).

Fixpoint runcmd (c : cmd) (place : list bool) (t : fdtab) : behaviour :=
  match c with
  | EXEC args =>
      match args with
      | [] => Exit
      | (q, _) :: _ => Exec (str q) (str ∘ fst <$> args) t (Print "exec %s failed\n" [str q] Exit)
      end
  | REDIR c file _ mode fd =>
      let t := close_ (Z.to_nat fd) t in
      let failed := Print "open %s failed\n" [str file] Exit in
      match take_fd (Opened (str file) mode) t with
      | None => failed
      | Some (_, t) => Open (str file) mode failed (runcmd c place t)
      end
  | LIST l r => fork1 (runcmd l (place ++ [false]) t) (Wait (runcmd r (place ++ [true]) t))
  | PIPE l r =>
      match take_fd (ReadEnd place) t with
      | None => panic "pipe"
      | Some (p0, t0) =>
          match take_fd (WriteEnd place) t0 with
          | None => panic "pipe"
          | Some (p1, t) =>
              MakePipe (panic "pipe")
                (fork1 (runcmd l (place ++ [false]) (close_ p1 (close_ p0 (dup_ p1 (close_ 1 t)))))
                (fork1 (runcmd r (place ++ [true]) (close_ p1 (close_ p0 (dup_ p0 (close_ 0 t)))))
                (Wait (Wait Exit))))
          end
      end
  | BACK c => fork1 (runcmd c place t) Exit
  end.
End Run.

(** ** Built-in commands *)

(** [strncmp(p, q, n)] of sh.c. *)
Definition sh_strncmp (p q : list Z) (n : nat) : outcome Z := strncmp p q n.

Definition makeint (p : list Z) : Z := Ulib.digits_loop 10 57 0 p.

(** [while(strncmp(p, " ", 1) == 0) p++]. *)
Fixpoint chomp (p : list Z) : outcome (list Z) :=
  r ← sh_strncmp p [32; 0] 1;
  if r =? 0 then match p with _ :: p => chomp p | [] => Err Fault end else Ok p.

Definition uid_str : list Z := [117; 105; 100; 0].
Definition gid_str : list Z := [103; 105; 100; 0].

Definition setbuiltin (p : list Z) : outcome builtin :=
  p ← chomp (drop 4 p);
  r ← sh_strncmp uid_str p 3;
  if r =? 0 then p ← chomp (drop 3 p); Ok (SetUid (makeint p)) else
  r ← sh_strncmp gid_str p 3;
  if r =? 0 then p ← chomp (drop 3 p); Ok (SetGid (makeint p)) else
  Ok (Complain "Invalid _set parameter\n").

Definition getbuiltin (p : list Z) : outcome builtin :=
  p ← chomp (drop 4 p);
  r ← sh_strncmp uid_str p 3;
  if r =? 0 then Ok GetUid else
  r ← sh_strncmp gid_str p 3;
  if r =? 0 then Ok GetGid else
  Ok (Complain "Invalid _get parameter\n").

Definition fdt : list (list Z * (list Z -> outcome builtin)) :=
  [([95; 115; 101; 116], setbuiltin); ([95; 103; 101; 116], getbuiltin)].

(** The calls of the entries that match, in the order of the table. *)
Fixpoint dobuiltin_loop (p : list Z) (l : list (list Z * (list Z -> outcome builtin))) : outcome (list builtin) :=
  match l with
  | [] => Ok []
  | (name, f) :: l =>
      r ← sh_strncmp p (name ++ [0]) (length name);
      b ← (if r =? 0 then x ← f p; Ok [x] else Ok []);
      bs ← dobuiltin_loop p l;
      Ok (b ++ bs)
  end.
Definition dobuiltin (p : list Z) : outcome (list builtin) := dobuiltin_loop p fdt.

(** ** The loop *)

(** [gets(buf, max)] with [max - 1 = n], over the bytes that [read] will give:
    what is stored before the NUL, and the bytes left. *)
Fixpoint gets_loop (n : nat) (input : list Z) : list Z * list Z :=
  match n, input with
  | S n, c :: input =>
      if (c =? 10) || (c =? 13) then ([c], input)
      else let '(l, rest) := gets_loop n input in (c :: l, rest)
  | _, _ => ([], input)
  end.

Definition NBUF_SH : nat := 100.

(** The buffer after [memset] and [gets], and the bytes left. *)
Definition getcmd (input : list Z) : list Z * list Z :=
  let '(l, rest) := gets_loop (NBUF_SH - 1) input in
  (l ++ replicate (NBUF_SH - length l) 0, rest).

(** A routine's result as the continuation of the shell: it crashes, or prints
    and exits. *)
Definition orstop {A} (r : outcome A) (k : A -> behaviour) : behaviour :=
  match r with
  | Ok a => k a
  | Err (Panic msg) => panic msg
  | Err e => Stop e
  end.

(** One command: [cd], a built-in one, or a child that parses and runs it; then
    [k]. *)
Definition command {MA : Malloc} (t : fdtab) (buf : list Z) (k : behaviour) : behaviour :=
  if bool_decide (take 3 buf = [99; 100; 32]) then
    orstop (n ← strlen buf; put_nul buf (Z.to_nat (n - 1)))
      (fun buf => Chdir (cstr (drop 3 buf)) (Print "cannot cd %s\n" [cstr (drop 3 buf)] k) k)
  else if bool_decide (head buf = Some 95) then orstop (dobuiltin buf) (foldr Builtin k)
  else fork1 (orstop (parsecmd buf) (fun '(c, buf) => runcmd buf c [] t)) (Wait k).

(** [while((fd = open("console", O_RDWR)) >= 0)], and then [k]. *)
Definition console_str : list Z := [99; 111; 110; 115; 111; 108; 101].
Fixpoint open_console (fuel : nat) (t : fdtab) (k : fdtab -> behaviour) : behaviour :=
  match take_fd (Opened console_str O_RDWR) t with
  | None => k t
  | Some (fd, t') =>
      Open console_str O_RDWR (k t)
        (if (3 <=? fd)%nat then k (close_ fd t')
         else match fuel with
              | O => Stop NoFuel
              | S fuel => open_console fuel t' k
              end)
  end.

(** [while(getcmd(buf, sizeof(buf)) >= 0)]. *)
Fixpoint main_loop {MA : Malloc} (fuel : nat) (t : fdtab) (input : list Z) : behaviour :=
  Print "$ " []
    (let '(buf, input) := getcmd input in
     if bool_decide (head buf = Some 0) then Exit else
     match fuel with
     | O => Stop NoFuel
     | S fuel => command t buf (main_loop fuel t input)
     end).

Definition main {MA : Malloc} (t : fdtab) (input : list Z) : behaviour :=
  open_console 3 t (fun t => main_loop (length input) t input).
