(* ===== verification/ShellLex.v ===== *)
(** * Tokens of the shell

    A reference definition of the tokens of a line, and the rules of [gettoken]
    and [peek] of sh.c over it. *)

From stdpp Require Import base numbers list sets strings.
From S2P Require Import Prelude Strings Syscall Shell.

Open Scope Z_scope.

Definition white (c : Z) : bool := bool_decide (c ∈ [32; 9; 13; 10; 11]).
Definition symbol (c : Z) : bool := bool_decide (c ∈ [60; 124; 62; 38; 59; 40; 41]).
Definition wordc (c : Z) : bool := negb (white c) && negb (symbol c).

(** A word, a symbol, or [>>]. *)
Inductive token :=
| Word (w : list Z)
| Sym (c : Z)
| Append.

Definition code (t : token) : Z := match t with Word _ => 97 | Sym c => c | Append => 43 end.

(** The tokens of a line. *)
Fixpoint lex (s : list Z) : list token :=
  match s with
  | [] => []
  | c :: s' =>
      if white c then lex s'
      else if symbol c then
        match s' with
        | d :: s'' => if (c =? 62) && (d =? 62) then Append :: lex s'' else Sym c :: lex s'
        | [] => [Sym c]
        end
      else match s' with
           | d :: _ =>
               if wordc d then match lex s' with Word w :: ts => Word (c :: w) :: ts | ts => Word [c] :: ts end
               else Word [c] :: lex s'
           | [] => [Word [c]]
           end
  end.

(** The length of the longest prefix of bytes that satisfy [p]. *)
Fixpoint prefix_len (p : Z -> bool) (l : list Z) : nat :=
  match l with
  | c :: l => if p c then S (prefix_len p l) else 0
  | [] => 0
  end.

Lemma prefix_len_le p l : (prefix_len p l <= length l)%nat.
Proof. induction l as [|c l IH]; simpl; [lia|]. destruct (p c); lia. Qed.

Lemma prefix_len_take p l : Forall (fun c => p c = true) (take (prefix_len p l) l).
Proof. induction l as [|c l IH]; simpl; [constructor|]. destruct (p c) eqn:Hc; simpl; [by constructor|constructor]. Qed.

Lemma prefix_len_stop p l c : l !! prefix_len p l = Some c -> p c = false.
Proof. induction l as [|d l IH]; simpl; [done|]. destruct (p d) eqn:Hd; simpl; [done|]. by intros [= <-]. Qed.

Lemma lex_white l : lex l = lex (drop (prefix_len white l) l).
Proof. induction l as [|c l IH]; [done|]. cbn [prefix_len]. destruct (white c) eqn:Hc; [|done]. simpl. by rewrite Hc. Qed.

Lemma lex_word c l : wordc c = true ->
  lex (c :: l) = Word (take (prefix_len wordc (c :: l)) (c :: l)) :: lex (drop (prefix_len wordc (c :: l)) (c :: l)).
Proof.
  intros Hc. revert c Hc. induction l as [|d l IH]; intros c Hc; pose proof Hc as Hc'; apply andb_true_iff in Hc' as [Hw Hs];
    apply negb_true_iff in Hw, Hs.
  - simpl. by rewrite Hw, Hs, Hc.
  - cbn [lex]. rewrite Hw, Hs. cbn [prefix_len]. rewrite Hc. destruct (wordc d) eqn:Hd; [|done].
    specialize (IH d Hd). cbn [prefix_len lex] in IH. rewrite Hd in IH. cbn [lex]. rewrite IH. done.
Qed.

Lemma among_spec l c : 0 ∉ l -> among (l ++ [0]) c = Ok (bool_decide (c ∈ l)).
Proof.
  intros H0. unfold among. induction l as [|x l IH]; [done|]. simpl. destruct (Z.eqb_spec x 0) as [->|Hx]; [by destruct H0; left|].
  destruct (Z.eqb_spec x c) as [->|Hc].
  - simpl. f_equal. symmetry. apply bool_decide_eq_true. left.
  - rewrite IH by (intros ?; apply H0; by right). f_equal. apply bool_decide_ext. rewrite elem_of_cons. split; [by right|]. by intros [->|?].
Qed.

Lemma among_white c : among whitespace c = Ok (white c).
Proof. apply (among_spec [32; 9; 13; 10; 11]). by intros H; repeat (apply elem_of_cons in H as [?|H]; [done|]); apply elem_of_nil in H. Qed.

Lemma among_symbols c : among symbols c = Ok (symbol c).
Proof. apply (among_spec [60; 124; 62; 38; 59; 40; 41]). by intros H; repeat (apply elem_of_cons in H as [?|H]; [done|]); apply elem_of_nil in H. Qed.

(** ** The rules *)

Section Line.
Context (line pad : list Z).
Hypothesis Hnul : 0 ∉ line.

Let buf := line ++ 0 :: pad.
Let es := length line.

Lemma at_line s c l : drop s line = c :: l -> at_ buf s = Ok c /\ drop (S s) line = l /\ (s < es)%nat /\ c <> 0.
Proof.
  intros Hd. assert (Hl : line !! s = Some c) by (rewrite <-(Nat.add_0_r s), <-lookup_drop, Hd; done).
  pose proof (lookup_lt_Some _ _ _ Hl). split_and!; [|by rewrite <-Nat.add_1_r, <-drop_drop, Hd|done|].
  - unfold at_, buf. by rewrite lookup_app_l, Hl.
  - intros ->. apply Hnul. by eapply list_elem_of_lookup_2.
Qed.

Lemma at_end : at_ buf es = Ok 0.
Proof. unfold at_, buf, es. by rewrite lookup_app_r, Nat.sub_diag by lia. Qed.

Lemma skip_white_spec s l : drop s line = l -> skip_white buf (length l) s = Ok (s + prefix_len white l)%nat.
Proof.
  revert s. induction l as [|c l IH]; intros s Hd; simpl; [by rewrite Nat.add_0_r|].
  destruct (at_line _ _ _ Hd) as (-> & Hd' & _). unfold mbind, outcome_bind. rewrite among_white. destruct (white c).
  - rewrite (IH (S s)) by done. f_equal. lia.
  - f_equal. lia.
Qed.

Lemma skip_word_spec s l : drop s line = l -> skip_word buf (length l) s = Ok (s + prefix_len wordc l)%nat.
Proof.
  revert s. induction l as [|c l IH]; intros s Hd; simpl; [by rewrite Nat.add_0_r|].
  destruct (at_line _ _ _ Hd) as (-> & Hd' & _). unfold mbind, outcome_bind, wordc at 1. rewrite among_white. destruct (white c); simpl; [f_equal; lia|].
  rewrite among_symbols. destruct (symbol c); simpl; [f_equal; lia|]. rewrite (IH (S s)) by done. f_equal. lia.
Qed.

Lemma drop_len s : (es - s)%nat = length (drop s line).
Proof. by rewrite length_drop. Qed.

(** Skipping white space leaves the tokens. *)
Lemma skip_white_rep s : (s <= es)%nat -> exists s', skip_white buf (es - s) s = Ok s' /\ (s <= s' <= es)%nat /\
  lex (drop s' line) = lex (drop s line) /\ (forall c l, drop s' line = c :: l -> white c = false).
Proof.
  intros Hs. rewrite drop_len, (skip_white_spec s _ eq_refl). eexists. split; [done|].
  pose proof (prefix_len_le white (drop s line)) as Hle. rewrite length_drop in Hle. fold es in Hle. split_and!; [lia|lia| |].
  - rewrite (lex_white (drop s line)), drop_drop. done.
  - intros c l Hd. apply (prefix_len_stop white (drop s line)). rewrite lookup_drop, <-(Nat.add_0_r (s + _)), <-lookup_drop, Hd. done.
Qed.

(** The token at [s]. *)
Definition rep (s : nat) (ts : list token) : Prop := (s <= es)%nat /\ lex (drop s line) = ts.

(** [q] and [e] are the ends of the word [w]. *)
Definition cut (w : list Z) (q e : nat) : Prop :=
  take (e - q) (drop q line) = w /\ (q < e <= es)%nat /\ Forall (fun c => wordc c = true) w /\
  (forall c, line !! e = Some c -> wordc c = false).

(** The first token starts with one of [l]. *)
Definition starts (l : list Z) (ts : list token) : bool :=
  match ts with
  | Sym c :: _ => bool_decide (c ∈ l)
  | Append :: _ => bool_decide (62 ∈ l)
  | _ => false
  end.

Context {E : error -> Prop}.

Lemma lex_head c l t ts : white c = false -> lex (c :: l) = t :: ts ->
  (symbol c = true /\ (t = Sym c \/ c = 62 /\ t = Append)) \/ (wordc c = true /\ exists w, t = Word w).
Proof.
  intros Hw Hlex. destruct (symbol c) eqn:Hs.
  - left. split; [done|]. cbn [lex] in Hlex. rewrite Hw, Hs in Hlex. destruct l as [|d l]; [left; congruence|].
    destruct (Z.eqb_spec c 62) as [->|]; [|left; simpl in Hlex; congruence].
    destruct (Z.eqb_spec d 62); simpl in Hlex; [right|left]; (split; congruence) || congruence.
  - right. assert (Hc : wordc c = true) by (unfold wordc; by rewrite Hw, Hs). split; [done|]. rewrite lex_word in Hlex by done.
    injection Hlex as <- _. by eexists.
Qed.

Lemma rep_nil s : rep s [] -> forall s', (s <= s' <= es)%nat -> lex (drop s' line) = lex (drop s line) ->
  (forall c l, drop s' line = c :: l -> white c = false) -> s' = es.
Proof.
  intros [Hs Hl] s' Hs' Hl' Hw. destruct (drop s' line) as [|c l] eqn:Hd.
  - assert (H : length (drop s' line) = 0%nat) by (by rewrite Hd). rewrite length_drop in H. fold es in H. lia.
  - exfalso. specialize (Hw _ _ eq_refl). rewrite Hl in Hl'. cbn [lex] in Hl'. rewrite Hw in Hl'.
    repeat case_match; done.
Qed.

Lemma wp_peek l s ts Q : rep s ts -> 0 ∉ l -> Forall (fun c => symbol c = true) l ->
  (forall s', rep s' ts -> (s <= s')%nat -> Q (starts l ts) s') ->
  wp E (peek buf es (l ++ [0])) Q s.
Proof.
  intros Hr H0 Hsy HQ. pose proof Hr as [Hs Hlex]. unfold peek. apply wp_bind, wp_get, wp_bind.
  destruct (skip_white_rep s Hs) as (s' & -> & Hs' & Hl' & Hw). eapply wp_lift; [done|]. apply wp_bind, wp_modify, wp_bind.
  destruct (drop s' line) as [|c l'] eqn:Hd.
  - assert (Hse : s' = es) by (assert (H : length (drop s' line) = 0%nat) by (by rewrite Hd); rewrite length_drop in H; fold es in H; lia).
    subst s'. rewrite at_end. eapply wp_lift; [done|]. apply wp_ret. assert (ts = []) as -> by (by rewrite <-Hlex, <-Hl').
    apply (HQ es); [|lia]. split; [lia|]. by rewrite Hd.
  - destruct (at_line _ _ _ Hd) as (-> & _ & _ & Hc). eapply wp_lift; [done|]. destruct (Z.eqb_spec c 0); [done|].
    rewrite among_spec by done. eapply wp_lift; [done|]. specialize (Hw _ _ eq_refl).
    replace (bool_decide (c ∈ l)) with (starts l ts); [apply HQ; [|lia]; split; [lia|]; by rewrite Hd, Hl'|].
    rewrite <-Hlex, <-Hl'. destruct (lex (c :: l')) as [|t ts'] eqn:Hlx; [cbn [lex] in Hlx; rewrite Hw in Hlx; repeat case_match; done|].
    destruct (lex_head _ _ _ _ Hw Hlx) as [[_ [->|[-> ->]]]|[Hwc [w ->]]]; [done|done|]. simpl. symmetry. apply bool_decide_eq_false.
    intros Hin. rewrite Forall_forall in Hsy. apply Hsy in Hin. unfold wordc in Hwc. by rewrite Hin, andb_false_r in Hwc.
Qed.

Lemma wp_gettoken_end s Q : rep s [] -> (rep es [] -> Q (0, es, es) es) -> wp E (gettoken buf es) Q s.
Proof.
  intros Hr HQ. pose proof Hr as [Hs Hlex]. unfold gettoken. apply wp_bind, wp_get, wp_bind.
  destruct (skip_white_rep s Hs) as (s' & -> & Hs' & Hl' & Hw). pose proof (rep_nil _ Hr _ Hs' Hl' Hw) as ->.
  eapply wp_lift; [done|]. apply wp_bind. rewrite at_end. eapply wp_lift; [done|]. apply wp_bind. eapply wp_lift; [done|].
  apply wp_bind. rewrite Nat.sub_diag. eapply wp_lift; [done|]. apply wp_bind, wp_modify, wp_ret, HQ. split; [done|]. by rewrite Hl'.
Qed.

(** [switch( *s)] in [gettoken]: the token's code and end. *)
Definition switch (c : Z) (s : nat) : outcome (Z * nat) :=
  if c =? 0 then Ok (c, s)
  else if bool_decide (c ∈ [124; 40; 41; 59; 38; 60]) then Ok (c, S s)
  else if c =? 62 then d ← at_ buf (S s); if d =? 62 then Ok (43, S (S s)) else Ok (c, S s)
  else e ← skip_word buf (es - s) s; Ok (97, e).

Lemma at_next s c l : drop s line = c :: l -> exists d, at_ buf (S s) = Ok d /\ match l with [] => d = 0 | x :: _ => d = x end.
Proof.
  intros Hd. destruct (at_line _ _ _ Hd) as (_ & Hd' & Hs & _). destruct l as [|x l].
  - exists 0. split; [|done]. assert (S s = es) as ->; [|apply at_end].
    assert (H : length (drop (S s) line) = 0%nat) by (by rewrite Hd'). rewrite length_drop in H. fold es in H. lia.
  - destruct (at_line _ _ _ Hd') as (-> & _). by exists x.
Qed.

Lemma switch_spec s c l t ts : drop s line = c :: l -> white c = false -> lex (c :: l) = t :: ts ->
  exists e, switch c s = Ok (code t, e) /\ (s < e <= es)%nat /\ lex (drop e line) = ts /\ (forall w, t = Word w -> cut w s e).
Proof.
  intros Hd Hw Hlex. destruct (at_line _ _ _ Hd) as (_ & Hd1 & Hs & Hc). destruct (at_next _ _ _ Hd) as (d & Hat & Hdl).
  unfold switch. destruct (Z.eqb_spec c 0); [done|]. clear n. case_bool_decide as Hin.
  { assert (Hsy : symbol c = true) by (apply bool_decide_eq_true; set_solver).
    assert (Hne : c =? 62 = false).
    { apply Z.eqb_neq. intros ->. by repeat (apply elem_of_cons in Hin as [?|Hin]; [done|]); apply elem_of_nil in Hin. }
    exists (S s). cbn [lex] in Hlex. rewrite Hw, Hsy, Hne in Hlex. simpl in Hlex.
    assert (t = Sym c /\ lex l = ts) as [-> <-] by (destruct l; split; simpl in *; congruence). split_and!; [done|lia|lia|by rewrite Hd1|done]. }
  destruct (Z.eqb_spec c 62) as [->|Hne].
  { rewrite Hat. unfold mbind, outcome_bind. cbn [lex] in Hlex. change (white 62) with false in Hlex. change (symbol 62) with true in Hlex.
    change (62 =? 62) with true in Hlex. destruct l as [|x l]; cbn [andb] in Hlex.
    - subst d. exists (S s). injection Hlex as <- <-. simpl. split_and!; [done|lia|lia|by rewrite Hd1|done].
    - subst d. destruct (at_line _ _ _ Hd1) as (_ & Hd2 & Hs2 & _). destruct (Z.eqb_spec x 62); injection Hlex as <- <-.
      + exists (S (S s)). split_and!; [done|lia|lia|by rewrite Hd2|done].
      + exists (S s). split_and!; [done|lia|lia|by rewrite Hd1|done]. }
  assert (Hsy : symbol c = false).
  { apply bool_decide_eq_false. intros Hin'. apply Hin. set_solver. }
  assert (Hwc : wordc c = true) by (unfold wordc; by rewrite Hw, Hsy). rewrite lex_word in Hlex by done.
  rewrite drop_len, (skip_word_spec s _ eq_refl), Hd. unfold mbind, outcome_bind. remember (prefix_len wordc (c :: l)) as n eqn:En.
  assert (t = Word (take n (c :: l)) /\ ts = lex (drop n (c :: l))) as [-> ->] by (split; congruence).
  assert (Hn : (1 <= n)%nat) by (rewrite En; cbn [prefix_len]; rewrite Hwc; lia).
  assert (Hn2 : (s + n <= es)%nat).
  { pose proof (prefix_len_le wordc (drop s line)) as Hle. rewrite length_drop, Hd, <-En in Hle. fold es in Hle. lia. }
  exists (s + n)%nat. split_and!; [done|lia|lia|by rewrite <-drop_drop, Hd|]. intros w Hww. assert (w = take n (c :: l)) as -> by congruence. split_and!; [|lia|lia| |].
  - rewrite Hd. f_equal. lia.
  - rewrite En. apply prefix_len_take.
  - intros x Hx. apply (prefix_len_stop wordc (c :: l)). by rewrite <-En, <-Hd, lookup_drop.
Qed.

Lemma wp_gettoken s t ts Q : rep s (t :: ts) ->
  (forall q e s', rep s' ts -> (s < s')%nat -> (forall w, t = Word w -> cut w q e) -> Q (code t, q, e) s') ->
  wp E (gettoken buf es) Q s.
Proof.
  intros [Hs Hlex] HQ. unfold gettoken. apply wp_bind, wp_get, wp_bind.
  destruct (skip_white_rep s Hs) as (q & -> & Hq & Hl & Hw). eapply wp_lift; [done|]. apply wp_bind.
  destruct (drop q line) as [|c l] eqn:Hd; [by rewrite Hlex in Hl|]. rewrite Hlex in Hl.
  destruct (at_line _ _ _ Hd) as (-> & _). eapply wp_lift; [done|]. apply wp_bind.
  destruct (switch_spec _ _ _ _ _ Hd (Hw _ _ eq_refl) Hl) as (e & Hsw & He & Hts & Hcut). eapply wp_lift; [exact Hsw|].
  apply wp_bind. destruct (skip_white_rep e) as (s' & -> & Hs' & Hl' & _); [lia|]. eapply wp_lift; [done|].
  apply wp_bind, wp_modify, wp_ret. apply HQ; [|lia|done]. split; [lia|]. by rewrite Hl'.
Qed.


End Line.
