(* ===== verification/ShellParse.v ===== *)
(** * The grammar of the shell

    The commands of a line of tokens as a grammar, and that the recursive descent
    of sh.c accepts exactly its lines and builds the commands it gives them. *)

From stdpp Require Import base numbers list sets strings.
From S2P Require Import Prelude Strings Syscall Shell ShellLex.

Open Scope Z_scope.

(** Commands with their strings. *)
Inductive scmd :=
| SExec (argv : list (list Z))
| SRedir (c : scmd) (file : list Z) (mode fd : Z)
| SPipe (left right : scmd)
| SList (left right : scmd)
| SBack (c : scmd).

Definition redir : Type := list Z * Z * Z.
Definition wrap1 (x : scmd) (r : redir) : scmd := SRedir x r.1.1 r.1.2 r.2.
Definition wrap (x : scmd) (rs : list redir) : scmd := foldl wrap1 x rs.
Definition backs (n : nat) (x : scmd) : scmd := Nat.iter n SBack x.

(** ** The grammar *)

(** The mode and descriptor of a redirection. *)
Definition kind (t : token) : option (Z * Z) :=
  match t with
  | Sym c => if c =? 60 then Some (O_RDONLY, 0) else if c =? 62 then Some (Z.lor O_WRONLY O_CREATE, 1) else None
  | Append => Some (Z.lor O_WRONLY O_CREATE, 1)
  | Word _ => None
  end.

Inductive g_redirs : list token -> list redir -> Prop :=
| gr_nil : g_redirs [] []
| gr_cons t w m f ts rs : kind t = Some (m, f) -> g_redirs ts rs -> g_redirs (t :: Word w :: ts) ((w, m, f) :: rs).

(** Words and redirections in any order. *)
Inductive g_items : list token -> list (list Z) -> list redir -> Prop :=
| gi_nil : g_items [] [] []
| gi_word w ts ws rs : g_items ts ws rs -> g_items (Word w :: ts) (w :: ws) rs
| gi_redir t w m f ts ws rs : kind t = Some (m, f) -> g_items ts ws rs -> g_items (t :: Word w :: ts) ws ((w, m, f) :: rs).

Inductive g_line : list token -> scmd -> Prop :=
| gl_pipe n ts x : g_pipe ts x -> g_line (ts ++ replicate n (Sym 38)) (backs n x)
| gl_list n ts x ts' x' : g_pipe ts x -> g_line ts' x' ->
    g_line (ts ++ replicate n (Sym 38) ++ Sym 59 :: ts') (SList (backs n x) x')
with g_pipe : list token -> scmd -> Prop :=
| gp_exec ts x : g_exec ts x -> g_pipe ts x
| gp_pipe ts x ts' x' : g_exec ts x -> g_pipe ts' x' -> g_pipe (ts ++ Sym 124 :: ts') (SPipe x x')
with g_exec : list token -> scmd -> Prop :=
| ge_items ts ws rs : g_items ts ws rs -> (length ws < MAXARGS)%nat -> g_exec ts (wrap (SExec ws) rs)
| ge_block ts x ts' rs : g_line ts x -> g_redirs ts' rs -> g_exec (Sym 40 :: ts ++ Sym 41 :: ts') (wrap x rs).

Scheme g_line_rec := Induction for g_line Sort Prop
with g_pipe_rec := Induction for g_pipe Sort Prop
with g_exec_rec := Induction for g_exec Sort Prop.
Combined Scheme g_mutual from g_line_rec, g_pipe_rec, g_exec_rec.

(** ** Small facts *)

Lemma gl_one ts x : g_pipe ts x -> g_line ts x.
Proof. intros H. pose proof (gl_pipe 0 ts x H) as H'. by rewrite app_nil_r in H'. Qed.

Lemma wrap_app x rs rs' : wrap x (rs ++ rs') = wrap (wrap x rs) rs'.
Proof. apply foldl_app. Qed.

Lemma backs_S n x : backs (S n) x = SBack (backs n x).
Proof. done. Qed.

Lemma backs_back n x : backs n (SBack x) = backs (S n) x.
Proof. unfold backs. by rewrite Nat.iter_succ_r. Qed.

Lemma redirs_items ts rs ts' ws rs' : g_redirs ts rs -> g_items ts' ws rs' -> g_items (ts ++ ts') ws (rs ++ rs').
Proof. induction 1; [done|]. intros. simpl. constructor; auto. Qed.

(** Items start with their redirections. *)
Lemma items_split ts ws rs : g_items ts ws rs -> exists t1 r1 t2 r2, ts = t1 ++ t2 /\ rs = r1 ++ r2 /\ g_redirs t1 r1 /\
  ((t2 = [] /\ ws = [] /\ r2 = []) \/ exists w t3 ws', t2 = Word w :: t3 /\ ws = w :: ws' /\ g_items t3 ws' r2).
Proof.
  induction 1 as [|w ts ws rs H _|t w m f ts ws rs Hk H IH].
  - exists [], [], [], []. split_and!; try done; [constructor|by left].
  - exists [], [], (Word w :: ts), rs. split_and!; try done; [constructor|]. right. by exists w, ts, ws.
  - destruct IH as (t1 & r1 & t2 & r2 & -> & -> & Hr & Hc). exists (t :: Word w :: t1), ((w, m, f) :: r1), t2, r2.
    split_and!; [done|done|by constructor|done].
Qed.

Lemma starts_true l ts : starts l ts = true -> exists t ts', ts = t :: ts' /\ ((exists c, t = Sym c /\ c ∈ l) \/ t = Append /\ 62 ∈ l).
Proof.
  destruct ts as [|[w|c|] ts]; simpl; try done; intros H%bool_decide_eq_true; eexists _, _; split; try done; [left; by eexists|by right].
Qed.

(** One symbol. *)
Lemma starts_one c ts : c <> 62 -> starts [c] ts = true -> exists ts', ts = Sym c :: ts'.
Proof.
  intros Hc (t & ts' & -> & [(d & -> & Hd)|[-> Hd]])%starts_true; apply list_elem_of_singleton in Hd; [subst d; by eexists|congruence].
Qed.

Lemma starts_redir ts : starts [60; 62] ts = true -> exists t m f ts', ts = t :: ts' /\ kind t = Some (m, f).
Proof.
  intros (t & ts' & -> & [(c & -> & Hc)|[-> _]])%starts_true; [|by eexists _, _, _, _].
  apply elem_of_cons in Hc as [->|Hc]; [by eexists _, _, _, _|]. apply list_elem_of_singleton in Hc as ->. by eexists _, _, _, _.
Qed.

Lemma kind_starts t m f ts : kind t = Some (m, f) -> starts [60; 62] (t :: ts) = true.
Proof.
  destruct t as [w|c|]; simpl; [done| |done].
  destruct (Z.eqb_spec c 60) as [->|]; [done|]. by destruct (Z.eqb_spec c 62) as [->|].
Qed.

(** The command that [parseredirs] makes for the token's code. *)
Lemma kind_code {MA : Malloc} t m f c q e : kind t = Some (m, f) ->
  (if code t =? 60 then redircmd c q e O_RDONLY 0
   else if code t =? 62 then redircmd c q e (Z.lor O_WRONLY O_CREATE) 1
   else if code t =? 43 then redircmd c q e (Z.lor O_WRONLY O_CREATE) 1 else mret c) = alloc (REDIR c q e m f).
Proof.
  destruct t as [w|d|]; simpl; [done| |by intros [= <- <-]]. destruct (Z.eqb_spec d 60); [by intros [= <- <-]|].
  destruct (Z.eqb_spec d 62); [by intros [= <- <-]|done].
Qed.

Lemma lex_length_le n l : (length l <= n)%nat -> (length (lex l) <= length l)%nat.
Proof.
  revert l. induction n as [|n IH]; intros [|c l] Hn; simpl in *; try lia.
  destruct (white c); [specialize (IH l); lia|]. destruct (symbol c).
  - destruct l as [|d l]; simpl; [lia|]. destruct (_ && _); simpl.
    + specialize (IH l). simpl in Hn. lia.
    + specialize (IH (d :: l)). simpl in *. lia.
  - destruct l as [|d l]; [simpl; lia|]. specialize (IH (d :: l) ltac:(simpl in *; lia)). destruct (wordc d); [|simpl in *; lia].
    destruct (lex (d :: l)) as [|[] ?]; simpl in *; lia.
Qed.

Definition tok_ok (t : token) : Prop := match t with Sym c => symbol c = true | _ => True end.

Lemma lex_ok_le n l : (length l <= n)%nat -> Forall tok_ok (lex l).
Proof.
  revert l. induction n as [|n IH]; intros [|c l] Hn; simpl in *; try lia; try constructor.
  destruct (white c); [apply IH; lia|]. destruct (symbol c) eqn:Hs.
  - destruct l as [|d l]; [by repeat constructor|]. simpl in Hn.
    destruct (_ && _); constructor; try done; apply IH; simpl; lia.
  - destruct l as [|d l]; [by repeat constructor|]. assert (IHl : Forall tok_ok (lex (d :: l))) by (apply IH; simpl in *; lia).
    destruct (wordc d); [|by constructor]. destruct (lex (d :: l)) as [|[] ?]; constructor; try done; by inversion IHl.
Qed.

(** ** Words of the line *)

Section Parse.
Context {MA : Malloc} (line pad : list Z).
Hypothesis Hnul : 0 ∉ line.

Let buf := line ++ 0 :: pad.
Let es := length line.

Fixpoint spells (c : cmd) (x : scmd) : Prop :=
  match c, x with
  | EXEC args, SExec ws => Forall2 (fun p w => cut line w p.1 p.2) args ws
  | REDIR c q e m f, SRedir x w m' f' => spells c x /\ cut line w q e /\ m = m' /\ f = f'
  | PIPE l r, SPipe x y | LIST l r, SList x y => spells l x /\ spells r y
  | BACK c, SBack x => spells c x
  | _, _ => False
  end.

Lemma add_arg_spells c ws rs w q e : spells c (wrap (SExec ws) rs) -> cut line w q e ->
  spells (add_arg c q e) (wrap (SExec (ws ++ [w])) rs).
Proof.
  intros Hs Hcut. revert c Hs. induction rs as [|r rs IH] using rev_ind; intros c.
  - destruct c; try done. simpl. intros H. apply Forall2_app; [done|]. by constructor.
  - rewrite !wrap_app. destruct c; try done. simpl. intros (H & ?). split; [by apply IH|done].
Qed.

Lemma rep_tokens s ts : rep line s ts -> (length ts <= es)%nat.
Proof. intros [Hs <-]. pose proof (lex_length_le _ (drop s line) (Nat.le_refl _)) as H. rewrite length_drop in H. fold es in H. lia. Qed.

Lemma rep_ok s ts : rep line s ts -> Forall tok_ok ts.
Proof. intros [_ <-]. by eapply lex_ok_le. Qed.

(** Only words have the code of a word, and no token that of the end. *)
Lemma code_word s t ts : rep line s (t :: ts) -> (code t =? 97) = match t with Word _ => true | _ => false end /\ (code t =? 0) = false.
Proof.
  intros [Ht _]%rep_ok%Forall_cons. destruct t as [w|c|]; try done. simpl in *.
  split; apply Z.eqb_neq; intros ->; by vm_compute in Ht.
Qed.

Lemma wp_peekb {E : error -> Prop} l s ts Q : forallb symbol l = true -> rep line s ts ->
  (forall s', rep line s' ts -> Q (starts l ts) s') -> wp E (peek buf es (l ++ [0])) Q s.
Proof.
  intros Hl Hr HQ. rewrite forallb_forall in Hl. apply wp_peek with ts; auto.
  - intros H0%list_elem_of_In. by apply Hl in H0.
  - apply Forall_forall. intros c Hc%list_elem_of_In. by apply Hl.
Qed.

(** ** What the parser accepts is a line of the grammar *)

(** A message, or the crash of a constructor without memory. *)
Definition panics (e : error) : Prop := (exists msg, e = Panic msg) \/ (e = Fault /\ exists s c, malloc_ok s c = false).

Lemma wp_panic {A} msg (Q : A -> nat -> Prop) s : wp panics (fail (Panic msg)) Q s.
Proof. left. by exists msg. Qed.

Lemma wp_alloc c (Q : cmd -> nat -> Prop) s : Q c s -> wp panics (alloc c) Q s.
Proof.
  intros HQ. unfold alloc. apply wp_bind, wp_get. destruct (malloc_ok s c) eqn:Hm; [by apply wp_ret|].
  right. split; [done|]. by exists s, c.
Qed.

(** The result of parsing a part of [ts], of which [G] is the grammar. *)
Definition parsed (G : list token -> scmd -> Prop) (ts : list token) (c : cmd) (s : nat) : Prop :=
  exists ts1 ts2 x, ts = ts1 ++ ts2 /\ G ts1 x /\ rep line s ts2 /\ spells c x.

Lemma sound_redirs fuel c x s ts : rep line s ts -> spells c x -> (length ts <= fuel)%nat ->
  wp panics (parseredirs buf es fuel c)
    (fun c' s' => exists ts1 rs ts2, ts = ts1 ++ ts2 /\ g_redirs ts1 rs /\ rep line s' ts2 /\ spells c' (wrap x rs)) s.
Proof.
  revert c x s ts. induction fuel as [|fuel IH]; intros c x s ts Hr Hs Hf; cbn [parseredirs];
    apply wp_bind, (wp_peekb [60; 62] s ts); try done; intros s1 Hr1; destruct (starts [60; 62] ts) eqn:Hst;
    try (apply wp_ret; exists [], [], ts; by split_and!; [|constructor| |]).
  - apply starts_redir in Hst as (t & m & f & ts' & -> & _). simpl in Hf. lia.
  - apply starts_redir in Hst as (t & m & f & ts' & -> & Hk). apply wp_bind.
    apply (wp_gettoken line pad Hnul s1 t ts'); [done|]. intros q0 e0 s2 Hr2 _ _. apply wp_bind. destruct ts' as [|t' ts'].
    { apply (wp_gettoken_end line pad Hnul s2); [done|]. intros _. apply wp_panic. }
    apply (wp_gettoken line pad Hnul s2 t' ts'); [done|]. intros q e s3 Hr3 _ Hcut.
    destruct (code_word _ _ _ Hr2) as [-> _]. destruct t' as [w|?|]; try apply wp_panic. cbn [negb]. rewrite (kind_code _ m f) by done.
    apply wp_bind, wp_alloc. eapply wp_mono; [apply (IH _ (SRedir x w m f) s3 ts'); [done| |simpl in Hf; lia]|].
    { simpl. split_and!; auto. }
    intros c' s' (ts1 & rs & ts2 & -> & Hg & Hr' & Hs'). exists (t :: Word w :: ts1), ((w, m, f) :: rs), ts2.
    split_and!; [done|by constructor|done|done].
Qed.

Lemma sound_args fuel c ws rs s ts : rep line s ts -> spells c (wrap (SExec ws) rs) -> (length ws < MAXARGS)%nat -> (MAXARGS <= length ws + fuel)%nat ->
  wp panics (parseargs buf es fuel c (length ws))
    (fun c' s' => exists ts1 ws' rs' ts2, ts = ts1 ++ ts2 /\ g_items ts1 ws' rs' /\ rep line s' ts2 /\
       spells c' (wrap (SExec (ws ++ ws')) (rs ++ rs')) /\ (length (ws ++ ws') < MAXARGS)%nat) s.
Proof.
  revert c ws rs s ts. induction fuel as [|fuel IH]; intros c ws rs s ts Hr Hs Hw Hf; [lia|]. cbn [parseargs].
  assert (Hend : forall s' ts0, rep line s' ts0 -> exists ts1 ws' rs' ts2, ts0 = ts1 ++ ts2 /\ g_items ts1 ws' rs' /\ rep line s' ts2 /\
       spells c (wrap (SExec (ws ++ ws')) (rs ++ rs')) /\ (length (ws ++ ws') < MAXARGS)%nat).
  { intros s' ts0 Hr'. exists [], [], [], ts0. rewrite !app_nil_r. split_and!; try done. constructor. }
  apply wp_bind, (wp_peekb [124; 41; 38; 59] s ts); try done. intros s1 Hr1. destruct (starts _ ts); [by apply wp_ret, Hend|].
  apply wp_bind. destruct ts as [|t ts].
  { apply (wp_gettoken_end line pad Hnul s1); [done|]. intros Hr2. by apply wp_ret, Hend. }
  apply (wp_gettoken line pad Hnul s1 t ts); [done|]. intros q e s2 Hr2 _ Hcut.
  destruct (code_word _ _ _ Hr1) as [-> ->]. destruct t as [w|?|]; try apply wp_panic. cbn [negb].
  destruct (Nat.leb_spec MAXARGS (S (length ws))); [apply wp_panic|].
  pose proof (rep_tokens _ _ Hr2) as Hlen. apply wp_bind. eapply wp_mono.
  { apply (sound_redirs (S es) _ (wrap (SExec (ws ++ [w])) rs) s2 ts); [done| |unfold es; lia]. apply add_arg_spells; auto. }
  intros c2 s3 (ts1 & rs1 & ts2 & -> & Hg & Hr3 & Hs3). rewrite <-wrap_app in Hs3.
  replace (S (length ws)) with (length (ws ++ [w])) by (rewrite length_app; simpl; lia).
  eapply wp_mono; [apply (IH _ _ (rs ++ rs1) s3 ts2); [done|done|rewrite length_app; simpl; lia|rewrite length_app; simpl; lia]|].
  intros c' s' (ts3 & ws' & rs' & ts4 & -> & Hg' & Hr' & Hs' & Hl'). exists (Word w :: ts1 ++ ts3), (w :: ws'), (rs1 ++ rs'), ts4.
  rewrite <-app_assoc in Hs', Hl'. simpl in Hs', Hl'. split_and!; [by rewrite <-app_comm_cons, <-app_assoc| |done|by rewrite <-app_assoc in Hs'|done].
  constructor. by apply redirs_items.
Qed.

Lemma sound_back fuel c x s ts : rep line s ts -> spells c x -> (length ts <= fuel)%nat ->
  wp panics (parseback buf es fuel c)
    (fun c' s' => exists n ts2, ts = replicate n (Sym 38) ++ ts2 /\ rep line s' ts2 /\ spells c' (backs n x)) s.
Proof.
  revert c x s ts. induction fuel as [|fuel IH]; intros c x s ts Hr Hs Hf; cbn [parseback];
    apply wp_bind, (wp_peekb [38] s ts); try done; intros s1 Hr1; destruct (starts [38] ts) eqn:Hst; try (apply wp_ret; by exists 0%nat, ts).
  - apply starts_one in Hst as (ts' & ->); [|done]. simpl in Hf. lia.
  - apply starts_one in Hst as (ts' & ->); [|done]. apply wp_bind, (wp_gettoken line pad Hnul s1 (Sym 38) ts'); [done|].
    intros q e s2 Hr2 _ _. apply wp_bind, wp_alloc. eapply wp_mono; [apply (IH _ (SBack x) s2 ts'); [done|done|simpl in Hf; lia]|].
    intros c' s' (n & ts2 & -> & Hr' & Hs'). exists (S n), ts2. rewrite backs_back in Hs'. by split_and!.
Qed.

(** What a parser of this depth does with the tokens from [s] on. *)
Definition sound (G : list token -> scmd -> Prop) (k : nat) (m : nat -> M nat cmd) (fuel : nat) : Prop :=
  forall s ts, rep line s ts -> (4 * length ts + k <= fuel)%nat -> wp panics (m fuel) (parsed G ts) s.

Lemma sound_exec fuel : sound g_exec 1 (fun n => parseblock buf es n) fuel -> sound g_exec 2 (fun n => parseexec buf es n) (S fuel).
Proof.
  intros IH s ts Hr Hf. cbn [parseexec]. apply wp_bind, (wp_peekb [40] s ts); try done. intros s1 Hr1. destruct (starts [40] ts).
  { apply IH; [done|lia]. }
  pose proof (rep_tokens _ _ Hr1). apply wp_bind, wp_alloc, wp_bind. eapply wp_mono.
  { apply (sound_redirs (S es) (EXEC []) (SExec []) s1 ts); [done|by constructor|unfold es; lia]. }
  intros c s2 (ts1 & rs & ts2 & -> & Hg & Hr2 & Hs2). eapply wp_mono.
  { apply (sound_args MAXARGS c [] rs s2 ts2); [done|done|unfold MAXARGS; simpl; lia|simpl; lia]. }
  intros c' s' (ts3 & ws & rs' & ts4 & -> & Hg' & Hr' & Hs' & Hl). exists (ts1 ++ ts3), ts4, (wrap (SExec ws) (rs ++ rs')).
  split_and!; [by rewrite app_assoc| |done|done]. constructor; [|done]. by apply redirs_items.
Qed.

Lemma sound_block fuel : sound g_line 4 (fun n => parseline buf es n) fuel -> sound g_exec 1 (fun n => parseblock buf es n) (S fuel).
Proof.
  intros IH s ts Hr Hf. cbn [parseblock]. apply wp_bind, (wp_peekb [40] s ts); try done. intros s1 Hr1.
  destruct (starts [40] ts) eqn:Hst; [|apply wp_panic]. apply starts_one in Hst as (ts' & ->); [|done]. simpl in Hf.
  apply wp_bind, (wp_gettoken line pad Hnul s1 (Sym 40) ts'); [done|]. intros q e s2 Hr2 _ _. apply wp_bind.
  eapply wp_mono; [apply (IH s2 ts'); [done|lia]|]. intros c s3 (ts1 & ts2 & x & -> & Hg & Hr3 & Hs3).
  apply wp_bind, (wp_peekb [41] s3 ts2); try done. intros s4 Hr4. destruct (starts [41] ts2) eqn:Hst; [|apply wp_panic].
  apply starts_one in Hst as (ts3 & ->); [|done]. apply wp_bind, (wp_gettoken line pad Hnul s4 (Sym 41) ts3); [done|].
  intros q1 e1 s5 Hr5 _ _. pose proof (rep_tokens _ _ Hr5). eapply wp_mono.
  { apply (sound_redirs (S es) c x s5 ts3); [done|done|unfold es; lia]. }
  intros c' s' (ts4 & rs & ts5 & -> & Hg' & Hr' & Hs'). exists (Sym 40 :: ts1 ++ Sym 41 :: ts4), ts5, (wrap x rs).
  split_and!; [by rewrite <-app_comm_cons, <-app_assoc|by constructor|done|done].
Qed.

Lemma sound_pipe fuel : sound g_exec 2 (fun n => parseexec buf es n) fuel -> sound g_pipe 3 (fun n => parsepipe buf es n) fuel ->
  sound g_pipe 3 (fun n => parsepipe buf es n) (S fuel).
Proof.
  intros IHe IH s ts Hr Hf. cbn [parsepipe]. apply wp_bind. eapply wp_mono; [apply (IHe s ts); [done|lia]|].
  intros c s1 (ts1 & ts2 & x & -> & Hg & Hr1 & Hs1). rewrite length_app in Hf. apply wp_bind, (wp_peekb [124] s1 ts2); try done.
  intros s2 Hr2. destruct (starts [124] ts2) eqn:Hst; [|apply wp_ret; exists ts1, ts2, x; split_and!; try done; by constructor].
  apply starts_one in Hst as (ts3 & ->); [|done]. simpl in Hf. apply wp_bind, (wp_gettoken line pad Hnul s2 (Sym 124) ts3); [done|].
  intros q e s3 Hr3 _ _. apply wp_bind. eapply wp_mono; [apply (IH s3 ts3); [done|lia]|].
  intros c' s' (ts4 & ts5 & y & -> & Hg' & Hr' & Hs'). apply wp_alloc. exists (ts1 ++ Sym 124 :: ts4), ts5, (SPipe x y).
  split_and!; [by rewrite <-app_assoc|by constructor|done|done].
Qed.

Lemma sound_line fuel : sound g_pipe 3 (fun n => parsepipe buf es n) fuel -> sound g_line 4 (fun n => parseline buf es n) fuel ->
  sound g_line 4 (fun n => parseline buf es n) (S fuel).
Proof.
  intros IHp IH s ts Hr Hf. cbn [parseline]. apply wp_bind. eapply wp_mono; [apply (IHp s ts); [done|lia]|].
  intros c s1 (ts1 & ts2 & x & -> & Hg & Hr1 & Hs1). rewrite length_app in Hf. pose proof (rep_tokens _ _ Hr1). apply wp_bind.
  eapply wp_mono; [apply (sound_back (S es) c x s1 ts2); [done|done|unfold es; lia]|]. intros c2 s2 (n & ts3 & -> & Hr2 & Hs2).
  rewrite length_app in Hf. apply wp_bind, (wp_peekb [59] s2 ts3); try done. intros s3 Hr3. destruct (starts [59] ts3) eqn:Hst.
  2: { apply wp_ret. exists (ts1 ++ replicate n (Sym 38)), ts3, (backs n x). split_and!; [by rewrite <-app_assoc|by constructor|done|done]. }
  apply starts_one in Hst as (ts4 & ->); [|done]. simpl in Hf. apply wp_bind, (wp_gettoken line pad Hnul s3 (Sym 59) ts4); [done|].
  intros q e s4 Hr4 _ _. apply wp_bind. eapply wp_mono; [apply (IH s4 ts4); [done|lia]|].
  intros c' s' (ts5 & ts6 & y & -> & Hg' & Hr' & Hs'). apply wp_alloc. exists (ts1 ++ replicate n (Sym 38) ++ Sym 59 :: ts5), ts6, (SList (backs n x) y).
  split_and!; [by rewrite <-!app_assoc|by constructor|done|done].
Qed.

Lemma sound_parse fuel : sound g_line 4 (fun n => parseline buf es n) fuel.
Proof.
  enough (sound g_line 4 (fun n => parseline buf es n) fuel /\ sound g_pipe 3 (fun n => parsepipe buf es n) fuel /\
    sound g_exec 2 (fun n => parseexec buf es n) fuel /\ sound g_exec 1 (fun n => parseblock buf es n) fuel) as [? _]; [done|].
  induction fuel as [|fuel (IHl & IHp & IHe & IHb)]; [split_and!; intros s ts _ Hf; lia|].
  split_and!; [by apply sound_line|by apply sound_pipe|by apply sound_exec|by apply sound_block].
Qed.


(** ** Every line of the grammar is parsed *)

Section Complete.
Context {MO : MallocOk} {E : error -> Prop}.

Lemma wp_alloc_ok c (Q : cmd -> nat -> Prop) s : Q c s -> wp E (alloc c) Q s.
Proof. intros HQ. unfold alloc. apply wp_bind, wp_get. rewrite malloc_succeeds. by apply wp_ret. Qed.

Definition follow (l : list Z) (ts : list token) : Prop := ts = [] \/ exists c ts', ts = Sym c :: ts' /\ c ∈ l.

Lemma follow_starts l l' ts : follow l ts -> forallb (fun c => negb (bool_decide (c ∈ l'))) l = true -> starts l' ts = false.
Proof.
  intros [->|(c & ts' & -> & Hc)]; [done|]. rewrite forallb_forall. intros H. apply list_elem_of_In, H in Hc. simpl.
  by apply negb_true_iff.
Qed.

Lemma follow_mono l l' ts : follow l ts -> forallb (fun c => bool_decide (c ∈ l')) l = true -> follow l' ts.
Proof.
  intros [->|(c & ts' & -> & Hc)]; [by left|]. rewrite forallb_forall. intros H. apply list_elem_of_In, H, bool_decide_eq_true in Hc.
  right. by exists c, ts'.
Qed.

Lemma follow_cons l c ts : bool_decide (c ∈ l) = true -> follow l (Sym c :: ts).
Proof. intros H%bool_decide_eq_true. right. by exists c, ts. Qed.

Lemma follow_stop l l' ts : follow l ts -> forallb (fun c => bool_decide (c ∈ l')) l = true -> ts = [] \/ starts l' ts = true.
Proof.
  intros H Hl. destruct (follow_mono _ _ _ H Hl) as [->|(c & ts' & -> & Hc)]; [by left|right]. by apply bool_decide_eq_true.
Qed.

(** The parser [m] of depth [k] parses [ts] to [x]. *)
Definition complete (l : list Z) (k : nat) (m : nat -> M nat cmd) (ts : list token) (x : scmd) : Prop :=
  forall s rest fuel, rep line s (ts ++ rest) -> follow l rest -> (4 * length (ts ++ rest) + k <= fuel)%nat ->
    wp E (m fuel) (fun c s' => rep line s' rest /\ spells c x) s.

Lemma complete_redirs ts rs : g_redirs ts rs -> forall fuel c x s rest, rep line s (ts ++ rest) -> starts [60; 62] rest = false ->
  (length ts <= fuel)%nat -> spells c x ->
  wp E (parseredirs buf es fuel c) (fun c' s' => rep line s' rest /\ spells c' (wrap x rs)) s.
Proof.
  induction 1 as [|t w m f ts rs Hk _ IH]; intros fuel c x s rest Hr Hrest Hf Hs.
  - destruct fuel; cbn [parseredirs]; apply wp_bind, (wp_peekb [60; 62] s rest); try done; intros s1 Hr1; rewrite Hrest; by apply wp_ret.
  - destruct fuel as [|fuel]; [simpl in Hf; lia|]. cbn [parseredirs]. apply wp_bind, (wp_peekb [60; 62] s ((t :: Word w :: ts) ++ rest)); try done.
    intros s1 Hr1. simpl app in *. rewrite (kind_starts _ m f) by done. apply wp_bind, (wp_gettoken line pad Hnul s1 t (Word w :: ts ++ rest)); [done|].
    intros q0 e0 s2 Hr2 _ _. apply wp_bind, (wp_gettoken line pad Hnul s2 (Word w) (ts ++ rest)); [done|]. intros q e s3 Hr3 _ Hcut.
    simpl negb. rewrite (kind_code _ m f) by done. apply wp_bind, wp_alloc_ok. apply (IH fuel _ (SRedir x w m f)); [done|done|simpl in Hf; lia|]. simpl. split_and!; auto.
Qed.

Lemma items_next ts ws rs rest : (ts = [] /\ ws = [] /\ rs = []) \/ (exists w t3 ws', ts = Word w :: t3 /\ ws = w :: ws' /\ g_items t3 ws' rs) ->
  follow [124; 41; 38; 59] rest -> starts [60; 62] (ts ++ rest) = false.
Proof. intros [(-> & _)|(w & t3 & ws' & -> & _)] Hf; [|done]. by eapply follow_starts. Qed.

Lemma complete_args ws : forall fuel c ws0 rs0 s ts rs rest,
  (ts = [] /\ ws = [] /\ rs = []) \/ (exists w t3 ws', ts = Word w :: t3 /\ ws = w :: ws' /\ g_items t3 ws' rs) ->
  rep line s (ts ++ rest) -> follow [124; 41; 38; 59] rest -> spells c (wrap (SExec ws0) rs0) ->
  (length (ws0 ++ ws) < MAXARGS)%nat -> (MAXARGS <= length ws0 + fuel)%nat ->
  wp E (parseargs buf es fuel c (length ws0)) (fun c' s' => rep line s' rest /\ spells c' (wrap (SExec (ws0 ++ ws)) (rs0 ++ rs))) s.
Proof.
  induction ws as [|w ws IH]; intros fuel c ws0 rs0 s ts rs rest Hts Hr Hfo Hs Hl Hf;
    (destruct fuel as [|fuel]; [rewrite length_app in Hl; lia|]); cbn [parseargs]; apply wp_bind, (wp_peekb [124; 41; 38; 59] s (ts ++ rest)); try done; intros s1 Hr1.
  - destruct Hts as [(-> & _ & ->)|(w & t3 & ws' & _ & ? & _)]; [|done]. rewrite !app_nil_r. simpl app in *.
    destruct (follow_stop _ [124; 41; 38; 59] _ Hfo eq_refl) as [->|Hst].
    + simpl. apply wp_bind, (wp_gettoken_end line pad Hnul s1); [done|]. intros Hr2. by apply wp_ret.
    + rewrite Hst. by apply wp_ret.
  - destruct Hts as [(_ & ? & _)|(w' & t3 & ws' & -> & [= <- <-] & Hg)]; [done|]. simpl app. simpl starts. cbv iota.
    apply wp_bind, (wp_gettoken line pad Hnul s1 (Word w) (t3 ++ rest)); [done|]. intros q e s2 Hr2 _ Hcut. simpl code. simpl negb. cbv iota.
    change (97 =? 0) with false. cbv iota. rewrite length_app in Hl. simpl in Hl.
    destruct (Nat.leb_spec MAXARGS (S (length ws0))); [lia|]. destruct (items_split _ _ _ Hg) as (t1 & r1 & t2 & r2 & -> & -> & Hg1 & Hnext).
    pose proof (rep_tokens _ _ Hr2) as Hlen. rewrite !length_app in Hlen. rewrite <-app_assoc in Hr2. apply wp_bind. eapply wp_mono.
    { apply (complete_redirs t1 r1 Hg1 (S es) (add_arg c q e) (wrap (SExec (ws0 ++ [w])) rs0) s2 (t2 ++ rest)); [done| |unfold es; lia|].
      - by eapply items_next.
      - apply add_arg_spells; auto. }
    intros c2 s3 [Hr3 Hs3]. rewrite <-wrap_app in Hs3. replace (S (length ws0)) with (length (ws0 ++ [w])) by (rewrite length_app; simpl; lia).
    eapply wp_mono; [apply (IH fuel c2 (ws0 ++ [w]) (rs0 ++ r1) s3 t2 r2 rest); try done; rewrite !length_app; simpl; lia|].
    intros c' s' [Hr' Hs']. split; [done|]. by rewrite <-!app_assoc in Hs'.
Qed.
Lemma complete_back n : forall fuel c x s rest, rep line s (replicate n (Sym 38) ++ rest) -> starts [38] rest = false -> (n <= fuel)%nat ->
  spells c x -> wp E (parseback buf es fuel c) (fun c' s' => rep line s' rest /\ spells c' (backs n x)) s.
Proof.
  induction n as [|n IH]; intros fuel c x s rest Hr Hst Hf Hs; simpl app in *.
  - destruct fuel; cbn [parseback]; apply wp_bind, (wp_peekb [38] s rest); try done; intros s1 Hr1; rewrite Hst; by apply wp_ret.
  - destruct fuel as [|fuel]; [lia|]. cbn [parseback]. apply wp_bind, (wp_peekb [38] s (Sym 38 :: replicate n (Sym 38) ++ rest)); try done.
    intros s1 Hr1. simpl starts. cbv iota. apply wp_bind, (wp_gettoken line pad Hnul s1 (Sym 38) (replicate n (Sym 38) ++ rest)); [done|].
    intros q e s2 Hr2 _ _. apply wp_bind, wp_alloc_ok. rewrite <-backs_back. apply IH; [done|done|lia|done].
Qed.

Notation lines := (complete [41] 4 (fun n => parseline buf es n)).
Notation pipes := (complete [41; 38; 59] 3 (fun n => parsepipe buf es n)).
Notation execs := (complete [124; 41; 38; 59] 2 (fun n => parseexec buf es n)).

Lemma items_no_block ts ws rs rest : g_items ts ws rs -> follow [124; 41; 38; 59] rest -> starts [40] (ts ++ rest) = false.
Proof.
  destruct 1 as [|w ts ws rs H|t w m f ts ws rs Hk H]; intros Hf; [by eapply follow_starts|done|]. destruct t as [|c|]; [done| |done]. simpl in *.
  apply bool_decide_eq_false. intros ->%list_elem_of_singleton. done.
Qed.

Lemma complete_items ts ws rs : g_items ts ws rs -> (length ws < MAXARGS)%nat -> execs ts (wrap (SExec ws) rs).
Proof.
  intros Hg Hl s rest fuel Hr Hfo Hf. destruct fuel as [|fuel]; [lia|]. cbn [parseexec].
  apply wp_bind, (wp_peekb [40] s (ts ++ rest)); try done. intros s1 Hr1. rewrite (items_no_block _ ws rs) by done.
  destruct (items_split _ _ _ Hg) as (t1 & r1 & t2 & r2 & -> & -> & Hg1 & Hnext). rewrite <-app_assoc in Hr1.
  pose proof (rep_tokens _ _ Hr1) as Hlen. rewrite !length_app in Hlen. apply wp_bind, wp_alloc_ok, wp_bind. eapply wp_mono.
  { apply (complete_redirs t1 r1 Hg1 (S es) (EXEC []) (SExec []) s1 (t2 ++ rest)); [done|by eapply items_next|unfold es; lia|by constructor]. }
  intros c s2 [Hr2 Hs2]. eapply wp_mono; [apply (complete_args ws MAXARGS c [] r1 s2 t2 r2 rest); try done; simpl; lia|].
  by intros c' s' [? ?].
Qed.

Lemma complete_block ts x ts' rs : lines ts x -> g_redirs ts' rs -> execs (Sym 40 :: ts ++ Sym 41 :: ts') (wrap x rs).
Proof.
  intros IH Hg s rest fuel Hr Hfo Hf. rewrite <-app_comm_cons, <-app_assoc in Hr, Hf. simpl app in Hr, Hf. simpl length in Hf.
  rewrite !length_app in Hf. simpl length in Hf. rewrite length_app in Hf. destruct fuel as [|[|fuel]]; [lia|lia|]. cbn [parseexec].
  apply wp_bind, (wp_peekb [40] s (Sym 40 :: ts ++ Sym 41 :: ts' ++ rest)); try done. intros s1 Hr1. simpl starts. cbv iota. cbn [parseblock].
  apply wp_bind, (wp_peekb [40] s1 (Sym 40 :: ts ++ Sym 41 :: ts' ++ rest)); try done. intros s2 Hr2. simpl starts. simpl negb. cbv iota.
  apply wp_bind, (wp_gettoken line pad Hnul s2 (Sym 40) (ts ++ Sym 41 :: ts' ++ rest)); [done|]. intros q e s3 Hr3 _ _. apply wp_bind.
  eapply wp_mono; [apply (IH s3 (Sym 41 :: ts' ++ rest) fuel); [done|by apply follow_cons|rewrite length_app; simpl; rewrite length_app; lia]|].
  intros c s4 [Hr4 Hs4]. apply wp_bind, (wp_peekb [41] s4 (Sym 41 :: ts' ++ rest)); try done. intros s5 Hr5. simpl starts. simpl negb. cbv iota.
  apply wp_bind, (wp_gettoken line pad Hnul s5 (Sym 41) (ts' ++ rest)); [done|]. intros q1 e1 s6 Hr6 _ _.
  pose proof (rep_tokens _ _ Hr6) as Hlen. rewrite length_app in Hlen. apply (complete_redirs ts' rs Hg (S es) c x s6 rest); [done|by eapply follow_starts|unfold es; lia|done].
Qed.

Lemma complete_pipe1 ts x : execs ts x -> pipes ts x.
Proof.
  intros IH s rest fuel Hr Hfo Hf. destruct fuel as [|fuel]; [lia|]. cbn [parsepipe]. apply wp_bind.
  eapply wp_mono; [apply (IH s rest fuel); [done|by eapply follow_mono|lia]|]. intros c s1 [Hr1 Hs1].
  apply wp_bind, (wp_peekb [124] s1 rest); try done. intros s2 Hr2. rewrite (follow_starts _ _ _ Hfo) by done. by apply wp_ret.
Qed.

Lemma complete_pipe2 ts x ts' x' : execs ts x -> pipes ts' x' -> pipes (ts ++ Sym 124 :: ts') (SPipe x x').
Proof.
  intros IH IH' s rest fuel Hr Hfo Hf. rewrite <-app_assoc in Hr, Hf. simpl app in Hr, Hf. destruct fuel as [|fuel]; [lia|].
  cbn [parsepipe]. apply wp_bind. eapply wp_mono; [apply (IH s (Sym 124 :: ts' ++ rest) fuel); [done|by apply follow_cons|lia]|].
  intros c s1 [Hr1 Hs1]. rewrite length_app in Hf. simpl in Hf. apply wp_bind, (wp_peekb [124] s1 (Sym 124 :: ts' ++ rest)); try done.
  intros s2 Hr2. simpl starts. cbv iota. apply wp_bind, (wp_gettoken line pad Hnul s2 (Sym 124) (ts' ++ rest)); [done|].
  intros q e s3 Hr3 _ _. apply wp_bind. eapply wp_mono; [apply (IH' s3 rest fuel); [done|done|lia]|]. intros c' s' [Hr' Hs']. by apply wp_alloc_ok.
Qed.

Lemma complete_line1 n ts x : pipes ts x -> lines (ts ++ replicate n (Sym 38)) (backs n x).
Proof.
  intros IH s rest fuel Hr Hfo Hf. rewrite <-app_assoc in Hr, Hf. destruct fuel as [|fuel]; [lia|]. cbn [parseline]. apply wp_bind.
  eapply wp_mono; [apply (IH s (replicate n (Sym 38) ++ rest) fuel); [done| |lia]|].
  { destruct n; simpl; [by eapply follow_mono|by apply follow_cons]. }
  intros c s1 [Hr1 Hs1]. pose proof (rep_tokens _ _ Hr1) as Hlen. rewrite length_app, length_replicate in Hlen. apply wp_bind.
  eapply wp_mono; [apply (complete_back n (S es) c x s1 rest); [done|by eapply follow_starts|unfold es; lia|done]|].
  intros c2 s2 [Hr2 Hs2]. apply wp_bind, (wp_peekb [59] s2 rest); try done. intros s3 Hr3. rewrite (follow_starts _ _ _ Hfo) by done. by apply wp_ret.
Qed.

Lemma complete_line2 n ts x ts' x' : pipes ts x -> lines ts' x' ->
  lines (ts ++ replicate n (Sym 38) ++ Sym 59 :: ts') (SList (backs n x) x').
Proof.
  intros IH IH' s rest fuel Hr Hfo Hf. rewrite <-!app_assoc in Hr, Hf. simpl app in Hr, Hf. destruct fuel as [|fuel]; [lia|].
  cbn [parseline]. apply wp_bind. eapply wp_mono; [apply (IH s (replicate n (Sym 38) ++ Sym 59 :: ts' ++ rest) fuel); [done| |lia]|].
  { destruct n; by apply follow_cons. }
  intros c s1 [Hr1 Hs1]. pose proof (rep_tokens _ _ Hr1) as Hlen. rewrite length_app, length_replicate in Hlen. apply wp_bind.
  eapply wp_mono; [apply (complete_back n (S es) c x s1 (Sym 59 :: ts' ++ rest)); [done|done|unfold es; lia|done]|].
  intros c2 s2 [Hr2 Hs2]. rewrite !length_app in Hf. simpl in Hf. apply wp_bind, (wp_peekb [59] s2 (Sym 59 :: ts' ++ rest)); try done.
  intros s3 Hr3. simpl starts. cbv iota. apply wp_bind, (wp_gettoken line pad Hnul s3 (Sym 59) (ts' ++ rest)); [done|].
  intros q e s4 Hr4 _ _. apply wp_bind. eapply wp_mono; [apply (IH' s4 rest fuel); [done|done|rewrite length_app in *; simpl in *; lia]|].
  intros c' s' [Hr' Hs']. by apply wp_alloc_ok.
Qed.

Lemma complete_parse ts x : g_line ts x -> lines ts x.
Proof.
  pose proof (g_mutual (fun ts x _ => lines ts x) (fun ts x _ => pipes ts x) (fun ts x _ => execs ts x)) as H.
  apply H; clear H; intros.
  - by apply complete_line1.
  - by apply complete_line2.
  - by apply complete_pipe1.
  - by apply complete_pipe2.
  - by apply complete_items.
  - by apply complete_block.
Qed.

End Complete.


End Parse.
