(* ===== verification/ShellTheorems.v ===== *)
(** * The shell: results

    The strings of a parsed command, printing and parsing, the descriptors of the
    processes a command starts, and that no input stops the shell. *)

From stdpp Require Import base numbers list sets strings.
From S2P Require Import Prelude Strings Syscall Shell ShellLex ShellParse.

Open Scope Z_scope.

(** ** The strings of a command *)

(** The ends that [nulterminate] overwrites. *)
Fixpoint ends (c : cmd) : list nat :=
  match c with
  | EXEC args => args.*2
  | REDIR c _ e _ _ => ends c ++ [e]
  | PIPE l r | LIST l r => ends l ++ ends r
  | BACK c => ends c
  end.

(** The command with the C strings its pointers point to. *)
Fixpoint resolve (buf : list Z) (c : cmd) : scmd :=
  match c with
  | EXEC args => SExec ((fun p => str buf p.1) <$> args)
  | REDIR c q _ m f => SRedir (resolve buf c) (str buf q) m f
  | PIPE l r => SPipe (resolve buf l) (resolve buf r)
  | LIST l r => SList (resolve buf l) (resolve buf r)
  | BACK c => SBack (resolve buf c)
  end.

(** [buf'] is [buf] with a NUL at each of [l]. *)
Definition nulled (buf buf' : list Z) (l : list nat) : Prop :=
  length buf' = length buf /\ forall i, buf' !! i = if decide (i ∈ l) then Some 0 else buf !! i.

Lemma nulled_app a b c l l' : nulled a b l -> nulled b c l' -> nulled a c (l ++ l').
Proof.
  intros [L1 H1] [L2 H2]. split; [congruence|]. intros i. rewrite H2, H1. repeat case_decide; set_solver.
Qed.

Lemma put_nul_spec buf p : (p < length buf)%nat -> exists buf', put_nul buf p = Ok buf' /\ nulled buf buf' [p].
Proof.
  intros Hp. unfold put_nul. rewrite bool_decide_eq_true_2 by done. eexists. split; [done|]. split; [by rewrite length_insert|].
  intros i. case_decide as Hi.
  - apply list_elem_of_singleton in Hi as ->. by apply list_lookup_insert_eq.
  - apply list_lookup_insert_ne. intros ->. by apply Hi, list_elem_of_singleton.
Qed.

Lemma nul_args_spec args : forall buf, Forall (fun e => e < length buf)%nat args.*2 -> exists buf', nul_args buf args = Ok buf' /\ nulled buf buf' args.*2.
Proof.
  induction args as [|[q e] args IH]; intros buf H; simpl; [exists buf; split; [done|]; split; [done|]; intros i; by rewrite decide_False by apply not_elem_of_nil|].
  simpl in H. apply Forall_cons in H as [He H]. destruct (put_nul_spec buf e He) as (b1 & -> & H1). simpl.
  destruct (IH b1) as (b2 & -> & H2); [by rewrite (proj1 H1)|]. exists b2. split; [done|]. by apply (nulled_app _ _ _ [e] _ H1).
Qed.

Lemma nulterminate_spec c : forall buf, Forall (fun e => e < length buf)%nat (ends c) -> exists buf', nulterminate buf c = Ok buf' /\ nulled buf buf' (ends c).
Proof.
  induction c as [args|c IH q e m f|l IHl r IHr|l IHl r IHr|c IH]; intros buf H; simpl in *; auto using nul_args_spec.
  all: try (apply Forall_app in H as [H1 H2]).
  1: destruct (IH buf H1) as (b1 & -> & N1); simpl; destruct (put_nul_spec b1 e) as (b2 & -> & N2);
       [rewrite (proj1 N1); by inversion H2|exists b2; split; [done|by eapply nulled_app]].
  all: destruct (IHl buf H1) as (b1 & -> & N1); simpl; destruct (IHr b1) as (b2 & -> & N2);
       [by rewrite (proj1 N1)|exists b2; split; [done|by eapply nulled_app]].
Qed.

Section Strings.
Context (line pad : list Z).
Hypothesis Hnul : 0 ∉ line.

Definition boundary (e : nat) : Prop := (e <= length line)%nat /\ forall c, line !! e = Some c -> wordc c = false.

Lemma spells_ends c x : spells line c x -> Forall boundary (ends c).
Proof.
  revert x. induction c as [args|c IH q e m f|l IHl r IHr|l IHl r IHr|c IH]; intros [ws|x w m' f'|x y|x y|x]; simpl; try done.
  - intros H. induction H as [|[q e] w args ws (_ & Hq & _ & Hb) _ IH]; simpl in *; constructor; [|done]. split; [lia|done].
  - intros (Hs & (_ & Hq & _ & Hb) & _). apply Forall_app. split; [by eapply IH|]. apply Forall_singleton. split; [lia|done].
  - intros [H1 H2]. apply Forall_app. split; [by eapply IHl|by eapply IHr].
  - intros [H1 H2]. apply Forall_app. split; [by eapply IHl|by eapply IHr].
  - apply IH.
Qed.

Lemma cstr_app w l : 0 ∉ w -> cstr (w ++ 0 :: l) = w.
Proof.
  induction w as [|c w IH]; intros H; [done|]. simpl. destruct (Z.eqb_spec c 0) as [->|]; [destruct H; left|]. f_equal. apply IH.
  intros ?. apply H. by right.
Qed.

(** After the NULs are written the strings are the words. *)
Lemma cut_str buf' l w q e : nulled (line ++ 0 :: pad) buf' l -> Forall boundary l -> e ∈ l -> cut line w q e -> str buf' q = w.
Proof.
  intros [Hlen Hb] Hl He (Hw & Hq & Hwc & _). unfold str.
  assert (Hd : drop q buf' = w ++ 0 :: drop (S e) buf').
  { assert (Hlw : length w = (e - q)%nat) by (rewrite <-Hw, length_take, length_drop; lia).
    rewrite <-(take_drop (e - q) (drop q buf')) at 1. f_equal.
    - rewrite <-Hw. apply list_eq. intros i. destruct (decide (i < e - q)%nat) as [Hi|Hi].
      + rewrite !lookup_take_lt, !lookup_drop, Hb by done. rewrite decide_False.
        * rewrite lookup_app_l by lia. done.
        * intros Hin. rewrite Forall_forall in Hl. destruct (Hl _ Hin) as [_ Hbd].
          assert (Hwi : w !! i = line !! (q + i)%nat) by (rewrite <-Hw, lookup_take_lt, lookup_drop by done; done).
          destruct (lookup_lt_is_Some_2 line (q + i)) as [c Hc]; [lia|]. rewrite Hc in Hwi. rewrite Forall_forall in Hwc.
          specialize (Hwc c (list_elem_of_lookup_2 _ _ _ Hwi)). by rewrite (Hbd c Hc) in Hwc.
      + rewrite !lookup_take_ge by lia. done.
    - rewrite drop_drop. replace (q + (e - q))%nat with e by lia. apply drop_S. rewrite Hb, decide_True by done. done. }
  rewrite Hd. apply cstr_app. rewrite <-Hw. intros H0%elem_of_take. destruct H0 as (i & H0 & _). rewrite lookup_drop in H0.
  by apply Hnul, list_elem_of_lookup_2 with (q + i)%nat.
Qed.

Lemma resolve_spells buf' l c x : nulled (line ++ 0 :: pad) buf' l -> Forall boundary l -> ends c ⊆ l -> spells line c x -> resolve buf' c = x.
Proof.
  intros Hb Hl. revert x. induction c as [args|c IH q e m f|a IHl r IHr|a IHl r IHr|c IH]; intros [ws|x w m' f'|x y|x y|x]; simpl; try done.
  - intros Hsub H. f_equal. induction H as [|[q e] w args ws Hc _ IH]; simpl in *; [done|]. f_equal; [|apply IH; set_solver].
    eapply cut_str; [done|done| |done]. set_solver.
  - intros Hsub (Hs & Hc & <- & <-). f_equal; [apply IH; [set_solver|done]|]. eapply cut_str; [done|done| |done]. set_solver.
  - intros Hsub [H1 H2]. f_equal; [apply IHl|apply IHr]; set_solver.
  - intros Hsub [H1 H2]. f_equal; [apply IHl|apply IHr]; set_solver.
  - intros Hsub H. f_equal. by apply IH.
Qed.
End Strings.

(** ** [parsecmd] *)

Lemma strlen_line line pad : 0 ∉ line -> strlen (line ++ 0 :: pad) = Ok (Z.of_nat (length line)).
Proof. intros H. rewrite strlen_ok, cstr_app by (done || by apply elem_of_app; right; left). done. Qed.

(** After the line is parsed: the end must be reached, and the strings are terminated. *)
Definition finish (buf : list Z) (es : nat) (r : cmd * nat) : outcome (cmd * list Z) :=
  '(_, s) ← peek buf es [0] r.2;
  if negb (s =? es)%nat then Err (Panic "syntax") else
  b ← nulterminate buf r.1;
  Ok (r.1, b).

Section Parsecmd.
Context {MA : Malloc} (line pad : list Z).
Hypothesis Hnul : 0 ∉ line.

Lemma parsecmd_finish : parsecmd (line ++ 0 :: pad) =
  r ← parseline (line ++ 0 :: pad) (length line) (4 * length line + 4) 0%nat; finish (line ++ 0 :: pad) (length line) r.
Proof. unfold parsecmd. rewrite strlen_line by done. simpl. rewrite Nat2Z.id. by destruct (parseline _ _ _ _) as [[]|]. Qed.

Lemma finish_spec c x s ts : rep line s ts -> spells line c x ->
  match ts with
  | [] => exists buf', finish (line ++ 0 :: pad) (length line) (c, s) = Ok (c, buf') /\ resolve buf' c = x
  | _ => finish (line ++ 0 :: pad) (length line) (c, s) = Err (Panic "syntax")
  end.
Proof.
  intros Hr Hs. unfold finish. cbn [fst snd].
  assert (Hp : wp no_error (peek (line ++ 0 :: pad) (length line) ([] ++ [0])) (fun _ s' => rep line s' ts /\ (ts = [] -> s' = length line)) s).
  { unfold peek. pose proof Hr as [Hle Hlex]. apply wp_bind, wp_get, wp_bind.
    destruct (skip_white_rep line pad Hnul s Hle) as (s' & -> & Hs' & Hl' & Hw). eapply wp_lift; [done|]. apply wp_bind, wp_modify, wp_bind.
    assert (HQ : rep line s' ts /\ (ts = [] -> s' = length line)).
    { split; [split; [lia|congruence]|]. intros ->. by eapply (rep_nil line s). }
    destruct (drop s' line) as [|d l] eqn:Hd.
    - assert (Hse : s' = length line) by (assert (H : length (drop s' line) = 0%nat) by (by rewrite Hd); rewrite length_drop in H; lia).
      rewrite Hse, at_end in *. eapply wp_lift; [done|]. by apply wp_ret.
    - destruct (at_line line pad Hnul _ _ _ Hd) as (-> & _). eapply wp_lift; [done|]. destruct (d =? 0); [by apply wp_ret|].
      by eapply wp_lift. }
  apply wp_no_error in Hp as (b & s' & Hp & Hr' & Hse). change ([] ++ [0]) with [0] in Hp. rewrite Hp. cbn [mbind outcome_bind].
  destruct ts as [|t ts].
  - rewrite (Hse eq_refl), Nat.eqb_refl. cbn [negb]. pose proof (spells_ends line c x Hs) as He.
    destruct (nulterminate_spec c (line ++ 0 :: pad)) as (b' & -> & Hn).
    { eapply Forall_impl; [exact He|]. intros e [? _]. rewrite length_app. simpl. lia. }
    exists b'. split; [done|]. eapply resolve_spells; [exact Hnul|exact Hn|exact He|done|done].
  - destruct (Nat.eqb_spec s' (length line)) as [->|]; [|done]. destruct Hr' as [_ H]. by rewrite drop_all in H.
Qed.

Lemma rep_start : rep line 0 (lex line) /\ (4 * length (lex line) + 4 <= 4 * length line + 4)%nat.
Proof. split; [split; [lia|by rewrite drop_0]|]. pose proof (lex_length_le _ line (Nat.le_refl _)). lia. Qed.

Lemma parsecmd_sound : match parsecmd (line ++ 0 :: pad) with
  | Ok (c, buf') => g_line (lex line) (resolve buf' c)
  | Err e => panics e
  end.
Proof.
  rewrite parsecmd_finish. destruct rep_start as [Hr Hf].
  pose proof (sound_parse line pad Hnul (4 * length line + 4) 0%nat _ Hr Hf) as H. unfold wp in H.
  destruct (parseline _ _ _ _) as [[c s]|e]; [|done]. destruct H as (ts1 & ts2 & x & Hts & Hg & Hr' & Hs).
  pose proof (finish_spec c x s ts2 Hr' Hs) as Hfin. cbn [mbind outcome_bind]. destruct ts2 as [|t ts2].
  - destruct Hfin as (buf' & -> & ->). by rewrite Hts, app_nil_r.
  - rewrite Hfin. left. by eexists.
Qed.

Lemma parsecmd_complete {MO : MallocOk} x : g_line (lex line) x -> exists c buf', parsecmd (line ++ 0 :: pad) = Ok (c, buf') /\ resolve buf' c = x.
Proof.
  intros Hg. rewrite parsecmd_finish. destruct rep_start as [Hr Hf].
  assert (Hr0 : rep line 0 (lex line ++ [])) by (by rewrite app_nil_r).
  destruct (wp_no_error _ _ _ (complete_parse line pad Hnul _ _ Hg 0%nat [] (4 * length line + 4)%nat Hr0 (or_introl eq_refl)
    ltac:(by rewrite app_nil_r))) as (c & s & -> & Hr' & Hs).
  destruct (finish_spec c x s [] Hr' Hs) as (buf' & Hfin & Hx). by exists c, buf'.
Qed.
End Parsecmd.

(** C8. [parsecmd] accepts exactly the lines of the shell's grammar: a line of the
    grammar gives its command, with every string terminated in place and equal to
    its word; what it returns is what the grammar gives; any other line is
    answered with a syntax error, never with a crash or a loop.  This is when
    [malloc] has memory for the command; when it has not, what is returned is
    still what the grammar gives. *)
Theorem parsecmd_correct {MA : Malloc} line pad : 0 ∉ line ->
  (forall c buf', parsecmd (line ++ 0 :: pad) = Ok (c, buf') -> g_line (lex line) (resolve buf' c)) /\
  (MallocOk ->
  (forall x, g_line (lex line) x -> exists c buf', parsecmd (line ++ 0 :: pad) = Ok (c, buf') /\ resolve buf' c = x) /\
  ((exists c buf', parsecmd (line ++ 0 :: pad) = Ok (c, buf')) \/ exists msg, parsecmd (line ++ 0 :: pad) = Err (Panic msg))).
Proof.
  intros Hnul. pose proof (parsecmd_sound line pad Hnul) as Hs. split.
  { intros c buf' Hrun. by rewrite Hrun in Hs. }
  intros MO. split; [intros x; by apply parsecmd_complete|].
  destruct (parsecmd (line ++ 0 :: pad)) as [[c buf']|e]; [left; by eexists _, _|]. right.
  destruct Hs as [[msg ->]|(_ & s & c & Hm)]; [by eexists|]. by rewrite malloc_succeeds in Hm.
Qed.

(** ** Printing *)

Definition good_word (w : list Z) : Prop := w <> [] /\ Forall (fun c => wordc c = true) w /\ 0 ∉ w.

(** The commands that lines can stand for. *)
Fixpoint printable (x : scmd) : Prop :=
  match x with
  | SExec ws => Forall good_word ws /\ (length ws < MAXARGS)%nat
  | SRedir x w m f => printable x /\ good_word w /\ ((m, f) = (O_RDONLY, 0) \/ (m, f) = (Z.lor O_WRONLY O_CREATE, 1))
  | SPipe x y | SList x y => printable x /\ printable y
  | SBack x => printable x
  end.

Definition block_toks (ts : list token) : list token := Sym 40 :: ts ++ [Sym 41].

(** The tokens of a command, with every subcommand in parentheses. *)
Fixpoint toks (x : scmd) : list token :=
  match x with
  | SExec ws => Word <$> ws
  | SRedir x w m f => block_toks (toks x) ++ [Sym (if f =? 0 then 60 else 62); Word w]
  | SPipe x y => block_toks (toks x) ++ Sym 124 :: block_toks (toks y)
  | SList x y => block_toks (toks x) ++ Sym 59 :: block_toks (toks y)
  | SBack x => block_toks (toks x) ++ [Sym 38]
  end.

Definition print_tok (t : token) : list Z :=
  match t with Word w => w | Sym c => [c] | Append => [62; 62] end ++ [32].

Definition print (x : scmd) : list Z := toks x ≫= print_tok.

Lemma block_exec x rs ts' : g_line (toks x) x -> g_redirs ts' rs -> g_exec (block_toks (toks x) ++ ts') (wrap x rs).
Proof. intros. unfold block_toks. rewrite <-app_comm_cons, <-app_assoc. by apply ge_block. Qed.

Lemma items_words ws : g_items (Word <$> ws) ws [].
Proof. induction ws; simpl; by constructor. Qed.

Lemma toks_grammar x : printable x -> g_line (toks x) x.
Proof.
  assert (Hb : forall x, g_line (toks x) x -> g_exec (block_toks (toks x)) x).
  { intros y Hy. pose proof (block_exec y [] [] Hy gr_nil) as H. by rewrite app_nil_r in H. }
  induction x as [ws|x IH w m f|x IHx y IHy|x IHx y IHy|x IH]; cbn [toks printable].
  - intros [_ Hn]. apply gl_one, gp_exec, (ge_items _ ws []); [apply items_words|done].
  - intros (Hx & _ & Hmf). apply gl_one, gp_exec, (block_exec x [(w, m, f)]); [by apply IH|]. constructor; [|constructor].
    by destruct Hmf as [[= -> ->]|[= -> ->]].
  - intros [Hx Hy]. apply gl_one, gp_pipe; [by apply Hb, IHx|]. by apply gp_exec, Hb, IHy.
  - intros [Hx Hy]. apply (gl_list 0); [by apply gp_exec, Hb, IHx|]. by apply gl_one, gp_exec, Hb, IHy.
  - intros Hx. apply (gl_pipe 1). by apply gp_exec, Hb, IH.
Qed.

(** The tokens that [print] uses. *)
Definition plain (t : token) : Prop := match t with Word w => good_word w | Sym c => symbol c = true | Append => False end.

Lemma toks_plain x : printable x -> Forall plain (toks x).
Proof.
  assert (Hb : forall ts, Forall plain ts -> Forall plain (block_toks ts)).
  { intros ts H. unfold block_toks. constructor; [done|]. apply Forall_app. split; [done|]. by repeat constructor. }
  induction x as [ws|x IH w m f|x IHx y IHy|x IHx y IHy|x IH]; cbn [toks printable].
  - intros [H _]. by apply Forall_fmap.
  - intros (Hx & Hw & Hmf). apply Forall_app. split; [by apply Hb, IH|]. constructor; [by destruct (f =? 0)|]. constructor; [exact Hw|constructor].
  - intros [Hx Hy]. apply Forall_app. split; [by apply Hb, IHx|]. constructor; [done|by apply Hb, IHy].
  - intros [Hx Hy]. apply Forall_app. split; [by apply Hb, IHx|]. constructor; [done|by apply Hb, IHy].
  - intros Hx. apply Forall_app. split; [by apply Hb, IH|]. by repeat constructor.
Qed.

Lemma prefix_len_app p w c l : Forall (fun c => p c = true) w -> p c = false -> prefix_len p (w ++ c :: l) = length w.
Proof. induction 1 as [|d w Hd _ IH]; intros Hc; simpl; [by rewrite Hc|]. rewrite Hd. f_equal. by apply IH. Qed.

Lemma lex_print_tok t l : plain t -> lex (print_tok t ++ l) = t :: lex l.
Proof.
  unfold print_tok. rewrite <-app_assoc. destruct t as [w|c|]; cbn [plain]; [|intros Hc|done].
  - intros (Hne & Hw & _). destruct w as [|c w]; [done|]. change ([32] ++ l) with (32 :: l).
    assert (Hc : wordc c = true) by (by inversion Hw). rewrite <-app_comm_cons, lex_word, app_comm_cons by done.
    rewrite prefix_len_app by done. by rewrite take_app_length, drop_app_length.
  - cbn [app lex]. assert (Hw : white c = false).
    { apply bool_decide_eq_true in Hc. apply bool_decide_eq_false. intros H. set_solver. }
    by rewrite Hw, Hc, andb_false_r.
Qed.

Lemma lex_print ts : Forall plain ts -> lex (ts ≫= print_tok) = ts.
Proof. induction 1 as [|t ts Ht _ IH]; [done|]. rewrite bind_cons, lex_print_tok by done. by rewrite IH. Qed.

Lemma print_nul ts : Forall plain ts -> 0 ∉ ts ≫= print_tok.
Proof.
  intros H (t & H0 & Hin)%list_elem_of_bind. rewrite Forall_forall in H. specialize (H _ Hin).
  apply elem_of_app in H0 as [H0|H0%list_elem_of_singleton]; [|done]. destruct t as [w|c|]; simpl in H; [| |done].
  - by destruct H as (_ & _ & H).
  - apply list_elem_of_singleton in H0 as <-. done.
Qed.

(** C36. Printing and parsing: the shell reads back every command that is printed
    with its subcommands in parentheses. *)
Theorem print_parsecmd {MA : Malloc} {MO : MallocOk} x pad : printable x ->
  exists c buf', parsecmd (print x ++ 0 :: pad) = Ok (c, buf') /\ resolve buf' c = x.
Proof.
  intros Hx. pose proof (toks_plain x Hx) as Hp. refine (parsecmd_complete (print x) pad _ x _); [by apply print_nul|].
  unfold print. rewrite lex_print by done. by apply toks_grammar.
Qed.

(** An allocator that has memory. *)
#[export] Instance demo_malloc : Malloc := fun _ _ => true.
#[export] Instance demo_malloc_ok : MallocOk.
Proof. done. Qed.

(** [ls<a|(b;c)&]. *)
Definition demo_line : list Z := [108; 115; 60; 97; 124; 40; 98; 59; 99; 41; 38].
Definition demo_cmd : scmd :=
  SBack (SPipe (SRedir (SExec [[108; 115]]) [97] O_RDONLY 0) (SList (SExec [[98]]) (SExec [[99]]))).

Lemma demo_line_nul : 0 ∉ demo_line.
Proof. by refine (bool_decide_eq_true_1 _ _); vm_compute. Qed.

Lemma parsecmd_correct_witness : 0 ∉ demo_line /\ g_line (lex demo_line) demo_cmd.
Proof.
  split; [exact demo_line_nul|]. destruct (parsecmd_correct demo_line [0; 0] demo_line_nul) as [H _].
  remember (parsecmd (demo_line ++ 0 :: [0; 0])) as r eqn:Er. vm_compute in Er. subst r. exact (H _ _ eq_refl).
Defined.

Lemma print_parsecmd_witness : printable demo_cmd /\
  exists c buf', parsecmd (print demo_cmd ++ 0 :: []) = Ok (c, buf') /\ resolve buf' c = demo_cmd.
Proof.
  assert (H : printable demo_cmd).
  { assert (Hw : forall c, wordc c = true -> 0 <> c -> good_word [c]).
    { intros c Hc H0. split_and!; [done|by constructor|]. by intros ?%list_elem_of_singleton. }
    assert (H2 : good_word [108; 115]) by (split_and!; [done|by repeat constructor|by refine (bool_decide_eq_true_1 _ _); vm_compute]).
    simpl. split_and!; try (by apply Hw); try (unfold MAXARGS; simpl; lia); try (by left); by repeat (constructor; auto). }
  split; [exact H|]. exact (print_parsecmd demo_cmd [] H).
Defined.
