(* ===== verification/ShellRun.v ===== *)
(** * The processes a command starts, and the shell's loop

    Which descriptors the programs of a command run with, how a pipeline is
    connected, and that no input makes the shell crash or loop. *)

From stdpp Require Import base numbers list sets strings.
From S2P Require Import Prelude Strings Syscall Shell ShellLex ShellParse ShellTheorems.

Open Scope Z_scope.

(** ** Descriptors *)

(** [P] holds of the arguments and the descriptors at every [exec], whatever the
    system calls return. *)
Fixpoint all_execs (P : list (list Z) -> fdtab -> Prop) (b : behaviour) : Prop :=
  match b with
  | Exit | Stop _ => True
  | Print _ _ k | Wait k | Builtin _ k => all_execs P k
  | Exec _ argv t k => P argv t /\ all_execs P k
  | Open _ _ a b | MakePipe a b | Chdir _ a b => all_execs P a /\ all_execs P b
  | Fork a b c => all_execs P a /\ all_execs P b /\ all_execs P c
  end.

(** The programs that run when every call succeeds. *)
Fixpoint started (b : behaviour) : list (list (list Z) * fdtab) :=
  match b with
  | Exit | Stop _ => []
  | Print _ _ k | Wait k | Builtin _ k => started k
  | Exec _ argv t _ => [(argv, t)]
  | Open _ _ _ k | MakePipe _ k | Chdir _ _ k => started k
  | Fork _ b c => started b ++ started c
  end.

(** Only the standard descriptors are open. *)
Definition three (i o e : handle) (n : nat) : fdtab := Some i :: Some o :: Some e :: replicate n None.

(** The redirections of the parser: descriptors 0 and 1. *)
Fixpoint std_redirs (c : cmd) : Prop :=
  match c with
  | EXEC _ => True
  | REDIR c _ _ _ fd => (fd = 0 \/ fd = 1) /\ std_redirs c
  | PIPE l r | LIST l r => std_redirs l /\ std_redirs r
  | BACK c => std_redirs c
  end.

Section Descriptors.
Context (buf : list Z) (e : handle) (n : nat).

(** The program has the three standard descriptors, and no other. *)
Definition only_three (argv : list (list Z)) (t : fdtab) : Prop := exists i o, t = three i o e (S (S n)).

Lemma runcmd_three c : std_redirs c -> forall place i o, all_execs only_three (runcmd buf c place (three i o e (S (S n)))).
Proof.
  induction c as [args|c IH q q' m fd|l IHl r IHr|l IHl r IHr|c IH]; cbn [std_redirs]; intros Hs place i o.
  - destruct args as [|[q q'] args]; [done|]. simpl. split; [by exists i, o|done].
  - destruct Hs as [[-> | ->] Hs]; simpl; (split; [done|]).
    + by apply (IH Hs place (Opened (str buf q) m) o).
    + by apply (IH Hs place i (Opened (str buf q) m)).
  - destruct Hs as [Hl Hr]. simpl. split_and!; try done.
    + by apply (IHl Hl (place ++ [false]) i (WriteEnd place)).
    + by apply (IHr Hr (place ++ [true]) (ReadEnd place) o).
  - destruct Hs as [Hl Hr]. simpl. split_and!; try done; [by apply IHl|by apply IHr].
  - simpl. split_and!; try done. by apply IH.
Qed.

(** The first program reads [i], each writes to a pipe that the next one reads,
    and the last writes [o]. *)
Fixpoint wires (w : list (list Z)) (l : list (list (list Z))) (place : list bool) (i o : handle) : list (list (list Z) * fdtab) :=
  match l with
  | [] => [(w, three i o e (S (S n)))]
  | d :: l => (w, three i (WriteEnd place) e (S (S n))) :: wires d l (place ++ [true]) (ReadEnd place) o
  end.
End Descriptors.

(** A pipeline of programs. *)
Fixpoint pipeline (w : list (list Z)) (l : list (list (list Z))) : scmd :=
  match l with
  | [] => SExec w
  | d :: l => SPipe (SExec w) (pipeline d l)
  end.

Lemma runcmd_exec buf e n c w place i o : resolve buf c = SExec w -> w <> [] ->
  started (runcmd buf c place (three i o e n)) = [(w, three i o e n)].
Proof. destruct c as [[|[q q'] args]| | | |]; try done; intros [= <-]; done. Qed.

Lemma runcmd_pipeline buf e n l : forall c w place i o, resolve buf c = pipeline w l -> Forall (fun a => a <> []) (w :: l) ->
  started (runcmd buf c place (three i o e (S (S n)))) = wires e n w l place i o.
Proof.
  induction l as [|d l IH]; intros c w place i o Hc [Hw Hl]%Forall_cons; [by apply runcmd_exec|].
  destruct c as [| |c r| |]; try done. injection Hc as Hc Hr. simpl. rewrite app_nil_r.
  etransitivity; [apply (f_equal2 app)|].
  - exact (runcmd_exec buf e (S (S n)) c w (place ++ [false]) i (WriteEnd place) Hc Hw).
  - exact (IH r d (place ++ [true]) (ReadEnd place) o Hr Hl).
  - done.
Qed.

(** ** Lines *)

Fixpoint pipe_toks (w : list (list Z)) (l : list (list (list Z))) : list token :=
  match l with
  | [] => Word <$> w
  | d :: l => (Word <$> w) ++ Sym 124 :: pipe_toks d l
  end.

Lemma pipe_grammar l : forall w, Forall (fun a => length a < MAXARGS)%nat (w :: l) -> g_pipe (pipe_toks w l) (pipeline w l).
Proof.
  induction l as [|d l IH]; intros w [Hw Hl]%Forall_cons; simpl; [apply gp_exec|apply gp_pipe];
    try (by apply (ge_items _ w []); [apply items_words|]). by apply IH.
Qed.

(** The redirections of a line are of descriptors 0 and 1. *)
Fixpoint std (x : scmd) : Prop :=
  match x with
  | SExec _ => True
  | SRedir x _ _ fd => (fd = 0 \/ fd = 1) /\ std x
  | SPipe x y | SList x y => std x /\ std y
  | SBack x => std x
  end.

Lemma resolve_std buf c : std (resolve buf c) -> std_redirs c.
Proof. induction c; simpl; intuition. Qed.

Lemma wrap_std x rs : std x -> Forall (fun r : redir => r.2 = 0 \/ r.2 = 1) rs -> std (wrap x rs).
Proof. intros Hx H. revert x Hx. induction H as [|r rs Hr _ IH]; intros x Hx; simpl; [done|]. by apply IH. Qed.

Lemma kind_std t m f : kind t = Some (m, f) -> f = 0 \/ f = 1.
Proof. destruct t as [|c|]; simpl; [done| |intros [= _ <-]; by right]. repeat case_match; intros [= _ <-]; auto. Qed.

Lemma redirs_std ts rs : g_redirs ts rs -> Forall (fun r : redir => r.2 = 0 \/ r.2 = 1) rs.
Proof. induction 1; constructor; [by eapply kind_std|done]. Qed.

Lemma items_std ts ws rs : g_items ts ws rs -> Forall (fun r : redir => r.2 = 0 \/ r.2 = 1) rs.
Proof. induction 1; try done; constructor; [by eapply kind_std|done]. Qed.

Lemma backs_std n x : std x -> std (backs n x).
Proof. induction n; simpl; auto. Qed.

Lemma grammar_std ts x : g_line ts x -> std x.
Proof.
  pose proof (g_mutual (fun ts x _ => std x) (fun ts x _ => std x) (fun ts x _ => std x)) as H. apply H; clear H; intros; simpl; auto using backs_std.
  - apply wrap_std; [done|by eapply items_std].
  - apply wrap_std; [done|by eapply redirs_std].
Qed.

(** C32. Whatever line is typed and whatever the system calls return, every program
    the shell starts for it has its standard input, output and error output open
    and no other descriptor: no end of a pipe stays open in a process that does
    not use it, so readers see the end of their input. *)
Theorem runcmd_descriptors {MA : Malloc} line pad c buf' i o e n : 0 ∉ line -> parsecmd (line ++ 0 :: pad) = Ok (c, buf') ->
  all_execs (fun _ t => exists i' o', t = three i' o' e (S (S n))) (runcmd buf' c [] (three i o e (S (S n)))).
Proof.
  intros Hnul Hrun. pose proof (parsecmd_sound line pad Hnul) as Hg. rewrite Hrun in Hg. apply (runcmd_three buf' e n).
  by eapply resolve_std, grammar_std.
Qed.

(** C35. A pipeline is connected as written: the shell starts one process per
    program, with its words as arguments; each writes to the pipe that the next
    one reads, the first reads the shell's input and the last writes its output. *)
Theorem pipeline_wired {MA : Malloc} {MO : MallocOk} line pad w l i o e n : 0 ∉ line -> lex line = pipe_toks w l ->
  Forall (fun a => 0 < length a < MAXARGS)%nat (w :: l) ->
  exists c buf', parsecmd (line ++ 0 :: pad) = Ok (c, buf') /\
    started (runcmd buf' c [] (three i o e (S (S n)))) = wires e n w l [] i o.
Proof.
  intros Hnul Hlex Hl. assert (Hg : g_line (lex line) (pipeline w l)).
  { rewrite Hlex. apply gl_one, pipe_grammar. eapply Forall_impl; [exact Hl|]. simpl. lia. }
  destruct (parsecmd_complete line pad Hnul _ Hg) as (c & buf' & Hrun & Hc). exists c, buf'. split; [done|].
  apply runcmd_pipeline; [done|]. eapply Forall_impl; [exact Hl|]. intros [] ?; simpl in *; [lia|done].
Qed.

(** ** The loop *)

(** Whatever the system calls return, a crash or an unfinished loop anywhere in
    the tree satisfies [P]. *)
Fixpoint stops_only (P : error -> Prop) (b : behaviour) : Prop :=
  match b with
  | Exit => True
  | Stop e => P e
  | Print _ _ k | Wait k | Builtin _ k | Exec _ _ _ k => stops_only P k
  | Open _ _ a b | MakePipe a b | Chdir _ a b => stops_only P a /\ stops_only P b
  | Fork a b c => stops_only P a /\ stops_only P b /\ stops_only P c
  end.

(** The process itself does not crash or loop; those it forks do so only with
    [P]. *)
Fixpoint survives (P : error -> Prop) (b : behaviour) : Prop :=
  match b with
  | Exit => True
  | Stop _ => False
  | Print _ _ k | Wait k | Builtin _ k | Exec _ _ _ k => survives P k
  | Open _ _ a b | MakePipe a b | Chdir _ a b => survives P a /\ survives P b
  | Fork a b c => survives P a /\ stops_only P b /\ survives P c
  end.

(** The crash of a constructor that has no memory. *)
Definition no_memory {MA : Malloc} (e : error) : Prop := e = Fault /\ exists s c, malloc_ok s c = false.

Lemma stops_mono (P Q : error -> Prop) b : (forall e, P e -> Q e) -> stops_only P b -> stops_only Q b.
Proof. intros H. induction b; simpl; try done; intuition auto. Qed.

Lemma survives_mono (P Q : error -> Prop) b : (forall e, P e -> Q e) -> survives P b -> survives Q b.
Proof. intros H. induction b; simpl; try done; intuition eauto using stops_mono. Qed.

Lemma runcmd_stops P buf c : forall place t, stops_only P (runcmd buf c place t).
Proof.
  induction c as [args|c IH q q' m fd|l IHl r IHr|l IHl r IHr|c IH]; intros place t; simpl.
  - by destruct args as [|[q q'] args].
  - destruct (take_fd _ _) as [[]|]; simpl; [by split; [|apply IH]|done].
  - destruct (take_fd _ _) as [[]|]; simpl; [|done]. destruct (take_fd _ _) as [[]|]; simpl; [|done]. split_and!; done || apply IHl || apply IHr.
  - split_and!; done || apply IHl || apply IHr.
  - split_and!; done || apply IH.
Qed.

Lemma cstr_split s : terminated s -> exists w pad, s = w ++ 0 :: pad /\ 0 ∉ w.
Proof. intros (w & pad & Hs & H0)%list_elem_of_split_l. by exists w, pad. Qed.

Lemma terminated_drop n s : terminated s -> (n <= length (cstr s))%nat -> terminated (drop n s).
Proof.
  intros (w & pad & -> & H0)%cstr_split Hn. rewrite cstr_app in Hn by done. unfold terminated. rewrite drop_app_le by done.
  apply elem_of_app. right. left.
Qed.

(** A comparison of strings returns; when it finds no difference and one string
    has the [n] bytes, so has the other. *)
Lemma sh_strncmp_ok n p q : terminated p -> terminated q -> exists r, sh_strncmp p q n = Ok r /\
  (r = 0 -> (n <= length (cstr p))%nat <-> (n <= length (cstr q))%nat).
Proof.
  intros Hp Hq. destruct (strncmp_ok p q n) as (r & Hr & H0); [by left|by left|]. exists r. split; [done|].
  intros He%H0. apply (f_equal length) in He. rewrite !length_take in He. lia.
Qed.

Lemma chomp_ok p : terminated p -> exists p', chomp p = Ok p' /\ terminated p'.
Proof.
  induction p as [|c p IH]; intros Hp; [by apply elem_of_nil in Hp|].
  destruct (sh_strncmp_ok 1 (c :: p) [32; 0] Hp) as (r & Hr & H0); [right; left|].
  cbn [chomp]. rewrite Hr. cbn [mbind outcome_bind]. destruct (Z.eqb_spec r 0) as [He|_]; [|by exists (c :: p)].
  apply IH. apply (terminated_drop 1 (c :: p)); [done|]. apply H0; [done|]. simpl. lia.
Qed.

(** The comparison with a name, and the rest of the string after it. *)
Lemma sh_name_ok name p : 0 ∉ name -> terminated p -> exists r, sh_strncmp (name ++ [0]) p (length name) = Ok r /\
  (r = 0 -> terminated (drop (length name) p)).
Proof.
  intros Hn Hp. destruct (sh_strncmp_ok (length name) (name ++ [0]) p) as (r & Hr & H0); [apply elem_of_app; right; left|done|].
  exists r. split; [done|]. intros He. apply terminated_drop; [done|]. apply H0; [done|]. by rewrite cstr_app.
Qed.

Lemma setbuiltin_ok p : terminated (drop 4 p) -> exists b, setbuiltin p = Ok b.
Proof.
  intros Hp. unfold setbuiltin. destruct (chomp_ok _ Hp) as (p1 & -> & H1). cbn [mbind outcome_bind].
  destruct (sh_name_ok [117; 105; 100] p1) as (r & Hr & Hd); [by set_unfold; lia|done|]. change ([117; 105; 100] ++ [0]) with uid_str in Hr.
  cbn [length] in Hr, Hd. rewrite Hr. cbn [mbind outcome_bind]. destruct (Z.eqb_spec r 0) as [He|_].
  { destruct (chomp_ok _ (Hd He)) as (p2 & -> & _). by eexists. }
  destruct (sh_name_ok [103; 105; 100] p1) as (r' & Hr' & Hd'); [by set_unfold; lia|done|]. change ([103; 105; 100] ++ [0]) with gid_str in Hr'.
  cbn [length] in Hr', Hd'. rewrite Hr'. cbn [mbind outcome_bind]. destruct (Z.eqb_spec r' 0) as [He|_]; [|by eexists].
  destruct (chomp_ok _ (Hd' He)) as (p2 & -> & _). by eexists.
Qed.

Lemma getbuiltin_ok p : terminated (drop 4 p) -> exists b, getbuiltin p = Ok b.
Proof.
  intros Hp. unfold getbuiltin. destruct (chomp_ok _ Hp) as (p1 & -> & H1). cbn [mbind outcome_bind].
  destruct (sh_name_ok [117; 105; 100] p1) as (r & Hr & Hd); [by set_unfold; lia|done|]. change ([117; 105; 100] ++ [0]) with uid_str in Hr.
  cbn [length] in Hr. rewrite Hr. cbn [mbind outcome_bind]. destruct (Z.eqb_spec r 0); [by eexists|].
  destruct (sh_name_ok [103; 105; 100] p1) as (r' & Hr' & Hd'); [by set_unfold; lia|done|]. change ([103; 105; 100] ++ [0]) with gid_str in Hr'.
  cbn [length] in Hr'. rewrite Hr'. cbn [mbind outcome_bind]. destruct (Z.eqb_spec r' 0); by eexists.
Qed.

Lemma sh_prefix_ok name p : 0 ∉ name -> terminated p -> exists r, sh_strncmp p (name ++ [0]) (length name) = Ok r /\
  (r = 0 -> terminated (drop (length name) p)).
Proof.
  intros Hn Hp. destruct (sh_strncmp_ok (length name) p (name ++ [0])) as (r & Hr & H0); [done|apply elem_of_app; right; left|].
  exists r. split; [done|]. intros He. apply terminated_drop; [done|]. apply H0; [done|]. by rewrite cstr_app.
Qed.

Lemma dobuiltin_ok p : terminated p -> exists bs, dobuiltin p = Ok bs.
Proof.
  intros Hp. unfold dobuiltin, fdt. cbn [dobuiltin_loop].
  destruct (sh_prefix_ok [95; 115; 101; 116] p) as (r & -> & Hd); [by set_unfold; lia|done|]. cbn [mbind outcome_bind length] in *.
  destruct (sh_prefix_ok [95; 103; 101; 116] p) as (r' & Hr' & Hd'); [by set_unfold; lia|done|]. cbn [length] in *.
  assert (H1 : exists b, (if r =? 0 then x ← setbuiltin p; Ok [x] else Ok []) = Ok b).
  { destruct (Z.eqb_spec r 0) as [He|_]; [|by eexists]. destruct (setbuiltin_ok p (Hd He)) as [b ->]. by eexists. }
  assert (H2 : exists b, (if r' =? 0 then x ← getbuiltin p; Ok [x] else Ok []) = Ok b).
  { destruct (Z.eqb_spec r' 0) as [He|_]; [|by eexists]. destruct (getbuiltin_ok p (Hd' He)) as [b ->]. by eexists. }
  destruct H1 as [b1 ->], H2 as [b2 H2]. cbn [mbind outcome_bind]. rewrite Hr'. cbn [mbind outcome_bind]. rewrite H2. by eexists.
Qed.

Lemma command_survives {MA : Malloc} t buf k : terminated buf -> survives no_memory k -> survives no_memory (command t buf k).
Proof.
  intros Hb Hk. unfold command. case_bool_decide as Hcd.
  - rewrite strlen_ok by done. cbn [mbind outcome_bind]. destruct (cstr_split _ Hb) as (w & pad & -> & H0). rewrite cstr_app by done.
    destruct (put_nul_spec (w ++ 0 :: pad) (Z.to_nat (Z.of_nat (length w) - 1))) as (b & -> & _); [rewrite length_app; simpl; lia|].
    by split.
  - case_bool_decide; [destruct (dobuiltin_ok buf Hb) as [bs ->]; simpl; by induction bs|].
    simpl. split_and!; [done| |done]. destruct (cstr_split _ Hb) as (w & pad & -> & H0).
    pose proof (parsecmd_sound w pad H0) as Hp. destruct (parsecmd (w ++ 0 :: pad)) as [[c b]|e]; simpl; [apply runcmd_stops|].
    destruct Hp as [[msg ->]|[-> Hm]]; [done|]. by split.
Qed.

Lemma gets_loop_spec n input : let '(l, rest) := gets_loop n input in
  (length l <= n)%nat /\ (length rest + length l = length input)%nat /\ (n <> 0%nat -> input <> [] -> head l = head input /\ l <> []).
Proof.
  revert input. induction n as [|n IH]; intros [|c input]; cbn [gets_loop]; simpl; try (split_and!; done || lia).
  destruct ((c =? 10) || (c =? 13)); [simpl; split_and!; try done; lia|]. specialize (IH input). destruct (gets_loop n input) as [l rest].
  destruct IH as (H1 & H2 & _). simpl. split_and!; try done; lia.
Qed.

Lemma main_loop_survives {MA : Malloc} t fuel : forall input, (length input <= fuel)%nat -> survives no_memory (main_loop fuel t input).
Proof.
  induction fuel as [|fuel IH]; intros input Hf; cbn [main_loop survives]; unfold getcmd; pose proof (gets_loop_spec (NBUF_SH - 1) input) as Hg.
  - destruct input; [done|simpl in Hf; lia].
  - destruct (gets_loop (NBUF_SH - 1) input) as [l rest]. destruct Hg as (H1 & H2 & H3). case_bool_decide as Hh; [done|].
    destruct input as [|c input].
    { destruct Hh. destruct l; [|simpl in H2; lia]. by destruct (NBUF_SH - length [])%nat eqn:He. }
    destruct (H3 ltac:(done) ltac:(done)) as [_ Hl]. apply command_survives.
    + apply elem_of_app. right. destruct (NBUF_SH - length l)%nat eqn:He; [unfold NBUF_SH in *; lia|left].
    + apply IH. destruct l; [done|]. simpl in *. lia.
Qed.

Lemma lowest_insert t h : forall m m', lowest t = Some m -> lowest (<[m := Some h]> t) = Some m' -> (m < m')%nat.
Proof.
  induction t as [|[x|] t IH]; intros m m' Hm Hm'; simpl in *; [done| |].
  - apply fmap_Some in Hm as (k & Hk & ->). simpl in Hm'. apply fmap_Some in Hm' as (k' & Hk' & ->). specialize (IH _ _ Hk Hk'). lia.
  - injection Hm as <-. simpl in Hm'. apply fmap_Some in Hm' as (k' & _ & ->). lia.
Qed.

Lemma open_console_survives P k : (forall t, survives P (k t)) -> forall fuel t, (forall m, lowest t = Some m -> 3 <= m + fuel)%nat -> survives P (open_console fuel t k).
Proof.
  intros Hk. induction fuel as [|fuel IH]; intros t Hm; cbn [open_console]; unfold take_fd;
    (destruct (lowest t) as [m|] eqn:Hl; [|apply Hk]); cbn [mbind option_bind survives]; (split; [apply Hk|]); specialize (Hm m eq_refl);
    (destruct (Nat.leb_spec 3 m); [apply Hk|]); [lia|]. apply IH. intros m' Hm'. pose proof (lowest_insert _ _ _ _ Hl Hm'). lia.
Qed.

(** C37. No input makes the shell crash or loop: whatever bytes it reads, whatever
    the system calls return and whether or not there is memory, every line is run,
    answered with a message, or ends the shell.  The processes it forks crash only
    where [malloc] has no memory for a command, and then alone: with enough memory
    none of them does. *)
Theorem main_never_stops {MA : Malloc} t input : survives no_memory (main t input) /\
  (MallocOk -> survives (fun _ => False) (main t input)).
Proof.
  assert (H : survives no_memory (main t input)).
  { apply open_console_survives; [|lia]. intros t'. by apply main_loop_survives. }
  split; [exact H|]. intros MO. eapply survives_mono; [|exact H]. intros e (_ & s & c & Hm). by rewrite malloc_succeeds in Hm.
Qed.

Lemma lex_word_app w l : good_word w -> match l with c :: _ => wordc c = false | [] => True end -> lex (w ++ l) = Word w :: lex l.
Proof.
  intros (Hne & Hw & _) Hl. destruct w as [|c w]; [done|]. assert (Hc : wordc c = true) by (by inversion Hw).
  rewrite <-app_comm_cons, lex_word, app_comm_cons by done. assert (Hp : prefix_len wordc ((c :: w) ++ l) = length (c :: w)).
  { destruct l as [|d l]; [|by apply prefix_len_app]. rewrite app_nil_r. clear Hc Hne. induction Hw as [|x w' Hx _ IH]; [done|]. simpl. rewrite Hx. by rewrite IH. }
  by rewrite Hp, take_app_length, drop_app_length.
Qed.

Lemma lex_gt l : head l <> Some 62 -> lex (62 :: l) = Sym 62 :: lex l.
Proof.
  intros Hl. destruct l as [|d l]; [done|].
  change (lex (62 :: d :: l)) with (if (62 =? 62) && (d =? 62) then Append :: lex l else Sym 62 :: lex (d :: l)).
  destruct (Z.eqb_spec d 62) as [->|]; [done|]. by rewrite andb_false_r.
Qed.

(** The line [w sym v]. *)
Lemma parse_redirected {MA : Malloc} {MO : MallocOk} w v sym t pad : good_word w -> good_word v -> kind t = Some (Z.lor O_WRONLY O_CREATE, 1) -> 0 ∉ sym ->
  wordc (default 0 (head sym)) = false -> (forall l, good_word v -> lex (sym ++ v ++ l) = t :: lex (v ++ l)) ->
  exists c buf', parsecmd ((w ++ sym ++ v) ++ 0 :: pad) = Ok (c, buf') /\ resolve buf' c = SRedir (SExec [w]) v (Z.lor O_WRONLY O_CREATE) 1.
Proof.
  intros Hw Hv Hk H0 Hh Hlex. refine (parsecmd_complete _ _ _ _ _).
  - intros [H|[H|H]%elem_of_app]%elem_of_app; [by destruct Hw as (_ & _ & ?)|done|by destruct Hv as (_ & _ & ?)].
  - rewrite lex_word_app by (done || by destruct sym). specialize (Hlex [] Hv). rewrite app_nil_r in Hlex. rewrite Hlex.
    replace (lex v) with (lex (v ++ [])) by (by rewrite app_nil_r). rewrite (lex_word_app v []) by done.
    apply gl_one, gp_exec, (ge_items _ [w] [(v, Z.lor O_WRONLY O_CREATE, 1)]); [|unfold MAXARGS; simpl; lia]. by repeat constructor.
Qed.

(** [w >> v] is parsed to the same command as [w > v]: the file is opened for
    writing from its start, and nothing is appended. *)
Theorem append_is_overwrite {MA : Malloc} {MO : MallocOk} w v pad : good_word w -> good_word v ->
  exists c1 b1 c2 b2, parsecmd ((w ++ [62; 62] ++ v) ++ 0 :: pad) = Ok (c1, b1) /\ parsecmd ((w ++ [62] ++ v) ++ 0 :: pad) = Ok (c2, b2) /\
    resolve b1 c1 = resolve b2 c2.
Proof.
  intros Hw Hv. destruct (parse_redirected w v [62; 62] Append pad) as (c1 & b1 & H1 & R1); try done; [by set_unfold; lia|].
  destruct (parse_redirected w v [62] (Sym 62) pad) as (c2 & b2 & H2 & R2); try done; [by set_unfold; lia| |].
  - intros l (Hne & Hv' & _). apply lex_gt. destruct v as [|c v]; [done|]. intros [= ->]. by apply Forall_cons in Hv' as [Hv' _].
  - exists c1, b1, c2, b2. split_and!; [done|done|congruence].
Qed.

(** [a>b|c]. *)
Definition demo_pipe : list Z := [97; 62; 98; 124; 99].

Lemma demo_pipe_nul : 0 ∉ demo_pipe.
Proof. by refine (bool_decide_eq_true_1 _ _); vm_compute. Qed.

Lemma runcmd_descriptors_witness : exists c buf', parsecmd (demo_pipe ++ 0 :: [0]) = Ok (c, buf') /\
  all_execs (fun _ t => exists i' o', t = three i' o' (Given 2) 13) (runcmd buf' c [] (three (Given 0) (Given 1) (Given 2) 13)).
Proof.
  destruct (parsecmd (demo_pipe ++ 0 :: [0])) as [[c buf']|] eqn:Hrun; [|by vm_compute in Hrun]. exists c, buf'. split; [done|].
  exact (runcmd_descriptors demo_pipe [0] c buf' (Given 0) (Given 1) (Given 2) 11 demo_pipe_nul Hrun).
Defined.

(** [a|b x|c]. *)
Definition demo_pipes : list Z := [97; 124; 98; 32; 120; 124; 99].

Lemma pipeline_wired_witness : exists c buf', parsecmd (demo_pipes ++ 0 :: [0]) = Ok (c, buf') /\
  started (runcmd buf' c [] (three (Given 0) (Given 1) (Given 2) 13)) =
    [([[97]], three (Given 0) (WriteEnd []) (Given 2) 13);
     ([[98]; [120]], three (ReadEnd []) (WriteEnd [true]) (Given 2) 13);
     ([[99]], three (ReadEnd [true]) (Given 1) (Given 2) 13)].
Proof.
  refine (pipeline_wired demo_pipes [0] [[97]] [[[98]; [120]]; [[99]]] (Given 0) (Given 1) (Given 2) 11 _ _ _).
  - by refine (bool_decide_eq_true_1 _ _); vm_compute.
  - by vm_compute.
  - repeat constructor; simpl; unfold MAXARGS; lia.
Defined.

(** The lines "cd x" and "a|b". *)
Definition demo_input : list Z := [99; 100; 32; 120; 10; 97; 124; 98; 10].

Lemma main_never_stops_witness : survives no_memory (main (three (Given 0) (Given 1) (Given 2) 13) demo_input) /\
  survives (fun _ => False) (main (three (Given 0) (Given 1) (Given 2) 13) demo_input).
Proof.
  destruct (main_never_stops (three (Given 0) (Given 1) (Given 2) 13) demo_input) as [H1 H2].
  split; [exact H1|exact (H2 demo_malloc_ok)].
Defined.

Lemma append_is_overwrite_witness : exists c1 b1 c2 b2, parsecmd (([97] ++ [62; 62] ++ [98]) ++ 0 :: []) = Ok (c1, b1) /\
  parsecmd (([97] ++ [62] ++ [98]) ++ 0 :: []) = Ok (c2, b2) /\ resolve b1 c1 = resolve b2 c2.
Proof.
  apply (append_is_overwrite [97] [98] []); split_and!; try done; try (by repeat constructor); by refine (bool_decide_eq_true_1 _ _); vm_compute.
Defined.
