(* ===== verification/Spinlock.v ===== *)
(** * Spin locks (spinlock.c)

    [pushcli]/[popcli] nesting, [holding], [acquire] and [release] as the
    code executes them on one CPU, and the interleaving of several CPUs at
    the granularity of the accesses to [lk->locked] and [lk->cpu].  The
    debugging fields [name] and [pcs] are not modelled. *)

From stdpp Require Import base numbers list strings.
From S2P Require Import Prelude.

Open Scope Z_scope.

(** [struct spinlock]. *)
Record spinlock := mkspinlock {
  locked : Z;
  lk_cpu : option nat;
}.

(** The part of [struct cpu] (proc.h) the kernel routines use, together with
    the interrupt-enable bit [FL_IF] of the CPU's own [eflags]. *)
Record cpu := mkcpu {
  cpu_id : nat;
  ncli : Z;
  intena : bool;
  fl_if : bool;
}.

Definition initlock : spinlock := mkspinlock 0 None.

Definition pushcli (c : cpu) : cpu :=
  mkcpu (cpu_id c) (ncli c + 1)
    (if ncli c =? 0 then fl_if c else intena c) false.

Definition popcli (c : cpu) : outcome cpu :=
  if fl_if c then Err (Panic "popcli - interruptible")
  else
    let n := ncli c - 1 in
    if n <? 0 then Err (Panic "popcli")
    else Ok (mkcpu (cpu_id c) n (intena c)
               (if (n =? 0) && intena c then true else fl_if c)).

Definition holding (lk : spinlock) (c : cpu) : bool :=
  negb (locked lk =? 0) && bool_decide (lk_cpu lk = Some (cpu_id c)).

(** [acquire] as one CPU sees it: the loop on [xchg] finishes at once when
    the lock is free, and otherwise spins until another CPU releases it. *)
Definition acquire (lk : spinlock) (c : cpu) : outcome (spinlock * cpu) :=
  let c := pushcli c in
  if holding lk c then Err (Panic "acquire")
  else if negb (locked lk =? 0) then Err Spin
  else Ok (mkspinlock 1 (Some (cpu_id c)), c).

Definition release (lk : spinlock) (c : cpu) : outcome (spinlock * cpu) :=
  if negb (holding lk c) then Err (Panic "release")
  else c ← popcli c; Ok (mkspinlock 0 None, c).

(** ** Several CPUs

    A CPU is between two calls ([Run]), waiting in [acquire]'s [xchg] loop
    ([AcqSpin]), past the loop but before [lk->cpu = cpu] ([AcqGot]), or in
    [release] between [lk->cpu = 0] and the final [xchg] ([RelCleared]). *)
Inductive pc :=
  | Run
  | AcqSpin (l : nat)
  | AcqGot (l : nat)
  | RelCleared (l : nat).

Record smp := mksmp {
  locks : list spinlock;
  cpus : list (cpu * pc);
}.

Inductive action :=
  | Acquire (l : nat)     (* pushcli; the holding() test *)
  | Xchg                  (* one successful xchg of acquire's loop *)
  | Record                (* lk->cpu = cpu *)
  | Release (l : nat)     (* the holding() test; lk->cpu = 0 *)
  | XchgFree              (* xchg(&lk->locked, 0); popcli *)
  | Sti                   (* sti() outside every critical section *)
  | Cli.

(** One step of CPU [i].  [None] is a step that cannot happen (the xchg loop
    does not leave while the lock is taken); a failed test is a panic. *)
Definition cpu_step (i : nat) (a : action) (g : smp) : option (outcome smp) :=
  '(c, p) ← cpus g !! i;
  let set c p := mksmp (locks g) (<[i := (c, p)]> (cpus g)) in
  let setl l lk c p := mksmp (<[l := lk]> (locks g)) (<[i := (c, p)]> (cpus g)) in
  match a, p with
  | Acquire l, Run =>
      lk ← locks g !! l;
      let c := pushcli c in
      Some (if holding lk c then Err (Panic "acquire") else Ok (set c (AcqSpin l)))
  | Xchg, AcqSpin l =>
      lk ← locks g !! l;
      if locked lk =? 0 then Some (Ok (setl l (mkspinlock 1 (lk_cpu lk)) c (AcqGot l)))
      else None
  | Record, AcqGot l =>
      lk ← locks g !! l;
      Some (Ok (setl l (mkspinlock (locked lk) (Some (cpu_id c))) c Run))
  | Release l, Run =>
      lk ← locks g !! l;
      Some (if holding lk c
            then Ok (setl l (mkspinlock (locked lk) None) c (RelCleared l))
            else Err (Panic "release"))
  | XchgFree, RelCleared l =>
      lk ← locks g !! l;
      Some (c ← popcli c; Ok (setl l (mkspinlock 0 (lk_cpu lk)) c Run))
  | Sti, Run =>
      if ncli c =? 0 then Some (Ok (set (mkcpu (cpu_id c) (ncli c) (intena c) true) Run))
      else None
  | Cli, Run => Some (Ok (set (mkcpu (cpu_id c) (ncli c) (intena c) false) Run))
  | _, _ => None
  end.

Definition smp_init (nlocks ncpus : nat) : smp :=
  mksmp (replicate nlocks initlock)
    ((fun i => (mkcpu i 0 false false, Run)) <$> seq 0 ncpus).

(** States reachable by any interleaving of the CPUs' steps. *)
Inductive reachable (nlocks ncpus : nat) : smp -> Prop :=
  | reach_init : reachable nlocks ncpus (smp_init nlocks ncpus)
  | reach_step g g' i a :
      reachable nlocks ncpus g ->
      cpu_step i a g = Some (Ok g') ->
      reachable nlocks ncpus g'.

(** CPU [i] is inside the critical section of lock [l]: from the successful
    [xchg] of [acquire] to the [xchg] of [release]. *)
Definition pc_owns (p : pc) (l : nat) : Prop :=
  p = AcqGot l \/ p = RelCleared l.

Definition in_critical (g : smp) (i l : nat) : Prop :=
  exists c p, cpus g !! i = Some (c, p) /\
    ((exists lk, locks g !! l = Some lk /\ lk_cpu lk = Some i) \/ pc_owns p l).

(** Number of locks whose owner field names CPU [i]. *)
Definition owned (i : nat) (ls : list spinlock) : nat :=
  length (filter (fun lk => lk_cpu lk = Some i) ls).

Definition pending (p : pc) : nat := match p with Run => 0 | _ => 1 end.

Record smp_inv (g : smp) : Prop := {
  inv_id : forall i c p, cpus g !! i = Some (c, p) -> cpu_id c = i;
  inv_ncli : forall i c p, cpus g !! i = Some (c, p) ->
    ncli c = Z.of_nat (owned i (locks g) + pending p);
  inv_if : forall i c p, cpus g !! i = Some (c, p) -> 0 < ncli c -> fl_if c = false;
  inv_owner : forall l lk i, locks g !! l = Some lk -> lk_cpu lk = Some i ->
    is_Some (cpus g !! i) /\ locked lk <> 0 /\
    forall j c p, cpus g !! j = Some (c, p) -> ~ pc_owns p l;
  inv_pc : forall i c p l, cpus g !! i = Some (c, p) -> pc_owns p l ->
    exists lk, locks g !! l = Some lk /\ locked lk <> 0 /\ lk_cpu lk = None;
  inv_pc_unique : forall i j c d p q l,
    cpus g !! i = Some (c, p) -> cpus g !! j = Some (d, q) ->
    pc_owns p l -> pc_owns q l -> i = j;
}.

Lemma owned_insert i ls l lk lk' :
  ls !! l = Some lk ->
  (owned i (<[l := lk']> ls) + (if decide (lk_cpu lk = Some i) then 1 else 0) =
   owned i ls + (if decide (lk_cpu lk' = Some i) then 1 else 0))%nat.
Proof.
  unfold owned. revert l. induction ls as [|x ls IH]; intros [|l] Hl; [done..| |].
  - injection Hl as ->. simpl. rewrite !filter_cons. repeat case_decide; simpl; lia.
  - simpl. specialize (IH l Hl). rewrite !filter_cons.
    repeat case_decide; simpl; lia.
Qed.

Lemma popcli_spec c c' :
  popcli c = Ok c' ->
  cpu_id c' = cpu_id c /\ ncli c' = ncli c - 1 /\ (0 < ncli c' -> fl_if c' = false).
Proof.
  unfold popcli. destruct (fl_if c) eqn:Ef; [done|].
  destruct (Z.ltb_spec (ncli c - 1) 0); [done|]. intros [= <-]; simpl.
  split_and!; [done..|]. intros Hn.
  destruct (Z.eqb_spec (ncli c - 1) 0); simpl; [lia|done].
Qed.

(** Case analysis on which CPU or lock an updated table is read at. *)
Ltac smp_lookup :=
  repeat match goal with
  | H : <[?i := _]> ?l !! ?i = Some _ |- _ =>
      rewrite list_lookup_insert_eq in H by (eapply lookup_lt_Some; eassumption);
      simplify_eq
  | H : <[?i := _]> ?l !! ?j = Some _, N : ?i <> ?j |- _ =>
      rewrite list_lookup_insert_ne in H by assumption
  | H : <[?i := _]> ?l !! ?j = Some _ |- _ =>
      destruct (decide (i = j)); [subst|]
  end; simpl in *; simplify_eq.

(** Changing only CPU [i]'s registers, with its program counter moved between
    positions that own no lock, keeps the invariant. *)
Lemma smp_inv_cpu g i c p c' p' :
  smp_inv g ->
  cpus g !! i = Some (c, p) ->
  (forall l, ~ pc_owns p' l) ->
  cpu_id c' = cpu_id c ->
  ncli c' = ncli c + Z.of_nat (pending p') - Z.of_nat (pending p) ->
  (0 < ncli c' -> fl_if c' = false) ->
  (forall l, ~ pc_owns p l) ->
  smp_inv (mksmp (locks g) (<[i := (c', p')]> (cpus g))).
Proof.
  intros [Hid Hn Hif Hown Hpc Hu] Hi Hp' Eid En Eif Hp. split; simpl.
  - intros j d q Hj. smp_lookup; [|eauto]. rewrite Eid. eauto.
  - intros j d q Hj. smp_lookup; [|eauto]. rewrite En, (Hn _ _ _ Hi). lia.
  - intros j d q Hj. smp_lookup; eauto.
  - intros l lk j Hl Hlk. destruct (Hown _ _ _ Hl Hlk) as (Hs & Hne & Hno).
    split_and!; [|done|].
    + destruct (decide (i = j)); [subst|by rewrite list_lookup_insert_ne].
      rewrite list_lookup_insert_eq; [eauto|by eapply lookup_lt_Some].
    + intros k d q Hk. smp_lookup; eauto.
  - intros j d q l Hj Hq. smp_lookup; [by destruct (Hp' l)|eauto].
  - intros j k d e q r l Hj Hk Hq Hr. smp_lookup; try done.
    + by destruct (Hp' l).
    + by destruct (Hp' l).
    + eauto.
Qed.

Lemma inv_acquire g i c l lk :
  smp_inv g -> cpus g !! i = Some (c, Run) -> locks g !! l = Some lk ->
  smp_inv (mksmp (locks g) (<[i := (pushcli c, AcqSpin l)]> (cpus g))).
Proof.
  intros Hg Hi _. eapply smp_inv_cpu; try done; unfold pc_owns; simpl; [naive_solver|lia|naive_solver].
Qed.

Lemma inv_xchg g i c l lk :
  smp_inv g -> cpus g !! i = Some (c, AcqSpin l) -> locks g !! l = Some lk ->
  locked lk = 0 ->
  smp_inv (mksmp (<[l := mkspinlock 1 (lk_cpu lk)]> (locks g))
             (<[i := (c, AcqGot l)]> (cpus g))).
Proof.
  intros [Hid Hn Hif Hown Hpc Hu] Hi Hl H0.
  assert (Hnone : lk_cpu lk = None).
  { destruct (lk_cpu lk) as [j|] eqn:E; [|done].
    by destruct (Hown _ _ _ Hl E) as (_ & ? & _). }
  assert (Hfree : forall j d q, cpus g !! j = Some (d, q) -> ~ pc_owns q l).
  { intros j d q Hj Hq. destruct (Hpc _ _ _ _ Hj Hq) as (lk' & ? & ? & ?). by simplify_eq. }
  split; simpl.
  - intros j d q Hj. smp_lookup; eauto.
  - intros j d q Hj.
    pose proof (owned_insert j (locks g) l lk (mkspinlock 1 (lk_cpu lk)) Hl) as Ho.
    simpl in Ho. smp_lookup.
    + rewrite (Hn _ _ _ Hi). simpl. lia.
    + rewrite (Hn _ _ _ Hj). lia.
  - intros j d q Hj. smp_lookup; eauto.
  - intros m lk' j Hm Hj. smp_lookup.
    destruct (Hown _ _ _ Hm Hj) as (Hs & Hne & Hno). split_and!; [|done|].
    + destruct (decide (i = j)); [subst|by rewrite list_lookup_insert_ne].
      rewrite list_lookup_insert_eq; [eauto|by eapply lookup_lt_Some].
    + intros k d q Hk. smp_lookup; [|eauto]. intros [?|?]; congruence.
  - intros j d q m Hj Hq. smp_lookup.
    + destruct Hq as [Hq|Hq]; [|done]. injection Hq as <-.
      rewrite list_lookup_insert_eq by (by eapply lookup_lt_Some). naive_solver.
    + destruct (decide (l = m)) as [<-|]; [by destruct (Hfree _ _ _ Hj)|].
      rewrite list_lookup_insert_ne by done. eauto.
  - intros j k d e q r m Hj Hk Hq Hr. smp_lookup;
      first [done | eauto; fail | exfalso; eapply Hfree; [eassumption|]];
      unfold pc_owns in *; naive_solver.
Qed.

Lemma inv_record g i c l lk :
  smp_inv g -> cpus g !! i = Some (c, AcqGot l) -> locks g !! l = Some lk ->
  smp_inv (mksmp (<[l := mkspinlock (locked lk) (Some (cpu_id c))]> (locks g))
             (<[i := (c, Run)]> (cpus g))).
Proof.
  intros [Hid Hn Hif Hown Hpc Hu] Hi Hl.
  assert (Hc : cpu_id c = i) by eauto.
  assert (Hgot : pc_owns (AcqGot l) l) by (by left).
  destruct (Hpc _ _ _ _ Hi Hgot) as (lk' & ? & Hlk & Hnone). simplify_eq.
  split; simpl.
  - intros j d q Hj. smp_lookup; eauto.
  - intros j d q Hj.
    pose proof (owned_insert j (locks g) l lk (mkspinlock (locked lk) (Some (cpu_id c))) Hl) as Ho.
    rewrite Hnone in Ho. simpl in Ho. smp_lookup.
    + rewrite (Hn _ _ _ Hi). simpl. repeat case_decide; simplify_eq; lia.
    + rewrite (Hn _ _ _ Hj). repeat case_decide; simplify_eq; lia.
  - intros j d q Hj. smp_lookup; eauto.
  - intros m lk' j Hm Hj. smp_lookup.
    + split_and!; [|done|].
      * rewrite list_lookup_insert_eq; [eauto|by eapply lookup_lt_Some].
      * intros k d q Hk. smp_lookup; [by intros [|]|]. intros Hq. eauto.
    + destruct (Hown _ _ _ Hm Hj) as (Hs & Hne & Hno). split_and!; [|done|].
      * destruct (decide (cpu_id c = j)); [subst|by rewrite list_lookup_insert_ne].
        rewrite list_lookup_insert_eq; [eauto|by eapply lookup_lt_Some].
      * intros k d q Hk. smp_lookup; [by intros [|]|]. eauto.
  - intros j d q m Hj Hq. smp_lookup; [by destruct Hq|].
    destruct (decide (l = m)) as [<-|].
    + exfalso. eauto.
    + rewrite list_lookup_insert_ne by done. eauto.
  - intros j k d e q r m Hj Hk Hq Hr. smp_lookup; first [done | by destruct Hq | by destruct Hr | eauto].
Qed.

Lemma inv_release g i c l lk :
  smp_inv g -> cpus g !! i = Some (c, Run) -> locks g !! l = Some lk ->
  holding lk c = true ->
  smp_inv (mksmp (<[l := mkspinlock (locked lk) None]> (locks g))
             (<[i := (c, RelCleared l)]> (cpus g))).
Proof.
  intros [Hid Hn Hif Hown Hpc Hu] Hi Hl Hh.
  assert (Hc : cpu_id c = i) by eauto.
  unfold holding in Hh. apply andb_true_iff in Hh as [_ Hh%bool_decide_eq_true].
  destruct (Hown _ _ _ Hl Hh) as (_ & Hlk & Hno). split; simpl.
  - intros j d q Hj. smp_lookup; eauto.
  - intros j d q Hj.
    pose proof (owned_insert j (locks g) l lk (mkspinlock (locked lk) None) Hl) as Ho.
    rewrite Hh in Ho. simpl in Ho. smp_lookup.
    + rewrite (Hn _ _ _ Hi). simpl. repeat case_decide; simplify_eq; lia.
    + rewrite (Hn _ _ _ Hj). repeat case_decide; simplify_eq; lia.
  - intros j d q Hj. smp_lookup; eauto.
  - intros m lk' j Hm Hj. smp_lookup.
    destruct (Hown _ _ _ Hm Hj) as (Hs & Hne & Hno'). split_and!; [|done|].
    + destruct (decide (cpu_id c = j)); [subst|by rewrite list_lookup_insert_ne].
      rewrite list_lookup_insert_eq; [eauto|by eapply lookup_lt_Some].
    + intros k d q Hk. smp_lookup; [|eauto]. intros [?|?]; congruence.
  - intros j d q m Hj Hq. smp_lookup.
    + destruct Hq as [Hq|Hq]; [done|]. injection Hq as <-.
      rewrite list_lookup_insert_eq by (by eapply lookup_lt_Some). naive_solver.
    + destruct (decide (l = m)) as [<-|]; [by destruct (Hno _ _ _ Hj)|].
      rewrite list_lookup_insert_ne by done. eauto.
  - intros j k d e q r m Hj Hk Hq Hr. smp_lookup;
      first [done | eauto; fail | exfalso; eapply Hno; [eassumption|]];
      unfold pc_owns in *; naive_solver.
Qed.

Lemma inv_free g i c c' l lk :
  smp_inv g -> cpus g !! i = Some (c, RelCleared l) -> locks g !! l = Some lk ->
  popcli c = Ok c' ->
  smp_inv (mksmp (<[l := mkspinlock 0 (lk_cpu lk)]> (locks g)) (<[i := (c', Run)]> (cpus g))).
Proof.
  intros [Hid Hn Hif Hown Hpc Hu] Hi Hl (Eid & En & Eif)%popcli_spec.
  assert (Hrel : pc_owns (RelCleared l) l) by (by right).
  destruct (Hpc _ _ _ _ Hi Hrel) as (lk' & ? & Hlk & Hnone). simplify_eq.
  split; simpl.
  - intros j d q Hj. smp_lookup; [rewrite Eid|]; eauto.
  - intros j d q Hj.
    pose proof (owned_insert j (locks g) l lk (mkspinlock 0 (lk_cpu lk)) Hl) as Ho.
    simpl in Ho. smp_lookup.
    + rewrite En, (Hn _ _ _ Hi). simpl. lia.
    + rewrite (Hn _ _ _ Hj). lia.
  - intros j d q Hj. smp_lookup; eauto.
  - intros m lk' j Hm Hj. smp_lookup.
    destruct (Hown _ _ _ Hm Hj) as (Hs & Hne & Hno). split_and!; [|done|].
    + destruct (decide (i = j)); [subst|by rewrite list_lookup_insert_ne].
      rewrite list_lookup_insert_eq; [eauto|by eapply lookup_lt_Some].
    + intros k d q Hk. smp_lookup; [by intros [|]|]. eauto.
  - intros j d q m Hj Hq. smp_lookup; [by destruct Hq|].
    destruct (decide (l = m)) as [<-|]; [exfalso; eauto|].
    rewrite list_lookup_insert_ne by done. eauto.
  - intros j k d e q r m Hj Hk Hq Hr. smp_lookup; first [done | by destruct Hq | by destruct Hr | eauto].
Qed.

Lemma smp_inv_init nlocks ncpus : smp_inv (smp_init nlocks ncpus).
Proof.
  assert (Hcpu : forall i c p, cpus (smp_init nlocks ncpus) !! i = Some (c, p) ->
    c = mkcpu i 0 false false /\ p = Run).
  { intros i c p. simpl. rewrite list_lookup_fmap.
    intros (k & Hk & [= -> ->])%fmap_Some. apply lookup_seq in Hk as [-> _]. done. }
  assert (Hlk : forall l lk, locks (smp_init nlocks ncpus) !! l = Some lk -> lk = initlock).
  { intros l lk Hl. simpl in Hl. by apply lookup_replicate in Hl as [? _]. }
  assert (Ho : forall i, owned i (locks (smp_init nlocks ncpus)) = 0%nat).
  { intros i. unfold owned. simpl. clear. induction nlocks as [|n IH]; [done|].
    simpl. rewrite filter_cons. by rewrite decide_False. }
  split.
  - intros i c p Hi. by destruct (Hcpu _ _ _ Hi) as [-> ->].
  - intros i c p Hi. rewrite Ho. by destruct (Hcpu _ _ _ Hi) as [-> ->].
  - intros i c p Hi. by destruct (Hcpu _ _ _ Hi) as [-> ->].
  - intros l lk i Hl Hi. by rewrite (Hlk _ _ Hl) in Hi.
  - intros i c p l Hi Hp. destruct (Hcpu _ _ _ Hi) as [-> ->]. by destruct Hp.
  - intros i j c d p q l Hi Hj Hp. destruct (Hcpu _ _ _ Hi) as [-> ->]. by destruct Hp.
Qed.

Lemma smp_inv_step g g' i a :
  smp_inv g -> cpu_step i a g = Some (Ok g') -> smp_inv g'.
Proof.
  intros Hg. unfold cpu_step.
  destruct (cpus g !! i) as [[c p]|] eqn:Hi; [simpl|done].
  destruct a as [l| | |l| | |], p as [|l'|l'|l']; try done; simpl.
  - destruct (locks g !! l) as [lk|] eqn:Hl; [simpl|done].
    destruct (holding _ _); [done|]. intros [= <-]. by eapply inv_acquire.
  - destruct (locks g !! l') as [lk|] eqn:Hl; [simpl|done].
    destruct (Z.eqb_spec (locked lk) 0); [|done]. intros [= <-]. by eapply inv_xchg.
  - destruct (locks g !! l') as [lk|] eqn:Hl; [simpl|done].
    intros [= <-]. by eapply inv_record.
  - destruct (locks g !! l) as [lk|] eqn:Hl; [simpl|done].
    destruct (holding lk c) eqn:Hh; [|done]. intros [= <-]. by eapply inv_release.
  - destruct (locks g !! l') as [lk|] eqn:Hl; [simpl|done].
    destruct (popcli c) as [c'|] eqn:Hpop; [simpl|done]. intros [= <-]. by eapply inv_free.
  - destruct (Z.eqb_spec (ncli c) 0); [|done]. intros [= <-].
    eapply smp_inv_cpu; try done; unfold pc_owns; simpl; [naive_solver|lia|lia|naive_solver].
  - intros [= <-]. eapply smp_inv_cpu; try done; unfold pc_owns; simpl; [naive_solver|lia|naive_solver].
Qed.

Lemma reachable_inv nlocks ncpus g : reachable nlocks ncpus g -> smp_inv g.
Proof. induction 1; eauto using smp_inv_init, smp_inv_step. Qed.

(** C2. Mutual exclusion: in every interleaving of any number of CPUs that
    call [acquire] and [release] on any number of locks, at most one CPU is
    between the [xchg] of [acquire] and the [xchg] of [release] of a lock,
    and a CPU inside a critical section runs with interrupts disabled and a
    positive [ncli]. *)
Theorem spinlock_mutual_exclusion nlocks ncpus g i j l :
  reachable nlocks ncpus g ->
  in_critical g i l -> in_critical g j l ->
  i = j /\ exists c p, cpus g !! i = Some (c, p) /\ 0 < ncli c /\ fl_if c = false.
Proof.
  intros Hr%reachable_inv (c & p & Hi & Hci) (d & q & Hj & Hcj).
  assert (Hpos : 0 < ncli c).
  { rewrite (inv_ncli _ Hr _ _ _ Hi). destruct Hci as [(lk & Hl & Hlk)|Hp].
    - enough (0 < owned i (locks g))%nat by lia. unfold owned.
      apply list_elem_of_lookup_2 in Hl.
      destruct (filter _ _) eqn:E; [|simpl; lia].
      exfalso. apply (not_elem_of_nil lk). rewrite <- E. by apply list_elem_of_filter.
    - destruct Hp as [->| ->]; simpl; lia. }
  split; [|exists c, p; split_and!; eauto using inv_if].
  destruct Hci as [(lk & Hl & Hlk)|Hp], Hcj as [(lk' & Hl' & Hlk')|Hq].
  - congruence.
  - destruct (inv_owner _ Hr _ _ _ Hl Hlk) as (_ & _ & Hno). by destruct (Hno _ _ _ Hj).
  - destruct (inv_owner _ Hr _ _ _ Hl' Hlk') as (_ & _ & Hno). by destruct (Hno _ _ _ Hi).
  - eauto using inv_pc_unique.
Qed.

(** CPU 1 of two, after it acquired lock 0. *)
Definition smp_demo : smp :=
  mksmp [mkspinlock 1 (Some 1%nat)] [(mkcpu 0 0 false false, Run); (mkcpu 1 1 false false, Run)].

Lemma spinlock_mutual_exclusion_witness :
  1%nat = 1%nat /\ exists c p, cpus smp_demo !! 1%nat = Some (c, p) /\ 0 < ncli c /\ fl_if c = false.
Proof.
  apply (spinlock_mutual_exclusion 1 2 smp_demo 1 1 0).
  - eapply (reach_step _ _ _ _ 1 Record);
      [eapply (reach_step _ _ _ _ 1 Xchg);
        [eapply (reach_step _ _ _ _ 1 (Acquire 0)); [apply reach_init|reflexivity]
        |reflexivity]
      |reflexivity].
  - eexists _, _. split; [reflexivity|]. left. eexists. split; reflexivity.
  - eexists _, _. split; [reflexivity|]. left. eexists. split; reflexivity.
Defined.
