(* ===== verification/Machine.v ===== *)
(** * The machine under the kernel's services

    What pipes, the allocator, the disk driver, the buffer cache, the log and
    the file system share of the rest of the kernel: the spin locks they take,
    the CPU they run on, and the process table behind [wakeup].  A component
    embeds a [mach] in its own state and reaches it through [HasMach]. *)

From stdpp Require Import base numbers list strings.
From S2P Require Import Prelude Spinlock.

Open Scope Z_scope.

(** The addresses the code passes to [sleep] and [wakeup]. *)
Inductive wchan :=
  | ChBuf (i : nat)
  | ChLog
  | ChInode (i : nat)
  | ChPipeRead (p : Z)
  | ChPipeWrite (p : Z)
  | ChInput.

(** The process side of the calls: [wakeup] and [proc->killed].  [Proc] gives
    [wakeup] its meaning on the process table. *)
Class Sched (W : Type) := {
  wake : wchan -> W -> W;
  killed : W -> bool;
}.

Section mach.
Context {W : Type}.

Record mach := mkmach {
  m_locks : list spinlock;
  m_cpu : cpu;
  m_world : W;
}.

(** Lock [l] taken by the CPU. *)
Definition taken (l : nat) (m : mach) : mach :=
  mkmach (<[l := mkspinlock 1 (Some (cpu_id (m_cpu m)))]> (m_locks m)) (pushcli (m_cpu m)) (m_world m).

(** No lock is held and interrupts nest properly. *)
Record quiet (m : mach) : Prop := {
  qt_locks : Forall (eq initlock) (m_locks m);
  qt_ncli : 0 <= ncli (m_cpu m);
  qt_if : 0 < ncli (m_cpu m) -> fl_if (m_cpu m) = false;
}.

(** [m] is the machine with only lock [l] taken, for [Some l]. *)
Definition holds (h : option nat) (m : mach) : Prop :=
  match h with
  | None => quiet m
  | Some l => exists m0, quiet m0 /\ (l < length (m_locks m0))%nat /\
      m = mkmach (m_locks (taken l m0)) (m_cpu (taken l m0)) (m_world m)
  end.
End mach.
Arguments mach W : clear implicits.

Class HasMach (S W : Type) := {
  get_mach : S -> mach W;
  put_mach : mach W -> S -> S;
}.

Class HasMachLaws (S W : Type) {H : HasMach S W} : Prop := {
  get_put : forall m s, get_mach (put_mach m s) = m;
  put_get : forall s, put_mach (get_mach s) s = s;
  put_put : forall m m' s, put_mach m (put_mach m' s) = put_mach m s;
}.

Section ops.
Context {S W : Type} {H : HasMach S W} {SC : Sched W}.

Definition with_mlock (l : nat) (f : spinlock -> cpu -> outcome (spinlock * cpu)) : M S unit := fun s =>
  let m := get_mach s in
  match m_locks m !! l with
  | None => Err Fault
  | Some lk =>
      match f lk (m_cpu m) with
      | Ok (lk, c) => Ok (tt, put_mach (mkmach (<[l := lk]> (m_locks m)) c (m_world m)) s)
      | Err e => Err e
      end
  end.

Definition acquire_m (l : nat) : M S unit := with_mlock l acquire.
Definition release_m (l : nat) : M S unit := with_mlock l release.

Definition wakeup_m (ch : wchan) : M S unit :=
  modify (fun s => let m := get_mach s in
    put_mach (mkmach (m_locks m) (m_cpu m) (wake ch (m_world m))) s).

Definition initlock_m (l : nat) : M S unit :=
  modify (fun s => let m := get_mach s in
    put_mach (mkmach (<[l := initlock]> (m_locks m)) (m_cpu m) (m_world m)) s).

(** [proc->killed]. *)
Definition killed_m : M S bool := gets (fun s => killed (m_world (get_mach s))).
End ops.

(** ** Rules *)

Section rules.
Context {S W : Type} {H : HasMach S W} {HL : HasMachLaws S W} {SC : Sched W} {E : error -> Prop}.

Lemma popcli_taken (m : mach W) :
  quiet m -> exists c, popcli (pushcli (m_cpu m)) = Ok c /\ cpu_id c = cpu_id (m_cpu m) /\
    ncli c = ncli (m_cpu m) /\ fl_if c = fl_if (m_cpu m).
Proof.
  intros [_ H0 H1]. unfold popcli, pushcli. simpl.
  replace (ncli (m_cpu m) + 1 - 1) with (ncli (m_cpu m)) by lia.
  destruct (Z.ltb_spec (ncli (m_cpu m)) 0); [lia|].
  destruct (Z.eqb_spec (ncli (m_cpu m)) 0); simpl; eexists; split_and!; try done; simpl.
  - by destruct (fl_if (m_cpu m)).
  - by rewrite H1 by lia.
Qed.

Lemma wp_acquire_m l (Q : unit -> S -> Prop) s :
  holds None (get_mach s) -> (l < length (m_locks (get_mach s)))%nat ->
  (forall m, holds (Some l) m -> m_world m = m_world (get_mach s) ->
    length (m_locks m) = length (m_locks (get_mach s)) -> Q tt (put_mach m s)) ->
  wp E (acquire_m l) Q s.
Proof.
  intros Hq Hl HQ. pose proof Hq as [Hf _ _].
  destruct (lookup_lt_is_Some_2 _ _ Hl) as [lk Hlk].
  rewrite Forall_lookup in Hf. pose proof (Hf _ _ Hlk) as <-.
  unfold wp, acquire_m, with_mlock. rewrite Hlk. unfold acquire, holding. simpl.
  apply HQ; simpl; [|done|by rewrite length_insert].
  exists (get_mach s). split_and!; [done..|]. done.
Qed.

Lemma holds_taken l (m : mach W) : holds (Some l) m -> exists lk, m_locks m !! l = Some lk /\
  holding lk (m_cpu m) = true.
Proof.
  intros (m0 & _ & Hl & ->). simpl. eexists. split; [by apply list_lookup_insert_eq|].
  unfold holding. simpl. by rewrite bool_decide_true.
Qed.

Lemma wp_release_m l (Q : unit -> S -> Prop) s :
  holds (Some l) (get_mach s) ->
  (forall m, holds None m -> m_world m = m_world (get_mach s) ->
    length (m_locks m) = length (m_locks (get_mach s)) -> Q tt (put_mach m s)) ->
  wp E (release_m l) Q s.
Proof.
  intros Hh HQ. pose proof (holds_taken _ _ Hh) as (lk & Hlk & Hho).
  destruct Hh as (m0 & Hq & Hl & Hm). destruct (popcli_taken m0 Hq) as (c & Hc & Hci & Hn & Hi).
  unfold wp, release_m, with_mlock. rewrite Hlk. unfold release. rewrite Hho. simpl.
  rewrite Hm. simpl. rewrite Hc. simpl. apply HQ; [|done|rewrite Hm; simpl; by rewrite length_insert].
  destruct Hq as [Hf H0 H1]. rewrite list_insert_insert_eq.
  split; simpl; [|by rewrite Hn|rewrite Hn, Hi; exact H1]. by apply Forall_insert.
Qed.

Lemma holds_wake h ch (m : mach W) :
  holds h m -> holds h (mkmach (m_locks m) (m_cpu m) (wake ch (m_world m))).
Proof.
  destruct h as [l|]; simpl.
  - intros (m0 & Hq & Hl & ->). by exists m0.
  - intros [? ? ?]. by split.
Qed.
End rules.

(** A fresh machine: [n] free locks, interrupts on, and the process table [w]. *)
Definition boot_mach {W} (n : nat) (w : W) : mach W :=
  mkmach (replicate n initlock) (mkcpu 0 0 true true) w.

Lemma boot_quiet {W} n (w : W) : quiet (boot_mach n w).
Proof. split; simpl; [by apply Forall_replicate|lia|lia]. Qed.

#[global] Arguments holds : simpl never.
