(* ===== verification/Kalloc.v ===== *)
(** * The page allocator (kalloc.c)

    Physical memory above the kernel is a finite map from the kernel virtual
    address of a page to its bytes; the free list runs through the first word
    of each free page, as [struct run] does.  [kend] is the linker's [end]. *)

From stdpp Require Import base numbers list gmap strings sorting.
From S2P Require Import Prelude Strings Bytes Spinlock Machine.

Open Scope Z_scope.

Definition PGSIZE : Z := 4096.
Definition KERNBASE : Z := 2147483648.
Definition PHYSTOP : Z := 234881024.
Definition EXTMEM : Z := 1048576.
Definition DEVSPACE : Z := 4261412864.

Definition v2p (a : Z) : Z := u32 (a - KERNBASE).
Definition p2v (a : Z) : Z := u32 (a + KERNBASE).
Definition PGROUNDUP (sz : Z) : Z := Z.land (u32 (sz + PGSIZE - 1)) (u32 (Z.lnot (PGSIZE - 1))).
Definition PGROUNDDOWN (a : Z) : Z := Z.land a (u32 (Z.lnot (PGSIZE - 1))).

(** Index of [kmem.lock] among the locks of the machine. *)
Definition KMEM : nat := 0.

Section state.
Context {W : Type}.

(** [kmem] and the memory it manages. *)
Record kmst := mkkmst {
  km_mach : mach W;
  use_lock : bool;
  freelist : Z;
  pages : gmap Z (list Z);
}.

Definition set_km_mach (m : mach W) (s : kmst) : kmst :=
  mkkmst m (use_lock s) (freelist s) (pages s).
Definition set_use_lock (b : bool) (s : kmst) : kmst :=
  mkkmst (km_mach s) b (freelist s) (pages s).
Definition set_freelist (v : Z) (s : kmst) : kmst :=
  mkkmst (km_mach s) (use_lock s) v (pages s).
Definition set_pages (p : gmap Z (list Z)) (s : kmst) : kmst :=
  mkkmst (km_mach s) (use_lock s) (freelist s) p.

#[export] Instance kmst_mach : HasMach kmst W := {|
  get_mach := km_mach;
  put_mach := set_km_mach;
|}.

#[export] Instance kmst_mach_laws : HasMachLaws kmst W.
Proof. split; [done|by intros []|done]. Qed.

(** A word of memory at a kernel address. *)
Definition load (a : Z) : M kmst Z := fun s =>
  match pages s !! (a - a mod PGSIZE) ≫= fun b => get32 b (Z.to_nat (a mod PGSIZE)) with
  | Some v => Ok (v, s)
  | None => Err Fault
  end.

Definition store (a v : Z) : M kmst unit := fun s =>
  match pages s !! (a - a mod PGSIZE) with
  | None => Err Fault
  | Some b =>
      match put32 b (Z.to_nat (a mod PGSIZE)) v with
      | None => Err Fault
      | Some b => Ok (tt, set_pages (<[a - a mod PGSIZE := b]> (pages s)) s)
      end
  end.

(** [memset] of the page at [v]. *)
Definition memset_page (v c : Z) : M kmst unit := fun s =>
  match pages s !! v with
  | None => Err Fault
  | Some b =>
      match memset b 0 c (Z.to_nat PGSIZE) with
      | Err e => Err e
      | Ok b => Ok (tt, set_pages (<[v := b]> (pages s)) s)
      end
  end.

Section code.
Variable kend : Z.

Definition kfree (v : Z) : M kmst unit :=
  if negb (v mod PGSIZE =? 0) || (v <? kend) || (PHYSTOP <=? v2p v) then panic "kfree" else
  memset_page v 1 ;;
  l ← gets use_lock;
  when l (acquire_m KMEM) ;;
  next ← gets freelist;
  store v next ;;
  modify (set_freelist v) ;;
  when l (release_m KMEM).

Definition kalloc : M kmst Z :=
  l ← gets use_lock;
  when l (acquire_m KMEM) ;;
  r ← gets freelist;
  when (negb (r =? 0)) (n ← load r; modify (set_freelist n)) ;;
  when l (release_m KMEM) ;;
  mret r.

Fixpoint freerange_loop (fuel : nat) (p vend : Z) : M kmst unit :=
  if u32 (p + PGSIZE) <=? vend then
    match fuel with
    | O => fail NoFuel
    | S fuel => kfree p ;; freerange_loop fuel (u32 (p + PGSIZE)) vend
    end
  else mret tt.

(** At most one page per [PGSIZE] bytes below [vend]. *)
Definition freerange (vstart vend : Z) : M kmst unit :=
  freerange_loop (Z.to_nat (vend / PGSIZE)) (PGROUNDUP vstart) vend.

Definition kinit1 (vstart vend : Z) : M kmst unit :=
  modify (fun s => set_km_mach (mkmach (<[KMEM := initlock]> (m_locks (km_mach s)))
                                  (m_cpu (km_mach s)) (m_world (km_mach s))) s) ;;
  modify (set_use_lock false) ;;
  freerange vstart vend.

Definition kinit2 (vstart vend : Z) : M kmst unit :=
  freerange vstart vend ;;
  modify (set_use_lock true).
End code.
End state.
Arguments kmst W : clear implicits.

(** ** The free list *)

Section spec.
Context {W : Type} {E : error -> Prop} (kend : Z).
Implicit Types s : kmst W.

(** [v] is the address of a page the allocator may own. *)
Definition kvalid (v : Z) : Prop :=
  v mod PGSIZE = 0 /\ kend <= v /\ KERNBASE <= v < KERNBASE + PHYSTOP.

Fixpoint free_chain (pg : gmap Z (list Z)) (h : Z) (fs : list Z) : Prop :=
  match fs with
  | [] => h = 0
  | v :: fs => h = v /\ exists b n, pg !! v = Some b /\ get32 b 0 = Some n /\ free_chain pg n fs
  end.

Record kmem_inv (s : kmst W) (fs : list Z) : Prop := {
  ki_chain : free_chain (pages s) (freelist s) fs;
  ki_nodup : NoDup fs;
  ki_valid : Forall kvalid fs;
  ki_length : map_Forall (fun _ b => length b = Z.to_nat PGSIZE) (pages s);
  ki_mach : quiet (km_mach s);
  ki_lock : (KMEM < length (m_locks (km_mach s)))%nat;
}.

Lemma kvalid_bounds v : kvalid v -> 0 < v < 2 ^ 32 /\ v mod PGSIZE = 0.
Proof. unfold kvalid, KERNBASE, PHYSTOP. lia. Qed.

Lemma kfree_guard v : kvalid v ->
  negb (v mod PGSIZE =? 0) || (v <? kend) || (PHYSTOP <=? v2p v) = false.
Proof.
  intros (Ha & He & Hk). unfold v2p, u32. rewrite Ha. simpl.
  rewrite Z.mod_small by (unfold KERNBASE, PHYSTOP in *; lia).
  apply orb_false_intro; [apply Z.ltb_ge; lia|apply Z.leb_gt; lia].
Qed.

Lemma free_chain_frame pg pg' h fs :
  (forall v, v ∈ fs -> pg' !! v = pg !! v) -> free_chain pg h fs -> free_chain pg' h fs.
Proof.
  revert h. induction fs as [|v fs IH]; intros h Hf; [done|].
  intros (-> & b & n & Hb & Hn & Hc). split; [done|]. exists b, n.
  rewrite Hf by set_solver. split_and!; [done..|]. apply IH; [|done]. set_solver.
Qed.

Lemma memset_page_run v c b s :
  pages s !! v = Some b -> length b = Z.to_nat PGSIZE ->
  exists b', memset_page v c s = Ok (tt, set_pages (<[v := b']> (pages s)) s) /\
    length b' = Z.to_nat PGSIZE.
Proof.
  intros Hb Hl. destruct (memset_updated b 0 c (Z.to_nat PGSIZE)) as (b' & Hm & Hu & _); [lia|].
  exists b'. unfold memset_page. rewrite Hb, Hm. split; [done|]. by rewrite Hu.
Qed.

Lemma load_page v b n s : v mod PGSIZE = 0 -> pages s !! v = Some b -> get32 b 0 = Some n ->
  load v s = Ok (n, s).
Proof.
  intros Ha Hb Hn. unfold load. rewrite Ha, Z.sub_0_r, Hb. change (Z.to_nat 0) with 0%nat.
  simpl. by rewrite Hn.
Qed.

Lemma store_page v b x s : v mod PGSIZE = 0 -> pages s !! v = Some b -> length b = Z.to_nat PGSIZE ->
  exists b', store v x s = Ok (tt, set_pages (<[v := b']> (pages s)) s) /\
    length b' = length b /\ get32 b' 0 = Some (u32 x).
Proof.
  intros Ha Hb Hl. destruct (put32_Some b 0 x) as [b' Hp]; [unfold PGSIZE in Hl; lia|].
  exists b'. unfold store. rewrite Ha, Z.sub_0_r, Hb. change (Z.to_nat 0) with 0%nat. rewrite Hp.
  split_and!; [done|by eapply put32_length|]. by eapply get32_put32.
Qed.

(** The lock is taken only once [use_lock] is set. *)
Lemma wp_lock_on (l : bool) (Q : unit -> kmst W -> Prop) s :
  quiet (km_mach s) -> (KMEM < length (m_locks (km_mach s)))%nat ->
  (forall m, holds (if l then Some KMEM else None) m ->
    length (m_locks m) = length (m_locks (km_mach s)) -> Q tt (set_km_mach m s)) ->
  wp E (when l (acquire_m KMEM)) Q s.
Proof.
  intros Hq Hl HQ. destruct l; simpl.
  - by apply wp_acquire_m; [..|intros m Hm _ Hlen; apply HQ].
  - apply wp_ret. rewrite <-(put_get (HasMachLaws := kmst_mach_laws) s). by apply HQ.
Qed.

Lemma wp_lock_off (l : bool) (Q : unit -> kmst W -> Prop) s :
  holds (if l then Some KMEM else None) (km_mach s) ->
  (forall m, quiet m -> length (m_locks m) = length (m_locks (km_mach s)) -> Q tt (set_km_mach m s)) ->
  wp E (when l (release_m KMEM)) Q s.
Proof.
  intros Hh HQ. destruct l; simpl.
  - by apply wp_release_m; [|intros m Hm _ Hlen; apply HQ].
  - apply wp_ret. rewrite <-(put_get (HasMachLaws := kmst_mach_laws) s). by apply HQ.
Qed.

(** [kalloc] takes the first free page and touches no page. *)
Lemma wp_kalloc (Q : Z -> kmst W -> Prop) s fs :
  kmem_inv s fs ->
  (forall s', pages s' = pages s -> use_lock s' = use_lock s -> kmem_inv s' (tail fs) ->
    Q (default 0 (head fs)) s') ->
  wp E kalloc Q s.
Proof.
  intros [Hc Hnd Hv Hlen Hm Hl] HQ. unfold kalloc. apply wp_bind, wp_gets, wp_bind.
  apply wp_lock_on; [done..|]. intros m Hh Hml. apply wp_bind, wp_gets, wp_bind. simpl.
  destruct fs as [|v fs]; simpl in Hc.
  - rewrite Hc. simpl. apply wp_bind, wp_lock_off; [done|]. intros m' Hq' Hml'. simpl in Hml'.
    apply wp_ret, HQ; [done..|]. split; simpl; [done..|lia].
  - destruct Hc as (-> & b & n & Hb & Hn & Hc). inv Hv. inv Hnd.
    pose proof (kvalid_bounds v ltac:(done)) as [Hv0 Ha].
    destruct (Z.eqb_spec v 0); [lia|]. simpl. apply wp_bind.
    eapply wp_Ok; [by eapply load_page|]. apply wp_modify. apply wp_bind, wp_lock_off; [done|].
    intros m' Hq' Hml'. simpl in Hml'. apply wp_ret, HQ; [done..|]. split; simpl; [done..|lia].
Qed.

(** [kfree] of a page that is not free puts it first and changes no other. *)
Lemma wp_kfree v b (Q : unit -> kmst W -> Prop) s fs :
  kmem_inv s fs -> kvalid v -> v ∉ fs -> pages s !! v = Some b ->
  (forall s' b', pages s' = <[v := b']> (pages s) -> use_lock s' = use_lock s ->
    kmem_inv s' (v :: fs) -> Q tt s') ->
  wp E (kfree kend v) Q s.
Proof.
  intros [Hc Hnd Hv Hlen Hm Hl] Hkv Hno Hb HQ. unfold kfree. rewrite kfree_guard by done.
  pose proof (kvalid_bounds v Hkv) as [Hv0 Ha].
  destruct (memset_page_run v 1 b s Hb) as (b1 & Hms & Hb1); [by eapply Hlen|].
  apply wp_bind. eapply wp_Ok; [done|]. apply wp_bind, wp_gets, wp_bind. simpl.
  apply wp_lock_on; [done..|]. intros m Hh Hml. apply wp_bind, wp_gets, wp_bind. simpl in Hml |- *.
  edestruct (store_page v b1 (freelist s)) as (b2 & Hst & Hb2 & Hn2); [done| |done|].
  2:{ eapply wp_Ok; [exact Hst|]. apply wp_bind, wp_modify, wp_lock_off; [done|].
    intros m' Hq' Hml'. simpl in Hml'.
    eapply (HQ _ b2); [simpl; by rewrite insert_insert_eq|done|].
    split; simpl; [|by constructor|by constructor| |done|lia].
    - split; [done|]. exists b2, (u32 (freelist s)). rewrite lookup_insert_eq.
      split_and!; [done..|]. replace (u32 (freelist s)) with (freelist s).
      2:{ destruct fs as [|v' fs]; simpl in Hc; [by rewrite Hc|]. destruct Hc as [-> _]. inv Hv.
        pose proof (kvalid_bounds v' ltac:(done)). symmetry. apply Z.mod_small. lia. }
      eapply free_chain_frame; [|exact Hc]. intros v' Hv'. rewrite insert_insert_eq.
      apply lookup_insert_ne. intros <-. done.
    - rewrite insert_insert_eq. apply map_Forall_insert_2; [lia|done]. }
  simpl. by rewrite lookup_insert_eq.
Qed.

(** [kfree] of anything else stops the machine. *)
Lemma kfree_panic v s : 0 <= v < 2 ^ 32 -> ~ kvalid v -> kfree kend v s = Err (Panic "kfree").
Proof.
  intros Hv Hn. unfold kfree. destruct (_ || _ || _) eqn:He; [done|]. exfalso. apply Hn.
  apply orb_false_iff in He as [He H3]. apply orb_false_iff in He as [H1 H2].
  apply negb_false_iff, Z.eqb_eq in H1. apply Z.ltb_ge in H2. apply Z.leb_gt in H3.
  split; [done|]. split; [done|]. unfold v2p, u32 in H3.
  destruct (decide (KERNBASE <= v)).
  - rewrite Z.mod_small in H3 by (unfold KERNBASE in *; lia). lia.
  - rewrite <-(Z.mod_add _ 1), Z.mod_small in H3 by (unfold KERNBASE in *; lia).
    unfold KERNBASE, PHYSTOP in *. lia.
Qed.

(** The [n] pages from [p] up. *)
Fixpoint page_run (p : Z) (n : nat) : list Z :=
  match n with
  | O => []
  | S n => p :: page_run (p + PGSIZE) n
  end.

Lemma elem_page_run p n v :
  v ∈ page_run p n <-> exists k : nat, (k < n)%nat /\ v = p + Z.of_nat k * PGSIZE.
Proof.
  revert p. induction n as [|n IH]; intros p; simpl.
  - rewrite elem_of_nil. split; [done|]. intros (k & ? & _). lia.
  - rewrite elem_of_cons, IH. split.
    + intros [->|(k & Hk & ->)]; [exists O; lia|exists (S k); split; lia].
    + intros ([|k] & Hk & ->); [left; lia|right; exists k; split; lia].
Qed.

Lemma wp_freerange_loop n fuel p vend (Q : unit -> kmst W -> Prop) s fs :
  kmem_inv s fs -> (n <= fuel)%nat ->
  p mod PGSIZE = 0 -> kend <= p -> KERNBASE <= p ->
  p + Z.of_nat n * PGSIZE <= vend < p + (Z.of_nat n + 1) * PGSIZE ->
  vend <= KERNBASE + PHYSTOP ->
  (forall v, v ∈ page_run p n -> v ∉ fs /\ is_Some (pages s !! v)) ->
  (forall s', use_lock s' = use_lock s -> dom (pages s') = dom (pages s) ->
    kmem_inv s' (reverse (page_run p n) ++ fs) -> Q tt s') ->
  wp E (freerange_loop kend fuel p vend) Q s.
Proof.
  revert fuel p s fs. induction n as [|n IH]; intros fuel p s fs Hi Hf Ha He Hk Hv Hve Hp HQ.
  - assert (u32 (p + PGSIZE) = p + PGSIZE) as Hu.
    { apply Z.mod_small. unfold KERNBASE, PHYSTOP, PGSIZE in *. lia. }
    destruct fuel; simpl; rewrite Hu;
      (destruct (Z.leb_spec (p + PGSIZE) vend); [lia|]); apply wp_ret, HQ; done.
  - destruct fuel as [|fuel]; [lia|].
    assert (u32 (p + PGSIZE) = p + PGSIZE) as Hu.
    { apply Z.mod_small. unfold KERNBASE, PHYSTOP, PGSIZE in *. lia. }
    assert (kvalid p) as Hkv.
    { split; [done|]. split; [done|]. unfold PGSIZE in *. lia. }
    simpl. rewrite Hu. destruct (Z.leb_spec (p + PGSIZE) vend); [|unfold PGSIZE in *; lia].
    destruct (Hp p) as [Hno [b Hb]]; [left|].
    apply wp_bind. eapply wp_kfree; [done..|]. intros s1 b1 Hp1 Hu1 Hi1.
    eapply IH; [done|lia| |unfold PGSIZE; lia|unfold PGSIZE; lia|unfold PGSIZE in *; lia|done| |].
    + rewrite <-(Z.mul_1_l PGSIZE), Z.add_mod, Z.mul_1_l, Z_mod_same_full, Ha by (unfold PGSIZE; lia). done.
    + intros v Hin. pose proof Hin as Hin'. apply elem_page_run in Hin' as (k & Hkn & Hvk).
      destruct (Hp v) as [Hno' Hs]; [by right|]. rewrite Hp1. split.
      * rewrite elem_of_cons. intros [->|]; [|done]. unfold PGSIZE in Hvk. lia.
      * destruct (decide (p = v)) as [->|]; [by rewrite lookup_insert_eq|by rewrite lookup_insert_ne].
    + intros s' Hu' Hd' Hi'. apply HQ; [congruence| |].
      * rewrite Hd', Hp1, dom_insert_L. assert (p ∈ dom (pages s)) by by apply elem_of_dom_2 in Hb.
        set_solver.
      * cbn [page_run]. by rewrite reverse_cons, <-app_assoc.
Qed.

(** ** Clients of the allocator

    What the rest of the kernel does with it: allocate, write into a page it
    owns, give an owned page back. *)
Inductive krun (s0 : kmst W) : list Z -> kmst W -> Prop :=
  | krun_start : krun s0 [] s0
  | krun_alloc own s v s' : krun s0 own s -> kalloc s = Ok (v, s') ->
      krun s0 (if v =? 0 then own else v :: own) s'
  | krun_free own1 own2 v s s' : krun s0 (own1 ++ v :: own2) s -> kfree kend v s = Ok (tt, s') ->
      krun s0 (own1 ++ own2) s'
  | krun_write own v b s : krun s0 own s -> v ∈ own -> length b = Z.to_nat PGSIZE ->
      krun s0 own (set_pages (<[v := b]> (pages s)) s).
End spec.

Section owners.
Context {W : Type} (kend : Z).
Implicit Types s : kmst W.

(** The pages of [all] are split between the free list and the owners. *)
Record split_pages (all own : list Z) (s : kmst W) (fs : list Z) : Prop := {
  sp_inv : kmem_inv kend s fs;
  sp_perm : fs ++ own ≡ₚ all;
  sp_nodup : NoDup all;
  sp_valid : Forall (kvalid kend) all;
  sp_mapped : forall v, v ∈ all -> is_Some (pages s !! v);
}.

Lemma split_alloc all own s fs :
  split_pages all own s fs ->
  exists s', kalloc s = Ok (default 0 (head fs), s') /\
    split_pages all (option_list (head fs) ++ own) s' (tail fs).
Proof.
  intros [Hi Hp Hn Hv Hm].
  destruct (wp_no_error kalloc (fun r s' => r = default 0 (head fs) /\
    split_pages all (option_list (head fs) ++ own) s' (tail fs)) s) as (r & s' & Hr & -> & Hs); [|eauto].
  eapply wp_kalloc; [done|]. intros s' Hpg _ Hi'. split; [done|].
  split; [done| |done..|by rewrite Hpg]. rewrite <-Hp. destruct fs; [done|]. simpl. by rewrite Permutation_middle.
Qed.

Lemma split_free all own1 own2 v s fs :
  split_pages all (own1 ++ v :: own2) s fs ->
  exists s', kfree kend v s = Ok (tt, s') /\ split_pages all (own1 ++ own2) s' (v :: fs).
Proof.
  intros [Hi Hp Hn Hv Hm].
  assert (v ∈ all) as Hin by (rewrite <-Hp; set_solver).
  assert (v ∉ fs) as Hno.
  { rewrite <-Hp in Hn. apply NoDup_app in Hn as (_ & Hd & _). intros Hf. apply (Hd v Hf). set_solver. }
  destruct (Hm v Hin) as [b Hb]. rewrite Forall_forall in Hv.
  destruct (wp_no_error (kfree kend v) (fun _ s' => split_pages all (own1 ++ own2) s' (v :: fs)) s)
    as ([] & s' & Hr & Hs); [|eauto].
  eapply wp_kfree; [done|by apply Hv|done..|]. intros s' b' Hpg _ Hi'.
  split; [done| |done|by apply Forall_forall|].
  - rewrite <-Hp. simpl. by rewrite !Permutation_middle.
  - intros v' Hv'. rewrite Hpg. destruct (decide (v = v')) as [->|].
    + by rewrite lookup_insert_eq.
    + rewrite lookup_insert_ne by done. auto.
Qed.

Lemma split_write all own v b s fs :
  split_pages all own s fs -> v ∈ own -> length b = Z.to_nat PGSIZE ->
  split_pages all own (set_pages (<[v := b]> (pages s)) s) fs.
Proof.
  intros [[Hc Hnd Hva Hl Hq Hk] Hp Hn Hv Hm] Hin Hb.
  assert (v ∉ fs) as Hno.
  { rewrite <-Hp in Hn. apply NoDup_app in Hn as (_ & Hd & _). intros Hf. by apply (Hd v Hf). }
  split; [|done..|].
  - split; simpl; [|done..| |done|done].
    + eapply free_chain_frame; [|done]. intros v' Hv'. apply lookup_insert_ne. by intros <-.
    + by apply map_Forall_insert_2.
  - intros v' Hv'. simpl. destruct (decide (v = v')) as [->|].
    + by rewrite lookup_insert_eq.
    + rewrite lookup_insert_ne by done. auto.
Qed.

Lemma krun_split all s0 own s :
  split_pages all [] s0 all -> krun kend s0 own s -> exists fs, split_pages all own s fs.
Proof.
  intros H0. induction 1 as [|own s v s' _ [fs Hs] Ha|own1 own2 v s s' _ [fs Hs] Hf|own v b s _ [fs Hs] Hin Hb].
  - eauto.
  - destruct (split_alloc _ _ _ _ Hs) as (s1 & Ha' & Hs'). rewrite Ha in Ha'. simplify_eq.
    exists (tail fs). destruct fs as [|v fs]; simpl in *; [done|].
    destruct (sp_inv _ _ _ _ Hs) as [_ _ Hva _ _ _]. inv Hva.
    pose proof (kvalid_bounds kend v ltac:(done)). by destruct (Z.eqb_spec v 0); [lia|].
  - destruct (split_free _ _ _ _ _ _ Hs) as (s1 & Hf' & Hs'). rewrite Hf in Hf'. simplify_eq. eauto.
  - eauto using split_write.
Qed.
End owners.

(** ** Rounding to pages *)

Lemma PGROUNDDOWN_spec a : 0 <= a < 2 ^ 32 -> PGROUNDDOWN a = a / PGSIZE * PGSIZE.
Proof.
  intros Ha. unfold PGROUNDDOWN, PGSIZE. change (u32 (Z.lnot (4096 - 1))) with (Z.shiftl (Z.ones 20) 12).
  change (a / 4096) with (a / 2 ^ 12). change (a / 2 ^ 12 * 4096) with (a / 2 ^ 12 * 2 ^ 12).
  rewrite <-Z.shiftr_div_pow2, <-Z.shiftl_mul_pow2 by lia.
  apply Z.bits_inj'. intros i Hi. rewrite Z.land_spec, !Z.shiftl_spec by lia.
  destruct (Z.ltb_spec i 12).
  - rewrite !(Z.testbit_neg_r _ (i - 12)) by lia. apply andb_false_r.
  - rewrite Z.shiftr_spec by lia. replace (i - 12 + 12) with i by lia.
    destruct (Z.ltb_spec i 32).
    + rewrite Z.ones_spec_low by lia. apply andb_true_r.
    + rewrite <-(Z.mod_small a (2 ^ 32)) by lia. by rewrite Z.mod_pow2_bits_high by lia.
Qed.

Lemma PGROUNDUP_spec a : 0 <= a <= 2 ^ 32 - PGSIZE ->
  PGROUNDUP a = (a + PGSIZE - 1) / PGSIZE * PGSIZE.
Proof.
  intros Ha. unfold PGROUNDUP. rewrite <-PGROUNDDOWN_spec by (unfold PGSIZE in *; lia).
  unfold u32 at 1. rewrite Z.mod_small by (unfold PGSIZE in *; lia). done.
Qed.

Lemma PGROUNDUP_bounds a : 0 <= a <= 2 ^ 32 - PGSIZE ->
  a <= PGROUNDUP a < a + PGSIZE /\ PGROUNDUP a mod PGSIZE = 0.
Proof.
  intros Ha. rewrite PGROUNDUP_spec by done. split; [|by apply Z.mod_mul].
  unfold PGSIZE in *. pose proof (Z_div_mod_eq_full (a + 4096 - 1) 4096).
  pose proof (Z.mod_pos_bound (a + 4096 - 1) 4096). lia.
Qed.

Lemma kinit1_inv {W} kend vend n (s : kmst W) :
  KERNBASE <= kend -> kend <= vend <= KERNBASE + PHYSTOP ->
  n = Z.to_nat ((vend - PGROUNDUP kend) / PGSIZE) -> PGROUNDUP kend <= vend ->
  freelist s = 0 -> quiet (km_mach s) -> (KMEM < length (m_locks (km_mach s)))%nat ->
  map_Forall (fun _ b => length b = Z.to_nat PGSIZE) (pages s) ->
  (forall v, v ∈ page_run (PGROUNDUP kend) n -> is_Some (pages s !! v)) ->
  exists s', kinit1 kend kend vend s = Ok (tt, s') /\
    kmem_inv kend s' (reverse (page_run (PGROUNDUP kend) n)) /\ dom (pages s') = dom (pages s).
Proof.
  intros Hk Hv -> Hle Hf Hq Hl Hlen Hp.
  destruct (PGROUNDUP_bounds kend) as [Hb Ha]; [unfold KERNBASE, PHYSTOP, PGSIZE in *; lia|].
  destruct (wp_no_error (kinit1 kend kend vend) (fun _ s' =>
    kmem_inv kend s' (reverse (page_run (PGROUNDUP kend) (Z.to_nat ((vend - PGROUNDUP kend) / PGSIZE)))) /\
    dom (pages s') = dom (pages s)) s) as ([] & s' & Hr & Hs); [|eauto].
  unfold kinit1. apply wp_bind, wp_modify, wp_bind, wp_modify. unfold freerange.
  pose proof (Z_div_mod_eq_full (vend - PGROUNDUP kend) PGSIZE).
  pose proof (Z.mod_pos_bound (vend - PGROUNDUP kend) PGSIZE ltac:(done)).
  assert (0 <= (vend - PGROUNDUP kend) / PGSIZE) by (apply Z.div_pos; [lia|done]).
  eapply (wp_freerange_loop kend (Z.to_nat ((vend - PGROUNDUP kend) / PGSIZE))) with (fs := []).
  - destruct Hq as [Hq1 Hq2 Hq3]. split; simpl; [done|constructor|constructor|done| |by rewrite length_insert].
    split; simpl; [by apply Forall_insert|done..].
  - apply Z2Nat.inj_le; [lia|apply Z.div_pos; [unfold KERNBASE in *; lia|done]|].
    apply Z.div_le_mono; [done|]. unfold KERNBASE in *. lia.
  - done.
  - lia.
  - lia.
  - rewrite Z2Nat.id by done. lia.
  - lia.
  - intros v Hin. split; [apply not_elem_of_nil|]. by apply Hp.
  - intros s' _ Hd. by rewrite app_nil_r.
Qed.

(** ** Properties *)

(** C22. Whatever the kernel allocates, frees and writes, starting from a free
    list of distinct pages: no page has two owners, a page that is handed out
    is not owned, memory runs out only when every page is owned, and freeing
    an owned page never panics. *)
Theorem kalloc_safe {W} kend all (s0 : kmst W) own s :
  split_pages kend all [] s0 all -> krun kend s0 own s ->
  NoDup own /\ own ⊆ all /\
  (exists v s', kalloc s = Ok (v, s') /\
    (if v =? 0 then own ≡ₚ all else v ∈ all /\ v ∉ own)) /\
  (forall v, v ∈ own -> exists s', kfree kend v s = Ok (tt, s')).
Proof.
  intros H0 Hr. destruct (krun_split kend all s0 own s H0 Hr) as [fs Hs].
  pose proof Hs as [Hi Hp Hn Hv _]. pose proof Hn as Hn'. rewrite <-Hp in Hn'.
  apply NoDup_app in Hn' as (_ & Hd & Ho). split; [done|].
  split; [intros x Hx; rewrite <-Hp; set_solver|]. split.
  - destruct (split_alloc kend _ _ _ _ Hs) as (s' & Ha & _). eexists _, s'. split; [done|].
    destruct fs as [|v fs]; simpl in *; [done|]. destruct Hi as [_ _ Hva _ _ _]. inv Hva.
    pose proof (kvalid_bounds kend v ltac:(done)). destruct (Z.eqb_spec v 0); [lia|].
    split; [rewrite <-Hp; set_solver|]. apply Hd. left.
  - intros v (own1 & own2 & ->)%list_elem_of_split.
    destruct (split_free kend _ _ _ _ _ _ Hs) as (s' & Hf & _). eauto.
Qed.

(** [kinit1(end, vend)] frees exactly the whole pages between [end] and
    [vend], each once, lowest address last on the list. *)
Theorem kinit1_frees {W} kend vend n (s : kmst W) :
  KERNBASE <= kend -> kend <= vend <= KERNBASE + PHYSTOP ->
  n = Z.to_nat ((vend - PGROUNDUP kend) / PGSIZE) -> PGROUNDUP kend <= vend ->
  freelist s = 0 -> quiet (km_mach s) -> (KMEM < length (m_locks (km_mach s)))%nat ->
  map_Forall (fun _ b => length b = Z.to_nat PGSIZE) (pages s) ->
  (forall v, v ∈ page_run (PGROUNDUP kend) n -> is_Some (pages s !! v)) ->
  exists s', kinit1 kend kend vend s = Ok (tt, s') /\
    kmem_inv kend s' (reverse (page_run (PGROUNDUP kend) n)).
Proof.
  intros. destruct (kinit1_inv kend vend n s) as (s' & Hr & Hi & _); [done..|]. eauto.
Qed.

(** ** Instances *)

Definition demo_end : Z := KERNBASE + EXTMEM + 1.
Definition demo_vend : Z := KERNBASE + EXTMEM + 3 * PGSIZE.
Definition demo_page (k : Z) : Z := KERNBASE + EXTMEM + k * PGSIZE.
Definition demo_kmst : kmst unit :=
  mkkmst (boot_mach 1 tt) false 0
    (<[demo_page 1 := replicate (Z.to_nat PGSIZE) 0]>
      (<[demo_page 2 := replicate (Z.to_nat PGSIZE) 0]> ∅)).
Definition demo_all : list Z := [demo_page 2; demo_page 1].

Lemma demo_run_pages : page_run (PGROUNDUP demo_end) 2 = [demo_page 1; demo_page 2].
Proof. by vm_compute. Qed.

Lemma demo_lengths : map_Forall (fun _ b => length b = Z.to_nat PGSIZE) (pages demo_kmst).
Proof. repeat apply map_Forall_insert_2; [by rewrite length_replicate..|apply map_Forall_empty]. Qed.

Lemma demo_mapped v : v ∈ [demo_page 1; demo_page 2] -> is_Some (pages demo_kmst !! v).
Proof.
  rewrite elem_of_cons, list_elem_of_singleton. unfold demo_kmst. cbn [pages].
  intros [->| ->]; [by rewrite lookup_insert_eq|].
  by rewrite lookup_insert_ne, lookup_insert_eq.
Qed.

Lemma kinit1_frees_witness :
  exists s', kinit1 demo_end demo_end demo_vend demo_kmst = Ok (tt, s') /\
    kmem_inv demo_end s' (reverse (page_run (PGROUNDUP demo_end) 2)).
Proof.
  apply (kinit1_frees demo_end demo_vend 2 demo_kmst).
  - by vm_compute.
  - by vm_compute.
  - by vm_compute.
  - by vm_compute.
  - reflexivity.
  - apply boot_quiet.
  - unfold KMEM. simpl. lia.
  - apply demo_lengths.
  - rewrite demo_run_pages. apply demo_mapped.
Defined.

Lemma demo_split : exists s0 : kmst unit, split_pages demo_end demo_all [] s0 demo_all.
Proof.
  destruct (kinit1_inv demo_end demo_vend 2 demo_kmst) as (s & _ & Hi & Hd).
  - by vm_compute.
  - by vm_compute.
  - by vm_compute.
  - by vm_compute.
  - reflexivity.
  - apply boot_quiet.
  - unfold KMEM. simpl. lia.
  - apply demo_lengths.
  - rewrite demo_run_pages. apply demo_mapped.
  - rewrite demo_run_pages in Hi. change (reverse _) with demo_all in Hi.
    exists s. pose proof Hi as [_ Hn Hv _ _ _].
    split; [done|by rewrite app_nil_r|done|done|].
    intros v Hin. apply elem_of_dom. rewrite Hd. apply elem_of_dom, demo_mapped.
    unfold demo_all in Hin. rewrite elem_of_cons, list_elem_of_singleton in Hin |- *. tauto.
Qed.

Lemma kalloc_safe_witness : exists s0 s : kmst unit,
  krun demo_end s0 [demo_page 2] s /\
  NoDup [demo_page 2] /\ [demo_page 2] ⊆ demo_all /\
  (exists v s', kalloc s = Ok (v, s') /\
    (if v =? 0 then [demo_page 2] ≡ₚ demo_all else v ∈ demo_all /\ v ∉ [demo_page 2])) /\
  (forall v, v ∈ [demo_page 2] -> exists s', kfree demo_end v s = Ok (tt, s')).
Proof.
  destruct demo_split as [s0 H0]. destruct (split_alloc _ _ _ _ _ H0) as (s & Ha & _).
  exists s0, s. assert (krun demo_end s0 [demo_page 2] s) as Hr.
  { exact (krun_alloc demo_end s0 [] s0 _ s (krun_start _ _) Ha). }
  split; [exact Hr|]. exact (kalloc_safe demo_end demo_all s0 [demo_page 2] s H0 Hr).
Defined.
