(* ===== verification/Vm.v ===== *)
(** * Page tables (vm.c)

    The two-level page tables of the x86 as vm.c builds them, in the pages that
    [kalloc] hands out: a directory or a table is a page of 1024 words.  An
    address in the kernel's window is the key of its page plus an offset, as in
    Kalloc. *)

From stdpp Require Import base numbers list gmap strings.
From S2P Require Import Prelude Strings Bytes Spinlock Machine Kalloc.

Open Scope Z_scope.

Definition NPDENTRIES : Z := 1024.
Definition NPTENTRIES : Z := 1024.
Definition PTE_P : Z := 1.
Definition PTE_W : Z := 2.
Definition PTE_U : Z := 4.
Definition KERNLINK : Z := KERNBASE + EXTMEM.

Definition PDX (va : Z) : Z := Z.land (Z.shiftr va 22) 1023.
Definition PTX (va : Z) : Z := Z.land (Z.shiftr va 12) 1023.
Definition PTE_ADDR (pte : Z) : Z := Z.land pte (u32 (Z.lnot 4095)).
Definition PTE_FLAGS (pte : Z) : Z := Z.land pte 4095.

(** [pte & f] as a condition. *)
Definition has (pte f : Z) : bool := negb (Z.land pte f =? 0).

(** The console, and the register that holds the address of the page directory. *)
Class VmWorld (W : Type) := {
  console : string -> W -> W;
  set_cr3 : Z -> W -> W;
}.

Section Vm.
Context {W : Type} {VW : VmWorld W}.
(** The linker's [end] and [data]. *)
Variables kend kdata : Z.

Definition world (f : W -> W) : M (kmst W) unit :=
  modify (fun s => set_km_mach (mkmach (m_locks (km_mach s)) (m_cpu (km_mach s)) (f (m_world (km_mach s)))) s).

(** [memmove] of [d] to offset [off] of the page at [v]. *)
Definition memmove_page (v : Z) (off : nat) (d : list Z) : M (kmst W) unit := fun s =>
  match pages s !! v ≫= fun b => wr_bytes b off d with
  | Some b => Ok (tt, set_pages (<[v := b]> (pages s)) s)
  | None => Err Fault
  end.

(** The [n] bytes at the page at [v]. *)
Definition page_bytes (v : Z) (n : nat) : M (kmst W) (list Z) := fun s =>
  match pages s !! v ≫= fun b => rd_bytes b 0 n with
  | Some d => Ok (d, s)
  | None => Err Fault
  end.

(** The address of the entry, or null. *)
Definition walkpgdir (pgdir va : Z) (alloc : bool) : M (kmst W) Z :=
  let pde := pgdir + 4 * PDX va in
  e ← load pde;
  if has e PTE_P then mret (p2v (PTE_ADDR e) + 4 * PTX va)
  else if negb alloc then mret 0
  else
    pgtab ← kalloc;
    if pgtab =? 0 then mret 0
    else
      memset_page pgtab 0 ;;
      store pde (Z.lor (Z.lor (Z.lor (v2p pgtab) PTE_P) PTE_W) PTE_U) ;;
      mret (pgtab + 4 * PTX va).

Fixpoint mappages_loop (fuel : nat) (pgdir a last pa perm : Z) : M (kmst W) Z :=
  match fuel with
  | O => fail NoFuel
  | S fuel =>
      pte ← walkpgdir pgdir a true;
      if pte =? 0 then mret (-1) else
      e ← load pte;
      if has e PTE_P then panic "remap" else
      store pte (Z.lor (Z.lor pa perm) PTE_P) ;;
      if a =? last then mret 0 else
      mappages_loop fuel pgdir (u32 (a + PGSIZE)) last (u32 (pa + PGSIZE)) perm
  end.

(** One round per page from [a] to [last], counted modulo 2^32. *)
Definition mappages (pgdir va size pa perm : Z) : M (kmst W) Z :=
  let a := PGROUNDDOWN va in
  let last := PGROUNDDOWN (u32 (va + size - 1)) in
  mappages_loop (S (Z.to_nat (u32 (last - a) / PGSIZE))) pgdir a last pa perm.

Record kmap_entry := mkkmap {
  k_virt : Z;
  k_phys_start : Z;
  k_phys_end : Z;
  k_perm : Z;
}.

Definition kmap : list kmap_entry := [
  mkkmap KERNBASE 0 EXTMEM PTE_W;
  mkkmap KERNLINK (u32 (KERNLINK - KERNBASE)) (u32 (kdata - KERNBASE)) 0;
  mkkmap kdata (u32 (kdata - KERNBASE)) PHYSTOP PTE_W;
  mkkmap DEVSPACE DEVSPACE 0 PTE_W ].

Fixpoint setupkvm_loop (pgdir : Z) (l : list kmap_entry) : M (kmst W) Z :=
  match l with
  | [] => mret pgdir
  | k :: l =>
      r ← mappages pgdir (k_virt k) (u32 (k_phys_end k - k_phys_start k)) (k_phys_start k) (k_perm k);
      if r <? 0 then mret 0 else setupkvm_loop pgdir l
  end.

Definition setupkvm : M (kmst W) Z :=
  pgdir ← kalloc;
  if pgdir =? 0 then mret 0 else
  memset_page pgdir 0 ;;
  (if DEVSPACE <? p2v PHYSTOP then panic "PHYSTOP too high" else mret tt) ;;
  setupkvm_loop pgdir kmap.

Definition switchkvm (kpgdir : Z) : M (kmst W) unit := world (set_cr3 (v2p kpgdir)).

(** The new value of [kpgdir]. *)
Definition kvmalloc : M (kmst W) Z :=
  kpgdir ← setupkvm;
  switchkvm kpgdir ;;
  mret kpgdir.

Definition inituvm (pgdir : Z) (init : list Z) (sz : Z) : M (kmst W) unit :=
  if PGSIZE <=? sz then panic "inituvm: more than a page" else
  mem ← kalloc;
  memset_page mem 0 ;;
  mappages pgdir 0 PGSIZE (v2p mem) (Z.lor PTE_W PTE_U) ;;
  d ← lift (match rd_bytes init 0 (Z.to_nat sz) with Some d => Ok d | None => Err Fault end);
  memmove_page mem 0 d.

(** [readi ip dst off n] for the file of the program: the value it returns and
    the bytes it puts at [dst]. *)
Fixpoint loaduvm_loop (readi : Z -> Z -> M (kmst W) (Z * list Z)) (fuel : nat) (pgdir addr offset sz i : Z)
    : M (kmst W) Z :=
  if sz <=? i then mret 0 else
  match fuel with
  | O => fail NoFuel
  | S fuel =>
      pte ← walkpgdir pgdir (u32 (addr + i)) false;
      if pte =? 0 then panic "loaduvm: address should exist" else
      e ← load pte;
      let pa := PTE_ADDR e in
      let n := if sz - i <? PGSIZE then sz - i else PGSIZE in
      r ← readi (u32 (offset + i)) n;
      let (m, d) := r : Z * list Z in
      memmove_page (p2v pa) 0 d ;;
      if negb (u32 m =? n) then mret (-1) else
      loaduvm_loop readi fuel pgdir addr offset sz (u32 (i + PGSIZE))
  end.

Definition loaduvm (readi : Z -> Z -> M (kmst W) (Z * list Z)) (pgdir addr offset sz : Z) : M (kmst W) Z :=
  if negb (addr mod PGSIZE =? 0) then panic "loaduvm: addr must be page aligned" else
  loaduvm_loop readi (Z.to_nat (sz / PGSIZE + 1)) pgdir addr offset sz 0.

Fixpoint deallocuvm_loop (fuel : nat) (pgdir a oldsz : Z) : M (kmst W) unit :=
  if oldsz <=? a then mret tt else
  match fuel with
  | O => fail NoFuel
  | S fuel =>
      pte ← walkpgdir pgdir a false;
      if pte =? 0 then
        deallocuvm_loop fuel pgdir (u32 (a + (NPTENTRIES - 1) * PGSIZE + PGSIZE)) oldsz
      else
        e ← load pte;
        (if has e PTE_P then
           let pa := PTE_ADDR e in
           if pa =? 0 then panic "kfree" else
           kfree kend (p2v pa) ;;
           store pte 0
         else mret tt) ;;
        deallocuvm_loop fuel pgdir (u32 (a + PGSIZE)) oldsz
  end.

(** For [oldsz] up to [KERNBASE] one round per page is enough. *)
Definition deallocuvm (pgdir oldsz newsz : Z) : M (kmst W) Z :=
  if oldsz <=? newsz then mret oldsz else
  deallocuvm_loop (Z.to_nat (oldsz / PGSIZE + 1)) pgdir (PGROUNDUP newsz) oldsz ;;
  mret newsz.

Fixpoint allocuvm_loop (fuel : nat) (pgdir a oldsz newsz : Z) : M (kmst W) Z :=
  if newsz <=? a then mret newsz else
  match fuel with
  | O => fail NoFuel
  | S fuel =>
      mem ← kalloc;
      if mem =? 0 then
        world (console "allocuvm out of memory
") ;;
        deallocuvm pgdir newsz oldsz ;;
        mret 0
      else
        memset_page mem 0 ;;
        mappages pgdir a PGSIZE (v2p mem) (Z.lor PTE_W PTE_U) ;;
        allocuvm_loop fuel pgdir (u32 (a + PGSIZE)) oldsz newsz
  end.

Definition allocuvm (pgdir oldsz newsz : Z) : M (kmst W) Z :=
  if KERNBASE <=? newsz then mret 0 else
  if newsz <? oldsz then mret oldsz else
  allocuvm_loop (Z.to_nat (newsz / PGSIZE + 1)) pgdir (PGROUNDUP oldsz) oldsz newsz.

(** [for(i = 0; i < NPDENTRIES; i++)], [n] rounds left. *)
Fixpoint freevm_loop (pgdir i : Z) (n : nat) : M (kmst W) unit :=
  match n with
  | O => mret tt
  | S n =>
      e ← load (pgdir + 4 * i);
      when (has e PTE_P) (kfree kend (p2v (PTE_ADDR e))) ;;
      freevm_loop pgdir (i + 1) n
  end.

Definition freevm (pgdir : Z) : M (kmst W) unit :=
  if pgdir =? 0 then panic "freevm: no pgdir" else
  deallocuvm pgdir KERNBASE 0 ;;
  freevm_loop pgdir 0 (Z.to_nat NPDENTRIES) ;;
  kfree kend pgdir.

Definition clearpteu (pgdir uva : Z) : M (kmst W) unit :=
  pte ← walkpgdir pgdir uva false;
  if pte =? 0 then panic "clearpteu" else
  e ← load pte;
  store pte (Z.land e (u32 (Z.lnot PTE_U))).

Fixpoint copyuvm_loop (fuel : nat) (pgdir d sz i : Z) : M (kmst W) Z :=
  if sz <=? i then mret d else
  match fuel with
  | O => fail NoFuel
  | S fuel =>
      pte ← walkpgdir pgdir i false;
      if pte =? 0 then panic "copyuvm: pte should exist" else
      e ← load pte;
      if negb (has e PTE_P) then panic "copyuvm: page not present" else
      let pa := PTE_ADDR e in
      let flags := PTE_FLAGS e in
      mem ← kalloc;
      if mem =? 0 then freevm d ;; mret 0 else
      b ← page_bytes (p2v pa) (Z.to_nat PGSIZE);
      memmove_page mem 0 b ;;
      r ← mappages d i PGSIZE (v2p mem) flags;
      if r <? 0 then freevm d ;; mret 0 else
      copyuvm_loop fuel pgdir d sz (u32 (i + PGSIZE))
  end.

Definition copyuvm (pgdir sz : Z) : M (kmst W) Z :=
  d ← setupkvm;
  if d =? 0 then mret 0 else
  copyuvm_loop (Z.to_nat (sz / PGSIZE + 1)) pgdir d sz 0.

(** A null [pte] is dereferenced. *)
Definition uva2ka (pgdir uva : Z) : M (kmst W) Z :=
  pte ← walkpgdir pgdir uva false;
  e ← load pte;
  if negb (has e PTE_P) then mret 0 else
  if negb (has e PTE_U) then mret 0 else
  mret (p2v (PTE_ADDR e)).

Fixpoint copyout_loop (fuel : nat) (pgdir va : Z) (buf : list Z) (len : Z) : M (kmst W) Z :=
  if len =? 0 then mret 0 else
  match fuel with
  | O => fail NoFuel
  | S fuel =>
      let va0 := PGROUNDDOWN va in
      pa0 ← uva2ka pgdir va0;
      if pa0 =? 0 then mret (-1) else
      let n := PGSIZE - (va - va0) in
      let n := if len <? n then len else n in
      d ← lift (match rd_bytes buf 0 (Z.to_nat n) with Some d => Ok d | None => Err Fault end);
      memmove_page pa0 (Z.to_nat (va - va0)) d ;;
      copyout_loop fuel pgdir (u32 (va0 + PGSIZE)) (drop (Z.to_nat n) buf) (len - n)
  end.

Definition copyout (pgdir va : Z) (p : list Z) (len : Z) : M (kmst W) Z :=
  copyout_loop (Z.to_nat (len / PGSIZE + 2)) pgdir va p len.
End Vm.
