(* ===== verification/VmSpec.v ===== *)
(** * Page tables: rules

    What a page directory and its tables map, as a function from virtual page
    numbers to entries, and what each routine of vm.c does to that function and
    to the pages behind it. *)

From stdpp Require Import base numbers list gmap strings sorting.
From S2P Require Import Prelude Strings Bytes Spinlock Machine Kalloc Vm.

Open Scope Z_scope.

(** ** Entries *)

Lemma has_testbit e k : 0 <= k -> has e (2 ^ k) = Z.testbit e k.
Proof.
  intros Hk. unfold has. destruct (Z.testbit e k) eqn:Ht.
  - apply negb_true_iff, Z.eqb_neq. intros H.
    assert (Z.testbit (Z.land e (2 ^ k)) k = false) as H' by by rewrite H, Z.bits_0.
    rewrite Z.land_spec, Z.pow2_bits_true, Ht in H' by done. done.
  - apply negb_false_iff, Z.eqb_eq, Z.bits_inj_0. intros n. rewrite Z.land_spec.
    destruct (decide (n = k)) as [->|Hn]; [by rewrite Ht|]. rewrite Z.pow2_bits_false by done. apply andb_false_r.
Qed.

Lemma has_P e : has e PTE_P = Z.testbit e 0.
Proof. by apply (has_testbit e 0). Qed.

Lemma has_U e : has e PTE_U = Z.testbit e 2.
Proof. by apply (has_testbit e 2). Qed.

(** The bits of an aligned address and of flags do not meet. *)
Lemma aligned_bit x i : x mod PGSIZE = 0 -> 0 <= i < 12 -> Z.testbit x i = false.
Proof.
  intros Hx Hi. change PGSIZE with (2 ^ 12) in Hx. rewrite <-(Z.mod_pow2_bits_low x 12 i) by lia. by rewrite Hx, Z.bits_0.
Qed.

Lemma flag_bit f i : 0 <= f < 4096 -> 12 <= i -> Z.testbit f i = false.
Proof.
  intros Hf Hi. rewrite <-(Z.mod_small f (2 ^ 12)) by lia. by apply Z.mod_pow2_bits_high.
Qed.

Lemma PTE_ADDR_lor x f : 0 <= x < 2 ^ 32 -> x mod PGSIZE = 0 -> 0 <= f < 4096 -> PTE_ADDR (Z.lor x f) = x.
Proof.
  intros Hx Ha Hf. unfold PTE_ADDR. change (u32 (Z.lnot 4095)) with (Z.shiftl (Z.ones 20) 12).
  apply Z.bits_inj'. intros i Hi. rewrite Z.land_spec, Z.lor_spec, Z.shiftl_spec by lia.
  destruct (Z.ltb_spec i 12) as [Hlt|Hge].
  - rewrite (Z.testbit_neg_r _ (i - 12)), andb_false_r by lia. symmetry. by apply aligned_bit.
  - rewrite (flag_bit f i) by lia. rewrite orb_false_r. destruct (Z.ltb_spec i 32).
    + rewrite Z.ones_spec_low by lia. apply andb_true_r.
    + rewrite <-(Z.mod_small x (2 ^ 32)) by lia. by rewrite Z.mod_pow2_bits_high by lia.
Qed.

Lemma PTE_FLAGS_lor x f : x mod PGSIZE = 0 -> 0 <= f < 4096 -> PTE_FLAGS (Z.lor x f) = f.
Proof.
  intros Ha Hf. unfold PTE_FLAGS. change 4095 with (Z.ones 12). rewrite Z.land_ones by lia.
  apply Z.bits_inj'. intros i Hi. destruct (Z.ltb_spec i 12).
  - rewrite Z.mod_pow2_bits_low, Z.lor_spec, aligned_bit by lia. done.
  - rewrite Z.mod_pow2_bits_high by lia. symmetry. apply flag_bit; lia.
Qed.

Lemma lor_bound x f : 0 <= x < 2 ^ 32 -> 0 <= f < 4096 -> 0 <= Z.lor x f < 2 ^ 32.
Proof.
  intros Hx Hf. split; [apply Z.lor_nonneg; lia|]. destruct (decide (Z.lor x f = 0)) as [->|H0]; [lia|].
  apply Z.log2_lt_pow2; [pose proof (Z.lor_nonneg x f); lia|]. rewrite Z.log2_lor by lia.
  apply Z.max_lub_lt.
  - destruct (decide (x = 0)) as [->|]; [done|]. apply Z.log2_lt_pow2; lia.
  - destruct (decide (f = 0)) as [->|]; [done|]. apply Z.log2_lt_pow2; lia.
Qed.

Lemma PDX_spec va : 0 <= va < 2 ^ 32 -> PDX va = va / PGSIZE / 1024.
Proof.
  intros Hva. unfold PDX. rewrite Z.shiftr_div_pow2 by lia. change 1023 with (Z.ones 10). rewrite Z.land_ones by lia.
  rewrite Z.div_div by done. change (PGSIZE * 1024) with (2 ^ 22). apply Z.mod_small.
  split; [apply Z.div_pos; lia|apply Z.div_lt_upper_bound; lia].
Qed.

Lemma PTX_spec va : 0 <= va < 2 ^ 32 -> PTX va = (va / PGSIZE) mod 1024.
Proof.
  intros Hva. unfold PTX. rewrite Z.shiftr_div_pow2 by lia. change 1023 with (Z.ones 10). by rewrite Z.land_ones by lia.
Qed.

(** The kernel address and the physical address of a page. *)
Lemma v2p_valid kend v : kvalid kend v -> 0 <= v2p v < 2 ^ 32 /\ v2p v mod PGSIZE = 0 /\ p2v (v2p v) = v /\ v2p v = v - KERNBASE.
Proof.
  intros (Ha & _ & Hb). assert (Hv : v2p v = v - KERNBASE).
  { apply Z.mod_small. unfold KERNBASE, PHYSTOP in *. lia. }
  rewrite Hv. split; [unfold KERNBASE, PHYSTOP in *; lia|]. split_and!; [| |done].
  - rewrite Zminus_mod, Ha. done.
  - unfold p2v. replace (v - KERNBASE + KERNBASE) with v by lia. apply Z.mod_small. unfold KERNBASE, PHYSTOP in *. lia.
Qed.

(** ** Words of a page *)

(** Entry [j] of the directory or table at [v]. *)
Definition word (pg : gmap Z (list Z)) (v j : Z) : Z := default 0 (pg !! v ≫= fun b => get32 b (4 * Z.to_nat j)).

(** What page [n] maps to: 0 where there is no table. *)
Definition pte (pg : gmap Z (list Z)) (tabs : gmap Z Z) (n : Z) : Z :=
  match tabs !! (n / 1024) with
  | Some t => word pg t (n mod 1024)
  | None => 0
  end.

Section Words.
Context {W : Type}.
Implicit Types s : kmst W.

Lemma word_addr v j : v mod PGSIZE = 0 -> 0 <= j < 1024 ->
  (v + 4 * j) mod PGSIZE = 4 * j /\ v + 4 * j - (v + 4 * j) mod PGSIZE = v.
Proof.
  intros Hv Hj. assert ((v + 4 * j) mod PGSIZE = 4 * j) as ->; [|lia].
  rewrite Z.add_mod, Hv, Z.add_0_l, Z.mod_mod by done. apply Z.mod_small. unfold PGSIZE. lia.
Qed.

Lemma load_word v j b s : v mod PGSIZE = 0 -> 0 <= j < 1024 -> pages s !! v = Some b ->
  length b = Z.to_nat PGSIZE -> load (v + 4 * j) s = Ok (word (pages s) v j, s).
Proof.
  intros Hv Hj Hb Hl. unfold load, word. destruct (word_addr v j Hv Hj) as [Hm Hk].
  rewrite Hk, Hm, Hb. cbn [mbind option_bind]. replace (Z.to_nat (4 * j)) with (4 * Z.to_nat j)%nat by lia.
  destruct (get32_Some b (4 * Z.to_nat j)) as [x Hx]; [unfold PGSIZE in Hl; lia|]. by rewrite Hx.
Qed.

Lemma store_word v j x b s : v mod PGSIZE = 0 -> 0 <= j < 1024 -> pages s !! v = Some b ->
  length b = Z.to_nat PGSIZE ->
  exists b', store (v + 4 * j) x s = Ok (tt, set_pages (<[v := b']> (pages s)) s) /\ length b' = Z.to_nat PGSIZE /\
    forall k, 0 <= k < 1024 -> word (<[v := b']> (pages s)) v k = if k =? j then u32 x else word (pages s) v k.
Proof.
  intros Hv Hj Hb Hl. destruct (word_addr v j Hv Hj) as [Hm Hk].
  destruct (put32_Some b (4 * Z.to_nat j) x) as [b' Hp]; [unfold PGSIZE in Hl; lia|]. exists b'. split_and!.
  - unfold store. rewrite Hk, Hm, Hb. replace (Z.to_nat (4 * j)) with (4 * Z.to_nat j)%nat by lia. by rewrite Hp.
  - rewrite <-Hl. by eapply put32_length.
  - intros k Hk'. unfold word. rewrite lookup_insert_eq, Hb. cbn [mbind option_bind]. destruct (Z.eqb_spec k j) as [->|Hne].
    + by rewrite (get32_put32 _ _ _ _ Hp).
    + rewrite (get32_put32_ne _ _ _ _ _ Hp); [done|]. lia.
Qed.

Lemma word_other pg v w b j : v <> w -> word (<[v := b]> pg) w j = word pg w j.
Proof. intros Hne. unfold word. by rewrite lookup_insert_ne. Qed.
End Words.

(** ** A directory and its tables *)

Definition zero_page : list Z := replicate (Z.to_nat PGSIZE) 0.

Lemma word_zero pg v j : pg !! v = Some zero_page -> 0 <= j < 1024 -> word pg v j = 0.
Proof.
  intros Hv Hj. unfold word. rewrite Hv. cbn [mbind option_bind]. unfold get32, zero_page.
  rewrite rd_bytes_Some by (rewrite length_replicate; unfold PGSIZE; lia).
  rewrite drop_replicate, take_replicate. replace (4 `min` _)%nat with 4%nat by (unfold PGSIZE; lia). done.
Qed.

Definition tabl (tabs : gmap Z Z) : list Z := (map_to_list tabs).*2.

Lemma elem_tabl tabs t : t ∈ tabl tabs <-> exists i, tabs !! i = Some t.
Proof.
  unfold tabl. rewrite list_elem_of_fmap. split.
  - intros ([i t'] & -> & H%elem_of_map_to_list). by exists i.
  - intros (i & H%elem_of_map_to_list). by exists (i, t).
Qed.

Lemma tabl_insert tabs i t : tabs !! i = None -> tabl (<[i := t]> tabs) ≡ₚ t :: tabl tabs.
Proof. intros H. unfold tabl. by rewrite map_to_list_insert. Qed.

Lemma tabl_delete tabs i t : tabs !! i = Some t -> tabl tabs ≡ₚ t :: tabl (delete i tabs).
Proof.
  intros H. rewrite <-(insert_delete_id tabs i t H) at 1. apply tabl_insert, lookup_delete_eq.
Qed.

Lemma tabl_length tabs : length (tabl tabs) = size tabs.
Proof. unfold tabl. by rewrite length_fmap, length_map_to_list. Qed.

Section Dir.
Context {W : Type} {E : error -> Prop} {VW : VmWorld W} (kend : Z) (all : list Z).
Implicit Types s : kmst W.

Lemma split_perm own own' s fs : own ≡ₚ own' -> split_pages kend all own s fs -> split_pages kend all own' s fs.
Proof. intros Hp [? Hperm ? ? ?]. split; try done. by rewrite <-Hp. Qed.

Lemma split_own own s fs v : split_pages kend all own s fs -> v ∈ own ->
  kvalid kend v /\ v ∉ fs /\ exists b, pages s !! v = Some b /\ length b = Z.to_nat PGSIZE.
Proof.
  intros [Hi Hp Hn Hv Hm] Hin. assert (Hall : v ∈ all) by (rewrite <-Hp; set_solver).
  rewrite Forall_forall in Hv. split; [by apply Hv|]. split.
  - rewrite <-Hp in Hn. apply NoDup_app in Hn as (_ & Hd & _). intros Hf. by apply (Hd v Hf).
  - destruct (Hm v Hall) as [b Hb]. exists b. split; [done|]. by eapply (ki_length _ _ _ Hi).
Qed.

Lemma split_nodup own s fs : split_pages kend all own s fs -> NoDup own.
Proof. intros [_ Hp Hn _ _]. rewrite <-Hp in Hn. by apply NoDup_app in Hn as (_ & _ & ?). Qed.

(** The directory at [dir] has the tables [tabs]; the pages of [rest] have other
    owners and those of [fs] are free. *)
Record dirp (rest : list Z) (s : kmst W) (fs : list Z) (dir : Z) (tabs : gmap Z Z) : Prop := {
  dp_split : split_pages kend all (rest ++ dir :: tabl tabs) s fs;
  dp_keys i t : tabs !! i = Some t -> 0 <= i < 1024;
  dp_pde i : 0 <= i < 1024 ->
    match tabs !! i with
    | Some t => has (word (pages s) dir i) PTE_P = true /\ p2v (PTE_ADDR (word (pages s) dir i)) = t
    | None => has (word (pages s) dir i) PTE_P = false
    end;
}.

Section facts.
Context (rest : list Z) (s : kmst W) (fs : list Z) (dir : Z) (tabs : gmap Z Z).
Hypothesis H : dirp rest s fs dir tabs.

Lemma dirp_dir : kvalid kend dir /\ dir ∉ fs /\ exists b, pages s !! dir = Some b /\ length b = Z.to_nat PGSIZE.
Proof. eapply split_own; [apply H|]. set_solver. Qed.

Lemma dirp_tab i t : tabs !! i = Some t ->
  kvalid kend t /\ t ∉ fs /\ t ∉ rest /\ t <> dir /\ exists b, pages s !! t = Some b /\ length b = Z.to_nat PGSIZE.
Proof.
  intros Ht. assert (Hin : t ∈ tabl tabs) by (apply elem_tabl; by exists i).
  destruct (split_own _ _ _ t (dp_split _ _ _ _ _ H)) as (Hv & Hf & Hb); [set_solver|].
  pose proof (split_nodup _ _ _ (dp_split _ _ _ _ _ H)) as Hnd.
  apply NoDup_app in Hnd as (_ & Hd & Hnd). apply NoDup_cons in Hnd as [Hdir _].
  split_and!; try done; [intros Hr; apply (Hd t Hr); set_solver|by intros ->].
Qed.

Lemma dirp_rest v : v ∈ rest -> v <> dir /\ v ∉ tabl tabs /\ v ∉ fs /\ kvalid kend v.
Proof.
  intros Hv. pose proof (split_nodup _ _ _ (dp_split _ _ _ _ _ H)) as Hnd.
  apply NoDup_app in Hnd as (_ & Hd & _). specialize (Hd v Hv).
  destruct (split_own _ _ _ v (dp_split _ _ _ _ _ H)) as (Hk & Hf & _); [set_solver|].
  split_and!; [by intros ->; set_solver|set_solver|done|done].
Qed.

Lemma dirp_inj i j t : tabs !! i = Some t -> tabs !! j = Some t -> i = j.
Proof.
  intros Hi Hj. destruct (decide (i = j)) as [|Hne]; [done|]. exfalso.
  pose proof (split_nodup _ _ _ (dp_split _ _ _ _ _ H)) as Hnd.
  apply NoDup_app in Hnd as (_ & _ & Hnd). apply NoDup_cons in Hnd as [_ Hnd].
  rewrite (tabl_delete _ _ _ Hi) in Hnd. apply NoDup_cons in Hnd as [Hn _]. apply Hn, elem_tabl. exists j.
  by rewrite lookup_delete_ne.
Qed.
End facts.
(** ** Rules *)

Lemma memset_page_ok v c b s : pages s !! v = Some b -> length b = Z.to_nat PGSIZE ->
  memset_page v c s = Ok (tt, set_pages (<[v := replicate (Z.to_nat PGSIZE) (u8 c)]> (pages s)) s).
Proof.
  intros Hb Hl. destruct (memset_updated b 0 c (Z.to_nat PGSIZE)) as (b' & Hm & Hl' & Hu); [lia|].
  unfold memset_page. rewrite Hb, Hm. assert (b' = replicate (Z.to_nat PGSIZE) (u8 c)) as ->; [|done].
  apply list_eq. intros i. rewrite Hu. destruct (decide _) as [Hi|Hi].
  - symmetry. apply lookup_replicate. lia.
  - rewrite !(proj2 (lookup_ge_None _ _)); [done| |]; rewrite ?length_replicate; lia.
Qed.

Lemma split_kalloc own Q s fs : split_pages kend all own s fs ->
  (fs = [] -> forall s', pages s' = pages s -> split_pages kend all own s' [] -> Q 0 s') ->
  (forall v fs' s', fs = v :: fs' -> v <> 0 -> pages s' = pages s -> split_pages kend all (v :: own) s' fs' -> Q v s') ->
  wp E kalloc Q s.
Proof.
  intros [Hi Hp Hn Hv Hm] H0 H1. eapply wp_kalloc; [exact Hi|]. intros s' Hpg _ Hi'. destruct fs as [|v fs]; simpl.
  - apply H0; [done..|]. split; try done. by rewrite Hpg.
  - eapply H1; [done| |done|].
    + pose proof (ki_valid _ _ _ Hi) as Hk. inv Hk. pose proof (kvalid_bounds kend v ltac:(done)). lia.
    + split; try done; [|by rewrite Hpg]. rewrite <-Hp. simpl. by rewrite Permutation_middle.
Qed.

Lemma split_kfree own v Q s fs : split_pages kend all (v :: own) s fs ->
  (forall s', (forall w, w <> v -> pages s' !! w = pages s !! w) -> split_pages kend all own s' (v :: fs) -> Q tt s') ->
  wp E (kfree kend v) Q s.
Proof.
  intros Hs HQ. destruct (split_own _ _ _ v Hs) as (Hv & Hf & b & Hb & _); [left|].
  destruct Hs as [Hi Hp Hn Hva Hm]. eapply wp_kfree; [exact Hi|done|done|exact Hb|].
  intros s' b' Hpg _ Hi'. apply HQ.
  - intros w Hw. rewrite Hpg. by apply lookup_insert_ne.
  - split; try done; [rewrite <-Hp; simpl; by rewrite Permutation_middle|].
    intros w Hw. rewrite Hpg. destruct (decide (v = w)) as [->|]; [by rewrite lookup_insert_eq|].
    rewrite lookup_insert_ne by done. by apply Hm.
Qed.

Lemma pte_frame pg pg' tabs n : (forall t, t ∈ tabl tabs -> pg' !! t = pg !! t) -> pte pg' tabs n = pte pg tabs n.
Proof.
  intros Hf. unfold pte. destruct (tabs !! (n / 1024)) as [t|] eqn:Ht; [|done]. unfold word. rewrite Hf; [done|].
  apply elem_tabl. eauto.
Qed.

(** The directory is as before when its pages are. *)
Lemma dirp_frame rest rest' s s' fs fs' dir tabs :
  dirp rest s fs dir tabs -> split_pages kend all (rest' ++ dir :: tabl tabs) s' fs' ->
  pages s' !! dir = pages s !! dir -> dirp rest' s' fs' dir tabs.
Proof.
  intros [_ Hk Hd] Hs Hp. split; try done. intros i Hi. specialize (Hd i Hi). unfold word in *. by rewrite Hp.
Qed.

Lemma dirp_write rest s fs dir tabs w b : dirp rest s fs dir tabs -> w ∈ rest -> length b = Z.to_nat PGSIZE ->
  dirp rest (set_pages (<[w := b]> (pages s)) s) fs dir tabs /\
  forall n, pte (<[w := b]> (pages s)) tabs n = pte (pages s) tabs n.
Proof.
  intros H Hw Hb. destruct (dirp_rest _ _ _ _ _ H w Hw) as (Hd & Ht & _). split.
  - eapply dirp_frame; [exact H| |simpl; by apply lookup_insert_ne].
    apply split_write; [apply H|set_solver|done].
  - intros n. apply pte_frame. intros t Hin. apply lookup_insert_ne. by intros ->.
Qed.

(** A present entry of the directory. *)
Lemma pde_entry v : kvalid kend v ->
  let e := u32 (Z.lor (Z.lor (Z.lor (v2p v) PTE_P) PTE_W) PTE_U) in
  has e PTE_P = true /\ p2v (PTE_ADDR e) = v.
Proof.
  intros Hv. destruct (v2p_valid _ _ Hv) as (Hb & Ha & Hp & _). rewrite <-!Z.lor_assoc. change (Z.lor PTE_P _) with 7.
  intros e. assert (He : e = Z.lor (v2p v) 7) by (apply Z.mod_small, lor_bound; [done|lia]).
  rewrite He. split; [|by rewrite PTE_ADDR_lor by (done || lia)].
  rewrite has_P, Z.lor_spec. by rewrite orb_true_r.
Qed.

(** A table added to the directory. *)
Lemma dirp_add_table rest s fs dir tabs i v : dirp (v :: rest) s fs dir tabs -> 0 <= i < 1024 -> tabs !! i = None ->
  pages s !! v = Some zero_page ->
  exists s', store (dir + 4 * i) (Z.lor (Z.lor (Z.lor (v2p v) PTE_P) PTE_W) PTE_U) s = Ok (tt, s') /\
    dirp rest s' fs dir (<[i := v]> tabs) /\ (forall w, w <> dir -> pages s' !! w = pages s !! w) /\
    forall n, pte (pages s') (<[i := v]> tabs) n = pte (pages s) tabs n.
Proof.
  intros H Hi Hnone Hz. destruct (dirp_dir _ _ _ _ _ H) as (Hkd & _ & b & Hb & Hl).
  destruct (dirp_rest _ _ _ _ _ H v) as (Hvd & _ & _ & Hkv); [left|].
  destruct (kvalid_bounds _ _ Hkd) as [_ Had].
  destruct (store_word dir i (Z.lor (Z.lor (Z.lor (v2p v) PTE_P) PTE_W) PTE_U) b s) as (b' & Hst & Hl' & Hw); [done..|].
  eexists. split; [exact Hst|]. simpl.
  assert (Hout : forall w, w <> dir -> <[dir := b']> (pages s) !! w = pages s !! w) by (intros; by apply lookup_insert_ne).
  split; [split|split; [done|]].
  - apply (split_perm ((v :: rest) ++ dir :: tabl tabs)); [rewrite tabl_insert by done; simpl; solve_Permutation|].
    apply split_write; [apply H|set_solver|done].
  - intros j t [(-> & _)|(_ & Hj)]%lookup_insert_Some; [done|]. by eapply (dp_keys _ _ _ _ _ H).
  - intros j Hj. simpl. rewrite Hw by done. destruct (Z.eqb_spec j i) as [->|Hne].
    + rewrite lookup_insert_eq. by apply pde_entry.
    + rewrite lookup_insert_ne by done. by apply (dp_pde _ _ _ _ _ H).
  - intros n. unfold pte. destruct (decide (n / 1024 = i)) as [<-|Hne].
    + rewrite lookup_insert_eq, Hnone. apply word_zero; [by rewrite Hout|]. by apply Z.mod_pos_bound.
    + rewrite lookup_insert_ne by done. destruct (tabs !! (n / 1024)) as [t|] eqn:Ht; [|done].
      destruct (dirp_tab _ _ _ _ _ H _ _ Ht) as (_ & _ & _ & Htd & _). by apply word_other.
Qed.

(** [va] in page [n]. *)
Definition in_page (n va : Z) : Prop := 0 <= n < 1048576 /\ va / PGSIZE = n.

Lemma in_page_idx n va : in_page n va ->
  PDX va = n / 1024 /\ PTX va = n mod 1024 /\ 0 <= n / 1024 < 1024 /\ 0 <= n mod 1024 < 1024.
Proof.
  intros [Hn Hva]. assert (0 <= va < 2 ^ 32).
  { pose proof (Z.div_mod va PGSIZE). pose proof (Z.mod_pos_bound va PGSIZE). unfold PGSIZE in *. lia. }
  rewrite PDX_spec, PTX_spec, Hva by done. split_and!; try done.
  - apply Z.div_pos; lia.
  - apply Z.div_lt_upper_bound; lia.
  - by apply Z.mod_pos_bound.
  - by apply Z.mod_pos_bound.
Qed.

Lemma in_page_start n : 0 <= n < 1048576 -> in_page n (n * PGSIZE).
Proof. intros Hn. split; [done|]. by apply Z.div_mul. Qed.

Lemma wp_walk_found rest s fs dir tabs n va alloc t Q : dirp rest s fs dir tabs -> in_page n va ->
  tabs !! (n / 1024) = Some t -> Q (t + 4 * (n mod 1024)) s -> wp E (walkpgdir dir va alloc) Q s.
Proof.
  intros H Hp Ht HQ. destruct (in_page_idx _ _ Hp) as (Hpdx & Hptx & Hi & Hj).
  destruct (dirp_dir _ _ _ _ _ H) as (Hkd & _ & b & Hb & Hl). destruct (kvalid_bounds _ _ Hkd) as [_ Had].
  unfold walkpgdir. rewrite Hpdx, Hptx. apply wp_bind. eapply wp_Ok; [by apply (load_word dir (n / 1024) b)|].
  pose proof (dp_pde _ _ _ _ _ H (n / 1024) Hi) as Hd. rewrite Ht in Hd. destruct Hd as [-> ->]. by apply wp_ret.
Qed.

Lemma wp_walk_none rest s fs dir tabs n va Q : dirp rest s fs dir tabs -> in_page n va ->
  tabs !! (n / 1024) = None -> Q 0 s -> wp E (walkpgdir dir va false) Q s.
Proof.
  intros H Hp Ht HQ. destruct (in_page_idx _ _ Hp) as (Hpdx & Hptx & Hi & Hj).
  destruct (dirp_dir _ _ _ _ _ H) as (Hkd & _ & b & Hb & Hl). destruct (kvalid_bounds _ _ Hkd) as [_ Had].
  unfold walkpgdir. rewrite Hpdx. apply wp_bind. eapply wp_Ok; [by apply (load_word dir (n / 1024) b)|].
  pose proof (dp_pde _ _ _ _ _ H (n / 1024) Hi) as Hd. rewrite Ht in Hd. rewrite Hd. by apply wp_ret.
Qed.

Lemma tab_nonzero rest s fs dir tabs i t j : dirp rest s fs dir tabs -> tabs !! i = Some t -> 0 <= j -> t + 4 * j <> 0.
Proof.
  intros H Ht Hj. destruct (dirp_tab _ _ _ _ _ H _ _ Ht) as (Hk & _). destruct (kvalid_bounds _ _ Hk). lia.
Qed.

(** With allocation: the table is there, or a free page becomes one, or there is
    no free page left. *)
Lemma wp_walk_alloc rest s fs dir tabs n va Q : dirp rest s fs dir tabs -> in_page n va ->
  (fs = [] -> tabs !! (n / 1024) = None -> forall s', pages s' = pages s -> dirp rest s' [] dir tabs -> Q 0 s') ->
  (forall s' fs' tabs' t, dirp rest s' fs' dir tabs' -> tabs ⊆ tabs' -> dom tabs' = dom tabs ∪ {[n / 1024]} ->
     tabs' !! (n / 1024) = Some t -> (length fs' + size tabs' = length fs + size tabs)%nat ->
     (forall m, pte (pages s') tabs' m = pte (pages s) tabs m) ->
     (forall w, w ∈ rest -> pages s' !! w = pages s !! w) -> Q (t + 4 * (n mod 1024)) s') ->
  wp E (walkpgdir dir va true) Q s.
Proof.
  intros H Hp H0 H1. destruct (in_page_idx _ _ Hp) as (Hpdx & Hptx & Hi & Hj).
  destruct (tabs !! (n / 1024)) as [t|] eqn:Ht.
  { eapply wp_walk_found; [exact H|exact Hp|exact Ht|]. eapply (H1 s fs tabs t); try done.
    assert (n / 1024 ∈ dom tabs) by (by apply elem_of_dom). set_solver. }
  destruct (dirp_dir _ _ _ _ _ H) as (Hkd & _ & b & Hb & Hl). destruct (kvalid_bounds _ _ Hkd) as [_ Had].
  unfold walkpgdir. rewrite Hpdx, Hptx. apply wp_bind. eapply wp_Ok; [by apply (load_word dir (n / 1024) b)|].
  pose proof (dp_pde _ _ _ _ _ H (n / 1024) Hi) as Hd. rewrite Ht in Hd. rewrite Hd. cbn [negb]. apply wp_bind.
  eapply split_kalloc; [apply H| |].
  { intros -> s1 Hp1 Hs1. simpl. apply wp_ret. apply H0; try done. eapply dirp_frame; [exact H|exact Hs1|by rewrite Hp1]. }
  intros v fs' s1 -> Hv0 Hp1 Hs1. destruct (Z.eqb_spec v 0); [done|].
  assert (H1' : dirp (v :: rest) s1 fs' dir tabs) by (eapply dirp_frame; [exact H|exact Hs1|by rewrite Hp1]).
  destruct (split_own _ _ _ v Hs1) as (_ & _ & bv & Hbv & Hlv); [left|].
  apply wp_bind. eapply wp_Ok; [by apply (memset_page_ok v 0 bv)|]. change (replicate _ (u8 0)) with zero_page.
  destruct (dirp_write _ _ _ _ _ v zero_page H1') as [H2 Hpte2]; [left|apply length_replicate|].
  destruct (dirp_add_table _ _ _ _ _ (n / 1024) v H2 Hi Ht) as (s3 & Hst & H3 & Hout & Hpte3); [simpl; by apply lookup_insert_eq|].
  apply wp_bind. eapply wp_Ok; [exact Hst|]. apply wp_ret.
  eapply (H1 s3 fs' (<[n / 1024 := v]> tabs) v); [exact H3|by apply insert_subseteq| |by apply lookup_insert_eq| | |].
  - rewrite dom_insert_L. set_solver.
  - rewrite map_size_insert_None by done. simpl. lia.
  - intros m. rewrite Hpte3. simpl. rewrite Hpte2. by rewrite Hp1.
  - intros w Hw. destruct (dirp_rest _ _ _ _ _ H1' w) as (Hwd & _); [by right|].
    rewrite Hout by done. simpl. rewrite lookup_insert_ne, Hp1; [done|].
    intros ->. pose proof (split_nodup _ _ _ Hs1) as Hnd. apply NoDup_cons in Hnd as [Hnd _]. set_solver.
Qed.

Lemma wp_pte_load rest s fs dir tabs n t Q : dirp rest s fs dir tabs -> tabs !! (n / 1024) = Some t ->
  Q (pte (pages s) tabs n) s -> wp E (load (t + 4 * (n mod 1024))) Q s.
Proof.
  intros H Ht HQ. destruct (dirp_tab _ _ _ _ _ H _ _ Ht) as (Hk & _ & _ & _ & b & Hb & Hl).
  destruct (kvalid_bounds _ _ Hk) as [_ Ha]. unfold pte in HQ. rewrite Ht in HQ.
  eapply wp_Ok; [|exact HQ]. apply (load_word t (n mod 1024) b); try done. by apply Z.mod_pos_bound.
Qed.

Lemma wp_pte_store rest s fs dir tabs n t x Q : dirp rest s fs dir tabs -> tabs !! (n / 1024) = Some t ->
  (forall s', dirp rest s' fs dir tabs ->
     (forall m, pte (pages s') tabs m = if m =? n then u32 x else pte (pages s) tabs m) ->
     (forall w, w ∈ rest -> pages s' !! w = pages s !! w) -> Q tt s') ->
  wp E (store (t + 4 * (n mod 1024)) x) Q s.
Proof.
  intros H Ht HQ. destruct (dirp_tab _ _ _ _ _ H _ _ Ht) as (Hk & _ & Htr & Htd & b & Hb & Hl).
  destruct (kvalid_bounds _ _ Hk) as [_ Ha]. pose proof (Z.mod_pos_bound n 1024 ltac:(lia)) as Hj.
  destruct (store_word t (n mod 1024) x b s Ha Hj Hb Hl) as (b' & Hst & Hl' & Hw).
  eapply wp_Ok; [exact Hst|]. apply HQ; simpl.
  - eapply dirp_frame; [exact H| |simpl; by apply lookup_insert_ne].
    apply split_write; [apply H| |done]. assert (t ∈ tabl tabs) by (apply elem_tabl; eauto). set_solver.
  - intros m. unfold pte. destruct (tabs !! (m / 1024)) as [t'|] eqn:Ht'.
    + destruct (decide (t' = t)) as [->|Hne].
      * assert (m / 1024 = n / 1024) as He by (by eapply dirp_inj). rewrite Hw by (by apply Z.mod_pos_bound).
        destruct (Z.eqb_spec m n) as [->|Hmn]; [by rewrite Z.eqb_refl|].
        destruct (Z.eqb_spec (m mod 1024) (n mod 1024)) as [Hmod|]; [|done].
        exfalso. apply Hmn. rewrite (Z.div_mod m 1024), (Z.div_mod n 1024) by lia. by rewrite He, Hmod.
      * destruct (Z.eqb_spec m n) as [->|Hmn]; [congruence|]. by apply word_other.
    + destruct (Z.eqb_spec m n) as [->|Hmn]; [congruence|done].
  - intros w Hw'. apply lookup_insert_ne. by intros ->.
Qed.

(** ** Mapping pages *)

(** The entry for physical address [pa]. *)
Definition entry_for (pa perm : Z) : Z := u32 (Z.lor (Z.lor pa perm) PTE_P).

(** What [mappages] leaves when it is asked for [k] pages after page [n]. *)
Record mapres (rest : list Z) (s : kmst W) (fs : list Z) (dir : Z) (tabs : gmap Z Z) (n k pa perm : Z)
    (r : Z) (s' : kmst W) (fs' : list Z) (tabs' : gmap Z Z) : Prop := {
  mr_dir : dirp rest s' fs' dir tabs';
  mr_sub : tabs ⊆ tabs';
  mr_keys i : is_Some (tabs' !! i) -> is_Some (tabs !! i) \/ n / 1024 <= i <= (n + k) / 1024;
  mr_count : (length fs' + size tabs' = length fs + size tabs)%nat;
  mr_rest w : w ∈ rest -> pages s' !! w = pages s !! w;
  mr_out m : ~ (n <= m <= n + k) -> pte (pages s') tabs' m = pte (pages s) tabs m;
  mr_done : r = 0 -> forall m, n <= m <= n + k -> pte (pages s') tabs' m = entry_for (u32 (pa + (m - n) * PGSIZE)) perm;
  mr_oom : r = 0 \/ r = -1 /\ fs' = [] /\ exists m, n <= m <= n + k /\ tabs' !! (m / 1024) = None;
}.

Lemma wp_mappages_loop k fuel n pa perm rest s fs dir tabs Q :
  dirp rest s fs dir tabs -> 0 <= n -> n + Z.of_nat k < 1048576 -> (k < fuel)%nat -> 0 <= pa < 2 ^ 32 ->
  (forall m, n <= m <= n + Z.of_nat k -> has (pte (pages s) tabs m) PTE_P = false) ->
  (forall r s' fs' tabs', mapres rest s fs dir tabs n (Z.of_nat k) pa perm r s' fs' tabs' -> Q r s') ->
  wp E (mappages_loop fuel dir (n * PGSIZE) ((n + Z.of_nat k) * PGSIZE) pa perm) Q s.
Proof.
  revert fuel n pa s fs tabs Q.
  induction k as [|k IH]; intros [|fuel] n pa s fs tabs Q H Hn Hk Hf Hpa Hfree HQ; try lia; cbn [mappages_loop];
    apply wp_bind; (eapply wp_walk_alloc; [exact H|apply in_page_start; lia| |]).
  all: try (intros -> Hnone s1 Hp1 H1; apply wp_ret; apply (HQ _ s1 [] tabs); split; try done;
    [intros i Hi; by left|by rewrite Hp1|intros m Hm; by rewrite Hp1|right; split_and!; [done..|exists n; split; [lia|done]]]).
  all: intros s1 fs1 tabs1 t H1 Hsub Hdom Ht Hcnt Hpte Hrest.
  all: destruct (Z.eqb_spec (t + 4 * (n mod 1024)) 0) as [Ht0|Ht0];
    [exfalso; revert Ht0; eapply tab_nonzero; [exact H1|exact Ht|by apply Z.mod_pos_bound]|].
  all: apply wp_bind; eapply wp_pte_load; [exact H1|exact Ht|].
  all: rewrite Hpte, Hfree by lia.
  all: apply wp_bind; eapply wp_pte_store; [exact H1|exact Ht|].
  all: intros s2 H2 Hpte2 Hrest2.
  all: assert (Hk1 : forall i, is_Some (tabs1 !! i) -> is_Some (tabs !! i) \/ i = n / 1024)
    by (intros i [x Hi]; assert (i ∈ dom tabs1) as Hi' by (by apply elem_of_dom_2 in Hi); rewrite Hdom in Hi';
        apply elem_of_union in Hi' as [Hi'|Hi']; [left; by apply elem_of_dom|right; by apply elem_of_singleton in Hi']).
  - rewrite Z.add_0_r, Z.eqb_refl. apply wp_ret. apply (HQ _ s2 fs1 tabs1). split; try done.
    + intros i Hi. destruct (Hk1 i Hi) as [?| ->]; [by left|right]. rewrite Z.add_0_r. lia.
    + intros w Hw. by rewrite Hrest2, Hrest.
    + intros m Hm. rewrite Hpte2, Hpte. destruct (Z.eqb_spec m n); [lia|done].
    + intros _ m Hm. assert (m = n) as -> by lia. rewrite Hpte2, Z.eqb_refl. unfold entry_for. do 3 f_equal.
      rewrite Z.sub_diag, Z.add_0_r. symmetry. by apply Z.mod_small.
    + by left.
  - destruct (Z.eqb_spec (n * PGSIZE) ((n + Z.of_nat (S k)) * PGSIZE)) as [He|_]; [unfold PGSIZE in He; lia|].
    replace (u32 (n * PGSIZE + PGSIZE)) with ((n + 1) * PGSIZE) by (symmetry; unfold u32; rewrite Z.mod_small; unfold PGSIZE; lia).
    replace (n + Z.of_nat (S k)) with ((n + 1) + Z.of_nat k) by lia.
    apply (IH fuel (n + 1) (u32 (pa + PGSIZE)) s2 fs1 tabs1); [exact H2|lia|lia|lia|by apply Z.mod_pos_bound| |].
    { intros m Hm. rewrite Hpte2, Hpte. destruct (Z.eqb_spec m n); [lia|]. apply Hfree. lia. }
    intros r s3 fs3 tabs3 [H3 Hsub3 Hk3 Hcnt3 Hrest3 Hout3 Hdone3 Hoom3]. apply (HQ r s3 fs3 tabs3). split; try done.
    + by etrans.
    + intros i Hi. destruct (Hk3 i Hi) as [Hi'|Hi'].
      * destruct (Hk1 i Hi') as [?| ->]; [by left|right]. split; [lia|]. apply Z.div_le_mono; lia.
      * right. replace (n + 1 + Z.of_nat k) with (n + Z.of_nat (S k)) in Hi' by lia.
        assert (n / 1024 <= (n + 1) / 1024) by (apply Z.div_le_mono; lia). lia.
    + lia.
    + intros w Hw. by rewrite Hrest3, Hrest2, Hrest.
    + intros m Hm. rewrite Hout3 by lia. rewrite Hpte2, Hpte. destruct (Z.eqb_spec m n); [lia|done].
    + intros Hr m Hm. destruct (decide (m = n)) as [->|Hmn].
      * rewrite Hout3, Hpte2, Z.eqb_refl by lia. unfold entry_for. do 3 f_equal.
        rewrite Z.sub_diag, Z.add_0_r. symmetry. by apply Z.mod_small.
      * rewrite (Hdone3 Hr) by lia. f_equal. unfold u32. rewrite Zplus_mod_idemp_l. f_equal. lia.
    + destruct Hoom3 as [|(? & ? & m & Hm & ?)]; [by left|right]. split_and!; [done..|]. exists m. split; [lia|done].
Qed.

Lemma wp_mappages k n pa perm rest s fs dir tabs Q :
  dirp rest s fs dir tabs -> 0 <= n -> 0 <= k -> n + k < 1048576 -> 0 <= pa < 2 ^ 32 ->
  (forall m, n <= m <= n + k -> has (pte (pages s) tabs m) PTE_P = false) ->
  (forall r s' fs' tabs', mapres rest s fs dir tabs n k pa perm r s' fs' tabs' -> Q r s') ->
  wp E (mappages dir (n * PGSIZE) ((k + 1) * PGSIZE) pa perm) Q s.
Proof.
  intros H Hn Hk Hb Hpa Hfree HQ. unfold mappages.
  rewrite (PGROUNDDOWN_spec (n * PGSIZE)), Z.div_mul by (unfold PGSIZE; lia).
  replace (u32 (n * PGSIZE + (k + 1) * PGSIZE - 1)) with ((n + k) * PGSIZE + (PGSIZE - 1))
    by (unfold u32; rewrite Z.mod_small; unfold PGSIZE; lia).
  rewrite PGROUNDDOWN_spec by (unfold PGSIZE; lia).
  rewrite (Z.add_comm _ (PGSIZE - 1)), Z.div_add, (Z.div_small (PGSIZE - 1)), Z.add_0_l by (unfold PGSIZE; lia).
  replace (u32 ((n + k) * PGSIZE - n * PGSIZE)) with (k * PGSIZE) by (unfold u32; rewrite Z.mod_small; unfold PGSIZE; lia).
  rewrite Z.div_mul by (unfold PGSIZE; lia). replace (n + k) with (n + Z.of_nat (Z.to_nat k)) by lia.
  eapply wp_mappages_loop; [exact H|lia|lia|lia|done| |].
  - intros m Hm. apply Hfree. lia.
  - intros r s' fs' tabs' Hr. rewrite Z2Nat.id in Hr by done. by eapply HQ.
Qed.

(** ** The kernel's mappings *)

(** [sg_k] pages after page [sg_n], from physical address [sg_pa] on. *)
Record seg := mkseg {
  sg_n : Z;
  sg_k : Z;
  sg_pa : Z;
  sg_perm : Z;
}.

Definition in_seg (g : seg) (m : Z) : bool := (sg_n g <=? m) && (m <=? sg_n g + sg_k g).
Definition seg_pte (g : seg) (m : Z) : Z := entry_for (u32 (sg_pa g + (m - sg_n g) * PGSIZE)) (sg_perm g).

Fixpoint segs_pte (l : list seg) (m d : Z) : Z :=
  match l with
  | [] => d
  | g :: l => if in_seg g m then seg_pte g m else segs_pte l m d
  end.

(** The entry of [kmap] that stands for [g]. *)
Definition is_kmap (k : kmap_entry) (g : seg) : Prop :=
  k_virt k = sg_n g * PGSIZE /\ u32 (k_phys_end k - k_phys_start k) = (sg_k g + 1) * PGSIZE /\
  k_phys_start k = sg_pa g /\ k_perm k = sg_perm g /\
  0 <= sg_n g /\ 0 <= sg_k g /\ sg_n g + sg_k g < 1048576 /\ 0 <= sg_pa g < 2 ^ 32.

Definition before (g h : seg) : Prop := sg_n g + sg_k g < sg_n h.

Record kvmres (rest : list Z) (s : kmst W) (fs : list Z) (dir : Z) (tabs : gmap Z Z) (l : list seg)
    (r : Z) (s' : kmst W) (fs' : list Z) (tabs' : gmap Z Z) : Prop := {
  kr_dir : dirp rest s' fs' dir tabs';
  kr_keys i : is_Some (tabs' !! i) ->
    is_Some (tabs !! i) \/ exists g, g ∈ l /\ sg_n g / 1024 <= i <= (sg_n g + sg_k g) / 1024;
  kr_count : (length fs' + size tabs' = length fs + size tabs)%nat;
  kr_rest w : w ∈ rest -> pages s' !! w = pages s !! w;
  kr_res : (r = dir /\ forall m, pte (pages s') tabs' m = segs_pte l m (pte (pages s) tabs m)) \/ (r = 0 /\ fs' = []);
}.

Lemma segs_pte_after g l m d : Forall (before g) l -> in_seg g m = true -> segs_pte l m d = d.
Proof.
  intros Hl Hm. unfold in_seg in Hm. apply andb_true_iff in Hm as [H1%Z.leb_le H2%Z.leb_le].
  induction Hl as [|h l Hh _ IH]; [done|]. simpl. unfold before in Hh.
  assert (in_seg h m = false) as ->; [|done]. unfold in_seg. destruct (Z.leb_spec (sg_n h) m); [lia|done].
Qed.

Lemma wp_setupkvm_loop ks l rest s fs dir tabs Q :
  dirp rest s fs dir tabs -> Forall2 is_kmap ks l -> StronglySorted before l ->
  (forall g m, g ∈ l -> in_seg g m = true -> has (pte (pages s) tabs m) PTE_P = false) ->
  (forall r s' fs' tabs', kvmres rest s fs dir tabs l r s' fs' tabs' -> Q r s') ->
  wp E (setupkvm_loop dir ks) Q s.
Proof.
  intros H Hks. revert s fs tabs Q H. induction Hks as [|k g ks l Hkg Hks IH]; intros s fs tabs Q H Hsort Hfree HQ; cbn [setupkvm_loop].
  { apply wp_ret. apply (HQ dir s fs tabs). split; try done; [intros i Hi; by left|by left]. }
  destruct Hkg as (-> & -> & -> & -> & Hn & Hk & Hb & Hpa). apply StronglySorted_inv in Hsort as [Hsort Hbefore]. apply wp_bind.
  eapply wp_mappages; [exact H|done|done|done|done| |].
  { intros m Hm. apply (Hfree g); [left|]. unfold in_seg. apply andb_true_iff. split; apply Z.leb_le; lia. }
  intros r s1 fs1 tabs1 [H1 Hsub1 Hk1 Hcnt1 Hrest1 Hout1 Hdone1 Hoom1].
  assert (Hkeys : forall i, is_Some (tabs1 !! i) ->
    is_Some (tabs !! i) \/ exists g', g' ∈ g :: l /\ sg_n g' / 1024 <= i <= (sg_n g' + sg_k g') / 1024).
  { intros i Hi. destruct (Hk1 i Hi) as [|Hi']; [by left|right; exists g; split; [left|done]]. }
  destruct Hoom1 as [->|(-> & -> & _)].
  2: { simpl. apply wp_ret. apply (HQ 0 s1 [] tabs1). split; try done. by right. }
  simpl. specialize (Hdone1 eq_refl).
  assert (Hp1 : forall m, pte (pages s1) tabs1 m = if in_seg g m then seg_pte g m else pte (pages s) tabs m).
  { intros m. unfold in_seg. destruct (Z.leb_spec (sg_n g) m), (Z.leb_spec m (sg_n g + sg_k g)); cbn [andb];
      [by apply Hdone1|by apply Hout1; lia..]. }
  eapply IH; [exact H1|done| |].
  { intros h m Hh Hm. rewrite Hp1. destruct (in_seg g m) eqn:Hg; [|by apply (Hfree h); [right|]]. exfalso.
    assert (before g h) as Hbh by (eapply Forall_forall; done).
    unfold before, in_seg in *. apply andb_true_iff in Hm as [Hm1%Z.leb_le _]. apply andb_true_iff in Hg as [_ Hg%Z.leb_le]. lia. }
  intros r s2 fs2 tabs2 [H2 Hk2 Hcnt2 Hrest2 Hres2]. apply (HQ r s2 fs2 tabs2). split; try done.
  - intros i Hi. destruct (Hk2 i Hi) as [Hi'|(g' & Hg' & Hi')]; [by apply Hkeys|]. right. exists g'. split; [by right|done].
  - lia.
  - intros w Hw. by rewrite Hrest2, Hrest1.
  - destruct Hres2 as [(-> & Hm)|Hres2]; [left|by right]. split; [done|]. intros m. rewrite Hm, Hp1. simpl.
    destruct (in_seg g m) eqn:Hg; [by eapply segs_pte_after|done].
Qed.

End Dir.
