(* ===== verification/VmSpace.v ===== *)
(** * Address spaces (vm.c: setupkvm, allocuvm, deallocuvm, freevm, copyuvm, copyout)

    The kernel half of every address space, and the user half as a map from
    page numbers to the pages that hold their contents. *)

From stdpp Require Import base numbers list gmap sets strings sorting.
From S2P Require Import Prelude Strings Bytes Spinlock Machine Kalloc Vm VmSpec.

Open Scope Z_scope.

(** ** The kernel half *)

(** The pages of [kmap]: the first 1 MB, the kernel's text, its data and the rest of
    memory, and the devices. *)
Definition kernel_segs (kdata : Z) : list seg := [
  mkseg 524288 255 0 PTE_W;
  mkseg 524544 (kdata / PGSIZE - 524544 - 1) EXTMEM 0;
  mkseg (kdata / PGSIZE) (581632 - kdata / PGSIZE - 1) (kdata - KERNBASE) PTE_W;
  mkseg 1040384 8191 DEVSPACE PTE_W ].

Definition kernel_pte (kdata m : Z) : Z := segs_pte (kernel_segs kdata) m 0.

(** [data] lies on a page boundary between the kernel's text and the top of memory. *)
Record kdata_ok (kdata : Z) : Prop := {
  kd_page : kdata mod PGSIZE = 0;
  kd_lo : KERNLINK < kdata;
  kd_hi : kdata < KERNBASE + PHYSTOP;
}.

Lemma kdata_page kdata : kdata_ok kdata -> kdata = kdata / PGSIZE * PGSIZE /\ 524544 < kdata / PGSIZE < 581632.
Proof.
  intros [Hp Hlo Hhi]. pose proof (Z.div_mod kdata PGSIZE ltac:(done)) as Hd. rewrite Hp in Hd.
  unfold KERNLINK, KERNBASE, EXTMEM, PHYSTOP, PGSIZE in *. lia.
Qed.

Lemma kernel_segs_kmap kdata : kdata_ok kdata -> Forall2 is_kmap (kmap kdata) (kernel_segs kdata).
Proof.
  intros Hk. destruct (kdata_page _ Hk) as [He Hr]. set (d := kdata / PGSIZE) in *.
  assert (Hb : 2 ^ 31 + 2 ^ 20 < kdata < 2 ^ 31 + 2 ^ 28) by (unfold PGSIZE in He; lia).
  assert (Hu : u32 (kdata - KERNBASE) = kdata - KERNBASE) by (apply Z.mod_small; unfold KERNBASE; lia).
  unfold kmap, kernel_segs. fold d.
  apply Forall2_cons_2; [|apply Forall2_cons_2; [|apply Forall2_cons_2; [|apply Forall2_cons_2; [|apply Forall2_nil_2]]]];
    unfold is_kmap; cbn [k_virt k_phys_start k_phys_end k_perm sg_n sg_k sg_pa sg_perm].
  - split_and!; vm_compute; congruence.
  - rewrite Hu. change (u32 (KERNLINK - KERNBASE)) with EXTMEM. unfold u32, EXTMEM, KERNBASE in *.
    split_and!; [reflexivity|rewrite Z.mod_small by lia|reflexivity|reflexivity|lia..]. unfold PGSIZE in *. lia.
  - rewrite Hu. unfold u32, PHYSTOP, KERNBASE in *.
    split_and!; [exact He|rewrite Z.mod_small by (unfold PGSIZE in He; lia)|reflexivity|reflexivity|lia..]. unfold PGSIZE in *. lia.
  - split_and!; vm_compute; congruence.
Qed.

Lemma kernel_segs_sorted kdata : kdata_ok kdata -> StronglySorted before (kernel_segs kdata).
Proof.
  intros Hk. destruct (kdata_page _ Hk) as [He Hr]. unfold kernel_segs.
  repeat first [apply SSorted_cons|apply SSorted_nil|apply Forall_cons; split|apply Forall_nil_2];
    unfold before; cbn [sg_n sg_k]; lia.
Qed.

(** The tables for the kernel half. *)
Definition kernel_keys : list Z := seqZ 512 56 ++ seqZ 1016 8.

Lemma kernel_segs_keys kdata g i : kdata_ok kdata -> g ∈ kernel_segs kdata ->
  sg_n g / 1024 <= i <= (sg_n g + sg_k g) / 1024 -> i ∈ kernel_keys.
Proof.
  intros Hk Hg Hi. destruct (kdata_page _ Hk) as [He Hr]. set (d := kdata / PGSIZE) in *.
  assert (H1 : 512 <= d / 1024) by (apply (Z.div_le_mono 524544 d 1024); lia).
  assert (H2 : (d - 1) / 1024 <= 567) by (apply (Z.div_le_mono (d - 1) 581631 1024); lia).
  unfold kernel_keys. rewrite elem_of_app, !elem_of_seqZ.
  unfold kernel_segs in Hg. fold d in Hg.
  repeat (apply elem_of_cons in Hg as [->|Hg]); [..|by apply elem_of_nil in Hg]; cbn [sg_n sg_k] in Hi.
  - change (524288 / 1024) with 512 in Hi. change ((524288 + 255) / 1024) with 512 in Hi. lia.
  - replace (524544 + (d - 524544 - 1)) with (d - 1) in Hi by lia. change (524544 / 1024) with 512 in Hi. lia.
  - replace (d + (581632 - d - 1)) with 581631 in Hi by lia. change (581631 / 1024) with 567 in Hi. lia.
  - change (1040384 / 1024) with 1016 in Hi. change ((1040384 + 8191) / 1024) with 1023 in Hi. lia.
Qed.

Lemma keys_size (tabs : gmap Z Z) (l : list Z) : (forall i, is_Some (tabs !! i) -> i ∈ l) -> (size tabs <= length l)%nat.
Proof.
  intros H. rewrite <-(size_dom (D := gset Z)).
  transitivity (size (list_to_set l : gset Z)).
  - apply subseteq_size. intros i Hi%elem_of_dom. apply elem_of_list_to_set. by apply H.
  - clear H. induction l as [|x l IH]; [done|]. simpl. rewrite size_union_alt, size_singleton.
    pose proof (subseteq_size (list_to_set l ∖ {[x]} : gset Z) (list_to_set l) ltac:(set_solver)). lia.
Qed.

Section Space.
Context {W : Type} {E : error -> Prop} {VW : VmWorld W} (kend kdata : Z) (all : list Z).
Hypothesis Hkd : kdata_ok kdata.
Implicit Types s : kmst W.

Lemma dirp_new rest s fs dir : split_pages kend all (dir :: rest) s fs -> pages s !! dir = Some zero_page ->
  dirp kend all rest s fs dir ∅.
Proof.
  intros Hs Hz. split.
  - eapply split_perm; [|exact Hs]. unfold tabl. rewrite map_to_list_empty. simpl. solve_Permutation.
  - intros i t Ht. by rewrite lookup_empty in Ht.
  - intros i Hi. rewrite lookup_empty, word_zero by done. done.
Qed.

(** [setupkvm] gives a directory with the kernel's mappings and nothing else; it
    fails only when memory runs out, and then every page is in use. *)
Lemma wp_setupkvm rest s fs Q : split_pages kend all rest s fs ->
  ((length fs <= 65)%nat -> forall s' own, split_pages kend all own s' [] ->
     (forall w, w ∈ rest -> pages s' !! w = pages s !! w) -> Q 0 s') ->
  (forall dir s' fs' tabs, dir <> 0 -> dirp kend all rest s' fs' dir tabs ->
     (forall m, pte (pages s') tabs m = kernel_pte kdata m) ->
     (forall i, is_Some (tabs !! i) -> i ∈ kernel_keys) ->
     (forall w, w ∈ rest -> pages s' !! w = pages s !! w) ->
     (length fs' + size tabs + 1 = length fs)%nat -> Q dir s') ->
  wp E (setupkvm kdata) Q s.
Proof.
  intros Hs H0 H1. unfold setupkvm. apply wp_bind. eapply split_kalloc; [exact Hs| |].
  { intros -> s1 Hp1 Hs1. simpl. apply wp_ret. eapply H0; [simpl; lia|exact Hs1|]. intros w _. by rewrite Hp1. }
  intros dir fs1 s1 -> Hd0 Hp1 Hs1. destruct (Z.eqb_spec dir 0); [done|].
  destruct (split_own _ _ _ _ _ dir Hs1) as (_ & _ & b & Hb & Hl); [left|].
  apply wp_bind. eapply wp_Ok; [by apply (memset_page_ok dir 0 b)|]. apply wp_bind. change (DEVSPACE <? p2v PHYSTOP) with false.
  apply wp_ret. change (replicate _ (u8 0)) with zero_page. set (s2 := set_pages _ s1).
  assert (H2 : dirp kend all rest s2 fs1 dir ∅).
  { apply dirp_new; [|simpl; by apply lookup_insert_eq]. apply split_write; [done|left|apply length_replicate]. }
  assert (Hp2 : forall w, w ∈ rest -> pages s2 !! w = pages s !! w).
  { intros w Hw. simpl. rewrite lookup_insert_ne, Hp1; [done|]. intros ->.
    pose proof (split_nodup _ _ _ _ _ Hs1) as Hnd. by apply NoDup_cons in Hnd as [Hnd _]. }
  eapply (wp_setupkvm_loop kend all (kmap kdata) (kernel_segs kdata) rest s2 fs1 dir ∅);
    [exact H2|by apply kernel_segs_kmap|by apply kernel_segs_sorted| |].
  { intros g m _ _. unfold pte. by rewrite lookup_empty. }
  intros r s3 fs3 tabs3 [H3 Hk3 Hcnt3 Hrest3 Hres3].
  assert (Hkeys : forall i, is_Some (tabs3 !! i) -> i ∈ kernel_keys).
  { intros i Hi. destruct (Hk3 i Hi) as [[? Hi']|(g & Hg & Hi')]; [by rewrite lookup_empty in Hi'|by eapply kernel_segs_keys]. }
  rewrite map_size_empty in Hcnt3. destruct Hres3 as [(-> & Hm)|(-> & ->)].
  - eapply (H1 dir s3 fs3 tabs3); try done; [intros w Hw; by rewrite Hrest3, Hp2|simpl; lia].
  - eapply H0; [|apply H3|intros w Hw; by rewrite Hrest3, Hp2].
    pose proof (keys_size tabs3 _ Hkeys) as Hsz. change (length kernel_keys) with 64%nat in Hsz. simpl in *. lia.
Qed.
(** ** The user half *)

(** The pages below [KERNBASE]. *)
Definition UPAGES : Z := 524288.

(** An address space: user page [n] is backed by [frm !! n], the kernel half is
    that of [kmap]. *)
Record uspace (rest : list Z) (s : kmst W) (fs : list Z) (dir : Z) (tabs frm : gmap Z Z) : Prop := {
  us_dir : dirp kend all (rest ++ tabl frm) s fs dir tabs;
  us_keys n v : frm !! n = Some v -> 0 <= n < UPAGES;
  us_pte n : 0 <= n < UPAGES ->
    match frm !! n with
    | Some v => exists fl, 0 <= fl < 4096 /\ Z.testbit fl 0 = true /\ pte (pages s) tabs n = Z.lor (v2p v) fl
    | None => has (pte (pages s) tabs n) PTE_P = false
    end;
  us_kern m : UPAGES <= m -> pte (pages s) tabs m = kernel_pte kdata m;
}.

Lemma kernel_pte_low m : m < UPAGES -> kernel_pte kdata m = 0.
Proof.
  intros Hm. destruct (kdata_page _ Hkd) as [_ Hr]. unfold UPAGES in Hm. unfold kernel_pte, kernel_segs. cbn [segs_pte].
  unfold in_seg. cbn [sg_n sg_k].
  destruct (Z.leb_spec 524288 m); [lia|]. destruct (Z.leb_spec 524544 m); [lia|].
  destruct (Z.leb_spec (kdata / PGSIZE) m); [lia|]. by destruct (Z.leb_spec 1040384 m); [lia|].
Qed.

Lemma uspace_new rest s fs dir tabs : dirp kend all rest s fs dir tabs ->
  (forall m, pte (pages s) tabs m = kernel_pte kdata m) -> uspace rest s fs dir tabs ∅.
Proof.
  intros H Hp. split.
  - replace (rest ++ tabl ∅) with rest; [done|]. unfold tabl. rewrite map_to_list_empty. by rewrite app_nil_r.
  - intros n v Hn. by rewrite lookup_empty in Hn.
  - intros n Hn. rewrite lookup_empty, Hp, kernel_pte_low by lia. done.
  - done.
Qed.

Lemma entry_for_page v perm : kvalid kend v -> 0 <= perm < 4096 ->
  entry_for (u32 (v2p v + 0 * PGSIZE)) perm = Z.lor (v2p v) (Z.lor perm PTE_P) /\
  0 <= Z.lor perm PTE_P < 4096 /\ Z.testbit (Z.lor perm PTE_P) 0 = true.
Proof.
  clear Hkd.
  intros Hv Hp. destruct (v2p_valid _ _ Hv) as (Hb & _). rewrite Z.mul_0_l, Z.add_0_r.
  assert (Hor : 0 <= Z.lor perm PTE_P < 4096).
  { split; [apply Z.lor_nonneg; unfold PTE_P; lia|]. change 4096 with (2 ^ 12).
    destruct (decide (Z.lor perm PTE_P = 0)) as [->|H0]; [lia|].
    apply Z.log2_lt_pow2; [pose proof (proj2 (Z.lor_nonneg perm PTE_P)); unfold PTE_P in *; lia|].
    rewrite Z.log2_lor by (unfold PTE_P; lia). apply Z.max_lub_lt; [|done].
    destruct (decide (perm = 0)) as [->|]; [done|]. apply Z.log2_lt_pow2; lia. }
  split_and!; [|lia|lia|].
  - unfold entry_for, u32. rewrite (Z.mod_small (v2p v)) by done. rewrite <-Z.lor_assoc.
    apply Z.mod_small. by apply lor_bound.
  - rewrite Z.lor_spec. apply orb_true_r.
Qed.

(** One user page is mapped, or there is no page for its table. *)
Lemma wp_map_user n v perm rest s fs dir tabs frm Q :
  uspace (v :: rest) s fs dir tabs frm -> 0 <= n < UPAGES -> frm !! n = None -> 0 <= perm < 4096 ->
  (fs = [] -> tabs !! (n / 1024) = None -> forall s', uspace (v :: rest) s' [] dir tabs frm -> Q (-1) s') ->
  (forall s' fs' tabs', uspace rest s' fs' dir tabs' (<[n := v]> frm) ->
     pte (pages s') tabs' n = Z.lor (v2p v) (Z.lor perm PTE_P) ->
     (forall m, m <> n -> pte (pages s') tabs' m = pte (pages s) tabs m) ->
     (forall w, w ∈ v :: rest ++ tabl frm -> pages s' !! w = pages s !! w) ->
     (length fs <= length fs' + 1)%nat ->
     tabs ⊆ tabs' -> (length fs' + size tabs' = length fs + size tabs)%nat -> Q 0 s') ->
  wp E (mappages dir (n * PGSIZE) PGSIZE (v2p v) perm) Q s.
Proof.
  clear Hkd.
  intros [H Hkeys Hpte Hkern] Hn Hno Hperm H0 H1.
  destruct (dirp_rest _ _ _ _ _ _ _ H v) as (_ & _ & _ & Hkv); [left|].
  destruct (v2p_valid _ _ Hkv) as (Hvb & _). unfold UPAGES in *.
  eapply (wp_mappages kend all 0 n); [exact H|lia|lia|lia|done| |].
  { intros m Hm. assert (m = n) as -> by lia. specialize (Hpte n Hn). by rewrite Hno in Hpte. }
  intros r s1 fs1 tabs1 [H2 Hsub Hk Hcnt Hrest Hout Hdone Hoom].
  assert (Hsize : (size tabs1 <= size tabs + 1)%nat).
  { rewrite <-!(size_dom (D := gset Z)). transitivity (size (dom tabs ∪ {[n / 1024]} : gset Z)).
    - apply subseteq_size. intros i Hi%elem_of_dom. destruct (Hk i Hi) as [Hi'|Hi']; [apply elem_of_dom in Hi'; set_solver|].
      rewrite Z.add_0_r in Hi'. assert (i = n / 1024) as -> by lia. set_solver.
    - rewrite size_union_alt, <-(size_singleton (C := gset Z) (n / 1024)).
      pose proof (subseteq_size ({[n / 1024]} ∖ dom tabs : gset Z) {[n / 1024]} ltac:(set_solver)). lia. }
  destruct (entry_for_page v perm Hkv Hperm) as (He & Hfl & Hbit).
  destruct Hoom as [->|(-> & -> & m & Hm & Hnone)].
  - assert (Hn1 : pte (pages s1) tabs1 n = Z.lor (v2p v) (Z.lor perm PTE_P)).
    { rewrite Hdone by (done || lia). rewrite Z.sub_diag. exact He. }
    assert (Hother : forall m, m <> n -> pte (pages s1) tabs1 m = pte (pages s) tabs m) by (intros; apply Hout; lia).
    eapply (H1 s1 fs1 tabs1); [|done|done|done|lia|done|lia]. split.
    + eapply dirp_frame; [exact H2| |done]. eapply split_perm; [|apply H2].
      rewrite tabl_insert by done. simpl. solve_Permutation.
    + intros m w [(-> & _)|(_ & Hm)]%lookup_insert_Some; [done|]. by eapply Hkeys.
    + intros m Hm. destruct (decide (m = n)) as [->|Hne].
      * rewrite lookup_insert_eq. by exists (Z.lor perm PTE_P).
      * rewrite lookup_insert_ne, Hother by done. by apply Hpte.
    + intros m Hm. unfold UPAGES in Hm. rewrite Hother by lia. by apply Hkern.
  - assert (m = n) as -> by lia.
    assert (Hd : dom tabs1 ⊆ dom tabs).
    { intros i Hi%elem_of_dom. destruct (Hk i Hi) as [Hi'|Hi']; [by apply elem_of_dom|].
      rewrite Z.add_0_r in Hi'. assert (i = n / 1024) as -> by lia. destruct Hi as [? Hi]. congruence. }
    assert (Heq : tabs1 = tabs).
    { symmetry. apply map_eq. intros i. destruct (tabs !! i) as [t|] eqn:Ht; [by rewrite (lookup_weaken _ _ _ _ Ht Hsub)|].
      symmetry. apply not_elem_of_dom. apply not_elem_of_dom in Ht. set_solver. }
    subst tabs1. simpl in Hcnt. assert (length fs = 0%nat) as ->%nil_length_inv by lia.
    apply H0; [done|done|]. split; [exact H2|done| |].
    + intros m Hm'. destruct (decide (m = n)) as [->|Hne]; [|rewrite Hout by lia; by apply Hpte].
      rewrite Hno. unfold pte. by rewrite Hnone.
    + intros m Hm'. unfold UPAGES in Hm'. rewrite Hout by lia. by apply Hkern.
Qed.

Lemma uspace_frame rest rest' s s' fs fs' dir tabs frm :
  uspace rest s fs dir tabs frm -> split_pages kend all ((rest' ++ tabl frm) ++ dir :: tabl tabs) s' fs' ->
  (forall w, w ∈ dir :: tabl tabs -> pages s' !! w = pages s !! w) -> uspace rest' s' fs' dir tabs frm.
Proof.
  clear Hkd.
  intros [H Hk Hp Hkern] Hs Hf.
  assert (Hpte : forall m, pte (pages s') tabs m = pte (pages s) tabs m).
  { intros m. apply pte_frame. intros t Ht. apply Hf. by right. }
  split; [|done|intros n Hn; rewrite Hpte; by apply Hp|intros m Hm; rewrite Hpte; by apply Hkern].
  eapply dirp_frame; [exact H|exact Hs|]. apply Hf. left.
Qed.

Lemma uspace_own rest s fs dir tabs frm w : uspace rest s fs dir tabs frm -> w ∈ rest ++ tabl frm ->
  kvalid kend w /\ w ∉ dir :: tabl tabs /\ exists b, pages s !! w = Some b /\ length b = Z.to_nat PGSIZE.
Proof.
  clear Hkd.
  intros [H _ _ _] Hw. destruct (dirp_rest _ _ _ _ _ _ _ H w Hw) as (Hd & Ht & _ & Hk).
  destruct (split_own _ _ _ _ _ w (dp_split _ _ _ _ _ _ _ H)) as (_ & _ & Hb); [set_solver|].
  split_and!; [done|set_solver|done].
Qed.

Lemma uspace_write rest s fs dir tabs frm w b : uspace rest s fs dir tabs frm -> w ∈ rest ++ tabl frm ->
  length b = Z.to_nat PGSIZE -> uspace rest (set_pages (<[w := b]> (pages s)) s) fs dir tabs frm.
Proof.
  clear Hkd.
  intros H Hw Hb. destruct (uspace_own _ _ _ _ _ _ _ H Hw) as (_ & Hn & _). eapply uspace_frame; [exact H| |].
  - apply split_write; [apply H|set_solver|done].
  - intros x Hx. simpl. apply lookup_insert_ne. by intros ->.
Qed.

Lemma wp_ualloc rest s fs dir tabs frm Q : uspace rest s fs dir tabs frm ->
  (fs = [] -> forall s', pages s' = pages s -> uspace rest s' [] dir tabs frm -> Q 0 s') ->
  (forall v fs' s', fs = v :: fs' -> v <> 0 -> pages s' = pages s -> uspace (v :: rest) s' fs' dir tabs frm -> Q v s') ->
  wp E kalloc Q s.
Proof.
  clear Hkd.
  intros H H0 H1. eapply split_kalloc; [apply H| |].
  - intros -> s' Hp Hs. apply H0; [done..|]. eapply uspace_frame; [exact H|exact Hs|]. by rewrite Hp.
  - intros v fs' s' -> Hv Hp Hs. eapply H1; [done..|]. eapply uspace_frame; [exact H|exact Hs|]. by rewrite Hp.
Qed.

(** A fresh page, filled with [b]. *)
Lemma uspace_fresh v rest s fs dir tabs frm b : uspace (v :: rest) s fs dir tabs frm -> length b = Z.to_nat PGSIZE ->
  uspace (v :: rest) (set_pages (<[v := b]> (pages s)) s) fs dir tabs frm /\
  forall w, w ∈ rest ++ tabl frm -> <[v := b]> (pages s) !! w = pages s !! w.
Proof.
  clear Hkd.
  intros H Hb. split; [apply uspace_write; [done|left|done]|]. intros w Hw. apply lookup_insert_ne. intros ->.
  pose proof (split_nodup _ _ _ _ _ (dp_split _ _ _ _ _ _ _ (us_dir _ _ _ _ _ _ H))) as Hnd.
  simpl in Hnd. apply NoDup_cons in Hnd as [Hnd _]. set_solver.
Qed.

(** User pages [n] to [N-1] were added, zeroed and writable by the user. *)
Record grown (rest : list Z) (s : kmst W) (fs : list Z) (dir : Z) (tabs frm : gmap Z Z) (n N : Z)
    (s' : kmst W) (fs' : list Z) (tabs' frm' : gmap Z Z) : Prop := {
  gw_space : uspace rest s' fs' dir tabs' frm';
  gw_old m : ~ (n <= m < N) -> frm' !! m = frm !! m /\ pte (pages s') tabs' m = pte (pages s) tabs m;
  gw_new m : n <= m < N -> exists v, frm' !! m = Some v /\ pages s' !! v = Some zero_page /\
    pte (pages s') tabs' m = Z.lor (v2p v) (Z.lor (Z.lor PTE_W PTE_U) PTE_P);
  gw_keep w : w ∈ rest ++ tabl frm -> pages s' !! w = pages s !! w;
  gw_count : Z.of_nat (length fs) <= Z.of_nat (length fs') + 2 * (N - n);
}.

Lemma wp_allocuvm_loop k fuel n oldsz newsz rest s fs dir tabs frm Q :
  uspace rest s fs dir tabs frm -> 0 <= n -> n + Z.of_nat k <= UPAGES -> (k <= fuel)%nat ->
  (n + Z.of_nat k - 1) * PGSIZE < newsz <= (n + Z.of_nat k) * PGSIZE ->
  (forall m, n <= m < n + Z.of_nat k -> frm !! m = None) -> (2 * k <= length fs)%nat ->
  (forall s' fs' tabs' frm', grown rest s fs dir tabs frm n (n + Z.of_nat k) s' fs' tabs' frm' -> Q newsz s') ->
  wp E (allocuvm_loop kend fuel dir (n * PGSIZE) oldsz newsz) Q s.
Proof.
  clear Hkd.
  revert fuel n s fs tabs frm. induction k as [|k IH]; intros fuel n s fs tabs frm H Hn Hu Hf Hsz Hno Hmem HQ.
  { assert (He : newsz <=? n * PGSIZE = true) by (apply Z.leb_le; lia).
    assert (wp E (mret newsz) Q s); [|destruct fuel; cbn [allocuvm_loop]; by rewrite He]. apply wp_ret. apply (HQ s fs tabs frm).
    split; try done; [intros m Hm; lia|lia]. }
  destruct fuel as [|fuel]; [lia|]. cbn [allocuvm_loop]. destruct (Z.leb_spec newsz (n * PGSIZE)); [unfold PGSIZE in *; lia|].
  apply wp_bind. eapply wp_ualloc; [exact H|intros ->; simpl in Hmem; lia|].
  intros v fs1 s1 -> Hv Hp1 H1. simpl in Hmem. destruct (Z.eqb_spec v 0); [done|].
  destruct (uspace_own _ _ _ _ _ _ v H1) as (Hkv & _ & b & Hb & Hl); [left|].
  apply wp_bind. eapply wp_Ok; [by apply (memset_page_ok v 0 b)|]. change (replicate _ (u8 0)) with zero_page.
  destruct (uspace_fresh v _ _ _ _ _ _ zero_page H1) as [H2 Hkeep2]; [apply length_replicate|].
  apply wp_bind. unfold UPAGES in Hu.
  eapply (wp_map_user n v (Z.lor PTE_W PTE_U)); [exact H2|unfold UPAGES; lia|apply Hno; lia|done|intros ->; simpl in Hmem; lia|].
  intros s3 fs3 tabs3 H3 Hpn Hpo Hkeep3 Hcnt _ _.
  replace (u32 (n * PGSIZE + PGSIZE)) with ((n + 1) * PGSIZE) by (symmetry; unfold u32; rewrite Z.mod_small; unfold PGSIZE; lia).
  assert (Hno3 : forall m, n + 1 <= m < n + 1 + Z.of_nat k -> <[n := v]> frm !! m = None).
  { intros m Hm. rewrite lookup_insert_ne by lia. apply Hno. lia. }
  eapply (IH fuel (n + 1) s3 fs3 tabs3); [exact H3|lia|unfold UPAGES; lia|lia|unfold PGSIZE in *; lia|exact Hno3|lia|].
  intros s4 fs4 tabs4 frm4 [H4 Hold Hnew Hkeep4 Hcnt4]. apply (HQ s4 fs4 tabs4 frm4).
  assert (Hin : v ∈ tabl (<[n := v]> frm)) by (apply elem_tabl; exists n; apply lookup_insert_eq).
  assert (Hzero : pages s4 !! v = Some zero_page).
  { rewrite Hkeep4 by set_solver. rewrite Hkeep3 by left. apply lookup_insert_eq. }
  split; [exact H4| | | |simpl; lia].
  - intros m Hm. destruct (Hold m) as [-> ->]; [lia|]. rewrite lookup_insert_ne, Hpo by lia. split; [done|].
    simpl. destruct (dirp_write _ _ _ _ _ _ _ v zero_page (us_dir _ _ _ _ _ _ H1)) as [_ Hp]; [left|apply length_replicate|].
    by rewrite Hp, Hp1.
  - intros m Hm. destruct (decide (m = n)) as [->|Hne]; [|apply Hnew; lia].
    exists v. destruct (Hold n) as [-> ->]; [lia|]. rewrite lookup_insert_eq. done.
  - intros w Hw. rewrite Hkeep4.
    + rewrite Hkeep3 by (right; exact Hw). rewrite <-Hp1. by apply Hkeep2.
    + apply elem_of_app in Hw as [Hw|Hw]; [set_solver|]. apply elem_of_app. right. apply elem_tabl in Hw as [i Hi].
      apply elem_tabl. exists i. rewrite lookup_insert_ne; [done|]. intros <-. rewrite Hno in Hi by lia. done.
Qed.

End Space.
