(* ===== verification/VmFree.v ===== *)
(** * Giving memory back (vm.c: deallocuvm, freevm)

    [deallocuvm] frees the pages behind a range of user pages; [freevm] frees an
    address space: its user pages, its tables and its directory, each once. *)

From stdpp Require Import base numbers list gmap sets strings.
From S2P Require Import Prelude Strings Bytes Spinlock Machine Kalloc Vm VmSpec VmSpace.

Open Scope Z_scope.

(** The frames outside pages [n] to [N-1]. *)
Definition outside (n N : Z) (frm : gmap Z Z) : gmap Z Z := filter (fun kv => ~ (n <= kv.1 < N)) frm.

Lemma outside_lookup n N frm m : outside n N frm !! m = if decide (n <= m < N) then None else frm !! m.
Proof.
  unfold outside. destruct (decide (n <= m < N)) as [Hm|Hm].
  - apply map_lookup_filter_None. right. intros v Hv. simpl. tauto.
  - destruct (frm !! m) as [v|] eqn:Hv.
    + by apply map_lookup_filter_Some.
    + apply map_lookup_filter_None. by left.
Qed.

Section Free.
Context {W : Type} {E : error -> Prop} {VW : VmWorld W} (kend kdata : Z) (all : list Z).
Hypothesis Hkend : KERNBASE < kend.
Implicit Types s : kmst W.
Local Notation space := (uspace kend kdata all).

(** Freeing the frame behind page [n] and clearing its entry. *)
Lemma wp_free_page rest s fs dir tabs frm n t v Q :
  space rest s fs dir tabs frm -> 0 <= n < UPAGES -> tabs !! (n / 1024) = Some t -> frm !! n = Some v ->
  (forall s', space rest s' (v :: fs) dir tabs (delete n frm) ->
     (forall m, m <> n -> pte (pages s') tabs m = pte (pages s) tabs m) ->
     (forall w, w ∈ rest ++ tabl (delete n frm) -> pages s' !! w = pages s !! w) -> Q tt s') ->
  wp E (kfree kend v ;; store (t + 4 * (n mod 1024)) 0) Q s.
Proof.
  intros H Hn Ht Hv HQ. destruct H as [H Hk Hp Hkern]. pose proof (tabl_delete _ _ _ Hv) as Hperm.
  assert (Hs : split_pages kend all (v :: (rest ++ tabl (delete n frm)) ++ dir :: tabl tabs) s fs).
  { eapply split_perm; [|apply H]. rewrite Hperm. solve_Permutation. }
  assert (Hvn : v ∉ (rest ++ tabl (delete n frm)) ++ dir :: tabl tabs).
  { pose proof (split_nodup _ _ _ _ _ Hs) as Hnd. by apply NoDup_cons in Hnd as [? _]. }
  apply wp_bind. eapply split_kfree; [exact Hs|]. intros s1 Hf1 Hs1.
  assert (H1 : dirp kend all (rest ++ tabl (delete n frm)) s1 (v :: fs) dir tabs).
  { eapply dirp_frame; [exact H|exact Hs1|]. apply Hf1. intros <-. set_solver. }
  assert (Hp1 : forall m, pte (pages s1) tabs m = pte (pages s) tabs m).
  { intros m. apply pte_frame. intros x Hx. apply Hf1. intros ->. set_solver. }
  eapply wp_pte_store; [exact H1|exact Ht|]. intros s2 H2 Hp2 Hr2.
  assert (Hother : forall m, m <> n -> pte (pages s2) tabs m = pte (pages s) tabs m).
  { intros m Hm. rewrite Hp2, Hp1. by destruct (Z.eqb_spec m n). }
  apply HQ; [|done|].
  - split; [exact H2| | |].
    + intros m w [_ Hm]%lookup_delete_Some. by eapply Hk.
    + intros m Hm. destruct (decide (m = n)) as [->|Hne].
      * rewrite lookup_delete_eq, Hp2, Z.eqb_refl. done.
      * rewrite lookup_delete_ne, Hother by done. by apply Hp.
    + intros m Hm. rewrite Hother by lia. by apply Hkern.
  - intros w Hw. rewrite Hr2 by done. apply Hf1. intros ->. set_solver.
Qed.

(** The pages [n] to [N-1] are free again. *)
Record shrunk (rest : list Z) (s : kmst W) (fs : list Z) (dir : Z) (tabs frm : gmap Z Z) (n N : Z)
    (s' : kmst W) (fs' : list Z) : Prop := {
  sh_space : space rest s' fs' dir tabs (outside n N frm);
  sh_count : (length fs' + size (outside n N frm) = length fs + size frm)%nat;
  sh_pte m : ~ (n <= m < N) -> pte (pages s') tabs m = pte (pages s) tabs m;
  sh_keep w : w ∈ rest ++ tabl (outside n N frm) -> pages s' !! w = pages s !! w;
}.

Lemma outside_none n N frm : (forall m, n <= m < N -> frm !! m = None) -> outside n N frm = frm.
Proof.
  intros H. apply map_eq. intros m. rewrite outside_lookup. destruct (decide _); [|done]. symmetry. by apply H.
Qed.

(** A round of the loop: what was already free or has been freed may be left out. *)
Lemma outside_step n n' N frm : n <= n' -> (forall m, n <= m < n' -> frm !! m = None) -> outside n' N frm = outside n N frm.
Proof.
  intros Hn H. apply map_eq. intros m. rewrite !outside_lookup.
  destruct (decide (n <= m < N)), (decide (n' <= m < N)); try done; [apply H; lia|lia].
Qed.

Lemma shrunk_step rest s fs dir tabs frm n n' N s' fs' : n <= n' ->
  (forall m, n <= m < n' -> frm !! m = None) ->
  shrunk rest s fs dir tabs frm n' N s' fs' -> shrunk rest s fs dir tabs frm n N s' fs'.
Proof.
  intros Hn Hno [H Hc Hp Hk]. rewrite (outside_step n n') in H, Hc, Hk by done. split; try done.
  intros m Hm. apply Hp. lia.
Qed.

(** Freeing page [n] and then those after it. *)
Lemma shrunk_free rest s fs dir tabs frm n N v s1 s2 fs2 : n < N -> frm !! n = Some v ->
  (forall m, m <> n -> pte (pages s1) tabs m = pte (pages s) tabs m) ->
  (forall w, w ∈ rest ++ tabl (delete n frm) -> pages s1 !! w = pages s !! w) ->
  shrunk rest s1 (v :: fs) dir tabs (delete n frm) (n + 1) N s2 fs2 -> shrunk rest s fs dir tabs frm n N s2 fs2.
Proof.
  intros Hn Hv Hp1 Hk1 [H2 Hc2 Hp2 Hk2]. assert (Heq : outside (n + 1) N (delete n frm) = outside n N frm).
  { apply map_eq. intros m. rewrite !outside_lookup. destruct (decide (m = n)) as [->|Hmn].
    - rewrite (decide_False (P := n + 1 <= n < N)), (decide_True (P := n <= n < N)) by lia. apply lookup_delete_eq.
    - rewrite lookup_delete_ne by done. destruct (decide (n + 1 <= m < N)), (decide (n <= m < N)); (done || lia). }
  rewrite Heq in H2, Hc2, Hk2. split; [exact H2| | |].
  - simpl in Hc2. rewrite map_size_delete_Some in Hc2 by done.
    assert (size frm <> 0%nat) by (apply map_size_non_empty_iff; intros ->; by rewrite lookup_empty in Hv). lia.
  - intros m Hm. rewrite Hp2 by lia. apply Hp1. lia.
  - intros w Hw. rewrite Hk2 by done. apply Hk1. apply elem_of_app in Hw as [Hw|Hw]; [set_solver|].
    apply elem_of_app. right. apply elem_tabl in Hw as [m Hm]. rewrite outside_lookup in Hm.
    destruct (decide _) as [|Hmn]; [done|]. apply elem_tabl. exists m. rewrite lookup_delete_ne; [done|lia].
Qed.

Lemma no_table_no_frame rest s fs dir tabs frm m :
  space rest s fs dir tabs frm -> tabs !! (m / 1024) = None -> frm !! m = None.
Proof.
  intros H Ht. destruct (frm !! m) as [v|] eqn:Hv; [|done]. exfalso.
  pose proof (us_pte _ _ _ _ _ _ _ _ _ H m (us_keys _ _ _ _ _ _ _ _ _ H _ _ Hv)) as Hpm. rewrite Hv in Hpm.
  destruct Hpm as (fl & Hfl & Hbit & Hpm). unfold pte in Hpm. rewrite Ht in Hpm.
  assert (Hb : Z.testbit (Z.lor (v2p v) fl) 0 = true) by (rewrite Z.lor_spec, Hbit; apply orb_true_r).
  by rewrite <-Hpm in Hb.
Qed.

Lemma deallocuvm_done fuel dir n N oldsz rest s fs tabs frm Q :
  space rest s fs dir tabs frm -> oldsz <= N * PGSIZE -> N <= n ->
  (forall s' fs', shrunk rest s fs dir tabs frm n N s' fs' -> Q tt s') ->
  wp E (deallocuvm_loop kend fuel dir (n * PGSIZE) oldsz) Q s.
Proof.
  intros H Hsz Hn HQ. assert (oldsz <=? n * PGSIZE = true) as He by (apply Z.leb_le; unfold PGSIZE in *; lia).
  assert (wp E (mret tt) Q s); [|by destruct fuel; cbn [deallocuvm_loop]; rewrite He].
  apply wp_ret. apply (HQ s fs). rewrite <-(outside_none n N frm) in H by (intros; lia). split; try done.
  by rewrite outside_none by (intros; lia).
Qed.

(** The loop visits a table from its start or inside it, so the jump over a
    missing one is to the start of the next. *)
Lemma wp_deallocuvm_loop fuel n N oldsz rest s fs dir tabs frm Q :
  space rest s fs dir tabs frm -> 0 <= n -> 0 <= N <= UPAGES -> (N - 1) * PGSIZE < oldsz <= N * PGSIZE ->
  (n mod 1024 = 0 \/ is_Some (tabs !! (n / 1024))) -> N - n < Z.of_nat fuel ->
  (forall s' fs', shrunk rest s fs dir tabs frm n N s' fs' -> Q tt s') ->
  wp E (deallocuvm_loop kend fuel dir (n * PGSIZE) oldsz) Q s.
Proof.
  revert n s fs frm. induction fuel as [|fuel IH]; intros n s fs frm H Hn HN Hsz Hal Hf HQ.
  { by eapply (deallocuvm_done _ dir n N); [exact H|lia|lia|]. }
  destruct (decide (N <= n)) as [Hle|Hlt]; [by eapply (deallocuvm_done _ dir n N); [exact H|lia|lia|]|].
  cbn [deallocuvm_loop]. destruct (Z.leb_spec oldsz (n * PGSIZE)); [unfold PGSIZE in *; lia|]. unfold UPAGES in HN.
  pose proof (us_dir _ _ _ _ _ _ _ _ _ H) as Hd.
  assert (Hpg : in_page n (n * PGSIZE)) by (apply in_page_start; lia). apply wp_bind.
  destruct (tabs !! (n / 1024)) as [t|] eqn:Ht.
  - eapply wp_walk_found; [exact Hd|exact Hpg|exact Ht|].
    destruct (Z.eqb_spec (t + 4 * (n mod 1024)) 0) as [Hz|_].
    { exfalso. revert Hz. eapply tab_nonzero; [exact Hd|exact Ht|by apply Z.mod_pos_bound]. }
    apply wp_bind. eapply wp_pte_load; [exact Hd|exact Ht|].
    replace (u32 (n * PGSIZE + PGSIZE)) with ((n + 1) * PGSIZE) by (symmetry; unfold u32; rewrite Z.mod_small; unfold PGSIZE; lia).
    assert (Hal' : (n + 1) mod 1024 = 0 \/ is_Some (tabs !! ((n + 1) / 1024))).
    { destruct (decide ((n + 1) mod 1024 = 0)) as [|Hm]; [by left|right].
      replace ((n + 1) / 1024) with (n / 1024); [by rewrite Ht|].
      pose proof (Z.div_mod n 1024). pose proof (Z.div_mod (n + 1) 1024). pose proof (Z.mod_pos_bound n 1024).
      pose proof (Z.mod_pos_bound (n + 1) 1024). lia. }
    pose proof (us_pte _ _ _ _ _ _ _ _ _ H n ltac:(unfold UPAGES; lia)) as Hpn. apply wp_bind.
    destruct (frm !! n) as [v|] eqn:Hv.
    + destruct Hpn as (fl & Hfl & Hbit & ->). rewrite has_P, Z.lor_spec, Hbit, orb_true_r.
      assert (Hin : v ∈ rest ++ tabl frm) by (apply elem_of_app; right; apply elem_tabl; by exists n).
      destruct (uspace_own _ _ _ _ _ _ _ _ _ _ H Hin) as (Hkv & _).
      destruct (v2p_valid _ _ Hkv) as (Hb & Ha & Hpv & Hv2p). rewrite PTE_ADDR_lor, Hpv by done.
      destruct (Z.eqb_spec (v2p v) 0) as [Hz|_]; [destruct Hkv as (_ & ? & _); lia|].
      eapply wp_free_page; [exact H|unfold UPAGES; lia|exact Ht|exact Hv|]. intros s1 H1 Hp1 Hk1.
      eapply (IH (n + 1) s1 (v :: fs) (delete n frm)); [exact H1|lia|unfold UPAGES; lia|done|done|lia|].
      intros s2 fs2 Hsh. apply (HQ s2 fs2).
      eapply (shrunk_free _ _ _ _ _ _ _ _ v s1); [lia|done..].
    + rewrite Hpn. apply wp_ret. eapply (IH (n + 1) s fs frm); [exact H|lia|unfold UPAGES; lia|done|done|lia|].
      intros s2 fs2 Hsh. apply (HQ s2 fs2). eapply shrunk_step; [| |exact Hsh]; [lia|].
      intros m Hm. by assert (m = n) as -> by lia.
  - destruct Hal as [Hal|[? Hal]]; [|done]. eapply wp_walk_none; [exact Hd|exact Hpg|exact Ht|]. simpl (0 =? 0). cbn iota.
    replace (u32 (n * PGSIZE + (NPTENTRIES - 1) * PGSIZE + PGSIZE)) with ((n + 1024) * PGSIZE)
      by (symmetry; unfold u32, NPTENTRIES; rewrite Z.mod_small; unfold PGSIZE; lia).
    eapply (IH (n + 1024) s fs frm); [exact H|lia|unfold UPAGES; lia|done| |lia|].
    { left. rewrite Z.add_mod, Hal by lia. done. }
    intros s2 fs2 Hsh. apply (HQ s2 fs2). eapply shrunk_step; [| |exact Hsh]; [lia|]. intros m Hm.
    eapply no_table_no_frame; [exact H|]. replace (m / 1024) with (n / 1024); [done|].
    pose proof (Z.div_mod n 1024). pose proof (Z.div_mod m 1024). pose proof (Z.mod_pos_bound m 1024). lia.
Qed.

(** ** freevm *)

(** The tables with index at least [i]. *)
Definition from_table (i : Z) (tabs : gmap Z Z) : gmap Z Z := filter (fun kv => i <= kv.1) tabs.

Lemma from_table_lookup i tabs j : from_table i tabs !! j = if decide (i <= j) then tabs !! j else None.
Proof.
  unfold from_table. destruct (decide (i <= j)) as [Hj|Hj].
  - destruct (tabs !! j) as [t|] eqn:Ht; [by apply map_lookup_filter_Some|]. apply map_lookup_filter_None. by left.
  - apply map_lookup_filter_None. right. by intros t _.
Qed.

Lemma from_table_next i tabs : from_table (i + 1) tabs = delete i (from_table i tabs).
Proof.
  apply map_eq. intros j. destruct (decide (j = i)) as [->|Hne].
  - rewrite lookup_delete_eq, from_table_lookup. rewrite decide_False by lia. done.
  - rewrite lookup_delete_ne by done. rewrite !from_table_lookup.
    destruct (decide (i + 1 <= j)), (decide (i <= j)); (done || lia).
Qed.

(** [freevm_loop] frees each table once; the directory itself is not touched. *)
Lemma wp_freevm_loop rest s0 fs0 dir tabs (H0 : dirp kend all rest s0 fs0 dir tabs) n i s fs Q :
  0 <= i -> i + Z.of_nat n = 1024 -> pages s !! dir = pages s0 !! dir ->
  split_pages kend all (rest ++ dir :: tabl (from_table i tabs)) s fs ->
  (forall s' fs', split_pages kend all (rest ++ [dir]) s' fs' ->
     (length fs' = length fs + size (from_table i tabs))%nat ->
     (forall w, w ∈ rest -> pages s' !! w = pages s !! w) -> Q tt s') ->
  wp E (freevm_loop kend dir i n) Q s.
Proof.
  revert i s fs. induction n as [|n IH]; intros i s fs Hi Hn Hdir Hs HQ; cbn [freevm_loop].
  { assert (Hnil : from_table i tabs = ∅).
    { apply map_empty. intros j. rewrite from_table_lookup. destruct (decide (i <= j)); [|done].
      destruct (tabs !! j) as [t|] eqn:Ht; [|done]. pose proof (dp_keys _ _ _ _ _ _ _ H0 _ _ Ht). lia. }
    rewrite Hnil in Hs, HQ. apply wp_ret. apply (HQ s fs); [|by rewrite map_size_empty, Nat.add_0_r|done].
    unfold tabl in Hs. by rewrite map_to_list_empty in Hs. }
  destruct (split_own _ _ _ _ _ dir Hs) as (Hkd & _ & b & Hb & Hl); [set_solver|]. destruct (kvalid_bounds _ _ Hkd) as [_ Ha].
  apply wp_bind. eapply wp_Ok; [apply (load_word dir i b); (done || lia)|].
  pose proof (dp_pde _ _ _ _ _ _ _ H0 i ltac:(lia)) as Hp.
  replace (word (pages s) dir i) with (word (pages s0) dir i) by (unfold word; by rewrite Hdir).
  assert (Hlk : from_table i tabs !! i = tabs !! i) by (rewrite from_table_lookup; by rewrite decide_True by lia).
  apply wp_bind. destruct (tabs !! i) as [t|] eqn:Ht.
  - destruct Hp as [-> ->]. cbn [when]. pose proof (tabl_delete _ _ _ Hlk) as Hperm. rewrite <-from_table_next in Hperm.
    assert (Hs' : split_pages kend all (t :: rest ++ dir :: tabl (from_table (i + 1) tabs)) s fs).
    { eapply split_perm; [|exact Hs]. rewrite Hperm. solve_Permutation. }
    assert (Htn : t ∉ rest ++ dir :: tabl (from_table (i + 1) tabs)).
    { pose proof (split_nodup _ _ _ _ _ Hs') as Hnd. by apply NoDup_cons in Hnd as [? _]. }
    eapply split_kfree; [exact Hs'|]. intros s1 Hf1 Hs1.
    eapply (IH (i + 1) s1 (t :: fs)); [lia|lia|rewrite Hf1 by set_solver; done|exact Hs1|].
    intros s2 fs2 Hs2 Hc2 Hr2. apply (HQ s2 fs2); [done| |].
    + rewrite Hc2, from_table_next, map_size_delete_Some by done. simpl.
      assert (size (from_table i tabs) <> 0%nat) by (apply map_size_non_empty_iff; intros He; by rewrite He, lookup_empty in Hlk). lia.
    + intros w Hw. rewrite Hr2 by done. apply Hf1. intros ->. set_solver.
  - rewrite Hp. cbn [when]. apply wp_ret.
    assert (Heq : from_table (i + 1) tabs = from_table i tabs) by (rewrite from_table_next; by apply delete_id).
    eapply (IH (i + 1) s fs); [lia|lia|done|by rewrite Heq|]. by rewrite Heq.
Qed.

(** Every page of the address space is free again, and those of [rest] are as before. *)
Lemma wp_freevm rest s fs dir tabs frm Q : space rest s fs dir tabs frm ->
  (forall s' fs', split_pages kend all rest s' fs' ->
     (length fs' = length fs + size frm + size tabs + 1)%nat ->
     (forall w, w ∈ rest -> pages s' !! w = pages s !! w) -> Q tt s') ->
  wp E (freevm kend dir) Q s.
Proof.
  intros H HQ. destruct (dirp_dir _ _ _ _ _ _ _ (us_dir _ _ _ _ _ _ _ _ _ H)) as (Hkd & _).
  destruct (kvalid_bounds _ _ Hkd) as [Hd0 _]. unfold freevm. destruct (Z.eqb_spec dir 0); [lia|].
  unfold deallocuvm. change (KERNBASE <=? 0) with false. apply wp_bind, wp_bind.
  change (PGROUNDUP 0) with (0 * PGSIZE).
  eapply (wp_deallocuvm_loop _ 0 UPAGES); [exact H|lia|unfold UPAGES; lia|unfold UPAGES, KERNBASE, PGSIZE; lia|by left| |].
  { change (KERNBASE / PGSIZE) with UPAGES. unfold UPAGES. lia. }
  intros s1 fs1 [H1 Hc1 _ Hk1]. apply wp_ret.
  assert (Hnil : outside 0 UPAGES frm = ∅).
  { apply map_empty. intros m. rewrite outside_lookup. destruct (decide _) as [|Hm]; [done|].
    destruct (frm !! m) as [v|] eqn:Hv; [|done]. by destruct Hm; eapply (us_keys _ _ _ _ _ _ _ _ _ H). }
  rewrite Hnil in H1, Hc1, Hk1. destruct H1 as [H1 _ _ _]. unfold tabl in Hk1, H1 at 1. rewrite map_to_list_empty in Hk1, H1.
  cbn [fmap list_fmap] in Hk1, H1. rewrite app_nil_r in Hk1, H1.
  assert (Hfrom : from_table 0 tabs = tabs).
  { apply map_eq. intros j. rewrite from_table_lookup. destruct (decide (0 <= j)) as [|Hj]; [done|].
    destruct (tabs !! j) as [t|] eqn:Ht; [|done]. pose proof (dp_keys _ _ _ _ _ _ _ H1 _ _ Ht). lia. }
  apply wp_bind. eapply (wp_freevm_loop rest s1 fs1 dir tabs H1 _ 0 s1 fs1); [done|done|done|rewrite Hfrom; apply H1|].
  rewrite Hfrom. intros s2 fs2 Hs2 Hc2 Hr2.
  assert (Hs2' : split_pages kend all (dir :: rest) s2 fs2) by (eapply split_perm; [|exact Hs2]; solve_Permutation).
  assert (Hdn : dir ∉ rest) by (pose proof (split_nodup _ _ _ _ _ Hs2') as Hnd; by apply NoDup_cons in Hnd as [? _]).
  eapply split_kfree; [exact Hs2'|]. intros s3 Hf3 Hs3. apply (HQ s3 (dir :: fs2)); [done| |].
  - rewrite map_size_empty in Hc1. simpl. lia.
  - intros w Hw. rewrite Hf3, Hr2, Hk1 by (done || (intros ->; done)). done.
Qed.
End Free.
