(* ===== verification/VmCopy.v ===== *)
(** * Copying memory (vm.c: copyuvm, uva2ka, copyout)

    [copyuvm] gives a child the contents of its parent's pages in pages of its
    own; [copyout] writes bytes to user addresses. *)

From stdpp Require Import base numbers list gmap sets strings.
From S2P Require Import Prelude Strings Bytes Spinlock Machine Kalloc Vm VmSpec VmSpace VmFree.

Open Scope Z_scope.

Lemma testbit_lor_1 f : Z.testbit f 0 = true -> Z.lor f PTE_P = f.
Proof.
  intros Hf. apply Z.bits_inj'. intros i Hi. rewrite Z.lor_spec. destruct (decide (i = 0)) as [->|Hne].
  - by rewrite Hf.
  - change PTE_P with (2 ^ 0). rewrite Z.pow2_bits_false by done. apply orb_false_r.
Qed.

Section Copy.
Context {W : Type} {E : error -> Prop} {VW : VmWorld W} (kend kdata : Z) (all : list Z).
Implicit Types s : kmst W.
Local Notation space := (uspace kend kdata all).

(** What the entry of a user page says. *)
Lemma user_entry rest s fs dir tabs frm n v : space rest s fs dir tabs frm -> frm !! n = Some v ->
  let e := pte (pages s) tabs n in
  exists t fl, tabs !! (n / 1024) = Some t /\ has e PTE_P = true /\ p2v (PTE_ADDR e) = v /\
    PTE_FLAGS e = fl /\ 0 <= fl < 4096 /\ Z.testbit fl 0 = true /\ kvalid kend v /\
    exists b, pages s !! v = Some b /\ length b = Z.to_nat PGSIZE.
Proof.
  intros H Hv e. pose proof (us_pte _ _ _ _ _ _ _ _ _ H n (us_keys _ _ _ _ _ _ _ _ _ H _ _ Hv)) as Hp.
  rewrite Hv in Hp. destruct Hp as (fl & Hfl & Hbit & He). fold e in He.
  destruct (uspace_own _ _ _ _ _ _ _ _ _ v H) as (Hkv & _ & Hb).
  { apply elem_of_app. right. apply elem_tabl. by exists n. }
  destruct (v2p_valid _ _ Hkv) as (Hvb & Ha & Hpv & _).
  destruct (tabs !! (n / 1024)) as [t|] eqn:Ht.
  - exists t, fl. rewrite He, PTE_ADDR_lor, PTE_FLAGS_lor, has_P, Z.lor_spec, Hbit, orb_true_r by done. done.
  - rewrite (no_table_no_frame _ _ _ _ _ _ _ _ _ _ H Ht) in Hv. done.
Qed.

Section Parent.
Context (rest : list Z) (s0 : kmst W) (fs0 : list Z) (pdir : Z) (ptabs pfrm : gmap Z Z).
Hypothesis Hpar : space rest s0 fs0 pdir ptabs pfrm.

(** Everything the child does not own. *)
Definition others : list Z := (rest ++ tabl pfrm) ++ pdir :: tabl ptabs.

(** The child maps pages [0] to [N-1] to copies of the parent's. *)
Record copied (N : Z) (s : kmst W) (fs : list Z) (d : Z) (tabs frm : gmap Z Z) : Prop := {
  cp_space : space others s fs d tabs frm;
  cp_dom m : is_Some (frm !! m) <-> 0 <= m < N;
  cp_page m v : 0 <= m < N -> pfrm !! m = Some v -> exists v', frm !! m = Some v' /\ v' <> v /\
    pages s !! v' = pages s0 !! v /\ PTE_FLAGS (pte (pages s) tabs m) = PTE_FLAGS (pte (pages s0) ptabs m);
  cp_others w : w ∈ others -> pages s !! w = pages s0 !! w;
}.

(** The parent's tables can be read in any state of the copy. *)
Lemma parent_dirp N s fs d tabs frm : copied N s fs d tabs frm ->
  dirp kend all (d :: tabl tabs ++ rest ++ tabl pfrm ++ tabl frm) s fs pdir ptabs /\
  forall m, pte (pages s) ptabs m = pte (pages s0) ptabs m.
Proof.
  intros [H _ _ Ho]. split.
  - eapply dirp_frame; [apply Hpar| |apply Ho; unfold others; set_solver].
    eapply split_perm; [|apply H]. unfold others. solve_Permutation.
  - intros m. apply pte_frame. intros t Ht. apply Ho. unfold others. set_solver.
Qed.

Lemma copied_next n v v' flags s fs d tabs frm s2 fs2 tabs2 :
  copied n s fs d tabs frm -> 0 <= n -> pfrm !! n = Some v -> v' ∉ others ++ tabl frm ->
  space others s2 fs2 d tabs2 (<[n := v']> frm) ->
  pte (pages s2) tabs2 n = Z.lor (v2p v') flags -> kvalid kend v' -> 0 <= flags < 4096 ->
  flags = PTE_FLAGS (pte (pages s0) ptabs n) ->
  (forall m, m <> n -> pte (pages s2) tabs2 m = pte (pages s) tabs m) ->
  (forall w, w ∈ others ++ tabl frm -> pages s2 !! w = pages s !! w) -> pages s2 !! v' = pages s0 !! v ->
  copied (n + 1) s2 fs2 d tabs2 (<[n := v']> frm).
Proof.
  intros [H Hdom Hpg Ho] Hn Hv Hv' H2 Hpn Hkv Hfl Hflags Hother Hkeep Hcont.
  destruct (v2p_valid _ _ Hkv) as (_ & Ha & _). split; [exact H2| | |].
  - intros m. destruct (decide (m = n)) as [->|Hne].
    + rewrite lookup_insert_eq. split; [lia|done].
    + rewrite lookup_insert_ne, Hdom by done. lia.
  - intros m w Hm Hw. destruct (decide (m = n)) as [->|Hne].
    + exists v'. rewrite lookup_insert_eq, Hpn, PTE_FLAGS_lor by done. assert (w = v) as -> by congruence. split_and!; try done.
      intros He. apply Hv'. rewrite He. unfold others. assert (v ∈ tabl pfrm) by (apply elem_tabl; by exists n). set_solver.
    + destruct (Hpg m w) as (x & Hx & Hne' & Hcx & Hfx); [lia|done|]. exists x.
      rewrite lookup_insert_ne, Hother by done. split_and!; try done. rewrite Hkeep; [done|].
      apply elem_of_app. right. apply elem_tabl. by exists m.
  - intros w Hw. rewrite Hkeep by set_solver. by apply Ho.
Qed.

Lemma copyuvm_done fuel sz n d s Q : sz <= n * PGSIZE -> Q d s -> wp E (copyuvm_loop kend fuel pdir d sz (n * PGSIZE)) Q s.
Proof.
  intros Hsz HQ. assert (He : sz <=? n * PGSIZE = true) by (by apply Z.leb_le).
  destruct fuel; cbn [copyuvm_loop]; rewrite He; by apply wp_ret.
Qed.

Lemma wp_copyuvm_loop k fuel n sz s fs d tabs frm Q :
  copied n s fs d tabs frm -> 0 <= n -> n + Z.of_nat k <= UPAGES -> (k <= fuel)%nat ->
  (n + Z.of_nat k - 1) * PGSIZE < sz <= (n + Z.of_nat k) * PGSIZE ->
  (forall m, n <= m < n + Z.of_nat k -> is_Some (pfrm !! m)) -> (2 * k <= length fs)%nat ->
  (forall s' fs' tabs' frm', copied (n + Z.of_nat k) s' fs' d tabs' frm' -> Q d s') ->
  wp E (copyuvm_loop kend fuel pdir d sz (n * PGSIZE)) Q s.
Proof.
  revert fuel n s fs tabs frm. induction k as [|k IH]; intros fuel n s fs tabs frm H Hn Hu Hf Hsz Hp Hmem HQ.
  { rewrite Z.add_0_r in *. apply copyuvm_done; [lia|by eapply HQ]. }
  destruct fuel as [|fuel]; [lia|]. cbn [copyuvm_loop].
  destruct (Z.leb_spec sz (n * PGSIZE)); [unfold PGSIZE in *; lia|]. unfold UPAGES in Hu.
  destruct (Hp n) as [v Hv]; [lia|]. destruct (parent_dirp _ _ _ _ _ _ H) as [Hd Hpte].
  destruct (user_entry _ _ _ _ _ _ _ _ Hpar Hv) as (t & fl & Ht & Hhas & Haddr & Hflags & Hfl & Hbit & Hkv & b & Hb & Hl).
  apply wp_bind. eapply wp_walk_found; [exact Hd|apply in_page_start; lia|exact Ht|].
  destruct (Z.eqb_spec (t + 4 * (n mod 1024)) 0) as [Hz|_].
  { exfalso. revert Hz. eapply tab_nonzero; [exact Hd|exact Ht|by apply Z.mod_pos_bound]. }
  apply wp_bind. eapply wp_pte_load; [exact Hd|exact Ht|]. rewrite Hpte, Hhas, Haddr, Hflags. cbn [negb]. apply wp_bind.
  eapply wp_ualloc; [apply H|intros ->; simpl in Hmem; lia|]. intros v' fs1 s1 -> Hv0 Hp1 H1. simpl in Hmem.
  destruct (Z.eqb_spec v' 0); [done|].
  assert (Hvo : v ∈ others) by (unfold others; assert (v ∈ tabl pfrm) by (apply elem_tabl; by exists n); set_solver).
  apply wp_bind. eapply wp_Ok.
  { unfold page_bytes. rewrite Hp1, (cp_others _ _ _ _ _ _ H v Hvo), Hb. simpl. rewrite rd_bytes_Some by lia.
    rewrite drop_0, take_ge by lia. reflexivity. }
  destruct (uspace_own _ _ _ _ _ _ _ _ _ v' H1) as (Hkv' & _ & b' & Hb' & Hl'); [left|].
  destruct (uspace_fresh _ _ _ v' _ _ _ _ _ _ b H1 Hl) as [H2 Hkeep2]. apply wp_bind. eapply wp_Ok.
  { unfold memmove_page. rewrite Hb'. simpl. rewrite wr_bytes_Some by lia. rewrite take_0, drop_ge, app_nil_r by lia. reflexivity. }
  simpl. apply wp_bind.
  eapply (wp_map_user kend kdata all n v' fl); [exact H2|unfold UPAGES; lia| |done|intros ->; simpl in Hmem; lia|].
  { apply eq_None_not_Some. rewrite (cp_dom _ _ _ _ _ _ H). lia. }
  intros s3 fs3 tabs3 H3 Hpn Hpo Hkeep3 Hcnt _ _. rewrite testbit_lor_1 in Hpn by done. simpl (0 <? 0). cbn iota.
  replace (u32 (n * PGSIZE + PGSIZE)) with ((n + 1) * PGSIZE) by (symmetry; unfold u32; rewrite Z.mod_small; unfold PGSIZE; lia).
  assert (H4 : copied (n + 1) s3 fs3 d tabs3 (<[n := v']> frm)).
  { eapply (copied_next n v v' fl s); try done.
    - pose proof (split_nodup _ _ _ _ _ (dp_split _ _ _ _ _ _ _ (us_dir _ _ _ _ _ _ _ _ _ H1))) as Hnd.
      simpl in Hnd. apply NoDup_cons in Hnd as [Hnd _]. set_solver.
    - intros m Hm. rewrite Hpo by done. simpl.
      destruct (dirp_write _ _ _ _ _ _ _ v' b (us_dir _ _ _ _ _ _ _ _ _ H1)) as [_ Hw]; [left|done|]. by rewrite Hw, Hp1.
    - intros w Hw. rewrite Hkeep3 by (by right). rewrite <-Hp1. by apply Hkeep2.
    - rewrite Hkeep3 by left. simpl. by rewrite lookup_insert_eq. }
  eapply (IH fuel (n + 1) s3 fs3 tabs3); [exact H4|lia|unfold UPAGES; lia|lia|unfold PGSIZE in *; lia| |lia|].
  - intros m Hm. apply Hp. lia.
  - intros s5 fs5 tabs5 frm5 H5. apply (HQ s5 fs5 tabs5 frm5). by replace (n + Z.of_nat (S k)) with (n + 1 + Z.of_nat k) by lia.
Qed.
End Parent.
(** ** copyout *)

(** The byte a user sees at address [a]. *)
Definition ubyte (pg : gmap Z (list Z)) (frm : gmap Z Z) (a : Z) : option Z :=
  v ← frm !! (a / PGSIZE); b ← pg !! v; b !! Z.to_nat (a mod PGSIZE).

Lemma frames_inj rest s fs dir tabs frm m n v : space rest s fs dir tabs frm ->
  frm !! m = Some v -> frm !! n = Some v -> m = n.
Proof.
  intros H Hm Hn. destruct (decide (m = n)) as [|Hne]; [done|]. exfalso.
  pose proof (split_nodup _ _ _ _ _ (dp_split _ _ _ _ _ _ _ (us_dir _ _ _ _ _ _ _ _ _ H))) as Hnd.
  apply NoDup_app in Hnd as (Hnd & _ & _). apply NoDup_app in Hnd as (_ & _ & Hnd).
  rewrite (tabl_delete _ _ _ Hm) in Hnd. apply NoDup_cons in Hnd as [Hnd _]. apply Hnd, elem_tabl. exists n.
  by rewrite lookup_delete_ne.
Qed.

Lemma wp_uva2ka rest s fs dir tabs frm n va v Q : space rest s fs dir tabs frm -> in_page n va -> frm !! n = Some v ->
  has (pte (pages s) tabs n) PTE_U = true -> Q v s -> wp E (uva2ka dir va) Q s.
Proof.
  intros H Hp Hv Hu HQ. pose proof (us_dir _ _ _ _ _ _ _ _ _ H) as Hd.
  destruct (user_entry _ _ _ _ _ _ _ _ H Hv) as (t & fl & Ht & Hhas & Haddr & _).
  unfold uva2ka. apply wp_bind. eapply wp_walk_found; [exact Hd|exact Hp|exact Ht|].
  apply wp_bind. eapply wp_pte_load; [exact Hd|exact Ht|]. rewrite Hhas, Hu, Haddr. by apply wp_ret.
Qed.

(** The bytes of [d] are in user memory at [va]; nothing else has changed. *)
Record poked (rest : list Z) (s : kmst W) (fs : list Z) (dir : Z) (tabs frm : gmap Z Z) (va : Z) (d : list Z)
    (s' : kmst W) : Prop := {
  pk_space : space rest s' fs dir tabs frm;
  pk_pte m : pte (pages s') tabs m = pte (pages s) tabs m;
  pk_bytes a : ubyte (pages s') frm a =
    if decide (va <= a < va + Z.of_nat (length d)) then d !! Z.to_nat (a - va) else ubyte (pages s) frm a;
  pk_rest w : w ∈ rest -> pages s' !! w = pages s !! w;
}.

Lemma poke_page rest s fs dir tabs frm va v d :
  space rest s fs dir tabs frm -> 0 <= va -> frm !! (va / PGSIZE) = Some v ->
  va mod PGSIZE + Z.of_nat (length d) <= PGSIZE ->
  exists s', memmove_page v (Z.to_nat (va mod PGSIZE)) d s = Ok (tt, s') /\ poked rest s fs dir tabs frm va d s'.
Proof.
  intros H Hva Hv Hl. pose proof (Z.mod_pos_bound va PGSIZE ltac:(done)) as Hm.
  assert (Hin : v ∈ rest ++ tabl frm) by (apply elem_of_app; right; apply elem_tabl; by eexists).
  destruct (uspace_own _ _ _ _ _ _ _ _ _ v H Hin) as (_ & Hno & b & Hb & Hlb).
  assert (Hw : exists b', wr_bytes b (Z.to_nat (va mod PGSIZE)) d = Some b').
  { eexists. apply wr_bytes_Some. unfold PGSIZE in *. lia. }
  destruct Hw as [b' Hw]. pose proof (wr_bytes_length _ _ _ _ Hw) as Hl'.
  eexists. split; [unfold memmove_page; rewrite Hb; simpl; by rewrite Hw|]. split.
  - apply uspace_write; [done|done|lia].
  - intros m. simpl. apply pte_frame. intros t Ht. apply lookup_insert_ne. intros ->. set_solver.
  - intros a. unfold ubyte. simpl. destruct (frm !! (a / PGSIZE)) as [w|] eqn:Hw'; simpl.
    + destruct (decide (w = v)) as [->|Hne].
      * assert (a / PGSIZE = va / PGSIZE) as He by (by eapply frames_inj). rewrite lookup_insert_eq, Hb. simpl.
        rewrite (wr_bytes_lookup _ _ _ _ _ Hw).
        pose proof (Z.div_mod a PGSIZE ltac:(done)). pose proof (Z.div_mod va PGSIZE ltac:(done)).
        pose proof (Z.mod_pos_bound a PGSIZE ltac:(done)).
        case_bool_decide; destruct (decide _); try lia; [|done]. f_equal. lia.
      * rewrite lookup_insert_ne by done. destruct (decide _) as [Ha|]; [|done]. exfalso. apply Hne.
        assert (a / PGSIZE = va / PGSIZE) as He; [|congruence].
        symmetry. apply (Z.div_unique a PGSIZE _ (a - va + va mod PGSIZE)); [lia|].
        pose proof (Z.div_mod va PGSIZE ltac:(done)). lia.
    + destruct (decide _) as [Ha|]; [|done]. exfalso.
      assert (a / PGSIZE = va / PGSIZE) as He; [|congruence].
      symmetry. apply (Z.div_unique a PGSIZE _ (a - va + va mod PGSIZE)); [lia|].
      pose proof (Z.div_mod va PGSIZE ltac:(done)). lia.
  - intros w Hw'. simpl. apply lookup_insert_ne. intros ->.
    pose proof (split_nodup _ _ _ _ _ (dp_split _ _ _ _ _ _ _ (us_dir _ _ _ _ _ _ _ _ _ H))) as Hnd.
    apply NoDup_app in Hnd as (Hnd & _ & _). apply NoDup_app in Hnd as (_ & Hnd & _). apply (Hnd w Hw'), elem_tabl. by eexists.
Qed.

Lemma poked_app rest s fs dir tabs frm va d1 d2 s1 s2 :
  poked rest s fs dir tabs frm va d1 s1 -> poked rest s1 fs dir tabs frm (va + Z.of_nat (length d1)) d2 s2 ->
  poked rest s fs dir tabs frm va (d1 ++ d2) s2.
Proof.
  intros [H1 Hp1 Hb1 Hr1] [H2 Hp2 Hb2 Hr2]. split; [done|intros m; by rewrite Hp2| |intros w Hw; by rewrite Hr2, Hr1].
  intros a. rewrite Hb2, Hb1, length_app. destruct (decide (va + _ <= a < _)).
  - rewrite decide_True by lia. rewrite lookup_app_r by lia. f_equal. lia.
  - destruct (decide (va <= a < va + Z.of_nat (length d1))).
    + rewrite decide_True by lia. by rewrite lookup_app_l by lia.
    + by rewrite decide_False by lia.
Qed.

Lemma poked_nil rest s fs dir tabs frm va : space rest s fs dir tabs frm -> poked rest s fs dir tabs frm va [] s.
Proof. intros H. split; try done. intros a. by rewrite decide_False by (simpl; lia). Qed.

(** The user may write at every address from [va] on. *)
Definition user_range (pg : gmap Z (list Z)) (tabs frm : gmap Z Z) (va len : Z) : Prop :=
  forall a, va <= a < va + len -> is_Some (frm !! (a / PGSIZE)) /\ has (pte pg tabs (a / PGSIZE)) PTE_U = true.

Lemma wp_copyout_loop fuel va buf len rest s fs dir tabs frm Q :
  space rest s fs dir tabs frm -> 0 <= va -> 0 <= len -> va + len <= KERNBASE -> len <= Z.of_nat (length buf) ->
  user_range (pages s) tabs frm va len -> va mod PGSIZE + len <= Z.of_nat fuel * PGSIZE ->
  (forall s', poked rest s fs dir tabs frm va (take (Z.to_nat len) buf) s' -> Q 0 s') ->
  wp E (copyout_loop fuel dir va buf len) Q s.
Proof.
  revert va buf len s Q. induction fuel as [|fuel IH]; intros va buf len s Q H Hva Hlen Hk Hbuf Hu Hf HQ;
    pose proof (Z.mod_pos_bound va PGSIZE ltac:(done)) as Hm.
  { assert (len = 0) as -> by lia. cbn [copyout_loop]. simpl (0 =? 0). apply wp_ret, HQ. by apply poked_nil. }
  cbn [copyout_loop]. destruct (Z.eqb_spec len 0) as [->|Hne]; [apply wp_ret, HQ; by apply poked_nil|].
  pose proof (Z.div_mod va PGSIZE ltac:(done)) as Hdm. assert (Hva32 : 0 <= va < 2 ^ 32) by (unfold KERNBASE in *; lia).
  rewrite PGROUNDDOWN_spec by done. set (n := va / PGSIZE) in *. replace (va - n * PGSIZE) with (va mod PGSIZE) by lia.
  assert (Hn : 0 <= n < 524288) by (unfold KERNBASE, PGSIZE in *; lia).
  destruct (Hu va) as [[v Hv] Huv]; [lia|]. fold n in Hv, Huv.
  apply wp_bind. eapply wp_uva2ka; [exact H|apply in_page_start; lia|exact Hv|exact Huv|].
  assert (Hv0 : v <> 0).
  { destruct (user_entry _ _ _ _ _ _ _ _ H Hv) as (_ & _ & _ & _ & _ & _ & _ & _ & Hkv & _).
    destruct (kvalid_bounds _ _ Hkv). lia. }
  destruct (Z.eqb_spec v 0); [done|].
  set (c := if len <? PGSIZE - va mod PGSIZE then len else PGSIZE - va mod PGSIZE).
  assert (Hc : 0 < c <= len /\ va mod PGSIZE + c <= PGSIZE /\ (c < len -> va mod PGSIZE + c = PGSIZE)).
  { unfold c. destruct (Z.ltb_spec len (PGSIZE - va mod PGSIZE)); lia. }
  apply wp_bind. eapply wp_lift; [rewrite rd_bytes_Some, drop_0 by lia; reflexivity|].
  set (d := take (Z.to_nat c) buf). assert (Hld : Z.of_nat (length d) = c) by (unfold d; rewrite length_take; lia).
  destruct (poke_page rest s fs dir tabs frm va v d) as (s1 & Hrun & Hpk); [done|done|done|lia|].
  apply wp_bind. eapply wp_Ok; [exact Hrun|].
  replace (u32 (n * PGSIZE + PGSIZE)) with ((n + 1) * PGSIZE) by (symmetry; unfold u32; rewrite Z.mod_small; unfold PGSIZE; lia).
  pose proof Hpk as [H1 Hp1 _ _].
  assert (Hgap : len - c = 0 \/ (n + 1) * PGSIZE = va + c) by lia.
  apply IH; [exact H1|unfold PGSIZE; lia|lia|unfold KERNBASE, PGSIZE in *; lia|rewrite length_drop; lia| | |].
  - intros a Ha. rewrite Hp1. apply Hu. lia.
  - rewrite Z.mod_mul by done. rewrite Nat2Z.inj_succ, Z.mul_succ_l in Hf.
    pose proof (Z.mul_nonneg_nonneg (Z.of_nat fuel) PGSIZE ltac:(lia) ltac:(done)). lia.
  - intros s2 Hpk2. apply HQ. replace (take (Z.to_nat len) buf) with (d ++ take (Z.to_nat (len - c)) (drop (Z.to_nat c) buf)).
    2: { unfold d. rewrite take_take_drop. f_equal. lia. }
    eapply poked_app; [exact Hpk|]. destruct Hgap as [Hz|Hz]; [|by rewrite Hld, <-Hz].
    rewrite Hz in *. destruct Hpk2 as [G1 G2 G3 G4]. split; try done. intros a. rewrite G3. simpl.
    by rewrite !decide_False by lia.
Qed.

End Copy.
