(* ===== verification/VmTheorems.v ===== *)
(** * Virtual memory: results

    The address spaces that vm.c builds: what a new one maps, growing one, copying
    one for a child, writing into one, and taking one apart. *)

From stdpp Require Import base numbers list gmap sets strings.
From S2P Require Import Prelude Strings Bytes Spinlock Machine Kalloc Vm VmSpec VmSpace VmFree VmCopy.

Open Scope Z_scope.

(** The number of pages that hold [sz] bytes. *)
Definition npages (sz : Z) : Z := (sz + PGSIZE - 1) / PGSIZE.

Lemma npages_bounds sz : (npages sz - 1) * PGSIZE < sz <= npages sz * PGSIZE.
Proof.
  unfold npages. pose proof (Z.div_mod (sz + PGSIZE - 1) PGSIZE ltac:(done)).
  pose proof (Z.mod_pos_bound (sz + PGSIZE - 1) PGSIZE ltac:(done)). unfold PGSIZE in *. lia.
Qed.

Lemma npages_le a b : a <= b -> npages a <= npages b.
Proof. intros H. apply Z.div_le_mono; [done|lia]. Qed.

Lemma npages_user sz : 0 <= sz <= KERNBASE -> 0 <= npages sz <= UPAGES.
Proof.
  intros H. pose proof (npages_bounds sz). unfold UPAGES, KERNBASE, PGSIZE in *. lia.
Qed.

Lemma PGROUNDUP_npages sz : 0 <= sz <= KERNBASE -> PGROUNDUP sz = npages sz * PGSIZE.
Proof. intros H. apply PGROUNDUP_spec. unfold KERNBASE, PGSIZE in *. lia. Qed.

(** The kernel's entries are closed to the user. *)
Lemma entry_for_kernel pa perm : perm = 0 \/ perm = PTE_W -> pa mod PGSIZE = 0 -> has (entry_for pa perm) PTE_U = false.
Proof.
  intros Hp Ha. rewrite has_U. unfold entry_for, u32. rewrite Z.mod_pow2_bits_low by lia.
  rewrite !Z.lor_spec, (aligned_bit pa 2) by (done || lia). by destruct Hp as [->| ->].
Qed.

Lemma u32_aligned x : x mod PGSIZE = 0 -> u32 x mod PGSIZE = 0.
Proof.
  intros H. unfold u32. change (2 ^ 32) with (PGSIZE * 1048576). rewrite Z.rem_mul_r, H, Z.add_0_l, Z.mul_comm by done.
  by apply Z.mod_mul.
Qed.

Lemma kernel_pte_closed kdata m : kdata_ok kdata -> has (kernel_pte kdata m) PTE_U = false.
Proof.
  intros Hk. assert (Hall : Forall (fun g => (sg_perm g = 0 \/ sg_perm g = PTE_W) /\ sg_pa g mod PGSIZE = 0) (kernel_segs kdata)).
  { unfold kernel_segs. repeat (apply Forall_cons; split); try apply Forall_nil_2; cbn [sg_perm sg_pa]; (split; [auto|]); try done.
    rewrite Zminus_mod, (kd_page _ Hk). done. }
  unfold kernel_pte. induction Hall as [|g l [Hp Ha] _ IH]; [done|]. cbn [segs_pte]. destruct (in_seg g m); [|done].
  unfold seg_pte. apply entry_for_kernel; [done|]. apply u32_aligned.
  rewrite Z.add_mod, Ha, Z.mod_mul by done. done.
Qed.

Section Results.
Context {W : Type} {VW : VmWorld W} (kend kdata : Z) (all : list Z).
Implicit Types s : kmst W.

(** C15. [setupkvm] makes an address space that has the mappings of [kmap] and no
    others, none of them open to the user, and leaves every page in use alone; it
    returns null only when fewer than 66 pages are free, and then takes them all. *)
Theorem setupkvm_isolates rest s fs :
  kdata_ok kdata -> split_pages kend all rest s fs ->
  exists dir s', setupkvm kdata s = Ok (dir, s') /\ (forall w, w ∈ rest -> pages s' !! w = pages s !! w) /\
    if dir =? 0 then (length fs <= 65)%nat /\ exists own, split_pages kend all own s' []
    else exists fs' tabs, uspace kend kdata all rest s' fs' dir tabs ∅ /\
      forall m, pte (pages s') tabs m = kernel_pte kdata m /\ has (pte (pages s') tabs m) PTE_U = false.
Proof.
  intros Hk Hs. apply wp_no_error. eapply (wp_setupkvm kend kdata all Hk); [exact Hs| |].
  - intros Hl s' own Hs' Hr. split; [done|]. split; [done|]. by exists own.
  - intros dir s' fs' tabs Hd H Hp _ Hr _. split; [done|]. destruct (Z.eqb_spec dir 0); [done|].
    exists fs', tabs. split; [by apply uspace_new|]. intros m. rewrite Hp. split; [done|]. by apply kernel_pte_closed.
Qed.

(** [allocuvm] refuses to grow into the kernel's half and does not shrink; with
    enough free memory it adds the missing pages, zeroed and open to the user, and
    changes no mapping and no page there was. *)
Theorem allocuvm_grows rest s fs dir tabs frm oldsz newsz :
  uspace kend kdata all rest s fs dir tabs frm -> 0 <= oldsz -> 0 <= newsz ->
  (forall m, npages oldsz <= m -> frm !! m = None) ->
  2 * (npages newsz - npages oldsz) <= Z.of_nat (length fs) ->
  if KERNBASE <=? newsz then allocuvm kend dir oldsz newsz s = Ok (0, s)
  else if newsz <? oldsz then allocuvm kend dir oldsz newsz s = Ok (oldsz, s)
  else exists s' fs' tabs' frm', allocuvm kend dir oldsz newsz s = Ok (newsz, s') /\
    grown kend kdata all rest s fs dir tabs frm (npages oldsz) (npages newsz) s' fs' tabs' frm'.
Proof.
  intros H Hold Hnew Hno Hmem. unfold allocuvm. destruct (Z.leb_spec KERNBASE newsz) as [|Hk]; [done|].
  destruct (Z.ltb_spec newsz oldsz) as [|Hle]; [done|].
  pose proof (npages_le _ _ Hle) as Hn. pose proof (npages_user oldsz ltac:(lia)). pose proof (npages_user newsz ltac:(lia)).
  rewrite PGROUNDUP_npages by lia. set (k := Z.to_nat (npages newsz - npages oldsz)).
  assert (Hk' : npages newsz = npages oldsz + Z.of_nat k) by lia.
  edestruct (wp_no_error (allocuvm_loop kend (Z.to_nat (newsz / PGSIZE + 1)) dir (npages oldsz * PGSIZE) oldsz newsz))
    as (r & s' & Hrun & HP).
  { eapply (wp_allocuvm_loop kend kdata all k) with (Q := fun r s' => r = newsz /\ exists fs' tabs' frm',
      grown kend kdata all rest s fs dir tabs frm (npages oldsz) (npages oldsz + Z.of_nat k) s' fs' tabs' frm');
      [exact H|lia|lia| |rewrite <-Hk'; apply npages_bounds| |lia|].
    - pose proof (npages_bounds newsz). pose proof (Z.div_mod newsz PGSIZE ltac:(done)).
      pose proof (Z.mod_pos_bound newsz PGSIZE ltac:(done)). unfold PGSIZE in *. lia.
    - intros m Hm. apply Hno. lia.
    - intros s' fs' tabs' frm' Hg. split; [done|]. by exists fs', tabs', frm'. }
  destruct HP as (-> & fs' & tabs' & frm' & Hg). exists s', fs', tabs', frm'. rewrite Hk'. done.
Qed.

(** C16. [freevm] gives back every page of an address space, the user's pages, the
    tables and the directory, each exactly once, and touches no other page. *)
Theorem freevm_frees rest s fs dir tabs frm :
  KERNBASE < kend -> uspace kend kdata all rest s fs dir tabs frm ->
  exists s' fs', freevm kend dir s = Ok (tt, s') /\ split_pages kend all rest s' fs' /\
    (length fs' = length fs + size frm + size tabs + 1)%nat /\
    forall w, w ∈ rest -> pages s' !! w = pages s !! w.
Proof.
  intros Hk H. edestruct (wp_no_error (freevm (W := W) kend dir)) as ([] & s' & Hrun & HP).
  { eapply (wp_freevm kend kdata all Hk) with (Q := fun _ s' => exists fs', split_pages kend all rest s' fs' /\
      (length fs' = length fs + size frm + size tabs + 1)%nat /\ forall w, w ∈ rest -> pages s' !! w = pages s !! w);
      [exact H|]. intros s' fs' H1 H2 H3. by exists fs'. }
  destruct HP as (fs' & HP). exists s', fs'. done.
Qed.

(** C14. [copyuvm] gives the child a copy of every page of the parent, with the same
    permissions, in pages of its own; the parent's address space and every other
    page are as before. *)
Theorem copyuvm_copies rest s fs dir tabs frm sz :
  kdata_ok kdata -> uspace kend kdata all rest s fs dir tabs frm -> 0 <= sz <= KERNBASE ->
  (forall m, 0 <= m < npages sz -> is_Some (frm !! m)) ->
  66 + 2 * npages sz <= Z.of_nat (length fs) ->
  exists d s' fs' tabs' frm', copyuvm kend kdata dir sz s = Ok (d, s') /\ d <> 0 /\
    copied kend kdata all rest s dir tabs frm (npages sz) s' fs' d tabs' frm' /\
    uspace kend kdata all (rest ++ d :: tabl tabs' ++ tabl frm') s' fs' dir tabs frm.
Proof.
  intros Hk H Hsz Hp Hmem. pose proof (npages_user sz Hsz) as Hn.
  edestruct (wp_no_error (copyuvm (W := W) kend kdata dir sz)) as (d & s' & Hrun & HP).
  { unfold copyuvm. apply wp_bind. eapply (wp_setupkvm kend kdata all Hk (others rest dir tabs frm)); [apply H|intros; lia|].
    intros d s1 fs1 tabs1 Hd H1 Hp1 Hkeys Hr1 Hc1. destruct (Z.eqb_spec d 0); [done|].
    eapply (wp_copyuvm_loop kend kdata all rest s fs dir tabs frm H (Z.to_nat (npages sz)) _ 0) with
      (Q := fun r s' => r <> 0 /\ exists fs' tabs' frm', copied kend kdata all rest s dir tabs frm (npages sz) s' fs' r tabs' frm').
    - split; [by apply uspace_new| |intros; lia|done]. intros m. rewrite lookup_empty. split; [by intros []|lia].
    - lia.
    - lia.
    - pose proof (npages_bounds sz). pose proof (Z.div_mod sz PGSIZE ltac:(done)).
      pose proof (Z.mod_pos_bound sz PGSIZE ltac:(done)). unfold PGSIZE in *. lia.
    - replace (0 + Z.of_nat (Z.to_nat (npages sz))) with (npages sz) by lia. apply npages_bounds.
    - intros m Hm. apply Hp. lia.
    - pose proof (keys_size tabs1 _ Hkeys) as Hs. change (length kernel_keys) with 64%nat in Hs. lia.
    - intros s2 fs2 tabs2 frm2 Hc. split; [done|]. exists fs2, tabs2, frm2.
      by replace (0 + Z.of_nat (Z.to_nat (npages sz))) with (npages sz) in Hc by lia. }
  destruct HP as (Hd & fs' & tabs' & frm' & Hc). exists d, s', fs', tabs', frm'. split_and!; try done.
  eapply uspace_frame; [exact H| |].
  - eapply split_perm; [|apply Hc]. unfold others. solve_Permutation.
  - intros w Hw. apply Hc. unfold others. set_solver.
Qed.

(** [copyout] writes the [len] bytes at [va], across page boundaries, when the
    user may use every page of the range; every other byte of the address space,
    every mapping and every other page are as before. *)
Theorem copyout_writes rest s fs dir tabs frm va p len :
  uspace kend kdata all rest s fs dir tabs frm -> 0 <= va -> 0 <= len -> va + len <= KERNBASE ->
  len <= Z.of_nat (length p) -> user_range (pages s) tabs frm va len ->
  exists s', copyout dir va p len s = Ok (0, s') /\
    poked kend kdata all rest s fs dir tabs frm va (take (Z.to_nat len) p) s'.
Proof.
  intros H Hva Hlen Hk Hp Hu. edestruct (wp_no_error (copyout (W := W) dir va p len)) as (r & s' & Hrun & HP).
  { eapply (wp_copyout_loop kend kdata all) with (Q := fun r s' => r = 0 /\
      poked kend kdata all rest s fs dir tabs frm va (take (Z.to_nat len) p) s'); [exact H|done..| |].
    - pose proof (Z.div_mod len PGSIZE ltac:(done)). pose proof (Z.mod_pos_bound len PGSIZE ltac:(done)).
      pose proof (Z.mod_pos_bound va PGSIZE ltac:(done)). pose proof (Z.div_pos len PGSIZE Hlen ltac:(done)).
      rewrite Z2Nat.id by lia. unfold PGSIZE in *. lia.
    - intros s' Hs'. done. }
  destruct HP as [-> HP]. by exists s'.
Qed.

(** When the last free page has been taken for the user and its table is missing,
    [allocuvm] does not notice that [mappages] failed: it returns the new size, the
    address space is as before and the page is lost. *)
Theorem allocuvm_loses_page rest s dir tabs frm v :
  uspace kend kdata all rest s [v] dir tabs frm -> tabs !! 0 = None -> frm !! 0 = None ->
  exists s', allocuvm kend dir 0 PGSIZE s = Ok (PGSIZE, s') /\ uspace kend kdata all (v :: rest) s' [] dir tabs frm.
Proof.
  intros H Ht Hf.
  edestruct (wp_no_error (allocuvm (W := W) kend dir 0 PGSIZE)
    (fun r s' => r = PGSIZE /\ uspace kend kdata all (v :: rest) s' [] dir tabs frm)) as (r & s' & Hrun & HP).
  { unfold allocuvm. change (KERNBASE <=? PGSIZE) with false. change (PGSIZE <? 0) with false.
    change (Z.to_nat (PGSIZE / PGSIZE + 1)) with 2%nat. change (PGROUNDUP 0) with (0 * PGSIZE). cbn [allocuvm_loop].
    change (PGSIZE <=? 0 * PGSIZE) with false. apply wp_bind. eapply wp_ualloc; [exact H|done|].
    intros v' fs1 s1 [= <- <-] Hv Hp1 H1. destruct (Z.eqb_spec v 0); [done|].
    destruct (uspace_own _ _ _ _ _ _ _ _ _ v H1) as (Hkv & _ & b & Hb & Hl); [left|].
    apply wp_bind. eapply wp_Ok; [by apply (memset_page_ok v 0 b)|].
    destruct (uspace_fresh _ _ _ v _ _ _ _ _ _ (replicate (Z.to_nat PGSIZE) (u8 0)) H1) as [H2 _]; [apply length_replicate|].
    apply wp_bind. eapply (wp_map_user kend kdata all 0 v (Z.lor PTE_W PTE_U)); [exact H2|done|done|done| |].
    - intros _ _ s3 H3. change (u32 (0 * PGSIZE + PGSIZE)) with PGSIZE. change (PGSIZE <=? PGSIZE) with true.
      by apply wp_ret.
    - intros s3 fs3 tabs3 H3 Hpte _ _ _ Hsub Hc. exfalso. simpl in Hc.
      assert (tabs = tabs3) as <- by (apply map_subseteq_size_eq; [done|lia]).
      unfold pte in Hpte. change (0 / 1024) with 0 in Hpte. rewrite Ht in Hpte. symmetry in Hpte. by apply Z.lor_eq_0_iff in Hpte as [_ ?]. }
  destruct HP as [-> HP]. by exists s'.
Qed.
End Results.

(** ** A small machine *)

(** 400 pages above the kernel, all of them free. *)
Definition vm_end : Z := KERNBASE + 2 * EXTMEM.
Definition vm_data : Z := KERNLINK + PGSIZE.
Definition vm_run : list Z := page_run vm_end 400.
Definition vm_pages : list Z := reverse vm_run.

#[export] Instance quiet_world : VmWorld unit := {|
  console _ w := w;
  set_cr3 _ w := w;
|}.

Definition vm_boot : kmst unit := mkkmst (boot_mach 1 tt) false 0 (list_to_map ((fun v => (v, zero_page)) <$> vm_run)).

Lemma vm_data_ok : kdata_ok vm_data.
Proof. split; by vm_compute. Qed.

Lemma vm_boot_mapped v : v ∈ vm_run -> is_Some (pages vm_boot !! v).
Proof.
  intros Hv. destruct (pages vm_boot !! v) eqn:Hp; [done|]. exfalso.
  apply not_elem_of_list_to_map_2 in Hp. apply Hp. rewrite <-list_fmap_compose. by rewrite list_fmap_id.
Qed.

Lemma vm_boot_lengths : map_Forall (fun _ b => length b = Z.to_nat PGSIZE) (pages vm_boot).
Proof.
  intros v b Hb. apply elem_of_list_to_map_2, list_elem_of_fmap in Hb as (w & [= -> ->] & _). apply length_replicate.
Qed.

Lemma vm_start : exists s : kmst unit, split_pages vm_end vm_pages [] s vm_pages.
Proof.
  destruct (kinit1_inv vm_end (vm_end + 400 * PGSIZE) 400 vm_boot) as (s & _ & Hi & Hd);
    [by vm_compute|by vm_compute|by vm_compute|by vm_compute|reflexivity|apply boot_quiet|unfold KMEM; simpl; lia
    |apply vm_boot_lengths| |].
  { change (PGROUNDUP vm_end) with vm_end. apply vm_boot_mapped. }
  change (PGROUNDUP vm_end) with vm_end in Hi. fold vm_run vm_pages in Hi. exists s.
  pose proof Hi as [_ Hn Hv _ _ _]. split; [done|by rewrite app_nil_r|done|done|].
  intros v Hv'. apply elem_of_dom. rewrite Hd. apply elem_of_dom, vm_boot_mapped. by apply elem_of_reverse in Hv'.
Qed.

Lemma vm_kernel : exists (s : kmst unit) fs dir tabs, uspace vm_end vm_data vm_pages [] s fs dir tabs ∅ /\
  (335 <= length fs)%nat /\ tabs !! 0 = None.
Proof.
  destruct vm_start as [s0 H0]. edestruct (wp_no_error (setupkvm (W := unit) vm_data)) as (r & s & _ & HP).
  { eapply (wp_setupkvm vm_end vm_data vm_pages vm_data_ok [] s0) with (Q := fun dir s => exists fs tabs,
      uspace vm_end vm_data vm_pages [] s fs dir tabs ∅ /\ (335 <= length fs)%nat /\ tabs !! 0 = None); [exact H0| |].
    - intros Hl. change (length vm_pages) with 400%nat in Hl. lia.
    - intros dir s fs tabs _ H Hp Hk _ Hc. exists fs, tabs. split; [apply uspace_new; [apply vm_data_ok|done..]|].
      pose proof (keys_size tabs _ Hk) as Hs. change (length kernel_keys) with 64%nat in Hs.
      change (length vm_pages) with 400%nat in Hc. split; [lia|]. apply eq_None_not_Some. intros H0'%Hk.
      revert H0'. apply (bool_decide_unpack _). by vm_compute. }
  destruct HP as (fs & tabs & HP). by exists s, fs, r, tabs.
Qed.

(** With three pages of user memory. *)
Lemma vm_user : exists (s : kmst unit) fs dir tabs frm, uspace vm_end vm_data vm_pages [] s fs dir tabs frm /\
  (100 <= length fs)%nat /\ user_range (pages s) tabs frm 0 (3 * PGSIZE) /\ forall m, 3 <= m -> frm !! m = None.
Proof.
  destruct vm_kernel as (s0 & fs0 & dir & tabs0 & H0 & Hl & _).
  edestruct (wp_no_error (allocuvm_loop (W := unit) vm_end 3 dir (0 * PGSIZE) 0 (3 * PGSIZE))) as (r & s & _ & HP).
  { eapply (wp_allocuvm_loop vm_end vm_data vm_pages 3 3 0) with (Q := fun _ s => exists fs tabs frm,
      grown vm_end vm_data vm_pages [] s0 fs0 dir tabs0 ∅ 0 3 s fs tabs frm); [exact H0|lia|by vm_compute|lia|unfold PGSIZE; lia|done|lia|].
    intros s fs tabs frm Hg. by exists fs, tabs, frm. }
  destruct HP as (fs & tabs & frm & [H Hold Hnew _ Hc]). exists s, fs, dir, tabs, frm. split_and!; [done|lia| |].
  - intros a Ha. assert (Hm : 0 <= a / PGSIZE < 3).
    { split; [apply Z.div_pos; [lia|done]|apply Z.div_lt_upper_bound; [done|lia]]. }
    destruct (Hnew _ Hm) as (v & Hv & _ & ->). split; [by eexists|]. rewrite has_U, Z.lor_spec. by rewrite orb_true_r.
  - intros m Hm. destruct (Hold m) as [-> _]; [lia|]. apply lookup_empty.
Qed.

Lemma setupkvm_isolates_witness : exists s : kmst unit, exists dir s', setupkvm vm_data s = Ok (dir, s') /\
  (forall w, w ∈ [] -> pages s' !! w = pages s !! w) /\
  if dir =? 0 then (length vm_pages <= 65)%nat /\ exists own, split_pages vm_end vm_pages own s' []
  else exists fs' tabs, uspace vm_end vm_data vm_pages [] s' fs' dir tabs ∅ /\
    forall m, pte (pages s') tabs m = kernel_pte vm_data m /\ has (pte (pages s') tabs m) PTE_U = false.
Proof.
  destruct vm_start as [s H]. exists s.
  exact (setupkvm_isolates vm_end vm_data vm_pages [] s vm_pages vm_data_ok H).
Defined.

Lemma allocuvm_grows_witness : exists (s : kmst unit) fs dir tabs frm s' fs' tabs' frm',
  allocuvm vm_end dir 12000 20000 s = Ok (20000, s') /\
  grown vm_end vm_data vm_pages [] s fs dir tabs frm 3 5 s' fs' tabs' frm'.
Proof.
  destruct vm_user as (s & fs & dir & tabs & frm & H & Hl & _ & Hno). exists s, fs, dir, tabs, frm.
  apply (allocuvm_grows vm_end vm_data vm_pages [] s fs dir tabs frm 12000 20000 H); [lia|lia|exact Hno|].
  change (npages 20000 - npages 12000) with 2. lia.
Defined.

Lemma freevm_frees_witness : exists (s : kmst unit) (fs : list Z) dir (tabs frm : gmap Z Z) s' fs',
  freevm vm_end dir s = Ok (tt, s') /\ split_pages vm_end vm_pages [] s' fs' /\
  (length fs' = length fs + size frm + size tabs + 1)%nat /\ forall w, w ∈ [] -> pages s' !! w = pages s !! w.
Proof.
  destruct vm_user as (s & fs & dir & tabs & frm & H & _). exists s, fs, dir, tabs, frm.
  apply (freevm_frees vm_end vm_data vm_pages [] s fs dir tabs frm); [by vm_compute|exact H].
Defined.

Lemma copyuvm_copies_witness : exists (s : kmst unit) dir tabs frm d s' fs' tabs' frm',
  copyuvm vm_end vm_data dir 12000 s = Ok (d, s') /\ d <> 0 /\
  copied vm_end vm_data vm_pages [] s dir tabs frm 3 s' fs' d tabs' frm' /\
  uspace vm_end vm_data vm_pages ([] ++ d :: tabl tabs' ++ tabl frm') s' fs' dir tabs frm.
Proof.
  destruct vm_user as (s & fs & dir & tabs & frm & H & Hl & Hu & _). exists s, dir, tabs, frm.
  apply (copyuvm_copies vm_end vm_data vm_pages [] s fs dir tabs frm 12000 vm_data_ok H); [by vm_compute| |].
  - intros m Hm. change (npages 12000) with 3 in Hm. destruct (Hu (m * PGSIZE)) as [Hs _]; [unfold PGSIZE; lia|].
    by rewrite Z.div_mul in Hs.
  - change (npages 12000) with 3. lia.
Defined.

Lemma copyout_writes_witness : exists (s : kmst unit) fs dir tabs frm s',
  copyout dir 4095 [1; 2; 3] 3 s = Ok (0, s') /\
  poked vm_end vm_data vm_pages [] s fs dir tabs frm 4095 [1; 2; 3] s'.
Proof.
  destruct vm_user as (s & fs & dir & tabs & frm & H & _ & Hu & _). exists s, fs, dir, tabs, frm.
  apply (copyout_writes vm_end vm_data vm_pages [] s fs dir tabs frm 4095 [1; 2; 3] 3 H);
    [lia|lia|by vm_compute|simpl; lia|]. intros a Ha. apply Hu. unfold PGSIZE. lia.
Defined.

(** Pages taken until one is left. *)
Lemma vm_drain k rest (s : kmst unit) fs dir tabs frm : uspace vm_end vm_data vm_pages rest s fs dir tabs frm ->
  length fs = S k -> exists (s' : kmst unit) rest' v, uspace vm_end vm_data vm_pages rest' s' [v] dir tabs frm.
Proof.
  revert rest s fs. induction k as [|k IH]; intros rest s fs H Hl.
  { destruct fs as [|v [|]]; try done. by exists s, rest, v. }
  edestruct (wp_no_error (kalloc (W := unit))) as (v & s1 & _ & HP).
  { eapply (wp_ualloc vm_end vm_data vm_pages) with (Q := fun v s1 => exists fs', fs = v :: fs' /\
      uspace vm_end vm_data vm_pages (v :: rest) s1 fs' dir tabs frm); [exact H|by intros ->|].
    intros v fs' s1 -> _ _ H1. by exists fs'. }
  destruct HP as (fs' & -> & H1). eapply IH; [exact H1|]. simpl in Hl. lia.
Qed.

Lemma allocuvm_loses_page_witness : exists (s : kmst unit) rest dir tabs v s',
  allocuvm vm_end dir 0 PGSIZE s = Ok (PGSIZE, s') /\
  uspace vm_end vm_data vm_pages (v :: rest) s' [] dir tabs ∅.
Proof.
  destruct vm_kernel as (s0 & fs0 & dir & tabs & H0 & Hl & Ht).
  destruct (vm_drain (length fs0 - 1) [] s0 fs0 dir tabs ∅ H0) as (s & rest & v & H); [lia|].
  exists s, rest, dir, tabs, v.
  exact (allocuvm_loses_page vm_end vm_data vm_pages rest s dir tabs ∅ v H Ht (lookup_empty 0)).
Defined.
