(* ===== verification/Pipe.v ===== *)
(** * Pipes (pipe.c)

    [pipewrite] and [piperead] hold [p->lock] except while they sleep, so a
    call is a sequence of atomic segments: each segment runs from taking the
    lock to a [sleep] or a return.  A segment of [pipewrite] starts with the
    value of its local [i]; processes interleave between segments.

    The freeing of the pipe's page is an environment call. *)

From stdpp Require Import base numbers list strings.
From S2P Require Import Prelude Spinlock Machine.

Open Scope Z_scope.

Definition PIPESIZE : Z := 512.

(** The allocator as the clients of pages see it. *)
Class PageEnv (W : Type) := {
  env_kfree : Z -> W -> outcome W;
}.

(** [struct pipe] without its lock; [p_addr] is the page it lives in. *)
Record pipe := mkpipe {
  p_addr : Z;
  p_data : list Z;
  nread : Z;
  nwrite : Z;
  readopen : bool;
  writeopen : bool;
}.

Definition set_p_data (d : list Z) (p : pipe) : pipe :=
  mkpipe (p_addr p) d (nread p) (nwrite p) (readopen p) (writeopen p).
Definition set_nread (n : Z) (p : pipe) : pipe :=
  mkpipe (p_addr p) (p_data p) n (nwrite p) (readopen p) (writeopen p).
Definition set_nwrite (n : Z) (p : pipe) : pipe :=
  mkpipe (p_addr p) (p_data p) (nread p) n (readopen p) (writeopen p).
Definition set_readopen (b : bool) (p : pipe) : pipe :=
  mkpipe (p_addr p) (p_data p) (nread p) (nwrite p) b (writeopen p).
Definition set_writeopen (b : bool) (p : pipe) : pipe :=
  mkpipe (p_addr p) (p_data p) (nread p) (nwrite p) (readopen p) b.

(** How a segment ends: the call returns, or sleeps and starts its next
    segment when woken. *)
Inductive segment := Return (r : Z) | Sleeps.

(** [p->lock] among the locks of the machine. *)
Definition PIPELOCK : nat := 0.

Section Pipe.
Context {W : Type} {SC : Sched W} {PE : PageEnv W}.

Record pst := mkpst {
  pp_mach : mach W;
  pp : pipe;
}.

Definition set_pp_mach (m : mach W) (s : pst) : pst := mkpst m (pp s).
Definition set_pp (p : pipe) (s : pst) : pst := mkpst (pp_mach s) p.

#[export] Instance pst_mach : HasMach pst W := {|
  get_mach := pp_mach;
  put_mach := set_pp_mach;
|}.

#[export] Instance pst_mach_laws : HasMachLaws pst W.
Proof. split; [done|by intros []|done]. Qed.

Definition modpipe (f : pipe -> pipe) : M pst unit := modify (fun s => set_pp (f (pp s)) s).

(** The pipe [pipealloc] sets up in the page at [a], whose bytes are [d]. *)
Definition new_pipe (a : Z) (d : list Z) : pipe := mkpipe a d 0 0 true true.

Definition kfree_page (a : Z) : M pst unit := fun s =>
  match env_kfree a (m_world (pp_mach s)) with
  | Ok w => Ok (tt, set_pp_mach (mkmach (m_locks (pp_mach s)) (m_cpu (pp_mach s)) w) s)
  | Err e => Err e
  end.

Definition pipeclose (writable : bool) : M pst unit :=
  acquire_m PIPELOCK ;;
  p ← gets pp;
  (if writable then
     modpipe (set_writeopen false) ;; wakeup_m (ChPipeRead (p_addr p))
   else
     modpipe (set_readopen false) ;; wakeup_m (ChPipeWrite (p_addr p))) ;;
  p ← gets pp;
  if negb (readopen p) && negb (writeopen p) then
    release_m PIPELOCK ;;
    kfree_page (p_addr p)
  else release_m PIPELOCK.

(** [p->data[p->nwrite++ % PIPESIZE] = c]. *)
Definition put_byte (c : Z) : M pst unit := fun s =>
  let p := pp s in
  let k := Z.to_nat (nwrite p mod PIPESIZE) in
  match p_data p !! k with
  | None => Err Fault
  | Some _ => Ok (tt, set_pp (set_nwrite (u32 (nwrite p + 1)) (set_p_data (<[k := c]> (p_data p)) p)) s)
  end.

(** [p->data[p->nread++ % PIPESIZE]]. *)
Definition take_byte : M pst Z := fun s =>
  let p := pp s in
  match p_data p !! Z.to_nat (nread p mod PIPESIZE) with
  | None => Err Fault
  | Some c => Ok (c, set_pp (set_nread (u32 (nread p + 1)) p) s)
  end.

(** The [for] loop of [pipewrite] with [k] iterations to go; returns with the
    value of [i]. *)
Fixpoint pipewrite_loop (k : nat) (addr : list Z) (n i : Z) : M pst (segment * Z) :=
  match k with
  | O =>
      p ← gets pp;
      wakeup_m (ChPipeRead (p_addr p)) ;;
      release_m PIPELOCK ;;
      mret (Return n, i)
  | S k =>
      p ← gets pp;
      if nwrite p =? u32 (nread p + PIPESIZE) then
        dead ← killed_m;
        if negb (readopen p) || dead then
          release_m PIPELOCK ;; mret (Return (-1), i)
        else
          wakeup_m (ChPipeRead (p_addr p)) ;;
          release_m PIPELOCK ;;
          mret (Sleeps, i)
      else
        c ← lift (match addr !! Z.to_nat i with Some c => Ok c | None => Err Fault end);
        put_byte c ;;
        pipewrite_loop k addr n (i + 1)
  end.

(** A segment of [pipewrite(p, addr, n)]: the call itself has [i = 0]. *)
Definition pipewrite (addr : list Z) (n i : Z) : M pst (segment * Z) :=
  acquire_m PIPELOCK ;;
  pipewrite_loop (Z.to_nat (n - i)) addr n i.

(** The copy loop of [piperead]: the bytes it puts in [addr], and [i]. *)
Fixpoint piperead_loop (k : nat) (i : Z) : M pst (list Z * Z) :=
  match k with
  | O => mret ([], i)
  | S k =>
      p ← gets pp;
      if nread p =? nwrite p then mret ([], i)
      else
        c ← take_byte;
        r ← piperead_loop k (i + 1);
        mret (c :: r.1, r.2)
  end.

(** A segment of [piperead(p, addr, n)], with the bytes stored from [addr]. *)
Definition piperead (n : Z) : M pst (segment * list Z) :=
  acquire_m PIPELOCK ;;
  p ← gets pp;
  if (nread p =? nwrite p) && writeopen p then
    dead ← killed_m;
    release_m PIPELOCK ;;
    mret (if dead : bool then Return (-1) else Sleeps, [])
  else
    r ← piperead_loop (Z.to_nat n) 0;
    wakeup_m (ChPipeWrite (p_addr p)) ;;
    release_m PIPELOCK ;;
    mret (Return r.2, r.1).
End Pipe.
Arguments pst W : clear implicits.

(** ** The bytes in the pipe *)

(** Number of bytes written and not yet read; the counters wrap at 2^32. *)
Definition avail (p : pipe) : nat := Z.to_nat (u32 (nwrite p - nread p)).

Definition content (p : pipe) : list Z :=
  (fun k : nat => p_data p !!! Z.to_nat (u32 (nread p + Z.of_nat k) mod PIPESIZE)) <$> seq 0 (avail p).

Record pipe_ok (p : pipe) : Prop := {
  po_data : length (p_data p) = Z.to_nat PIPESIZE;
  po_nread : 0 <= nread p < 2 ^ 32;
  po_nwrite : 0 <= nwrite p < 2 ^ 32;
  po_avail : (avail p <= Z.to_nat PIPESIZE)%nat;
}.

Definition slot (z : Z) : nat := Z.to_nat (z mod PIPESIZE).

Lemma u32_slot z : Z.to_nat (u32 z mod PIPESIZE) = slot z.
Proof.
  unfold slot, u32, PIPESIZE. f_equal. rewrite <-Znumtheory.Zmod_div_mod; [done|lia|lia|].
  by exists 8388608.
Qed.

Lemma slot_lt z : (slot z < Z.to_nat PIPESIZE)%nat.
Proof. unfold slot, PIPESIZE. pose proof (Z.mod_pos_bound z 512). lia. Qed.

Lemma slot_inj z (k j : nat) :
  (k < Z.to_nat PIPESIZE)%nat -> (j < Z.to_nat PIPESIZE)%nat ->
  slot (z + Z.of_nat k) = slot (z + Z.of_nat j) -> k = j.
Proof.
  unfold slot, PIPESIZE. intros Hk Hj H.
  pose proof (Z.mod_pos_bound (z + Z.of_nat k) 512). pose proof (Z.mod_pos_bound (z + Z.of_nat j) 512).
  assert ((z + Z.of_nat k) mod 512 = (z + Z.of_nat j) mod 512) as He by lia.
  pose proof (Z_div_mod_eq_full (z + Z.of_nat k) 512). pose proof (Z_div_mod_eq_full (z + Z.of_nat j) 512).
  lia.
Qed.

Lemma avail_range p : pipe_ok p -> Z.of_nat (avail p) = u32 (nwrite p - nread p).
Proof. intros _. unfold avail, u32. pose proof (Z.mod_pos_bound (nwrite p - nread p) (2 ^ 32)). lia. Qed.

Lemma nwrite_avail p : pipe_ok p -> nwrite p = u32 (nread p + Z.of_nat (avail p)).
Proof.
  intros Hp. rewrite avail_range by done. destruct Hp. unfold u32.
  rewrite Zplus_mod_idemp_r. replace (nread p + (nwrite p - nread p)) with (nwrite p) by lia.
  by rewrite Z.mod_small.
Qed.

Lemma full_test p : pipe_ok p ->
  (nwrite p =? u32 (nread p + PIPESIZE)) = bool_decide (avail p = Z.to_nat PIPESIZE).
Proof.
  intros Hp. pose proof (nwrite_avail p Hp) as Hw. destruct Hp as [_ Hr _ Ha].
  case_bool_decide as Hd.
  - apply Z.eqb_eq. rewrite Hw, Hd. done.
  - apply Z.eqb_neq. rewrite Hw. unfold u32, PIPESIZE in *. intros He.
    pose proof (Z_div_mod_eq_full (nread p + Z.of_nat (avail p)) (2 ^ 32)).
    pose proof (Z_div_mod_eq_full (nread p + 512) (2 ^ 32)). lia.
Qed.

Lemma empty_test p : pipe_ok p -> (nread p =? nwrite p) = bool_decide (avail p = O).
Proof.
  intros Hp. pose proof (nwrite_avail p Hp) as Hw. destruct Hp as [_ Hr _ Ha].
  case_bool_decide as Hd.
  - apply Z.eqb_eq. rewrite Hw, Hd, Z.add_0_r. symmetry. by apply Z.mod_small.
  - apply Z.eqb_neq. rewrite Hw. unfold u32, PIPESIZE in *. intros He.
    pose proof (Z_div_mod_eq_full (nread p + Z.of_nat (avail p)) (2 ^ 32)). lia.
Qed.

Lemma content_alt p :
  content p = (fun k : nat => p_data p !!! slot (nread p + Z.of_nat k)) <$> seq 0 (avail p).
Proof. unfold content. apply list_fmap_ext. intros ? k _. by rewrite u32_slot. Qed.

Lemma length_content p : length (content p) = avail p.
Proof. unfold content. by rewrite length_fmap, length_seq. Qed.

Section bytes.
Context {W : Type} {SC : Sched W}.
Implicit Types s : pst W.

Lemma put_byte_run c s :
  pipe_ok (pp s) -> (avail (pp s) < Z.to_nat PIPESIZE)%nat ->
  exists p, put_byte c s = Ok (tt, set_pp p s) /\ pipe_ok p /\ content p = content (pp s) ++ [c] /\
    p_addr p = p_addr (pp s) /\ readopen p = readopen (pp s) /\ writeopen p = writeopen (pp s).
Proof.
  intros Hp Hroom. pose proof (nwrite_avail _ Hp) as Hw. pose proof (avail_range _ Hp) as Ha.
  destruct s as [m [a d nr nw ro wo]]. simpl in *. destruct Hp as [Hd Hr Hn Hm]. simpl in *.
  assert (Z.to_nat (nw mod PIPESIZE) = slot (nr + Z.of_nat (avail (mkpipe a d nr nw ro wo)))) as Hs.
  { rewrite Hw at 1. apply u32_slot. }
  set (p := mkpipe a d nr nw ro wo) in *.
  set (p' := mkpipe a (<[slot (nr + Z.of_nat (avail p)) := c]> d) nr (u32 (nw + 1)) ro wo).
  assert (avail p' = S (avail p)) as Hav.
  { unfold avail at 1. simpl. rewrite Hw. unfold u32 in *.
    rewrite Zplus_mod_idemp_l, Zminus_mod_idemp_l.
    replace (nr + Z.of_nat (avail p) + 1 - nr) with (Z.of_nat (S (avail p))) by lia.
    rewrite Z.mod_small; unfold PIPESIZE in *; lia. }
  exists p'. split.
  { unfold put_byte. simpl. rewrite Hs.
    destruct (lookup_lt_is_Some_2 d (slot (nr + Z.of_nat (avail p)))) as [x ->]; [rewrite Hd; apply slot_lt|].
    done. }
  split; [split; simpl; [by rewrite length_insert|done| |lia]|].
  { unfold u32. apply Z.mod_pos_bound. lia. }
  split; [|done]. rewrite !content_alt, Hav, seq_S, fmap_app. simpl. f_equal.
  - apply list_fmap_ext. intros i k [-> Hi]%lookup_seq. simpl.
    apply list_lookup_total_insert_ne. intros He%slot_inj; lia.
  - f_equal. apply list_lookup_total_insert_eq. rewrite Hd. apply slot_lt.
Qed.

Lemma take_byte_run s :
  pipe_ok (pp s) -> avail (pp s) <> O ->
  exists c p, take_byte s = Ok (c, set_pp p s) /\ pipe_ok p /\ content (pp s) = c :: content p /\
    p_addr p = p_addr (pp s) /\ nwrite p = nwrite (pp s) /\ writeopen p = writeopen (pp s) /\
    readopen p = readopen (pp s).
Proof.
  intros Hp Hne. pose proof (nwrite_avail _ Hp) as Hw. pose proof (avail_range _ Hp) as Ha.
  destruct s as [m [a d nr nw ro wo]]. simpl in *. destruct Hp as [Hd Hr Hn Hm]. simpl in *.
  set (p := mkpipe a d nr nw ro wo) in *.
  set (p' := mkpipe a d (u32 (nr + 1)) nw ro wo).
  assert (avail p = S (avail p')) as Hav.
  { unfold avail at 2. simpl. rewrite Hw. unfold u32 in *.
    rewrite Zminus_mod_idemp_r, Zminus_mod_idemp_l.
    replace (nr + Z.of_nat (avail p) - (nr + 1)) with (Z.of_nat (avail p) - 1) by lia.
    rewrite Z.mod_small; unfold PIPESIZE in *; lia. }
  destruct (lookup_lt_is_Some_2 d (slot nr)) as [c Hc]; [rewrite Hd; apply slot_lt|].
  exists c, p'. split; [unfold take_byte; simpl; change (Z.to_nat (nr mod PIPESIZE)) with (slot nr); by rewrite Hc|].
  split; [split; simpl; [done| |done|lia]|].
  { unfold u32. apply Z.mod_pos_bound. lia. }
  split; [|done]. rewrite !content_alt, Hav. cbn [seq fmap list_fmap]. f_equal.
  - simpl. rewrite Z.add_0_r. by apply list_lookup_total_correct.
  - rewrite <-fmap_S_seq, <-list_fmap_compose. apply list_fmap_ext. intros i k _. simpl. f_equal.
    rewrite <-(u32_slot (u32 (nr + 1) + _)), <-(u32_slot (nr + _)). f_equal. f_equal.
    unfold u32. rewrite Zplus_mod_idemp_l. f_equal. lia.
Qed.
End bytes.

#[local] Abbreviation world s := (m_world (pp_mach s)).

Section segments.
Context {W : Type} {SC : Sched W} {PE : PageEnv W} {E : error -> Prop}.
Implicit Types s : pst W.

(** The pipe between segments. *)
Record pst_ok (h : option nat) (s : pst W) : Prop := {
  pk_mach : holds h (pp_mach s);
  pk_lock : (PIPELOCK < length (m_locks (pp_mach s)))%nat;
  pk_pipe : pipe_ok (pp s);
}.

(** The parts of the pipe that reading and writing leave alone. *)
Definition same_ends (p p' : pipe) : Prop :=
  p_addr p' = p_addr p /\ readopen p' = readopen p /\ writeopen p' = writeopen p.

(** The process table after at most one [wakeup]. *)
Definition woken (w w' : W) : Prop := w' = w \/ exists ch, w' = wake ch w.

Lemma wp_pacquire (Q : unit -> pst W -> Prop) s :
  pst_ok None s ->
  (forall m, pst_ok (Some PIPELOCK) (set_pp_mach m s) -> m_world m = m_world (pp_mach s) ->
    Q tt (set_pp_mach m s)) ->
  wp E (acquire_m PIPELOCK) Q s.
Proof.
  intros [Hm Hl Hp] HQ. apply wp_acquire_m; [done..|]. intros m Hh Hw Hlen.
  apply HQ; [|done]. split; simpl; [done|by rewrite Hlen|done].
Qed.

Lemma wp_prelease (Q : unit -> pst W -> Prop) s :
  pst_ok (Some PIPELOCK) s ->
  (forall m, pst_ok None (set_pp_mach m s) -> m_world m = m_world (pp_mach s) -> Q tt (set_pp_mach m s)) ->
  wp E (release_m PIPELOCK) Q s.
Proof.
  intros [Hm Hl Hp] HQ. apply wp_release_m; [done|]. intros m Hh Hw Hlen.
  apply HQ; [|done]. split; simpl; [done|by rewrite Hlen|done].
Qed.

(** [wakeup; release], the end of most segments. *)
Lemma wp_wake_release ch {A} (x : A) (Q : A -> pst W -> Prop) s :
  pst_ok (Some PIPELOCK) s ->
  (forall s', pst_ok None s' -> pp s' = pp s -> woken (world s) (world s') -> Q x s') ->
  wp E (wakeup_m ch ;; release_m PIPELOCK ;; mret x) Q s.
Proof.
  intros [Hm Hl Hp] HQ. apply wp_bind, wp_modify, wp_bind, wp_prelease.
  - split; simpl; [by apply holds_wake|done..].
  - intros m Hm' Hw. apply wp_ret, HQ; [done..|]. right. by exists ch.
Qed.

Lemma wp_pipewrite_loop k addr n i (Q : segment * Z -> pst W -> Prop) s :
  pst_ok (Some PIPELOCK) s -> 0 <= i -> n = i + Z.of_nat k -> n <= Z.of_nat (length addr) ->
  (forall g j s', pst_ok None s' -> woken (world s) (world s') -> i <= j <= n -> same_ends (pp s) (pp s') ->
    content (pp s') = content (pp s) ++ take (Z.to_nat (j - i)) (drop (Z.to_nat i) addr) ->
    match g with
    | Return r => r = n /\ j = n \/ r = -1 /\ j < n /\ avail (pp s') = Z.to_nat PIPESIZE /\
        (readopen (pp s) = false \/ killed (m_world (pp_mach s)) = true)
    | Sleeps => j < n /\ avail (pp s') = Z.to_nat PIPESIZE /\
        readopen (pp s) = true /\ killed (m_world (pp_mach s)) = false
    end -> Q (g, j) s') ->
  wp E (pipewrite_loop k addr n i) Q s.
Proof.
  revert i s. induction k as [|k IH]; intros i s Hs Hi Hn Hlen HQ; cbn [pipewrite_loop].
  - apply wp_bind, wp_gets. apply wp_wake_release; [done|]. intros s' Hs' Hp Hw.
    apply HQ; [done|done|lia|by rewrite Hp| |left; lia].
    replace (Z.to_nat (i - i)) with O by lia. by rewrite take_0, app_nil_r, Hp.
  - apply wp_bind, wp_gets. pose proof (pk_pipe _ _ Hs) as Hp. rewrite full_test by done.
    assert (content (pp s) = content (pp s) ++ take (Z.to_nat (i - i)) (drop (Z.to_nat i) addr)) as Hno.
    { replace (Z.to_nat (i - i)) with O by lia. by rewrite take_0, app_nil_r. }
    case_bool_decide as Hfull.
    + apply wp_bind, wp_gets. simpl. destruct (negb _ || _) eqn:Hd.
      * apply wp_bind, wp_prelease; [done|]. intros m Hm' Hw. apply wp_ret, HQ; [done|by left|lia|done|done|].
        right. split_and!; [done|lia|done|]. apply orb_true_iff in Hd as [Hd%negb_true_iff|]; auto.
      * apply wp_wake_release; [done|]. intros s' Hs' Hp' Hw. apply HQ; [done|done|lia|by rewrite Hp'|by rewrite Hp'|].
        apply orb_false_iff in Hd as [Hd%negb_false_iff Hk]. rewrite Hp'. split_and!; [lia|done..].
    + destruct (lookup_lt_is_Some_2 addr (Z.to_nat i)) as [c Hc]; [lia|].
      apply wp_bind. eapply wp_lift; [by rewrite Hc|]. apply wp_bind.
      destruct (put_byte_run c s) as (p & Hput & Hpo & Hcont & He); [done|pose proof (po_avail _ Hp); lia|].
      eapply wp_Ok; [done|]. eapply IH; [|lia|lia|done|].
      * destruct Hs as [Hm Hl _]. by split.
      * simpl. intros g j s' Hs' Hwk Hj Hse Hc' Hg. apply HQ; [done|done|lia| | |].
        -- unfold same_ends in *. simpl in *. intuition congruence.
        -- rewrite Hc', Hcont, <-app_assoc. f_equal. simpl.
           rewrite (drop_S addr c (Z.to_nat i)) by done.
           replace (Z.to_nat (j - i)) with (S (Z.to_nat (j - (i + 1)))) by lia.
           replace (Z.to_nat (i + 1)) with (S (Z.to_nat i)) by lia. done.
        -- destruct He as (_ & Hro & _). rewrite Hro in Hg. destruct g; [intuition lia|intuition lia].
Qed.

Lemma wp_piperead_loop k i (Q : list Z * Z -> pst W -> Prop) s :
  pst_ok (Some PIPELOCK) s ->
  (forall s', pst_ok (Some PIPELOCK) s' -> same_ends (pp s) (pp s') -> pp_mach s' = pp_mach s ->
    content (pp s') = drop k (content (pp s)) ->
    Q (take k (content (pp s)), i + Z.of_nat (min k (avail (pp s)))) s') ->
  wp E (piperead_loop k i) Q s.
Proof.
  revert i s Q. induction k as [|k IH]; intros i s Q Hs HQ; cbn [piperead_loop].
  - apply wp_ret. rewrite Z.add_0_r in HQ. by apply HQ.
  - apply wp_bind, wp_gets. pose proof (pk_pipe _ _ Hs) as Hp. rewrite empty_test by done.
    case_bool_decide as He.
    + apply wp_ret. pose proof (length_content (pp s)) as Hl. rewrite He in Hl.
      apply length_zero_iff_nil in Hl. rewrite Hl in HQ. rewrite He, Nat.min_0_r, Z.add_0_r in HQ.
      rewrite take_nil, drop_nil in HQ. by apply HQ.
    + destruct (take_byte_run s) as (c & p & Ht & Hpo & Hc & Ha & Hnw & Hwo & Hro); [done..|].
      apply wp_bind. eapply wp_Ok; [done|]. apply wp_bind. apply IH.
      * destruct Hs as [Hm Hl _]. by split.
      * simpl. intros s' Hs' Hse Hm Hc'. apply wp_ret. simpl.
        pose proof (length_content (pp s)) as Hl. rewrite Hc in Hl. simpl in Hl.
        rewrite length_content in Hl. rewrite Hc in HQ. simpl in HQ. rewrite <-Hl in HQ.
        replace (i + 1 + Z.of_nat (min k (avail p))) with (i + Z.of_nat (min (S k) (S (avail p)))) by lia.
        apply HQ; [done| |done|done]. unfold same_ends in *. simpl in *. intuition congruence.
Qed.

(** A segment of [pipewrite]: the bytes from [i] to [j] are appended. *)
Lemma wp_pipewrite addr n i (Q : segment * Z -> pst W -> Prop) s :
  pst_ok None s -> 0 <= i <= n -> n <= Z.of_nat (length addr) ->
  (forall g j s', pst_ok None s' -> woken (world s) (world s') -> i <= j <= n -> same_ends (pp s) (pp s') ->
    content (pp s') = content (pp s) ++ take (Z.to_nat (j - i)) (drop (Z.to_nat i) addr) ->
    match g with
    | Return r => r = n /\ j = n \/ r = -1 /\ j < n /\ avail (pp s') = Z.to_nat PIPESIZE /\
        (readopen (pp s) = false \/ killed (m_world (pp_mach s)) = true)
    | Sleeps => j < n /\ avail (pp s') = Z.to_nat PIPESIZE /\
        readopen (pp s) = true /\ killed (m_world (pp_mach s)) = false
    end -> Q (g, j) s') ->
  wp E (pipewrite addr n i) Q s.
Proof.
  intros Hs Hi Hn HQ. unfold pipewrite. apply wp_bind, wp_pacquire; [done|]. intros m Hm Hw.
  apply wp_pipewrite_loop; [done|lia|lia|done|]. simpl. rewrite Hw. apply HQ.
Qed.

(** A segment of [piperead]: the oldest bytes, or sleep on an empty pipe. *)
Lemma wp_piperead n (Q : segment * list Z -> pst W -> Prop) s :
  pst_ok None s ->
  (forall s', pst_ok None s' -> woken (world s) (world s') -> same_ends (pp s) (pp s') ->
    content (pp s') = drop (Z.to_nat n) (content (pp s)) ->
    (if decide (content (pp s) = [] /\ writeopen (pp s) = true) then
       Q (if killed (m_world (pp_mach s)) then Return (-1) else Sleeps, []) s'
     else Q (Return (Z.of_nat (length (take (Z.to_nat n) (content (pp s))))),
             take (Z.to_nat n) (content (pp s))) s')) ->
  wp E (piperead n) Q s.
Proof.
  intros Hs HQ. unfold piperead. apply wp_bind, wp_pacquire; [done|]. intros m Hm Hw.
  apply wp_bind, wp_gets. cbn [pp set_pp_mach]. pose proof (pk_pipe _ _ Hs) as Hp.
  rewrite empty_test by done. pose proof (length_content (pp s)) as Hl.
  case_bool_decide as He; simpl.
  - rewrite He in Hl. apply length_zero_iff_nil in Hl. destruct (writeopen (pp s)) eqn:Hwo.
    + apply wp_bind, wp_gets, wp_bind, wp_prelease; [done|]. simpl. intros m' Hm' Hw'. apply wp_ret.
      simpl in Hw'. rewrite Hw. specialize (HQ _ Hm'). simpl in HQ.
      specialize (HQ (or_introl (eq_trans Hw' Hw))).
      rewrite decide_True in HQ by done. apply HQ; [done|]. by rewrite Hl, drop_nil.
    + apply wp_bind, wp_piperead_loop; [done|]. simpl. intros s' Hs' Hse Hms Hc.
      apply wp_wake_release; [done|]. intros s2 Hs2 Hp2 Hwk. simpl.
      rewrite Hms in Hwk. simpl in Hwk. rewrite Hw in Hwk.
      specialize (HQ _ Hs2 Hwk). rewrite decide_False in HQ by naive_solver.
      rewrite He, Nat.min_0_r, Hl, take_nil. rewrite Hl, take_nil in HQ.
      apply HQ; [by rewrite Hp2|]. by rewrite Hp2, Hc, Hl.
  - apply wp_bind, wp_piperead_loop; [done|]. simpl. intros s' Hs' Hse Hms Hc.
    apply wp_wake_release; [done|]. intros s2 Hs2 Hp2 Hwk. simpl.
    rewrite Hms in Hwk. simpl in Hwk. rewrite Hw in Hwk. specialize (HQ _ Hs2 Hwk).
    rewrite decide_False in HQ by (intros [Hn _]; rewrite Hn in Hl; by apply He).
    rewrite length_take, Hl in HQ. apply HQ; by rewrite Hp2.
Qed.

(** What any number of readers and writers do to a pipe: segments of their
    calls in any order, one end closed, other kernel activity in between.
    [ws] are the bytes written so far and [rs] the bytes read. *)
Inductive ptrace (s0 : pst W) : list Z -> list Z -> pst W -> Prop :=
  | pt_start : ptrace s0 [] [] s0
  | pt_write ws rs s addr n i g j s' :
      ptrace s0 ws rs s -> 0 <= i <= n -> n <= Z.of_nat (length addr) ->
      pipewrite addr n i s = Ok ((g, j), s') ->
      ptrace s0 (ws ++ take (Z.to_nat (j - i)) (drop (Z.to_nat i) addr)) rs s'
  | pt_read ws rs s n g bs s' :
      ptrace s0 ws rs s -> piperead n s = Ok ((g, bs), s') -> ptrace s0 ws (rs ++ bs) s'
  | pt_close ws rs s w s' :
      ptrace s0 ws rs s -> pipeclose w s = Ok (tt, s') ->
      readopen (pp s') || writeopen (pp s') = true -> ptrace s0 ws rs s'
  | pt_other ws rs s w :
      ptrace s0 ws rs s ->
      ptrace s0 ws rs (set_pp_mach (mkmach (m_locks (pp_mach s)) (m_cpu (pp_mach s)) w) s).

Lemma wp_pipeclose w (Q : unit -> pst W -> Prop) s :
  pst_ok None s ->
  let p := if w : bool then set_writeopen false (pp s) else set_readopen false (pp s) in
  (forall s', pst_ok None s' -> woken (world s) (world s') -> pp s' = p ->
    (if readopen p || writeopen p then Q tt s'
     else match env_kfree (p_addr p) (m_world (pp_mach s')) with
          | Ok v => Q tt (set_pp_mach (mkmach (m_locks (pp_mach s')) (m_cpu (pp_mach s')) v) s')
          | Err e => E e
          end)) ->
  wp E (pipeclose w) Q s.
Proof.
  intros Hs p HQ. unfold pipeclose. apply wp_bind, wp_pacquire; [done|]. intros m [Hm Hl Hp] Hw.
  apply wp_bind, wp_gets, wp_bind.
  eapply wp_mono with (P := fun _ s' => pst_ok (Some PIPELOCK) s' /\ pp s' = p /\ woken (world s) (world s')).
  { destruct w; apply wp_bind, wp_modify, wp_modify; (split; [|split; [done|right; eexists; simpl; by rewrite Hw]]);
      destruct Hp; split; simpl; try (by apply holds_wake); try done; by split. }
  intros _ s' (Hs' & Hpp & Hwk). apply wp_bind, wp_gets. rewrite Hpp.
  rewrite <-negb_orb. destruct (readopen p || writeopen p); simpl.
  - apply wp_prelease; [done|]. intros m' Hm' Hw'. apply HQ; [done|simpl; by rewrite Hw'|done].
  - apply wp_bind, wp_prelease; [done|]. intros m' Hm' Hw'. unfold wp, kfree_page.
    specialize (HQ _ Hm'). simpl in HQ |- *. rewrite Hw' in HQ |- *. specialize (HQ Hwk Hpp).
    by destruct (env_kfree _ _).
Qed.
End segments.

Lemma ptrace_ok {W} {SC : Sched W} {PE : PageEnv W} (s0 : pst W) ws rs s :
  pst_ok None s0 -> content (pp s0) = [] -> ptrace s0 ws rs s ->
  pst_ok None s /\ ws = rs ++ content (pp s).
Proof.
  intros H0 Hc0. induction 1 as [|ws rs s addr n i g j s' _ [Hs Hw] Hi Hn Hrun|ws rs s n g bs s' _ [Hs Hw] Hrun
    |ws rs s w s' _ [Hs Hw] Hrun Ho|ws rs s w _ [Hs Hw]].
  - by rewrite Hc0.
  - apply (wp_run _ (fun r s1 => pst_ok None s1 /\
      ws ++ take (Z.to_nat (r.2 - i)) (drop (Z.to_nat i) addr) = rs ++ content (pp s1)) _ _ _ Hrun).
    apply wp_pipewrite; [done..|]. intros g' j' s1 Hs1 _ _ _ Hc _. split; [done|].
    by rewrite Hc, Hw, app_assoc.
  - apply (wp_run _ (fun r s1 => pst_ok None s1 /\ ws = (rs ++ r.2) ++ content (pp s1)) _ _ _ Hrun).
    apply wp_piperead; [done|]. intros s1 Hs1 _ _ Hc. rewrite Hc. case_decide as Hd; simpl; (split; [done|]).
    + destruct Hd as [Hd _]. rewrite Hd in Hw |- *. by rewrite drop_nil, !app_nil_r in *.
    + by rewrite <-app_assoc, take_drop.
  - revert Ho. apply (wp_run _ (fun _ s1 => readopen (pp s1) || writeopen (pp s1) = true ->
      pst_ok None s1 /\ ws = rs ++ content (pp s1)) _ _ _ Hrun).
    apply wp_pipeclose; [done|]. intros s1 Hs1 _ Hp1. rewrite Hp1.
    destruct (_ || _) eqn:Ho; [split; [done|]; by destruct w|].
    destruct (env_kfree _ _); [|done]. simpl. rewrite Hp1, Ho. done.
  - destruct Hs as [Hm Hl Hp]. split; [|done]. split; simpl; [|done..].
    destruct Hm. by split.
Qed.

(** ** A transfer

    A writer that sleeps whenever the pipe is full, and a reader that empties
    the pipe after each of the writer's segments: the bytes the reader gets. *)
Fixpoint transfer {W} {SC : Sched W} (fuel : nat) (addr : list Z) (n i : Z) : M (pst W) (list Z) :=
  match fuel with
  | O => fail NoFuel
  | S fuel =>
      w ← pipewrite addr n i;
      r ← piperead PIPESIZE;
      match w.1 with
      | Return _ => mret r.2
      | Sleeps => rest ← transfer fuel addr n w.2; mret (r.2 ++ rest)
      end
  end.

Lemma take_all_content p : pipe_ok p -> take (Z.to_nat PIPESIZE) (content p) = content p /\
  drop (Z.to_nat PIPESIZE) (content p) = [].
Proof.
  intros Hp. pose proof (length_content p). destruct Hp. split; [apply take_ge|apply drop_ge]; lia.
Qed.

Lemma wp_pipe_transfer {W} {SC : Sched W} {E} fuel addr n i (Q : list Z -> pst W -> Prop) s :
  (forall ch w, killed (wake ch w) = killed w) ->
  pst_ok None s -> content (pp s) = [] -> readopen (pp s) = true -> killed (world s) = false ->
  0 <= i <= n -> n <= Z.of_nat (length addr) -> n - i < Z.of_nat fuel * PIPESIZE ->
  (forall s', pst_ok None s' -> content (pp s') = [] ->
    Q (take (Z.to_nat (n - i)) (drop (Z.to_nat i) addr)) s') ->
  wp E (transfer fuel addr n i) Q s.
Proof.
  intros Hk. revert i s Q. induction fuel as [|fuel IH]; intros i s Q Hs Hc Hro Hka Hi Hn Hf HQ; [lia|].
  assert (forall w w', woken w w' -> killed w' = killed w) as Hkw by (intros w w' [->|[ch ->]]; auto).
  cbn [transfer]. apply wp_bind, wp_pipewrite; [done..|]. intros g j s1 Hs1 Hw1 Hj Hse Hc1 Hg.
  rewrite Hc in Hc1. simpl in Hc1. apply wp_bind, wp_piperead; [done|].
  intros s2 Hs2 Hw2 Hse2 Hc2. destruct (take_all_content _ (pk_pipe _ _ Hs1)) as [Hta Hdr].
  rewrite Hdr in Hc2. rewrite Hta.
  assert (forall x, (if decide (content (pp s1) = [] /\ writeopen (pp s1) = true)
    then (x, []) else (Return (Z.of_nat (length (content (pp s1)))), content (pp s1))).2 = content (pp s1))
    as Hbs by (intros x; case_decide as Hd; [symmetry; apply Hd|done]).
  set (P := fun (r : segment * list Z) (s' : pst W) => r.2 = content (pp s1) ->
    wp E (match (g, j).1 with
          | Return _ => mret r.2
          | Sleeps => rest ← transfer fuel addr n (g, j).2; mret (r.2 ++ rest)
          end) Q s').
  assert (P (Sleeps, content (pp s1)) s2) as HP.
  { intros _. simpl. rewrite Hc1. destruct g as [r|].
    - apply wp_ret. destruct Hg as [[-> ->]|(_ & _ & _ & [?|?])]; [by apply HQ|congruence..].
    - destruct Hg as (Hjn & Hav & _). apply wp_bind, IH; try done.
      + by destruct Hse as (_ & Hr1 & _), Hse2 as (_ & Hr2 & _); congruence.
      + by rewrite (Hkw _ _ Hw2), (Hkw _ _ Hw1).
      + lia.
      + pose proof (length_content (pp s1)) as Hl. rewrite Hc1, length_take, Hav in Hl. lia.
      + intros s' Hs' Hc'. apply wp_ret.
        replace (take (Z.to_nat (j - i)) (drop (Z.to_nat i) addr) ++ take (Z.to_nat (n - j)) (drop (Z.to_nat j) addr))
          with (take (Z.to_nat (n - i)) (drop (Z.to_nat i) addr)); [by apply HQ|].
        replace (Z.to_nat (n - i)) with (Z.to_nat (j - i) + Z.to_nat (n - j))%nat by lia.
        rewrite <-take_take_drop. f_equal. rewrite drop_drop. do 2 f_equal. lia. }
  unfold P in HP. simpl in HP. specialize (HP eq_refl).
  case_decide as Hd; simpl.
  - destruct Hd as [Hd _]. rewrite Hd in HP. exact HP.
  - exact HP.
Qed.

(** ** Properties *)

(** C24. A pipe is a FIFO: whatever segments of reads and writes interleave,
    the bytes read so far followed by the bytes in the buffer are the bytes
    written so far, and the buffer never holds more than [PIPESIZE]; the
    counters may wrap. *)
Theorem pipe_fifo {W} {SC : Sched W} {PE : PageEnv W} (s0 : pst W) ws rs s :
  pst_ok None s0 -> content (pp s0) = [] -> ptrace s0 ws rs s ->
  ws = rs ++ content (pp s) /\ (length (content (pp s)) <= Z.to_nat PIPESIZE)%nat.
Proof.
  intros H0 Hc Ht. destruct (ptrace_ok s0 ws rs s H0 Hc Ht) as [[_ _ Hp] ->].
  split; [done|]. rewrite length_content. apply Hp.
Qed.

(** A segment of [pipewrite] returns: it appends the next bytes in order
    until it has written [n] and returns [n], or the pipe is full and it
    returns -1 if the read end is closed or the process killed, and sleeps
    otherwise. *)
Theorem pipewrite_correct {W} {SC : Sched W} addr n i (s : pst W) :
  pst_ok None s -> 0 <= i <= n -> n <= Z.of_nat (length addr) ->
  exists g j s', pipewrite addr n i s = Ok ((g, j), s') /\ pst_ok None s' /\ i <= j <= n /\
    content (pp s') = content (pp s) ++ take (Z.to_nat (j - i)) (drop (Z.to_nat i) addr) /\
    match g with
    | Return r => r = n /\ j = n \/ r = -1 /\ j < n /\ avail (pp s') = Z.to_nat PIPESIZE /\
        (readopen (pp s) = false \/ killed (world s) = true)
    | Sleeps => j < n /\ avail (pp s') = Z.to_nat PIPESIZE /\ readopen (pp s) = true /\ killed (world s) = false
    end.
Proof.
  intros Hs Hi Hn. destruct (wp_no_error (pipewrite addr n i) (fun r s' =>
    pst_ok None s' /\ i <= r.2 <= n /\
    content (pp s') = content (pp s) ++ take (Z.to_nat (r.2 - i)) (drop (Z.to_nat i) addr) /\
    match r.1 with
    | Return x => x = n /\ r.2 = n \/ x = -1 /\ r.2 < n /\ avail (pp s') = Z.to_nat PIPESIZE /\
        (readopen (pp s) = false \/ killed (world s) = true)
    | Sleeps => r.2 < n /\ avail (pp s') = Z.to_nat PIPESIZE /\ readopen (pp s) = true /\ killed (world s) = false
    end) s) as ([g j] & s' & Hr & H); [|eauto 10].
  apply wp_pipewrite; [done..|]. auto.
Qed.

(** A segment of [piperead] returns: on an empty pipe whose write end is
    open it sleeps, or returns -1 if the process is killed; otherwise it takes
    the [n] oldest bytes, or all there are, and returns their number, which is
    0 at end of file. *)
Theorem piperead_correct {W} {SC : Sched W} n (s : pst W) :
  pst_ok None s ->
  exists g s', piperead n s = Ok (g, s') /\ pst_ok None s' /\
    content (pp s') = drop (Z.to_nat n) (content (pp s)) /\
    g = (if bool_decide (content (pp s) = []) && writeopen (pp s)
         then (if killed (world s) then Return (-1) else Sleeps, [])
         else let bs := take (Z.to_nat n) (content (pp s)) in (Return (Z.of_nat (length bs)), bs)).
Proof.
  intros Hs. destruct (wp_no_error (piperead n) (fun g s' => pst_ok None s' /\
    content (pp s') = drop (Z.to_nat n) (content (pp s)) /\
    g = (if bool_decide (content (pp s) = []) && writeopen (pp s)
         then (if killed (world s) then Return (-1) else Sleeps, [])
         else let bs := take (Z.to_nat n) (content (pp s)) in (Return (Z.of_nat (length bs)), bs))) s)
    as (g & s' & Hr & H); [|eauto].
  apply wp_piperead; [done|]. intros s' Hs' _ _ Hc.
  case_decide as Hd; (split_and!; [done..|]).
  - destruct Hd as [-> ->]. done.
  - case_bool_decide; [|done]. destruct (writeopen (pp s)); naive_solver.
Qed.

(** A writer and a reader that run in turn get every byte across, in order,
    with one segment of each per [PIPESIZE] bytes: the transfer ends. *)
Theorem pipe_transfer {W} {SC : Sched W} fuel addr n (s : pst W) :
  (forall ch w, killed (wake ch w) = killed w) ->
  pst_ok None s -> content (pp s) = [] -> readopen (pp s) = true -> killed (world s) = false ->
  0 <= n <= Z.of_nat (length addr) -> n < Z.of_nat fuel * PIPESIZE ->
  exists s', transfer fuel addr n 0 s = Ok (take (Z.to_nat n) addr, s').
Proof.
  intros Hk Hs Hc Hro Hka Hn Hf.
  destruct (wp_no_error (transfer fuel addr n 0) (fun r _ => r = take (Z.to_nat n) addr) s)
    as (r & s' & Hr & ->); [|eauto].
  apply wp_pipe_transfer; try done; [lia..|]. intros s' _ _. by rewrite Z.sub_0_r.
Qed.

(** Closing one end of a pipe only marks it closed; closing the second
    frees the pipe's page, once. *)
Theorem pipeclose_frees {W} {SC : Sched W} {PE : PageEnv W} (w : bool) (s : pst W) :
  pst_ok None s ->
  (forall a x, exists y, env_kfree a x = Ok y) ->
  let other := if w then readopen (pp s) else writeopen (pp s) in
  exists s' x, pipeclose w s = Ok (tt, s') /\ pst_ok None s' /\ woken (world s) x /\
    readopen (pp s') = (if w then other else false) /\ writeopen (pp s') = (if w then false else other) /\
    if other then world s' = x else env_kfree (p_addr (pp s)) x = Ok (world s').
Proof.
  intros Hs Hk other.
  destruct (wp_no_error (pipeclose w) (fun _ s' => exists x, pst_ok None s' /\ woken (world s) x /\
    readopen (pp s') = (if w then other else false) /\ writeopen (pp s') = (if w then false else other) /\
    if other then world s' = x else env_kfree (p_addr (pp s)) x = Ok (world s')) s)
    as ([] & s' & Hr & x & H); [|by exists s', x].
  apply wp_pipeclose; [done|]. intros s' Hs' Hwk Hp. unfold other. destruct w; simpl in *.
  - destruct (readopen (pp s)) eqn:Hro; simpl.
    + exists (world s'). rewrite Hp. by split_and!.
    + destruct (Hk (p_addr (pp s)) (world s')) as [y Hy]. rewrite Hy.
      exists (world s'). simpl. rewrite Hp. destruct Hs' as [Hm Hl Ho]. split_and!; try done.
      split; [|done..]. destruct Hm. by split.
  - destruct (writeopen (pp s)) eqn:Hwo; simpl.
    + exists (world s'). rewrite Hp. by split_and!.
    + destruct (Hk (p_addr (pp s)) (world s')) as [y Hy]. rewrite Hy.
      exists (world s'). simpl. rewrite Hp. destruct Hs' as [Hm Hl Ho]. split_and!; try done.
      split; [|done..]. destruct Hm. by split.
Qed.

(** ** Instances

    A pipe whose counters are about to wrap; the world records the pages
    freed. *)

Definition demo_sched : Sched (list Z) := {| wake := fun _ w => w; killed := fun _ => false |}.
Definition demo_pages : PageEnv (list Z) := {| env_kfree := fun a w => Ok (a :: w) |}.

Definition demo_pst : pst (list Z) :=
  mkpst (boot_mach 1 []) (mkpipe 4096 (replicate 512 0) 4294967293 4294967293 true true).

Lemma demo_pst_ok : pst_ok None demo_pst.
Proof.
  split; [apply boot_quiet|simpl; unfold PIPELOCK; lia|].
  split; [reflexivity|simpl; lia|simpl; lia|vm_compute; lia].
Qed.

#[local] Existing Instance demo_sched.
#[local] Existing Instance demo_pages.

Definition demo_mid : pst (list Z) :=
  match pipewrite [10; 20; 30; 40; 50] 5 0 demo_pst with Ok (_, s) => s | Err _ => demo_pst end.
Definition demo_after : pst (list Z) :=
  match piperead 2 demo_mid with Ok (_, s) => s | Err _ => demo_pst end.

Lemma pipe_fifo_witness :
  ptrace demo_pst [10; 20; 30; 40; 50] [10; 20] demo_after /\
  [10; 20; 30; 40; 50] = [10; 20] ++ content (pp demo_after) /\
  (length (content (pp demo_after)) <= Z.to_nat PIPESIZE)%nat.
Proof.
  assert (ptrace demo_pst [10; 20; 30; 40; 50] [10; 20] demo_after) as Ht.
  { apply (pt_read _ _ [] demo_mid 2 (Return 2) [10; 20]); [|vm_compute; reflexivity].
    apply (pt_write _ [] [] demo_pst [10; 20; 30; 40; 50] 5 0 (Return 5) 5);
      [apply pt_start|lia|simpl; lia|vm_compute; reflexivity]. }
  split; [exact Ht|].
  apply (pipe_fifo demo_pst [10; 20; 30; 40; 50] [10; 20]); [apply demo_pst_ok|by vm_compute|exact Ht].
Defined.

Lemma pipewrite_correct_witness :
  exists g j s', pipewrite (replicate 600 7) 600 0 demo_pst = Ok ((g, j), s') /\ pst_ok None s' /\ 0 <= j <= 600 /\
    content (pp s') = content (pp demo_pst) ++ take (Z.to_nat (j - 0)) (drop (Z.to_nat 0) (replicate 600 7)) /\
    match g with
    | Return r => r = 600 /\ j = 600 \/ r = -1 /\ j < 600 /\ avail (pp s') = Z.to_nat PIPESIZE /\
        (readopen (pp demo_pst) = false \/ killed (world demo_pst) = true)
    | Sleeps => j < 600 /\ avail (pp s') = Z.to_nat PIPESIZE /\
        readopen (pp demo_pst) = true /\ killed (world demo_pst) = false
    end.
Proof.
  apply (pipewrite_correct (replicate 600 7) 600 0 demo_pst); [apply demo_pst_ok|lia|].
  rewrite length_replicate. lia.
Defined.

Lemma piperead_correct_witness :
  exists g s', piperead 3 demo_pst = Ok (g, s') /\ pst_ok None s' /\ g = (Sleeps, []).
Proof.
  destruct (piperead_correct 3 demo_pst demo_pst_ok) as (g & s' & Hr & Hs & _ & Hg).
  exists g, s'. split; [exact Hr|]. split; [exact Hs|]. rewrite Hg. reflexivity.
Defined.

Lemma pipe_transfer_witness :
  exists s', transfer 3 (replicate 1030 7) 1030 0 demo_pst = Ok (take (Z.to_nat 1030) (replicate 1030 7), s').
Proof.
  apply (pipe_transfer 3 (replicate 1030 7) 1030 demo_pst); try reflexivity.
  - apply demo_pst_ok.
  - rewrite length_replicate. lia.
Defined.

Lemma pipeclose_frees_witness :
  exists s' x, pipeclose true demo_pst = Ok (tt, s') /\ pst_ok None s' /\
    readopen (pp s') = true /\ writeopen (pp s') = false /\ world s' = x.
Proof.
  destruct (pipeclose_frees true demo_pst demo_pst_ok) as (s' & x & Hr & Hs & _ & H).
  - intros a w. by eexists.
  - exists s', x. split; [exact Hr|]. split; [exact Hs|exact H].
Defined.
