(* ===== verification/Console.v ===== *)
(** * The console (console.c)

    Input: the keys that the interrupt handler takes from the keyboard or the
    serial line go into a ring buffer, the line being edited after the lines that
    are ready.  [consoleread] holds [cons.lock] except while it sleeps, so a call
    is a sequence of segments as in [Pipe].  Output: the CGA screen is the words of
    its memory and the cursor the controller keeps; what the serial line is sent
    is a list.  The inode locks that the device routines release and take back
    belong to the file system, and are calls on the rest of the machine. *)

From stdpp Require Import base numbers list strings.
From S2P Require Import Prelude Spinlock Machine Pipe.

Open Scope Z_scope.

Definition INPUT_BUF : Z := 128.
Definition BACKSPACE : Z := 256.

(** [C(x)] for the letter [x]. *)
Definition ctl (x : Z) : Z := x - 64.

(** [struct input]. *)
Record input := mkinput {
  in_buf : list Z;
  in_r : Z;
  in_w : Z;
  in_e : Z;
}.
Definition set_in_buf (v : list Z) (i : input) : input := mkinput v (in_r i) (in_w i) (in_e i).
Definition set_in_r (v : Z) (i : input) : input := mkinput (in_buf i) v (in_w i) (in_e i).
Definition set_in_w (v : Z) (i : input) : input := mkinput (in_buf i) (in_r i) v (in_e i).
Definition set_in_e (v : Z) (i : input) : input := mkinput (in_buf i) (in_r i) (in_w i) v.

(** The screen: 25 rows of 80 words, and the cursor. *)
Record screen := mkscreen {
  crt : list Z;
  cursor : Z;
}.

(** [iunlock(ip)] and [ilock(ip)] for the inode of the device. *)
Class InodeEnv (W : Type) := {
  env_iunlock : W -> outcome W;
  env_ilock : W -> outcome W;
}.

Definition CONSLOCK : nat := 0.

Section Console.
Context {W : Type} {SC : Sched W} {IE : InodeEnv W}.

Record cst := mkcst {
  co_mach : mach W;
  co_in : input;
  co_screen : screen;
  co_serial : list Z;
  co_panicked : bool;
}.

Definition set_co_mach (v : mach W) (s : cst) : cst := mkcst v (co_in s) (co_screen s) (co_serial s) (co_panicked s).
Definition set_co_in (v : input) (s : cst) : cst := mkcst (co_mach s) v (co_screen s) (co_serial s) (co_panicked s).
Definition set_co_screen (v : screen) (s : cst) : cst := mkcst (co_mach s) (co_in s) v (co_serial s) (co_panicked s).
Definition set_co_serial (v : list Z) (s : cst) : cst := mkcst (co_mach s) (co_in s) (co_screen s) v (co_panicked s).

#[export] Instance cst_mach : HasMach cst W := {| get_mach := co_mach; put_mach := set_co_mach |}.

#[export] Instance cst_mach_laws : HasMachLaws cst W.
Proof. split; [done|by intros []|done]. Qed.

Definition modinput (f : input -> input) : M cst unit := modify (fun s => set_co_in (f (co_in s)) s).

(** ** Output *)

(** [crt[pos] = v]. *)
Definition put_crt (pos v : Z) (m : list Z) : outcome (list Z) :=
  if (0 <=? pos) && (pos <? Z.of_nat (length m)) then Ok (<[Z.to_nat pos := v]> m) else Err Fault.

(** [memmove(crt, crt+80, sizeof(crt[0])*23*80)], and the row under it cleared
    from [pos] on. *)
Definition scroll (pos : Z) (m : list Z) : list Z :=
  let m := take (23 * 80) (drop 80 m) ++ drop (23 * 80) m in
  take (Z.to_nat pos) m ++ replicate (Z.to_nat (24 * 80 - pos)) 0 ++ drop (24 * 80) m.

Definition cga (c : Z) (s : screen) : outcome screen :=
  let pos := cursor s in
  '(pos, m) ← (if c =? 10 then Ok (pos + 80 - pos mod 80, crt s)
               else if c =? BACKSPACE then Ok (if 0 <? pos then pos - 1 else pos, crt s)
               else m ← put_crt pos (Z.lor (Z.land c 255) 1792) (crt s); Ok (pos + 1, m));
  if (pos <? 0) || (25 * 80 <? pos) then Err (Panic "pos under/overflow") else
  let '(pos, m) := if 24 <=? pos / 80 then (pos - 80, scroll (pos - 80) m) else (pos, m) in
  let reg := Z.lor (Z.shiftl (u8 (Z.shiftr pos 8)) 8) (u8 pos) in
  m ← put_crt pos (Z.lor 32 1792) m;
  Ok (mkscreen m reg).

Definition cgaputc (c : Z) : M cst unit :=
  s ← gets co_screen;
  s ← lift (cga c s);
  modify (set_co_screen s).

(** [uartputc], when there is a serial line. *)
Definition uartputc (c : Z) : M cst unit := modify (fun s => set_co_serial (co_serial s ++ [u8 c]) s).

(** A CPU that prints after a panic spins with interrupts off. *)
Definition consputc (c : Z) : M cst unit :=
  p ← gets co_panicked;
  if (p : bool) then fail Spin else
  (if c =? BACKSPACE then uartputc 8 ;; uartputc 32 ;; uartputc 8 else uartputc c) ;;
  cgaputc c.

(** ** Input *)

(** [input.buf[i % INPUT_BUF]]. *)
Definition get_slot (i : Z) : M cst Z := fun s =>
  match in_buf (co_in s) !! Z.to_nat (i mod INPUT_BUF) with
  | Some c => Ok (c, s)
  | None => Err Fault
  end.

(** [while(input.e != input.w && input.buf[(input.e-1) % INPUT_BUF] != '\n')]. *)
Fixpoint kill_line (fuel : nat) : M cst unit :=
  i ← gets co_in;
  if in_e i =? in_w i then mret tt else
  c ← get_slot (u32 (in_e i - 1));
  if c =? 10 then mret tt else
  match fuel with
  | O => fail NoFuel
  | S fuel =>
      modinput (set_in_e (u32 (in_e i - 1))) ;;
      consputc BACKSPACE ;;
      kill_line fuel
  end.

(** [input.buf[input.e++ % INPUT_BUF] = c]. *)
Definition put_input (c : Z) (i : input) : input :=
  set_in_e (u32 (in_e i + 1)) (set_in_buf (<[Z.to_nat (in_e i mod INPUT_BUF) := u8 c]> (in_buf i)) i).

(** What is printed after the lock is released. *)
Record dumps := mkdumps {
  doprocdump : bool;
  printlist : Z;
}.

(** The body of the loop of [consoleintr] for the key [c]. *)
Definition handle_key (c : Z) (d : dumps) : M cst dumps :=
  if c =? ctl 80 then mret (mkdumps true (printlist d))
  else if c =? ctl 70 then mret (mkdumps (doprocdump d) 1)
  else if c =? ctl 83 then mret (mkdumps (doprocdump d) 2)
  else if c =? ctl 82 then mret (mkdumps (doprocdump d) 3)
  else if c =? ctl 90 then mret (mkdumps (doprocdump d) 4)
  else if c =? ctl 85 then kill_line (Z.to_nat INPUT_BUF) ;; mret d
  else if (c =? ctl 72) || (c =? 127) then
    i ← gets co_in;
    (if negb (in_e i =? in_w i) then
       modinput (set_in_e (u32 (in_e i - 1))) ;; consputc BACKSPACE
     else mret tt) ;;
    mret d
  else
    i ← gets co_in;
    (if negb (c =? 0) && (u32 (in_e i - in_r i) <? INPUT_BUF) then
       let c := if c =? 13 then 10 else c in
       modinput (put_input c) ;;
       consputc c ;;
       i ← gets co_in;
       if (c =? 10) || (c =? ctl 68) || (in_e i =? u32 (in_r i + INPUT_BUF)) then
         modinput (set_in_w (in_e i)) ;;
         wakeup_m ChInput
       else mret tt
     else mret tt) ;;
    mret d.

(** [while((c = getc()) >= 0)], for the keys that [getc] has. *)
Fixpoint handle_keys (keys : list Z) (d : dumps) : M cst dumps :=
  match keys with
  | [] => mret d
  | c :: keys => d ← handle_key c d; handle_keys keys d
  end.

(** The listings that are to be printed. *)
Definition consoleintr (keys : list Z) : M cst dumps :=
  acquire_m CONSLOCK ;;
  d ← handle_keys keys (mkdumps false 0);
  release_m CONSLOCK ;;
  mret d.

Definition iunlock_m : M cst unit := fun s =>
  let m := co_mach s in
  match env_iunlock (m_world m) with
  | Ok w => Ok (tt, set_co_mach (mkmach (m_locks m) (m_cpu m) w) s)
  | Err e => Err e
  end.
Definition ilock_m : M cst unit := fun s =>
  let m := co_mach s in
  match env_ilock (m_world m) with
  | Ok w => Ok (tt, set_co_mach (mkmach (m_locks m) (m_cpu m) w) s)
  | Err e => Err e
  end.

Definition read_return (r : Z) : M cst segment := release_m CONSLOCK ;; ilock_m ;; mret (Return r).

(** The loop of [consoleread] with [n] bytes to go: how the segment ends, and the
    bytes it stores. *)
Fixpoint read_loop (n : nat) (target : Z) : M cst (segment * list Z) :=
  match n with
  | O => r ← read_return target; mret (r, [])
  | S n' =>
      i ← gets co_in;
      if in_r i =? in_w i then
        dead ← killed_m;
        if (dead : bool) then r ← read_return (-1); mret (r, [])
        else release_m CONSLOCK ;; mret (Sleeps, [])
      else
        c ← get_slot (in_r i);
        modinput (set_in_r (u32 (in_r i + 1))) ;;
        if c =? ctl 68 then
          (if Z.of_nat n <? target then modinput (set_in_r (in_r i)) else mret tt) ;;
          r ← read_return (target - Z.of_nat n); mret (r, [])
        else if c =? 10 then r ← read_return (target - Z.of_nat n'); mret (r, [c])
        else r ← read_loop n' target; mret (r.1, c :: r.2)
  end.

(** [consoleread(ip, dst, n)] up to its first sleep, and after one with [n] bytes
    to go. *)
Definition consoleread (n : nat) : M cst (segment * list Z) :=
  iunlock_m ;; acquire_m CONSLOCK ;; read_loop n (Z.of_nat n).
Definition consoleread_again (n : nat) (target : Z) : M cst (segment * list Z) :=
  acquire_m CONSLOCK ;; read_loop n target.

Fixpoint write_loop (buf : list Z) : M cst unit :=
  match buf with
  | [] => mret tt
  | c :: buf => consputc (Z.land c 255) ;; write_loop buf
  end.

(** [consolewrite(ip, buf, n)] of the [n] bytes [buf]. *)
Definition consolewrite (buf : list Z) : M cst Z :=
  iunlock_m ;;
  acquire_m CONSLOCK ;;
  write_loop buf ;;
  release_m CONSLOCK ;;
  ilock_m ;;
  mret (Z.of_nat (length buf)).
End Console.
Arguments cst W : clear implicits.
