(* ===== verification/ConsoleTheorems.v ===== *)
(** * The console: line editing and the screen

    The ring buffer as two lists, the bytes ready to be read and the line being
    edited; the interrupt handler and [consoleread] on those lists; and that the
    screen driver stays within its memory. *)

From stdpp Require Import base numbers list strings.
From S2P Require Import Prelude Spinlock Machine Pipe Console.

Open Scope Z_scope.

(** ** The screen *)

Record scr_ok (s : screen) : Prop := {
  so_len : length (crt s) = (25 * 80)%nat;
  so_pos : 0 <= cursor s < 24 * 80;
}.

Lemma cursor_reg pos : 0 <= pos < 24 * 80 -> Z.lor (Z.shiftl (u8 (Z.shiftr pos 8)) 8) (u8 pos) = pos.
Proof.
  intros Hp. assert (H : Forall (fun k => Z.lor (Z.shiftl (u8 (Z.shiftr (Z.of_nat k) 8)) 8) (u8 (Z.of_nat k)) = Z.of_nat k) (seq 0 (24 * 80))).
  { refine (bool_decide_eq_true_1 _ _). by vm_compute. }
  rewrite Forall_forall in H. specialize (H (Z.to_nat pos)). rewrite Z2Nat.id in H by lia. apply H, elem_of_seq. lia.
Qed.

Lemma put_crt_ok pos v m : length m = (25 * 80)%nat -> 0 <= pos < 25 * 80 -> put_crt pos v m = Ok (<[Z.to_nat pos := v]> m).
Proof.
  intros Hl Hp. unfold put_crt. destruct (Z.leb_spec 0 pos); [|lia]. destruct (Z.ltb_spec pos (Z.of_nat (length m))); [done|lia].
Qed.

Lemma length_scroll pos m : length m = (25 * 80)%nat -> 0 <= pos <= 24 * 80 -> length (scroll pos m) = (25 * 80)%nat.
Proof. intros Hl Hp. unfold scroll. rewrite !length_app, length_replicate, length_take, !length_drop, !length_app, length_take, !length_drop. lia. Qed.

(** The cells before the cursor. *)
Definition shown (s : screen) : list Z := take (Z.to_nat (cursor s)) (crt s).

Lemma take_scroll pos m : length m = (25 * 80)%nat -> 23 * 80 <= pos <= 24 * 80 ->
  take (23 * 80) (scroll pos m) = take (23 * 80) (drop 80 m).
Proof.
  intros Hl Hp. unfold scroll. rewrite take_app_le by (rewrite length_take, length_app, length_take, !length_drop; lia).
  rewrite take_take, Nat.min_l by lia. rewrite take_app_le by (rewrite length_take, length_drop; lia). by rewrite take_take, Nat.min_l by lia.
Qed.

(** The position and the cells before the scrolling. *)
Definition moved (c : Z) (s : screen) : Z * list Z :=
  if c =? 10 then (cursor s + 80 - cursor s mod 80, crt s)
  else if c =? BACKSPACE then (if 0 <? cursor s then cursor s - 1 else cursor s, crt s)
  else (cursor s + 1, <[Z.to_nat (cursor s) := Z.lor (Z.land c 255) 1792]> (crt s)).

Lemma moved_range c s : scr_ok s -> 0 <= (moved c s).1 <= 24 * 80 /\ length (moved c s).2 = (25 * 80)%nat.
Proof.
  intros [Hl Hp]. unfold moved. destruct (c =? 10).
  { simpl. pose proof (Z_div_mod_eq_full (cursor s) 80). pose proof (Z.mod_pos_bound (cursor s) 80). split; [|done].
    assert (cursor s / 80 < 24) by (apply Z.div_lt_upper_bound; lia). lia. }
  destruct (c =? BACKSPACE); simpl; [|rewrite length_insert; split; [lia|done]]. destruct (Z.ltb_spec 0 (cursor s)); split; try done; lia.
Qed.

(** [cgaputc] on the screen: the text moves on, and one row up at the end. *)
Lemma cga_spec c s : scr_ok s -> exists s', cga c s = Ok s' /\ scr_ok s' /\
  let '(pos, m) := moved c s in
  if pos <? 24 * 80 then cursor s' = pos /\ shown s' = take (Z.to_nat pos) m
  else cursor s' = 23 * 80 /\ shown s' = take (23 * 80) (drop 80 m).
Proof.
  intros Hs. destruct (moved_range c s Hs) as [Hr Hl]. unfold cga.
  assert (Hm : (if c =? 10 then Ok (cursor s + 80 - cursor s mod 80, crt s)
     else if c =? BACKSPACE then Ok (if 0 <? cursor s then cursor s - 1 else cursor s, crt s)
     else m ← put_crt (cursor s) (Z.lor (Z.land c 255) 1792) (crt s); Ok (cursor s + 1, m)) = Ok (moved c s)).
  { unfold moved. destruct (c =? 10); [done|]. destruct (c =? BACKSPACE); [done|]. destruct Hs as [Hl' Hp']. rewrite put_crt_ok by (done || lia). done. }
  rewrite Hm. cbn [mbind outcome_bind]. destruct (moved c s) as [pos m]. cbn [fst snd] in *.
  destruct (Z.ltb_spec pos 0); [lia|]. destruct (Z.ltb_spec (25 * 80) pos); [lia|]. cbn [orb].
  destruct (Z.ltb_spec pos (24 * 80)) as [Hlt|Hge].
  - destruct (Z.leb_spec 24 (pos / 80)) as [Hd|_].
    { assert (pos / 80 < 24) by (apply Z.div_lt_upper_bound; lia). lia. }
    rewrite put_crt_ok by (done || lia). cbn [mbind outcome_bind]. rewrite cursor_reg by lia. eexists. split; [done|].
    split; [split; simpl; [by rewrite length_insert|lia]|]. split; [done|]. unfold shown. cbn [cursor crt]. by rewrite take_insert_ge by lia.
  - assert (pos = 1920) as -> by lia. change (24 <=? 1920 / 80) with true. cbv iota.
    rewrite put_crt_ok by (done || lia || by apply length_scroll; [done|lia]). cbn [mbind outcome_bind]. rewrite cursor_reg by lia.
    eexists. split; [done|]. split; [split; simpl; [rewrite length_insert; by apply length_scroll; [|lia]|lia]|]. split; [done|].
    unfold shown. cbn [cursor crt]. rewrite take_insert_ge by lia. by apply (take_scroll (1920 - 80)).
Qed.

(** ** The ring buffer *)

(** What can be read, and the line being edited. *)
Record disc := mkdisc {
  d_ready : list Z;
  d_edit : list Z;
}.

Definition slot (z : Z) : nat := Z.to_nat (z mod INPUT_BUF).

Record ring (i : input) (d : disc) : Prop := {
  ri_len : length (in_buf i) = 128%nat;
  ri_r : 0 <= in_r i < 2 ^ 32;
  ri_w : in_w i = u32 (in_r i + Z.of_nat (length (d_ready d)));
  ri_e : in_e i = u32 (in_r i + Z.of_nat (length (d_ready d) + length (d_edit d)));
  ri_size : (length (d_ready d) + length (d_edit d) <= 128)%nat;
  ri_data : forall k c, (d_ready d ++ d_edit d) !! k = Some c -> in_buf i !! slot (in_r i + Z.of_nat k) = Some c;
}.

Lemma u32_mod_buf z : Z.to_nat (u32 z mod INPUT_BUF) = slot z.
Proof. unfold slot, u32, INPUT_BUF. f_equal. rewrite <-Znumtheory.Zmod_div_mod; [done|lia|lia|]. by exists 33554432. Qed.

Lemma slot_bound z : (slot z < 128)%nat.
Proof. unfold slot, INPUT_BUF. pose proof (Z.mod_pos_bound z 128). lia. Qed.

Lemma slot_diff z (k j : nat) : (k < 128)%nat -> (j < 128)%nat -> k <> j -> slot (z + Z.of_nat k) <> slot (z + Z.of_nat j).
Proof.
  unfold slot, INPUT_BUF. intros Hk Hj Hn H. pose proof (Z.mod_pos_bound (z + Z.of_nat k) 128). pose proof (Z.mod_pos_bound (z + Z.of_nat j) 128).
  assert ((z + Z.of_nat k) mod 128 = (z + Z.of_nat j) mod 128) as He by lia.
  pose proof (Z_div_mod_eq_full (z + Z.of_nat k) 128). pose proof (Z_div_mod_eq_full (z + Z.of_nat j) 128). lia.
Qed.

(** Indices a short way apart differ, also where they wrap. *)
Lemma u32_near a j k : 0 <= j <= 128 -> 0 <= k <= 128 -> (u32 (a + j) =? u32 (a + k)) = (j =? k).
Proof.
  intros Hj Hk. destruct (Z.eqb_spec j k) as [->|Hne]; [apply Z.eqb_refl|]. apply Z.eqb_neq. unfold u32. intros He.
  pose proof (Z_div_mod_eq_full (a + j) (2 ^ 32)). pose proof (Z_div_mod_eq_full (a + k) (2 ^ 32)). lia.
Qed.

Lemma u32_add a k : u32 (u32 a + k) = u32 (a + k).
Proof. unfold u32. by rewrite Zplus_mod_idemp_l. Qed.

Lemma u32_sub a k : u32 (u32 (a + k) - a) = u32 k.
Proof. unfold u32. rewrite Zminus_mod_idemp_l. f_equal. lia. Qed.

Section Ring.
Context (i : input) (d : disc).
Hypothesis Hr : ring i d.

Lemma ring_edit_empty : (in_e i =? in_w i) = bool_decide (d_edit d = []).
Proof.
  destruct Hr as [_ _ -> -> Hs _]. rewrite u32_near by lia. destruct (d_edit d) as [|c l]; cbn [length] in *.
  - rewrite bool_decide_eq_true_2 by done. apply Z.eqb_eq. lia.
  - rewrite bool_decide_eq_false_2 by done. apply Z.eqb_neq. lia.
Qed.

Lemma ring_ready_empty : (in_r i =? in_w i) = bool_decide (d_ready d = []).
Proof.
  destruct Hr as [_ Hr0 -> _ Hs _]. assert (E0 : in_r i = u32 (in_r i + 0)) by (unfold u32; rewrite Z.add_0_r, Z.mod_small; lia).
  rewrite E0 at 1. rewrite u32_near by lia. destruct (d_ready d) as [|c l]; cbn [length] in *.
  - by rewrite bool_decide_eq_true_2.
  - rewrite bool_decide_eq_false_2 by done. apply Z.eqb_neq. lia.
Qed.

Lemma ring_count : u32 (in_e i - in_r i) = Z.of_nat (length (d_ready d) + length (d_edit d)).
Proof. destruct Hr as [_ _ _ -> Hs _]. rewrite u32_sub. apply u32_small. lia. Qed.

(** The last byte of the line. *)
Lemma ring_last l c : d_edit d = l ++ [c] ->
  in_buf i !! Z.to_nat (u32 (in_e i - 1) mod INPUT_BUF) = Some c /\ ring (set_in_e (u32 (in_e i - 1)) i) (mkdisc (d_ready d) l).
Proof.
  intros He. destruct Hr as [Hl Hr0 Hw Hee Hs Hd]. rewrite He, length_app in *. simpl in *.
  assert (E1 : u32 (in_e i - 1) = u32 (in_r i + Z.of_nat (length (d_ready d) + length l))).
  { rewrite Hee. unfold u32. rewrite Zminus_mod_idemp_l. f_equal. lia. }
  rewrite E1. split.
  - rewrite u32_mod_buf. apply Hd. rewrite app_assoc, lookup_app_r by (rewrite length_app; lia). rewrite length_app, Nat.sub_diag. done.
  - split; simpl; try done; [lia|].
    intros k x Hk. apply Hd. rewrite app_assoc. by apply lookup_app_l_Some.
Qed.

(** A byte at the end of the line. *)
Lemma ring_put c : (length (d_ready d) + length (d_edit d) < 128)%nat -> ring (put_input c i) (mkdisc (d_ready d) (d_edit d ++ [u8 c])).
Proof.
  intros Hs'. destruct Hr as [Hl Hr0 Hw He Hs Hd]. unfold put_input. split; simpl; try done.
  - by rewrite length_insert.
  - rewrite He, u32_add, length_app. simpl. f_equal. lia.
  - rewrite length_app. simpl. lia.
  - intros k x Hk. rewrite app_assoc in Hk. rewrite He, u32_mod_buf. apply lookup_app_Some in Hk as [Hk|[Hge Hk]].
    + pose proof (lookup_lt_Some _ _ _ Hk) as Hlt. rewrite length_app in Hlt. rewrite list_lookup_insert_ne by (apply slot_diff; lia). by apply Hd.
    + rewrite length_app in *. destruct (k - (length (d_ready d) + length (d_edit d)))%nat as [|n] eqn:Hn; [|done]. injection Hk as <-.
      replace k with (length (d_ready d) + length (d_edit d))%nat by lia. apply list_lookup_insert_eq. rewrite Hl. apply slot_bound.
Qed.

(** The line is ready. *)
Lemma ring_commit : ring (set_in_w (in_e i) i) (mkdisc (d_ready d ++ d_edit d) []).
Proof.
  destruct Hr as [Hl Hr0 Hw He Hs Hd]. split; simpl; try done; rewrite ?app_nil_r, ?length_app, ?Nat.add_0_r; try done.
Qed.

(** The first byte that is ready. *)
Lemma ring_first c q : d_ready d = c :: q ->
  in_buf i !! Z.to_nat (in_r i mod INPUT_BUF) = Some c /\ ring (set_in_r (u32 (in_r i + 1)) i) (mkdisc q (d_edit d)).
Proof.
  intros Hq. destruct Hr as [Hl Hr0 Hw He Hs Hd]. rewrite Hq in *. cbn [length app] in *. split.
  - specialize (Hd 0%nat c eq_refl). by rewrite Z.add_0_r in Hd.
  - split; simpl; try done; [unfold u32; apply Z.mod_pos_bound; lia| | |lia|].
    + rewrite Hw, u32_add. f_equal. lia.
    + rewrite He, u32_add. f_equal. lia.
    + intros k x Hk. rewrite <-(u32_mod_buf (u32 _ + _)), u32_add, u32_mod_buf.
      replace (in_r i + 1 + Z.of_nat k) with (in_r i + Z.of_nat (S k)) by lia. by apply (Hd (S k)).
Qed.
End Ring.

(** ** Line editing *)

(** The keys that only ask for a listing. *)
Definition listing (c : Z) : bool := bool_decide (c ∈ [ctl 80; ctl 70; ctl 83; ctl 82; ctl 90]).
Definition newline (c : Z) : Z := if c =? 13 then 10 else c.

(** A key on the two lists. *)
Definition key (d : disc) (c : Z) : disc :=
  if listing c then d
  else if c =? ctl 85 then mkdisc (d_ready d) []
  else if (c =? ctl 72) || (c =? 127) then mkdisc (d_ready d) (take (length (d_edit d) - 1) (d_edit d))
  else if negb (c =? 0) && (length (d_ready d) + length (d_edit d) <? 128)%nat then
    let l := d_edit d ++ [u8 (newline c)] in
    if (newline c =? 10) || (newline c =? ctl 68) || (length (d_ready d) + length l =? 128)%nat then mkdisc (d_ready d ++ l) []
    else mkdisc (d_ready d) l
  else d.

(** The same with the machine, where a line that is ready wakes the readers. *)
Definition key_w {W} {SC : Sched W} (x : disc * W) (c : Z) : disc * W :=
  let d := key x.1 c in
  (d, if (length (d_ready x.1) <? length (d_ready d))%nat then wake ChInput x.2 else x.2).

Section Keys.
Context {W : Type} {SC : Sched W} {E : error -> Prop}.

Record cons_ok (h : option nat) (s : cst W) (d : disc) : Prop := {
  ck_mach : holds h (co_mach s);
  ck_locks : (CONSLOCK < length (m_locks (co_mach s)))%nat;
  ck_ring : ring (co_in s) d;
  ck_line : 10 ∉ d_edit d;
  ck_screen : scr_ok (co_screen s);
  ck_run : co_panicked s = false;
}.

Definition world (s : cst W) : W := m_world (co_mach s).

Lemma wp_consputc c (Q : unit -> cst W -> Prop) s : scr_ok (co_screen s) -> co_panicked s = false ->
  (forall x l, scr_ok x -> Q tt (set_co_screen x (set_co_serial l s))) -> wp E (consputc c) Q s.
Proof.
  intros Hs Hp HQ. unfold consputc. apply wp_bind, wp_gets. rewrite Hp. apply wp_bind.
  assert (Hc : forall l, wp E (cgaputc c) Q (set_co_serial l s)).
  { intros l. unfold cgaputc. apply wp_bind, wp_gets, wp_bind. destruct (cga_spec c (co_screen s) Hs) as (x & Hx & Hok & _).
    eapply wp_lift; [exact Hx|]. apply wp_modify, HQ, Hok. }
  destruct (c =? BACKSPACE).
  - apply wp_bind, wp_modify, wp_bind, wp_modify, wp_modify, Hc.
  - apply wp_modify, Hc.
Qed.

(** [cons_ok] with the line [l] and the index moved, after a [consputc]. *)
Lemma cons_edit h s d l j c (Q : unit -> cst W -> Prop) : cons_ok h s d -> ring j (mkdisc (d_ready d) l) -> 10 ∉ l ->
  (forall s', cons_ok h s' (mkdisc (d_ready d) l) -> co_in s' = j -> world s' = world s -> Q tt s') ->
  wp E (consputc c) Q (set_co_in j s).
Proof.
  intros [Hm Hl Hr Hn Hs Hp] Hj Hl10 HQ. apply wp_consputc; [done|done|]. intros x ser Hx. apply HQ; [|done|done]. by split.
Qed.

Lemma wp_kill_line n s d (Q : unit -> cst W -> Prop) : forall h, cons_ok h s d -> (length (d_edit d) <= n)%nat ->
  (forall s', cons_ok h s' (mkdisc (d_ready d) []) -> world s' = world s -> Q tt s') -> wp E (kill_line n) Q s.
Proof.
  revert s d. induction n as [|n IH]; intros s d h Hc Hl HQ; cbn [kill_line]; apply wp_bind, wp_gets; rewrite (ring_edit_empty _ _ (ck_ring _ _ _ Hc));
    case_bool_decide as He; try (apply wp_ret, HQ; [destruct d as [r e]; simpl in *; by subst e|done]).
  - destruct (d_edit d); [done|simpl in Hl; lia].
  - destruct (exists_last He) as (l & c & Hlc). destruct (ring_last _ _ (ck_ring _ _ _ Hc) l c Hlc) as [Hb Hr'].
    pose proof (ck_line _ _ _ Hc) as Hn. rewrite Hlc in Hn. apply wp_bind. eapply wp_Ok; [unfold get_slot; by rewrite Hb|].
    destruct (Z.eqb_spec c 10) as [->|_]; [destruct Hn; apply elem_of_app; right; left|].
    apply wp_bind, wp_modify, wp_bind. eapply cons_edit; [exact Hc|exact Hr'|intros ?; apply Hn, elem_of_app; by left|].
    intros s' Hc' _ Hw'. apply (IH s' _ h Hc'); [simpl; rewrite Hlc, length_app in Hl; simpl in Hl; lia|].
    intros s2 H2 Hw2. apply HQ; [done|congruence].
Qed.

(** An ordinary key. *)
Lemma wp_type_key h c s d ds (Q : dumps -> cst W -> Prop) : cons_ok h s d -> 0 < c < 256 -> (length (d_ready d) + length (d_edit d) < 128)%nat ->
  (forall s' d', d' = (if (c =? 10) || (c =? ctl 68) || (length (d_ready d) + length (d_edit d ++ [c]) =? 128)%nat
                       then mkdisc (d_ready d ++ d_edit d ++ [c]) [] else mkdisc (d_ready d) (d_edit d ++ [c])) ->
     cons_ok h s' d' -> world s' = (if (length (d_ready d) <? length (d_ready d'))%nat then wake ChInput (world s) else world s) -> Q ds s') ->
  wp E ((modinput (put_input c) ;;
         consputc c ;;
         i ← gets co_in;
         if (c =? 10) || (c =? ctl 68) || (in_e i =? u32 (in_r i + INPUT_BUF)) then modinput (set_in_w (in_e i)) ;; wakeup_m ChInput
         else mret tt) ;; mret ds) Q s.
Proof.
  intros [Hm Hl Hr Hn Hs Hp] Hc Hroom HQ. assert (Hu : u8 c = c) by (unfold u8; apply Z.mod_small; lia).
  pose proof (ring_put _ _ Hr c Hroom) as Hr1. rewrite Hu in Hr1. apply wp_bind, wp_bind, wp_modify, wp_bind, wp_consputc; [done|done|]. intros x ser Hx.
  apply wp_bind, wp_gets. cbn [co_in set_co_screen set_co_serial set_co_in].
  assert (Hfull : (in_e (put_input c (co_in s)) =? u32 (in_r (put_input c (co_in s)) + INPUT_BUF)) = (length (d_ready d) + length (d_edit d ++ [c]) =? 128)%nat).
  { rewrite (ri_e _ _ Hr1). unfold INPUT_BUF. cbn [d_ready d_edit]. rewrite u32_near by (rewrite ?length_app; simpl; lia).
    destruct (Nat.eqb_spec (length (d_ready d) + length (d_edit d ++ [c])) 128); [apply Z.eqb_eq|apply Z.eqb_neq]; lia. }
  rewrite Hfull. destruct ((c =? 10) || (c =? ctl 68) || _) eqn:Hcom.
  - apply wp_bind, wp_modify, wp_modify, wp_ret. apply (HQ _ _ eq_refl).
    + split; simpl; [by apply holds_wake|done|by apply (ring_commit _ _ Hr1)|apply not_elem_of_nil|done|done].
    + simpl. rewrite !length_app. simpl. destruct (Nat.ltb_spec (length (d_ready d)) (length (d_ready d) + (length (d_edit d) + 1))); [done|lia].
  - apply wp_ret, wp_ret. apply (HQ _ _ eq_refl).
    + split; simpl; try done. intros [?|H10%list_elem_of_singleton]%elem_of_app; [done|]. by subst c.
    + simpl. by rewrite Nat.ltb_irrefl.
Qed.

Lemma key_same d c (w : W) : key d c = d -> (key_w (d, w) c) = (d, w).
Proof. intros H. unfold key_w. cbn [fst snd]. by rewrite H, Nat.ltb_irrefl. Qed.

Lemma key_edit d c l (w : W) : key d c = mkdisc (d_ready d) l -> (key_w (d, w) c) = (mkdisc (d_ready d) l, w).
Proof. intros H. unfold key_w. cbn [fst snd]. rewrite H. simpl. by rewrite Nat.ltb_irrefl. Qed.

Lemma wp_handle_key h c s d ds (Q : dumps -> cst W -> Prop) : cons_ok h s d -> 0 <= c < 256 ->
  (forall ds' s', cons_ok h s' (key_w (d, world s) c).1 -> world s' = (key_w (d, world s) c).2 -> Q ds' s') ->
  wp E (handle_key c ds) Q s.
Proof.
  intros Hc Hb HQ. unfold handle_key. destruct (listing c) eqn:Hli.
  { assert (Hk : key_w (d, world s) c = (d, world s)) by (apply key_same; unfold key; by rewrite Hli). rewrite Hk in HQ.
    apply bool_decide_eq_true in Hli. repeat (case_match; [by apply wp_ret, HQ|]). exfalso.
    repeat (apply elem_of_cons in Hli as [->|Hli]; [done|]). by apply elem_of_nil in Hli. }
  assert (Hnl : forall x, x ∈ [ctl 80; ctl 70; ctl 83; ctl 82; ctl 90] -> (c =? x) = false).
  { intros x Hx. apply Z.eqb_neq. intros ->. by apply bool_decide_eq_false in Hli. }
  rewrite !Hnl by (rewrite !elem_of_cons; tauto). pose proof (ck_ring _ _ _ Hc) as Hr. destruct (c =? ctl 85) eqn:Hku.
  { assert (Hk : key_w (d, world s) c = (mkdisc (d_ready d) [], world s)) by (apply key_edit; unfold key; by rewrite Hli, Hku). rewrite Hk in HQ.
    apply wp_bind. eapply wp_kill_line; [exact Hc|pose proof (ri_size _ _ Hr); unfold INPUT_BUF; lia|]. intros s' Hc' Hw'. by apply wp_ret, HQ. }
  destruct ((c =? ctl 72) || (c =? 127)) eqn:Hbs.
  { assert (Hk : key_w (d, world s) c = (mkdisc (d_ready d) (take (length (d_edit d) - 1) (d_edit d)), world s)).
    { apply key_edit. unfold key. by rewrite Hli, Hku, Hbs. }
    rewrite Hk in HQ. apply wp_bind, wp_gets, wp_bind. rewrite (ring_edit_empty _ _ Hr). case_bool_decide as He; cbn [negb].
    - apply wp_ret, wp_ret, HQ; [|done]. rewrite He. simpl. destruct d as [r e]. simpl in *. by subst e.
    - destruct (exists_last He) as (l & x & Hlx). destruct (ring_last _ _ Hr l x Hlx) as [_ Hr'].
      rewrite Hlx, length_app in HQ. simpl length in HQ. rewrite Nat.add_sub, take_app_length in HQ.
      apply wp_bind, wp_modify. eapply cons_edit; [exact Hc|exact Hr'| |intros s' Hc' _ Hw'; by apply wp_ret, HQ].
      pose proof (ck_line _ _ _ Hc) as Hn. rewrite Hlx in Hn. intros ?. apply Hn, elem_of_app. by left. }
  apply wp_bind, wp_gets. rewrite (ring_count _ _ Hr). fold (newline c).
  assert (Hroom : (Z.of_nat (length (d_ready d) + length (d_edit d)) <? INPUT_BUF) = (length (d_ready d) + length (d_edit d) <? 128)%nat).
  { unfold INPUT_BUF. destruct (Nat.ltb_spec (length (d_ready d) + length (d_edit d)) 128); [apply Z.ltb_lt|apply Z.ltb_ge]; lia. }
  rewrite Hroom. destruct (negb (c =? 0) && _) eqn:Hgo.
  2: { assert (Hk : key_w (d, world s) c = (d, world s)) by (apply key_same; unfold key; by rewrite Hli, Hku, Hbs, Hgo). rewrite Hk in HQ.
       by apply wp_bind, wp_ret, wp_ret, HQ. }
  apply andb_true_iff in Hgo as Hgo'. destruct Hgo' as [H0%negb_true_iff%Z.eqb_neq Hlt%Nat.ltb_lt].
  assert (Hnc : 0 < newline c < 256) by (unfold newline; destruct (c =? 13); lia).
  assert (Hu : u8 (newline c) = newline c) by (unfold u8; apply Z.mod_small; lia).
  eapply wp_type_key; [exact Hc|exact Hnc|exact Hlt|]. intros s' d' Hd' Hc' Hw'.
  assert (Hk : key_w (d, world s) c = (d', if (length (d_ready d) <? length (d_ready d'))%nat then wake ChInput (world s) else world s)).
  { unfold key_w. cbn [fst snd]. replace (key d c) with d'; [done|]. unfold key. by rewrite Hli, Hku, Hbs, Hgo, Hu. }
  rewrite Hk in HQ. by apply HQ.
Qed.

Lemma wp_handle_keys h keys : forall s d ds (Q : dumps -> cst W -> Prop), cons_ok h s d -> Forall (fun c => 0 <= c < 256) keys ->
  (forall ds' s', cons_ok h s' (foldl key_w (d, world s) keys).1 -> world s' = (foldl key_w (d, world s) keys).2 -> Q ds' s') ->
  wp E (handle_keys keys ds) Q s.
Proof.
  induction keys as [|c keys IH]; intros s d ds Q Hc Hb HQ; cbn [handle_keys]; [by apply wp_ret, HQ|].
  apply Forall_cons in Hb as [Hb1 Hb]. apply wp_bind. eapply wp_handle_key; [exact Hc|exact Hb1|]. intros ds' s' Hc' Hw'.
  eapply IH; [exact Hc'|exact Hb|]. intros ds2 s2. rewrite Hw'. simpl in HQ. rewrite <-surjective_pairing. apply HQ.
Qed.
End Keys.

(** ** Reading *)

(** [consoleread] on the list of bytes that are ready: the value it returns, if it
    does not wait, what it stores, and what is left.  A ^D ends the input: alone,
    it is consumed and gives 0; after other bytes it stays for the next read. *)
Fixpoint rd (n : nat) (target : Z) (q : list Z) : option Z * list Z * list Z :=
  match n with
  | O => (Some target, [], q)
  | S n' =>
      match q with
      | [] => (None, [], [])
      | c :: q' =>
          if c =? ctl 68 then (Some (target - Z.of_nat n), [], if Z.of_nat n <? target then q else q')
          else if c =? 10 then (Some (target - Z.of_nat n'), [c], q')
          else let '(r, l, q'') := rd n' target q' in (r, c :: l, q'')
      end
  end.

Section Read.
Context {W : Type} {SC : Sched W} {IE : InodeEnv W} {E : error -> Prop}.
Hypothesis Hunlock : forall w, exists w', env_iunlock w = Ok w' /\ killed w' = killed w.
Hypothesis Hlock : forall w, exists w', env_ilock w = Ok w'.

Definition ends_read (r : option Z) (w : W) : segment :=
  match r with Some v => Return v | None => if killed w then Return (-1) else Sleeps end.

Lemma wp_creleased s d (Q : unit -> cst W -> Prop) : cons_ok (Some CONSLOCK) s d ->
  (forall s', cons_ok None s' d -> world s' = world s -> Q tt s') -> wp E (release_m CONSLOCK) Q s.
Proof.
  intros [Hm Hl Hr Hn Hs Hp] HQ. apply wp_release_m; [done|]. intros m Hm' Hw Hlen. apply HQ; [|done]. split; try done. simpl. by rewrite Hlen.
Qed.

Lemma wp_cacquired s d (Q : unit -> cst W -> Prop) : cons_ok None s d ->
  (forall s', cons_ok (Some CONSLOCK) s' d -> world s' = world s -> Q tt s') -> wp E (acquire_m CONSLOCK) Q s.
Proof.
  intros [Hm Hl Hr Hn Hs Hp] HQ. apply wp_acquire_m; [done|done|]. intros m Hm' Hw Hlen. apply HQ; [|done]. split; try done. simpl. by rewrite Hlen.
Qed.

Lemma holds_world h (w : W) (m : mach W) : holds h m -> holds h (mkmach (m_locks m) (m_cpu m) w).
Proof.
  destruct h as [l|]; [intros (m0 & Hq & Hl & ->); by exists m0|]. intros [? ? ?]. by split.
Qed.

Lemma wp_ilock_m s d (Q : unit -> cst W -> Prop) : cons_ok None s d -> (forall s', cons_ok None s' d -> Q tt s') -> wp E ilock_m Q s.
Proof.
  intros [Hm Hl Hr Hn Hs Hp] HQ. destruct (Hlock (world s)) as [w' Hw]. unfold wp, ilock_m. fold (world s). rewrite Hw. apply HQ.
  split; try done. by apply holds_world.
Qed.

Lemma wp_iunlock_m s d (Q : unit -> cst W -> Prop) : cons_ok None s d ->
  (forall s', cons_ok None s' d -> killed (world s') = killed (world s) -> Q tt s') -> wp E iunlock_m Q s.
Proof.
  intros [Hm Hl Hr Hn Hs Hp] HQ. destruct (Hunlock (world s)) as (w' & Hw & Hk). unfold wp, iunlock_m. fold (world s). rewrite Hw. apply HQ; [|done].
  split; try done. by apply holds_world.
Qed.

Lemma wp_read_return r s d (Q : segment -> cst W -> Prop) : cons_ok (Some CONSLOCK) s d ->
  (forall s', cons_ok None s' d -> Q (Return r) s') -> wp E (read_return r) Q s.
Proof.
  intros Hc HQ. unfold read_return. apply wp_bind. eapply wp_creleased; [exact Hc|]. intros s' Hc' _. apply wp_bind.
  eapply wp_ilock_m; [exact Hc'|]. intros s2 H2. by apply wp_ret, HQ.
Qed.

Lemma cons_set_in h (s : cst W) d j d' : cons_ok h s d -> ring j d' -> d_edit d' = d_edit d -> cons_ok h (set_co_in j s) d'.
Proof. intros [Hm Hl Hr Hn Hs Hp] Hj He. split; try done. by rewrite He. Qed.

Lemma wp_read_loop n target : forall s d (Q : segment * list Z -> cst W -> Prop), cons_ok (Some CONSLOCK) s d ->
  (forall s', cons_ok None s' (mkdisc (rd n target (d_ready d)).2 (d_edit d)) ->
     Q (ends_read (rd n target (d_ready d)).1.1 (world s), (rd n target (d_ready d)).1.2) s') ->
  wp E (read_loop n target) Q s.
Proof.
  induction n as [|n IH]; intros s d Q Hc HQ; cbn [read_loop].
  { apply wp_bind. eapply wp_read_return; [exact Hc|]. intros s' Hc'. apply wp_ret, HQ. simpl. by destruct d. }
  apply wp_bind, wp_gets. pose proof (ck_ring _ _ _ Hc) as Hr. rewrite (ring_ready_empty _ _ Hr). case_bool_decide as He.
  { rewrite He in HQ. simpl in HQ. apply wp_bind, wp_gets. change (m_world (get_mach s)) with (world s). assert (Hd : mkdisc [] (d_edit d) = d) by (destruct d; simpl in *; by subst).
    rewrite Hd in HQ. destruct (killed (world s)).
    - apply wp_bind. eapply wp_read_return; [exact Hc|]. intros s' Hc'. by apply wp_ret, HQ.
    - apply wp_bind. eapply wp_creleased; [exact Hc|]. intros s' Hc' _. by apply wp_ret, HQ. }
  destruct (d_ready d) as [|c q] eqn:Hq; [done|]. destruct (ring_first _ _ Hr c q Hq) as [Hb Hr']. apply wp_bind.
  eapply wp_Ok; [unfold get_slot; by rewrite Hb|]. apply wp_bind, wp_modify. cbn [rd] in HQ.
  pose proof (cons_set_in _ _ _ _ _ Hc Hr' eq_refl) as Hc'. destruct (c =? ctl 68).
  - apply wp_bind. destruct (Z.ltb_spec (Z.of_nat (S n)) target).
    + apply wp_modify, wp_bind. cbn [co_in set_co_in].
      replace (set_in_r (in_r (co_in s)) (set_in_r (u32 (in_r (co_in s) + 1)) (co_in s))) with (co_in s) by (by destruct (co_in s)).
      eapply wp_read_return; [eapply (cons_set_in _ _ _ (co_in s) d); [exact Hc'|exact Hr|done]|].
      intros s' H'. apply wp_ret, HQ. simpl. rewrite <-Hq. by destruct d.
    + apply wp_ret, wp_bind. eapply wp_read_return; [exact Hc'|]. intros s' H'. by apply wp_ret, HQ.
  - destruct (c =? 10).
    + apply wp_bind. eapply wp_read_return; [exact Hc'|]. intros s' H'. by apply wp_ret, HQ.
    + apply wp_bind. eapply (IH _ (mkdisc q (d_edit d))); [exact Hc'|]. intros s' H'. apply wp_ret. cbn [d_ready d_edit] in *.
      destruct (rd n target q) as [[r l] q']. by apply HQ.
Qed.
End Read.

(** ** The properties *)

Lemma foldl_key_w {W} {SC : Sched W} keys : forall (x : disc * W), (foldl key_w x keys).1 = foldl key x.1 keys.
Proof. induction keys as [|c keys IH]; intros x; [done|]. simpl. by rewrite IH. Qed.

Lemma consoleintr_run {W} {SC : Sched W} keys (s : cst W) d : cons_ok None s d -> Forall (fun c => 0 <= c < 256) keys ->
  exists ds s', consoleintr keys s = Ok (ds, s') /\ cons_ok None s' (foldl key d keys) /\ world s' = (foldl key_w (d, world s) keys).2.
Proof.
  intros Hc Hb. assert (H : wp no_error (consoleintr keys)
    (fun _ s' => cons_ok None s' (foldl key d keys) /\ world s' = (foldl key_w (d, world s) keys).2) s).
  { unfold consoleintr. apply wp_bind. eapply wp_cacquired; [exact Hc|]. intros s1 H1 Hw1. apply wp_bind.
    eapply wp_handle_keys; [exact H1|exact Hb|]. intros ds s2 H2 Hw2. apply wp_bind. eapply wp_creleased; [exact H2|].
    intros s3 H3 Hw3. apply wp_ret. rewrite Hw1, foldl_key_w in *. split; [done|congruence]. }
  apply wp_no_error in H as (ds & s' & Hrun & H). by exists ds, s'.
Qed.

Lemma consoleread_run {W} {SC : Sched W} {IE : InodeEnv W} n (s : cst W) d :
  (forall w, exists w', env_iunlock w = Ok w' /\ killed w' = killed w) -> (forall w, exists w', env_ilock w = Ok w') -> cons_ok None s d ->
  exists s', consoleread n s = Ok ((ends_read (rd n (Z.of_nat n) (d_ready d)).1.1 (world s), (rd n (Z.of_nat n) (d_ready d)).1.2), s') /\
    cons_ok None s' (mkdisc (rd n (Z.of_nat n) (d_ready d)).2 (d_edit d)).
Proof.
  intros Hu Hl Hc. assert (H : wp no_error (consoleread n) (fun x s' =>
    x = (ends_read (rd n (Z.of_nat n) (d_ready d)).1.1 (world s), (rd n (Z.of_nat n) (d_ready d)).1.2) /\
    cons_ok None s' (mkdisc (rd n (Z.of_nat n) (d_ready d)).2 (d_edit d))) s).
  { unfold consoleread. apply wp_bind. eapply wp_iunlock_m; [exact Hu|exact Hc|]. intros s1 H1 Hk1. apply wp_bind.
    eapply wp_cacquired; [exact H1|]. intros s2 H2 Hw2. eapply wp_read_loop; [exact Hl|exact H2|].
    intros s3 H3. split; [|done]. f_equal. unfold ends_read. by rewrite Hw2, Hk1. }
  apply wp_no_error in H as (x & s' & Hrun & -> & H). by exists s'.
Qed.

(** C33. The interrupt handler edits the line as the user sees it: it takes any
    keys, in any state of the ring buffer, also where its indices wrap, and the
    bytes that are ready and the line being edited are those that the keys give on
    lists; readers are woken exactly when a line becomes ready. *)
Theorem consoleintr_edits {W} {SC : Sched W} keys (s : cst W) d : cons_ok None s d -> Forall (fun c => 0 <= c < 256) keys ->
  exists ds s', consoleintr keys s = Ok (ds, s') /\ cons_ok None s' (foldl key d keys) /\ world s' = (foldl key_w (d, world s) keys).2.
Proof. apply consoleintr_run. Qed.

(** [consoleread] takes the bytes that are ready up to the end of a line, to a
    ^D, or as many as are asked for, and waits only when there are none. *)
Theorem consoleread_reads {W} {SC : Sched W} {IE : InodeEnv W} n (s : cst W) d :
  (forall w, exists w', env_iunlock w = Ok w' /\ killed w' = killed w) -> (forall w, exists w', env_ilock w = Ok w') -> cons_ok None s d ->
  exists s', consoleread n s = Ok ((ends_read (rd n (Z.of_nat n) (d_ready d)).1.1 (world s), (rd n (Z.of_nat n) (d_ready d)).1.2), s') /\
    cons_ok None s' (mkdisc (rd n (Z.of_nat n) (d_ready d)).2 (d_edit d)).
Proof. apply consoleread_run. Qed.

(** The line that keys give: control-U starts again, backspace takes the last byte
    away, and the listing keys do nothing. *)
Definition edit_key (l : list Z) (c : Z) : list Z :=
  if listing c || (c =? 0) then l
  else if c =? ctl 85 then []
  else if (c =? ctl 72) || (c =? 127) then take (length l - 1) l
  else l ++ [c].

(** A key that does not end the line. *)
Definition in_line (c : Z) : Prop := 0 <= c < 256 /\ c <> 10 /\ c <> 13 /\ c <> ctl 68.

Lemma edit_key_length l c : (length (edit_key l c) <= S (length l))%nat.
Proof. unfold edit_key. repeat case_match; rewrite ?length_take, ?length_app; simpl; lia. Qed.

Lemma edit_key_ok l c : in_line c -> Forall in_line l -> Forall in_line (edit_key l c).
Proof.
  intros Hc Hl. unfold edit_key. repeat case_match; try done; [by apply Forall_take|]. apply Forall_app. split; [done|]. by apply Forall_singleton.
Qed.

Lemma key_edits l c : in_line c -> (length l < 127)%nat -> key (mkdisc [] l) c = mkdisc [] (edit_key l c).
Proof.
  intros (Hb & H10 & H13 & H4) Hl. unfold key, edit_key. cbn [d_ready d_edit]. destruct (listing c); [done|]. cbn [orb].
  assert (Hn : newline c = c) by (unfold newline; by destruct (Z.eqb_spec c 13)). rewrite Hn.
  assert (Hu : u8 c = c) by (unfold u8; apply Z.mod_small; lia). rewrite Hu. destruct (Z.eqb_spec c 0) as [->|H0]; [done|].
  destruct (c =? ctl 85); [done|]. destruct (_ || (c =? 127)); [done|]. cbn [negb andb length]. simpl plus.
  destruct (Nat.ltb_spec (length l) 128); [|lia]. destruct (Z.eqb_spec c 10); [done|]. destruct (Z.eqb_spec c (ctl 68)); [done|].
  rewrite length_app. simpl. destruct (Nat.eqb_spec (length l + 1) 128); [lia|done].
Qed.

(** The keys that are not 0, which stands for no character. *)
Definition nonzero (keys : list Z) : list Z := filter (fun c => c <> 0) keys.

Lemma keys_edit keys : forall l, Forall in_line keys -> Forall in_line l -> (length l + length (nonzero keys) < 127)%nat ->
  foldl key (mkdisc [] l) keys = mkdisc [] (foldl edit_key l keys) /\ Forall in_line (foldl edit_key l keys) /\
  (length (foldl edit_key l keys) <= length l + length (nonzero keys))%nat.
Proof.
  induction keys as [|c keys IH]; intros l Hk Hl Hn; [split_and!; [done|done|simpl; lia]|].
  apply Forall_cons in Hk as [Hc Hk]. cbn [foldl]. rewrite key_edits by (done || lia).
  assert (Hle : (length (edit_key l c) + length (nonzero keys) <= length l + length (nonzero (c :: keys)))%nat).
  { unfold nonzero. rewrite filter_cons. case_decide as H0; [pose proof (edit_key_length l c); simpl; lia|]. rewrite H0. unfold edit_key. simpl. lia. }
  destruct (IH (edit_key l c) Hk (edit_key_ok _ _ Hc Hl)) as (H1 & H2 & H3); [lia|]. split_and!; [done|done|lia].
Qed.

Lemma rd_line n l target : Forall in_line l -> (length l < n)%nat ->
  rd n target (l ++ [10]) = (Some (target - Z.of_nat (n - length l - 1)), l ++ [10], []).
Proof.
  revert n. induction l as [|c l IH]; intros n Hl Hn; destruct n as [|n]; try (simpl in Hn; lia); cbn [rd app].
  - change (10 =? ctl 68) with false. cbn. by rewrite Nat.sub_0_r.
  - apply Forall_cons in Hl as [(_ & H10 & _ & H4) Hl]. destruct (Z.eqb_spec c (ctl 68)); [done|]. destruct (Z.eqb_spec c 10); [done|].
    rewrite IH by (done || simpl in Hn; lia). done.
Qed.

(** The keys of a line and return, on the two lists. *)
Lemma line_typed keys ret : Forall in_line keys -> ret = 10 \/ ret = 13 -> (length (nonzero keys) < 127)%nat ->
  foldl key (mkdisc [] []) (keys ++ [ret]) = mkdisc (foldl edit_key [] keys ++ [10]) [] /\
  Forall in_line (foldl edit_key [] keys) /\ Forall (fun c => 0 <= c < 256) (keys ++ [ret]).
Proof.
  intros Hk Hret Hlen. destruct (keys_edit keys [] Hk (Forall_nil_2 _) Hlen) as (He & Hok & Hle). rewrite foldl_app, He.
  set (l := foldl edit_key [] keys) in *. cbn [length] in Hle. split_and!; [|done|].
  - cbn [foldl]. unfold key. cbn [d_ready d_edit length]. simpl plus.
    assert (Hlt : (length l <? 128)%nat = true) by (apply Nat.ltb_lt; lia). rewrite Hlt. by destruct Hret as [-> | ->].
  - apply Forall_app. split; [eapply Forall_impl; [exact Hk|]; by intros c [? _]|]. apply Forall_singleton. lia.
Qed.

(** Reading the line. *)
Lemma line_read {W} {SC : Sched W} {IE : InodeEnv W} n l (s : cst W) :
  (forall w, exists w', env_iunlock w = Ok w' /\ killed w' = killed w) -> (forall w, exists w', env_ilock w = Ok w') ->
  cons_ok None s (mkdisc (l ++ [10]) []) -> Forall in_line l -> (length l < n)%nat ->
  exists s', consoleread n s = Ok ((Return (Z.of_nat (length l) + 1), l ++ [10]), s') /\ cons_ok None s' (mkdisc [] []).
Proof.
  intros Hu Hl Hc Hok Hn. pose proof (rd_line n l (Z.of_nat n) Hok Hn) as Hrd.
  destruct (consoleread_run n s _ Hu Hl Hc) as (s' & Hread & H'). cbn [d_ready d_edit] in *. rewrite Hrd in Hread, H'. cbn [fst snd ends_read] in *.
  exists s'. split; [|done]. replace (Z.of_nat n - Z.of_nat (n - length l - 1)) with (Z.of_nat (length l) + 1) in Hread by lia. exact Hread.
Qed.

(** Typing and reading a line: after any keys with any editing among them, and
    then return, a read of enough bytes gives the edited line with a newline, and
    the console is empty again. *)
Theorem console_line {W} {SC : Sched W} {IE : InodeEnv W} keys ret n (s : cst W) :
  (forall w, exists w', env_iunlock w = Ok w' /\ killed w' = killed w) -> (forall w, exists w', env_ilock w = Ok w') ->
  cons_ok None s (mkdisc [] []) -> Forall in_line keys -> ret = 10 \/ ret = 13 -> (length (nonzero keys) < 127)%nat ->
  (length (foldl edit_key [] keys) < n)%nat ->
  exists ds s1 s2, consoleintr (keys ++ [ret]) s = Ok (ds, s1) /\
    consoleread n s1 = Ok ((Return (Z.of_nat (length (foldl edit_key [] keys)) + 1), foldl edit_key [] keys ++ [10]), s2) /\
    cons_ok None s2 (mkdisc [] []).
Proof.
  intros Hu Hl Hc Hk Hret Hlen Hn. destruct (line_typed keys ret Hk Hret Hlen) as (He & Hok & Hb).
  destruct (consoleintr_run (keys ++ [ret]) s _ Hc Hb) as (ds & s1 & Hrun & H1 & _). rewrite He in H1.
  destruct (line_read n _ s1 Hu Hl H1 Hok Hn) as (s2 & Hread & H2). by exists ds, s1, s2.
Qed.

(** The screen driver stays within the memory of the screen: from a position
    before the last row, any character is written and leaves the cursor before the
    last row, without a panic; the text before the cursor is extended by it, and
    moves up one row when it reaches the end. *)
Theorem cgaputc_screen {W} c (s : cst W) : scr_ok (co_screen s) ->
  exists s', cgaputc c s = Ok (tt, s') /\ scr_ok (co_screen s') /\
    let '(pos, m) := moved c (co_screen s) in
    if pos <? 24 * 80 then shown (co_screen s') = take (Z.to_nat pos) m
    else shown (co_screen s') = take (23 * 80) (drop 80 m).
Proof.
  intros Hs. destruct (cga_spec c (co_screen s) Hs) as (x & Hx & Hok & Hsp). exists (set_co_screen x s).
  split; [unfold cgaputc; cbn [mbind M_bind gets]; unfold mbind, M_bind, gets, lift; by rewrite Hx|]. split; [done|].
  destruct (moved c (co_screen s)) as [pos m]. destruct (pos <? 24 * 80); by destruct Hsp.
Qed.

(** ** An instance: an empty console whose indices are about to wrap *)

Definition demo_inodes : InodeEnv (list Z) := {| env_iunlock := fun w => Ok w; env_ilock := fun w => Ok w |}.
#[local] Existing Instance demo_sched.
#[local] Existing Instance demo_inodes.

Definition demo_console : cst (list Z) :=
  mkcst (boot_mach 1 []) (mkinput (replicate 128 0) 4294967294 4294967294 4294967294) (mkscreen (replicate 2000 0) 1900) [] false.

Lemma demo_console_ok : cons_ok None demo_console (mkdisc [] []).
Proof.
  split; [apply boot_quiet|simpl; unfold CONSLOCK; lia| |apply not_elem_of_nil|split; [by vm_compute|by vm_compute]|done].
  split; try done; simpl; lia.
Qed.

Lemma demo_unlock : forall w : list Z, exists w', env_iunlock w = Ok w' /\ killed w' = killed w.
Proof. intros w. by exists w. Qed.

Lemma demo_lock : forall w : list Z, exists w', env_ilock w = Ok w'.
Proof. intros w. by exists w. Qed.

Lemma consoleintr_edits_witness : exists ds s', consoleintr [97; 98; 8; 99; 13; 100] demo_console = Ok (ds, s') /\
  cons_ok None s' (mkdisc [97; 99; 10] [100]).
Proof.
  destruct (consoleintr_edits [97; 98; 8; 99; 13; 100] demo_console (mkdisc [] []) demo_console_ok) as (ds & s' & Hrun & Hok & _).
  - by repeat constructor.
  - exists ds, s'. split; [exact Hrun|]. exact Hok.
Defined.

Lemma consoleread_reads_witness : exists s', consoleread 5 demo_console = Ok ((Sleeps, []), s') /\ cons_ok None s' (mkdisc [] []).
Proof. exact (consoleread_reads 5 demo_console (mkdisc [] []) demo_unlock demo_lock demo_console_ok). Defined.

Lemma console_line_witness : exists ds s1 s2, consoleintr ([97; 98; 127; 99] ++ [13]) demo_console = Ok (ds, s1) /\
  consoleread 100 s1 = Ok ((Return 3, [97; 99; 10]), s2) /\ cons_ok None s2 (mkdisc [] []).
Proof.
  refine (console_line [97; 98; 127; 99] 13 100 demo_console demo_unlock demo_lock demo_console_ok _ _ _ _).
  - by repeat constructor.
  - by right.
  - vm_compute. lia.
  - vm_compute. lia.
Defined.

Lemma cgaputc_screen_witness : exists s', cgaputc 10 demo_console = Ok (tt, s') /\ scr_ok (co_screen s').
Proof.
  destruct (cgaputc_screen 10 demo_console) as (s' & Hrun & Hok & _); [exact (ck_screen _ _ _ demo_console_ok)|]. exists s'. by split.
Defined.
