(* ===== verification/Kbd.v ===== *)
(** * The keyboard (kbd.c, kbd.h)

    [kbdgetc] as a function from what the controller has, a scan code or nothing,
    and the state of the modifier keys to a character; the tables of kbd.h; and
    what a user who types on the keyboard can read from the console. *)

From stdpp Require Import base numbers list strings.
From S2P Require Import Prelude Spinlock Machine Pipe Console ConsoleTheorems.

Open Scope Z_scope.

Definition SHIFT : Z := 1.
Definition CTL : Z := 2.
Definition ALT : Z := 4.
Definition CAPSLOCK : Z := 8.
Definition NUMLOCK : Z := 16.
Definition SCROLLLOCK : Z := 32.
Definition E0ESC : Z := 64.

(** A table with the values [l] from index 0 on, and the values [m] at single
    indices. *)
Definition table (l : list Z) (m : list (Z * Z)) (i : Z) : Z :=
  match list_find (fun x => x.1 = i) m with
  | Some (_, (_, v)) => v
  | None => default 0 (l !! Z.to_nat i)
  end.

Definition shiftcode : Z -> Z := table [] [(29, CTL); (42, SHIFT); (54, SHIFT); (56, ALT); (157, CTL); (184, ALT)].
Definition togglecode : Z -> Z := table [] [(58, CAPSLOCK); (69, NUMLOCK); (70, SCROLLLOCK)].

(** The keys of the extended codes that have the same meaning in every map. *)
Definition ext_keys : list (Z * Z) :=
  [(200, 226); (208, 227); (201, 230); (209, 231); (203, 228); (205, 229); (151, 224); (207, 225); (210, 232); (211, 233)].

Definition normalmap : Z -> Z := table
  [0; 27; 49; 50; 51; 52; 53; 54;
   55; 56; 57; 48; 45; 61; 8; 9;
   113; 119; 101; 114; 116; 121; 117; 105;
   111; 112; 91; 93; 10; 0; 97; 115;
   100; 102; 103; 104; 106; 107; 108; 59;
   39; 96; 0; 92; 122; 120; 99; 118;
   98; 110; 109; 44; 46; 47; 0; 42;
   0; 32; 0; 0; 0; 0; 0; 0;
   0; 0; 0; 0; 0; 0; 0; 55;
   56; 57; 45; 52; 53; 54; 43; 49;
   50; 51; 48; 46; 0; 0; 0; 0] ((156, 10) :: (181, 47) :: ext_keys).

Definition shiftmap : Z -> Z := table
  [0; 27; 33; 64; 35; 36; 37; 94;
   38; 42; 40; 41; 95; 43; 8; 9;
   81; 87; 69; 82; 84; 89; 85; 73;
   79; 80; 123; 125; 10; 0; 65; 83;
   68; 70; 71; 72; 74; 75; 76; 58;
   34; 126; 0; 124; 90; 88; 67; 86;
   66; 78; 77; 60; 62; 63; 0; 42;
   0; 32; 0; 0; 0; 0; 0; 0;
   0; 0; 0; 0; 0; 0; 0; 55;
   56; 57; 45; 52; 53; 54; 43; 49;
   50; 51; 48; 46; 0; 0; 0; 0] ((156, 10) :: (181, 47) :: ext_keys).

(** [uchar] entries: [C('/')] is negative and wraps. *)
Definition ctlmap : Z -> Z := table
  [0; 0; 0; 0; 0; 0; 0; 0;
   0; 0; 0; 0; 0; 0; 0; 0;
   ctl 81; ctl 87; ctl 69; ctl 82; ctl 84; ctl 89; ctl 85; ctl 73;
   ctl 79; ctl 80; 0; 0; 13; 0; ctl 65; ctl 83;
   ctl 68; ctl 70; ctl 71; ctl 72; ctl 74; ctl 75; ctl 76; 0;
   0; 0; 0; ctl 92; ctl 90; ctl 88; ctl 67; ctl 86;
   ctl 66; ctl 78; ctl 77; 0; 0; u8 (ctl 47); 0; 0] ((156, 13) :: (181, u8 (ctl 47)) :: ext_keys).

(** [charcode[shift & (CTL | SHIFT)][data]]. *)
Definition charcode (sh data : Z) : Z :=
  if Z.testbit sh 1 then ctlmap data else if Z.testbit sh 0 then shiftmap data else normalmap data.

(** The character, 0 for none or -1 when the controller has no data, and the
    modifiers. *)
Definition kbdgetc (port : option Z) (shift : Z) : Z * Z :=
  match port with
  | None => (-1, shift)
  | Some data =>
      if data =? 224 then (0, Z.lor shift E0ESC)
      else if negb (Z.land data 128 =? 0) then
        let data := if negb (Z.land shift E0ESC =? 0) then data else Z.land data 127 in
        (0, Z.land shift (Z.lnot (Z.lor (shiftcode data) E0ESC)))
      else
        let '(data, shift) := if negb (Z.land shift E0ESC =? 0) then (Z.lor data 128, Z.land shift (Z.lnot E0ESC)) else (data, shift) in
        let shift := Z.lxor (Z.lor shift (shiftcode data)) (togglecode data) in
        let c := charcode (Z.land shift (Z.lor CTL SHIFT)) data in
        (if negb (Z.land shift CAPSLOCK =? 0) then
           if (97 <=? c) && (c <=? 122) then c - 32 else if (65 <=? c) && (c <=? 90) then c + 32 else c
         else c, shift)
  end.



(** ** Properties *)

(** Whatever the scan code and the modifiers, the tables are read within their
    bounds and the result is a byte; the modifiers stay seven bits. *)
Theorem kbdgetc_type data shift : 0 <= data < 256 -> 0 <= shift < 128 ->
  0 <= (kbdgetc (Some data) shift).1 < 256 /\ 0 <= (kbdgetc (Some data) shift).2 < 128.
Proof.
  intros Hd Hs. set (ok := fun p : Z * Z => (0 <=? p.1) && (p.1 <? 256) && (0 <=? p.2) && (p.2 <? 128)).
  assert (H : forallb (fun d => forallb (fun k => ok (kbdgetc (Some (Z.of_nat d)) (Z.of_nat k))) (seq 0 128)) (seq 0 256) = true) by (by vm_compute).
  rewrite forallb_forall in H. specialize (H (Z.to_nat data)). rewrite forallb_forall in H. specialize (H ltac:(apply in_seq; lia) (Z.to_nat shift) ltac:(apply in_seq; lia)).
  rewrite !Z2Nat.id in H by lia. unfold ok in H. lia.
Qed.

(** ** Typing *)

















#[local] Existing Instance demo_sched.
#[local] Existing Instance demo_inodes.

Lemma kbdgetc_type_witness : 0 <= (kbdgetc (Some 30) 9).1 < 256 /\ 0 <= (kbdgetc (Some 30) 9).2 < 128.
Proof. apply (kbdgetc_type 30 9); lia. Defined.

