(* ===== verification/Grep.v ===== *)
(** * grep (grep.c)

    The matcher of [grep] ([match], [matchhere], [matchstar]) on C strings,
    given without their terminating NUL, and the loop that reads a file into
    [buf] and writes the matching lines.  [read] is the system call: how many
    bytes it returns at a time is a parameter. *)

From stdpp Require Import base numbers list sets.
From S2P Require Import Prelude.

Open Scope Z_scope.

Definition CARET : Z := 94.
Definition STAR : Z := 42.
Definition DOLLAR : Z := 36.
Definition DOT : Z := 46.
Definition NEWLINE : Z := 10.

(** [*text++ == c || c == '.'] *)
Definition accepts (c t : Z) : bool := (t =? c) || (c =? DOT).

(** [matchstar(c, re, text)] with [here] for [matchhere(re, _)]. *)
Fixpoint matchstar (here : list Z -> bool) (c : Z) (text : list Z) : bool :=
  if here text then true
  else match text with
       | [] => false
       | t :: text => if accepts c t then matchstar here c text else false
       end.

Fixpoint matchhere (re text : list Z) : bool :=
  match re with
  | [] => true
  | c :: re1 =>
      match re1 with
      | c1 :: re2 =>
          if c1 =? STAR then matchstar (matchhere re2) c text
          else match text with
               | t :: text => if accepts c t then matchhere re1 text else false
               | [] => false
               end
      | [] =>
          if c =? DOLLAR then match text with [] => true | _ => false end
          else match text with
               | t :: text => if accepts c t then matchhere re1 text else false
               | [] => false
               end
      end
  end.

(** The [do] loop of [match]: [re] at every position of [text], the end
    included. *)
Fixpoint match_any (re text : list Z) : bool :=
  if matchhere re text then true
  else match text with [] => false | _ :: text => match_any re text end.

Definition match_ (re text : list Z) : bool :=
  match re with
  | c :: re1 => if c =? CARET then matchhere re1 text else match_any re text
  | [] => match_any re text
  end.

(** [strchr(p, '\n')] on the bytes of [buf] from [p] to the NUL: what is
    before the newline and what is after it. *)
Fixpoint strchr_nl (p : list Z) : option (list Z * list Z) :=
  match p with
  | [] => None
  | c :: p =>
      if c =? NEWLINE then Some ([], p)
      else if c =? 0 then None
      else match strchr_nl p with
           | Some (line, rest) => Some (c :: line, rest)
           | None => None
           end
  end.

(** The inner [while]: the bytes written and what is left from [p]. *)
Fixpoint grep_lines (fuel : nat) (pattern p : list Z) : outcome (list Z * list Z) :=
  match strchr_nl p with
  | None => Ok ([], p)
  | Some (line, rest) =>
      match fuel with
      | O => Err NoFuel
      | S fuel =>
          match grep_lines fuel pattern rest with
          | Ok (out, p) => Ok ((if match_ pattern line then line ++ [NEWLINE] else []) ++ out, p)
          | Err e => Err e
          end
      end
  end.

(** [sizeof(buf)] *)
Definition BUFSZ : nat := 1024.

Section grep.
(** [read rest n]: the bytes read with room for [n], and the rest of the file. *)
Context {F : Type} (read : F -> nat -> list Z * F).

(** The outer [while] with [buf] holding the [m] bytes [b]. *)
Fixpoint grep_loop (fuel : nat) (pattern : list Z) (fd : F) (b : list Z) : outcome (list Z) :=
  let '(bs, fd) := read fd (BUFSZ - length b - 1) in
  match bs with
  | [] => Ok []
  | _ =>
      match fuel with
      | O => Err NoFuel
      | S fuel =>
          let data := b ++ bs in
          match grep_lines (length data) pattern data with
          | Err e => Err e
          | Ok (out, p) =>
              let b := if (length p =? length data)%nat then [] else p in
              match grep_loop fuel pattern fd b with
              | Ok out' => Ok (out ++ out')
              | Err e => Err e
              end
          end
      end
  end.

Definition grep (fuel : nat) (pattern : list Z) (fd : F) : outcome (list Z) :=
  grep_loop fuel pattern fd [].
End grep.

(** ** What a pattern means

    A pattern is an optional [^], a sequence of characters ([.] for any) that
    may be starred, and an optional final [$]. *)

Record item := mkitem { it_char : Z; it_star : bool }.

Fixpoint parse_here (re : list Z) : list item * bool :=
  match re with
  | [] => ([], false)
  | c :: re1 =>
      match re1 with
      | c1 :: re2 =>
          if c1 =? STAR then let '(its, e) := parse_here re2 in (mkitem c true :: its, e)
          else let '(its, e) := parse_here re1 in (mkitem c false :: its, e)
      | [] => if c =? DOLLAR then ([], true) else ([mkitem c false], false)
      end
  end.

(** The strings a sequence of items denotes. *)
Inductive denotes : list item -> list Z -> Prop :=
  | den_nil : denotes [] []
  | den_one c its t w : accepts c t = true -> denotes its w -> denotes (mkitem c false :: its) (t :: w)
  | den_star c its w1 w2 : Forall (fun t => accepts c t = true) w1 -> denotes its w2 ->
      denotes (mkitem c true :: its) (w1 ++ w2).

(** [re] matches at the start of [text]. *)
Definition prefix_match (re text : list Z) : Prop :=
  exists mid post, text = mid ++ post /\ denotes (parse_here re).1 mid /\
    ((parse_here re).2 = true -> post = []).

Definition pattern_matches (re text : list Z) : Prop :=
  match re with
  | c :: re1 =>
      if c =? CARET then prefix_match re1 text
      else exists pre rest, text = pre ++ rest /\ prefix_match re rest
  | [] => exists pre rest, text = pre ++ rest /\ prefix_match re rest
  end.

(** The complete lines of a file, without their newlines. *)
Fixpoint lines (txt : list Z) : list (list Z) :=
  match txt with
  | [] => []
  | c :: txt =>
      if c =? NEWLINE then [] :: lines txt
      else match lines txt with
           | [] => []
           | l :: ls => (c :: l) :: ls
           end
  end.

(** What [grep] should print. *)
Definition matching_lines (re txt : list Z) : list Z :=
  concat ((fun l => if match_ re l then l ++ [NEWLINE] else []) <$> lines txt).

(** [read] of an ordinary file: all there is room for. *)
Definition read_full (rest : list Z) (n : nat) : list Z * list Z := (take n rest, drop n rest).

(** ** The matcher *)

Lemma matchstar_spec (here : list Z -> bool) c text :
  matchstar here c text = true <->
  exists w rest, text = w ++ rest /\ Forall (fun t => accepts c t = true) w /\ here rest = true.
Proof.
  induction text as [|t text IH]; simpl.
  - split.
    + intros H. exists [], []. destruct (here []) eqn:Hh; [done|done].
    + intros (w & rest & He & _ & Hh). symmetry in He. apply app_eq_nil in He as [-> ->]. by rewrite Hh.
  - split.
    + destruct (here (t :: text)) eqn:Hh; [by exists [], (t :: text)|].
      destruct (accepts c t) eqn:Ha; [|done]. rewrite IH. intros (w & rest & -> & Hw & Hr).
      exists (t :: w), rest. split_and!; [done| |done]. by constructor.
    + intros ([|t' w] & rest & He & Hw & Hr); simplify_eq/=; [by rewrite Hr|].
      apply Forall_cons in Hw as [Ha Hw]. destruct (here (t' :: w ++ rest)); [done|]. rewrite Ha. apply IH. eauto.
Qed.

Lemma denotes_nil_inv w : denotes [] w -> w = [].
Proof. by inversion 1. Qed.

Lemma denotes_one_inv c its w :
  denotes (mkitem c false :: its) w <-> exists t w', w = t :: w' /\ accepts c t = true /\ denotes its w'.
Proof.
  split; [inversion 1; eauto|]. intros (t & w' & -> & Ha & Hd). by constructor.
Qed.

Lemma denotes_star_inv c its w :
  denotes (mkitem c true :: its) w <->
  exists w1 w2, w = w1 ++ w2 /\ Forall (fun t => accepts c t = true) w1 /\ denotes its w2.
Proof.
  split; [inversion 1; eauto|]. intros (w1 & w2 & -> & Hw & Hd). by constructor.
Qed.

(** A character followed by the rest of the pattern. *)
Lemma prefix_one c re1 text its e :
  parse_here re1 = (its, e) ->
  (exists mid post, text = mid ++ post /\ denotes (mkitem c false :: its) mid /\ (e = true -> post = [])) <->
  exists t text', text = t :: text' /\ accepts c t = true /\ prefix_match re1 text'.
Proof.
  intros Hp. unfold prefix_match. rewrite Hp. simpl. split.
  - intros (mid & post & -> & (t & w & -> & Ha & Hd)%denotes_one_inv & He). simpl. eauto 10.
  - intros (t & text' & -> & Ha & mid & post & -> & Hd & He). exists (t :: mid), post.
    split_and!; [done| |done]. by constructor.
Qed.

Lemma match_one (re1 : list Z) c text :
  (forall text, matchhere re1 text = true <-> prefix_match re1 text) ->
  match text with
  | t :: text => if accepts c t then matchhere re1 text else false
  | [] => false
  end = true <->
  exists t text', text = t :: text' /\ accepts c t = true /\ prefix_match re1 text'.
Proof.
  intros IH. destruct text as [|t text]; [split; [done|]; by intros (? & ? & ? & _)|].
  destruct (accepts c t) eqn:Ha.
  - rewrite IH. split; [eauto|]. by intros (? & ? & [= <- <-] & _ & H).
  - split; [done|]. intros (? & ? & [= <- <-] & H & _). congruence.
Qed.

Lemma parse_here_cons2 c c1 re2 :
  parse_here (c :: c1 :: re2) =
  (if c1 =? STAR then (mkitem c true :: (parse_here re2).1, (parse_here re2).2)
   else (mkitem c false :: (parse_here (c1 :: re2)).1, (parse_here (c1 :: re2)).2)).
Proof.
  change (parse_here (c :: c1 :: re2)) with
    (if c1 =? STAR then let '(its, e) := parse_here re2 in (mkitem c true :: its, e)
     else let '(its, e) := parse_here (c1 :: re2) in (mkitem c false :: its, e)).
  by destruct (parse_here re2), (parse_here (c1 :: re2)).
Qed.

Lemma matchhere_cons2 c c1 re2 text :
  matchhere (c :: c1 :: re2) text =
  (if c1 =? STAR then matchstar (matchhere re2) c text
   else match text with
        | t :: text => if accepts c t then matchhere (c1 :: re2) text else false
        | [] => false
        end).
Proof. done. Qed.

Lemma matchhere_bound n : forall re text, (length re <= n)%nat ->
  matchhere re text = true <-> prefix_match re text.
Proof.
  induction n as [|n IH]; intros [|c re1] text Hn; simpl in Hn; try lia;
    try (split; [|done]; intros _; exists [], text; by split_and!; [|constructor|]).
  assert (forall text, matchhere re1 text = true <-> prefix_match re1 text) as IH1
    by (intros; apply IH; lia).
  destruct re1 as [|c1 re2].
  - cbn [matchhere]. unfold prefix_match. cbn [parse_here].
    destruct (Z.eqb_spec c DOLLAR) as [Hc|Hc]; simpl.
    + split.
      * destruct text; [|done]. intros _. exists [], []. by split_and!; [|constructor|].
      * intros (mid & post & -> & ->%denotes_nil_inv & Hp). by rewrite Hp.
    + rewrite (prefix_one c [] text [] false) by done. by apply (match_one []).
  - rewrite matchhere_cons2. unfold prefix_match. rewrite parse_here_cons2.
    destruct (Z.eqb_spec c1 STAR) as [Hs|Hs]; cbn [fst snd].
    + rewrite matchstar_spec. simpl in Hn.
      assert (forall text, matchhere re2 text = true <-> prefix_match re2 text) as IH2
        by (intros; apply IH; lia).
      split.
      * intros (w & rest & -> & Hw & (mid & post & -> & Hd & He)%IH2).
        exists (w ++ mid), post. split_and!; [by rewrite app_assoc|by constructor|done].
      * intros (mid & post & -> & (w1 & w2 & -> & Hw & Hd)%denotes_star_inv & He).
        exists w1, (w2 ++ post). split_and!; [by rewrite app_assoc|done|].
        apply IH2. by exists w2, post.
    + rewrite (prefix_one c (c1 :: re2) text) by apply surjective_pairing. by apply match_one.
Qed.

Lemma matchhere_spec re text : matchhere re text = true <-> prefix_match re text.
Proof. by apply (matchhere_bound (length re)). Qed.

Lemma match_any_spec re text :
  match_any re text = true <-> exists pre rest, text = pre ++ rest /\ prefix_match re rest.
Proof.
  induction text as [|t text IH]; cbn [match_any].
  - destruct (matchhere re []) eqn:Hh.
    + split; [|done]. intros _. exists [], []. split; [done|]. by apply matchhere_spec.
    + split; [done|]. intros (pre & rest & He & Hp). symmetry in He. apply app_eq_nil in He as [-> ->].
      apply matchhere_spec in Hp. congruence.
  - destruct (matchhere re (t :: text)) eqn:Hh.
    + split; [|done]. intros _. exists [], (t :: text). split; [done|]. by apply matchhere_spec.
    + rewrite IH. split.
      * intros (pre & rest & -> & Hp). by exists (t :: pre), rest.
      * intros ([|t' pre] & rest & He & Hp); simplify_eq/=; [|eauto].
        apply matchhere_spec in Hp. congruence.
Qed.

(** ** Lines *)

Lemma strchr_nl_spec p : 0 ∉ p ->
  match strchr_nl p with
  | Some (line, rest) => p = line ++ NEWLINE :: rest /\ NEWLINE ∉ line
  | None => NEWLINE ∉ p
  end.
Proof.
  induction p as [|c p IH]; cbn [strchr_nl]; intros H0; [set_solver|].
  apply not_elem_of_cons in H0 as [Hc H0]. specialize (IH H0).
  destruct (Z.eqb_spec c NEWLINE) as [->|Hn]; [split; [done|set_solver]|].
  destruct (Z.eqb_spec c 0); [done|]. destruct (strchr_nl p) as [[line rest]|]; [|set_solver].
  destruct IH as [-> Hl]. split; [done|set_solver].
Qed.

Lemma lines_line line rest : NEWLINE ∉ line -> lines (line ++ NEWLINE :: rest) = line :: lines rest.
Proof.
  induction line as [|c line IH]; intros Hn; simpl; [done|].
  apply not_elem_of_cons in Hn as [Hc Hn]. destruct (Z.eqb_spec c NEWLINE); [done|].
  by rewrite IH.
Qed.

Lemma lines_none p : NEWLINE ∉ p -> lines p = [].
Proof.
  induction p as [|c p IH]; intros Hn; simpl; [done|].
  apply not_elem_of_cons in Hn as [Hc Hn]. destruct (Z.eqb_spec c NEWLINE); [done|].
  by rewrite IH.
Qed.

Definition print_line (re l : list Z) : list Z := if match_ re l then l ++ [NEWLINE] else [].

Lemma matching_lines_app re txt txt' L :
  lines txt = L ++ lines txt' -> matching_lines re txt = concat (print_line re <$> L) ++ matching_lines re txt'.
Proof. intros H. unfold matching_lines. by rewrite H, fmap_app, concat_app. Qed.

(** The inner loop prints the complete lines and keeps what follows the last
    newline. *)
Lemma grep_lines_spec fuel re p : 0 ∉ p -> (length p <= fuel)%nat ->
  exists L q k, grep_lines fuel re p = Ok (concat (print_line re <$> L), q) /\ NEWLINE ∉ q /\
    p = k ++ q /\ (forall r, lines (p ++ r) = L ++ lines (q ++ r)).
Proof.
  revert p. induction fuel as [|fuel IH]; intros p H0 Hf.
  - destruct p; [|simpl in Hf; lia]. exists [], [], []. split_and!; [done|set_solver|done|done].
  - pose proof (strchr_nl_spec p H0) as Hs. cbn [grep_lines]. destruct (strchr_nl p) as [[line rest]|].
    + destruct Hs as [-> Hl]. destruct (IH rest) as (L & q & k & Hg & Hq & -> & HL).
      { set_solver. }
      { rewrite length_app in Hf. simpl in Hf. lia. }
      rewrite Hg. exists (line :: L), q, (line ++ NEWLINE :: k).
      split_and!; [done|done|by rewrite <-app_assoc|].
      intros r. by rewrite <-app_assoc, <-app_comm_cons, lines_line, HL by done.
    + exists [], p, []. by split_and!.
Qed.

(** A first line that fits has its newline in a full buffer. *)
Lemma no_newline_yet data rest :
  NEWLINE ∉ data -> Forall (fun l => (length l < length data)%nat) (lines (data ++ rest)) ->
  lines (data ++ rest) = [] /\ NEWLINE ∉ rest.
Proof.
  intros Hd Hf. destruct (decide (NEWLINE ∈ rest)) as [Hr|Hr].
  - exfalso. apply list_elem_of_split_l in Hr as (r1 & r2 & -> & Hr1).
    rewrite app_assoc, lines_line in Hf by (rewrite elem_of_app; tauto).
    apply Forall_cons in Hf as [Hf _]. rewrite length_app in Hf. lia.
  - split; [|done]. apply lines_none. rewrite elem_of_app. tauto.
Qed.

Lemma grep_loop_spec fuel re b rest :
  NEWLINE ∉ b -> (length b < BUFSZ - 1)%nat -> 0 ∉ b ++ rest -> (length rest <= fuel)%nat ->
  Forall (fun l => (length l < BUFSZ - 1)%nat) (lines (b ++ rest)) ->
  grep_loop read_full fuel re rest b = Ok (matching_lines re (b ++ rest)).
Proof.
  revert b rest. induction fuel as [|fuel IH]; intros b rest Hb Hlb H0 Hf Hl.
  - destruct rest; [|simpl in Hf; lia]. simpl. rewrite take_nil, app_nil_r.
    unfold matching_lines. by rewrite lines_none.
  - cbn [grep_loop read_full]. set (n := (BUFSZ - length b - 1)%nat).
    destruct (take n rest) as [|c bs] eqn:Ht.
    + assert (rest = []) as ->.
      { destruct rest; [done|]. destruct n eqn:Hn; [unfold n in Hn; lia|]. done. }
      rewrite app_nil_r. unfold matching_lines. by rewrite lines_none.
    + assert (length (drop n rest) <= fuel)%nat as Hfd.
      { rewrite <-(take_drop n rest), Ht, length_app in Hf. simpl in Hf. lia. }
      rewrite <-Ht. set (data := b ++ take n rest) in *.
      assert (b ++ rest = data ++ drop n rest) as Htd by (unfold data; by rewrite <-app_assoc, take_drop).
      rewrite Htd in H0, Hl |- *.
      destruct (grep_lines_spec (length data) re data) as (L & q & k & Hg & Hq & Hd & HL).
      { rewrite elem_of_app in H0. tauto. }
      { done. }
      rewrite Hg. rewrite HL in Hl. apply Forall_app in Hl as [_ Hl].
      rewrite (matching_lines_app re _ (q ++ drop n rest) L) by apply HL.
      destruct (Nat.eqb_spec (length q) (length data)) as [He|He].
      * assert (k = [] /\ q = data) as [-> ->].
        { rewrite Hd, length_app in He. destruct k; [|simpl in He; lia]. by rewrite Hd. }
        assert (lines (data ++ drop n rest) = [] /\ NEWLINE ∉ drop n rest) as [Hn Hr].
        { destruct (decide (drop n rest = [])) as [->|Hne].
          - rewrite app_nil_r. split; [by apply lines_none|apply not_elem_of_nil].
          - apply no_newline_yet; [done|]. eapply Forall_impl; [exact Hl|]. cbn beta. intros l Hll.
            assert (n < length rest)%nat.
            { destruct (decide (n < length rest)%nat); [done|]. destruct Hne. apply drop_ge. lia. }
            unfold data. rewrite length_app, length_take. unfold n in *. lia. }
        rewrite IH; [| |unfold BUFSZ; simpl; lia| |lia|].
        -- unfold matching_lines. by rewrite Hn, (lines_none ([] ++ _)).
        -- apply not_elem_of_nil.
        -- rewrite elem_of_app in H0. simpl. tauto.
        -- simpl. by rewrite (lines_none (drop n rest)).
      * rewrite IH; [done|done| | |lia|done].
        -- assert (length data = length k + length q)%nat by (rewrite Hd at 1; apply length_app).
           assert (length data <= BUFSZ - 1)%nat by (unfold data; rewrite length_app, length_take; unfold n; lia).
           lia.
        -- rewrite Hd in H0. rewrite !elem_of_app in H0. rewrite elem_of_app. tauto.
Qed.

(** [read] that returns at most one byte at a time, as a pipe may. *)
Definition read_short (rest : list Z) (n : nat) : list Z * list Z := read_full rest (min n 1).

Lemma grep_short_loop re txt : 0 ∉ txt ->
  grep_loop read_short (length txt) re txt [] = Ok (concat ((fun _ => print_line re []) <$> lines txt)).
Proof.
  induction txt as [|c txt IH]; intros H0; [done|].
  apply not_elem_of_cons in H0 as [Hc H0]. specialize (IH H0). cbn [length grep_loop].
  change (read_short (c :: txt) (BUFSZ - 0 - 1)) with ([c], txt). cbv beta iota.
  cbn [app length grep_lines strchr_nl lines]. destruct (Z.eqb_spec c NEWLINE) as [->|Hn].
  - cbn. rewrite IH. by rewrite app_nil_r.
  - destruct (Z.eqb_spec c 0); [done|]. cbn. rewrite IH. by destruct (lines txt).
Qed.

(** ** Properties *)

(** C25. The matcher implements the patterns it documents: [match] returns 1
    exactly when some part of the text, at its start for [^] and up to its end
    for [$], is a string the pattern denotes. *)
Theorem match_correct re text : match_ re text = true <-> pattern_matches re text.
Proof.
  unfold match_, pattern_matches. destruct re as [|c re1]; [apply match_any_spec|].
  destruct (c =? CARET); [apply matchhere_spec|apply match_any_spec].
Qed.

(** On a file without NULs whose lines are shorter than 1023 bytes, [grep]
    writes exactly the matching lines, in order, however they fall into the
    1024-byte buffer; a last line without newline is not examined. *)
Theorem grep_correct re txt :
  0 ∉ txt -> Forall (fun l => (length l < BUFSZ - 1)%nat) (lines txt) ->
  grep read_full (length txt) re txt = Ok (matching_lines re txt).
Proof. intros H0 Hl. apply (grep_loop_spec (length txt) re [] txt); [set_solver|unfold BUFSZ; simpl; lia|done..]. Qed.


(** A read that ends inside a line, as reads from a pipe or the console do,
    makes [grep] forget what it has read of that line when it started at the
    front of the buffer: with one-byte reads every line is matched as if it
    were empty. *)
Theorem grep_short_reads re txt : 0 ∉ txt ->
  grep read_short (length txt) re txt = Ok (concat ((fun _ => print_line re []) <$> lines txt)).
Proof. apply grep_short_loop. Qed.

(** ** Instances *)

(** [^a.*c$] against [abcabc]. *)
Definition demo_re : list Z := [94; 97; 46; 42; 99; 36].
Definition demo_txt : list Z := [97; 98; 99; 97; 98; 99; 10; 98; 99; 10; 97; 99; 10; 97].

Lemma grep_correct_witness :
  grep read_full (length demo_txt) demo_re demo_txt = Ok (matching_lines demo_re demo_txt) /\
  matching_lines demo_re demo_txt = [97; 98; 99; 97; 98; 99; 10; 97; 99; 10].
Proof.
  split; [|by vm_compute].
  apply (grep_correct demo_re demo_txt).
  - unfold demo_txt. intros H. rewrite !elem_of_cons, elem_of_nil in H. lia.
  - apply (bool_decide_unpack _). vm_compute. exact I.
Defined.

Lemma grep_short_reads_witness :
  grep read_short 3 [97] [97; 98; 10] = Ok [] /\ matching_lines [97] [97; 98; 10] = [97; 98; 10].
Proof.
  split; [|by vm_compute].
  apply (grep_short_reads [97] [97; 98; 10]). intros H. rewrite !elem_of_cons, elem_of_nil in H. lia.
Defined.
