(* ===== verification/Ide.v ===== *)
(** * The disk driver (ide.c)

    The buffers of the cache as the driver sees them, its request queue linked
    through [qnext], and the controller behind the I/O ports.  The controller
    follows the ATA interface the driver programs: writing the command port
    starts a command on the sector the address ports name, the status port shows
    it busy for a while, and the interrupt comes when the command is finished.
    [d_hist] records the sectors written, in order: a crash leaves a prefix of it
    on the disk.

    [iderw] sleeps on its buffer.  [bwait] is the sleep list of the process table
    as far as it concerns buffers; a [wakeup] takes the first process on it that
    sleeps on the buffer, whether that is [iderw]'s caller or a process that waits
    for the buffer in [bget].  [BufSleep] shows that the process table behaves so. *)

From stdpp Require Import base numbers list sets strings.
From S2P Require Import Prelude Spinlock Machine.

Open Scope Z_scope.

Definition B_BUSY : Z := 1.
Definition B_VALID : Z := 2.
Definition B_DIRTY : Z := 4.

Definition BSIZE : nat := 512.
Definition FSSIZE : Z := 2000.
Definition NBUF : nat := 30.

Definition IDE_BSY : Z := 128.
Definition IDE_DRDY : Z := 64.
Definition IDE_DF : Z := 32.
Definition IDE_ERR : Z := 1.
Definition IDE_CMD_READ : Z := 32.
Definition IDE_CMD_WRITE : Z := 48.

(** [struct buf] without its links, which are arrays of [bst]. *)
Record buf := mkbuf {
  b_flags : Z;
  b_dev : Z;
  b_blockno : Z;
  b_data : list Z;
}.

Definition set_flags (f : Z) (b : buf) : buf := mkbuf f (b_dev b) (b_blockno b) (b_data b).
Definition set_data (d : list Z) (b : buf) : buf := mkbuf (b_flags b) (b_dev b) (b_blockno b) d.

(** ** The controller *)

Record drive := mkdrive {
  d_reg : Z -> Z;
  d_cmd : option Z;
  d_out : list Z;
  d_in : list Z;
  d_err : bool;
  d_disk : Z -> Z -> list Z;
  d_hist : list (Z * Z * list Z);
  d_busy : nat;     (* how often the status port will still show it busy *)
  d_delay : nat;    (* the same, after a command *)
}.

Definition upd {A} (f : Z -> A) (k : Z) (v : A) : Z -> A := fun x => if x =? k then v else f x.

Definition outb (port v : Z) (d : drive) : drive :=
  if port =? 503 then
    mkdrive (d_reg d) (Some v) (d_out d) (d_in d) (d_err d) (d_disk d) (d_hist d) (d_delay d) (d_delay d)
  else
    mkdrive (upd (d_reg d) port v) (d_cmd d) (d_out d) (d_in d) (d_err d) (d_disk d) (d_hist d) (d_busy d) (d_delay d).

Definition outsl (bs : list Z) (d : drive) : drive :=
  mkdrive (d_reg d) (d_cmd d) bs (d_in d) (d_err d) (d_disk d) (d_hist d) (d_busy d) (d_delay d).

Definition set_busy (n : nat) (d : drive) : drive :=
  mkdrive (d_reg d) (d_cmd d) (d_out d) (d_in d) (d_err d) (d_disk d) (d_hist d) n (d_delay d).

(** [inb(0x1f7)]: busy, or ready, with the error bit after a failed read. *)
Definition inb_status (d : drive) : Z * drive :=
  match d_busy d with
  | S n => (IDE_BSY, set_busy n d)
  | O => (if d_err d then Z.lor IDE_DRDY IDE_ERR else IDE_DRDY, d)
  end.

(** The sector and the disk the address ports select. *)
Definition lba (d : drive) : Z :=
  d_reg d 499 + d_reg d 500 * 2 ^ 8 + d_reg d 501 * 2 ^ 16 + Z.land (d_reg d 502) 15 * 2 ^ 24.
Definition unit_of (d : drive) : Z := Z.land (Z.shiftr (d_reg d 502) 4) 1.

(** The command finishes. *)
Definition finish (d : drive) : drive :=
  match d_cmd d with
  | None => d
  | Some c =>
      if c =? IDE_CMD_WRITE then
        mkdrive (d_reg d) None (d_out d) (d_in d) (d_err d)
          (upd (d_disk d) (unit_of d) (upd (d_disk d (unit_of d)) (lba d) (d_out d)))
          (d_hist d ++ [(unit_of d, lba d, d_out d)]) (d_busy d) (d_delay d)
      else
        mkdrive (d_reg d) None (d_out d) (d_disk d (unit_of d) (lba d)) (d_err d) (d_disk d) (d_hist d) (d_busy d) (d_delay d)
  end.

(** ** The driver *)

(** Locks of the storage stack. *)
Definition IDELOCK : nat := 0.
Definition BCACHE : nat := 1.
Definition LOGLOCK : nat := 2.
Definition ICACHE : nat := 3.
Definition FTABLE : nat := 4.

Section Ide.
Context {W : Type} {SC : Sched W}.

(** [bcache], [idequeue] and the controller.  Index [NBUF] of the link arrays
    is [bcache.head].  [bwait] lists the processes that sleep on a buffer, in the
    order of the sleep list: whether it is the caller, and the buffer. *)
Record bst := mkbst {
  bs_mach : mach W;
  bufs : list buf;
  bprev : list nat;
  bnext : list nat;
  qnext : list (option nat);
  idequeue : option nat;
  havedisk1 : bool;
  drv : drive;
  bwait : list (bool * nat);
}.

Definition bst_eta (x : bst) : bst :=
  mkbst (bs_mach x) (bufs x) (bprev x) (bnext x) (qnext x) (idequeue x) (havedisk1 x) (drv x) (bwait x).
Definition set_bs_mach (v : mach W) (x : bst) : bst := ltac:(update bst_eta bs_mach v x).
Definition set_bufs (v : list buf) (x : bst) : bst := ltac:(update bst_eta bufs v x).
Definition set_bprev (v : list nat) (x : bst) : bst := ltac:(update bst_eta bprev v x).
Definition set_bnext (v : list nat) (x : bst) : bst := ltac:(update bst_eta bnext v x).
Definition set_qnext (v : list (option nat)) (x : bst) : bst := ltac:(update bst_eta qnext v x).
Definition set_idequeue (v : option nat) (x : bst) : bst := ltac:(update bst_eta idequeue v x).
Definition set_havedisk1 (v : bool) (x : bst) : bst := ltac:(update bst_eta havedisk1 v x).
Definition set_drv (v : drive) (x : bst) : bst := ltac:(update bst_eta drv v x).
Definition set_bwait (v : list (bool * nat)) (x : bst) : bst := ltac:(update bst_eta bwait v x).

#[export] Instance bst_mach : HasMach bst W := {|
  get_mach := bs_mach;
  put_mach := set_bs_mach;
|}.

#[export] Instance bst_mach_laws : HasMachLaws bst W.
Proof. split; [done|by intros []|done]. Qed.

Definition getb (i : nat) : M bst buf := fun s =>
  match bufs s !! i with Some b => Ok (b, s) | None => Err Fault end.
Definition modb (i : nat) (f : buf -> buf) : M bst unit := fun s =>
  match bufs s !! i with
  | Some b => Ok (tt, set_bufs (<[i := f b]> (bufs s)) s)
  | None => Err Fault
  end.
Definition mod_drv (f : drive -> drive) : M bst unit := modify (fun s => set_drv (f (drv s)) s).
Definition get_qnext (i : nat) : M bst (option nat) := fun s =>
  match qnext s !! i with Some q => Ok (q, s) | None => Err Fault end.
Definition put_qnext (i : nat) (q : option nat) : M bst unit := fun s =>
  match qnext s !! i with
  | Some _ => Ok (tt, set_qnext (<[i := q]> (qnext s)) s)
  | None => Err Fault
  end.

Definition read_status : M bst Z := fun s => let '(r, d) := inb_status (drv s) in Ok (r, set_drv d s).

(** [while(((r = inb(0x1f7)) & (IDE_BSY|IDE_DRDY)) != IDE_DRDY)]. *)
Fixpoint idewait_loop (fuel : nat) : M bst Z :=
  r ← read_status;
  if Z.land r (Z.lor IDE_BSY IDE_DRDY) =? IDE_DRDY then mret r
  else match fuel with
       | O => fail NoFuel
       | S fuel => idewait_loop fuel
       end.

(** The loop ends when the controller is no longer busy. *)
Definition idewait (checkerr : bool) : M bst Z :=
  n ← gets (fun s => d_busy (drv s));
  r ← idewait_loop n;
  mret (if checkerr && negb (Z.land r (Z.lor IDE_DF IDE_ERR) =? 0) then -1 else 0).

(** [wakeup(b)]: the first process that sleeps on the buffer. *)
Fixpoint wake_buf (i : nat) (l : list (bool * nat)) : list (bool * nat) :=
  match l with
  | [] => []
  | p :: l => if (p.2 =? i)%nat then l else p :: wake_buf i l
  end.

Definition wakeup_b (i : nat) : M bst unit :=
  wakeup_m (ChBuf i) ;;
  modify (fun s => set_bwait (wake_buf i (bwait s)) s).

Definition idestart (p : option nat) : M bst unit :=
  match p with
  | None => panic "idestart"
  | Some i =>
      b ← getb i;
      if FSSIZE <=? b_blockno b then panic "incorrect blockno" else
      let sector := b_blockno b in
      _ ← idewait false;
      mod_drv (outb 1014 0) ;;
      mod_drv (outb 498 1) ;;
      mod_drv (outb 499 (Z.land sector 255)) ;;
      mod_drv (outb 500 (Z.land (Z.shiftr sector 8) 255)) ;;
      mod_drv (outb 501 (Z.land (Z.shiftr sector 16) 255)) ;;
      mod_drv (outb 502 (Z.lor (Z.lor 224 (Z.shiftl (Z.land (b_dev b) 1) 4))
                               (Z.land (Z.shiftr sector 24) 15))) ;;
      if negb (Z.land (b_flags b) B_DIRTY =? 0) then
        mod_drv (outb 503 IDE_CMD_WRITE) ;;
        mod_drv (outsl (b_data b))
      else mod_drv (outb 503 IDE_CMD_READ)
  end.

(** The part of [ideintr] that fills in the buffer. *)
Definition complete (i : nat) (b : buf) : M bst unit :=
  (if Z.land (b_flags b) B_DIRTY =? 0 then
     r ← idewait true;
     when (0 <=? r) (d ← gets (fun s => d_in (drv s)); modb i (set_data d))
   else mret tt) ;;
  modb i (fun b => set_flags (Z.lor (b_flags b) B_VALID) b) ;;
  modb i (fun b => set_flags (Z.land (b_flags b) (Z.lnot B_DIRTY)) b).

Definition ideintr : M bst unit :=
  acquire_m IDELOCK ;;
  q ← gets idequeue;
  match q with
  | None => release_m IDELOCK
  | Some i =>
      n ← get_qnext i;
      modify (set_idequeue n) ;;
      b ← getb i;
      complete i b ;;
      wakeup_b i ;;
      (match n with None => mret tt | Some _ => idestart n end) ;;
      release_m IDELOCK
  end.

(** The loop that moves [pp] from [&idequeue] along the [qnext] links to the
    null pointer at the end: the buffer whose [qnext] that is, or [None] for
    [idequeue] itself. *)
Fixpoint queue_end (fuel : nat) (pp : option nat) (p : option nat) : M bst (option nat) :=
  match p with
  | None => mret pp
  | Some i =>
      match fuel with
      | O => fail NoFuel
      | S fuel => n ← get_qnext i; queue_end fuel (Some i) n
      end
  end.

(** The disk interrupt, when the pending command has finished. *)
Definition disk_interrupt : M bst unit :=
  c ← gets (fun s => d_cmd (drv s));
  match c with
  | None => fail Asleep
  | Some _ => mod_drv finish ;; ideintr
  end.

(** [sleep(b, &idelock)] up to the [swtch]: the caller is on the sleep list and
    [idelock] is free. *)
Definition sleep_b (i : nat) : M bst unit :=
  modify (fun s => set_bwait (bwait s ++ [(true, i)]) s) ;;
  release_m IDELOCK.

(** The caller sleeps. *)
Definition asleep (l : list (bool * nat)) : bool := existsb fst l.

(** Disk interrupts are taken until one wakes the caller; it sleeps for good
    when there is none to come. *)
Fixpoint until_woken (fuel : nat) : M bst unit :=
  l ← gets bwait;
  if asleep l then
    match fuel with
    | O => fail NoFuel
    | S fuel => disk_interrupt ;; until_woken fuel
    end
  else mret tt.

(** [while((b->flags & (B_VALID|B_DIRTY)) != B_VALID) sleep(b, &idelock)]. *)
Fixpoint iderw_wait (fuel : nat) (i : nat) : M bst unit :=
  b ← getb i;
  if Z.land (b_flags b) (Z.lor B_VALID B_DIRTY) =? B_VALID then mret tt
  else match fuel with
       | O => fail NoFuel
       | S fuel =>
           sleep_b i ;;
           until_woken (S NBUF) ;;
           acquire_m IDELOCK ;;
           iderw_wait fuel i
       end.

Definition iderw (i : nat) : M bst unit :=
  b ← getb i;
  if Z.land (b_flags b) B_BUSY =? 0 then panic "iderw: buf not busy" else
  if Z.land (b_flags b) (Z.lor B_VALID B_DIRTY) =? B_VALID then panic "iderw: nothing to do" else
  have ← gets havedisk1;
  if negb (b_dev b =? 0) && negb have then panic "iderw: ide disk 1 not present" else
  acquire_m IDELOCK ;;
  put_qnext i None ;;
  q ← gets idequeue;
  pp ← queue_end NBUF None q;
  (match pp with
   | None => modify (set_idequeue (Some i))
   | Some j => put_qnext j (Some i)
   end) ;;
  q ← gets idequeue;
  (if bool_decide (q = Some i) then idestart (Some i) else mret tt) ;;
  iderw_wait NBUF i ;;
  release_m IDELOCK.
End Ide.
Arguments bst W : clear implicits.

(** ** Flags *)

Definition f_busy (f : Z) : bool := negb (Z.land f B_BUSY =? 0).
Definition f_valid (f : Z) : bool := negb (Z.land f B_VALID =? 0).
Definition f_dirty (f : Z) : bool := negb (Z.land f B_DIRTY =? 0).

(** What is left of [flags] when the driver is done with a buffer. *)
Definition clean (f : Z) : Z := Z.land (Z.lor f B_VALID) (Z.lnot B_DIRTY).

Lemma flag_cases f : 0 <= f < 8 -> f = 0 \/ f = 1 \/ f = 2 \/ f = 3 \/ f = 4 \/ f = 5 \/ f = 6 \/ f = 7.
Proof. lia. Qed.

(** Case analysis on the eight values of a flags word. *)
Ltac flag_split H :=
  let H' := fresh in pose proof H as H'; apply flag_cases in H';
  destruct H' as [->|[->|[->|[->|[->|[->|[->| ->]]]]]]].

Lemma clean_flags f : 0 <= f < 8 ->
  0 <= clean f < 8 /\ f_busy (clean f) = f_busy f /\ f_valid (clean f) = true /\ f_dirty (clean f) = false.
Proof. intros H. flag_split H; vm_compute; intuition congruence. Qed.

Lemma done_test f : 0 <= f < 8 ->
  (Z.land f (Z.lor B_VALID B_DIRTY) =? B_VALID) = f_valid f && negb (f_dirty f).
Proof. intros H. by flag_split H. Qed.

Lemma dirty_test f : (Z.land f B_DIRTY =? 0) = negb (f_dirty f).
Proof. unfold f_dirty. by rewrite negb_involutive. Qed.

(** ** Addressing *)

Definition lba_of (sector dev : Z) : Z * Z :=
  let top := Z.lor (Z.lor 224 (Z.shiftl (Z.land dev 1) 4)) (Z.land (Z.shiftr sector 24) 15) in
  (Z.land (Z.shiftr top 4) 1,
   Z.land sector 255 + Z.land (Z.shiftr sector 8) 255 * 2 ^ 8 + Z.land (Z.shiftr sector 16) 255 * 2 ^ 16
   + Z.land top 15 * 2 ^ 24).

Lemma lba_of_check : forallb (fun d => forallb (fun b => bool_decide (lba_of b d = (d, b))) (seqZ 0 FSSIZE)) [0; 1] = true.
Proof. by vm_compute. Qed.

(** The address ports name the block, for the blocks of the file system. *)
Lemma lba_of_spec dev sector : dev = 0 \/ dev = 1 -> 0 <= sector < FSSIZE -> lba_of sector dev = (dev, sector).
Proof.
  intros Hd Hs. pose proof lba_of_check as H. rewrite forallb_forall in H.
  assert (In dev [0; 1]) as Hin by (destruct Hd as [->| ->]; simpl; auto).
  specialize (H dev Hin). rewrite forallb_forall in H. specialize (H sector).
  apply bool_decide_eq_true in H; [done|]. apply list_elem_of_In, elem_of_seqZ. lia.
Qed.

(** ** The queue *)

Fixpoint qseg (qn : list (option nat)) (h : option nat) (l : list nat) : Prop :=
  match l with
  | [] => h = None
  | i :: l => h = Some i /\ exists n, qn !! i = Some n /\ qseg qn n l
  end.

(** A request the driver can serve. *)
Record request (b : buf) : Prop := {
  rq_flags : 0 <= b_flags b < 8;
  rq_busy : f_busy (b_flags b) = true;
  rq_todo : f_valid (b_flags b) && negb (f_dirty (b_flags b)) = false;
  rq_dev : b_dev b = 0 \/ b_dev b = 1;
  rq_block : 0 <= b_blockno b < FSSIZE;
}.

(** The controller works on the request [b]. *)
Record started (b : buf) (d : drive) : Prop := {
  st_cmd : d_cmd d = Some (if f_dirty (b_flags b) then IDE_CMD_WRITE else IDE_CMD_READ);
  st_unit : unit_of d = b_dev b;
  st_lba : lba d = b_blockno b;
  st_out : f_dirty (b_flags b) = true -> d_out d = b_data b;
}.

Section spec.
Context {W : Type} {SC : Sched W} {E : error -> Prop}.
Implicit Types s : bst W.

(** The queue is the list [l], its head is being served. *)
Record ide_inv (h : option nat) (s : bst W) (l : list nat) : Prop := {
  iv_mach : holds h (bs_mach s);
  iv_lock : (IDELOCK < length (m_locks (bs_mach s)))%nat;
  iv_seg : qseg (qnext s) (idequeue s) l;
  iv_nodup : NoDup l;
  iv_length : length (qnext s) = length (bufs s);
  iv_max : (length (bufs s) <= NBUF)%nat;
  iv_request : forall i, i ∈ l -> exists b, bufs s !! i = Some b /\ request b;
  iv_started : match l with
               | [] => d_cmd (drv s) = None
               | i :: _ => forall b, bufs s !! i = Some b -> started b (drv s)
               end;
  iv_err : d_err (drv s) = false;
}.

(** ** What serving a request does *)

(** The contents of the disk, the writes it took, and the buffers. *)
Record io := mkio {
  io_bufs : list buf;
  io_disk : Z -> Z -> list Z;
  io_hist : list (Z * Z * list Z);
}.

Definition io_of (s : bst W) : io := mkio (bufs s) (d_disk (drv s)) (d_hist (drv s)).

Definition serve (x : io) (i : nat) : io :=
  match io_bufs x !! i with
  | None => x
  | Some b =>
      if f_dirty (b_flags b) then
        mkio (<[i := set_flags (clean (b_flags b)) b]> (io_bufs x))
          (upd (io_disk x) (b_dev b) (upd (io_disk x (b_dev b)) (b_blockno b) (b_data b)))
          (io_hist x ++ [(b_dev b, b_blockno b, b_data b)])
      else
        mkio (<[i := mkbuf (clean (b_flags b)) (b_dev b) (b_blockno b) (io_disk x (b_dev b) (b_blockno b))]>
                (io_bufs x)) (io_disk x) (io_hist x)
  end.

(** What the driver leaves alone. *)
Definition ide_frame (s s' : bst W) : Prop :=
  bprev s' = bprev s /\ bnext s' = bnext s /\ havedisk1 s' = havedisk1 s /\
  length (m_locks (bs_mach s')) = length (m_locks (bs_mach s)).

Lemma qseg_frame qn qn' h l :
  (forall i, i ∈ l -> qn' !! i = qn !! i) -> qseg qn h l -> qseg qn' h l.
Proof.
  revert h. induction l as [|i l IH]; intros h Hf; [done|].
  intros (-> & n & Hn & Hs). split; [done|]. exists n. rewrite Hf by set_solver.
  split; [done|]. apply IH; [|done]. set_solver.
Qed.

Lemma qseg_app qn h l i :
  qseg qn h l -> qn !! i = Some None -> i ∉ l -> NoDup l ->
  match l with
  | [] => True
  | _ => exists j l', l = l' ++ [j] /\ qseg (<[j := Some i]> qn) h (l ++ [i])
  end.
Proof.
  revert h. induction l as [|k l IH]; intros h Hs Hi Hni Hnd; [done|].
  destruct Hs as (-> & n & Hn & Hs). apply NoDup_cons in Hnd as [Hk Hnd].
  destruct l as [|k' l].
  - exists k, []. split; [done|]. simpl. split; [done|]. exists (Some i).
    rewrite list_lookup_insert_eq by by eapply lookup_lt_Some. split; [done|]. split; [done|].
    exists None. rewrite list_lookup_insert_ne by set_solver. done.
  - destruct (IH n Hs Hi) as (j & l' & Hl & Hq); [set_solver|done|].
    exists j, (k :: l'). split; [by rewrite Hl|]. simpl. split; [done|]. exists n.
    assert (j ∈ k' :: l) by (rewrite Hl; set_solver).
    rewrite list_lookup_insert_ne by (intros ->; set_solver). done.
Qed.

Lemma queue_end_run fuel pp h l s :
  qseg (qnext s) h l -> (length l <= fuel)%nat ->
  queue_end fuel pp h s = Ok (match last l with Some j => Some j | None => pp end, s).
Proof.
  revert fuel pp h. induction l as [|i l IH]; intros fuel pp h Hs Hf.
  - rewrite Hs. by destruct fuel.
  - destruct Hs as (-> & n & Hn & Hs). destruct fuel as [|fuel]; [simpl in Hf; lia|]. simpl.
    unfold mbind, M_bind, get_qnext. rewrite Hn. rewrite IH; [|done|simpl in Hf; lia].
    rewrite last_cons. by destruct (last l).
Qed.

(** The polling ends with the controller ready. *)
Lemma idewait_loop_run n s : d_busy (drv s) = n ->
  idewait_loop n s = Ok (if d_err (drv s) then Z.lor IDE_DRDY IDE_ERR else IDE_DRDY, set_drv (set_busy 0 (drv s)) s).
Proof.
  revert s. induction n as [|n IH]; intros s Hn; cbn [idewait_loop]; unfold mbind, M_bind, read_status, inb_status; rewrite Hn.
  - assert (Hs : set_drv (set_busy 0 (drv s)) s = set_drv (drv s) s) by (destruct s as [? ? ? ? ? ? ? [] ?]; simpl in *; by subst).
    rewrite Hs. by destruct (d_err (drv s)).
  - cbn [Z.land Z.eqb]. change (Z.land IDE_BSY (Z.lor IDE_BSY IDE_DRDY) =? IDE_DRDY) with false. cbn iota.
    rewrite IH by done. done.
Qed.

Lemma idewait_run c s : idewait c s = Ok (if c && d_err (drv s) then -1 else 0, set_drv (set_busy 0 (drv s)) s).
Proof.
  unfold idewait, mbind, M_bind, gets. rewrite idewait_loop_run by done. by destruct c, (d_err (drv s)).
Qed.

Lemma idestart_run i b s :
  bufs s !! i = Some b -> request b ->
  exists d, idestart (Some i) s = Ok (tt, set_drv d s) /\ started b d /\
    d_disk d = d_disk (drv s) /\ d_hist d = d_hist (drv s) /\ d_err d = d_err (drv s).
Proof.
  intros Hb [Hf _ _ Hd Hbl]. pose proof (lba_of_spec _ _ Hd Hbl) as Ha.
  unfold lba_of in Ha. injection Ha as Hu Hs.
  unfold idestart. erewrite bind_Ok by (unfold getb; by rewrite Hb).
  destruct (Z.leb_spec FSSIZE (b_blockno b)); [lia|]. erewrite bind_Ok by apply idewait_run.
  destruct s as [m bs bp bn qn iq hd dr bw]. destruct dr as [rg cm ou din er dk hi bu de].
  unfold mbind, M_bind, mod_drv, modify. simpl.
  fold (f_dirty (b_flags b)). destruct (f_dirty (b_flags b)) eqn:Hdi;
    (eexists; split; [reflexivity|]); (split; [|done]);
    (split; [by rewrite Hdi|exact Hu|exact Hs|by rewrite Hdi]).
Qed.

Lemma finish_started b d : started b d ->
  d_cmd (finish d) = None /\ d_err (finish d) = d_err d /\
  (f_dirty (b_flags b) = false -> d_in (finish d) = d_disk d (b_dev b) (b_blockno b)) /\
  (d_disk (finish d), d_hist (finish d)) =
    (if f_dirty (b_flags b) then
       (upd (d_disk d) (b_dev b) (upd (d_disk d (b_dev b)) (b_blockno b) (b_data b)),
        d_hist d ++ [(b_dev b, b_blockno b, b_data b)])
     else (d_disk d, d_hist d)).
Proof.
  intros [Hc Hu Hl Ho]. unfold finish. rewrite Hc, Hu, Hl. destruct (f_dirty (b_flags b)).
  - change (IDE_CMD_WRITE =? IDE_CMD_WRITE) with true. cbv iota. simpl. by rewrite Ho.
  - by change (IDE_CMD_READ =? IDE_CMD_WRITE) with false.
Qed.

(** The buffer the driver hands back. *)
Definition served (disk : Z -> Z -> list Z) (b : buf) : buf :=
  mkbuf (clean (b_flags b)) (b_dev b) (b_blockno b)
    (if f_dirty (b_flags b) then b_data b else disk (b_dev b) (b_blockno b)).

Lemma serve_run x i b : io_bufs x !! i = Some b ->
  serve x i = mkio (<[i := served (io_disk x) b]> (io_bufs x))
    (if f_dirty (b_flags b) then
       upd (io_disk x) (b_dev b) (upd (io_disk x (b_dev b)) (b_blockno b) (b_data b)) else io_disk x)
    (if f_dirty (b_flags b) then io_hist x ++ [(b_dev b, b_blockno b, b_data b)] else io_hist x).
Proof. intros Hb. unfold serve, served. rewrite Hb. by destruct (f_dirty (b_flags b)). Qed.

Lemma complete_run i b disk s :
  bufs s !! i = Some b -> d_err (drv s) = false ->
  (f_dirty (b_flags b) = false -> d_in (drv s) = disk (b_dev b) (b_blockno b)) ->
  complete i b s = Ok (tt, set_bufs (<[i := served disk b]> (bufs s))
    (if f_dirty (b_flags b) then s else set_drv (set_busy 0 (drv s)) s)).
Proof.
  intros Hb He Hin. pose proof (lookup_lt_Some _ _ _ Hb) as Hlt.
  unfold complete. rewrite dirty_test. unfold served. destruct (f_dirty (b_flags b)) eqn:Hd; cbn [negb].
  - destruct s as [m bs bp bn qn iq hd dr bw]. simpl in *. unfold mbind, M_bind, modb. simpl.
    rewrite Hb. simpl. rewrite list_lookup_insert_eq by done. simpl. by rewrite list_insert_insert_eq.
  - unfold mbind at 1, M_bind at 1. erewrite bind_Ok by apply idewait_run. rewrite andb_true_l, He.
    destruct s as [m bs bp bn qn iq hd dr bw]. simpl in *. unfold when, mbind, M_bind, gets, modb. simpl. rewrite Hb. simpl.
    rewrite !list_lookup_insert_eq by (rewrite ?length_insert; done). simpl.
    rewrite !list_insert_insert_eq, list_lookup_insert_eq by done. simpl. rewrite list_insert_insert_eq, <-Hin by done. done.
Qed.

(** The next request is started. *)
Lemma start_next l n s :
  qseg (qnext s) n l -> (forall j, j ∈ l -> exists c, bufs s !! j = Some c /\ request c) ->
  d_cmd (drv s) = None -> d_err (drv s) = false ->
  exists d, (match n with None => mret tt | Some _ => idestart n end) s = Ok (tt, set_drv d s) /\
    d_disk d = d_disk (drv s) /\ d_hist d = d_hist (drv s) /\ d_err d = false /\
    match l with
    | [] => d_cmd d = None
    | j :: _ => forall c, bufs s !! j = Some c -> started c d
    end.
Proof.
  intros Hq Hrq Hc He. destruct l as [|j l]; simpl in Hq.
  - subst n. exists (drv s). by destruct s.
  - destruct Hq as (-> & n' & Hn' & Hq). destruct (Hrq j) as (c & Hcj & Hrc); [left|].
    destruct (idestart_run j c s Hcj Hrc) as (d & Hid & Hsd & Hd1 & Hd2 & Hd3).
    exists d. split_and!; [done|done|done|congruence|]. intros c' Hc'. by simplify_eq.
Qed.

(** The disk interrupt serves the head of the queue and starts the next. *)
Lemma wp_disk_interrupt i l (Q : unit -> bst W -> Prop) s :
  ide_inv None s (i :: l) ->
  (forall s', ide_inv None s' l -> io_of s' = serve (io_of s) i -> ide_frame s s' ->
    bwait s' = wake_buf i (bwait s) -> Q tt s') ->
  wp E disk_interrupt Q s.
Proof.
  intros [Hm Hlk Hq Hnd Hlen Hmax Hrq Hst Her] HQ. destruct Hq as (Hh & n & Hn & Hq).
  destruct (Hrq i) as (b & Hb & Hr); [left|]. specialize (Hst b Hb). apply NoDup_cons in Hnd as [Hi Hnd].
  destruct (finish_started b (drv s) Hst) as (Hfc & Hfe & Hfi & Hfd).
  rewrite (serve_run _ _ b) in HQ by done. simpl in HQ.
  destruct s as [m bs bp bn qn iq hd dr bw]. simpl in *.
  unfold disk_interrupt. apply wp_bind, wp_gets. simpl. rewrite (st_cmd _ _ Hst).
  apply wp_bind, wp_modify. unfold ideintr. apply wp_bind, wp_acquire_m; [done..|].
  intros m1 Hm1 _ Hml. apply wp_bind, wp_gets. simpl in Hml |- *. rewrite Hh.
  apply wp_bind. eapply wp_Ok; [unfold get_qnext; simpl; by rewrite Hn|].
  apply wp_bind, wp_modify, wp_bind. eapply wp_Ok; [unfold getb; simpl; by rewrite Hb|].
  apply wp_bind. eapply wp_Ok; [by apply (complete_run i b (d_disk dr)); [|simpl; congruence|]|].
  set (d1 := if f_dirty (b_flags b) then finish dr else set_busy 0 (finish dr)).
  assert (Hd1 : d_cmd d1 = None /\ d_err d1 = false /\ d_disk d1 = d_disk (finish dr) /\ d_hist d1 = d_hist (finish dr)).
  { unfold d1. destruct (f_dirty (b_flags b)); simpl; split_and!; congruence. }
  destruct Hd1 as (Hc1 & He1 & Hk1 & Hh1).
  set (bs' := <[i := served (d_disk dr) b]> bs). set (m2 := mkmach (m_locks m1) (m_cpu m1) (wake (ChBuf i) (m_world m1))).
  assert (Hbs' : forall j, j ∈ l -> bs' !! j = bs !! j).
  { intros j Hj. apply list_lookup_insert_ne. intros ->. done. }
  assert (Hrq' : forall j, j ∈ l -> exists c, bs' !! j = Some c /\ request c).
  { intros j Hj. rewrite Hbs' by done. apply Hrq. by right. }
  apply wp_bind. unfold wakeup_b. apply wp_bind, wp_modify, wp_modify, wp_bind.
  destruct (start_next l n (mkbst m2 bs' bp bn qn n hd d1 (wake_buf i bw)) Hq Hrq' Hc1 He1) as (d & Hid & Hdd & Hdh & Hde & Hds).
  eapply wp_Ok.
  { match goal with |- _ ?s = _ => replace s with (mkbst m2 bs' bp bn qn n hd d1 (wake_buf i bw)) end; [exact Hid|].
    unfold d1. by destruct (f_dirty (b_flags b)). }
  apply wp_release_m; [by apply (holds_wake _ (ChBuf i))|].
  intros m3 Hm3 _ Hml3. simpl in Hml3, Hdd, Hdh, Hds |- *. apply HQ; [| | |done].
  - split; simpl; [done|lia|done|done| | |done|done|done]; by unfold bs'; rewrite length_insert.
  - unfold io_of. simpl. rewrite Hdd, Hdh, Hk1, Hh1.
    destruct (f_dirty (b_flags b)); by injection Hfd as -> ->.
  - split_and!; [done..|]. simpl. lia.
Qed.

Lemma wp_ide_release l (Q : unit -> bst W -> Prop) s :
  ide_inv (Some IDELOCK) s l ->
  (forall s', ide_inv None s' l -> io_of s' = io_of s -> ide_frame s s' -> bwait s' = bwait s -> Q tt s') ->
  wp E (release_m IDELOCK) Q s.
Proof.
  intros [Hm Hlk ? ? ? ? ? ? ?] HQ. apply wp_release_m; [done|]. intros m Hm' _ Hl. simpl in Hl.
  apply HQ; [|done| |done]; [split; simpl; [done|lia|done..]|]. by split_and!.
Qed.

Lemma wp_ide_acquire l (Q : unit -> bst W -> Prop) s :
  ide_inv None s l ->
  (forall s', ide_inv (Some IDELOCK) s' l -> io_of s' = io_of s -> ide_frame s s' -> bwait s' = bwait s ->
    idequeue s' = idequeue s -> qnext s' = qnext s -> Q tt s') ->
  wp E (acquire_m IDELOCK) Q s.
Proof.
  intros [Hm Hlk ? ? ? ? ? ? ?] HQ. apply wp_acquire_m; [done|done|]. intros m Hm' _ Hl. simpl in Hl.
  apply HQ; [|done| |done|done|done]; [split; simpl; [done|lia|done..]|]. by split_and!.
Qed.

Lemma wp_sleep_b l i (Q : unit -> bst W -> Prop) s :
  ide_inv (Some IDELOCK) s l ->
  (forall s', ide_inv None s' l -> io_of s' = io_of s -> ide_frame s s' -> bwait s' = bwait s ++ [(true, i)] -> Q tt s') ->
  wp E (sleep_b i) Q s.
Proof.
  intros Hs HQ. unfold sleep_b. apply wp_bind, wp_modify, (wp_ide_release l); [by destruct Hs|].
  intros s' Hs' Hio Hf Hw. by apply HQ.
Qed.

Lemma ide_frame_trans s1 s2 s3 : ide_frame s1 s2 -> ide_frame s2 s3 -> ide_frame s1 s3.
Proof. unfold ide_frame. intuition congruence. Qed.

Lemma serve_lookup_ne x i j : i <> j -> io_bufs (serve x i) !! j = io_bufs x !! j.
Proof.
  intros Hne. destruct (io_bufs x !! i) as [b|] eqn:Hb; [|unfold serve; by rewrite Hb].
  rewrite (serve_run _ _ b Hb). simpl. by apply list_lookup_insert_ne.
Qed.

Lemma serve_lookup x i b : io_bufs x !! i = Some b ->
  io_bufs (serve x i) !! i = Some (served (io_disk x) b).
Proof.
  intros Hb. rewrite (serve_run _ _ b Hb). simpl. apply list_lookup_insert_eq. by eapply lookup_lt_Some.
Qed.

(** Waking on another buffer leaves the last sleeper. *)
Lemma wake_buf_last i j c w : i <> j -> wake_buf j (w ++ [(c, i)]) = wake_buf j w ++ [(c, i)].
Proof.
  intros Hne. induction w as [|p w IH]; simpl; [by destruct (Nat.eqb_spec i j)|]. destruct (p.2 =? j)%nat; [done|]. by rewrite IH.
Qed.

Lemma wake_buf_none i w : i ∉ w.*2 -> wake_buf i w = w.
Proof.
  induction w as [|p w IH]; [done|]. intros [Hp Hw]%not_elem_of_cons. simpl.
  destruct (Nat.eqb_spec p.2 i); [by subst|]. by rewrite IH.
Qed.

(** It wakes the last sleeper when there is no other on the buffer, and otherwise
    not. *)
Lemma wake_buf_self i c w : wake_buf i (w ++ [(c, i)]) =
  if bool_decide (i ∈ w.*2) then wake_buf i w ++ [(c, i)] else w.
Proof.
  induction w as [|p w IH]; simpl; [by rewrite Nat.eqb_refl|]. destruct (Nat.eqb_spec p.2 i) as [<-|Hne].
  - by rewrite bool_decide_true by left.
  - rewrite IH. destruct (decide (i ∈ w.*2)) as [Hi|Hi].
    + by rewrite !bool_decide_true by (done || by right).
    + rewrite !bool_decide_false; [done| |done]. rewrite not_elem_of_cons. naive_solver.
Qed.

Lemma wake_buf_elem i j w : i <> j -> i ∈ (wake_buf j w).*2 <-> i ∈ w.*2.
Proof.
  intros Hne. induction w as [|p w IH]; simpl; [done|]. destruct (Nat.eqb_spec p.2 j) as [He|]; simpl; rewrite !elem_of_cons, ?IH; [|done].
  split; [by right|]. intros [->|?]; [|done]. by destruct Hne.
Qed.

Lemma wake_buf_awake i w : asleep w = false -> asleep (wake_buf i w) = false.
Proof.
  unfold asleep. induction w as [|p w IH]; simpl; [done|]. intros [H1 H2]%orb_false_iff. destruct (p.2 =? i)%nat; [done|]. simpl. by rewrite H1, IH.
Qed.

(** The processes left asleep when the requests [l] are served. *)
Definition woken (w : list (bool * nat)) (l : list nat) : list (bool * nat) := foldl (fun w j => wake_buf j w) w l.

Lemma asleep_last w i : asleep (w ++ [(true, i)]) = true.
Proof. unfold asleep. rewrite existsb_app. simpl. apply orb_true_r. Qed.

(** The interrupts of the requests before the caller's. *)
Lemma wp_until_woken_before l i w fuel (Q : unit -> bst W -> Prop) : forall s,
  ide_inv None s (l ++ [i]) -> bwait s = w ++ [(true, i)] ->
  (forall s', ide_inv None s' [i] -> io_of s' = foldl serve (io_of s) l -> ide_frame s s' ->
    bwait s' = woken w l ++ [(true, i)] -> wp E (until_woken fuel) Q s') ->
  wp E (until_woken (length l + fuel)) Q s.
Proof.
  revert w. induction l as [|j l IH]; intros w s Hs Hw HQ; [by apply HQ|]. cbn [length Nat.add until_woken].
  apply wp_bind, wp_gets. rewrite Hw, asleep_last. apply wp_bind, (wp_disk_interrupt j (l ++ [i])); [done|].
  intros s1 Hs1 Hio1 Hf1 Hw1. assert (Hij : i <> j).
  { intros <-. pose proof (iv_nodup _ _ _ Hs) as Hnd. apply NoDup_cons in Hnd as [Hn _]. apply Hn, elem_of_app. right. left. }
  rewrite Hw, wake_buf_last in Hw1 by done. apply (IH (wake_buf j w)); [done|done|].
  intros s2 Hs2 Hio2 Hf2 Hw2. apply HQ; [done|by rewrite Hio2, Hio1| |done]. unfold ide_frame in *. intuition congruence.
Qed.

Lemma woken_elem i w l : i ∉ l -> i ∈ (woken w l).*2 <-> i ∈ w.*2.
Proof.
  revert w. induction l as [|j l IH]; intros w Hi; [done|]. apply not_elem_of_cons in Hi as [Hne Hi]. simpl. unfold woken in IH.
  rewrite IH by done. by apply wake_buf_elem.
Qed.

Lemma woken_awake w l : asleep w = false -> asleep (woken w l) = false.
Proof. revert w. induction l as [|j l IH]; intros w Hw; [done|]. by apply IH, wake_buf_awake. Qed.

(** The caller wakes when its request has gone through the queue, if it is the only
    one to sleep on the buffer. *)
Lemma wp_until_woken l i w (Q : unit -> bst W -> Prop) s :
  ide_inv None s (l ++ [i]) -> bwait s = w ++ [(true, i)] -> i ∉ w.*2 -> asleep w = false -> (length l <= NBUF)%nat ->
  (forall s', ide_inv None s' [] -> io_of s' = foldl serve (io_of s) (l ++ [i]) -> ide_frame s s' ->
    bwait s' = woken w l -> Q tt s') ->
  wp E (until_woken (S NBUF)) Q s.
Proof.
  intros Hs Hw Hi Ha Hl HQ. replace (S NBUF) with (length l + S (NBUF - length l))%nat by lia.
  assert (Hil : i ∉ l).
  { pose proof (iv_nodup _ _ _ Hs) as Hnd. apply NoDup_app in Hnd as (_ & Hd & _). intros Hin. apply (Hd i Hin). left. }
  apply (wp_until_woken_before l i w); [done|done|]. intros s1 Hs1 Hio1 Hf1 Hw1. cbn [until_woken].
  apply wp_bind, wp_gets. rewrite Hw1, asleep_last. apply wp_bind, (wp_disk_interrupt i []); [done|].
  intros s2 Hs2 Hio2 Hf2 Hw2. rewrite Hw1, wake_buf_self, bool_decide_false in Hw2 by (by rewrite woken_elem).
  assert (H2 : Q tt s2).
  { apply HQ; [done| | |done]; [rewrite foldl_app; simpl; by rewrite Hio2, Hio1|]. unfold ide_frame in *. intuition congruence. }
  destruct (NBUF - length l)%nat; cbn [until_woken]; apply wp_bind, wp_gets; rewrite Hw2, (woken_awake w l Ha); by apply wp_ret.
Qed.

(** The caller's test after it woke. *)
Lemma wp_iderw_done fuel i b (Q : unit -> bst W -> Prop) s : bufs s !! i = Some b -> 0 <= b_flags b < 8 ->
  f_valid (b_flags b) = true -> f_dirty (b_flags b) = false -> Q tt s -> wp E (iderw_wait fuel i) Q s.
Proof.
  intros Hb Hf Hv Hd HQ. destruct fuel; cbn [iderw_wait]; (apply wp_bind; eapply wp_Ok; [unfold getb; by rewrite Hb|]);
    rewrite done_test, Hv, Hd by done; by apply wp_ret.
Qed.

Lemma serve_all_lookup l x i b : i ∉ l -> io_bufs x !! i = Some b -> io_bufs (foldl serve x l) !! i = Some b.
Proof.
  revert x. induction l as [|j l IH]; intros x Hi Hx; [done|]. apply not_elem_of_cons in Hi as [Hne Hi]. simpl.
  apply IH; [done|]. by rewrite serve_lookup_ne.
Qed.

(** The process sleeps until its request has gone through the queue. *)
Lemma wp_iderw_wait fuel l i (Q : unit -> bst W -> Prop) s :
  ide_inv (Some IDELOCK) s (l ++ [i]) -> (0 < fuel)%nat -> (length l <= NBUF)%nat -> i ∉ (bwait s).*2 -> asleep (bwait s) = false ->
  (forall s', ide_inv (Some IDELOCK) s' [] -> io_of s' = foldl serve (io_of s) (l ++ [i]) ->
    ide_frame s s' -> bwait s' = woken (bwait s) l -> Q tt s') ->
  wp E (iderw_wait fuel i) Q s.
Proof.
  intros Hs Hf Hl Hi Ha HQ. destruct fuel as [|fuel]; [lia|].
  assert (Hin : i ∈ l ++ [i]) by (apply elem_of_app; right; left).
  destruct (iv_request _ _ _ Hs i Hin) as (b & Hb & Hr). pose proof Hr as [Hfl _ Htodo _ _].
  assert (Hil : i ∉ l).
  { pose proof (iv_nodup _ _ _ Hs) as Hnd. apply NoDup_app in Hnd as (_ & Hd & _). intros Hx. apply (Hd i Hx). left. }
  cbn [iderw_wait]. apply wp_bind. eapply wp_Ok; [unfold getb; by rewrite Hb|]. rewrite done_test, Htodo by done.
  apply wp_bind, (wp_sleep_b (l ++ [i])); [done|]. intros s1 Hs1 Hio1 Hf1 Hw1.
  apply wp_bind, (wp_until_woken l i (bwait s)); [done..|]. intros s2 Hs2 Hio2 Hf2 Hw2.
  apply wp_bind, (wp_ide_acquire []); [done|]. intros s3 Hs3 Hio3 Hf3 Hw3 _ _.
  destruct (clean_flags _ Hfl) as (Hcr & _ & Hcv & Hcd).
  assert (Hb3 : bufs s3 !! i = Some (served (io_disk (foldl serve (io_of s) l)) b)).
  { change (bufs s3) with (io_bufs (io_of s3)). rewrite Hio3, Hio2, Hio1, foldl_app. by apply serve_lookup, serve_all_lookup. }
  eapply wp_iderw_done; [exact Hb3|done..|]. apply HQ; [done|by rewrite Hio3, Hio2, Hio1|eauto using ide_frame_trans|congruence].
Qed.

Lemma queue_length l i s :
  ide_inv None s l -> i ∉ l -> (i < length (bufs s))%nat -> (length l < NBUF)%nat.
Proof.
  intros Hs Hi Hlt. assert (length (i :: l) <= length (bufs s))%nat as H.
  { apply NoDup_bounded_length; [constructor; [done|apply Hs]|].
    intros x [->|Hx]%elem_of_cons; [done|].
    destruct (iv_request _ _ _ Hs x Hx) as (b & Hb & _). by apply lookup_lt_Some in Hb. }
  pose proof (iv_max _ _ _ Hs). simpl in H. lia.
Qed.

(** [iderw] up to its loop: the request is queued last. *)
Lemma wp_iderw_queue l i b (Q : unit -> bst W -> Prop) s :
  ide_inv None s l -> bufs s !! i = Some b -> request b -> i ∉ l -> b_dev b = 0 \/ havedisk1 s = true ->
  (forall s', ide_inv (Some IDELOCK) s' (l ++ [i]) -> io_of s' = io_of s -> ide_frame s s' -> bwait s' = bwait s ->
    wp E (iderw_wait NBUF i ;; release_m IDELOCK) Q s') ->
  wp E (iderw i) Q s.
Proof.
  intros Hs Hb Hr Hi Hd HQ. pose proof (lookup_lt_Some _ _ _ Hb) as Hlt.
  pose proof (queue_length l i s Hs Hi Hlt) as Hql. pose proof Hr as [Hfl Hbusy Htodo _ _].
  unfold iderw. apply wp_bind. eapply wp_Ok; [unfold getb; by rewrite Hb|].
  unfold f_busy in Hbusy. apply negb_true_iff in Hbusy. rewrite Hbusy, done_test, Htodo by done.
  apply wp_bind, wp_gets. replace (negb (b_dev b =? 0) && negb (havedisk1 s)) with false
    by (destruct Hd as [->| ->]; [done|by rewrite andb_false_r]).
  apply wp_bind, (wp_ide_acquire l); [done|]. intros s1 Hs1 Hio1 Hf1 Hw1 Hq1 Hn1.
  assert (bufs s1 = bufs s) as Hbs1 by (by injection Hio1).
  pose proof Hs1 as [Hm1 Hlk1 Hseg1 Hnd1 Hlen1 Hmax1 Hrq1 Hst1 Her1].
  destruct (lookup_lt_is_Some_2 (qnext s1) i) as [q0 Hq0]; [by rewrite Hlen1, Hbs1|].
  apply wp_bind. eapply wp_Ok; [unfold put_qnext; by rewrite Hq0|].
  apply wp_bind, wp_gets. simpl idequeue. apply wp_bind.
  assert (qseg (<[i := None]> (qnext s1)) (idequeue s1) l) as Hseg2.
  { eapply qseg_frame; [|done]. intros j Hj. apply list_lookup_insert_ne. by intros ->. }
  eapply wp_Ok; [apply queue_end_run with (l := l); [done|lia]|].
  assert (NoDup (l ++ [i])) as Hnd'.
  { apply NoDup_app. split_and!; [done| |apply NoDup_singleton].
    intros x Hx Hxi%list_elem_of_singleton. by subst. }
  assert (forall j, j ∈ l ++ [i] -> exists c, bufs s1 !! j = Some c /\ request c) as Hrq'.
  { intros j [Hj|Hj%list_elem_of_singleton]%elem_of_app; [by apply Hrq1|]. subst j. exists b. by rewrite Hbs1. }
  assert (forall s2, ide_inv (Some IDELOCK) s2 (l ++ [i]) -> io_of s2 = io_of s1 -> ide_frame s1 s2 -> bwait s2 = bwait s1 ->
    wp E (iderw_wait NBUF i ;; release_m IDELOCK) Q s2) as Hfin.
  { intros s2 Hs2 Hio2 Hf2 Hw2. apply HQ; [done|congruence|eauto using ide_frame_trans|congruence]. }
  destruct s1 as [m bs bp bn qn iq hdk dr bw]. simpl in *. subst bs.
  destruct l as [|k l]; simpl in Hseg2.
  - subst iq. simpl last. cbv iota. apply wp_bind, wp_modify, wp_bind, wp_gets. simpl idequeue.
    rewrite bool_decide_true by done. simpl.
    destruct (idestart_run i b (mkbst m (bufs s) bp bn (<[i := None]> qn) (Some i) hdk dr bw) Hb Hr)
      as (d & Hrun & Hsd & Hd1 & Hd2 & Hd3).
    apply wp_bind. eapply wp_Ok; [exact Hrun|]. apply Hfin; [| | |done].
    + split; simpl; try done; [|by rewrite length_insert| |].
      * split; [done|]. exists None. split; [|done]. apply list_lookup_insert_eq. by rewrite Hlen1.
      * intros c Hc. by simplify_eq.
      * simpl in Hd3. congruence.
    + unfold io_of. simpl in *. by rewrite Hd1, Hd2.
    + by split_and!.
  - destruct (qseg_app (<[i := None]> qn) iq (k :: l) i) as (j & l' & Hl & Hseg3); try done.
    { apply list_lookup_insert_eq. by rewrite Hlen1. }
    rewrite Hl, last_snoc. cbv iota. apply wp_bind.
    assert (j ∈ k :: l) as Hj by (rewrite Hl; apply elem_of_app; right; left).
    destruct (lookup_lt_is_Some_2 (<[i := None]> qn) j) as [qj Hqj].
    { rewrite length_insert, Hlen1. destruct (Hrq1 j Hj) as (c & Hc & _). by eapply lookup_lt_Some. }
    eapply wp_Ok; [unfold put_qnext; simpl; by rewrite Hqj|].
    apply wp_bind, wp_gets. simpl idequeue. destruct Hseg2 as [-> _].
    rewrite bool_decide_false by (intros [= ->]; apply Hi; left). apply wp_bind, wp_ret, Hfin; [|done| |done].
    + split; simpl; try done; by rewrite !length_insert.
    + by split_and!.
Qed.

(** [iderw] returns when its request, queued last, has been served after all
    the others. *)
Lemma wp_iderw l i b (Q : unit -> bst W -> Prop) s :
  ide_inv None s l -> bufs s !! i = Some b -> request b -> i ∉ l ->
  b_dev b = 0 \/ havedisk1 s = true -> i ∉ (bwait s).*2 -> asleep (bwait s) = false ->
  (forall s', ide_inv None s' [] -> io_of s' = foldl serve (io_of s) (l ++ [i]) ->
    ide_frame s s' -> bwait s' = woken (bwait s) l -> Q tt s') ->
  wp E (iderw i) Q s.
Proof.
  intros Hs Hb Hr Hi Hd Hw Ha HQ. pose proof (queue_length l i s Hs Hi (lookup_lt_Some _ _ _ Hb)) as Hql.
  eapply wp_iderw_queue; [done..|]. intros s2 Hs2 Hio2 Hf2 Hw2. rewrite <-Hw2 in Hw, Ha.
  apply wp_bind, (wp_iderw_wait NBUF l); [done|unfold NBUF; lia|lia|done|done|].
  intros s3 Hs3 Hio3 Hf3 Hw3. apply (wp_ide_release []); [done|]. intros s4 Hs4 Hio4 Hf4 Hw4.
  apply HQ; [done|congruence|eauto using ide_frame_trans|congruence].
Qed.
End spec.

(** ** A lost wake-up *)

Section lost.
Context {W : Type} {SC : Sched W}.
Implicit Types s : bst W.

(** The caller sleeps for good when another process sleeps on the buffer before
    it: the wake-up is spent on that one. *)
Lemma until_woken_lost l i w s :
  ide_inv None s (l ++ [i]) -> bwait s = w ++ [(true, i)] -> i ∈ w.*2 -> (length l < NBUF)%nat ->
  wp (eq Asleep) (until_woken (S NBUF)) (fun _ _ => False) s.
Proof.
  intros Hs Hw Hi Hl. replace (S NBUF) with (length l + S (S (NBUF - length l - 1)))%nat by lia.
  assert (Hil : i ∉ l).
  { pose proof (iv_nodup _ _ _ Hs) as Hnd. apply NoDup_app in Hnd as (_ & Hd & _). intros Hin. apply (Hd i Hin). left. }
  apply (wp_until_woken_before l i w); [done|done|]. intros s1 Hs1 _ _ Hw1. cbn [until_woken].
  apply wp_bind, wp_gets. rewrite Hw1, asleep_last. apply wp_bind, (wp_disk_interrupt i []); [done|].
  intros s2 Hs2 _ _ Hw2. rewrite Hw1, wake_buf_self, bool_decide_true in Hw2 by (by rewrite woken_elem).
  apply wp_bind, wp_gets. rewrite Hw2, asleep_last. apply wp_bind. unfold disk_interrupt.
  apply wp_bind, wp_gets. rewrite (iv_started _ _ _ Hs2 : d_cmd (drv s2) = None). done.
Qed.

Lemma iderw_lost l i b s :
  ide_inv None s l -> bufs s !! i = Some b -> request b -> i ∉ l -> b_dev b = 0 \/ havedisk1 s = true ->
  i ∈ (bwait s).*2 -> iderw i s = Err Asleep.
Proof.
  intros Hs Hb Hr Hi Hd Hw. pose proof (queue_length l i s Hs Hi (lookup_lt_Some _ _ _ Hb)) as Hql.
  assert (H : wp (eq Asleep) (iderw i) (fun _ _ => False) s).
  { eapply wp_iderw_queue; [done..|]. intros s1 Hs1 Hio1 _ Hw1. rewrite <-Hw1 in Hw. change NBUF with (S 29).
    assert (Hb1 : bufs s1 !! i = Some b) by (injection Hio1 as ->; done). pose proof Hr as [Hfl _ Htodo _ _].
    cbn [iderw_wait]. apply wp_bind, wp_bind. eapply wp_Ok; [unfold getb; by rewrite Hb1|]. rewrite done_test, Htodo by done.
    apply wp_bind, (wp_sleep_b (l ++ [i])); [done|]. intros s2 Hs2 _ _ Hw2.
    apply wp_bind. eapply wp_mono; [by eapply (until_woken_lost l i (bwait s1))|done]. }
  unfold wp in H. destruct (iderw i s) as [[]|e]; [done|]. by subst.
Qed.
End lost.

(** ** Properties *)

(** C26. [iderw], called while the requests [l] are queued.  When no other process
    sleeps on its buffer it returns: it is served after [l], in order, each write
    reaching the disk and each read filling its buffer with the block as the
    earlier writes left it; it then has a valid, clean buffer, and one sleeper of
    each request of [l] was woken.  When a process sleeps on the buffer already,
    as one that waits for it in [bget] does, the one wake-up goes to that process
    and [iderw] never returns. *)
Theorem iderw_fifo {W} {SC : Sched W} l i b (s : bst W) :
  ide_inv None s l -> bufs s !! i = Some b -> request b -> i ∉ l ->
  b_dev b = 0 \/ havedisk1 s = true -> asleep (bwait s) = false ->
  if bool_decide (i ∈ (bwait s).*2) then iderw i s = Err Asleep
  else exists s', iderw i s = Ok (tt, s') /\ ide_inv None s' [] /\
    io_of s' = foldl serve (io_of s) (l ++ [i]) /\ bwait s' = woken (bwait s) l /\
    exists b', bufs s' !! i = Some b' /\ f_valid (b_flags b') = true /\ f_dirty (b_flags b') = false.
Proof.
  intros Hs Hb Hr Hi Hd Ha. case_bool_decide as Hw; [by eapply iderw_lost|].
  destruct (wp_no_error (iderw i) (fun _ s' => ide_inv None s' [] /\
    io_of s' = foldl serve (io_of s) (l ++ [i]) /\ bwait s' = woken (bwait s) l /\
    exists b', bufs s' !! i = Some b' /\ f_valid (b_flags b') = true /\ f_dirty (b_flags b') = false) s)
    as ([] & s' & Hrun & H); [|eauto].
  eapply wp_iderw; [done..|]. intros s' Hs' Hio _ Hw'. split_and!; [done..|].
  change (bufs s') with (io_bufs (io_of s')). rewrite Hio, foldl_app. simpl.
  eexists. split; [by apply serve_lookup, serve_all_lookup|]. simpl.
  destruct (clean_flags (b_flags b)) as (_ & _ & ? & ?); [apply Hr|done].
Qed.
