(* ===== verification/Store.v ===== *)
(** * The buffer cache as its clients see it

    The log and the file system use disk blocks through buffers: [bread] gives
    exclusive use of a block's contents, [bwrite] sends them to the disk,
    [brelse] gives the buffer back.  [BufferCache] lists the calls and
    [BufferCacheSpec] what they promise, on an abstract [store]: the disk, the
    writes it took in order, the current contents of every block ([st_view]),
    the blocks kept in memory with unwritten contents ([st_pinned]), and the
    buffers in use ([st_held]).  [Bio] is the implementation. *)

From stdpp Require Import base numbers list gmap strings.
From S2P Require Import Prelude Machine Ide.

Open Scope Z_scope.

Definition ROOTDEV : Z := 1.

Record store := mkstore {
  st_disk : Z -> list Z;
  st_hist : list (Z * list Z);
  st_view : Z -> list Z;
  st_pinned : gset Z;
  st_held : gmap nat Z;
}.

Definition set_view (v : Z -> list Z) (a : store) : store :=
  mkstore (st_disk a) (st_hist a) v (st_pinned a) (st_held a).
Definition set_pinned (p : gset Z) (a : store) : store :=
  mkstore (st_disk a) (st_hist a) (st_view a) p (st_held a).
Definition set_held (h : gmap nat Z) (a : store) : store :=
  mkstore (st_disk a) (st_hist a) (st_view a) (st_pinned a) h.

(** Block [b] written to the disk with contents [d]. *)
Definition written (b : Z) (d : list Z) (a : store) : store :=
  mkstore (upd (st_disk a) b d) (st_hist a ++ [(b, d)]) (st_view a) (st_pinned a ∖ {[b]}) (st_held a).

Definition held_blocks (a : store) : gset Z := list_to_set (snd <$> map_to_list (st_held a)).

(** Blocks whose buffers cannot be recycled. *)
Definition in_use (a : store) : gset Z := st_pinned a ∪ held_blocks a.

Lemma upd_same {A} (f : Z -> A) b x : upd f b x b = x.
Proof. unfold upd. by rewrite Z.eqb_refl. Qed.

Lemma upd_other {A} (f : Z -> A) b x c : c <> b -> upd f b x c = f c.
Proof. unfold upd. intros. by destruct (Z.eqb_spec c b). Qed.

Lemma elem_held_blocks a b : b ∈ held_blocks a <-> exists i, st_held a !! i = Some b.
Proof.
  unfold held_blocks. rewrite elem_of_list_to_set, list_elem_of_fmap. split.
  - intros ([i b'] & -> & Hin%elem_of_map_to_list). eauto.
  - intros [i Hi%elem_of_map_to_list]. by exists (i, b).
Qed.

(** The calls.  A buffer is named by its index in [bcache.buf]. *)
Class BufferCache (S : Type) := {
  bc_initlock : nat -> M S unit;
  bc_acquire : nat -> M S unit;
  bc_release : nat -> M S unit;
  bc_wakeup : wchan -> M S unit;
  bread : Z -> Z -> M S nat;
  bwrite : nat -> M S unit;
  brelse : nat -> M S unit;
  b_get : nat -> M S (list Z);
  b_put : nat -> list Z -> M S unit;
  b_no : nat -> M S Z;
  b_pin : nat -> M S unit;
}.

(** What they promise.  [represents h s a]: the concrete state [s] stands for
    [a], with only the lock [h] held. *)
Class BufferCacheSpec (S : Type) {BC : BufferCache S} := {
  represents : option nat -> S -> store -> Prop;
  bc_initlock_ok l s a : l = LOGLOCK \/ l = ICACHE \/ l = FTABLE -> represents None s a ->
    exists s', bc_initlock l s = Ok (tt, s') /\ represents None s' a;
  bc_acquire_ok l s a : l = LOGLOCK \/ l = ICACHE \/ l = FTABLE -> represents None s a ->
    exists s', bc_acquire l s = Ok (tt, s') /\ represents (Some l) s' a;
  bc_release_ok l s a : represents (Some l) s a ->
    exists s', bc_release l s = Ok (tt, s') /\ represents None s' a;
  bc_wakeup_ok ch h s a : represents h s a ->
    exists s', bc_wakeup ch s = Ok (tt, s') /\ represents h s' a;
  bread_ok b s a : represents None s a -> 0 <= b < FSSIZE -> b ∉ held_blocks a ->
    b ∈ st_pinned a \/ (size (in_use a) < NBUF)%nat ->
    exists i s', bread ROOTDEV b s = Ok (i, s') /\ st_held a !! i = None /\
      represents None s' (set_held (<[i := b]> (st_held a)) a);
  b_get_ok i b h s a : represents h s a -> st_held a !! i = Some b -> b_get i s = Ok (st_view a b, s);
  b_put_ok i b d h s a : represents h s a -> st_held a !! i = Some b -> length d = BSIZE ->
    exists s', b_put i d s = Ok (tt, s') /\ represents h s' (set_view (upd (st_view a) b d) a);
  b_no_ok i b h s a : represents h s a -> st_held a !! i = Some b -> b_no i s = Ok (b, s);
  b_pin_ok i b h s a : represents h s a -> st_held a !! i = Some b ->
    exists s', b_pin i s = Ok (tt, s') /\ represents h s' (set_pinned ({[b]} ∪ st_pinned a) a);
  bwrite_ok i b s a : represents None s a -> st_held a !! i = Some b ->
    exists s', bwrite i s = Ok (tt, s') /\ represents None s' (written b (st_view a b) a);
  brelse_ok i b s a : represents None s a -> st_held a !! i = Some b ->
    b ∈ st_pinned a \/ st_view a b = st_disk a b ->
    exists s', brelse i s = Ok (tt, s') /\ represents None s' (set_held (delete i (st_held a)) a);
  view_length h s a b : represents h s a -> 0 <= b < FSSIZE -> length (st_view a b) = BSIZE;
  view_disk h s a b : represents h s a -> b ∉ in_use a -> st_view a b = st_disk a b;
}.
