(* ===== verification/Bio.v ===== *)
(** * The buffer cache (bio.c)

    The cache keeps [NBUF] buffers on a circular doubly linked list in order
    of use, through [bprev] and [bnext]; index [NBUF] is [bcache.head].  The
    pointer operations are those of the source.  [bio_spec] shows that they
    implement the interface of [Store]: exclusive, coherent copies of disk
    blocks, recycled least recently used first. *)

From stdpp Require Import base numbers list gmap sets strings.
From S2P Require Import Prelude Spinlock Machine Ide Store.

Open Scope Z_scope.

Section Bio.
Context {W : Type} {SC : Sched W}.

Definition get_link (f : bst W -> list nat) (i : nat) : M (bst W) nat := fun s =>
  match f s !! i with Some j => Ok (j, s) | None => Err Fault end.
Definition put_next (i j : nat) : M (bst W) unit := fun s =>
  match bnext s !! i with
  | Some _ => Ok (tt, set_bnext (<[i := j]> (bnext s)) s)
  | None => Err Fault
  end.
Definition put_prev (i j : nat) : M (bst W) unit := fun s =>
  match bprev s !! i with
  | Some _ => Ok (tt, set_bprev (<[i := j]> (bprev s)) s)
  | None => Err Fault
  end.

(** Make [b] the first of the list: [b->next = head.next; b->prev = &head;
    head.next->prev = b; head.next = b]. *)
Definition link_front (b : nat) : M (bst W) unit :=
  h ← get_link bnext NBUF;
  put_next b h ;;
  put_prev b NBUF ;;
  h ← get_link bnext NBUF;
  put_prev h b ;;
  put_next NBUF b.

Fixpoint binit_loop (bs : list nat) : M (bst W) unit :=
  match bs with
  | [] => mret tt
  | b :: bs =>
      h ← get_link bnext NBUF;
      put_next b h ;;
      put_prev b NBUF ;;
      modb b (fun x => mkbuf (b_flags x) (u32 (-1)) (b_blockno x) (b_data x)) ;;
      h ← get_link bnext NBUF;
      put_prev h b ;;
      put_next NBUF b ;;
      binit_loop bs
  end.

Definition binit : M (bst W) unit :=
  initlock_m BCACHE ;;
  put_prev NBUF NBUF ;;
  put_next NBUF NBUF ;;
  binit_loop (seq 0 NBUF).

(** Walk the list from [p] along [f] to the first buffer that satisfies
    [test]. *)
Fixpoint walk (f : bst W -> list nat) (test : buf -> bool) (fuel : nat) (p : nat) : M (bst W) (option nat) :=
  if (p =? NBUF)%nat then mret None
  else match fuel with
       | O => fail NoFuel
       | S fuel =>
           b ← getb p;
           if test b then mret (Some p)
           else n ← get_link f p; walk f test fuel n
       end.

Definition is_block (dev blockno : Z) (b : buf) : bool := (b_dev b =? dev) && (b_blockno b =? blockno).
Definition is_free (b : buf) : bool :=
  (Z.land (b_flags b) B_BUSY =? 0) && (Z.land (b_flags b) B_DIRTY =? 0).

Definition bget (dev blockno : Z) : M (bst W) nat :=
  acquire_m BCACHE ;;
  h ← get_link bnext NBUF;
  p ← walk bnext (is_block dev blockno) NBUF h;
  match p with
  | Some i =>
      b ← getb i;
      if Z.land (b_flags b) B_BUSY =? 0 then
        modb i (fun b => set_flags (Z.lor (b_flags b) B_BUSY) b) ;;
        release_m BCACHE ;;
        mret i
      else fail Asleep
  | None =>
      h ← get_link bprev NBUF;
      p ← walk bprev is_free NBUF h;
      match p with
      | Some i =>
          modb i (fun b => mkbuf B_BUSY dev blockno (b_data b)) ;;
          release_m BCACHE ;;
          mret i
      | None => panic "bget: no buffers"
      end
  end.

Definition bio_bread (dev blockno : Z) : M (bst W) nat :=
  i ← bget dev blockno;
  b ← getb i;
  when (Z.land (b_flags b) B_VALID =? 0) (iderw i) ;;
  mret i.

Definition bio_bwrite (i : nat) : M (bst W) unit :=
  b ← getb i;
  if Z.land (b_flags b) B_BUSY =? 0 then panic "bwrite" else
  modb i (fun b => set_flags (Z.lor (b_flags b) B_DIRTY) b) ;;
  iderw i.

(** [brelse]'s assignments to the links of [b] and its neighbours. *)
Definition move_front (b : nat) : M (bst W) unit :=
  n ← get_link bnext b;
  p ← get_link bprev b;
  put_prev n p ;;
  p ← get_link bprev b;
  n ← get_link bnext b;
  put_next p n ;;
  link_front b.

Definition bio_brelse (b : nat) : M (bst W) unit :=
  x ← getb b;
  if Z.land (b_flags x) B_BUSY =? 0 then panic "brelse" else
  acquire_m BCACHE ;;
  move_front b ;;
  modb b (fun x => set_flags (Z.land (b_flags x) (Z.lnot B_BUSY)) x) ;;
  wakeup_b b ;;
  release_m BCACHE.

#[export] Instance bio_cache : BufferCache (bst W) := {|
  bc_initlock := initlock_m;
  bc_acquire := acquire_m;
  bc_release := release_m;
  bc_wakeup := wakeup_m;
  bread := bio_bread;
  bwrite := bio_bwrite;
  brelse := bio_brelse;
  b_get := fun i => b ← getb i; mret (b_data b);
  b_put := fun i d => modb i (set_data d);
  b_no := fun i => b ← getb i; mret (b_blockno b);
  b_pin := fun i => modb i (fun b => set_flags (Z.lor (b_flags b) B_DIRTY) b);
|}.
End Bio.

(** ** The list *)

(** [x], the elements of [l] and [z] follow one another along [nx]. *)
Fixpoint chain (nx : list nat) (x : nat) (l : list nat) (z : nat) : Prop :=
  match l with
  | [] => nx !! x = Some z
  | y :: l => nx !! x = Some y /\ chain nx y l z
  end.

Lemma chain_lookup nx x l z : chain nx x l z -> nx !! x = Some (default z (head l)).
Proof. destruct l; simpl; intuition. Qed.

Lemma chain_frame nx i v x l z : chain nx x l z -> i ∉ x :: l -> chain (<[i := v]> nx) x l z.
Proof.
  revert x. induction l as [|y l IH]; intros x Hc Hi; simpl in *.
  - rewrite list_lookup_insert_ne; [done|]. intros ->. apply Hi. left.
  - destruct Hc as [Hx Hc]. split.
    + rewrite list_lookup_insert_ne; [done|]. intros ->. apply Hi. left.
    + apply IH; [done|]. intros Hin. apply Hi. by right.
Qed.

Lemma chain_app nx x l1 y l2 z : chain nx x (l1 ++ y :: l2) z <-> chain nx x l1 y /\ chain nx y l2 z.
Proof.
  revert x. induction l1 as [|w l1 IH]; intros x; simpl; [done|]. rewrite IH. tauto.
Qed.

(** The last node before the end of a chain. *)
Fixpoint end_of (x : nat) (l : list nat) : nat :=
  match l with
  | [] => x
  | y :: l => end_of y l
  end.

Lemma end_of_in x l : end_of x l ∈ x :: l.
Proof. revert x. induction l as [|y l IH]; intros x; simpl; [left|]. right. apply IH. Qed.

Lemma end_of_app x l y : end_of x (l ++ [y]) = y.
Proof. revert x. induction l as [|w l IH]; intros x; simpl; auto. Qed.

Lemma chain_end nx x l z : chain nx x l z -> nx !! end_of x l = Some z.
Proof. revert x. induction l as [|y l IH]; intros x; simpl; [done|]. intros [_ H]. auto. Qed.

Lemma chain_redirect nx x l z z' :
  chain nx x l z -> NoDup (x :: l) -> chain (<[end_of x l := z']> nx) x l z'.
Proof.
  revert x. induction l as [|y l IH]; intros x Hc Hnd; simpl in *.
  - apply list_lookup_insert_eq. by eapply lookup_lt_Some.
  - destruct Hc as [Hx Hc]. apply NoDup_cons in Hnd as [Hni Hnd]. split; [|by apply IH].
    rewrite list_lookup_insert_ne; [done|]. intros He. apply Hni. rewrite <-He. apply end_of_in.
Qed.

(** Unlink [b]: its predecessor is pointed at its successor. *)
Lemma chain_remove nx x l1 b l2 z n :
  chain nx x (l1 ++ b :: l2) z -> NoDup (x :: l1 ++ b :: l2) -> nx !! b = Some n ->
  chain (<[end_of x l1 := n]> nx) x (l1 ++ l2) z.
Proof.
  rewrite chain_app. intros [Hc1 Hc2] Hnd Hn.
  rewrite (chain_lookup _ _ _ _ Hc2) in Hn. injection Hn as <-.
  assert (NoDup (x :: l1) /\ NoDup (b :: l2) /\ (forall i, i ∈ x :: l1 -> i ∉ b :: l2)) as (Hd1 & Hd2 & Hd).
  { rewrite (app_comm_cons l1 (b :: l2) x) in Hnd. apply NoDup_app in Hnd. tauto. }
  destruct l2 as [|y l2]; simpl in *.
  - rewrite app_nil_r. by eapply chain_redirect.
  - apply chain_app. destruct Hc2 as [_ Hc2]. split; [by eapply chain_redirect|].
    apply chain_frame; [done|]. intros Hin. eapply Hd; [apply end_of_in|]. by right.
Qed.

(** Insert [b] first. *)
Lemma chain_front nx x l z b h :
  chain nx x l z -> nx !! x = Some h -> b ∉ x :: l -> (b < length nx)%nat -> x ∉ l ->
  chain (<[x := b]> (<[b := h]> nx)) x (b :: l) z.
Proof.
  intros Hc Hx Hb Hlt Hxl. pose proof (lookup_lt_Some _ _ _ Hx) as Hxlt.
  assert (b <> x) by (intros ->; apply Hb; left). simpl.
  split; [apply list_lookup_insert_eq; by rewrite length_insert|].
  destruct l as [|y l]; simpl in *.
  - rewrite list_lookup_insert_ne, list_lookup_insert_eq by done. congruence.
  - destruct Hc as [Hy Hc]. split.
    + rewrite list_lookup_insert_ne, list_lookup_insert_eq by done. congruence.
    + apply chain_frame; [|done]. apply chain_frame; [done|]. intros Hin. apply Hb. by right.
Qed.

(** Insert [b] last. *)
Lemma chain_back nx x l z b :
  chain nx x l z -> NoDup (x :: l) -> b ∉ x :: l -> (b < length nx)%nat ->
  chain (<[end_of x l := b]> (<[b := z]> nx)) x (l ++ [b]) z.
Proof.
  intros Hc Hnd Hb Hlt. apply chain_app. split.
  - eapply chain_redirect; [by apply chain_frame|done].
  - simpl. rewrite list_lookup_insert_ne, list_lookup_insert_eq; [done|done|].
    intros He. apply Hb. rewrite <-He. apply end_of_in.
Qed.

(** [l] is the cache's list, most recently used first. *)
Record lru (nx pv l : list nat) : Prop := {
  lru_next : chain nx NBUF l NBUF;
  lru_prev : chain pv NBUF (reverse l) NBUF;
  lru_perm : l ≡ₚ seq 0 NBUF;
  lru_lnext : length nx = S NBUF;
  lru_lprev : length pv = S NBUF;
}.

Lemma lru_nodup nx pv l : lru nx pv l -> NoDup (NBUF :: l).
Proof.
  intros [_ _ Hp _ _]. rewrite Hp. apply NoDup_cons. split; [|apply NoDup_seq].
  rewrite elem_of_seq. lia.
Qed.

Lemma lru_elem nx pv l i : lru nx pv l -> i ∈ l <-> (i < NBUF)%nat.
Proof. intros [_ _ Hp _ _]. rewrite Hp, elem_of_seq. lia. Qed.

(** The pointer assignments of [brelse] on the two link arrays. *)
Definition unlinked_next (nx : list nat) (p n b : nat) : list nat :=
  let nx := <[p := n]> nx in <[NBUF := b]> (<[b := default 0%nat (nx !! NBUF)]> nx).
Definition unlinked_prev (nx pv : list nat) (p n b : nat) : list nat :=
  let h := default 0%nat (<[p := n]> nx !! NBUF) in
  <[h := b]> (<[b := NBUF]> (<[n := p]> pv)).

Lemma end_of_reverse_head x l : end_of x (reverse l) = default x (head l).
Proof. destruct l as [|y l]; simpl; [done|]. by rewrite reverse_cons, end_of_app. Qed.

Lemma lru_brelse nx pv l1 b l2 n p :
  lru nx pv (l1 ++ b :: l2) -> nx !! b = Some n -> pv !! b = Some p ->
  lru (unlinked_next nx p n b) (unlinked_prev nx pv p n b) (b :: l1 ++ l2).
Proof.
  intros Hl Hn Hp. pose proof (lru_nodup _ _ _ Hl) as Hnd. destruct Hl as [Hcn Hcp Hpe Hln Hlp].
  assert (b < NBUF)%nat as Hb.
  { assert (b ∈ l1 ++ b :: l2) as Hin by (apply elem_of_app; right; left).
    rewrite Hpe in Hin. apply elem_of_seq in Hin. lia. }
  assert (NoDup (NBUF :: l1 ++ l2) /\ b ∉ NBUF :: l1 ++ l2) as [Hnd' Hb'].
  { rewrite <-Permutation_middle in Hnd. rewrite <-Permutation_swap in Hnd.
    apply NoDup_cons in Hnd as [? ?]. done. }
  assert (p = end_of NBUF l1) as Hpe'.
  { rewrite reverse_app, reverse_cons, <-app_assoc in Hcp. simpl in Hcp. apply chain_app in Hcp as [_ Hcp].
    apply chain_lookup in Hcp. rewrite Hp in Hcp. injection Hcp as ->.
    destruct l1 as [|y l1 _] using rev_ind; simpl; [done|]. by rewrite reverse_snoc, end_of_app. }
  assert (n = end_of NBUF (reverse l2)) as Hne.
  { rewrite end_of_reverse_head. apply chain_app in Hcn as [_ Hcn]. apply chain_lookup in Hcn. congruence. }
  pose proof (chain_remove nx NBUF l1 b l2 NBUF n Hcn Hnd Hn) as Hcn'. rewrite <-Hpe' in Hcn'.
  pose proof (chain_lookup _ _ _ _ Hcn') as Hh.
  assert (chain (<[n := p]> pv) NBUF (reverse (l1 ++ l2)) NBUF) as Hcp'.
  { rewrite Hne, reverse_app. apply chain_remove with (b := b); [| |done].
    - by rewrite reverse_app, reverse_cons, <-app_assoc in Hcp.
    - revert Hnd. rewrite !(reverse_Permutation l1), !(reverse_Permutation l2). intros Hnd.
      by rewrite (Permutation_app_comm l2 (b :: l1)), <-app_comm_cons, Permutation_middle. }
  split.
  - unfold unlinked_next. rewrite Hh. simpl default. apply chain_front; [done|done|done| |].
    + rewrite length_insert. lia.
    + by apply NoDup_cons in Hnd' as [? _].
  - unfold unlinked_prev. rewrite Hh. simpl default. rewrite reverse_cons.
    rewrite <-end_of_reverse_head. apply chain_back; [done| | |].
    + by rewrite reverse_Permutation.
    + by rewrite reverse_Permutation.
    + rewrite length_insert. lia.
  - by rewrite Permutation_middle.
  - unfold unlinked_next. by rewrite !length_insert.
  - unfold unlinked_prev. by rewrite !length_insert.
Qed.

(** ** The contents *)

Section rep.
Context {W : Type} {SC : Sched W}.
Implicit Types s : bst W.

(** Buffer [i] in the abstract state [a]. *)
Record buf_ok (a : store) (i : nat) (x : buf) : Prop := {
  bo_flags : 0 <= b_flags x < 8;
  bo_length : length (b_data x) = BSIZE;
  bo_valid : b_dev x = ROOTDEV -> f_valid (b_flags x) = true;
  bo_block : b_dev x = ROOTDEV -> 0 <= b_blockno x < FSSIZE;
  bo_busy : f_busy (b_flags x) = true -> b_dev x = ROOTDEV /\ st_held a !! i = Some (b_blockno x);
  bo_dirty : f_dirty (b_flags x) = true -> b_dev x = ROOTDEV /\ b_blockno x ∈ st_pinned a;
  bo_data : b_dev x = ROOTDEV -> b_data x = st_view a (b_blockno x);
  bo_clean : b_dev x = ROOTDEV -> f_busy (b_flags x) = false -> f_dirty (b_flags x) = false ->
    st_view a (b_blockno x) = st_disk a (b_blockno x);
}.

(** Buffer [x] holds block [b]. *)
Definition caches (b : Z) (x : buf) : Prop := b_dev x = ROOTDEV /\ b_blockno x = b.

Record bio_rep (h : option nat) (s : bst W) (a : store) : Prop := {
  br_ide : ide_inv h s [];
  br_locks : (FTABLE < length (m_locks (bs_mach s)))%nat;
  br_disk1 : havedisk1 s = true;
  br_lru : exists l, lru (bnext s) (bprev s) l;
  br_bufs : length (bufs s) = NBUF;
  br_buf : forall i x, bufs s !! i = Some x -> buf_ok a i x;
  br_uniq : forall i j x y b, bufs s !! i = Some x -> bufs s !! j = Some y ->
    caches b x -> caches b y -> i = j;
  br_view : forall b, (exists i x, bufs s !! i = Some x /\ caches b x) \/ st_view a b = st_disk a b;
  br_pinned : forall b, b ∈ st_pinned a ->
    exists i x, bufs s !! i = Some x /\ caches b x /\ f_dirty (b_flags x) = true;
  br_held : forall i b, st_held a !! i = Some b ->
    exists x, bufs s !! i = Some x /\ caches b x /\ f_busy (b_flags x) = true;
  br_disk : forall b, d_disk (drv s) ROOTDEV b = st_disk a b;
  br_hist : d_hist (drv s) = (fun p => (ROOTDEV, p.1, p.2)) <$> st_hist a;
  br_len : forall b, 0 <= b < FSSIZE -> length (st_disk a b) = BSIZE;
  br_wait : bwait s = [];
}.

Lemma busy_test f : (Z.land f B_BUSY =? 0) = negb (f_busy f).
Proof. unfold f_busy. by rewrite negb_involutive. Qed.

Lemma is_free_test x : is_free x = negb (f_busy (b_flags x)) && negb (f_dirty (b_flags x)).
Proof. unfold is_free. by rewrite busy_test, dirty_test. Qed.

Lemma is_block_test b x : is_block ROOTDEV b x = true <-> caches b x.
Proof. unfold is_block, caches. rewrite andb_true_iff, !Z.eqb_eq. done. Qed.

(** ** Walking the list *)

Definition at_buf (s : bst W) (test : buf -> bool) (i : nat) : bool :=
  match bufs s !! i with Some x => test x | None => false end.

Lemma walk_run f test fuel x l s :
  chain (f s) x l NBUF -> (forall i, i ∈ l -> (i < NBUF)%nat) -> length (bufs s) = NBUF ->
  (length l <= fuel)%nat ->
  walk f test fuel (default NBUF (head l)) s = Ok (List.find (at_buf s test) l, s).
Proof.
  revert fuel x. induction l as [|i l IH]; intros fuel x Hc Hlt Hlen Hf.
  - simpl. by destruct fuel.
  - destruct fuel as [|fuel]; [simpl in Hf; lia|]. destruct Hc as [Hx Hc].
    assert (i < NBUF)%nat as Hi by (apply Hlt; left).
    destruct (lookup_lt_is_Some_2 (bufs s) i) as [b Hb]; [lia|].
    simpl head. simpl default. cbn [walk]. destruct (Nat.eqb_spec i NBUF); [lia|].
    unfold mbind, M_bind, getb. rewrite Hb. simpl List.find. unfold at_buf at 1. rewrite Hb.
    destruct (test b); [done|]. unfold get_link. rewrite (chain_lookup _ _ _ _ Hc).
    eapply IH; [done| |done|simpl in Hf; lia]. intros j Hj. apply Hlt. by right.
Qed.

(** The first walk of [bget]: the buffer of the block, if it is cached. *)
Lemma walk_block s a l b :
  bio_rep (Some BCACHE) s a -> lru (bnext s) (bprev s) l ->
  match List.find (at_buf s (is_block ROOTDEV b)) l with
  | Some i => exists x, bufs s !! i = Some x /\ caches b x
  | None => forall i x, bufs s !! i = Some x -> ~ caches b x
  end.
Proof.
  intros Hs Hl. destruct (List.find _ l) as [i|] eqn:Hf.
  - apply List.find_some in Hf as [_ Hf]. unfold at_buf in Hf.
    destruct (bufs s !! i) as [x|]; [|done]. exists x. by rewrite is_block_test in Hf.
  - intros i x Hx Hc. apply is_block_test in Hc.
    assert (In i l) as Hin.
    { apply list_elem_of_In. rewrite (lru_elem _ _ _ _ Hl). apply lookup_lt_Some in Hx.
      by rewrite (br_bufs _ _ _ Hs) in Hx. }
    apply (List.find_none _ _ Hf) in Hin. unfold at_buf in Hin. rewrite Hx in Hin. congruence.
Qed.

(** The second walk: there is a buffer to recycle while fewer than [NBUF] are
    in use. *)
Lemma walk_free s a l :
  bio_rep (Some BCACHE) s a -> lru (bnext s) (bprev s) l -> (size (in_use a) < NBUF)%nat ->
  exists i x, List.find (at_buf s is_free) (reverse l) = Some i /\ bufs s !! i = Some x /\
    f_busy (b_flags x) = false /\ f_dirty (b_flags x) = false.
Proof.
  intros Hs Hl Hsz. destruct (List.find _ (reverse l)) as [i|] eqn:Hf.
  - apply List.find_some in Hf as [_ Hf]. unfold at_buf in Hf.
    destruct (bufs s !! i) as [x|] eqn:Hx; [|done]. rewrite is_free_test in Hf.
    apply andb_true_iff in Hf as [H1%negb_true_iff H2%negb_true_iff]. by exists i, x.
  - exfalso. assert (forall i x, bufs s !! i = Some x -> b_dev x = ROOTDEV /\ b_blockno x ∈ in_use a) as Hall.
    { intros i x Hx. assert (In i (reverse l)) as Hin.
      { apply list_elem_of_In, elem_of_reverse. rewrite (lru_elem _ _ _ _ Hl). apply lookup_lt_Some in Hx.
        by rewrite (br_bufs _ _ _ Hs) in Hx. }
      apply (List.find_none _ _ Hf) in Hin. unfold at_buf in Hin. rewrite Hx, is_free_test in Hin.
      destruct (br_buf _ _ _ Hs i x Hx) as [_ _ _ _ Hbu Hdi _ _]. unfold in_use. rewrite elem_of_union.
      destruct (f_busy (b_flags x)).
      - destruct Hbu as [? ?]; [done|]. split; [done|]. right. apply elem_held_blocks. eauto.
      - destruct (f_dirty (b_flags x)); [|done]. destruct Hdi; [done|]. auto. }
    assert (NoDup (b_blockno <$> bufs s)) as Hnd.
    { apply NoDup_alt. intros i j b Hi Hj. rewrite list_lookup_fmap in Hi, Hj.
      destruct (bufs s !! i) as [x|] eqn:Hx; [|done]. destruct (bufs s !! j) as [y|] eqn:Hy; [|done].
      simplify_eq/=. eapply (br_uniq _ _ _ Hs i j x y (b_blockno y)); [done..| |].
      - split; [by eapply Hall|done].
      - split; [by eapply Hall|done]. }
    assert (list_to_set (b_blockno <$> bufs s) ⊆ in_use a) as Hsub.
    { intros b Hb. apply elem_of_list_to_set, list_elem_of_fmap in Hb as (x & -> & Hx).
      apply list_elem_of_lookup in Hx as [i Hx]. by eapply Hall. }
    apply subseteq_size in Hsub. rewrite size_list_to_set, length_fmap, (br_bufs _ _ _ Hs) in Hsub by done. lia.
Qed.

(** ** Changing one buffer *)

Lemma buf_ok_frame a a' j y :
  buf_ok a j y -> st_held a' !! j = st_held a !! j ->
  (b_dev y = ROOTDEV -> st_view a' (b_blockno y) = st_view a (b_blockno y) /\
    st_disk a' (b_blockno y) = st_disk a (b_blockno y) /\
    (b_blockno y ∈ st_pinned a -> b_blockno y ∈ st_pinned a')) ->
  buf_ok a' j y.
Proof.
  intros [Hf Hl Hv Hb Hbu Hdi Hda Hcl] Hh Hsame. split; [done..| | | |].
  - intros H. rewrite Hh. auto.
  - intros H. destruct (Hdi H) as [Hd Hp]. split; [done|]. by apply Hsame.
  - intros H. destruct (Hsame H) as (-> & _). auto.
  - intros H H1 H2. destruct (Hsame H) as (-> & -> & _). auto.
Qed.

(** Buffer [i] keeps its block [b]; the abstract state changes at [b] and [i]
    only. *)
Lemma rep_same h h' s s' a a' i b x x' :
  bio_rep h s a -> bufs s !! i = Some x -> caches b x -> caches b x' ->
  bufs s' = <[i := x']> (bufs s) -> (exists l, lru (bnext s') (bprev s') l) ->
  ide_inv h' s' [] -> (FTABLE < length (m_locks (bs_mach s')))%nat -> havedisk1 s' = true -> bwait s' = [] ->
  buf_ok a' i x' ->
  (forall c, c <> b -> st_view a' c = st_view a c /\ st_disk a' c = st_disk a c /\
    (c ∈ st_pinned a' <-> c ∈ st_pinned a)) ->
  (forall j, j <> i -> st_held a' !! j = st_held a !! j) ->
  (b ∈ st_pinned a' -> f_dirty (b_flags x') = true) ->
  (forall c, st_held a' !! i = Some c -> c = b /\ f_busy (b_flags x') = true) ->
  (forall c, d_disk (drv s') ROOTDEV c = st_disk a' c) ->
  d_hist (drv s') = (fun p => (ROOTDEV, p.1, p.2)) <$> st_hist a' ->
  (forall c, 0 <= c < FSSIZE -> length (st_disk a' c) = BSIZE) ->
  bio_rep h' s' a'.
Proof.
  intros Hs Hx Hcx Hcx' Hbs Hlru Hide Hlk Hd1 Hwt Hbo Hoth Hheld Hpin Hhi Hdisk Hhist Hlen.
  pose proof (lookup_lt_Some _ _ _ Hx) as Hlt.
  assert (forall j y, bufs s' !! j = Some y -> j = i /\ y = x' \/ j <> i /\ bufs s !! j = Some y) as Hinv.
  { intros j y. rewrite Hbs, list_lookup_insert_Some. intuition. }
  assert (bufs s' !! i = Some x') as Hx' by (rewrite Hbs; by apply list_lookup_insert_eq).
  assert (forall j y, bufs s !! j = Some y -> j <> i -> b_dev y = ROOTDEV -> b_blockno y <> b) as Hne.
  { intros j y Hy Hji Hdy He. apply Hji. by eapply (br_uniq _ _ _ Hs j i y x b). }
  assert (forall j y, j <> i -> bufs s !! j = Some y -> bufs s' !! j = Some y) as Hkeep.
  { intros j y Hji Hy. rewrite Hbs. by rewrite list_lookup_insert_ne. }
  split; try assumption.
  - rewrite Hbs, length_insert. apply Hs.
  - intros j y [[-> ->]|[Hji Hy]]%Hinv; [done|].
    eapply buf_ok_frame; [by apply (br_buf _ _ _ Hs)|by apply Hheld|].
    intros Hdy. destruct (Hoth (b_blockno y)) as (-> & -> & ->); [by eapply Hne|done].
  - intros j k y z c Hy Hz Hcy Hcz. apply Hinv in Hy as [[-> ->]|[Hji Hy]], Hz as [[-> ->]|[Hki Hz]].
    + done.
    + exfalso. destruct Hcx' as [_ Hb'], Hcy as [_ Hc], Hcz as [Hdz Hc2].
      eapply Hne; [exact Hz|done|done|congruence].
    + exfalso. destruct Hcx' as [_ Hb'], Hcz as [_ Hc], Hcy as [Hdy Hc2].
      eapply Hne; [exact Hy|done|done|congruence].
    + by eapply (br_uniq _ _ _ Hs).
  - intros c. destruct (decide (c = b)) as [->|Hcb]; [left; eauto|].
    destruct (Hoth c Hcb) as (-> & -> & _).
    destruct (br_view _ _ _ Hs c) as [(j & y & Hy & Hcy)|]; [left|by right].
    exists j, y. split; [|done]. apply Hkeep; [|done]. intros ->. simplify_eq.
    destruct Hcx as [_ <-], Hcy as [_ <-]. done.
  - intros c Hc. destruct (decide (c = b)) as [->|Hcb]; [eauto 10|].
    destruct (Hoth c Hcb) as (_ & _ & Hp). apply Hp in Hc.
    destruct (br_pinned _ _ _ Hs c Hc) as (j & y & Hy & Hcy & Hdy). exists j, y. split; [|done].
    apply Hkeep; [|done]. intros ->. simplify_eq. destruct Hcx as [_ <-], Hcy as [_ <-]. done.
  - intros j c Hj. destruct (decide (j = i)) as [->|Hji].
    + destruct (Hhi c Hj) as [-> ?]. eauto.
    + rewrite Hheld in Hj by done. destruct (br_held _ _ _ Hs j c Hj) as (y & Hy & ? & ?).
      exists y. split; [by apply Hkeep|done].
Qed.

(** Only the machine changes. *)
Lemma rep_mach h h' s a m :
  bio_rep h s a -> holds h' m -> length (m_locks m) = length (m_locks (bs_mach s)) ->
  bio_rep h' (set_bs_mach m s) a.
Proof.
  intros [[] ? ? ? ? ? ? ? ? ? ? ? ? ?] Hm Hl.
  split; simpl; try done; try lia. split; simpl; try done. lia.
Qed.

Lemma ide_set_bufs h s i x x' :
  ide_inv h s [] -> bufs s !! i = Some x -> ide_inv h (set_bufs (<[i := x']> (bufs s)) s) [].
Proof.
  intros [] Hx. split; simpl; rewrite ?length_insert; try done. intros j Hj. by apply not_elem_of_nil in Hj.
Qed.

Lemma flags_busy f : 0 <= f < 8 ->
  0 <= Z.lor f B_BUSY < 8 /\ f_busy (Z.lor f B_BUSY) = true /\
  f_valid (Z.lor f B_BUSY) = f_valid f /\ f_dirty (Z.lor f B_BUSY) = f_dirty f.
Proof. intros H. flag_split H; vm_compute; intuition congruence. Qed.

Lemma flags_dirty f : 0 <= f < 8 ->
  0 <= Z.lor f B_DIRTY < 8 /\ f_busy (Z.lor f B_DIRTY) = f_busy f /\
  f_valid (Z.lor f B_DIRTY) = f_valid f /\ f_dirty (Z.lor f B_DIRTY) = true.
Proof. intros H. flag_split H; vm_compute; intuition congruence. Qed.

Lemma flags_unbusy f : 0 <= f < 8 ->
  0 <= Z.land f (Z.lnot B_BUSY) < 8 /\ f_busy (Z.land f (Z.lnot B_BUSY)) = false /\
  f_valid (Z.land f (Z.lnot B_BUSY)) = f_valid f /\ f_dirty (Z.land f (Z.lnot B_BUSY)) = f_dirty f.
Proof. intros H. flag_split H; vm_compute; intuition congruence. Qed.

(** ** The calls *)

(** A buffer in use. *)
Lemma held_buf h s a i b : bio_rep h s a -> st_held a !! i = Some b ->
  exists x, bufs s !! i = Some x /\ caches b x /\ f_busy (b_flags x) = true /\ buf_ok a i x.
Proof.
  intros Hs Hi. destruct (br_held _ _ _ Hs i b Hi) as (x & Hx & Hc & Hb).
  exists x. split_and!; [done..|]. by apply (br_buf _ _ _ Hs).
Qed.

Lemma rep_get i b h s a :
  bio_rep h s a -> st_held a !! i = Some b -> b_get i s = Ok (st_view a b, s).
Proof.
  intros Hs Hi. destruct (held_buf _ _ _ _ _ Hs Hi) as (x & Hx & [Hd <-] & _ & Ho). simpl.
  unfold mbind, M_bind, getb. rewrite Hx. by rewrite (bo_data _ _ _ Ho Hd).
Qed.

Lemma rep_no i b h s a : bio_rep h s a -> st_held a !! i = Some b -> b_no i s = Ok (b, s).
Proof.
  intros Hs Hi. destruct (held_buf _ _ _ _ _ Hs Hi) as (x & Hx & [Hd <-] & _ & Ho). simpl.
  unfold mbind, M_bind, getb. by rewrite Hx.
Qed.

Lemma rep_put i b d h s a :
  bio_rep h s a -> st_held a !! i = Some b -> length d = BSIZE ->
  exists s', b_put i d s = Ok (tt, s') /\ bio_rep h s' (set_view (upd (st_view a) b d) a).
Proof.
  intros Hs Hi Hlen. destruct (held_buf _ _ _ _ _ Hs Hi) as (x & Hx & Hc & Hb & Ho).
  exists (set_bufs (<[i := set_data d x]> (bufs s)) s). split; [simpl; unfold modb; by rewrite Hx|].
  pose proof Hc as [Hd Hn]. destruct Ho as [Hf Hl Hv Hbl Hbu Hdi Hda Hcl].
  eapply (rep_same h h s _ a _ i b x (set_data d x)); simpl; try done; try apply Hs.
  - by eapply ide_set_bufs; [apply Hs|].
  - split; simpl; try done.
    + intros _. by rewrite Hn, upd_same.
    + congruence.
  - intros c Hcb. by rewrite upd_other.
  - intros Hp. destruct (br_pinned _ _ _ Hs b Hp) as (j & y & Hy & Hcy & Hdy).
    assert (j = i) as -> by by eapply (br_uniq _ _ _ Hs j i y x b). by simplify_eq.
  - intros c Hic. by simplify_eq.
Qed.

Lemma rep_pin i b h s a :
  bio_rep h s a -> st_held a !! i = Some b ->
  exists s', b_pin i s = Ok (tt, s') /\ bio_rep h s' (set_pinned ({[b]} ∪ st_pinned a) a).
Proof.
  intros Hs Hi. destruct (held_buf _ _ _ _ _ Hs Hi) as (x & Hx & Hc & Hb & Ho).
  set (x' := set_flags (Z.lor (b_flags x) B_DIRTY) x).
  exists (set_bufs (<[i := x']> (bufs s)) s). split; [simpl; unfold modb; by rewrite Hx|].
  pose proof Hc as [Hd Hn]. destruct Ho as [Hf Hl Hv Hbl Hbu Hdi Hda Hcl].
  destruct (flags_dirty _ Hf) as (Hf1 & Hf2 & Hf3 & Hf4).
  eapply (rep_same h h s _ a _ i b x x'); simpl; try done; try apply Hs.
  - by eapply ide_set_bufs; [apply Hs|].
  - split; simpl; try done.
    + intros _. rewrite Hf3. auto.
    + intros _. by rewrite Hn.
    + intros _. split; [done|]. rewrite Hn. set_solver.
    + congruence.
  - intros c Hcb. set_solver.
  - intros c Hic. simplify_eq. by rewrite Hf2.
Qed.

(** ** Releasing *)

Lemma get_link_run f i j s : f s !! i = Some j -> get_link f i s = Ok (j, s).
Proof. intros H. unfold get_link. by rewrite H. Qed.

Lemma put_next_run i j s : (i < length (bnext s))%nat ->
  put_next i j s = Ok (tt, set_bnext (<[i := j]> (bnext s)) s).
Proof. intros H. unfold put_next. destruct (lookup_lt_is_Some_2 _ _ H) as [k ->]. done. Qed.

Lemma put_prev_run i j s : (i < length (bprev s))%nat ->
  put_prev i j s = Ok (tt, set_bprev (<[i := j]> (bprev s)) s).
Proof. intros H. unfold put_prev. destruct (lookup_lt_is_Some_2 _ _ H) as [k ->]. done. Qed.

Lemma link_front_run b h s :
  bnext s !! NBUF = Some h -> (b < NBUF)%nat -> (h <= NBUF)%nat ->
  length (bnext s) = S NBUF -> length (bprev s) = S NBUF ->
  link_front b s = Ok (tt, set_bnext (<[NBUF := b]> (<[b := h]> (bnext s)))
    (set_bprev (<[h := b]> (<[b := NBUF]> (bprev s))) s)).
Proof.
  intros Hh Hb Hhl Hn Hp. destruct s as [m bs bp bn qn iq hd dr]. simpl in *. unfold link_front.
  erewrite bind_Ok; [|by apply get_link_run]. erewrite bind_Ok; [|apply put_next_run; simpl; lia].
  erewrite bind_Ok; [|apply put_prev_run; simpl; lia].
  erewrite bind_Ok; [|apply get_link_run; simpl; rewrite list_lookup_insert_ne; [done|lia]].
  erewrite bind_Ok; [|apply put_prev_run; simpl; rewrite length_insert; lia].
  rewrite put_next_run; [done|]. simpl. rewrite length_insert. lia.
Qed.

Lemma move_front_run l1 b l2 s :
  lru (bnext s) (bprev s) (l1 ++ b :: l2) ->
  exists n p, bnext s !! b = Some n /\ bprev s !! b = Some p /\
    move_front b s = Ok (tt, set_bnext (unlinked_next (bnext s) p n b)
                              (set_bprev (unlinked_prev (bnext s) (bprev s) p n b) s)).
Proof.
  intros Hl. pose proof (lru_nodup _ _ _ Hl) as Hnd.
  assert (forall i, i ∈ NBUF :: l1 ++ b :: l2 -> (i <= NBUF)%nat) as Hle.
  { intros i [->|Hi]%elem_of_cons; [lia|]. rewrite (lru_elem _ _ _ _ Hl) in Hi. lia. }
  pose proof Hl as [Hcn Hcp Hpe Hln Hlp].
  assert (b < NBUF)%nat as Hb by (apply (lru_elem _ _ _ _ Hl), elem_of_app; right; left).
  pose proof Hcn as Hcn'. apply chain_app in Hcn' as [_ Hcn']. pose proof (chain_lookup _ _ _ _ Hcn') as Hn.
  assert (default NBUF (head l2) ∈ NBUF :: l2) as Hnl by (destruct l2; simpl; [left|right; left]).
  set (n := default NBUF (head l2)) in *.
  rewrite reverse_app, reverse_cons, <-app_assoc in Hcp. simpl in Hcp. apply chain_app in Hcp as [_ Hcp].
  pose proof (chain_lookup _ _ _ _ Hcp) as Hp.
  assert (default NBUF (head (reverse l1)) ∈ NBUF :: l1) as Hpl.
  { destruct (reverse l1) as [|y r] eqn:Hr; simpl; [left|]. right.
    rewrite <-(reverse_involutive l1), Hr, elem_of_reverse. left. }
  set (p := default NBUF (head (reverse l1))) in *.
  exists n, p. split_and!; [done..|].
  assert (n <= NBUF)%nat as Hnle.
  { apply Hle. apply elem_of_cons in Hnl as [->|H]; [left|]. right. apply elem_of_app. right. by right. }
  assert (p <= NBUF)%nat as Hple.
  { apply Hle. apply elem_of_cons in Hpl as [->|H]; [left|]. right. apply elem_of_app. by left. }
  assert (n <> b) as Hnb.
  { intros He. rewrite He in Hnl. rewrite <-Permutation_middle, <-Permutation_swap in Hnd.
    apply NoDup_cons in Hnd as [Hni _]. apply Hni.
    apply elem_of_cons in Hnl as [->|H]; [left|]. right. apply elem_of_app. by right. }
  unfold move_front. erewrite bind_Ok; [|by apply get_link_run]. erewrite bind_Ok; [|by apply get_link_run].
  erewrite bind_Ok; [|apply put_prev_run; lia].
  erewrite bind_Ok; [|apply get_link_run; simpl; by rewrite list_lookup_insert_ne].
  erewrite bind_Ok; [|by apply get_link_run].
  erewrite bind_Ok; [|apply put_next_run; simpl; lia].
  assert (n = end_of NBUF (reverse l2)) as Hne by by rewrite end_of_reverse_head.
  assert (exists h, <[p := n]> (bnext s) !! NBUF = Some h /\ (h <= NBUF)%nat) as (h & Hh & Hhle).
  { destruct (decide (p = NBUF)) as [->|Hpn].
    - exists n. split; [|done]. apply list_lookup_insert_eq. lia.
    - rewrite list_lookup_insert_ne by done. pose proof (chain_lookup _ _ _ _ Hcn) as Hh.
      eexists. split; [done|]. apply Hle. destruct (l1 ++ b :: l2); simpl; [left|right; left]. }
  erewrite link_front_run; [|exact Hh|done|done|simpl; rewrite length_insert; lia|simpl; rewrite length_insert; lia].
  unfold unlinked_next, unlinked_prev. rewrite Hh. by destruct s.
Qed.

Lemma rep_brelse i b s a :
  bio_rep None s a -> st_held a !! i = Some b -> b ∈ st_pinned a \/ st_view a b = st_disk a b ->
  exists s', brelse i s = Ok (tt, s') /\ bio_rep None s' (set_held (delete i (st_held a)) a).
Proof.
  intros Hs Hi Hok. destruct (held_buf _ _ _ _ _ Hs Hi) as (x & Hx & Hc & Hb & Ho).
  destruct (wp_no_error (brelse i) (fun _ s' => bio_rep None s' (set_held (delete i (st_held a)) a)) s)
    as ([] & s' & Hr & H); [|eauto].
  pose proof Hs as [Hide Hlk Hd1 [l Hl] Hlen _ _ _ _ _ _ _ _ Hwt].
  unfold brelse, bio_cache, bio_brelse. apply wp_bind. eapply wp_Ok; [unfold getb; by rewrite Hx|].
  rewrite busy_test, Hb. simpl. apply wp_bind, wp_acquire_m; [apply Hide|unfold BCACHE, FTABLE in *; simpl; lia|].
  intros m Hm _ Hml. simpl in Hml.
  assert (i ∈ l) as Hil by (apply (lru_elem _ _ _ _ Hl); rewrite <-Hlen; by eapply lookup_lt_Some).
  apply list_elem_of_split in Hil as (l1 & l2 & ->).
  destruct (move_front_run l1 i l2 (set_bs_mach m s)) as (n & p & Hn & Hp & Hmv); [done|]. simpl in Hn, Hp.
  apply wp_bind. eapply wp_Ok; [exact Hmv|]. apply wp_bind. simpl.
  eapply wp_Ok; [unfold modb; simpl; by rewrite Hx|].
  apply wp_bind, wp_bind, wp_modify, wp_modify. simpl. apply wp_release_m; [by apply holds_wake|].
  intros m2 Hm2 _ Hml2. simpl in Hml2 |- *.
  destruct Ho as [Hf Hl0 Hv Hbl Hbu Hdi Hda Hcl]. destruct (flags_unbusy _ Hf) as (Hf1 & Hf2 & Hf3 & Hf4).
  pose proof Hc as [Hd Hno].
  eapply (rep_same None None s _ a _ i b x (set_flags (Z.land (b_flags x) (Z.lnot B_BUSY)) x));
    simpl; try done; try apply Hs.
  - eexists. by eapply lru_brelse.
  - destruct Hide. split; simpl; rewrite ?length_insert; try done; [lia|].
    intros j Hj. by apply not_elem_of_nil in Hj.
  - lia.
  - by rewrite Hwt.
  - split; simpl; try done.
    + intros _. rewrite Hf3. auto.
    + rewrite Hf2. done.
    + rewrite Hf4. auto.
    + intros _ _. rewrite Hf4, Hno. intros Hnd. destruct Hok as [Hpin|]; [|done].
      destruct (br_pinned _ _ _ Hs b Hpin) as (j & y & Hy & Hcy & Hdy).
      assert (j = i) as -> by by eapply (br_uniq _ _ _ Hs j i y x b). simplify_eq. congruence.
  - intros j Hj. by rewrite lookup_delete_ne.
  - intros Hpin. destruct (br_pinned _ _ _ Hs b Hpin) as (j & y & Hy & Hcy & Hdy).
    assert (j = i) as -> by by eapply (br_uniq _ _ _ Hs j i y x b). simplify_eq. by rewrite Hf4.
  - intros c. by rewrite lookup_delete_eq.
Qed.

(** ** Writing and reading *)

Lemma io_fields s' x : io_of s' = x ->
  bufs s' = io_bufs x /\ d_disk (drv s') = io_disk x /\ d_hist (drv s') = io_hist x.
Proof. by intros <-. Qed.

Lemma rep_bwrite i b s a :
  bio_rep None s a -> st_held a !! i = Some b ->
  exists s', bwrite i s = Ok (tt, s') /\ bio_rep None s' (written b (st_view a b) a).
Proof.
  intros Hs Hi. destruct (held_buf _ _ _ _ _ Hs Hi) as (x & Hx & Hc & Hb & Ho).
  destruct (wp_no_error (bwrite i) (fun _ s' => bio_rep None s' (written b (st_view a b) a)) s)
    as ([] & s' & Hr & H); [|eauto].
  pose proof Hs as [Hide Hlk Hd1 Hl Hlen _ _ _ _ _ Hdisk Hhist Hdl Hwt].
  pose proof Ho as [Hf Hl0 Hv Hbl Hbu Hdi Hda Hcl]. pose proof Hc as [Hd Hno].
  destruct (flags_dirty _ Hf) as (Hf1 & Hf2 & Hf3 & Hf4).
  set (x1 := set_flags (Z.lor (b_flags x) B_DIRTY) x).
  unfold bwrite, bio_cache, bio_bwrite. apply wp_bind. eapply wp_Ok; [unfold getb; by rewrite Hx|].
  rewrite busy_test, Hb. simpl. apply wp_bind. eapply wp_Ok; [unfold modb; by rewrite Hx|]. fold x1.
  pose proof (lookup_lt_Some _ _ _ Hx) as Hlt.
  assert (bufs (set_bufs (<[i := x1]> (bufs s)) s) !! i = Some x1) as Hx1
    by by apply list_lookup_insert_eq.
  eapply (wp_iderw [] i x1); [by eapply ide_set_bufs|done| | |by right|simpl; rewrite Hwt; apply not_elem_of_nil|simpl; by rewrite Hwt|].
  { split; simpl; [done|by rewrite Hf2|by rewrite Hf4, andb_false_r|right; done|auto]. }
  { apply not_elem_of_nil. }
  intros s' Hide' Hio (Hbp & Hbn & Hh & Hml) Hw'. simpl in Hw'. rewrite Hwt in Hw'. simpl foldl in Hio.
  rewrite (serve_run _ _ x1) in Hio by exact Hx1. simpl in Hio. rewrite Hf4 in Hio.
  apply io_fields in Hio as (Hbs & Hdd & Hhh). simpl in Hbs, Hdd, Hhh.
  rewrite list_insert_insert_eq in Hbs.
  destruct (clean_flags _ Hf1) as (Hk1 & Hk2 & Hk3 & Hk4).
  eapply (rep_same None None s s' a _ i b x); [done|done|done| |exact Hbs|..]; simpl.
  - done.
  - by rewrite Hbp, Hbn.
  - done.
  - simpl in Hml. lia.
  - simpl in Hh. congruence.
  - done.
  - split; simpl; try done.
    + by rewrite Hf4.
    + intros _. by rewrite Hno.
    + by rewrite Hk4.
    + intros _. rewrite Hf4. auto.
    + rewrite Hk2, Hf2, Hb. done.
  - intros c Hcb. rewrite upd_other by done. set_solver.
  - done.
  - set_solver.
  - intros c Hic. simplify_eq. by rewrite Hk2, Hf2.
  - intros c. rewrite Hdd, Hd, upd_same, Hno. unfold upd.
    destruct (Z.eqb_spec c b); [by rewrite Hda, Hno|apply Hdisk].
  - rewrite Hhh, Hhist, fmap_app. simpl. by rewrite Hd, Hda, Hno.
  - intros c Hcr. unfold upd. destruct (Z.eqb_spec c b); [|auto]. rewrite <-Hno, <-Hda by done. done.
Qed.

(** A cached block. *)
Lemma rep_hit i b x s a m :
  bio_rep None s a -> bufs s !! i = Some x -> caches b x -> b ∉ held_blocks a ->
  holds None m -> length (m_locks m) = length (m_locks (bs_mach s)) ->
  f_busy (b_flags x) = false /\ st_held a !! i = None /\
  bio_rep None (set_bs_mach m (set_bufs (<[i := set_flags (Z.lor (b_flags x) B_BUSY) x]> (bufs s)) s))
    (set_held (<[i := b]> (st_held a)) a).
Proof.
  intros Hs Hx Hc Hnh Hm Hml. pose proof (br_buf _ _ _ Hs i x Hx) as Ho.
  pose proof Ho as [Hf Hl0 Hv Hbl Hbu Hdi Hda Hcl]. pose proof Hc as [Hd Hno].
  assert (f_busy (b_flags x) = false) as Hb.
  { destruct (f_busy (b_flags x)); [|done]. destruct Hbu as [_ Hh]; [done|]. rewrite Hno in Hh.
    destruct Hnh. apply elem_held_blocks. eauto. }
  assert (st_held a !! i = None) as Hin.
  { destruct (st_held a !! i) as [c|] eqn:Hh; [|done].
    destruct (br_held _ _ _ Hs i c Hh) as (y & Hy & _ & Hby). simplify_eq. congruence. }
  split_and!; [done..|]. destruct (flags_busy _ Hf) as (Hf1 & Hf2 & Hf3 & Hf4).
  set (x' := set_flags (Z.lor (b_flags x) B_BUSY) x).
  eapply (rep_same None None s _ a _ i b x x'); simpl; try done; try apply Hs.
  - pose proof Hs as [[] ? ? ? ? ? ? ? ? ? ? ? ?]. split; simpl; rewrite ?length_insert; try done; [lia|].
    intros j Hj. by apply not_elem_of_nil in Hj.
  - rewrite Hml. apply Hs.
  - split; simpl; try done.
    + intros _. rewrite Hf3. auto.
    + intros _. split; [done|]. by rewrite lookup_insert_eq, Hno.
    + rewrite Hf4. auto.
    + congruence.
  - intros j Hj. by rewrite lookup_insert_ne.
  - intros Hp. destruct (br_pinned _ _ _ Hs b Hp) as (j & y & Hy & Hcy & Hdy).
    assert (j = i) as -> by by eapply (br_uniq _ _ _ Hs j i y x b). simplify_eq. by rewrite Hf4.
  - intros c. rewrite lookup_insert_eq. by intros [= <-].
Qed.

(** A recycled buffer: its old block goes back to being only on the disk. *)
Lemma rep_recycle i b x s s' a :
  bio_rep None s a -> bufs s !! i = Some x ->
  f_busy (b_flags x) = false -> f_dirty (b_flags x) = false ->
  (forall j y, bufs s !! j = Some y -> ~ caches b y) -> 0 <= b < FSSIZE ->
  bufs s' = <[i := mkbuf 3 ROOTDEV b (st_disk a b)]> (bufs s) ->
  (exists l, lru (bnext s') (bprev s') l) -> ide_inv None s' [] ->
  (FTABLE < length (m_locks (bs_mach s')))%nat -> havedisk1 s' = true -> bwait s' = [] ->
  d_disk (drv s') = d_disk (drv s) -> d_hist (drv s') = d_hist (drv s) ->
  st_held a !! i = None /\ bio_rep None s' (set_held (<[i := b]> (st_held a)) a).
Proof.
  intros Hs Hx Hb Hdi Hun Hbr Hbs Hlru Hide Hlk Hd1 Hwt Hdd Hdh.
  pose proof (lookup_lt_Some _ _ _ Hx) as Hlt.
  assert (st_held a !! i = None) as Hin.
  { destruct (st_held a !! i) as [c|] eqn:Hh; [|done].
    destruct (br_held _ _ _ Hs i c Hh) as (y & Hy & _ & Hby). simplify_eq. congruence. }
  split; [done|]. assert (st_view a b = st_disk a b) as Hvb.
  { destruct (br_view _ _ _ Hs b) as [(j & y & Hy & Hcy)|]; [|done]. by destruct (Hun j y Hy). }
  assert (forall j y, bufs s' !! j = Some y ->
    j = i /\ y = mkbuf 3 ROOTDEV b (st_disk a b) \/ j <> i /\ bufs s !! j = Some y) as Hinv.
  { intros j y. rewrite Hbs, list_lookup_insert_Some. intuition. }
  assert (forall j y, j <> i -> bufs s !! j = Some y -> bufs s' !! j = Some y) as Hkeep.
  { intros j y Hji Hy. rewrite Hbs. by rewrite list_lookup_insert_ne. }
  assert (bufs s' !! i = Some (mkbuf 3 ROOTDEV b (st_disk a b))) as Hx'
    by (rewrite Hbs; by apply list_lookup_insert_eq).
  split; try assumption; simpl.
  - rewrite Hbs, length_insert. apply Hs.
  - intros j y [[-> ->]|[Hji Hy]]%Hinv.
    + split; simpl; try done; [by apply (br_len _ _ _ Hs)|]. intros _. by rewrite lookup_insert_eq.
    + eapply buf_ok_frame; [by apply (br_buf _ _ _ Hs)|simpl; by rewrite lookup_insert_ne|done].
  - intros j k y z c Hy Hz Hcy Hcz. apply Hinv in Hy as [[-> ->]|[Hji Hy]], Hz as [[-> ->]|[Hki Hz]].
    + done.
    + destruct Hcy as [_ Hc]. simpl in Hc. subst c. by destruct (Hun k z Hz).
    + destruct Hcz as [_ Hc]. simpl in Hc. subst c. by destruct (Hun j y Hy).
    + by eapply (br_uniq _ _ _ Hs).
  - intros c. destruct (decide (c = b)) as [->|Hcb]; [left; by exists i, (mkbuf 3 ROOTDEV b (st_disk a b))|].
    destruct (br_view _ _ _ Hs c) as [(j & y & Hy & Hcy)|]; [|by right].
    destruct (decide (j = i)) as [->|Hji]; [|left; eauto].
    right. rewrite Hx in Hy. injection Hy as <-. destruct (br_buf _ _ _ Hs i x Hx) as [_ _ _ _ _ _ _ Hcl].
    destruct Hcy as [Hd <-]. auto.
  - intros c Hc. destruct (br_pinned _ _ _ Hs c Hc) as (j & y & Hy & Hcy & Hdy). exists j, y.
    split; [|done]. apply Hkeep; [|done]. intros ->. simplify_eq. congruence.
  - intros j c. destruct (decide (j = i)) as [->|Hji].
    + rewrite lookup_insert_eq. intros [= <-]. by exists (mkbuf 3 ROOTDEV b (st_disk a b)).
    + rewrite lookup_insert_ne by done. intros Hj. destruct (br_held _ _ _ Hs j c Hj) as (y & Hy & ? & ?). eauto.
  - intros c. rewrite Hdd. apply Hs.
  - rewrite Hdh. apply Hs.
  - apply Hs.
Qed.

(** The first walk of [bget] in any state of the cache. *)
Lemma wp_bget_walk (E : error -> Prop) b s a Q :
  bio_rep None s a ->
  (forall m l, bio_rep (Some BCACHE) (set_bs_mach m s) a -> holds (Some BCACHE) m ->
    length (m_locks m) = length (m_locks (bs_mach s)) -> lru (bnext s) (bprev s) l ->
    wp E (p ← mret (List.find (at_buf (set_bs_mach m s) (is_block ROOTDEV b)) l);
          match p with
          | Some i =>
              x ← getb i;
              if Z.land (b_flags x) B_BUSY =? 0 then
                modb i (fun x => set_flags (Z.lor (b_flags x) B_BUSY) x) ;; release_m BCACHE ;; mret i
              else fail Asleep
          | None =>
              h ← get_link bprev NBUF;
              p ← walk bprev is_free NBUF h;
              match p with
              | Some i =>
                  modb i (fun x => mkbuf B_BUSY ROOTDEV b (b_data x)) ;; release_m BCACHE ;; mret i
              | None => panic "bget: no buffers"
              end
          end) Q (set_bs_mach m s)) ->
  wp E (bget ROOTDEV b) Q s.
Proof.
  intros Hs HQ. pose proof Hs as [Hide Hlk _ [l Hl] Hlen _ _ _ _ _ _ _ _ _].
  unfold bget. apply wp_bind, wp_acquire_m; [apply Hide|unfold BCACHE, FTABLE in *; simpl; lia|].
  intros m Hm _ Hml. simpl in Hml.
  assert (bio_rep (Some BCACHE) (set_bs_mach m s) a) as Hs1 by by eapply rep_mach.
  pose proof (lru_next _ _ _ Hl) as Hcn.
  assert (length l = NBUF) as Hll by (rewrite (lru_perm _ _ _ Hl); apply length_seq).
  apply wp_bind. eapply wp_Ok; [apply get_link_run; simpl; by apply chain_lookup|].
  apply wp_bind. eapply wp_Ok; [eapply walk_run; simpl; [done|intros j; by rewrite (lru_elem _ _ _ _ Hl)|done|lia]|].
  exact (HQ m l Hs1 Hm Hml Hl).
Qed.

Lemma rep_bread b s a :
  bio_rep None s a -> 0 <= b < FSSIZE -> b ∉ held_blocks a ->
  b ∈ st_pinned a \/ (size (in_use a) < NBUF)%nat ->
  exists i s', bread ROOTDEV b s = Ok (i, s') /\ st_held a !! i = None /\
    bio_rep None s' (set_held (<[i := b]> (st_held a)) a).
Proof.
  intros Hs Hbr Hnh Hroom.
  destruct (wp_no_error (bread ROOTDEV b) (fun i s' => st_held a !! i = None /\
    bio_rep None s' (set_held (<[i := b]> (st_held a)) a)) s) as (i & s' & Hr & H); [|eauto].
  pose proof Hs as [Hide Hlk Hd1 [l Hl] Hlen _ _ _ _ _ Hdisk _ _ Hwt].
  unfold bread, bio_cache, bio_bread. apply wp_bind. eapply wp_bget_walk; [done|].
  clear l Hl. intros m l Hs1 Hm Hml Hl. apply wp_bind, wp_ret.
  pose proof (lru_prev _ _ _ Hl) as Hcp.
  assert (length l = NBUF) as Hll by (rewrite (lru_perm _ _ _ Hl); apply length_seq).
  pose proof (walk_block (set_bs_mach m s) a l b Hs1 Hl) as Hw.
  destruct (List.find _ l) as [i|].
  - destruct Hw as (x & Hx & Hc). simpl in Hx. apply wp_bind. eapply wp_Ok; [unfold getb; simpl; by rewrite Hx|].
    pose proof (lookup_lt_Some _ _ _ Hx) as Hlt.
    assert (f_busy (b_flags x) = false) as Hb.
    { destruct (br_buf _ _ _ Hs i x Hx) as [_ _ _ _ Hbu _ _ _]. destruct (f_busy (b_flags x)); [|done].
      destruct Hbu as [_ Hh]; [done|]. destruct Hc as [_ Hno]. rewrite Hno in Hh.
      destruct Hnh. apply elem_held_blocks. eauto. }
    rewrite busy_test, Hb. simpl. apply wp_bind. eapply wp_Ok; [unfold modb; simpl; by rewrite Hx|].
    apply wp_bind, wp_release_m; [done|]. intros m2 Hm2 _ Hml2. simpl in Hml2 |- *.
    apply wp_ret, wp_bind. eapply wp_Ok; [unfold getb; simpl; by rewrite list_lookup_insert_eq|]. simpl.
    destruct (rep_hit i b x s a m2 Hs Hx Hc Hnh Hm2) as (_ & Hno & Hrep); [lia|].
    destruct (br_buf _ _ _ Hs i x Hx) as [Hf _ Hv _ _ _ _ _].
    destruct (flags_busy _ Hf) as (_ & _ & Hf3 & _). destruct Hc as [Hd _]. rewrite (Hv Hd) in Hf3.
    unfold f_valid in Hf3. apply negb_true_iff in Hf3. rewrite Hf3. simpl.
    apply wp_bind, wp_ret, wp_ret. by split.
  - assert (size (in_use a) < NBUF)%nat as Hsz.
    { destruct Hroom as [Hp|]; [|done]. destruct (br_pinned _ _ _ Hs b Hp) as (j & y & Hy & Hcy & _).
      by destruct (Hw j y Hy). }
    apply wp_bind. eapply wp_Ok; [apply get_link_run; simpl; by apply chain_lookup|].
    apply wp_bind. eapply wp_Ok; [eapply walk_run; simpl;
      [done|intros j; by rewrite elem_of_reverse, (lru_elem _ _ _ _ Hl)|done|rewrite length_reverse; lia]|].
    destruct (walk_free (set_bs_mach m s) a l Hs1 Hl Hsz) as (i & x & Hfd & Hx & Hb & Hdi).
    rewrite Hfd. simpl in Hx.
    pose proof (lookup_lt_Some _ _ _ Hx) as Hlt.
    apply wp_bind. eapply wp_Ok; [unfold modb; simpl; by rewrite Hx|].
    apply wp_bind, wp_release_m; [done|]. intros m2 Hm2 _ Hml2. simpl in Hml2 |- *.
    apply wp_ret, wp_bind. eapply wp_Ok; [unfold getb; simpl; by rewrite list_lookup_insert_eq|]. simpl.
    apply wp_bind. set (x1 := mkbuf B_BUSY ROOTDEV b (b_data x)).
    set (s2 := set_bs_mach m2 _).
    assert (bufs s2 !! i = Some x1) as Hx1 by by apply list_lookup_insert_eq.
    apply (wp_iderw [] i x1); [|done| |apply not_elem_of_nil|by right|simpl; rewrite Hwt; apply not_elem_of_nil|simpl; by rewrite Hwt|].
    { pose proof (ide_set_bufs None s i x x1 Hide Hx) as [].
      split; simpl in *; rewrite ?length_insert in *; try done; lia. }
    { split; simpl; [done|done|done|by right|done]. }
    intros s' Hide' Hio (Hbp & Hbn & Hh & Hml') Hw'. simpl in Hw'. rewrite Hwt in Hw'. simpl foldl in Hio.
    rewrite (serve_run _ _ x1) in Hio by exact Hx1. simpl in Hio.
    apply io_fields in Hio as (Hbs & Hdd & Hhh). simpl in Hbs, Hdd, Hhh, Hbp, Hbn, Hh, Hml'.
    rewrite list_insert_insert_eq in Hbs. apply wp_ret.
    apply (rep_recycle i b x s s' a); try done.
    + rewrite Hbs. f_equal. unfold served. simpl. by rewrite Hdisk.
    + rewrite Hbp, Hbn. eauto.
    + lia.
    + congruence.
Qed.

(** ** When [bread] does not return *)

(** The block is in use: its buffer is busy, and [bget] sleeps. *)
Lemma rep_bread_busy b s a : bio_rep None s a -> b ∈ held_blocks a -> bread ROOTDEV b s = Err Asleep.
Proof.
  intros Hs (j & Hj)%elem_held_blocks. destruct (br_held _ _ _ Hs j b Hj) as (y & Hy & Hcy & Hby).
  assert (H : wp (eq Asleep) (bread ROOTDEV b) (fun _ _ => False) s).
  { apply wp_bind. eapply wp_bget_walk; [done|]. intros m l Hs1 _ _ Hl. apply wp_bind, wp_ret.
    pose proof (walk_block (set_bs_mach m s) a l b Hs1 Hl) as Hw. destruct (List.find _ l) as [i|].
    - destruct Hw as (x & Hx & Hc). simpl in Hx.
      assert (i = j) as -> by by eapply (br_uniq _ _ _ Hs i j x y b).
      apply wp_bind. eapply wp_Ok; [unfold getb; simpl; by rewrite Hy|]. by rewrite busy_test, Hby.
    - by destruct (Hw j y Hy). }
  unfold wp in H. destruct (bread ROOTDEV b s) as [[]|e]; [done|]. by subst.
Qed.

Lemma size_list_to_set_le (l : list Z) : (size (list_to_set l : gset Z) <= length l)%nat.
Proof.
  induction l as [|x l IH]; [by vm_compute|]. rewrite list_to_set_cons, size_union_alt, size_singleton. simpl length.
  pose proof (subseteq_size (list_to_set l ∖ {[x]}) (list_to_set l : gset Z)) as H. specialize (H ltac:(set_solver)). lia.
Qed.

(** With [NBUF] blocks in use there is no other block in the cache and no
    buffer to recycle. *)
Lemma all_used s a : bio_rep None s a -> (NBUF <= size (in_use a))%nat ->
  forall i x, bufs s !! i = Some x -> f_busy (b_flags x) = true \/ f_dirty (b_flags x) = true.
Proof.
  intros Hs Hsz i x Hx. set (used := fun x => f_busy (b_flags x) = true \/ f_dirty (b_flags x) = true).
  destruct (decide (used x)) as [|Hn]; [done|]. exfalso.
  assert (in_use a ⊆ list_to_set (b_blockno <$> filter used (bufs s))) as Hsub.
  { intros b Hb. apply elem_of_list_to_set, list_elem_of_fmap.
    assert (exists j y, bufs s !! j = Some y /\ caches b y /\ used y) as (j & y & Hy & [_ <-] & Hu).
    { apply elem_of_union in Hb as [Hp|(j & Hj)%elem_held_blocks].
      - destruct (br_pinned _ _ _ Hs b Hp) as (j & y & ? & ? & ?). exists j, y. unfold used. auto.
      - destruct (br_held _ _ _ Hs j b Hj) as (y & ? & ? & ?). exists j, y. unfold used. auto. }
    exists y. split; [done|]. apply list_elem_of_filter. split; [done|]. by eapply list_elem_of_lookup_2. }
  apply subseteq_size in Hsub. pose proof (size_list_to_set_le (b_blockno <$> filter used (bufs s))) as Hle.
  pose proof (length_filter_lt used (bufs s) x (list_elem_of_lookup_2 _ _ _ Hx) Hn) as Hlt.
  rewrite length_fmap in Hle. rewrite (br_bufs _ _ _ Hs) in Hlt. lia.
Qed.

Lemma rep_bread_full b s a : bio_rep None s a -> b ∉ in_use a -> (NBUF <= size (in_use a))%nat ->
  bread ROOTDEV b s = Err (Panic "bget: no buffers").
Proof.
  intros Hs Hb Hsz. pose proof (all_used s a Hs Hsz) as Hall.
  assert (H : wp (eq (Panic "bget: no buffers")) (bread ROOTDEV b) (fun _ _ => False) s).
  { apply wp_bind. eapply wp_bget_walk; [done|]. intros m l Hs1 _ _ Hl. apply wp_bind, wp_ret.
    pose proof (walk_block (set_bs_mach m s) a l b Hs1 Hl) as Hw. destruct (List.find _ l) as [i|].
    - exfalso. destruct Hw as (x & Hx & [Hd Hno]). apply Hb. destruct (br_buf _ _ _ Hs i x Hx) as [_ _ _ _ Hbu Hdi _ _].
      apply elem_of_union. rewrite <-Hno. destruct (Hall i x Hx) as [Hu|Hu]; [right|left; by apply Hdi].
      apply elem_held_blocks. exists i. by apply Hbu.
    - assert (length l = NBUF) as Hll by (rewrite (lru_perm _ _ _ Hl); apply length_seq).
      pose proof (lru_prev _ _ _ Hl) as Hcp.
      apply wp_bind. eapply wp_Ok; [apply get_link_run; simpl; by apply chain_lookup|].
      apply wp_bind. eapply wp_Ok; [eapply walk_run; simpl;
        [done|intros j; by rewrite elem_of_reverse, (lru_elem _ _ _ _ Hl)|by rewrite (br_bufs _ _ _ Hs)|rewrite length_reverse; lia]|].
      destruct (List.find _ (reverse l)) as [i|] eqn:Hf; [exfalso|done].
      apply List.find_some in Hf as [_ Hf]. unfold at_buf in Hf. simpl in Hf.
      destruct (bufs s !! i) as [x|] eqn:Hx; [|done]. rewrite is_free_test in Hf.
      apply andb_true_iff in Hf as [H1%negb_true_iff H2%negb_true_iff]. destruct (Hall i x Hx); congruence. }
  unfold wp in H. destruct (bread ROOTDEV b s) as [[]|e]; [done|]. by subst.
Qed.

#[export] Instance bio_spec : BufferCacheSpec (bst W).
Proof.
  refine {| represents := bio_rep |}.
  - intros l s a _ Hs. eexists. split; [done|]. eapply rep_mach; [done| |simpl; by rewrite length_insert].
    destruct (iv_mach _ _ _ (br_ide _ _ _ Hs)). split; simpl; try done. by apply Forall_insert.
  - intros l s a Hl Hs. destruct (wp_no_error (bc_acquire l) (fun _ s' => bio_rep (Some l) s' a) s)
      as ([] & s' & Hr & H); [|eauto].
    apply wp_acquire_m; [apply Hs| |].
    + pose proof (br_locks _ _ _ Hs). destruct Hl as [->|[->| ->]]; simpl; unfold LOGLOCK, ICACHE, FTABLE in *; lia.
    + intros m Hm _ Hml. by eapply rep_mach.
  - intros l s a Hs. destruct (wp_no_error (bc_release l) (fun _ s' => bio_rep None s' a) s)
      as ([] & s' & Hr & H); [|eauto].
    apply wp_release_m; [apply Hs|]. intros m Hm _ Hml. by eapply rep_mach.
  - intros ch h s a Hs. eexists. split; [done|]. eapply rep_mach; [done|by apply holds_wake, Hs|done].
  - apply rep_bread.
  - apply rep_get.
  - apply rep_put.
  - apply rep_no.
  - apply rep_pin.
  - apply rep_bwrite.
  - apply rep_brelse.
  - intros h s a b Hs Hb. destruct (br_view _ _ _ Hs b) as [(i & x & Hx & [Hd <-])| ->].
    + destruct (br_buf _ _ _ Hs i x Hx). by rewrite <-bo_data0.
    + by apply (br_len _ _ _ Hs).
  - intros h s a b Hs Hb. destruct (br_view _ _ _ Hs b) as [(i & x & Hx & Hc)|]; [|done].
    unfold in_use in Hb. rewrite not_elem_of_union in Hb. destruct Hb as [Hp Hh].
    destruct (br_buf _ _ _ Hs i x Hx) as [_ _ _ _ Hbu Hdi _ Hcl]. destruct Hc as [Hd Hno].
    rewrite Hno in *. apply Hcl; [done| |].
    + destruct (f_busy (b_flags x)); [|done]. destruct Hbu as [_ Hi]; [done|].
      destruct Hh. apply elem_held_blocks. eauto.
    + destruct (f_dirty (b_flags x)); [|done]. by destruct Hdi.
Defined.
End rep.
