(* ===== verification/BioTheorems.v ===== *)
(** * Properties of the buffer cache and the disk driver

    [binit] builds an empty cache over any disk, any script of cache operations
    that keeps to the rules of the interface behaves as if there were no buffers
    ([cache_runs]), and a released buffer becomes the most recently used one.  The states of this file, a cache over a disk of
    numbered blocks, also serve the runs of the log. *)

From stdpp Require Import base numbers list gmap sets strings.
From S2P Require Import Prelude Strings Bytes Spinlock Machine Ide Store Bio.

Open Scope Z_scope.

(** ** The initial cache *)

Section binit.
Context {W : Type} {SC : Sched W}.
Implicit Types s : bst W.

(** The memory [binit] finds: buffers and links as the loader left them, the
    driver idle. *)
Record zeroed (s : bst W) : Prop := {
  ze_ide : ide_inv None s [];
  ze_locks : (FTABLE < length (m_locks (bs_mach s)))%nat;
  ze_disk1 : havedisk1 s = true;
  ze_next : length (bnext s) = S NBUF;
  ze_prev : length (bprev s) = S NBUF;
  ze_bufs : length (bufs s) = NBUF;
  ze_buf : forall i x, bufs s !! i = Some x -> b_flags x = 0 /\ length (b_data x) = BSIZE;
  ze_hist : d_hist (drv s) = [];
  ze_len : forall b, 0 <= b < FSSIZE -> length (d_disk (drv s) ROOTDEV b) = BSIZE;
  ze_wait : bwait s = [];
}.

(** An empty cache over the disk [d]. *)
Definition empty_store (d : Z -> list Z) : store := mkstore d [] d ∅ ∅.

(** After [k] rounds: the list holds [k-1, ..., 0] and their [dev] is not a disk. *)
Record linked (k : nat) (s : bst W) : Prop := {
  lk_next : chain (bnext s) NBUF (reverse (seq 0 k)) NBUF;
  lk_prev : chain (bprev s) NBUF (seq 0 k) NBUF;
  lk_dev : forall i x, bufs s !! i = Some x -> (i < k)%nat -> b_dev x = u32 (-1);
}.

Lemma end_of_seq k : end_of NBUF (seq 0 (S k)) = k.
Proof. rewrite seq_S. apply end_of_app. Qed.

Definition init_links (b h : nat) (x : buf) (s : bst W) : bst W :=
  set_bnext (<[NBUF := b]> (<[b := h]> (bnext s)))
    (set_bprev (<[h := b]> (<[b := NBUF]> (bprev s)))
      (set_bufs (<[b := mkbuf (b_flags x) (u32 (-1)) (b_blockno x) (b_data x)]> (bufs s)) s)).

Lemma binit_round b h x bs s :
  (b < NBUF)%nat -> (h <= NBUF)%nat -> bnext s !! NBUF = Some h -> bufs s !! b = Some x ->
  length (bnext s) = S NBUF -> length (bprev s) = S NBUF ->
  binit_loop (b :: bs) s = binit_loop bs (init_links b h x s).
Proof.
  intros Hb Hh Hn Hx Hln Hlp. cbn [binit_loop].
  erewrite bind_Ok by (unfold get_link; by rewrite Hn).
  destruct (lookup_lt_is_Some_2 (bnext s) b) as [n0 Hn0]; [lia|].
  erewrite bind_Ok by (unfold put_next; by rewrite Hn0).
  destruct (lookup_lt_is_Some_2 (bprev s) b) as [p0 Hp0]; [lia|].
  erewrite bind_Ok by (unfold put_prev; cbn [bprev set_bnext]; by rewrite Hp0).
  erewrite bind_Ok by (unfold modb; cbn [bufs set_bprev set_bnext]; by rewrite Hx).
  erewrite bind_Ok by (unfold get_link; cbn [bnext set_bprev set_bnext set_bufs]; by rewrite list_lookup_insert_ne, Hn by lia).
  erewrite bind_Ok.
  2: { unfold put_prev. cbn [bprev set_bprev set_bnext set_bufs].
       destruct (lookup_lt_is_Some_2 (<[b := NBUF]> (bprev s)) h) as [y Hy]; [rewrite length_insert; lia|].
       by rewrite Hy. }
  erewrite bind_Ok.
  2: { unfold put_next. cbn [bnext set_bprev set_bnext set_bufs].
       destruct (lookup_lt_is_Some_2 (<[b := h]> (bnext s)) NBUF) as [y Hy]; [rewrite length_insert; lia|].
       by rewrite Hy. }
  done.
Qed.

Lemma linked_round k x s :
  linked k s -> (k < NBUF)%nat -> bufs s !! k = Some x ->
  length (bnext s) = S NBUF -> length (bprev s) = S NBUF ->
  exists h, (h <= NBUF)%nat /\ bnext s !! NBUF = Some h /\ linked (S k) (init_links k h x s).
Proof.
  intros [Hn Hp Hd] Hk Hx Hln Hlp.
  set (h := end_of NBUF (seq 0 k)).
  assert (Hh : bnext s !! NBUF = Some h).
  { rewrite (chain_lookup _ _ _ _ Hn). f_equal. unfold h.
    destruct k as [|k]; [done|]. by rewrite end_of_seq, seq_S, reverse_snoc. }
  assert (Hhk : h = NBUF \/ (h < k)%nat).
  { unfold h. destruct k as [|k]; [by left|]. rewrite end_of_seq. right. lia. }
  exists h. split_and!; [lia|done|].
  split; unfold init_links; cbn [bnext bprev bufs set_bnext set_bprev set_bufs].
  - rewrite seq_S, reverse_snoc. apply chain_front; [done|done| |lia|].
    + rewrite not_elem_of_cons, elem_of_reverse, elem_of_seq. lia.
    + rewrite elem_of_reverse, elem_of_seq. lia.
  - rewrite seq_S. apply chain_back; [done| | |lia].
    + apply NoDup_cons. split; [rewrite elem_of_seq; lia|apply NoDup_seq].
    + rewrite not_elem_of_cons, elem_of_seq. simpl. lia.
  - intros i y Hi Hik. destruct (decide (i = k)) as [->|Hne].
    + rewrite list_lookup_insert_eq in Hi by by eapply lookup_lt_Some. by injection Hi as <-.
    + rewrite list_lookup_insert_ne in Hi by done. apply (Hd i); [done|lia].
Qed.
Lemma zeroed_links b h x s : zeroed s -> bufs s !! b = Some x -> zeroed (init_links b h x s).
Proof.
  intros [Hi ? ? ? ? ? Hz ? ? ?] Hx. unfold init_links.
  split; cbn [bs_mach bufs bprev bnext qnext idequeue havedisk1 drv bwait set_bnext set_bprev set_bufs];
    rewrite ?length_insert; try done.
  - pose proof (ide_set_bufs None s b x (mkbuf (b_flags x) (u32 (-1)) (b_blockno x) (b_data x)) Hi Hx) as [].
    by split.
  - intros i y Hy. apply list_lookup_insert_Some in Hy as [(-> & <- & _)|[_ Hy]]; [|by apply (Hz i)].
    by apply (Hz i) in Hx.
Qed.

Lemma binit_loop_run m k s : linked k s -> zeroed s -> (k + m = NBUF)%nat ->
  exists s', binit_loop (seq k m) s = Ok (tt, s') /\ linked NBUF s' /\ zeroed s' /\ drv s' = drv s.
Proof.
  revert k s. induction m as [|m IH]; intros k s Hl Hz Hkm.
  { exists s. rewrite Nat.add_0_r in Hkm. by subst. }
  destruct (lookup_lt_is_Some_2 (bufs s) k) as [x Hx]; [rewrite (ze_bufs _ Hz); lia|].
  destruct (linked_round k x s) as (h & Hh & Hn & Hl'); [done|lia|done|apply Hz..|].
  destruct (IH (S k) (init_links k h x s)) as (s' & Hr & Hl2 & Hz2 & Hd); [done|by apply zeroed_links|lia|].
  exists s'. split_and!; try done. cbn [seq].
  rewrite (binit_round k h x); [done|lia|done|done|done|apply Hz..].
Qed.

Lemma linked_rep s : linked NBUF s -> zeroed s -> bio_rep None s (empty_store (d_disk (drv s) ROOTDEV)).
Proof.
  intros [Hn Hp Hd] [Hi ? ? ? ? Hbl Hz Hhi Hlen Hwt].
  assert (Hdev : forall i x, bufs s !! i = Some x -> b_dev x <> ROOTDEV).
  { intros i x Hx. rewrite (Hd i x Hx); [done|]. apply lookup_lt_Some in Hx. lia. }
  split; simpl; try done.
  - exists (reverse (seq 0 NBUF)). split; [done| | |done|done].
    + by rewrite reverse_involutive.
    + by rewrite reverse_Permutation.
  - intros i x Hx. destruct (Hz i x Hx) as [Hf Hl]. pose proof (Hdev i x Hx).
    split; try done; rewrite ?Hf; try done; lia.
  - intros i j x y b Hx _ [Hc _]. by destruct (Hdev i x Hx).
  - by right.
Qed.

End binit.

Lemma binit_run {W} {SC : Sched W} (s : bst W) :
  zeroed s ->
  exists s', binit s = Ok (tt, s') /\ bio_rep None s' (empty_store (d_disk (drv s) ROOTDEV)) /\ drv s' = drv s.
Proof.
  intros Hz. unfold binit. erewrite bind_Ok by done. set (m1 := mkmach (<[BCACHE := initlock]> (m_locks (bs_mach s))) (m_cpu (bs_mach s)) (m_world (bs_mach s))).
  change (put_mach _ s) with (set_bs_mach m1 s). set (s1 := set_bs_mach m1 s).
  assert (Hz1 : zeroed s1).
  { destruct Hz as [[Hq ? ? ? ? ? ? ? ?] ? ? ? ? ? ? ? ? ?].
    split; simpl; rewrite ?length_insert; try done. split; simpl; rewrite ?length_insert; try done.
    destruct Hq. split; simpl; try done. by apply Forall_insert. }
  assert (Hd1 : drv s1 = drv s) by done. clearbody s1.
  destruct (lookup_lt_is_Some_2 (bprev s1) NBUF) as [p Hp]; [rewrite (ze_prev _ Hz1); lia|].
  erewrite bind_Ok by (unfold put_prev; by rewrite Hp).
  destruct (lookup_lt_is_Some_2 (bnext s1) NBUF) as [n Hn]; [rewrite (ze_next _ Hz1); lia|].
  erewrite bind_Ok by (unfold put_next; cbn [bnext set_bprev]; by rewrite Hn).
  set (s2 := set_bnext _ _).
  destruct (binit_loop_run NBUF 0 s2) as (s' & Hr & Hl & Hz' & Hd); [| |done|].
  - split; simpl.
    + apply list_lookup_insert_eq. by eapply lookup_lt_Some.
    + apply list_lookup_insert_eq. by eapply lookup_lt_Some.
    + lia.
  - destruct Hz1 as [[] ? ? ? ? ? ? ? ? ?]. split; simpl; rewrite ?length_insert; try done.
  - exists s'. simpl in Hd. rewrite <-Hd1, <-Hd. split_and!; [done| |done]. by apply linked_rep.
Qed.

(** [binit] on the memory as loaded returns, and the cache then stands for
    the disk as it is: every block has its contents on the disk, no buffer is in
    use or waits to be written, and the doubly linked list holds each buffer
    once. *)
Theorem binit_correct {W} {SC : Sched W} (s : bst W) :
  zeroed s ->
  exists s', binit s = Ok (tt, s') /\ bio_rep None s' (empty_store (d_disk (drv s) ROOTDEV)) /\ drv s' = drv s.
Proof. apply binit_run. Qed.

(** ** Concrete states *)

#[global] Instance unit_sched : Sched unit := {| wake := fun _ w => w; killed := fun _ => false |}.

(** The machine at boot over the disk [d]. *)
Definition boot (d : Z -> list Z) : bst unit :=
  mkbst (boot_mach 5 tt) (replicate NBUF (mkbuf 0 0 0 (replicate BSIZE 0)))
    (replicate (S NBUF) 0%nat) (replicate (S NBUF) 0%nat) (replicate NBUF None) None true
    (mkdrive (fun _ => 0) None [] [] false (fun _ => d) [] 1 2) [].

Lemma boot_zeroed d : (forall b, 0 <= b < FSSIZE -> length (d b) = BSIZE) -> zeroed (boot d).
Proof.
  intros Hd. split; simpl; try done.
  - split; simpl; try done; try first [apply boot_quiet|apply NoDup_nil_2|unfold IDELOCK; lia|lia].
    intros i Hi. by apply not_elem_of_nil in Hi.
  - unfold FTABLE. lia.
  - intros i x Hx. change (replicate NBUF (mkbuf 0 0 0 (replicate BSIZE 0)) !! i = Some x) in Hx.
    apply lookup_replicate in Hx as [-> _]. by split.
Qed.

(** Block [b] filled with the byte [b mod 256]. *)
Definition numbered (b : Z) : list Z := replicate BSIZE (b mod 256).

Lemma binit_correct_witness :
  zeroed (boot numbered) /\ exists s', binit (boot numbered) = Ok (tt, s') /\
    bio_rep None s' (empty_store numbered) /\ drv s' = drv (boot numbered).
Proof.
  assert (zeroed (boot numbered)) as Hz by (apply boot_zeroed; intros; apply length_replicate).
  split; [exact Hz|]. exact (binit_correct (boot numbered) Hz).
Defined.

(** ** Scripts of cache operations *)

(** What a client does with disk blocks: [bread], reading and assigning the data
    of the buffer, setting [B_DIRTY] as [log_write] does, [bwrite], [brelse]. *)
Inductive cache_op :=
  | TakeBlock (b : Z)
  | GetData (b : Z)
  | PutData (b : Z) (d : list Z)
  | PinBlock (b : Z)
  | WriteBlock (b : Z)
  | ReleaseBlock (b : Z).

Section script.
Context {W : Type} {SC : Sched W}.

(** The client's pointers: the buffers [bread] gave it. *)
Definition pointer (f : gmap Z nat) (b : Z) : M (bst W) nat :=
  match f !! b with Some i => mret i | None => fail Fault end.

Definition cache_step (f : gmap Z nat) (o : cache_op) : M (bst W) (gmap Z nat * list (list Z)) :=
  match o with
  | TakeBlock b => i ← bio_bread ROOTDEV b; mret (<[b := i]> f, [])
  | GetData b => i ← pointer f b; d ← b_get i; mret (f, [d])
  | PutData b d => i ← pointer f b; b_put i d ;; mret (f, [])
  | PinBlock b => i ← pointer f b; b_pin i ;; mret (f, [])
  | WriteBlock b => i ← pointer f b; bio_bwrite i ;; mret (f, [])
  | ReleaseBlock b => i ← pointer f b; bio_brelse i ;; mret (delete b f, [])
  end.

(** The data the client reads, in order. *)
Fixpoint cache_run (f : gmap Z nat) (ops : list cache_op) : M (bst W) (list (list Z)) :=
  match ops with
  | [] => mret []
  | o :: ops =>
      r ← cache_step f o;
      out ← cache_run r.1 ops;
      mret (r.2 ++ out)
  end.
End script.

(** The same without buffers: contents of blocks, in memory and on the disk, the
    writes in order, and the blocks the client has or has pinned. *)
Record blocks := mkblocks {
  bk_now : Z -> list Z;
  bk_disk : Z -> list Z;
  bk_writes : list (Z * list Z);
  bk_taken : gset Z;
  bk_pinned : gset Z;
}.

Definition block_step (r : blocks) (o : cache_op) : outcome (list (list Z) * blocks) :=
  let 'mkblocks now disk ws tk pn := r in
  match o with
  | TakeBlock b =>
      if bool_decide (b ∈ tk) then Err Asleep
      else if bool_decide (b ∈ pn \/ (size (pn ∪ tk) < NBUF)%nat) then Ok ([], mkblocks now disk ws ({[b]} ∪ tk) pn)
      else Err (Panic "bget: no buffers")
  | GetData b => Ok ([now b], r)
  | PutData b d => Ok ([], mkblocks (upd now b d) disk ws tk pn)
  | PinBlock b => Ok ([], mkblocks now disk ws tk ({[b]} ∪ pn))
  | WriteBlock b => Ok ([], mkblocks now (upd disk b (now b)) (ws ++ [(b, now b)]) tk (pn ∖ {[b]}))
  | ReleaseBlock b => Ok ([], mkblocks now disk ws (tk ∖ {[b]}) pn)
  end.

Fixpoint block_run (r : blocks) (ops : list cache_op) : outcome (list (list Z) * blocks) :=
  match ops with
  | [] => Ok ([], r)
  | o :: ops =>
      match block_step r o with
      | Err e => Err e
      | Ok (out, r) => match block_run r ops with Err e => Err e | Ok (outs, r) => Ok (out ++ outs, r) end
      end
  end.

(** The rules of the interface: a client uses blocks of the disk, those it has
    taken, and gives none back with contents that are neither written nor
    pinned. *)
Definition rule (r : blocks) (o : cache_op) : bool :=
  match o with
  | TakeBlock b => bool_decide (0 <= b < FSSIZE)
  | GetData b | PinBlock b | WriteBlock b => bool_decide (b ∈ bk_taken r)
  | PutData b d => bool_decide (b ∈ bk_taken r /\ length d = BSIZE)
  | ReleaseBlock b => bool_decide (b ∈ bk_taken r /\ (b ∈ bk_pinned r \/ bk_now r b = bk_disk r b))
  end.

Fixpoint obeys (r : blocks) (ops : list cache_op) : bool :=
  match ops with
  | [] => true
  | o :: ops => rule r o && match block_step r o with Ok (_, r) => obeys r ops | Err _ => true end
  end.

(** Nothing taken, the disk [d]. *)
Definition all_blocks (d : Z -> list Z) : blocks := mkblocks d d [] ∅ ∅.

Section clients.
Context {W : Type} {SC : Sched W}.
Implicit Types (s : bst W) (a : store).

Lemma none_held a : st_held a = ∅ -> held_blocks a = ∅.
Proof. intros Hh. unfold held_blocks. by rewrite Hh, map_to_list_empty. Qed.

Lemma none_in_use a : st_held a = ∅ -> st_pinned a = ∅ -> in_use a = ∅.
Proof. intros Hh Hp. unfold in_use. rewrite none_held, Hp by done. set_solver. Qed.

Lemma take_one b s a :
  bio_rep None s a -> st_held a = ∅ -> st_pinned a = ∅ -> 0 <= b < FSSIZE ->
  exists i s1, bio_bread ROOTDEV b s = Ok (i, s1) /\ bio_rep None s1 (set_held {[i := b]} a).
Proof.
  intros Hs Hh Hp Hb.
  destruct (rep_bread b s a) as (i & s1 & H1 & _ & Hr1); [done|done| | |].
  - rewrite none_held by done. set_solver.
  - right. rewrite none_in_use, size_empty by done. unfold NBUF. lia.
  - exists i, s1. split; [done|]. by rewrite Hh, insert_empty in Hr1.
Qed.

(** The client's pointers, the state of the cache and the blocks agree. *)
Record agree (f : gmap Z nat) a (r : blocks) : Prop := {
  ag_now : st_view a = bk_now r;
  ag_disk : st_disk a = bk_disk r;
  ag_hist : st_hist a = bk_writes r;
  ag_pinned : st_pinned a = bk_pinned r;
  ag_taken : held_blocks a = bk_taken r;
  ag_pointer : forall b i, f !! b = Some i <-> st_held a !! i = Some b;
}.

Lemma agree_pointer f a r b : agree f a r -> b ∈ bk_taken r -> exists i, f !! b = Some i /\ st_held a !! i = Some b.
Proof.
  intros H Hb. rewrite <-(ag_taken _ _ _ H) in Hb. apply elem_held_blocks in Hb as [i Hi]. exists i.
  split; [|done]. by apply (ag_pointer _ _ _ H).
Qed.

Lemma pointer_run f b i s : f !! b = Some i -> pointer f b s = Ok (i, s).
Proof. intros H. unfold pointer. by rewrite H. Qed.

Lemma agree_take f a r b i : agree f a r -> b ∉ bk_taken r -> st_held a !! i = None ->
  agree (<[b := i]> f) (set_held (<[i := b]> (st_held a)) a)
    (mkblocks (bk_now r) (bk_disk r) (bk_writes r) ({[b]} ∪ bk_taken r) (bk_pinned r)).
Proof.
  intros [? ? ? ? Ht Hp] Hb Hi. split; simpl; try done.
  - apply set_eq. intros c. rewrite elem_held_blocks, elem_of_union, elem_of_singleton, <-Ht, elem_held_blocks. simpl. split.
    + intros [j Hj]. apply lookup_insert_Some in Hj as [[_ Hj]|[_ Hj]]; [by left|right; eauto].
    + intros [->|[j Hj]]; [exists i; by rewrite lookup_insert_eq|]. exists j. rewrite lookup_insert_ne; [done|congruence].
  - intros c j. rewrite !lookup_insert_Some, Hp. split; [|intros [[-> ->]|[Hij Hc]]; [by left|]].
    + intros [[-> ->]|[Hne Hc]]; [by left|]. right. split; [congruence|done].
    + right. split; [|done]. intros ->. apply Hb. rewrite <-Ht. apply elem_held_blocks. eauto.
Qed.

Lemma agree_release f a r b i : agree f a r -> f !! b = Some i -> st_held a !! i = Some b ->
  agree (delete b f) (set_held (delete i (st_held a)) a)
    (mkblocks (bk_now r) (bk_disk r) (bk_writes r) (bk_taken r ∖ {[b]}) (bk_pinned r)).
Proof.
  intros [? ? ? ? Ht Hp] Hf Hi. split; simpl; try done.
  - apply set_eq. intros c. rewrite elem_held_blocks, elem_of_difference, elem_of_singleton, <-Ht, elem_held_blocks. simpl. split.
    + intros [j Hj]. apply lookup_delete_Some in Hj as [Hne Hj]. split; [eauto|]. intros ->.
      apply Hp in Hj. congruence.
    + intros [[j Hj] Hne]. exists j. rewrite lookup_delete_Some. split; [congruence|done].
  - intros c j. rewrite !lookup_delete_Some, Hp. split; intros [Hne Hc]; (split; [|done]); intros ->; [congruence|].
    apply Hp in Hc. congruence.
Qed.

(** [bread] does what the blocks say, on every branch. *)
Lemma take_sim f s a r b :
  bio_rep None s a -> agree f a r -> rule r (TakeBlock b) = true ->
  match block_step r (TakeBlock b) with
  | Ok (out, r') => exists f' s' a', cache_step f (TakeBlock b) s = Ok ((f', out), s') /\ bio_rep None s' a' /\ agree f' a' r'
  | Err e => cache_step f (TakeBlock b) s = Err e
  end.
Proof.
  intros Hs Ha Hr%bool_decide_eq_true. pose proof Ha as [_ _ _ Hpn Htk _].
  assert (Hu : in_use a = bk_pinned r ∪ bk_taken r) by (unfold in_use; congruence).
  destruct r as [now disk ws tk pn]. simpl in *. case_bool_decide as Ht; [|case_bool_decide as Hroom].
  - rewrite <-Htk in Ht. unfold cache_step, mbind, M_bind. pose proof (rep_bread_busy b s a Hs Ht) as Hb.
    simpl in Hb. by rewrite Hb.
  - rewrite <-Htk in Ht. rewrite <-Hu, <-Hpn in Hroom.
    destruct (rep_bread b s a Hs Hr Ht Hroom) as (i & s1 & H1 & Hi & Hr1).
    exists (<[b := i]> f), s1, (set_held (<[i := b]> (st_held a)) a). split_and!; [|done|].
    + unfold cache_step. erewrite bind_Ok by exact H1. done.
    + refine (agree_take f a _ b i Ha _ Hi). simpl. congruence.
  - apply Decidable.not_or in Hroom as [Hnp Hfull]. unfold cache_step, mbind, M_bind.
    assert (Hb : bread ROOTDEV b s = Err (Panic "bget: no buffers")); [|simpl in Hb; by rewrite Hb].
    eapply rep_bread_full; [done|rewrite Hu; set_solver|rewrite Hu; lia].
Qed.

(** Each operation on a block the client has. *)
Lemma step_sim f s a r o :
  bio_rep None s a -> agree f a r -> rule r o = true ->
  match block_step r o with
  | Ok (out, r') => exists f' s' a', cache_step f o s = Ok ((f', out), s') /\ bio_rep None s' a' /\ agree f' a' r'
  | Err e => cache_step f o s = Err e
  end.
Proof.
  intros Hs Ha Hr. destruct o as [b|b|b d|b|b|b]; [by apply (take_sim f s a r b)|..];
    apply bool_decide_eq_true in Hr; pose proof Ha as [Hnow Hdisk Hhist Hpn Htk Hptr]; destruct r as [now disk ws tk pn];
    unfold cache_step; simpl in *; subst now disk ws pn tk.
  - destruct (agree_pointer _ _ _ b Ha Hr) as (i & Hf & Hi). exists f, s, a. erewrite bind_Ok by by apply pointer_run.
    by erewrite bind_Ok by exact (rep_get i b _ _ _ Hs Hi).
  - destruct Hr as [Hr Hd]. destruct (agree_pointer _ _ _ b Ha Hr) as (i & Hf & Hi).
    destruct (rep_put i b d _ _ _ Hs Hi Hd) as (s1 & H1 & Hr1). eexists f, s1, _.
    erewrite bind_Ok by by apply pointer_run. erewrite bind_Ok by exact H1. by split_and!.
  - destruct (agree_pointer _ _ _ b Ha Hr) as (i & Hf & Hi).
    destruct (rep_pin i b _ _ _ Hs Hi) as (s1 & H1 & Hr1). eexists f, s1, _.
    erewrite bind_Ok by by apply pointer_run. erewrite bind_Ok by exact H1. by split_and!.
  - destruct (agree_pointer _ _ _ b Ha Hr) as (i & Hf & Hi).
    destruct (rep_bwrite i b _ _ Hs Hi) as (s1 & H1 & Hr1). eexists f, s1, _.
    erewrite bind_Ok by by apply pointer_run. erewrite bind_Ok by exact H1. by split_and!.
  - destruct Hr as [Hr Hd]. destruct (agree_pointer _ _ _ b Ha Hr) as (i & Hf & Hi).
    destruct (rep_brelse i b _ _ Hs Hi Hd) as (s1 & H1 & Hr1). eexists (delete b f), s1, _.
    erewrite bind_Ok by by apply pointer_run. erewrite bind_Ok by exact H1. split_and!; [done|exact Hr1|].
    exact (agree_release _ _ _ b i Ha Hf Hi).
Qed.

Lemma cache_sim f s a r ops :
  bio_rep None s a -> agree f a r -> obeys r ops = true ->
  match block_run r ops with
  | Ok (out, r') => exists f' s' a', cache_run f ops s = Ok (out, s') /\ bio_rep None s' a' /\ agree f' a' r'
  | Err e => cache_run f ops s = Err e
  end.
Proof.
  revert f s a r. induction ops as [|o ops IH]; intros f s a r Hs Ha Hr; [by exists f, s, a|].
  simpl in Hr. apply andb_true_iff in Hr as [Ho Hr]. pose proof (step_sim f s a r o Hs Ha Ho) as H1.
  simpl. destruct (block_step r o) as [[out r1]|e].
  - destruct H1 as (f1 & s1 & a1 & H1 & Hs1 & Ha1). specialize (IH f1 s1 a1 r1 Hs1 Ha1 Hr).
    destruct (block_run r1 ops) as [[outs r2]|e].
    + destruct IH as (f2 & s2 & a2 & H2 & Hs2 & Ha2). exists f2, s2, a2. split; [|done].
      erewrite bind_Ok by exact H1. by erewrite bind_Ok by exact H2.
    + erewrite bind_Ok by exact H1. unfold mbind, M_bind. simpl. by rewrite IH.
  - unfold mbind, M_bind. by rewrite H1.
Qed.
End clients.

(** C11. From the memory as loaded, [binit] and then any script that keeps to the
    rules of the interface behave as if there were no buffers.  The client reads
    the contents every block last got, whether its buffer was kept or recycled
    meanwhile; the disk has the contents of the last [bwrite] of each block and
    took the writes in order; [bread] sleeps exactly on a block in use, and panics
    exactly when [NBUF] other blocks are in use or pinned. *)
Theorem cache_runs {W} {SC : Sched W} (s : bst W) ops :
  zeroed s -> obeys (all_blocks (d_disk (drv s) ROOTDEV)) ops = true ->
  match block_run (all_blocks (d_disk (drv s) ROOTDEV)) ops with
  | Ok (out, r) => exists s', (binit ;; cache_run ∅ ops) s = Ok (out, s') /\
      (forall b, d_disk (drv s') ROOTDEV b = bk_disk r b) /\
      d_hist (drv s') = (fun p => (ROOTDEV, p.1, p.2)) <$> bk_writes r
  | Err e => (binit ;; cache_run ∅ ops) s = Err e
  end.
Proof.
  intros Hz Ho. destruct (binit_run s Hz) as (s1 & H1 & Hs1 & _).
  assert (Ha : agree ∅ (empty_store (d_disk (drv s) ROOTDEV)) (all_blocks (d_disk (drv s) ROOTDEV))) by by split.
  pose proof (cache_sim ∅ s1 _ _ ops Hs1 Ha Ho) as H. destruct (block_run _ ops) as [[out r]|e].
  - destruct H as (f & s2 & a & H2 & Hs2 & [_ Hd Hh _ _ _]). exists s2. erewrite bind_Ok by exact H1.
    rewrite H2, <-Hd, <-Hh. split_and!; [done|apply Hs2..].
  - erewrite bind_Ok by exact H1. exact H.
Qed.

(** [brelse] makes the buffer the most recently used one and keeps the order
    of the others, so that [bget], which looks for a buffer to recycle from the
    end of the list, takes the least recently used free one. *)
Theorem brelse_most_recent {W} {SC : Sched W} (s : bst W) a i b l1 l2 :
  bio_rep None s a -> st_held a !! i = Some b -> lru (bnext s) (bprev s) (l1 ++ i :: l2) ->
  exists s', bio_brelse i s = Ok (tt, s') /\ lru (bnext s') (bprev s') (i :: l1 ++ l2).
Proof.
  intros Hs Hi Hl. destruct (held_buf _ _ _ _ _ Hs Hi) as (x & Hx & Hc & Hb & Ho).
  destruct (wp_no_error (bio_brelse i) (fun _ s' => lru (bnext s') (bprev s') (i :: l1 ++ l2)) s)
    as ([] & s' & Hr & H); [|eauto].
  unfold bio_brelse. apply wp_bind. eapply wp_Ok; [unfold getb; by rewrite Hx|].
  rewrite busy_test, Hb. simpl.
  apply wp_bind, wp_acquire_m; [apply Hs|pose proof (br_locks _ _ _ Hs); unfold BCACHE, FTABLE in *; simpl; lia|].
  intros m Hm _ _.
  destruct (move_front_run l1 i l2 (set_bs_mach m s)) as (n & p & Hn & Hp & Hmv); [done|]. simpl in Hn, Hp.
  apply wp_bind. eapply wp_Ok; [exact Hmv|]. apply wp_bind. simpl.
  eapply wp_Ok; [unfold modb; simpl; by rewrite Hx|].
  apply wp_bind, wp_bind, wp_modify, wp_modify. simpl. apply wp_release_m; [by apply holds_wake|].
  intros m2 _ _ _. simpl. by eapply lru_brelse.
Qed.

(** ** Runs *)

(** The machine over [d] once [binit] has run. *)
Definition booted (d : Z -> list Z) : bst unit :=
  match binit (boot d) with Ok (_, s) => s | Err _ => boot d end.

Lemma booted_rep d : (forall b, 0 <= b < FSSIZE -> length (d b) = BSIZE) ->
  bio_rep None (booted d) (empty_store d).
Proof.
  intros Hd. destruct (binit_run (boot d) (boot_zeroed d Hd)) as (s' & H & Hr & _).
  unfold booted. by rewrite H.
Qed.

Lemma numbered_length b : 0 <= b < FSSIZE -> length (numbered b) = BSIZE.
Proof. intros _. apply length_replicate. Qed.

(** Block 7 is rewritten, forty other blocks are read, and block 7 is read again:
    its buffer was recycled in between. *)
Definition recycling : list cache_op :=
  [TakeBlock 7; PutData 7 (replicate BSIZE 9); WriteBlock 7; ReleaseBlock 7] ++
  (seqZ 100 40 ≫= fun b => [TakeBlock b; GetData b; ReleaseBlock b]) ++
  [TakeBlock 7; GetData 7; ReleaseBlock 7].

Lemma cache_runs_witness :
  match block_run (all_blocks numbered) recycling with
  | Ok (out, r) => exists s', (binit ;; cache_run ∅ recycling) (boot numbered) = Ok (out, s') /\
      (forall b, d_disk (drv s') ROOTDEV b = bk_disk r b) /\
      d_hist (drv s') = (fun p => (ROOTDEV, p.1, p.2)) <$> bk_writes r
  | Err e => (binit ;; cache_run ∅ recycling) (boot numbered) = Err e
  end.
Proof.
  refine (cache_runs (boot numbered) recycling _ _).
  - apply boot_zeroed, numbered_length.
  - vm_compute. reflexivity.
Defined.

Lemma brelse_most_recent_witness :
  exists (s : bst unit) a i l1 l2, bio_rep None s a /\ st_held a !! i = Some 7 /\
    lru (bnext s) (bprev s) (l1 ++ i :: l2) /\
    exists s', bio_brelse i s = Ok (tt, s') /\ lru (bnext s') (bprev s') (i :: l1 ++ l2).
Proof.
  destruct (take_one 7 (booted numbered) (empty_store numbered)) as (i & s & _ & Hr);
    [apply booted_rep, numbered_length|reflexivity|reflexivity|unfold FSSIZE; lia|].
  assert (st_held (set_held {[i := 7]} (empty_store numbered)) !! i = Some 7) as Hi by apply lookup_singleton_eq.
  destruct (br_lru _ _ _ Hr) as [l Hl]. destruct (held_buf _ _ _ _ _ Hr Hi) as (x & Hx & _).
  assert (i ∈ l) as Hil by (apply (lru_elem _ _ _ _ Hl); rewrite <-(br_bufs _ _ _ Hr); by eapply lookup_lt_Some).
  apply list_elem_of_split in Hil as (l1 & l2 & ->).
  exists s, (set_held {[i := 7]} (empty_store numbered)), i, l1, l2. split_and!; [exact Hr|exact Hi|exact Hl|].
  exact (brelse_most_recent s _ i 7 l1 l2 Hr Hi Hl).
Defined.

(** A driver that reads block 9 into buffer 1 while buffer 0 has unwritten
    contents for block 7; another process waits for buffer 1. *)
Definition reading : bst unit :=
  mkbst (boot_mach 5 tt) [mkbuf 5 1 7 (replicate BSIZE 3); mkbuf 1 1 9 (replicate BSIZE 0)]
    [] [] [None; None] (Some 1%nat) true
    (mkdrive (upd (upd (fun _ => 0) 499 9) 502 240) (Some IDE_CMD_READ) [] [] false (fun _ => numbered) [] 3 2)
    [(false, 1%nat)].

Lemma iderw_fifo_witness :
  if bool_decide (0%nat ∈ (bwait reading).*2) then iderw 0 reading = Err Asleep
  else exists s', iderw 0 reading = Ok (tt, s') /\ ide_inv None s' [] /\
    io_of s' = foldl serve (io_of reading) [1%nat; 0%nat] /\ bwait s' = woken (bwait reading) [1%nat] /\
    exists b', bufs s' !! 0%nat = Some b' /\ f_valid (b_flags b') = true /\ f_dirty (b_flags b') = false.
Proof.
  refine (iderw_fifo [1%nat] 0 (mkbuf 5 1 7 (replicate BSIZE 3)) reading _ _ _ _ _ _).
  - split; simpl.
    + apply boot_quiet.
    + unfold IDELOCK. lia.
    + split; [done|]. by exists None.
    + apply NoDup_singleton.
    + done.
    + unfold NBUF. lia.
    + intros i ->%list_elem_of_singleton. eexists. split; [done|]. split; simpl; [lia|done|done|by right|unfold FSSIZE; lia].
    + intros b [= <-]. by split.
    + done.
  - done.
  - split; simpl; [lia|done|done|by right|unfold FSSIZE; lia].
  - rewrite list_elem_of_singleton. lia.
  - by right.
  - done.
Defined.
