(* ===== verification/Log.v ===== *)
(** * The log (log.c)

    Write-ahead logging over the buffer-cache interface of [Store]: the
    in-memory header, group commit, and recovery.  The crash theorems consider
    every prefix of the disk writes of a commit or of a recovery. *)

From stdpp Require Import base numbers list gmap sets strings.
From S2P Require Import Prelude Strings Bytes Machine Ide Store.

Open Scope Z_scope.

Definition MAXOPBLOCKS : Z := 10.
Definition LOGSIZE : Z := MAXOPBLOCKS * 3.

(** [struct superblock] (fs.h). *)
Record superblock := mksuper {
  sb_size : Z;
  sb_nblocks : Z;
  sb_ninodes : Z;
  sb_nlog : Z;
  sb_logstart : Z;
  sb_inodestart : Z;
  sb_bmapstart : Z;
}.

(** [struct log] with its [struct logheader] inlined as [lh_n] and [lh_block]. *)
Record log := mklog {
  l_start : Z;
  l_size : Z;
  outstanding : Z;
  committing : bool;
  l_dev : Z;
  lh_n : Z;
  lh_block : list Z;
}.

Definition log_eta (x : log) : log :=
  mklog (l_start x) (l_size x) (outstanding x) (committing x) (l_dev x) (lh_n x) (lh_block x).
Definition set_l_start (v : Z) (x : log) : log := ltac:(update log_eta l_start v x).
Definition set_l_size (v : Z) (x : log) : log := ltac:(update log_eta l_size v x).
Definition set_outstanding (v : Z) (x : log) : log := ltac:(update log_eta outstanding v x).
Definition set_committing (v : bool) (x : log) : log := ltac:(update log_eta committing v x).
Definition set_l_dev (v : Z) (x : log) : log := ltac:(update log_eta l_dev v x).
Definition set_lh_n (v : Z) (x : log) : log := ltac:(update log_eta lh_n v x).
Definition set_lh_block (v : list Z) (x : log) : log := ltac:(update log_eta lh_block v x).

(** A read or write out of the bounds of a block faults. *)
Definition or_fault {S A} (o : option A) : M S A :=
  match o with Some a => mret a | None => fail Fault end.

Section Log.
Context {S : Type} {BC : BufferCache S}.

Record lst := mklst {
  lg : log;
  sub : S;
}.

Definition zoom {A} (m : M S A) : M lst A := fun s =>
  match m (sub s) with
  | Ok (a, t) => Ok (a, mklst (lg s) t)
  | Err e => Err e
  end.
Definition modlog (f : log -> log) : M lst unit := modify (fun s => mklst (f (lg s)) (sub s)).

(** [readsb] (fs.c). *)
Definition decode_super (d : list Z) : option superblock :=
  sz ← get32 d 0; nb ← get32 d 4; ni ← get32 d 8; nl ← get32 d 12;
  ls ← get32 d 16; is_ ← get32 d 20; bs ← get32 d 24;
  Some (mksuper sz nb ni nl ls is_ bs).

Definition readsb (dev : Z) : M S superblock :=
  bp ← bread dev 1;
  d ← b_get bp;
  sb ← or_fault (decode_super d);
  brelse bp ;;
  mret sb.

(** One round of [write_log]: the log block takes the cached contents. *)
Definition write_log_one (dev logb home : Z) : M S unit :=
  to ← bread dev logb;
  from ← bread dev home;
  d ← b_get from;
  b_put to d ;;
  bwrite to ;;
  brelse from ;;
  brelse to.

(** One round of [install_trans]. *)
Definition install_one (dev logb home : Z) : M S unit :=
  lbuf ← bread dev logb;
  dbuf ← bread dev home;
  d ← b_get lbuf;
  b_put dbuf d ;;
  bwrite dbuf ;;
  brelse lbuf ;;
  brelse dbuf.

(** [for (tail = 0; tail < log.lh.n; tail++)]. *)
Fixpoint for_tail (body : Z -> Z -> Z -> M S unit) (k : nat) (tail : Z) : M lst unit :=
  match k with
  | O => mret tt
  | Datatypes.S k =>
      l ← gets lg;
      b ← or_fault (lh_block l !! Z.to_nat tail);
      zoom (body (l_dev l) (l_start l + tail + 1) b) ;;
      for_tail body k (tail + 1)
  end.

Definition install_trans : M lst unit :=
  n ← gets (fun s => lh_n (lg s));
  for_tail install_one (Z.to_nat n) 0.

Definition write_log : M lst unit :=
  n ← gets (fun s => lh_n (lg s));
  for_tail write_log_one (Z.to_nat n) 0.

(** [log.lh.block[i] = lh->block[i]] for [i < n]. *)
Fixpoint read_blocks (d : list Z) (k : nat) (i : nat) : M lst unit :=
  match k with
  | O => mret tt
  | Datatypes.S k =>
      b ← or_fault (get32 d (4 + 4 * i));
      l ← gets lg;
      _ ← or_fault (lh_block l !! i);
      modlog (set_lh_block (<[i := s32 b]> (lh_block l))) ;;
      read_blocks d k (Datatypes.S i)
  end.

Definition read_head : M lst unit :=
  l ← gets lg;
  buf ← zoom (bread (l_dev l) (l_start l));
  d ← zoom (b_get buf);
  n ← or_fault (get32 d 0);
  modlog (set_lh_n (s32 n)) ;;
  read_blocks d (Z.to_nat (s32 n)) 0 ;;
  zoom (brelse buf).

(** The header block: [n] and the first [n] block numbers over [d]. *)
Fixpoint put_blocks (d : list Z) (bs : list Z) (i : nat) : option (list Z) :=
  match bs with
  | [] => Some d
  | b :: bs => d ← put32 d (4 + 4 * i) b; put_blocks d bs (Datatypes.S i)
  end.

Definition encode_head (d : list Z) (bs : list Z) : option (list Z) :=
  d ← put32 d 0 (Z.of_nat (length bs)); put_blocks d bs 0.

Definition write_head : M lst unit :=
  l ← gets lg;
  buf ← zoom (bread (l_dev l) (l_start l));
  d ← zoom (b_get buf);
  let bs := take (Z.to_nat (lh_n l)) (lh_block l) in
  if (length bs =? Z.to_nat (lh_n l))%nat then
    d ← or_fault (encode_head d bs);
    zoom (b_put buf d) ;;
    zoom (bwrite buf) ;;
    zoom (brelse buf)
  else fail Fault.

Definition recover_from_log : M lst unit :=
  read_head ;;
  install_trans ;;
  modlog (set_lh_n 0) ;;
  write_head.

Definition initlog (dev : Z) : M lst unit :=
  if Z.of_nat BSIZE <=? 4 + 4 * LOGSIZE then panic "initlog: too big logheader" else
  zoom (bc_initlock LOGLOCK) ;;
  sb ← zoom (readsb dev);
  modlog (set_l_start (sb_logstart sb)) ;;
  modlog (set_l_size (sb_nlog sb)) ;;
  modlog (set_l_dev dev) ;;
  recover_from_log.

(** [begin_op] sleeps while a commit is running or the log might fill up; when
    woken it tests again. *)
Definition begin_op : M lst unit :=
  zoom (bc_acquire LOGLOCK) ;;
  l ← gets lg;
  if committing l then fail Asleep
  else if LOGSIZE <? lh_n l + (outstanding l + 1) * MAXOPBLOCKS then fail Asleep
  else
    modlog (set_outstanding (outstanding l + 1)) ;;
    zoom (bc_release LOGLOCK).

Definition commit : M lst unit :=
  n ← gets (fun s => lh_n (lg s));
  when (0 <? n)
    (write_log ;;
     write_head ;;
     install_trans ;;
     modlog (set_lh_n 0) ;;
     write_head).

Definition end_op : M lst unit :=
  zoom (bc_acquire LOGLOCK) ;;
  modlog (fun l => set_outstanding (outstanding l - 1) l) ;;
  l ← gets lg;
  if committing l then panic "log.committing" else
  (if outstanding l =? 0 then modlog (set_committing true)
   else zoom (bc_wakeup ChLog)) ;;
  zoom (bc_release LOGLOCK) ;;
  when (outstanding l =? 0)
    (commit ;;
     zoom (bc_acquire LOGLOCK) ;;
     modlog (set_committing false) ;;
     zoom (bc_wakeup ChLog) ;;
     zoom (bc_release LOGLOCK)).

(** Position of [b] among the first [n] entries, or [n]. *)
Fixpoint absorb (bs : list Z) (n : nat) (b : Z) : nat :=
  match n with
  | O => O
  | Datatypes.S n =>
      match bs with
      | [] => O
      | c :: bs => if c =? b then O else Datatypes.S (absorb bs n b)
      end
  end.

Definition log_write (b : nat) : M lst unit :=
  l ← gets lg;
  if (LOGSIZE <=? lh_n l) || (l_size l - 1 <=? lh_n l) then panic "too big a transaction" else
  if outstanding l <? 1 then panic "log_write outside of trans" else
  zoom (bc_acquire LOGLOCK) ;;
  bno ← zoom (b_no b);
  l ← gets lg;
  let i := absorb (lh_block l) (Z.to_nat (lh_n l)) bno in
  _ ← or_fault (lh_block l !! i);
  modlog (set_lh_block (<[i := bno]> (lh_block l))) ;;
  when (Z.of_nat i =? lh_n l) (modlog (set_lh_n (lh_n l + 1))) ;;
  zoom (b_pin b) ;;
  zoom (bc_release LOGLOCK).
End Log.
Arguments lst S : clear implicits.

(** ** The disk under a sequence of writes *)

Definition apply_writes (d : Z -> list Z) (ws : list (Z * list Z)) : Z -> list Z :=
  foldl (fun d w => upd d w.1 w.2) d ws.

(** A block replaced in memory and on the disk. *)
Definition put_block (a : store) (w : Z * list Z) : store :=
  written w.1 w.2 (set_view (upd (st_view a) w.1 w.2) a).

Definition put_all (ws : list (Z * list Z)) (a : store) : store := foldl put_block a ws.

Lemma put_all_fields ws a :
  st_disk (put_all ws a) = apply_writes (st_disk a) ws /\
  st_view (put_all ws a) = apply_writes (st_view a) ws /\
  st_hist (put_all ws a) = st_hist a ++ ws /\
  st_pinned (put_all ws a) = st_pinned a ∖ list_to_set ws.*1 /\
  st_held (put_all ws a) = st_held a.
Proof.
  revert a. induction ws as [|[b d] ws IH]; intros a; simpl.
  - rewrite app_nil_r. split_and!; try done. by rewrite difference_empty_L.
  - destruct (IH (put_block a (b, d))) as (-> & -> & -> & -> & ->). unfold put_block, written, set_view. simpl.
    split_and!; try done; [by rewrite <-app_assoc|]. by rewrite difference_difference_l_L.
Qed.

Lemma put_all_app ws1 ws2 a : put_all (ws1 ++ ws2) a = put_all ws2 (put_all ws1 a).
Proof. apply foldl_app. Qed.

Lemma apply_writes_app d ws1 ws2 : apply_writes d (ws1 ++ ws2) = apply_writes (apply_writes d ws1) ws2.
Proof. apply foldl_app. Qed.

Lemma apply_writes_snoc d ws b x : apply_writes d (ws ++ [(b, x)]) = upd (apply_writes d ws) b x.
Proof. by rewrite apply_writes_app. Qed.

Lemma apply_writes_ext d d' ws c : (forall b, d b = d' b) -> apply_writes d ws c = apply_writes d' ws c.
Proof.
  revert d d'. induction ws as [|w ws IH]; intros d d' Hd; [apply Hd|]. simpl. apply IH.
  intros b. unfold upd. by destruct (b =? w.1).
Qed.

Lemma apply_writes_other d ws b : b ∉ ws.*1 -> apply_writes d ws b = d b.
Proof.
  revert d. induction ws as [|w ws IH]; intros d Hb; [done|].
  rewrite fmap_cons, not_elem_of_cons in Hb. destruct Hb as [Hne Hb]. simpl.
  rewrite IH by done. unfold upd. by destruct (Z.eqb_spec b w.1).
Qed.

(** A block's contents are the first ones or those of some write. *)
Lemma apply_writes_last d ws b : apply_writes d ws b = d b \/ (b, apply_writes d ws b) ∈ ws.
Proof.
  induction ws as [|[c x] ws IH] using rev_ind; [by left|]. rewrite apply_writes_snoc. unfold upd.
  destruct (Z.eqb_spec b c) as [->|Hne]; [right; apply elem_of_app; right; by apply list_elem_of_singleton|].
  destruct IH as [IH|IH]; [by left|right; apply elem_of_app; by left].
Qed.

Lemma apply_writes_in d ws b x : NoDup ws.*1 -> (b, x) ∈ ws -> apply_writes d ws b = x.
Proof.
  revert d. induction ws as [|w ws IH]; intros d Hnd Hin; [by apply elem_of_nil in Hin|].
  rewrite fmap_cons in Hnd. apply NoDup_cons in Hnd as [Hni Hnd]. simpl.
  apply elem_of_cons in Hin as [<-|Hin]; [|by apply IH].
  rewrite apply_writes_other by done. unfold upd. simpl. by rewrite Z.eqb_refl.
Qed.

(** ** The header block *)

Fixpoint get_blocks (d : list Z) (k : nat) (i : nat) : option (list Z) :=
  match k with
  | O => Some []
  | S k => b ← get32 d (4 + 4 * i); bs ← get_blocks d k (S i); Some (s32 b :: bs)
  end.

Definition decode_head (d : list Z) : option (list Z) :=
  n ← get32 d 0;
  if 0 <=? s32 n then get_blocks d (Z.to_nat (s32 n)) 0 else None.

(** A block number as stored in the header. *)
Definition small (b : Z) : Prop := 0 <= b < 2 ^ 31.

Lemma s32_small b : small b -> s32 (b mod 2 ^ 32) = b.
Proof.
  unfold small, s32. intros Hb. rewrite (Z.mod_small b) by lia. rewrite Z.mod_small; lia.
Qed.

Lemma put_blocks_spec d bs i : (4 + 4 * (i + length bs) <= length d)%nat ->
  exists d', put_blocks d bs i = Some d' /\ length d' = length d /\
    (forall off, (off + 4 <= 4 + 4 * i)%nat -> get32 d' off = get32 d off) /\
    (Forall small bs -> get_blocks d' (length bs) i = Some bs).
Proof.
  revert d i. induction bs as [|b bs IH]; intros d i Hl; simpl in Hl.
  - exists d. done.
  - destruct (put32_Some d (4 + 4 * i) b) as [d1 Hd1]; [lia|].
    pose proof (put32_length _ _ _ _ Hd1) as Hl1.
    destruct (IH d1 (S i)) as (d' & Hp & Hld & Ho & Hg); [lia|].
    exists d'. cbn [put_blocks]. rewrite Hd1. cbn [mbind option_bind].
    split; [done|]. split; [lia|]. split.
    + intros off Hoff. rewrite Ho by lia. eapply get32_put32_ne; [exact Hd1|lia].
    + intros Hs. apply Forall_cons in Hs as [Hb Hs]. cbn [length get_blocks].
      rewrite Ho by lia. rewrite (get32_put32 _ _ _ _ Hd1). cbn [mbind option_bind].
      rewrite Hg by done. cbn [mbind option_bind]. by rewrite s32_small.
Qed.

Lemma encode_decode d bs : (4 + 4 * length bs <= length d)%nat -> Forall small bs ->
  (length bs <= 1000)%nat ->
  exists h, encode_head d bs = Some h /\ length h = length d /\ decode_head h = Some bs.
Proof.
  intros Hl Hs Hlen. destruct (put32_Some d 0 (Z.of_nat (length bs))) as [d1 Hd1]; [lia|].
  pose proof (put32_length _ _ _ _ Hd1) as Hl1.
  destruct (put_blocks_spec d1 bs 0) as (h & Hp & Hlh & Ho & Hg); [lia|].
  exists h. unfold encode_head, decode_head. rewrite Hd1. cbn [mbind option_bind].
  split; [done|]. split; [lia|]. rewrite Ho by lia. rewrite (get32_put32 _ _ _ _ Hd1). cbn [mbind option_bind].
  rewrite s32_small by (unfold small; lia). rewrite (proj2 (Z.leb_le _ _)) by lia. rewrite Nat2Z.id. auto.
Qed.
