(* ===== verification/LogSpec.v ===== *)
(** * Atomicity of the log

    The rules of the operations of [Log] over any buffer cache that meets
    [BufferCacheSpec], the writes a commit sends to the disk, and what recovery
    makes of the disk after any prefix of them. *)

From stdpp Require Import base numbers list gmap sets strings.
From S2P Require Import Prelude Strings Bytes Machine Ide Store Log.

Open Scope Z_scope.

(** The block numbers in the in-memory header. *)
Definition logged (l : log) : list Z := take (Z.to_nat (lh_n l)) (lh_block l).

(** The writes of [write_log], of [install_trans], and of a whole commit, when
    [get b] is what a block holds and [h] and [h0] are the two headers. *)
Definition log_writes (start : Z) (get : Z -> list Z) (bs : list Z) : list (Z * list Z) :=
  imap (fun i b => (start + Z.of_nat i + 1, get b)) bs.
Definition home_writes (start : Z) (get : Z -> list Z) (bs : list Z) : list (Z * list Z) :=
  imap (fun i b => (b, get (start + Z.of_nat i + 1))) bs.

(** What a disk holds once recovery has run: the blocks named by the header at
    [start] take the contents of the log blocks. *)
Definition recovered (start : Z) (d : Z -> list Z) : Z -> list Z :=
  match decode_head (d start) with
  | Some bs => apply_writes d (home_writes start d bs)
  | None => d
  end.

(** The log's area of the disk, and a list of blocks a transaction can log. *)
Definition in_log (start size b : Z) : Prop := start <= b < start + size.

Record loggable (start size : Z) (bs : list Z) : Prop := {
  lo_start : 0 <= start;
  lo_size : start + size <= FSSIZE;
  lo_nodup : NoDup bs;
  lo_home b : b ∈ bs -> 0 <= b < FSSIZE /\ ~ in_log start size b;
  lo_fits : Z.of_nat (length bs) < size;
  lo_max : Z.of_nat (length bs) < LOGSIZE;
}.

Section Runs.
Context {S : Type} {BC : BufferCache S} {BS : BufferCacheSpec S}.

Implicit Types (s : lst S) (t : S) (a : store).

Lemma zoom_Ok {A} (m : M S A) s x t : m (sub s) = Ok (x, t) -> zoom m s = Ok (x, mklst (lg s) t).
Proof. unfold zoom. by intros ->. Qed.

Lemma idle_in_use a : st_held a = ∅ -> in_use a = st_pinned a.
Proof.
  intros Hh. apply set_eq. intros b. unfold in_use. rewrite elem_of_union, elem_held_blocks, Hh.
  split; [intros [?|[i Hi]]; [done|by rewrite lookup_empty in Hi]|by left].
Qed.

Lemma held_one a i b : st_held a = ∅ ->
  held_blocks (set_held (<[i := b]> (st_held a)) a) = {[b]}.
Proof.
  intros Hh. apply set_eq. intros c. rewrite elem_held_blocks, Hh, elem_of_singleton. simpl. split.
  - intros [j Hj]. apply lookup_insert_Some in Hj as [[_ ?]|[_ Hj]]; [done|by rewrite lookup_empty in Hj].
  - intros ->. exists i. apply lookup_insert_eq.
Qed.

Lemma in_use_one a i b : st_held a = ∅ ->
  (size (in_use (set_held (<[i := b]> (st_held a)) a)) <= Datatypes.S (size (st_pinned a)))%nat.
Proof.
  intros Hh. unfold in_use. rewrite held_one by done. simpl.
  replace (st_pinned a ∪ {[b]}) with ((st_pinned a ∖ {[b]}) ∪ ({[b]} : gset Z)).
  - rewrite size_union by set_solver. rewrite size_singleton.
    pose proof (subseteq_size (st_pinned a ∖ {[b]}) (st_pinned a) ltac:(set_solver)). lia.
  - apply set_eq. intros c. rewrite !elem_of_union, elem_of_difference, elem_of_singleton.
    destruct (decide (c = b)); naive_solver.
Qed.

(** Two buffers taken and given back leave nothing held. *)
Lemma held_two (h : gmap nat Z) i j b c : h = ∅ -> i <> j ->
  delete i (delete j (<[j := c]> (<[i := b]> h))) = ∅ /\ delete j (delete i (<[j := c]> (<[i := b]> h))) = ∅.
Proof.
  intros -> Hij. rewrite (delete_insert_eq _ j).
  rewrite (delete_delete _ j i), (delete_insert_eq _ j), delete_insert_ne by done.
  by rewrite delete_insert_eq, delete_empty, !delete_empty.
Qed.

(** The two blocks of a round fit in the cache. *)
Definition roomy (a : store) (b c : Z) : Prop :=
  (size (st_pinned a) < NBUF)%nat /\ (c ∈ st_pinned a \/ (Datatypes.S (size (st_pinned a)) < NBUF)%nat).

Lemma bread_two t a b c :
  represents None t a -> st_held a = ∅ -> roomy a b c -> b <> c ->
  0 <= b < FSSIZE -> 0 <= c < FSSIZE ->
  exists i j t1 t2, bread ROOTDEV b t = Ok (i, t1) /\ bread ROOTDEV c t1 = Ok (j, t2) /\ i <> j /\
    represents None t2 (set_held (<[j := c]> (<[i := b]> ∅)) a).
Proof.
  intros Hr Hh [Hp Hc] Hne Hb Hcb.
  destruct (bread_ok b t a) as (i & t1 & H1 & Hi & Hr1); try done.
  { by unfold held_blocks; rewrite Hh, map_to_list_empty. }
  { right. by rewrite idle_in_use. }
  destruct (bread_ok c t1 _ Hr1) as (j & t2 & H2 & Hj & Hr2); [done| | |].
  { rewrite held_one by done. set_solver. }
  { simpl. destruct Hc as [Hc|Hc]; [by left|right]. pose proof (in_use_one a i b Hh). lia. }
  exists i, j, t1, t2. split_and!; try done.
  - intros ->. simpl in Hj. by rewrite lookup_insert_eq in Hj.
  - simpl in Hr2. by rewrite Hh in Hr2.
Qed.

Lemma write_log_one_ok t a b c :
  represents None t a -> st_held a = ∅ -> roomy a b c -> b <> c ->
  0 <= b < FSSIZE -> 0 <= c < FSSIZE -> c ∈ st_pinned a ->
  exists t', write_log_one ROOTDEV b c t = Ok (tt, t') /\ represents None t' (put_block a (b, st_view a c)).
Proof.
  intros Hr Hh Hroom Hne Hb Hc Hpin.
  destruct (bread_two t a b c) as (i & j & t1 & t2 & H1 & H2 & Hij & Hr2); try done.
  unfold write_log_one. erewrite bind_Ok by exact H1. erewrite bind_Ok by exact H2.
  assert (Hli : (<[j := c]> (<[i := b]> ∅) : gmap nat Z) !! i = Some b) by by rewrite lookup_insert_ne, lookup_insert_eq.
  erewrite bind_Ok; [|apply (b_get_ok j c _ _ _ Hr2); apply lookup_insert_eq].
  destruct (b_put_ok i b (st_view a c) _ _ _ Hr2 Hli) as (t3 & H3 & Hr3).
  { by eapply (view_length _ _ _ c Hr). }
  erewrite bind_Ok by exact H3.
  destruct (bwrite_ok i b _ _ Hr3 Hli) as (t4 & H4 & Hr4). erewrite bind_Ok by exact H4.
  destruct (brelse_ok j c _ _ Hr4) as (t5 & H5 & Hr5).
  { apply lookup_insert_eq. }
  { left. simpl. set_solver. }
  erewrite bind_Ok by exact H5.
  destruct (brelse_ok i b _ _ Hr5) as (t6 & H6 & Hr6).
  { simpl. by rewrite lookup_delete_ne. }
  { right. simpl. by rewrite !upd_same. }
  exists t6. split; [done|]. simpl in Hr6.
  rewrite (proj1 (held_two ∅ i j b c eq_refl Hij)) in Hr6.
  unfold set_held, written, set_view in Hr6. simpl in Hr6. rewrite upd_same in Hr6.
  unfold put_block, written, set_view. simpl. by rewrite Hh.
Qed.

Lemma install_one_ok t a b c :
  represents None t a -> st_held a = ∅ -> roomy a b c -> b <> c ->
  0 <= b < FSSIZE -> 0 <= c < FSSIZE -> b ∉ st_pinned a ->
  exists t', install_one ROOTDEV b c t = Ok (tt, t') /\ represents None t' (put_block a (c, st_view a b)).
Proof.
  intros Hr Hh Hroom Hne Hb Hc Hpin.
  destruct (bread_two t a b c) as (i & j & t1 & t2 & H1 & H2 & Hij & Hr2); try done.
  unfold install_one. erewrite bind_Ok by exact H1. erewrite bind_Ok by exact H2.
  assert (Hli : (<[j := c]> (<[i := b]> ∅) : gmap nat Z) !! i = Some b) by by rewrite lookup_insert_ne, lookup_insert_eq.
  erewrite bind_Ok; [|apply (b_get_ok i b _ _ _ Hr2 Hli)].
  assert (Hlj : (<[j := c]> (<[i := b]> ∅) : gmap nat Z) !! j = Some c) by apply lookup_insert_eq.
  destruct (b_put_ok j c (st_view a b) _ _ _ Hr2 Hlj) as (t3 & H3 & Hr3).
  { by eapply (view_length _ _ _ b Hr). }
  erewrite bind_Ok by exact H3.
  destruct (bwrite_ok j c _ _ Hr3 Hlj) as (t4 & H4 & Hr4). erewrite bind_Ok by exact H4.
  destruct (brelse_ok i b _ _ Hr4 Hli) as (t5 & H5 & Hr5).
  { right. simpl. rewrite !upd_other by done. eapply view_disk; [exact Hr|]. by rewrite idle_in_use. }
  erewrite bind_Ok by exact H5.
  destruct (brelse_ok j c _ _ Hr5) as (t6 & H6 & Hr6).
  { simpl. by rewrite lookup_delete_ne. }
  { right. simpl. by rewrite !upd_same. }
  exists t6. split; [done|]. simpl in Hr6.
  rewrite (proj2 (held_two ∅ i j b c eq_refl Hij)) in Hr6.
  unfold set_held, written, set_view in Hr6. simpl in Hr6. rewrite upd_same in Hr6.
  unfold put_block, written, set_view. simpl. by rewrite Hh.
Qed.

(** A pass over the logged blocks whose rounds each send one write. *)
Lemma for_tail_ok (body : Z -> Z -> Z -> M S unit) (ws : list (Z * list Z)) s a :
  0 <= lh_n (lg s) -> length ws = length (logged (lg s)) -> length (logged (lg s)) = Z.to_nat (lh_n (lg s)) ->
  (forall i b w t, logged (lg s) !! i = Some b -> ws !! i = Some w ->
     represents None t (put_all (take i ws) a) ->
     exists t', body (l_dev (lg s)) (l_start (lg s) + Z.of_nat i + 1) b t = Ok (tt, t') /\
       represents None t' (put_block (put_all (take i ws) a) w)) ->
  represents None (sub s) a ->
  exists t', for_tail body (Z.to_nat (lh_n (lg s))) 0 s = Ok (tt, mklst (lg s) t') /\
    represents None t' (put_all ws a).
Proof.
  intros Hn Hlw Hll Hstep Hr.
  assert (Hgen : forall k i t, (i + k = length ws)%nat -> represents None t (put_all (take i ws) a) ->
    exists t', for_tail body k (Z.of_nat i) (mklst (lg s) t) = Ok (tt, mklst (lg s) t') /\
      represents None t' (put_all ws a)).
  { induction k as [|k IH]; intros i t Hik Hrt.
    { exists t. split; [done|]. by rewrite take_ge in Hrt by lia. }
    destruct (lookup_lt_is_Some_2 ws i) as [w Hw]; [lia|].
    destruct (lookup_lt_is_Some_2 (logged (lg s)) i) as [b Hb]; [lia|].
    destruct (Hstep i b w t Hb Hw Hrt) as (t1 & H1 & Hr1).
    unfold logged in Hb. apply lookup_take_Some in Hb as [Hb _].
    destruct (IH (Datatypes.S i) t1) as (t2 & H2 & Hr2); [lia| |].
    { rewrite (take_S_r _ _ _ Hw), put_all_app. exact Hr1. }
    exists t2. split; [|done]. cbn [for_tail].
    erewrite bind_Ok by done. rewrite Nat2Z.id. cbn [lg]. rewrite Hb. cbn [or_fault].
    erewrite bind_Ok by done. erewrite bind_Ok by (apply zoom_Ok; exact H1). cbn [lg].
    replace (Z.of_nat i + 1) with (Z.of_nat (Datatypes.S i)) by lia. exact H2. }
  destruct (Hgen (Z.to_nat (lh_n (lg s))) O (sub s)) as (t' & Ht & Hrt); [lia|done|].
  exists t'. by destruct s.
Qed.

(** The in-memory header lists [bs]. *)
Record logs (start : Z) (l : log) (bs : list Z) : Prop := {
  ls_start : l_start l = start;
  ls_dev : l_dev l = ROOTDEV;
  ls_n : lh_n l = Z.of_nat (length bs);
  ls_logged : logged l = bs;
}.

Lemma log_writes_lookup start get bs i w : log_writes start get bs !! i = Some w ->
  exists b, bs !! i = Some b /\ w = (start + Z.of_nat i + 1, get b).
Proof. unfold log_writes. rewrite list_lookup_imap, fmap_Some. done. Qed.

Lemma home_writes_lookup start get bs i w : home_writes start get bs !! i = Some w ->
  exists b, bs !! i = Some b /\ w = (b, get (start + Z.of_nat i + 1)).
Proof. unfold home_writes. rewrite list_lookup_imap, fmap_Some. done. Qed.

(** Log blocks are written in the log's area, home blocks outside it. *)
Lemma log_writes_in start size get bs b : loggable start size bs ->
  b ∈ (log_writes start get bs).*1 -> in_log start size b /\ b <> start.
Proof.
  intros Hlo ([x y] & -> & [i Hi]%list_elem_of_lookup_1)%list_elem_of_fmap.
  apply log_writes_lookup in Hi as (c & Hc & [= -> ->]).
  apply lookup_lt_Some in Hc. pose proof (lo_fits _ _ _ Hlo). unfold in_log. simpl. lia.
Qed.

Lemma home_writes_fst start get bs : (home_writes start get bs).*1 = bs.
Proof.
  unfold home_writes. apply list_eq. intros i. rewrite list_lookup_fmap, list_lookup_imap.
  by destruct (bs !! i).
Qed.

Lemma log_block_in start size bs i b : loggable start size bs -> bs !! i = Some b ->
  in_log start size (start + Z.of_nat i + 1) /\ 0 <= start + Z.of_nat i + 1 < FSSIZE /\
  start + Z.of_nat i + 1 <> b /\ 0 <= b < FSSIZE.
Proof.
  intros Hlo Hb. pose proof (list_elem_of_lookup_2 _ _ _ Hb) as Hin. apply lookup_lt_Some in Hb.
  destruct Hlo as [? ? ? Hhome ? ?]. destruct (Hhome b Hin) as [? Hni]. unfold in_log in *. lia.
Qed.

Lemma pinned_size (p : gset Z) bs : p ⊆ list_to_set bs -> (size p <= length bs)%nat.
Proof.
  intros Hp. etrans; [by apply subseteq_size|]. clear Hp.
  induction bs as [|b bs IH]; [done|]. simpl.
  destruct (decide (b ∈ (list_to_set bs : gset Z))).
  - replace ({[b]} ∪ list_to_set bs) with (list_to_set bs : gset Z) by set_solver. lia.
  - rewrite size_union by set_solver. rewrite size_singleton. lia.
Qed.

Lemma loggable_small start size bs : loggable start size bs -> (length bs < NBUF)%nat.
Proof. intros Hlo. pose proof (lo_max _ _ _ Hlo) as H. unfold LOGSIZE, MAXOPBLOCKS, NBUF in *. lia. Qed.

Lemma write_log_ok start size bs s a :
  loggable start size bs -> logs start (lg s) bs ->
  represents None (sub s) a -> st_held a = ∅ -> st_pinned a = list_to_set bs ->
  exists t', write_log s = Ok (tt, mklst (lg s) t') /\
    represents None t' (put_all (log_writes start (st_view a) bs) a).
Proof.
  intros Hlo [Hst Hdv Hn Hl] Hr Hh Hp. pose proof (loggable_small _ _ _ Hlo) as Hsz.
  unfold write_log. erewrite bind_Ok by done.
  apply for_tail_ok; [lia| | | |done]; [by unfold log_writes; rewrite length_imap, Hl|rewrite Hl; lia|].
  intros i b w t Hb Hw Hrt. rewrite Hl in Hb. rewrite Hst, Hdv.
  apply log_writes_lookup in Hw as (b' & Hb' & ->). rewrite Hb in Hb'. injection Hb' as <-.
  destruct (log_block_in _ _ _ _ _ Hlo Hb) as (Hlb & Hlr & Hne & Hbr).
  set (ws := take i _) in *.
  destruct (put_all_fields ws a) as (_ & Hv & _ & Hpp & Hhh).
  assert (Hout : forall c, c ∈ bs -> c ∉ ws.*1).
  { intros c Hc Hin. destruct (lo_home _ _ _ Hlo c Hc) as [_ Hni]. apply Hni.
    eapply log_writes_in; [done|]. unfold ws in Hin. rewrite fmap_take in Hin. by eapply elem_of_take in Hin as (?&?%list_elem_of_lookup_2&_). }
  assert (Hbin : b ∈ bs) by by eapply list_elem_of_lookup_2.
  assert (Hpp' : st_pinned (put_all ws a) = list_to_set bs).
  { rewrite Hpp, Hp. apply set_eq. intros c. rewrite elem_of_difference, !elem_of_list_to_set. naive_solver. }
  destruct (write_log_one_ok t (put_all ws a) (start + Z.of_nat i + 1) b) as (t' & Ht & Hrt'); try done.
  - by rewrite Hhh.
  - split; rewrite Hpp'; [|left; by apply elem_of_list_to_set].
    pose proof (pinned_size (list_to_set bs) bs ltac:(done)). lia.
  - rewrite Hpp'. by apply elem_of_list_to_set.
  - exists t'. split; [done|]. rewrite Hv, apply_writes_other in Hrt' by auto. done.
Qed.

(** Home blocks are either all in memory (commit) or none (recovery). *)
Lemma install_trans_ok start size bs s a :
  loggable start size bs -> logs start (lg s) bs ->
  represents None (sub s) a -> st_held a = ∅ ->
  st_pinned a = list_to_set bs \/ st_pinned a = ∅ ->
  exists t', install_trans s = Ok (tt, mklst (lg s) t') /\
    represents None t' (put_all (home_writes start (st_view a) bs) a).
Proof.
  intros Hlo [Hst Hdv Hn Hl] Hr Hh Hp. pose proof (loggable_small _ _ _ Hlo) as Hsz.
  unfold install_trans. erewrite bind_Ok by done.
  apply for_tail_ok; [lia| | | |done]; [by unfold home_writes; rewrite length_imap, Hl|rewrite Hl; lia|].
  intros i b w t Hb Hw Hrt. rewrite Hl in Hb. rewrite Hst, Hdv.
  apply home_writes_lookup in Hw as (b' & Hb' & ->). rewrite Hb in Hb'. injection Hb' as <-.
  destruct (log_block_in _ _ _ _ _ Hlo Hb) as (Hlb & Hlr & Hne & Hbr).
  set (ws := take i _) in *.
  destruct (put_all_fields ws a) as (_ & Hv & _ & Hpp & Hhh).
  assert (Hws : ws.*1 = take i bs) by (unfold ws; by rewrite fmap_take, home_writes_fst).
  assert (Hlog : forall c, in_log start size c -> c ∉ bs).
  { intros c Hc Hin. by destruct (lo_home _ _ _ Hlo c Hin). }
  assert (Hsub : st_pinned (put_all ws a) ⊆ list_to_set bs).
  { rewrite Hpp. destruct Hp as [-> | ->]; set_solver. }
  destruct (install_one_ok t (put_all ws a) (start + Z.of_nat i + 1) b) as (t' & Ht & Hrt'); try done.
  - by rewrite Hhh.
  - pose proof (pinned_size _ _ Hsub). split; [lia|]. rewrite Hpp, Hws. destruct Hp as [-> | ->].
    + left. apply elem_of_difference. rewrite !elem_of_list_to_set.
      split; [by eapply list_elem_of_lookup_2|]. intros (j & Hj & ?)%elem_of_take.
      pose proof (NoDup_lookup _ _ _ _ (lo_nodup _ _ _ Hlo) Hj Hb). lia.
    + right. rewrite subseteq_empty_difference_L by set_solver. rewrite size_empty. unfold NBUF. lia.
  - intros Hin%Hsub%elem_of_list_to_set. by eapply Hlog.
  - exists t'. split; [done|]. rewrite Hv, apply_writes_other in Hrt'; [done|].
    rewrite Hws. intros Hin. apply (Hlog _ Hlb). rewrite <-(take_drop i bs). apply elem_of_app. by left.
Qed.

Lemma write_head_ok start sz bs s a :
  loggable start sz bs -> 0 < sz -> logs start (lg s) bs ->
  represents None (sub s) a -> st_held a = ∅ -> (size (st_pinned a) < NBUF)%nat ->
  exists h t', write_head s = Ok (tt, mklst (lg s) t') /\ decode_head h = Some bs /\
    length h = BSIZE /\ represents None t' (put_block a (start, h)).
Proof.
  intros Hlo Hsz [Hst Hdv Hn Hl] Hr Hh Hp.
  assert (Hrange : 0 <= start < FSSIZE) by (destruct Hlo; lia).
  destruct (bread_ok start (sub s) a) as (i & t1 & H1 & Hi & Hr1); try done.
  { by unfold held_blocks; rewrite Hh, map_to_list_empty. }
  { right. by rewrite idle_in_use. }
  assert (Hlen : length (st_view a start) = BSIZE) by by eapply view_length.
  pose proof (lo_max _ _ _ Hlo) as Hmax. unfold LOGSIZE, MAXOPBLOCKS in Hmax.
  destruct (encode_decode (st_view a start) bs) as (h & He & Hlh & Hd); [rewrite Hlen; unfold BSIZE; lia| |lia|].
  { apply Forall_forall. intros b Hb. destruct (lo_home _ _ _ Hlo b Hb) as [Hbr _].
    unfold small. unfold FSSIZE in Hbr. lia. }
  assert (Hli : <[i := start]> (st_held a) !! i = Some start) by apply lookup_insert_eq.
  destruct (b_put_ok i start h _ _ _ Hr1 Hli) as (t2 & H2 & Hr2); [lia|].
  destruct (bwrite_ok i start _ _ Hr2 Hli) as (t3 & H3 & Hr3).
  destruct (brelse_ok i start _ _ Hr3 Hli) as (t4 & H4 & Hr4).
  { right. simpl. by rewrite !upd_same. }
  exists h, t4. split_and!; [|done|lia|].
  - unfold write_head. erewrite bind_Ok by done. rewrite Hdv, Hst.
    erewrite bind_Ok by (apply zoom_Ok; exact H1).
    erewrite bind_Ok; [|apply zoom_Ok, (b_get_ok i start _ _ _ Hr1 Hli)].
    unfold logged in Hl. rewrite Hl, Hn, Nat2Z.id, Nat.eqb_refl. cbn [sub lg st_view set_held].
    rewrite He. cbn [or_fault]. erewrite bind_Ok by done.
    erewrite bind_Ok by (apply zoom_Ok; exact H2). erewrite bind_Ok by (apply zoom_Ok; exact H3).
    erewrite zoom_Ok by exact H4. done.
  - simpl in Hr4. unfold set_held, written, set_view in Hr4. simpl in Hr4.
    rewrite upd_same, delete_insert_id in Hr4 by by rewrite Hh. exact Hr4.
Qed.

Definition commit_writes (start : Z) (get : Z -> list Z) (bs : list Z) (h h0 : list Z) : list (Z * list Z) :=
  (log_writes start get bs ++ [(start, h)]) ++ ((fun b => (b, get b)) <$> bs) ++ [(start, h0)].

Lemma log_writes_nodup start get bs : NoDup (log_writes start get bs).*1.
Proof.
  apply NoDup_alt. intros i j x. rewrite !list_lookup_fmap, !fmap_Some.
  intros (u & Hu & ->) (v & Hv & Huv).
  apply log_writes_lookup in Hu as (? & _ & ->). apply log_writes_lookup in Hv as (? & _ & ->).
  simpl in Huv. lia.
Qed.

(** After [write_log] and [write_head] the log blocks hold the logged contents. *)
Lemma log_contents start sz get d bs h i b : loggable start sz bs -> bs !! i = Some b ->
  apply_writes d (log_writes start get bs ++ [(start, h)]) (start + Z.of_nat i + 1) = get b.
Proof.
  intros Hlo Hb. rewrite apply_writes_app. simpl. rewrite upd_other by lia.
  apply apply_writes_in; [apply log_writes_nodup|]. apply (list_elem_of_lookup_2 _ i).
  unfold log_writes. by rewrite list_lookup_imap, Hb.
Qed.

Lemma home_writes_ext start get get' bs :
  (forall i b, bs !! i = Some b -> get (start + Z.of_nat i + 1) = get' b) ->
  home_writes start get bs = (fun b => (b, get' b)) <$> bs.
Proof.
  intros H. apply list_eq. intros i. unfold home_writes. rewrite list_lookup_imap, list_lookup_fmap.
  destruct (bs !! i) as [b|] eqn:Hb; simpl; [|done]. by rewrite (H i b Hb).
Qed.

Lemma logs_empty start l bs : logs start l bs -> logs start (set_lh_n 0 l) [].
Proof. intros []. by split. Qed.

Lemma loggable_nil start sz bs : loggable start sz bs -> loggable start sz [].
Proof.
  intros []. split; try done; simpl; try lia.
  - constructor.
  - intros b Hb. by apply elem_of_nil in Hb.
Qed.

Lemma commit_ok start sz bs s a :
  loggable start sz bs -> logs start (lg s) bs -> bs <> [] ->
  represents None (sub s) a -> st_held a = ∅ -> st_pinned a = list_to_set bs ->
  exists h h0 t', commit s = Ok (tt, mklst (set_lh_n 0 (lg s)) t') /\
    decode_head h = Some bs /\ decode_head h0 = Some [] /\
    represents None t' (put_all (commit_writes start (st_view a) bs h h0) a).
Proof.
  intros Hlo Hl Hne Hr Hh Hp.
  assert (Hsz : 0 < sz) by (destruct Hlo; lia).
  pose proof (loggable_small _ _ _ Hlo) as Hsm.
  assert (Hpb : forall p : gset Z, p ⊆ list_to_set bs -> (size p < NBUF)%nat).
  { intros p Hsub. pose proof (pinned_size p bs Hsub). lia. }
  destruct (write_log_ok start sz bs s a) as (t1 & H1 & Hr1); try done.
  set (ws1 := log_writes start (st_view a) bs) in *.
  destruct (put_all_fields ws1 a) as (_ & _ & _ & Hp1 & Hh1).
  destruct (write_head_ok start sz bs (mklst (lg s) t1) (put_all ws1 a)) as (h & t2 & H2 & Hd & _ & Hr2); try done.
  { by rewrite Hh1. }
  { apply Hpb. rewrite Hp1, Hp. set_solver. }
  set (ws2 := ws1 ++ [(start, h)]).
  assert (E2 : put_block (put_all ws1 a) (start, h) = put_all ws2 a) by by (unfold ws2; rewrite put_all_app).
  rewrite E2 in Hr2. destruct (put_all_fields ws2 a) as (_ & Hv2 & _ & Hp2 & Hh2).
  destruct (install_trans_ok start sz bs (mklst (lg s) t2) (put_all ws2 a)) as (t3 & H3 & Hr3); try done.
  { by rewrite Hh2. }
  { left. rewrite Hp2, Hp. apply set_eq. intros b. rewrite elem_of_difference, !elem_of_list_to_set.
    split; [tauto|]. intros Hb. split; [done|]. intros Hin. destruct (lo_home _ _ _ Hlo b Hb) as [_ Hni].
    apply Hni. unfold ws2 in Hin. rewrite fmap_app, elem_of_app in Hin. destruct Hin as [Hin|Hin].
    - by eapply log_writes_in in Hin as [? _].
    - apply list_elem_of_singleton in Hin as ->. unfold in_log. simpl. lia. }
  rewrite (home_writes_ext start _ (st_view a) bs) in Hr3; [|intros i b Hb; rewrite Hv2; by eapply log_contents].
  rewrite <-put_all_app in Hr3. set (ws3 := ws2 ++ _) in Hr3.
  destruct (put_all_fields ws3 a) as (_ & _ & _ & Hp3 & Hh3).
  destruct (write_head_ok start sz [] (mklst (set_lh_n 0 (lg s)) t3) (put_all ws3 a)) as (h0 & t4 & H4 & Hd0 & _ & Hr4); try done.
  { by eapply loggable_nil. }
  { by eapply logs_empty. }
  { by rewrite Hh3. }
  { apply Hpb. rewrite Hp3, Hp. set_solver. }
  exists h, h0, t4. split_and!; [|done|done|].
  - unfold commit. erewrite bind_Ok by done. rewrite (ls_n _ _ _ Hl).
    destruct (Z.ltb_spec 0 (Z.of_nat (length bs))) as [_|]; [|destruct bs; simpl in *; [done|lia]].
    unfold when. erewrite bind_Ok by exact H1. erewrite bind_Ok by exact H2. erewrite bind_Ok by exact H3.
    erewrite bind_Ok by done. exact H4.
  - unfold commit_writes. rewrite app_assoc, put_all_app. exact Hr4.
Qed.

Lemma get_blocks_length d k i bs : get_blocks d k i = Some bs -> length bs = k.
Proof.
  revert i bs. induction k as [|k IH]; intros i bs; cbn [get_blocks]; [by intros [= <-]|].
  destruct (get32 d _) as [b|]; [|done]. cbn [mbind option_bind].
  destruct (get_blocks d k _) as [bs'|] eqn:E; [|done]. intros [= <-]. simpl. by erewrite IH.
Qed.

Lemma read_blocks_ok d k i bs s :
  get_blocks d k i = Some bs -> (i + k <= length (lh_block (lg s)))%nat ->
  read_blocks d k i s =
    Ok (tt, mklst (set_lh_block (take i (lh_block (lg s)) ++ bs ++ drop (i + k) (lh_block (lg s))) (lg s)) (sub s)).
Proof.
  revert i bs s. induction k as [|k IH]; intros i bs s; cbn [get_blocks read_blocks].
  - intros [= <-] _. rewrite Nat.add_0_r. simpl. rewrite take_drop. by destruct s as [[] ?].
  - destruct (get32 d _) as [b|]; [|done]. cbn [mbind option_bind].
    destruct (get_blocks d k _) as [bs'|] eqn:E; [|done]. intros [= <-] Hl.
    erewrite bind_Ok by done. erewrite bind_Ok by done.
    destruct (lookup_lt_is_Some_2 (lh_block (lg s)) i) as [x Hx]; [lia|].
    rewrite Hx. erewrite bind_Ok by done. erewrite bind_Ok by done.
    erewrite IH; [|exact E|cbn [lg set_lh_block lh_block]; rewrite length_insert; lia].
    unfold set_lh_block. cbn [lg sub lh_block l_start l_size outstanding committing l_dev lh_n].
    do 4 f_equal. rewrite (take_S_r _ i (s32 b)) by (apply list_lookup_insert_eq; lia).
    rewrite take_insert_ge by lia. rewrite drop_insert_lt by lia.
    rewrite <-app_assoc. simpl. by rewrite Nat.add_succ_r.
Qed.

Lemma read_head_ok start sz bs s a :
  loggable start sz bs -> 0 < sz -> l_start (lg s) = start -> l_dev (lg s) = ROOTDEV ->
  length (lh_block (lg s)) = Z.to_nat LOGSIZE ->
  represents None (sub s) a -> st_held a = ∅ -> st_pinned a = ∅ ->
  decode_head (st_view a start) = Some bs ->
  exists t', let l := set_lh_block (bs ++ drop (length bs) (lh_block (lg s)))
                        (set_lh_n (Z.of_nat (length bs)) (lg s)) in
    read_head s = Ok (tt, mklst l t') /\ logs start l bs /\ represents None t' a.
Proof.
  intros Hlo Hsz Hst Hdv Hlen Hr Hh Hp Hd.
  assert (Hrange : 0 <= start < FSSIZE) by (destruct Hlo; lia).
  destruct (bread_ok start (sub s) a) as (i & t1 & H1 & Hi & Hr1); try done.
  { by unfold held_blocks; rewrite Hh, map_to_list_empty. }
  { right. rewrite idle_in_use, Hp, size_empty by done. unfold NBUF. lia. }
  assert (Hli : <[i := start]> (st_held a) !! i = Some start) by apply lookup_insert_eq.
  destruct (brelse_ok i start _ _ Hr1 Hli) as (t2 & H2 & Hr2).
  { right. simpl. eapply view_disk; [exact Hr|]. rewrite idle_in_use by done. set_solver. }
  unfold decode_head in Hd. destruct (get32 (st_view a start) 0) as [n|] eqn:En; [|done].
  cbn [mbind option_bind] in Hd. destruct (Z.leb_spec 0 (s32 n)); [|done].
  pose proof (get_blocks_length _ _ _ _ Hd) as Hlb.
  assert (Hn : s32 n = Z.of_nat (length bs)) by lia.
  exists t2. cbn zeta. split_and!.
  - unfold read_head. erewrite bind_Ok by done. rewrite Hdv, Hst.
    erewrite bind_Ok by (apply zoom_Ok; exact H1).
    erewrite bind_Ok; [|apply zoom_Ok, (b_get_ok i start _ _ _ Hr1 Hli)].
    cbn [st_view set_held lg]. rewrite En. erewrite bind_Ok by done. erewrite bind_Ok by done.
    erewrite bind_Ok; [|apply read_blocks_ok; [exact Hd|]].
    + erewrite zoom_Ok by exact H2. cbn [lg sub lh_block set_lh_n]. rewrite take_0, Hn, Nat2Z.id. done.
    + cbn [lg lh_block set_lh_n]. rewrite Hlen. destruct Hlo; lia.
  - split; try done. unfold logged, set_lh_block, set_lh_n. cbn [lh_n lh_block].
    rewrite Nat2Z.id. by apply take_app_length.
  - simpl in Hr2. unfold set_held in Hr2. simpl in Hr2. rewrite delete_insert_id in Hr2 by by rewrite Hh.
    by destruct a.
Qed.

Definition recovery_writes (start : Z) (d : Z -> list Z) (bs : list Z) (h0 : list Z) : list (Z * list Z) :=
  home_writes start d bs ++ [(start, h0)].

Lemma recover_ok start sz bs s a :
  loggable start sz bs -> 0 < sz -> l_start (lg s) = start -> l_dev (lg s) = ROOTDEV ->
  length (lh_block (lg s)) = Z.to_nat LOGSIZE ->
  represents None (sub s) a -> st_held a = ∅ -> st_pinned a = ∅ ->
  decode_head (st_view a start) = Some bs ->
  exists h0 t' bl, recover_from_log s = Ok (tt, mklst (set_lh_n 0 (set_lh_block bl (lg s))) t') /\
    length bl = Z.to_nat LOGSIZE /\ decode_head h0 = Some [] /\
    represents None t' (put_all (recovery_writes start (st_view a) bs h0) a).
Proof.
  intros Hlo Hsz Hst Hdv Hlen Hr Hh Hp Hd.
  destruct (read_head_ok start sz bs s a) as (t1 & H1 & Hl & Hr1); try done.
  set (l := set_lh_block _ _) in *.
  destruct (install_trans_ok start sz bs (mklst l t1) a) as (t2 & H2 & Hr2); try done; [by right|].
  set (ws := home_writes start (st_view a) bs) in *.
  destruct (put_all_fields ws a) as (_ & _ & _ & Hp2 & Hh2).
  destruct (write_head_ok start sz [] (mklst (set_lh_n 0 l) t2) (put_all ws a)) as (h0 & t3 & H3 & Hd0 & _ & Hr3); try done.
  { by eapply loggable_nil. }
  { by rewrite Hh2. }
  { rewrite Hp2, Hp, subseteq_empty_difference_L by set_solver. rewrite size_empty. unfold NBUF. lia. }
  exists h0, t3, (bs ++ drop (length bs) (lh_block (lg s))). split_and!; [| |done|].
  - unfold recover_from_log. erewrite bind_Ok by exact H1. erewrite bind_Ok by exact H2.
    erewrite bind_Ok by done. cbn [lg sub]. by rewrite H3.
  - rewrite length_app, length_drop, Hlen. destruct Hlo. lia.
  - unfold recovery_writes. rewrite put_all_app. exact Hr3.
Qed.
End Runs.

(** ** Crashes *)

Section Crash.
Context (start sz : Z) (bs : list Z).
Hypothesis Hlo : loggable start sz bs.
Hypothesis Hsz : 0 < sz.

Lemma start_not_home : start ∉ bs.
Proof. intros Hin. destruct (lo_home _ _ _ Hlo _ Hin) as [_ H]. apply H. unfold in_log. lia. Qed.

Lemma log_not_home i b : bs !! i = Some b -> start + Z.of_nat i + 1 ∉ bs.
Proof.
  intros Hb Hin. destruct (log_block_in _ _ _ _ _ Hlo Hb) as (Hl & _).
  by destruct (lo_home _ _ _ Hlo _ Hin).
Qed.

(** Recovery of a disk whose header lists [bs] and whose log blocks hold [get]. *)
Lemma recovered_full d get c : decode_head (d start) = Some bs ->
  (forall i b, bs !! i = Some b -> d (start + Z.of_nat i + 1) = get b) ->
  recovered start d c = if bool_decide (c ∈ bs) then get c else d c.
Proof.
  intros Hd Hg. unfold recovered. rewrite Hd, (home_writes_ext start d get) by done.
  assert (Hfst : ((fun b => (b, get b)) <$> bs).*1 = bs).
  { rewrite <-list_fmap_compose. apply list_fmap_id. }
  case_bool_decide as Hc.
  - apply apply_writes_in; [by rewrite Hfst; apply (lo_nodup _ _ _ Hlo)|]. apply list_elem_of_fmap. eauto.
  - apply apply_writes_other. by rewrite Hfst.
Qed.

Lemma recovered_empty d c : decode_head (d start) = Some [] -> recovered start d c = d c.
Proof. intros Hd. unfold recovered. by rewrite Hd. Qed.

(** A prefix of the installing writes gives each home block its old contents or
    its new ones. *)
Lemma installs_prefix d get k c :
  let ws := take k ((fun b => (b, get b)) <$> bs) in
  apply_writes d ws c = d c \/ (c ∈ bs /\ apply_writes d ws c = get c).
Proof.
  intros ws. unfold ws. rewrite <-fmap_take.
  destruct (decide (c ∈ take k bs)) as [Hin|Hni].
  - right. split; [rewrite <-(take_drop k bs); apply elem_of_app; by left|].
    apply apply_writes_in; [|apply list_elem_of_fmap; eauto].
    rewrite <-list_fmap_compose, list_fmap_id.
    eapply sublist_NoDup; [apply (lo_nodup _ _ _ Hlo)|apply sublist_take].
  - left. apply apply_writes_other. by rewrite <-list_fmap_compose, list_fmap_id.
Qed.

Lemma installs_fst (get : Z -> list Z) k : (take k ((fun b => (b, get b)) <$> bs)).*1 = take k bs.
Proof. by rewrite <-fmap_take, <-list_fmap_compose, list_fmap_id. Qed.

Lemma elem_of_take_in k (c : Z) : c ∈ take k bs -> c ∈ bs.
Proof. intros (j & Hj & _)%elem_of_take. by eapply list_elem_of_lookup_2. Qed.

(** The disk after the log blocks and the header, then after the whole commit. *)
Lemma logged_disk d get h c : c <> start -> ~ in_log start sz c ->
  apply_writes d (log_writes start get bs ++ [(start, h)]) c = d c.
Proof.
  intros Hs Hc. rewrite apply_writes_app. simpl. rewrite upd_other by done.
  apply apply_writes_other. by intros [Hin _]%(log_writes_in start sz get bs c Hlo).
Qed.

Lemma committed_disk d get h h0 c : ~ in_log start sz c ->
  apply_writes d (commit_writes start get bs h h0) c = if bool_decide (c ∈ bs) then get c else d c.
Proof.
  intros Hc. assert (Hs : c <> start) by (intros ->; apply Hc; unfold in_log; lia).
  unfold commit_writes. rewrite app_assoc, apply_writes_snoc, upd_other, apply_writes_app by done.
  pose proof (installs_fst get (length bs)) as Hif.
  rewrite firstn_all, take_ge in Hif by (by rewrite length_fmap).
  case_bool_decide as Hcb.
  - apply apply_writes_in; [rewrite Hif; by apply (lo_nodup _ _ _ Hlo)|]. apply list_elem_of_fmap. eauto.
  - rewrite apply_writes_other by by rewrite Hif. by apply logged_disk.
Qed.

(** The header is empty or lists [bs] at every moment. *)
Lemma commit_header d get h h0 k :
  decode_head (d start) = Some [] -> decode_head h = Some bs -> decode_head h0 = Some [] ->
  exists bs', loggable start sz bs' /\
    decode_head (apply_writes d (take k (commit_writes start get bs h h0)) start) = Some bs'.
Proof.
  intros Hd Hh Hh0.
  assert (Hnil : loggable start sz []) by by eapply loggable_nil.
  destruct (apply_writes_last d (take k (commit_writes start get bs h h0)) start) as [E|Hin].
  { exists []. by rewrite E. }
  apply elem_of_take in Hin as (j & Hin%list_elem_of_lookup_2 & _).
  set (x := apply_writes _ _ _) in *. unfold commit_writes in Hin.
  rewrite !elem_of_app in Hin. destruct Hin as [[Hin|Hin]|[Hin|Hin]].
  - apply (list_elem_of_fmap_2 fst) in Hin. by apply (log_writes_in _ sz) in Hin as [_ ?].
  - apply list_elem_of_singleton in Hin as [= Hx]. exists bs. by rewrite Hx.
  - apply list_elem_of_fmap in Hin as (b & [= <- _] & Hb). by destruct start_not_home.
  - apply list_elem_of_singleton in Hin as [= Hx]. exists []. by rewrite Hx.
Qed.

(** The outcomes of recovery after the first [k] writes of a commit. *)
Lemma commit_prefix d get h h0 k :
  decode_head (d start) = Some [] -> decode_head h = Some bs -> decode_head h0 = Some [] ->
  let d' := apply_writes d (take k (commit_writes start get bs h h0)) in
  (forall c, ~ in_log start sz c -> recovered start d' c = d c) \/
  (forall c, ~ in_log start sz c -> recovered start d' c = if bool_decide (c ∈ bs) then get c else d c).
Proof.
  intros Hd Hh Hh0. unfold commit_writes. set (lw := log_writes start get bs).
  assert (Hlw : forall j c, c ∈ (take j lw).*1 -> in_log start sz c /\ c <> start).
  { intros j c Hc. rewrite fmap_take in Hc. apply elem_of_take in Hc as (i & Hi & _).
    apply (log_writes_in start sz get bs c Hlo). by eapply list_elem_of_lookup_2. }
  destruct (decide (k <= length lw)%nat) as [Hk|Hk]; cbn zeta.
  { left. intros c Hc. rewrite <-app_assoc, take_app_le by done.
    rewrite recovered_empty; [|rewrite apply_writes_other; [done|by intros [_ Hs]%Hlw]].
    apply apply_writes_other. by intros [Hin _]%Hlw. }
  right. intros c Hc. destruct (decide (length (commit_writes start get bs h h0) <= k)%nat) as [Hkk|Hkk].
  { unfold lw. change ((log_writes start get bs ++ [(start, h)]) ++ ((λ b, (b, get b)) <$> bs) ++ [(start, h0)])
      with (commit_writes start get bs h h0). rewrite take_ge by done. rewrite recovered_empty; [by apply committed_disk|].
    unfold commit_writes. by rewrite app_assoc, apply_writes_snoc, upd_same. }
  rewrite take_app_ge by (rewrite length_app; simpl; lia).
  rewrite length_app. simpl. set (k2 := (k - _)%nat).
  rewrite apply_writes_app. set (d1 := apply_writes d (lw ++ [(start, h)])).
  assert (Hd1s : d1 start = h) by (unfold d1; rewrite apply_writes_app; apply upd_same).
  assert (Hd1c : d1 c = d c).
  { apply logged_disk; [|done]. intros ->. apply Hc. unfold in_log. lia. }
  assert (Hd1l : forall i b, bs !! i = Some b -> d1 (start + Z.of_nat i + 1) = get b).
  { intros i b Hb. by eapply log_contents. }
  assert (Hk2 : (k2 <= length bs)%nat).
  { unfold commit_writes, k2 in *. rewrite !length_app, length_fmap in *. fold lw in Hkk. simpl in *. lia. }
  rewrite take_app_le by (by rewrite length_fmap).
  rewrite (recovered_full _ get).
  - case_bool_decide as Hcb; [done|]. rewrite apply_writes_other; [done|].
    rewrite installs_fst. by intros ?%elem_of_take_in.
  - rewrite apply_writes_other; [by rewrite Hd1s|]. rewrite installs_fst.
    intros ?%elem_of_take_in. by apply start_not_home.
  - intros i b Hb. rewrite apply_writes_other; [by apply Hd1l|]. rewrite installs_fst.
    intros ?%elem_of_take_in. by eapply log_not_home.
Qed.

(** The same for recovery: interrupted and run again it gives the same disk. *)
Lemma recovery_prefix d h0 k c :
  decode_head (d start) = Some bs -> decode_head h0 = Some [] -> ~ in_log start sz c ->
  recovered start (apply_writes d (take k (recovery_writes start d bs h0))) c = recovered start d c.
Proof.
  intros Hd Hh0 Hc. unfold recovery_writes.
  assert (Hcs : c <> start) by (intros ->; apply Hc; unfold in_log; lia).
  pose proof (home_writes_fst start d bs) as Hf.
  assert (Hpre : forall x, x ∉ bs -> apply_writes d (take k (home_writes start d bs)) x = d x).
  { intros x Hx. apply apply_writes_other. rewrite fmap_take, Hf. by intros ?%elem_of_take_in. }
  destruct (decide (k <= length bs)%nat) as [Hk|Hk].
  - rewrite take_app_le by (unfold home_writes; by rewrite length_imap).
    assert (Hs : apply_writes d (take k (home_writes start d bs)) start = d start).
    { apply Hpre. by apply start_not_home. }
    unfold recovered. rewrite Hs, Hd.
    assert (Hext : home_writes start (apply_writes d (take k (home_writes start d bs))) bs = home_writes start d bs).
    { apply list_eq. intros i. unfold home_writes at 1 3. rewrite !list_lookup_imap.
      destruct (bs !! i) as [b|] eqn:Hb; simpl; [|done]. rewrite Hpre; [done|]. by eapply log_not_home. }
    rewrite Hext. destruct (decide (c ∈ bs)) as [Hcb|Hcb]; [|].
    2: { rewrite apply_writes_other by (by rewrite Hf). rewrite Hpre by done.
         symmetry. apply apply_writes_other. by rewrite Hf. }
    rewrite <-Hf in Hcb. apply list_elem_of_fmap in Hcb as ([c' x] & -> & Hin). simpl.
    rewrite !(apply_writes_in _ _ c' x); try done; rewrite Hf; by apply (lo_nodup _ _ _ Hlo).
  - rewrite take_ge by (unfold home_writes; rewrite length_app, length_imap; simpl; lia).
    rewrite apply_writes_app. simpl. rewrite recovered_empty by (rewrite upd_same; done).
    rewrite upd_other by done. unfold recovered. by rewrite Hd.
Qed.
End Crash.
