(* ===== verification/LogTheorems.v ===== *)
(** * The log as its clients use it

    The log's invariant, the rules of [log_write], [begin_op] and [end_op], a
    whole transaction, and recovery; then runs on the buffer cache of [Bio]. *)

From stdpp Require Import base numbers list gmap sets strings.
From S2P Require Import Prelude Strings Bytes Machine Ide Store Bio BioTheorems Log LogSpec.

Open Scope Z_scope.

(** The log between two calls: [bs] are the blocks logged so far. *)
Record log_inv (start sz : Z) (l : log) (a : store) (bs : list Z) : Prop := {
  li_logs : logs start l bs;
  li_lo : loggable start sz bs;
  li_pos : 0 < sz;
  li_size : l_size l = sz;
  li_max : sz <= LOGSIZE;
  li_len : length (lh_block l) = Z.to_nat LOGSIZE;
  li_pinned : st_pinned a = list_to_set bs;
  li_header : decode_head (st_disk a start) = Some [];
}.

(** Who is in the log: operations under way, and whether a commit runs. *)
Definition ops (l : log) : Z * bool := (outstanding l, committing l).

Definition add_block (b : Z) (bs : list Z) : list Z := if bool_decide (b ∈ bs) then bs else bs ++ [b].

Section Transactions.
Context {S : Type} {BC : BufferCache S} {BS : BufferCacheSpec S}.

Implicit Types (s : lst S) (a : store).

(** How the file system changes a block: read, modify, log, release. *)
Definition update (w : Z * list Z) : M (lst S) unit :=
  bp ← zoom (bread ROOTDEV w.1);
  zoom (b_put bp w.2) ;;
  log_write bp ;;
  zoom (brelse bp).

Fixpoint updates (ws : list (Z * list Z)) : M (lst S) unit :=
  match ws with
  | [] => mret tt
  | w :: ws => update w ;; updates ws
  end.

Definition transaction (ws : list (Z * list Z)) : M (lst S) unit :=
  begin_op ;; updates ws ;; end_op.

Lemma absorb_spec bl n b : (n <= length bl)%nat ->
  (b ∉ take n bl /\ absorb bl n b = n) \/
  (absorb bl n b < n /\ take n bl !! absorb bl n b = Some b)%nat.
Proof.
  revert n. induction bl as [|c bl IH]; intros [|n] Hn; simpl in *; try lia.
  - left. split; [by apply not_elem_of_nil|done].
  - left. split; [by apply not_elem_of_nil|done].
  - destruct (Z.eqb_spec c b) as [->|Hne]; [right; split; [lia|done]|].
    destruct (IH n) as [[Hni ->]|[Hlt Hl]]; [lia| |].
    + left. split; [|done]. rewrite not_elem_of_cons. naive_solver.
    + right. split; [lia|done].
Qed.

(** The header after a block number is put at its position. *)
Lemma absorb_logged l bs b : 
  lh_n l = Z.of_nat (length bs) -> logged l = bs -> (length bs < length (lh_block l))%nat ->
  let i := absorb (lh_block l) (Z.to_nat (lh_n l)) b in
  (exists x, lh_block l !! i = Some x) /\
  take (length (add_block b bs)) (<[i := b]> (lh_block l)) = add_block b bs /\
  (Z.of_nat i =? lh_n l) = negb (bool_decide (b ∈ bs)).
Proof.
  intros Hn Hl Hlt i. unfold logged in Hl. unfold add_block.
  destruct (absorb_spec (lh_block l) (Z.to_nat (lh_n l)) b) as [[Hni Hi]|[Hi Hx]]; [lia| |]; fold i in Hi.
  - rewrite Hl in Hni. rewrite Hn, Nat2Z.id in Hi, Hl. rewrite (bool_decide_false _ Hni).
    split_and!; [apply lookup_lt_is_Some_2; lia| |apply Z.eqb_eq; lia].
    rewrite length_app, Nat.add_1_r. erewrite take_S_r; [|rewrite Hi; apply list_lookup_insert_eq; lia].
    rewrite take_insert_ge by lia. by rewrite Hl.
  - fold i in Hx. rewrite Hl in Hx. assert (Hin : b ∈ bs) by by eapply list_elem_of_lookup_2.
    rewrite (bool_decide_true _ Hin). split_and!.
    + apply lookup_lt_is_Some_2. lia.
    + rewrite Hn, Nat2Z.id in Hl. rewrite take_insert_lt, Hl by lia. by apply list_insert_id.
    + simpl. apply Z.eqb_neq. lia.
Qed.

Lemma loggable_add start sz bs b : loggable start sz bs -> sz <= LOGSIZE ->
  0 <= b < FSSIZE -> ~ in_log start sz b -> Z.of_nat (length bs) + 1 < sz ->
  loggable start sz (add_block b bs).
Proof.
  intros Hlo Hmax Hb Hnl Hlt. unfold add_block. case_bool_decide as Hin; [done|].
  destruct Hlo. split; try done.
  - apply NoDup_app. split_and!; [done| |apply NoDup_singleton].
    intros x Hx ->%list_elem_of_singleton. done.
  - intros x [Hx| ->%list_elem_of_singleton]%elem_of_app; auto.
  - rewrite length_app. simpl. lia.
  - rewrite length_app. simpl. lia.
Qed.

Lemma log_write_ok start sz bs s a i b :
  log_inv start sz (lg s) a bs -> represents None (sub s) a -> st_held a !! i = Some b ->
  1 <= outstanding (lg s) -> 0 <= b < FSSIZE -> ~ in_log start sz b -> Z.of_nat (length bs) + 1 < sz ->
  exists s', let a' := set_pinned ({[b]} ∪ st_pinned a) a in
    log_write i s = Ok (tt, s') /\ represents None (sub s') a' /\
    log_inv start sz (lg s') a' (add_block b bs) /\ ops (lg s') = ops (lg s).
Proof.
  intros [[Hst Hdv Hn Hl] Hlo Hpos Hsize Hmax Hlen Hp Hh] Hr Hi Ho Hb Hnl Hlt.
  destruct (bc_acquire_ok LOGLOCK (sub s) a) as (t1 & H1 & Hr1); [by left|done|].
  destruct (b_pin_ok i b _ _ _ Hr1 Hi) as (t2 & H2 & Hr2).
  destruct (bc_release_ok LOGLOCK _ _ Hr2) as (t3 & H3 & Hr3).
  destruct (absorb_logged (lg s) bs b) as ([x Hx] & Htk & Heq); [done|done|lia|].
  set (l' := set_lh_n (Z.of_nat (length (add_block b bs)))
               (set_lh_block (<[absorb (lh_block (lg s)) (Z.to_nat (lh_n (lg s))) b := b]> (lh_block (lg s))) (lg s))).
  exists (mklst l' t3). split_and!.
  - unfold log_write. erewrite bind_Ok by done.
    destruct (Z.leb_spec LOGSIZE (lh_n (lg s))); [lia|].
    destruct (Z.leb_spec (l_size (lg s) - 1) (lh_n (lg s))); [lia|]. cbn [orb].
    destruct (Z.ltb_spec (outstanding (lg s)) 1); [lia|].
    erewrite bind_Ok by (apply zoom_Ok; exact H1).
    erewrite bind_Ok; [|apply zoom_Ok, (b_no_ok i b _ _ _ Hr1 Hi)].
    erewrite bind_Ok by done. cbn [lg sub]. rewrite Hx. erewrite bind_Ok by done. erewrite bind_Ok by done.
    erewrite (bind_Ok _ _ _ tt (mklst l' t1)).
    + erewrite bind_Ok by (apply zoom_Ok; exact H2). by erewrite zoom_Ok by exact H3.
    + rewrite Heq. unfold l', add_block. case_bool_decide; simpl; [by rewrite <-Hn|].
      rewrite Hn, length_app, Nat2Z.inj_add. done.
  - done.
  - split; try done.
    + split; try done. unfold logged, l', set_lh_n, set_lh_block. cbn [lg lh_n lh_block]. by rewrite Nat2Z.id.
    + by apply loggable_add.
    + unfold l', set_lh_n, set_lh_block. cbn [lg lh_n lh_block]. by rewrite length_insert.
    + cbn [st_pinned set_pinned]. rewrite Hp. unfold add_block. case_bool_decide; set_solver.
  - done.
Qed.

Lemma update_ok start sz bs s a b d :
  log_inv start sz (lg s) a bs -> represents None (sub s) a -> st_held a = ∅ ->
  1 <= outstanding (lg s) -> 0 <= b < FSSIZE -> ~ in_log start sz b ->
  length d = BSIZE -> Z.of_nat (length bs) + 1 < sz ->
  exists s', let a' := set_pinned ({[b]} ∪ st_pinned a) (set_view (upd (st_view a) b d) a) in
    update (b, d) s = Ok (tt, s') /\ represents None (sub s') a' /\
    log_inv start sz (lg s') a' (add_block b bs) /\ ops (lg s') = ops (lg s).
Proof.
  intros Hinv Hr Hh Ho Hb Hnl Hd Hlt.
  destruct (bread_ok b (sub s) a) as (i & t1 & H1 & Hi & Hr1); try done.
  { by unfold held_blocks; rewrite Hh, map_to_list_empty. }
  { right. rewrite idle_in_use, (li_pinned _ _ _ _ _ Hinv) by done.
    pose proof (pinned_size (list_to_set bs) bs ltac:(done)).
    pose proof (loggable_small _ _ _ (li_lo _ _ _ _ _ Hinv)). lia. }
  assert (Hli : <[i := b]> (st_held a) !! i = Some b) by apply lookup_insert_eq.
  destruct (b_put_ok i b d _ _ _ Hr1 Hli Hd) as (t2 & H2 & Hr2).
  set (a2 := set_view _ _) in Hr2.
  destruct (log_write_ok start sz bs (mklst (lg s) t2) a2 i b) as (s3 & H3 & Hr3 & Hinv3 & Ho3); try done.
  { destruct Hinv. split; done. }
  destruct (brelse_ok i b _ _ Hr3 Hli) as (t4 & H4 & Hr4).
  { left. simpl. set_solver. }
  exists (mklst (lg s3) t4). split_and!.
  - unfold update. erewrite bind_Ok by (apply zoom_Ok; exact H1). erewrite bind_Ok by (apply zoom_Ok; exact H2).
    erewrite bind_Ok by exact H3. by apply zoom_Ok.
  - simpl in *. unfold set_held, set_pinned, set_view in *. simpl in *.
    by rewrite delete_insert_id in Hr4 by by rewrite Hh.
  - destruct Hinv3. split; done.
  - done.
Qed.
Definition can_log (start sz : Z) (w : Z * list Z) : Prop :=
  0 <= w.1 < FSSIZE /\ ~ in_log start sz w.1 /\ length w.2 = BSIZE.

Lemma add_block_length b bs : (length (add_block b bs) <= Datatypes.S (length bs))%nat.
Proof. unfold add_block. case_bool_decide; [lia|]. rewrite length_app. simpl. lia. Qed.

Lemma updates_ok start sz ws bs s a :
  log_inv start sz (lg s) a bs -> represents None (sub s) a -> st_held a = ∅ ->
  1 <= outstanding (lg s) -> Forall (can_log start sz) ws -> Z.of_nat (length bs + length ws) < sz ->
  exists s' a' bs', updates ws s = Ok (tt, s') /\ represents None (sub s') a' /\
    log_inv start sz (lg s') a' bs' /\ ops (lg s') = ops (lg s) /\
    st_view a' = apply_writes (st_view a) ws /\ st_disk a' = st_disk a /\ st_hist a' = st_hist a /\
    st_held a' = ∅.
Proof.
  revert bs s a. induction ws as [|[b d] ws IH]; intros bs s a Hinv Hr Hh Ho Hws Hlt.
  { exists s, a, bs. done. }
  apply Forall_cons in Hws as [(Hb & Hnl & Hd) Hws]. simpl in *.
  destruct (update_ok start sz bs s a b d) as (s1 & H1 & Hr1 & Hinv1 & Ho1); try done; [lia|].
  pose proof (add_block_length b bs).
  set (a1 := set_pinned _ _) in *.
  destruct (IH (add_block b bs) s1 a1) as (s' & a' & bs' & Hrun & Hr' & Hinv' & Ho' & Hv & Hdk & Hhi & Hhe);
    [done|done|done|injection Ho1; lia|done|lia|].
  exists s', a', bs'. split_and!; try done.
  - by erewrite bind_Ok by exact H1.
  - by rewrite Ho'.
Qed.

Lemma begin_op_ok s a :
  represents None (sub s) a -> committing (lg s) = false ->
  lh_n (lg s) + (outstanding (lg s) + 1) * MAXOPBLOCKS <= LOGSIZE ->
  exists t', begin_op s = Ok (tt, mklst (set_outstanding (outstanding (lg s) + 1) (lg s)) t') /\
    represents None t' a.
Proof.
  intros Hr Hc Hn.
  destruct (bc_acquire_ok LOGLOCK (sub s) a) as (t1 & H1 & Hr1); [by left|done|].
  destruct (bc_release_ok LOGLOCK _ _ Hr1) as (t2 & H2 & Hr2).
  exists t2. split; [|done]. unfold begin_op. erewrite bind_Ok by (apply zoom_Ok; exact H1).
  erewrite bind_Ok by done. cbn [lg]. rewrite Hc.
  destruct (Z.ltb_spec LOGSIZE (lh_n (lg s) + (outstanding (lg s) + 1) * MAXOPBLOCKS)); [lia|].
  erewrite bind_Ok by done. by erewrite zoom_Ok by exact H2.
Qed.

(** [ws] takes the disk from [d] to [v] atomically: after any prefix of it,
    recovery gives one of the two, outside the log, from a header it can read. *)
Definition atomic (start sz : Z) (d v : Z -> list Z) (ws : list (Z * list Z)) : Prop :=
  forall k, let d' := apply_writes d (take k ws) in
    (exists bs, loggable start sz bs /\ decode_head (d' start) = Some bs) /\
    ((forall c, ~ in_log start sz c -> recovered start d' c = d c) \/
    (forall c, ~ in_log start sz c -> recovered start d' c = v c)).

Lemma commit_run start sz bs s a :
  log_inv start sz (lg s) a bs -> represents None (sub s) a -> st_held a = ∅ ->
  exists ws t', commit s = Ok (tt, mklst (set_lh_n 0 (lg s)) t') /\ represents None t' (put_all ws a) /\
    log_inv start sz (set_lh_n 0 (lg s)) (put_all ws a) [] /\
    (forall c, ~ in_log start sz c -> st_disk (put_all ws a) c = st_view a c) /\
    atomic start sz (st_disk a) (st_view a) ws.
Proof.
  intros Hinv Hr Hh. pose proof Hinv as [Hl Hlo Hpos Hsize Hmax Hlen Hp Hhd].
  assert (Hview : forall c, c ∉ bs -> st_view a c = st_disk a c).
  { intros c Hc. eapply view_disk; [exact Hr|]. rewrite idle_in_use, Hp by done. by rewrite elem_of_list_to_set. }
  destruct (decide (bs = [])) as [->|Hne].
  { exists [], (sub s). split_and!; [|done| | |].
    - unfold commit. erewrite bind_Ok by done. rewrite (ls_n _ _ _ Hl). simpl. destruct s as [[] ?].
      pose proof (ls_n _ _ _ Hl) as Hn. simpl in Hn. by subst.
    - by split; try done; eapply logs_empty.
    - intros c _. symmetry. apply Hview. by apply not_elem_of_nil.
    - intros k. rewrite take_nil. split; [by exists []|left]. intros c _. by apply recovered_empty. }
  destruct (commit_ok start sz bs s a) as (h & h0 & t' & H1 & Hd & Hd0 & Hr1); try done.
  set (ws := commit_writes start (st_view a) bs h h0) in *.
  destruct (put_all_fields ws a) as (Hdk & _ & _ & Hpn & _).
  assert (Hstart : st_disk (put_all ws a) start = h0).
  { rewrite Hdk. unfold ws, commit_writes. rewrite !app_assoc, apply_writes_app. apply upd_same. }
  assert (Hat : atomic start sz (st_disk a) (st_view a) ws).
  { intros k. split; [by apply commit_header|]. destruct (commit_prefix start sz bs Hlo Hpos (st_disk a) (st_view a) h h0 k Hhd Hd Hd0) as [Hk|Hk];
      [by left|right]. intros c Hc. rewrite Hk by done. case_bool_decide; [done|]. symmetry. by apply Hview. }
  exists ws, t'. split_and!; [done|done| | |done].
  - split; try done.
    + by eapply logs_empty.
    + by eapply loggable_nil.
    + rewrite Hpn, Hp. apply subseteq_empty_difference_L. intros c. rewrite !elem_of_list_to_set. intros Hc.
      unfold ws, commit_writes. rewrite !fmap_app, !elem_of_app. right. left.
      by rewrite <-list_fmap_compose, list_fmap_id.
    + by rewrite Hstart.
  - intros c Hc. rewrite Hdk. unfold ws. rewrite (committed_disk start sz) by done.
    case_bool_decide; [done|]. symmetry. by apply Hview.
Qed.


Lemma log_inv_ops start sz l a bs n c :
  log_inv start sz l a bs -> log_inv start sz (set_committing c (set_outstanding n l)) a bs.
Proof. intros [[] ? ? ? ? ? ? ?]. by split. Qed.

(** The last operation commits; an earlier one only wakes the sleepers. *)
Lemma end_op_last start sz bs s a :
  log_inv start sz (lg s) a bs -> represents None (sub s) a -> st_held a = ∅ -> ops (lg s) = (1, false) ->
  exists ws s', end_op s = Ok (tt, s') /\ represents None (sub s') (put_all ws a) /\
    log_inv start sz (lg s') (put_all ws a) [] /\ ops (lg s') = (0, false) /\
    (forall c, ~ in_log start sz c -> st_disk (put_all ws a) c = st_view a c) /\
    atomic start sz (st_disk a) (st_view a) ws.
Proof.
  intros Hinv Hr Hh [= Ho Hc].
  destruct (bc_acquire_ok LOGLOCK (sub s) a) as (t1 & H1 & Hr1); [by left|done|].
  destruct (bc_release_ok LOGLOCK _ _ Hr1) as (t2 & H2 & Hr2).
  set (l2 := set_committing true (set_outstanding (outstanding (lg s) - 1) (lg s))).
  destruct (commit_run start sz bs (mklst l2 t2) a) as (ws & t3 & H3 & Hr3 & Hinv3 & Hd & Hat).
  { by apply log_inv_ops. }
  { done. }
  { done. }
  destruct (bc_acquire_ok LOGLOCK _ _ ltac:(by left) Hr3) as (t4 & H4 & Hr4).
  destruct (bc_wakeup_ok ChLog _ _ _ Hr4) as (t5 & H5 & Hr5).
  destruct (bc_release_ok LOGLOCK _ _ Hr5) as (t6 & H6 & Hr6).
  exists ws, (mklst (set_committing false (set_lh_n 0 l2)) t6). split_and!; try done.
  - unfold end_op. erewrite bind_Ok by (apply zoom_Ok; exact H1). erewrite bind_Ok by done.
    erewrite bind_Ok by done. cbn [lg sub]. change (committing (set_outstanding ?n ?l)) with (committing l).
    rewrite Hc. cbn [outstanding set_outstanding]. rewrite Ho. simpl (1 - 1 =? 0).
    cbn iota. erewrite bind_Ok by done. cbn [lg sub]. erewrite bind_Ok by (apply zoom_Ok; exact H2).
    unfold when. replace (set_committing true (set_outstanding (1 - 1) (lg s))) with l2 by (unfold l2; by rewrite Ho).
    erewrite bind_Ok by exact H3. erewrite bind_Ok by (apply zoom_Ok; exact H4).
    erewrite bind_Ok by done. erewrite bind_Ok by (apply zoom_Ok; exact H5). by erewrite zoom_Ok by exact H6.
  - by destruct Hinv3 as [[] ? ? ? ? ? ? ?].
  - unfold ops, l2. simpl. by rewrite Ho.
Qed.


(** An operation that is not the last leaves the log to the others. *)
Lemma end_op_early s a n :
  represents None (sub s) a -> ops (lg s) = (n, false) -> 1 < n ->
  exists t', end_op s = Ok (tt, mklst (set_outstanding (n - 1) (lg s)) t') /\ represents None t' a.
Proof.
  intros Hr [= Ho Hc] Hn.
  destruct (bc_acquire_ok LOGLOCK (sub s) a) as (t1 & H1 & Hr1); [by left|done|].
  destruct (bc_wakeup_ok ChLog _ _ _ Hr1) as (t2 & H2 & Hr2).
  destruct (bc_release_ok LOGLOCK _ _ Hr2) as (t3 & H3 & Hr3).
  exists t3. split; [|done].
  unfold end_op. erewrite bind_Ok by (apply zoom_Ok; exact H1). erewrite bind_Ok by done.
  erewrite bind_Ok by done. cbn [lg sub]. change (committing (set_outstanding ?n ?l)) with (committing l).
  rewrite Hc. cbn [outstanding set_outstanding]. rewrite Ho.
  destruct (Z.eqb_spec (n - 1) 0); [lia|]. erewrite bind_Ok by (apply zoom_Ok; exact H2).
  erewrite bind_Ok by (apply zoom_Ok; exact H3). done.
Qed.

Lemma transaction_run start sz ws s a :
  log_inv start sz (lg s) a [] -> ops (lg s) = (0, false) ->
  represents None (sub s) a -> st_held a = ∅ ->
  Forall (can_log start sz) ws -> Z.of_nat (length ws) < sz ->
  exists wr s' a', transaction ws s = Ok (tt, s') /\ represents None (sub s') a' /\
    log_inv start sz (lg s') a' [] /\ ops (lg s') = (0, false) /\
    st_held a' = ∅ /\ st_hist a' = st_hist a ++ wr /\
    (forall c, ~ in_log start sz c -> st_disk a' c = apply_writes (st_disk a) ws c) /\
    atomic start sz (st_disk a) (apply_writes (st_disk a) ws) wr.
Proof.
  intros Hinv [= Ho Hc] Hr Hh Hws Hlen.
  destruct (begin_op_ok s a) as (t1 & H1 & Hr1); [done|done| |].
  { rewrite Ho, (ls_n _ _ _ (li_logs _ _ _ _ _ Hinv)). unfold LOGSIZE, MAXOPBLOCKS. simpl. lia. }
  set (s1 := mklst _ t1) in H1.
  assert (Hinv1 : log_inv start sz (lg s1) a []).
  { pose proof (log_inv_ops _ _ _ _ _ (outstanding (lg s) + 1) (committing (lg s)) Hinv) as Hi. done. }
  destruct (updates_ok start sz ws [] s1 a) as (s2 & a2 & bs & H2 & Hr2 & Hinv2 & Ho2 & Hv2 & Hd2 & Hh2 & Hhe2);
    try done; [simpl; lia|].
  destruct (end_op_last start sz bs s2 a2) as (wr & s3 & H3 & Hr3 & Hinv3 & Ho3 & Hd3 & Hat); try done.
  { rewrite Ho2. unfold ops. simpl. by rewrite Ho, Hc. }
  assert (Hvd : forall c, st_view a2 c = apply_writes (st_disk a) ws c).
  { intros c. rewrite Hv2. apply apply_writes_ext. intros b. eapply view_disk; [exact Hr|].
    rewrite idle_in_use, (li_pinned _ _ _ _ _ Hinv) by done. set_solver. }
  destruct (put_all_fields wr a2) as (_ & _ & Hhist & _ & Hheld).
  exists wr, s3, (put_all wr a2). split_and!; try done.
  - unfold transaction. erewrite bind_Ok by exact H1. by erewrite bind_Ok by exact H2.
  - by rewrite Hheld.
  - by rewrite Hhist, Hh2.
  - intros c Hc'. by rewrite Hd3, Hvd.
  - intros k. rewrite <-Hd2. destruct (Hat k) as [Hbs [Hk|Hk]]; (split; [done|]); [by left|right]. intros c Hc'. by rewrite Hk, Hvd, Hd2.
Qed.


(** ** Recovery *)

(** A state as after a reboot: nothing cached that is not on the disk. *)
Definition fresh (start sz : Z) (s : lst S) (a : store) : Prop :=
  represents None (sub s) a /\ st_held a = ∅ /\ st_pinned a = ∅ /\
  length (lh_block (lg s)) = Z.to_nat LOGSIZE /\ ops (lg s) = (0, false) /\
  exists sb, decode_super (st_disk a 1) = Some sb /\ sb_logstart sb = start /\ sb_nlog sb = sz.

Lemma fresh_view start sz s a c : fresh start sz s a -> st_view a c = st_disk a c.
Proof.
  intros (Hr & Hh & Hp & _). eapply view_disk; [exact Hr|]. rewrite idle_in_use, Hp by done. set_solver.
Qed.

Lemma readsb_ok start sz s a sb :
  fresh start sz s a -> decode_super (st_disk a 1) = Some sb ->
  exists t', readsb ROOTDEV (sub s) = Ok (sb, t') /\ represents None t' a.
Proof.
  intros Hf Hsb. pose proof Hf as (Hr & Hh & Hp & _).
  destruct (bread_ok 1 (sub s) a) as (i & t1 & H1 & Hi & Hr1); [done|unfold FSSIZE; lia| | |].
  { by unfold held_blocks; rewrite Hh, map_to_list_empty. }
  { right. rewrite idle_in_use, Hp, size_empty by done. unfold NBUF. lia. }
  assert (Hli : <[i := 1]> (st_held a) !! i = Some 1) by apply lookup_insert_eq.
  destruct (brelse_ok i 1 _ _ Hr1 Hli) as (t2 & H2 & Hr2).
  { right. simpl. by apply (fresh_view start sz s). }
  exists t2. split.
  - unfold readsb. erewrite bind_Ok by exact H1.
    erewrite bind_Ok; [|apply (b_get_ok i 1 _ _ _ Hr1 Hli)]. cbn [st_view set_held].
    rewrite (fresh_view _ _ _ _ _ Hf), Hsb. erewrite bind_Ok by done. by erewrite bind_Ok by exact H2.
  - simpl in Hr2. unfold set_held in Hr2. simpl in Hr2. rewrite delete_insert_id in Hr2 by by rewrite Hh.
    by destruct a.
Qed.

Lemma initlog_run start sz bs s a :
  fresh start sz s a -> loggable start sz bs -> 0 < sz <= LOGSIZE ->
  decode_head (st_disk a start) = Some bs ->
  exists wr s' a', initlog ROOTDEV s = Ok (tt, s') /\ represents None (sub s') a' /\
    log_inv start sz (lg s') a' [] /\ ops (lg s') = (0, false) /\ st_held a' = ∅ /\
    st_hist a' = st_hist a ++ wr /\
    (forall c, ~ in_log start sz c -> st_disk a' c = recovered start (st_disk a) c) /\
    (forall k c, ~ in_log start sz c ->
       recovered start (apply_writes (st_disk a) (take k wr)) c = recovered start (st_disk a) c).
Proof.
  intros Hf Hlo [Hpos Hmax] Hd. pose proof Hf as (Hr & Hh & Hp & Hlen & Ho & sb & Hsb & Hst & Hnl).
  destruct (bc_initlock_ok LOGLOCK (sub s) a) as (t0 & H0 & Hr0); [by left|done|].
  assert (Hf0 : fresh start sz (mklst (lg s) t0) a) by (split; [done|apply Hf]).
  destruct (readsb_ok _ _ _ _ _ Hf0 Hsb) as (t1 & H1 & Hr1).
  set (s1 := mklst (set_l_dev ROOTDEV (set_l_size sz (set_l_start start (lg s)))) t1).
  destruct (recover_ok start sz bs s1 a) as (h0 & t2 & bl & H2 & Hbl & Hd0 & Hr2); try done.
  { by rewrite (fresh_view _ _ _ _ _ Hf). }
  set (wr := recovery_writes start (st_view a) bs h0) in *.
  assert (Ewr : wr = recovery_writes start (st_disk a) bs h0).
  { unfold wr, recovery_writes, home_writes. f_equal. apply imap_ext. intros i b _.
    by rewrite (fresh_view _ _ _ _ _ Hf). }
  destruct (put_all_fields wr a) as (Hdk & _ & Hhi & Hpn & Hhe).
  assert (Hhd0 : decode_head (st_disk (put_all wr a) start) = Some []).
  { rewrite Hdk. unfold wr, recovery_writes. by rewrite apply_writes_snoc, upd_same. }
  assert (Hpre : forall k c, ~ in_log start sz c ->
    recovered start (apply_writes (st_disk a) (take k wr)) c = recovered start (st_disk a) c).
  { intros k c Hc. rewrite Ewr. by eapply recovery_prefix. }
  exists wr, (mklst (set_lh_n 0 (set_lh_block bl (lg s1))) t2), (put_all wr a). split_and!; try done.
  - unfold initlog. change (Z.of_nat BSIZE <=? 4 + 4 * LOGSIZE) with false. cbn iota.
    erewrite bind_Ok by (apply zoom_Ok; exact H0).
    erewrite bind_Ok by (apply zoom_Ok; exact H1). erewrite bind_Ok by done. erewrite bind_Ok by done.
    erewrite bind_Ok by done. cbn [lg sub]. rewrite Hst, Hnl. exact H2.
  - split; try done; [by eapply loggable_nil|]. rewrite Hpn, Hp. set_solver.
  - by rewrite Hhe.
  - intros c Hc. rewrite <-(Hpre (length wr) c Hc), firstn_all, <-Hdk. by rewrite recovered_empty.
Qed.

Lemma fresh_prefix_recovers start sz d v wr k s0 a0 :
  atomic start sz d v wr -> 0 < sz <= LOGSIZE ->
  fresh start sz s0 a0 -> st_disk a0 = apply_writes d (take k wr) ->
  exists s1 a1, initlog ROOTDEV s0 = Ok (tt, s1) /\ represents None (sub s1) a1 /\
    log_inv start sz (lg s1) a1 [] /\
    ((forall c, ~ in_log start sz c -> st_disk a1 c = d c) \/
     (forall c, ~ in_log start sz c -> st_disk a1 c = v c)).
Proof.
  intros Hat Hsz Hf Hd. destruct (Hat k) as [(bs & Hlo & Hhd) Hk]. rewrite <-Hd in Hhd, Hk.
  destruct (initlog_run start sz bs s0 a0) as (wr1 & s1 & a1 & H1 & Hr1 & Hi1 & _ & _ & _ & Hd1 & _); try done.
  exists s1, a1. split_and!; try done.
  destruct Hk as [Hk|Hk]; [left|right]; intros c Hc; rewrite Hd1 by done; by apply Hk.
Qed.


End Transactions.

(** ** Properties *)

(** C1. Transactions are atomic.  A transaction that changes fewer blocks than
    the log holds returns and puts its changes on the disk; and if the machine
    crashes after any number [k] of the disk writes it sends, a machine started
    on the disk then found runs [initlog] and finds, outside the log, either the
    disk as before the transaction or the disk with all its changes. *)
Theorem transaction_crash_safe {S} {BC : BufferCache S} {BS : BufferCacheSpec S}
    start sz ws (s : lst S) a :
  log_inv start sz (lg s) a [] -> ops (lg s) = (0, false) ->
  represents None (sub s) a -> st_held a = ∅ ->
  Forall (can_log start sz) ws -> Z.of_nat (length ws) < sz ->
  exists wr s' a', transaction ws s = Ok (tt, s') /\ represents None (sub s') a' /\
    log_inv start sz (lg s') a' [] /\ st_hist a' = st_hist a ++ wr /\
    (forall c, ~ in_log start sz c -> st_disk a' c = apply_writes (st_disk a) ws c) /\
    forall k (s0 : lst S) a0, fresh start sz s0 a0 -> st_disk a0 = apply_writes (st_disk a) (take k wr) ->
      exists s1 a1, initlog ROOTDEV s0 = Ok (tt, s1) /\ represents None (sub s1) a1 /\
        log_inv start sz (lg s1) a1 [] /\
        ((forall c, ~ in_log start sz c -> st_disk a1 c = st_disk a c) \/
         (forall c, ~ in_log start sz c -> st_disk a1 c = apply_writes (st_disk a) ws c)).
Proof.
  intros Hinv Ho Hr Hh Hws Hlen.
  destruct (transaction_run start sz ws s a) as (wr & s' & a' & H1 & Hr' & Hinv' & _ & _ & Hhi & Hd & Hat); try done.
  exists wr, s', a'. split_and!; try done. intros k s0 a0 Hf Hdk.
  eapply fresh_prefix_recovers; [exact Hat|destruct Hinv; lia|done|done].
Qed.

(** C3. [initlog] on a started machine returns with an empty log, having put the
    blocks of the committed transaction it finds in their places; interrupted
    after any number of its writes and run again, it leaves the same disk. *)
Theorem initlog_recovers {S} {BC : BufferCache S} {BS : BufferCacheSpec S} start sz bs (s : lst S) a :
  fresh start sz s a -> loggable start sz bs -> 0 < sz <= LOGSIZE ->
  decode_head (st_disk a start) = Some bs ->
  exists wr s' a', initlog ROOTDEV s = Ok (tt, s') /\ represents None (sub s') a' /\
    log_inv start sz (lg s') a' [] /\ ops (lg s') = (0, false) /\ st_held a' = ∅ /\
    st_hist a' = st_hist a ++ wr /\
    (forall c, ~ in_log start sz c -> st_disk a' c = recovered start (st_disk a) c) /\
    (forall k c, ~ in_log start sz c ->
       recovered start (apply_writes (st_disk a) (take k wr)) c = recovered start (st_disk a) c).
Proof. apply initlog_run. Qed.

(** [log_write] inside an operation and with room in the log records the
    block once, however often it is called on it, and keeps its buffer in
    memory; with a full log or outside an operation it panics. *)
Theorem log_write_correct {S} {BC : BufferCache S} {BS : BufferCacheSpec S} start sz bs (s : lst S) a i b :
  log_inv start sz (lg s) a bs -> represents None (sub s) a -> st_held a !! i = Some b ->
  0 <= b < FSSIZE -> ~ in_log start sz b ->
  if bool_decide (sz - 1 <= Z.of_nat (length bs)) then log_write i s = Err (Panic "too big a transaction")
  else if bool_decide (outstanding (lg s) < 1) then log_write i s = Err (Panic "log_write outside of trans")
  else exists s', let a' := set_pinned ({[b]} ∪ st_pinned a) a in
    log_write i s = Ok (tt, s') /\ represents None (sub s') a' /\
    log_inv start sz (lg s') a' (add_block b bs) /\ ops (lg s') = ops (lg s).
Proof.
  intros Hinv Hr Hi Hb Hnl. pose proof Hinv as [[_ _ Hn _] _ _ Hsz _ _ _ _].
  case_bool_decide as Hfull; [|case_bool_decide as Ho]; [| |apply log_write_ok; try done; lia].
  - unfold log_write. erewrite bind_Ok by done. rewrite Hn, Hsz, (proj2 (Z.leb_le _ _) Hfull).
    by rewrite orb_true_r.
  - unfold log_write. erewrite bind_Ok by done. rewrite Hn, Hsz.
    destruct (Z.leb_spec (sz - 1) (Z.of_nat (length bs))); [lia|].
    destruct (Z.leb_spec LOGSIZE (Z.of_nat (length bs))); [destruct Hinv; lia|].
    by rewrite (proj2 (Z.ltb_lt _ _) Ho).
Qed.

(** [begin_op] admits an operation exactly when no commit is running and the
    blocks logged so far and ten for each operation under way, this one
    included, stay within the log header; otherwise it sleeps. *)
Theorem begin_op_admits {S} {BC : BufferCache S} {BS : BufferCacheSpec S} (s : lst S) a :
  represents None (sub s) a ->
  if negb (committing (lg s)) && (lh_n (lg s) + (outstanding (lg s) + 1) * MAXOPBLOCKS <=? LOGSIZE) then
    exists t', begin_op s = Ok (tt, mklst (set_outstanding (outstanding (lg s) + 1) (lg s)) t') /\
      represents None t' a
  else begin_op s = Err Asleep.
Proof.
  intros Hr. destruct (committing (lg s)) eqn:Hc; [|destruct (Z.leb_spec (lh_n (lg s) + (outstanding (lg s) + 1) * MAXOPBLOCKS) LOGSIZE)].
  - destruct (bc_acquire_ok LOGLOCK (sub s) a) as (t1 & H1 & Hr1); [by left|done|].
    unfold begin_op. erewrite bind_Ok by (apply zoom_Ok; exact H1). erewrite bind_Ok by done. cbn [lg]. by rewrite Hc.
  - by apply begin_op_ok.
  - destruct (bc_acquire_ok LOGLOCK (sub s) a) as (t1 & H1 & Hr1); [by left|done|].
    unfold begin_op. erewrite bind_Ok by (apply zoom_Ok; exact H1). erewrite bind_Ok by done. cbn [lg]. rewrite Hc.
    by rewrite (proj2 (Z.ltb_lt _ _)).
Qed.

(** ** Runs *)

(** A disk as mkfs lays it out: a log of [LOGSIZE] blocks at block 2. *)
Definition super_bytes : list Z :=
  concat (le_bytes 4 <$> [2000; 1941; 200; 30; 2; 32; 58]) ++ replicate (BSIZE - 28) 0.
Definition mkfs_disk (b : Z) : list Z := if b =? 1 then super_bytes else replicate BSIZE 0.

Definition boot_log : lst (bst unit) :=
  mklst (mklog 0 0 0 false 0 0 (replicate 30 0)) (booted mkfs_disk).

(** After [initlog]. *)
Definition idle_log : lst (bst unit) :=
  mklst (mklog 2 30 0 false ROOTDEV 0 (replicate 30 0)) (booted mkfs_disk).

Lemma mkfs_disk_length b : 0 <= b < FSSIZE -> length (mkfs_disk b) = BSIZE.
Proof. intros _. unfold mkfs_disk. by destruct (b =? 1). Qed.

Lemma mkfs_rep : bio_rep None (booted mkfs_disk) (empty_store mkfs_disk).
Proof. apply booted_rep, mkfs_disk_length. Qed.

Lemma empty_loggable : loggable 2 30 [].
Proof.
  split; unfold FSSIZE, LOGSIZE, MAXOPBLOCKS; simpl; try lia; [constructor|].
  intros b Hb. by apply elem_of_nil in Hb.
Qed.

Lemma boot_log_fresh : fresh 2 30 boot_log (empty_store mkfs_disk).
Proof.
  split_and!; [apply mkfs_rep|done..|]. exists (mksuper 2000 1941 200 30 2 32 58). split_and!; [|done..].
  by vm_compute.
Qed.

Lemma idle_log_inv : log_inv 2 30 (lg idle_log) (empty_store mkfs_disk) [].
Proof.
  split; try done. apply empty_loggable.
Qed.

Lemma transaction_crash_safe_witness :
  exists wr s' a', transaction [(100, replicate BSIZE 1); (101, replicate BSIZE 2)] idle_log = Ok (tt, s') /\
    represents None (sub s') a' /\ log_inv 2 30 (lg s') a' [] /\ st_hist a' = [] ++ wr /\
    (forall c, ~ in_log 2 30 c ->
       st_disk a' c = apply_writes mkfs_disk [(100, replicate BSIZE 1); (101, replicate BSIZE 2)] c) /\
    forall k (s0 : lst (bst unit)) a0, fresh 2 30 s0 a0 -> st_disk a0 = apply_writes mkfs_disk (take k wr) ->
      exists s1 a1, initlog ROOTDEV s0 = Ok (tt, s1) /\ represents None (sub s1) a1 /\
        log_inv 2 30 (lg s1) a1 [] /\
        ((forall c, ~ in_log 2 30 c -> st_disk a1 c = mkfs_disk c) \/
         (forall c, ~ in_log 2 30 c ->
            st_disk a1 c = apply_writes mkfs_disk [(100, replicate BSIZE 1); (101, replicate BSIZE 2)] c)).
Proof.
  refine (transaction_crash_safe 2 30 _ idle_log (empty_store mkfs_disk) _ _ _ _ _ _).
  - apply idle_log_inv.
  - reflexivity.
  - apply mkfs_rep.
  - reflexivity.
  - repeat (apply Forall_cons; split); try apply Forall_nil_2; unfold can_log, in_log, FSSIZE; simpl; (split_and!; [lia..|done]).
  - simpl. lia.
Defined.

Lemma initlog_recovers_witness :
  exists wr s' a', initlog ROOTDEV boot_log = Ok (tt, s') /\ represents None (sub s') a' /\
    log_inv 2 30 (lg s') a' [] /\ ops (lg s') = (0, false) /\ st_held a' = ∅ /\ st_hist a' = [] ++ wr /\
    (forall c, ~ in_log 2 30 c -> st_disk a' c = recovered 2 mkfs_disk c) /\
    (forall k c, ~ in_log 2 30 c -> recovered 2 (apply_writes mkfs_disk (take k wr)) c = recovered 2 mkfs_disk c).
Proof.
  refine (initlog_recovers 2 30 [] boot_log (empty_store mkfs_disk) _ _ _ _).
  - apply boot_log_fresh.
  - apply empty_loggable.
  - unfold LOGSIZE, MAXOPBLOCKS. lia.
  - by vm_compute.
Defined.

Definition busy_log : log := mklog 2 30 1 false ROOTDEV 0 (replicate 30 0).

Lemma log_write_correct_witness :
  exists i (s : bst unit) s', let a := set_held {[i := 100]} (empty_store mkfs_disk) in
    represents None s a /\
    log_write i (mklst busy_log s) = Ok (tt, s') /\
    represents None (sub s') (set_pinned ({[100]} ∪ ∅) a) /\
    log_inv 2 30 (lg s') (set_pinned ({[100]} ∪ ∅) a) [100] /\ ops (lg s') = (1, false).
Proof.
  destruct (take_one 100 (booted mkfs_disk) (empty_store mkfs_disk)) as (i & s & _ & Hr);
    [apply mkfs_rep|reflexivity|reflexivity|unfold FSSIZE; lia|].
  set (a := set_held {[i := 100]} (empty_store mkfs_disk)) in Hr.
  assert (log_inv 2 30 busy_log a []) as Hi.
  { pose proof idle_log_inv as [[] ? ? ? ? ? ? ?]. by split. }
  assert (st_held a !! i = Some 100) as Hh by apply lookup_singleton_eq.
  destruct (log_write_correct (BS := bio_spec) 2 30 [] (mklst busy_log s) a i 100 Hi Hr Hh) as (s' & H1 & H2 & H3 & H4);
    [unfold FSSIZE; lia|unfold in_log; lia|].
  exists i, s, s'. split_and!; [exact Hr|exact H1|exact H2|exact H3|exact H4].
Defined.

Lemma begin_op_admits_witness :
  exists t', begin_op idle_log = Ok (tt, mklst (set_outstanding 1 (lg idle_log)) t') /\
    bio_rep None t' (empty_store mkfs_disk).
Proof. exact (begin_op_admits (BS := bio_spec) idle_log (empty_store mkfs_disk) mkfs_rep). Defined.

(** ** A full log *)

Lemma updates_app {S} {BC : BufferCache S} ws ws' (s s1 : lst S) :
  updates ws s = Ok (tt, s1) -> updates (ws ++ ws') s = updates ws' s1.
Proof.
  revert s. induction ws as [|w ws IH]; intros s; cbn [updates app]; [by intros [= ->]|].
  unfold mbind, M_bind. destruct (update w s) as [[[] s2]|]; [apply IH|done].
Qed.

(** Distinct blocks fill the log one by one. *)
Lemma updates_fill {S} {BC : BufferCache S} {BS : BufferCacheSpec S} start sz ws : forall bs (s : lst S) a,
  log_inv start sz (lg s) a bs -> represents None (sub s) a -> st_held a = ∅ ->
  1 <= outstanding (lg s) -> Forall (can_log start sz) ws -> NoDup (bs ++ ws.*1) -> Z.of_nat (length bs + length ws) < sz ->
  exists s' a', updates ws s = Ok (tt, s') /\ represents None (sub s') a' /\
    log_inv start sz (lg s') a' (bs ++ ws.*1) /\ st_held a' = ∅.
Proof.
  induction ws as [|[b d] ws IH]; intros bs s a Hinv Hr Hh Ho Hws Hnd Hlt.
  { exists s, a. rewrite app_nil_r. done. }
  apply Forall_cons in Hws as [(Hb & Hnl & Hd) Hws]. simpl in *.
  destruct (update_ok start sz bs s a b d) as (s1 & H1 & Hr1 & Hinv1 & Ho1); try done; [lia|].
  assert (Hadd : add_block b bs = bs ++ [b]).
  { unfold add_block. rewrite bool_decide_false; [done|]. intros Hin. apply NoDup_app in Hnd as (_ & Hd' & _). apply (Hd' b Hin). left. }
  rewrite Hadd in Hinv1. destruct (IH (bs ++ [b]) s1 _ Hinv1 Hr1) as (s' & a' & Hrun & Hr' & Hinv' & Hh').
  - done.
  - injection Ho1. lia.
  - done.
  - by rewrite <-app_assoc.
  - rewrite length_app. simpl. lia.
  - exists s', a'. rewrite <-app_assoc in Hinv'. split_and!; try done. by erewrite bind_Ok by exact H1.
Qed.

(** The log is full: the next block is refused. *)
Lemma update_full {S} {BC : BufferCache S} {BS : BufferCacheSpec S} start sz bs (s : lst S) a b d :
  log_inv start sz (lg s) a bs -> represents None (sub s) a -> st_held a = ∅ -> 0 <= b < FSSIZE -> length d = BSIZE ->
  Z.of_nat (length bs) = sz - 1 -> update (b, d) s = Err (Panic "too big a transaction").
Proof.
  intros Hinv Hr Hh Hb Hd Hfull. destruct (bread_ok b (sub s) a) as (i & t1 & H1 & Hi & Hr1); try done.
  { by unfold held_blocks; rewrite Hh, map_to_list_empty. }
  { right. rewrite idle_in_use, (li_pinned _ _ _ _ _ Hinv) by done. pose proof (pinned_size (list_to_set bs) bs ltac:(done)).
    pose proof (loggable_small _ _ _ (li_lo _ _ _ _ _ Hinv)). lia. }
  destruct (b_put_ok i b d _ _ _ Hr1 (lookup_insert_eq _ _ _) Hd) as (t2 & H2 & _).
  unfold update. erewrite bind_Ok by (apply zoom_Ok; exact H1). erewrite bind_Ok by (apply zoom_Ok; exact H2).
  destruct Hinv as [[_ _ Hn _] _ _ Hsz _ _ _ _]. unfold log_write, mbind, M_bind, gets. cbn [lg]. rewrite Hn, Hsz.
  destruct (Z.leb_spec (sz - 1) (Z.of_nat (length bs))); [|lia]. by rewrite orb_true_r.
Qed.

(** C40. The reservation of [begin_op] counts [LOGSIZE] blocks, one more than a
    log of [LOGSIZE] blocks, the size mkfs makes it, can hold beside its header.
    From any idle log of that size three operations are admitted together and a
    fourth sleeps; of the distinct blocks they change the log takes 29, and panics
    at the thirtieth, although each operation may keep within its ten. *)
Theorem three_operations_overflow {S} {BC : BufferCache S} {BS : BufferCacheSpec S} start ws (s : lst S) a :
  log_inv start LOGSIZE (lg s) a [] -> ops (lg s) = (0, false) -> represents None (sub s) a -> st_held a = ∅ ->
  Forall (can_log start LOGSIZE) ws -> NoDup ws.*1 ->
  exists s3, (begin_op ;; begin_op ;; begin_op) s = Ok (tt, s3) /\ begin_op s3 = Err Asleep /\
    if Z.of_nat (length ws) <? 3 * MAXOPBLOCKS then exists s4, updates ws s3 = Ok (tt, s4)
    else updates ws s3 = Err (Panic "too big a transaction").
Proof.
  intros Hinv [= Ho Hc] Hr Hh Hws Hnd. pose proof (li_logs _ _ _ _ _ Hinv) as [_ _ Hn _]. cbn [length Z.of_nat] in Hn.
  destruct (begin_op_ok s a Hr Hc) as (t1 & H1 & Hr1); [rewrite Hn, Ho; done|]. rewrite Ho in H1.
  destruct (begin_op_ok (mklst (set_outstanding (0 + 1) (lg s)) t1) a Hr1 Hc) as (t2 & H2 & Hr2); [cbn; rewrite Hn; done|].
  cbn [lg outstanding set_outstanding] in H2. set (l2 := set_outstanding _ (set_outstanding _ (lg s))) in H2.
  destruct (begin_op_ok (mklst l2 t2) a Hr2 Hc) as (t3 & H3 & Hr3); [cbn; rewrite Hn; done|].
  eexists. split; [by rewrite (bind_Ok _ _ _ _ _ H1), (bind_Ok _ _ _ _ _ H2), H3|]. set (s3 := mklst _ t3).
  assert (Hinv3 : log_inv start LOGSIZE (lg s3) a []) by (destruct Hinv as [[] ? ? ? ? ? ? ?]; by split).
  split.
  { destruct (bc_acquire_ok LOGLOCK t3 a) as (t4 & H4 & _); [by left|done|].
    unfold begin_op. erewrite bind_Ok by (apply zoom_Ok; exact H4). unfold mbind, M_bind, gets. cbn. rewrite Hc, Hn. done. }
  destruct (Z.ltb_spec (Z.of_nat (length ws)) (3 * MAXOPBLOCKS)) as [Hlt|Hge].
  { destruct (updates_fill start LOGSIZE ws [] s3 a) as (s4 & a4 & H4 & _); try done. by exists s4. }
  assert (Hlen : (29 < length ws)%nat) by (unfold MAXOPBLOCKS in Hge; lia).
  rewrite <-(take_drop 29 ws) in Hws, Hnd |- *. destruct (drop 29 ws) as [|[b d] rest] eqn:Hdrop.
  { apply (f_equal length) in Hdrop. rewrite length_drop in Hdrop. simpl in Hdrop. lia. }
  apply Forall_app in Hws as [Hw1 Hw2]. rewrite fmap_app in Hnd. apply NoDup_app in Hnd as (Hnd & _). apply Forall_cons in Hw2 as [(Hb & _ & Hd) _].
  assert (Hl29 : length (take 29 ws) = 29%nat) by (rewrite length_take; lia).
  destruct (updates_fill start LOGSIZE (take 29 ws) [] s3 a) as (s4 & a4 & H4 & Hr4 & Hinv4 & Hh4); try done.
  { cbn [length]. rewrite Hl29. done. }
  rewrite (updates_app _ _ _ _ H4). cbn [updates]. unfold mbind, M_bind.
  by rewrite (update_full start LOGSIZE _ s4 a4 b d Hinv4) by (done || (cbn [app]; rewrite length_fmap, Hl29; done)).
Qed.

(** Thirty blocks from 100 on. *)
Definition thirty_blocks : list (Z * list Z) := (fun b => (b, replicate BSIZE 1)) <$> seqZ 100 30.

Lemma three_operations_overflow_witness :
  exists s3, (begin_op ;; begin_op ;; begin_op) idle_log = Ok (tt, s3) /\ begin_op s3 = Err Asleep /\
    updates thirty_blocks s3 = Err (Panic "too big a transaction").
Proof.
  refine (three_operations_overflow (BS := bio_spec) 2 thirty_blocks idle_log (empty_store mkfs_disk) idle_log_inv _ mkfs_rep _ _ _).
  - reflexivity.
  - reflexivity.
  - apply Forall_fmap, Forall_forall. intros b Hb%elem_of_seqZ. unfold can_log, compose, in_log, FSSIZE, LOGSIZE, MAXOPBLOCKS. cbn [fst snd]. rewrite length_replicate. lia.
  - by refine (bool_decide_eq_true_1 _ _); vm_compute.
Defined.
