(* ===== verification/Fs.v ===== *)
(** * The file system (fs.c)

    Block allocation, the inode cache, file contents, directories and path
    names, over the log of [Log] and a buffer cache.  An inode pointer is an
    index of [icache.inode]; the four bytes of a [uint] on disk are those of
    [Bytes].  Memory outside the file system is a list of bytes: [readi] returns
    what it copies out, [writei] takes the bytes it copies in.  A process that
    has to sleep for a locked inode is [Err Asleep]. *)

From stdpp Require Import base numbers list gmap strings.
From S2P Require Import Prelude Strings Bytes Machine Ide Store Log.

Open Scope Z_scope.

Definition ROOTINO : Z := 1.
Definition NDIRECT : Z := 10.
Definition NINDIRECT : Z := Z.of_nat BSIZE / 4.
Definition MAXFILE : Z := NDIRECT + NINDIRECT.
Definition IPB : Z := Z.of_nat BSIZE / 64.
Definition BPB : Z := Z.of_nat BSIZE * 8.
Definition DIRSIZ : nat := 14.
Definition NINODE : nat := 50.
Definition NDEV : Z := 10.

Definition T_DIR : Z := 1.
Definition T_FILE : Z := 2.
Definition T_DEV : Z := 3.
Definition I_BUSY : Z := 1.
Definition I_VALID : Z := 2.

Definition IBLOCK (i : Z) (sb : superblock) : Z := i / IPB + sb_inodestart sb.
Definition BBLOCK (b : Z) (sb : superblock) : Z := b / BPB + sb_bmapstart sb.

(** The signed reading of a 16-bit word, for [short]. *)
Definition s16 (z : Z) : Z := (z + 2 ^ 15) mod 2 ^ 16 - 2 ^ 15.

(** [struct dinode], 64 bytes on disk. *)
Record dinode := mkdinode {
  di_type : Z;
  di_major : Z;
  di_minor : Z;
  di_nlink : Z;
  di_mode : Z;
  di_uid : Z;
  di_gid : Z;
  di_size : Z;
  di_addrs : list Z;
}.

Definition dinode_eta (x : dinode) : dinode :=
  mkdinode (di_type x) (di_major x) (di_minor x) (di_nlink x) (di_mode x) (di_uid x) (di_gid x)
    (di_size x) (di_addrs x).
Definition set_di_type (v : Z) (x : dinode) : dinode := ltac:(update dinode_eta di_type v x).
Definition set_di_nlink (v : Z) (x : dinode) : dinode := ltac:(update dinode_eta di_nlink v x).
Definition set_di_mode (v : Z) (x : dinode) : dinode := ltac:(update dinode_eta di_mode v x).
Definition set_di_uid (v : Z) (x : dinode) : dinode := ltac:(update dinode_eta di_uid v x).
Definition set_di_gid (v : Z) (x : dinode) : dinode := ltac:(update dinode_eta di_gid v x).
Definition set_di_size (v : Z) (x : dinode) : dinode := ltac:(update dinode_eta di_size v x).
Definition set_di_addrs (v : list Z) (x : dinode) : dinode := ltac:(update dinode_eta di_addrs v x).

(** [struct inode] (file.h): the copy of the disk inode is [i_d]. *)
Record inode := mkinode {
  i_dev : Z;
  i_inum : Z;
  i_ref : Z;
  i_flags : Z;
  i_d : dinode;
}.

Definition set_i_ref (v : Z) (x : inode) : inode := mkinode (i_dev x) (i_inum x) v (i_flags x) (i_d x).
Definition set_i_flags (v : Z) (x : inode) : inode := mkinode (i_dev x) (i_inum x) (i_ref x) v (i_d x).
Definition set_i_d (v : dinode) (x : inode) : inode := mkinode (i_dev x) (i_inum x) (i_ref x) (i_flags x) v.

(** The fields of a disk inode, read and written in place. *)
Fixpoint get_addrs (d : list Z) (off : nat) (k : nat) : option (list Z) :=
  match k with
  | O => Some []
  | S k => a ← get32 d off; r ← get_addrs d (off + 4) k; Some (a :: r)
  end.

Fixpoint put_addrs (d : list Z) (off : nat) (l : list Z) : option (list Z) :=
  match l with
  | [] => Some d
  | a :: l => d ← put32 d off a; put_addrs d (off + 4) l
  end.

Definition decode_dinode (d : list Z) (off : nat) : option dinode :=
  type ← get16 d off;
  major ← get16 d (off + 2);
  minor ← get16 d (off + 4);
  nlink ← get16 d (off + 6);
  size ← get32 d (off + 16);
  uid ← get16 d (off + 12);
  gid ← get16 d (off + 14);
  mode ← get32 d (off + 8);
  addrs ← get_addrs d (off + 20) (Z.to_nat NDIRECT + 1);
  Some (mkdinode (s16 type) (s16 major) (s16 minor) (s16 nlink) mode uid gid size addrs).

Definition encode_dinode (d : list Z) (off : nat) (x : dinode) : option (list Z) :=
  d ← put16 d off (di_type x);
  d ← put16 d (off + 2) (di_major x);
  d ← put16 d (off + 4) (di_minor x);
  d ← put16 d (off + 6) (di_nlink x);
  d ← put32 d (off + 16) (di_size x);
  d ← put16 d (off + 12) (di_uid x);
  d ← put16 d (off + 14) (di_gid x);
  d ← put32 d (off + 8) (di_mode x);
  put_addrs d (off + 20) (di_addrs x).

(** The place of inode [inum] in its block. *)
Definition dinode_off (inum : Z) : nat := Z.to_nat (inum mod IPB * 64).

Section Fs.
Context {S : Type} {BC : BufferCache S}.

(** The globals of fs.c over the log, and [proc->cwd]. *)
Record fstate := mkfst {
  fs_lst : lst S;
  fs_sb : superblock;
  icache : list inode;
  cwd : nat;
}.

Definition set_fs_sb (v : superblock) (s : fstate) : fstate := mkfst (fs_lst s) v (icache s) (cwd s).
Definition set_icache (v : list inode) (s : fstate) : fstate := mkfst (fs_lst s) (fs_sb s) v (cwd s).

(** Calls to the log and to the buffer cache. *)
Definition inlog {A} (m : M (lst S) A) : M fstate A := fun s =>
  match m (fs_lst s) with
  | Ok (a, t) => Ok (a, mkfst t (fs_sb s) (icache s) (cwd s))
  | Err e => Err e
  end.
Definition f_bread (dev b : Z) : M fstate nat := inlog (zoom (bread dev b)).
Definition f_get (bp : nat) : M fstate (list Z) := inlog (zoom (b_get bp)).
Definition f_put (bp : nat) (d : list Z) : M fstate unit := inlog (zoom (b_put bp d)).
Definition f_log_write (bp : nat) : M fstate unit := inlog (log_write bp).
Definition f_brelse (bp : nat) : M fstate unit := inlog (zoom (brelse bp)).
Definition f_acquire : M fstate unit := inlog (zoom (bc_acquire ICACHE)).
Definition f_release : M fstate unit := inlog (zoom (bc_release ICACHE)).

Definition geti (ip : nat) : M fstate inode := fun s =>
  match icache s !! ip with Some x => Ok (x, s) | None => Err Fault end.
Definition modi (ip : nat) (f : inode -> inode) : M fstate unit := fun s =>
  match icache s !! ip with
  | Some x => Ok (tt, set_icache (<[ip := f x]> (icache s)) s)
  | None => Err Fault
  end.
Definition modd (ip : nat) (f : dinode -> dinode) : M fstate unit := modi ip (fun x => set_i_d (f (i_d x)) x).

(** ** Blocks *)

Definition bzero (dev bno : Z) : M fstate unit :=
  bp ← f_bread dev bno;
  f_put bp (replicate BSIZE 0) ;;
  f_log_write bp ;;
  f_brelse bp.

(** [for(bi = 0; bi < BPB && b + bi < sb.size; bi++)]: [fuel] is [BPB - bi]. *)
Fixpoint balloc_bits (fuel : nat) (dev : Z) (bp : nat) (b bi : Z) : M fstate (option Z) :=
  match fuel with
  | O => mret None
  | Datatypes.S fuel =>
      sb ← gets fs_sb;
      if sb_size sb <=? b + bi then mret None else
      d ← f_get bp;
      x ← or_fault (d !! Z.to_nat (bi / 8));
      let m := Z.shiftl 1 (bi mod 8) in
      if Z.land x m =? 0 then
        f_put bp (<[Z.to_nat (bi / 8) := Z.lor x m]> d) ;;
        f_log_write bp ;;
        f_brelse bp ;;
        bzero dev (b + bi) ;;
        mret (Some (b + bi))
      else balloc_bits fuel dev bp b (bi + 1)
  end.

Fixpoint balloc_loop (fuel : nat) (dev b : Z) : M fstate Z :=
  match fuel with
  | O => fail NoFuel
  | Datatypes.S fuel =>
      sb ← gets fs_sb;
      if b <? sb_size sb then
        bp ← f_bread dev (BBLOCK b sb);
        r ← balloc_bits (Z.to_nat BPB) dev bp b 0;
        match r with
        | Some x => mret x
        | None => f_brelse bp ;; balloc_loop fuel dev (b + BPB)
        end
      else panic "balloc: out of blocks"
  end.

Definition balloc (dev : Z) : M fstate Z :=
  sb ← gets fs_sb;
  balloc_loop (Z.to_nat (sb_size sb / BPB + 2)) dev 0.

Definition bfree (dev b : Z) : M fstate unit :=
  sb ← inlog (zoom (readsb dev));
  modify (set_fs_sb sb) ;;
  bp ← f_bread dev (BBLOCK b sb);
  let bi := b mod BPB in
  let m := Z.shiftl 1 (bi mod 8) in
  d ← f_get bp;
  x ← or_fault (d !! Z.to_nat (bi / 8));
  if Z.land x m =? 0 then panic "freeing free block" else
  f_put bp (<[Z.to_nat (bi / 8) := Z.land x (Z.lnot m)]> d) ;;
  f_log_write bp ;;
  f_brelse bp.

(** ** Inodes *)

(** [iinit] without the message it prints. *)
Definition iinit (dev : Z) : M fstate unit :=
  inlog (zoom (bc_initlock ICACHE)) ;;
  sb ← inlog (zoom (readsb dev));
  modify (set_fs_sb sb).

(** The scan of [iget]: a slot in use for the inode, and the first free slot. *)
Fixpoint iget_scan (l : list inode) (i : nat) (empty : option nat) (dev inum : Z) : nat + option nat :=
  match l with
  | [] => inr empty
  | ip :: l =>
      if (0 <? i_ref ip) && (i_dev ip =? dev) && (i_inum ip =? inum) then inl i
      else iget_scan l (Datatypes.S i)
             (if bool_decide (empty = None) && (i_ref ip =? 0) then Some i else empty) dev inum
  end.

Definition iget (dev inum : Z) : M fstate nat :=
  f_acquire ;;
  l ← gets icache;
  match iget_scan l 0 None dev inum with
  | inl i =>
      modi i (fun x => set_i_ref (i_ref x + 1) x) ;;
      f_release ;;
      mret i
  | inr None => panic "iget: no inodes"
  | inr (Some i) =>
      modi i (fun x => mkinode dev inum 1 0 (i_d x)) ;;
      f_release ;;
      mret i
  end.

(** The loop of [ialloc]; [fuel] is [sb.ninodes - inum]. *)
Fixpoint ialloc_loop (fuel : nat) (dev type inum : Z) : M fstate nat :=
  match fuel with
  | O => panic "ialloc: no inodes"
  | Datatypes.S fuel =>
      sb ← gets fs_sb;
      bp ← f_bread dev (IBLOCK inum sb);
      d ← f_get bp;
      t ← or_fault (get16 d (dinode_off inum));
      if t =? 0 then
        d ← or_fault (wr_bytes d (dinode_off inum) (replicate 64 0));
        d ← or_fault (put16 d (dinode_off inum) type);
        f_put bp d ;;
        f_log_write bp ;;
        f_brelse bp ;;
        iget dev inum
      else
        f_brelse bp ;;
        ialloc_loop fuel dev type (inum + 1)
  end.

Definition ialloc (dev type : Z) : M fstate nat :=
  sb ← gets fs_sb;
  ialloc_loop (Z.to_nat (sb_ninodes sb - 1)) dev type 1.

Definition iupdate (ip : nat) : M fstate unit :=
  x ← geti ip;
  sb ← gets fs_sb;
  bp ← f_bread (i_dev x) (IBLOCK (i_inum x) sb);
  d ← f_get bp;
  d ← or_fault (encode_dinode d (dinode_off (i_inum x)) (i_d x));
  f_put bp d ;;
  f_log_write bp ;;
  f_brelse bp.

Definition idup (ip : nat) : M fstate nat :=
  f_acquire ;;
  modi ip (fun x => set_i_ref (i_ref x + 1) x) ;;
  f_release ;;
  mret ip.

(** [ip] is not null. *)
Definition ilock (ip : nat) : M fstate unit :=
  x ← geti ip;
  if i_ref x <? 1 then panic "ilock" else
  f_acquire ;;
  x ← geti ip;
  if negb (Z.land (i_flags x) I_BUSY =? 0) then fail Asleep else
  modi ip (fun x => set_i_flags (Z.lor (i_flags x) I_BUSY) x) ;;
  f_release ;;
  x ← geti ip;
  if Z.land (i_flags x) I_VALID =? 0 then
    sb ← gets fs_sb;
    bp ← f_bread (i_dev x) (IBLOCK (i_inum x) sb);
    d ← f_get bp;
    di ← or_fault (decode_dinode d (dinode_off (i_inum x)));
    modi ip (set_i_d di) ;;
    f_brelse bp ;;
    modi ip (fun x => set_i_flags (Z.lor (i_flags x) I_VALID) x) ;;
    if di_type di =? 0 then panic "ilock: no type" else mret tt
  else mret tt.

Definition iunlock (ip : nat) : M fstate unit :=
  x ← geti ip;
  if (Z.land (i_flags x) I_BUSY =? 0) || (i_ref x <? 1) then panic "iunlock" else
  f_acquire ;;
  modi ip (fun x => set_i_flags (Z.land (i_flags x) (Z.lnot I_BUSY)) x) ;;
  inlog (zoom (bc_wakeup (ChInode ip))) ;;
  f_release.

(** ** File contents *)

Definition bmap (ip : nat) (bn : Z) : M fstate Z :=
  x ← geti ip;
  if bn <? NDIRECT then
    addr ← or_fault (di_addrs (i_d x) !! Z.to_nat bn);
    if addr =? 0 then
      addr ← balloc (i_dev x);
      modd ip (fun di => set_di_addrs (<[Z.to_nat bn := addr]> (di_addrs di)) di) ;;
      mret addr
    else mret addr
  else
  let bn := bn - NDIRECT in
  if bn <? NINDIRECT then
    addr ← or_fault (di_addrs (i_d x) !! Z.to_nat NDIRECT);
    addr ← (if addr =? 0 then
              addr ← balloc (i_dev x);
              modd ip (fun di => set_di_addrs (<[Z.to_nat NDIRECT := addr]> (di_addrs di)) di) ;;
              mret addr
            else mret addr);
    bp ← f_bread (i_dev x) addr;
    a ← f_get bp;
    addr ← or_fault (get32 a (4 * Z.to_nat bn));
    addr ← (if addr =? 0 then
              addr ← balloc (i_dev x);
              a ← f_get bp;
              a ← or_fault (put32 a (4 * Z.to_nat bn) addr);
              f_put bp a ;;
              f_log_write bp ;;
              mret addr
            else mret addr);
    f_brelse bp ;;
    mret addr
  else panic "bmap: out of range".

(** [for(i = 0; i < NDIRECT; i++)] of [itrunc]; [fuel] is [NDIRECT - i]. *)
Fixpoint itrunc_direct (fuel : nat) (ip : nat) (i : nat) : M fstate unit :=
  match fuel with
  | O => mret tt
  | Datatypes.S fuel =>
      x ← geti ip;
      addr ← or_fault (di_addrs (i_d x) !! i);
      when (negb (addr =? 0))
        (bfree (i_dev x) addr ;;
         modd ip (fun di => set_di_addrs (<[i := 0]> (di_addrs di)) di)) ;;
      itrunc_direct fuel ip (Datatypes.S i)
  end.

(** [for(j = 0; j < NINDIRECT; j++)]; [fuel] is [NINDIRECT - j]. *)
Fixpoint itrunc_indirect (fuel : nat) (dev : Z) (bp : nat) (j : nat) : M fstate unit :=
  match fuel with
  | O => mret tt
  | Datatypes.S fuel =>
      a ← f_get bp;
      addr ← or_fault (get32 a (4 * j));
      when (negb (addr =? 0)) (bfree dev addr) ;;
      itrunc_indirect fuel dev bp (Datatypes.S j)
  end.

Definition itrunc (ip : nat) : M fstate unit :=
  itrunc_direct (Z.to_nat NDIRECT) ip 0 ;;
  x ← geti ip;
  addr ← or_fault (di_addrs (i_d x) !! Z.to_nat NDIRECT);
  when (negb (addr =? 0))
    (bp ← f_bread (i_dev x) addr;
     itrunc_indirect (Z.to_nat NINDIRECT) (i_dev x) bp 0 ;;
     f_brelse bp ;;
     bfree (i_dev x) addr ;;
     modd ip (fun di => set_di_addrs (<[Z.to_nat NDIRECT := 0]> (di_addrs di)) di)) ;;
  modd ip (set_di_size 0) ;;
  iupdate ip.

Definition iput (ip : nat) : M fstate unit :=
  f_acquire ;;
  x ← geti ip;
  when ((i_ref x =? 1) && negb (Z.land (i_flags x) I_VALID =? 0) && (di_nlink (i_d x) =? 0))
    ((if negb (Z.land (i_flags x) I_BUSY =? 0) then panic "iput busy" else mret tt) ;;
     modi ip (fun x => set_i_flags (Z.lor (i_flags x) I_BUSY) x) ;;
     f_release ;;
     itrunc ip ;;
     modd ip (set_di_type 0) ;;
     iupdate ip ;;
     f_acquire ;;
     modi ip (set_i_flags 0) ;;
     inlog (zoom (bc_wakeup (ChInode ip)))) ;;
  modi ip (fun x => set_i_ref (i_ref x - 1) x) ;;
  f_release.

Definition iunlockput (ip : nat) : M fstate unit := iunlock ip ;; iput ip.

(** [struct stat] as [stati] fills it in. *)
Record stat := mkstat {
  st_type : Z;
  st_dev : Z;
  st_ino : Z;
  st_nlink : Z;
  st_mode : Z;
  st_uid : Z;
  st_gid : Z;
  st_size : Z;
}.

Definition stati (ip : nat) : M fstate stat :=
  x ← geti ip;
  let d := i_d x in
  mret (mkstat (di_type d) (s32 (i_dev x)) (i_inum x) (di_nlink d) (di_mode d) (di_uid d) (di_gid d) (di_size d)).

(** [devsw]: the read and write functions of a device, for the majors that have them. *)
Class Devsw := {
  dev_read : Z -> option (nat -> Z -> M fstate (Z * list Z));
  dev_write : Z -> option (nat -> list Z -> Z -> M fstate Z);
}.
Context {DV : Devsw}.

(** [for(tot=0; tot<n; tot+=m, off+=m, dst+=m)]: the bytes copied from [off] on,
    [n - tot] of them. *)
Fixpoint readi_loop (fuel : nat) (ip : nat) (off left : Z) : M fstate (list Z) :=
  if left <=? 0 then mret [] else
  match fuel with
  | O => fail NoFuel
  | Datatypes.S fuel =>
      x ← geti ip;
      b ← bmap ip (off / Z.of_nat BSIZE);
      bp ← f_bread (i_dev x) b;
      let o := off mod Z.of_nat BSIZE in
      let m := Z.min left (Z.of_nat BSIZE - o) in
      d ← f_get bp;
      chunk ← or_fault (rd_bytes d (Z.to_nat o) (Z.to_nat m));
      f_brelse bp ;;
      rest ← readi_loop fuel ip (off + m) (left - m);
      mret (chunk ++ rest)
  end.

(** The number of blocks [off .. off + n] touches is a bound on the rounds. *)
Definition rounds (n : Z) : nat := Z.to_nat (n / Z.of_nat BSIZE + 2).

Definition readi (ip : nat) (off n : Z) : M fstate (Z * list Z) :=
  x ← geti ip;
  if di_type (i_d x) =? T_DEV then
    let major := di_major (i_d x) in
    if (major <? 0) || (NDEV <=? major) then mret (-1, []) else
    match dev_read major with
    | None => mret (-1, [])
    | Some f => f ip (s32 n)
    end
  else
  let size := di_size (i_d x) in
  if (size <? off) || (u32 (off + n) <? off) then mret (-1, []) else
  let n := if size <? u32 (off + n) then u32 (size - off) else n in
  d ← readi_loop (rounds n) ip off n;
  mret (s32 n, d).

Fixpoint writei_loop (fuel : nat) (ip : nat) (src : list Z) (off left : Z) : M fstate unit :=
  if left <=? 0 then mret tt else
  match fuel with
  | O => fail NoFuel
  | Datatypes.S fuel =>
      x ← geti ip;
      b ← bmap ip (off / Z.of_nat BSIZE);
      bp ← f_bread (i_dev x) b;
      let o := off mod Z.of_nat BSIZE in
      let m := Z.min left (Z.of_nat BSIZE - o) in
      chunk ← or_fault (rd_bytes src 0 (Z.to_nat m));
      d ← f_get bp;
      d ← or_fault (wr_bytes d (Z.to_nat o) chunk);
      f_put bp d ;;
      f_log_write bp ;;
      f_brelse bp ;;
      writei_loop fuel ip (drop (Z.to_nat m) src) (off + m) (left - m)
  end.

Definition writei (ip : nat) (src : list Z) (off n : Z) : M fstate Z :=
  x ← geti ip;
  if di_type (i_d x) =? T_DEV then
    let major := di_major (i_d x) in
    if (major <? 0) || (NDEV <=? major) then mret (-1) else
    match dev_write major with
    | None => mret (-1)
    | Some f => f ip src (s32 n)
    end
  else
  if (di_size (i_d x) <? off) || (u32 (off + n) <? off) then mret (-1) else
  if MAXFILE * Z.of_nat BSIZE <? u32 (off + n) then mret (-1) else
  writei_loop (rounds n) ip src off n ;;
  x ← geti ip;
  when ((0 <? n) && (di_size (i_d x) <? off + n))
    (modd ip (set_di_size (off + n)) ;; iupdate ip) ;;
  mret (s32 n).

(** ** Directories *)

Definition namecmp (s t : list Z) : outcome Z := strncmp s t DIRSIZ.

(** The scan of [dirlookup] from [off]: the offset and number of the entry. *)
Fixpoint dirlookup_loop (fuel : nat) (dp : nat) (name : list Z) (off : Z) : M fstate (option (Z * Z)) :=
  x ← geti dp;
  if di_size (i_d x) <=? off then mret None else
  match fuel with
  | O => fail NoFuel
  | Datatypes.S fuel =>
      r ← readi dp off 16;
      let (n, de) := r : Z * list Z in
      if negb (n =? 16) then panic "dirlink read" else
      inum ← or_fault (get16 de 0);
      if inum =? 0 then dirlookup_loop fuel dp name (off + 16) else
      c ← lift (namecmp name (drop 2 de));
      if c =? 0 then mret (Some (off, inum)) else dirlookup_loop fuel dp name (off + 16)
  end.

(** The inode and the offset of its entry ([*poff]). *)
Definition dirlookup (dp : nat) (name : list Z) : M fstate (option (nat * Z)) :=
  x ← geti dp;
  if negb (di_type (i_d x) =? T_DIR) then panic "dirlookup not DIR" else
  r ← dirlookup_loop (Z.to_nat (di_size (i_d x) / 16 + 1)) dp name 0;
  match r with
  | None => mret None
  | Some (off, inum) =>
      x ← geti dp;
      ip ← iget (i_dev x) inum;
      mret (Some (ip, off))
  end.

(** The offset of the first empty entry, or the end of the directory. *)
Fixpoint dirlink_loop (fuel : nat) (dp : nat) (off : Z) : M fstate Z :=
  x ← geti dp;
  if di_size (i_d x) <=? off then mret off else
  match fuel with
  | O => fail NoFuel
  | Datatypes.S fuel =>
      r ← readi dp off 16;
      let (n, de) := r : Z * list Z in
      if negb (n =? 16) then panic "dirlink read" else
      inum ← or_fault (get16 de 0);
      if inum =? 0 then mret off else dirlink_loop fuel dp (off + 16)
  end.

Definition dirlink (dp : nat) (name : list Z) (inum : Z) : M fstate Z :=
  r ← dirlookup dp name;
  match r with
  | Some (ip, _) => iput ip ;; mret (-1)
  | None =>
      x ← geti dp;
      off ← dirlink_loop (Z.to_nat (di_size (i_d x) / 16 + 1)) dp 0;
      nm ← lift (strncpy (replicate DIRSIZ 0) name DIRSIZ);
      n ← writei dp (le_bytes 2 inum ++ nm) off 16;
      if negb (n =? 16) then panic "dirlink" else mret 0
  end.

(** ** Paths *)

(** [while( *path == '/') path++]. *)
Fixpoint skip_slashes (path : list Z) : outcome (list Z) :=
  match path with
  | [] => Err Fault
  | c :: rest => if c =? 47 then skip_slashes rest else Ok path
  end.

(** [while( *path != '/' && *path != 0) path++]: the characters passed and the rest. *)
Fixpoint span_elem (path : list Z) : outcome (list Z * list Z) :=
  match path with
  | [] => Err Fault
  | c :: rest =>
      if (c =? 47) || (c =? 0) then Ok ([], path)
      else r ← span_elem rest; let (e, p) := r : list Z * list Z in Ok (c :: e, p)
  end.

(** The next element, copied into the buffer [name], and the rest of the path. *)
Definition skipelem (path name : list Z) : outcome (option (list Z * list Z)) :=
  path ← skip_slashes path;
  if bool_decide (head path = Some 0) then Ok None else
  r ← span_elem path;
  let (e, path) := r : list Z * list Z in
  let name := if (DIRSIZ <=? length e)%nat then take DIRSIZ e ++ drop DIRSIZ name
              else e ++ 0 :: drop (Datatypes.S (length e)) name in
  path ← skip_slashes path;
  Ok (Some (path, name)).

(** The loop of [namex]: the inode, if any, and [name]. *)
Fixpoint namex_loop (fuel : nat) (ip : nat) (path : list Z) (parent : bool) (name : list Z)
    : M fstate (option nat * list Z) :=
  e ← lift (skipelem path name);
  match e with
  | None => if parent then iput ip ;; mret (None, name) else mret (Some ip, name)
  | Some (path, name) =>
      match fuel with
      | O => fail NoFuel
      | Datatypes.S fuel =>
          ilock ip ;;
          x ← geti ip;
          if negb (di_type (i_d x) =? T_DIR) then iunlockput ip ;; mret (None, name) else
          if parent && bool_decide (head path = Some 0) then iunlock ip ;; mret (Some ip, name) else
          next ← dirlookup ip name;
          match next with
          | None => iunlockput ip ;; mret (None, name)
          | Some (next, _) => iunlockput ip ;; namex_loop fuel next path parent name
          end
      end
  end.

Definition namex (path : list Z) (parent : bool) (name : list Z) : M fstate (option nat * list Z) :=
  ip ← (if bool_decide (head path = Some 47) then iget ROOTDEV ROOTINO
        else c ← gets cwd; idup c);
  namex_loop (length path) ip path parent name.

Definition namei (path : list Z) : M fstate (option nat) :=
  r ← namex path false (replicate DIRSIZ 0);
  mret (fst r).

Definition nameiparent (path name : list Z) : M fstate (option nat * list Z) := namex path true name.

(** ** Changing the owner, the group and the mode *)

(** [chmod], [chown] and [chgrp] differ in the field they set. *)
Definition change (f : dinode -> dinode) (path : list Z) : M fstate Z :=
  inlog begin_op ;;
  ip ← namei path;
  match ip with
  | None => inlog end_op ;; mret (-1)
  | Some ip =>
      ilock ip ;;
      modd ip f ;;
      iupdate ip ;;
      iunlock ip ;;
      inlog end_op ;;
      mret 0
  end.

Definition chmod (path : list Z) (mode : Z) : M fstate Z := change (set_di_mode (u32 mode)) path.
Definition chown (path : list Z) (uid : Z) : M fstate Z := change (set_di_uid (u16 uid)) path.
Definition chgrp (path : list Z) (gid : Z) : M fstate Z := change (set_di_gid (u16 gid)) path.
End Fs.
Arguments fstate S : clear implicits.
Arguments Devsw S : clear implicits.
