(* ===== verification/FsTxn.v ===== *)
(** * Blocks inside a transaction

    The calls of fs.c to the buffer cache and the log, as rules on what a
    transaction sees: the contents of every block ([tv]), the buffers it holds
    ([th]), the blocks it has logged ([tl]) and how many operations are under way
    ([tn]; none while the file system is only read).  [fsrep] is the invariant between
    calls: a buffer is changed and logged in one step, so each block that is not
    logged is as on the disk. *)

From stdpp Require Import base numbers list gmap sets strings.
From S2P Require Import Prelude Strings Bytes Machine Ide Store Log LogSpec LogTheorems Fs.

Open Scope Z_scope.

Record tview := mktv {
  tv : Z -> list Z;
  th : gmap nat Z;
  tl : list Z;
  tn : Z;
}.

Definition hold (i : nat) (b : Z) (t : tview) : tview := mktv (tv t) (<[i := b]> (th t)) (tl t) (tn t).
Definition unhold (i : nat) (t : tview) : tview := mktv (tv t) (delete i (th t)) (tl t) (tn t).
Definition put_log (b : Z) (d : list Z) (t : tview) : tview :=
  mktv (upd (tv t) b d) (th t) (add_block b (tl t)) (tn t).

Section Txn.
Context {S : Type} {BC : BufferCache S} {BS : BufferCacheSpec S}.
Context (start sz : Z) {E : error -> Prop}.
Implicit Types (s : fstate S) (t : tview).

Record txn (h : option nat) (l : lst S) (t : tview) (a : store) : Prop := {
  tx_rep : represents h (sub l) a;
  tx_log : log_inv start sz (lg l) a (tl t);
  tx_view : st_view a = tv t;
  tx_held : st_held a = th t;
  tx_clean b : b ∉ tl t -> tv t b = st_disk a b;
  tx_ops : ops (lg l) = (tn t, false);
}.

Definition fsrep (h : option nat) (s : fstate S) (t : tview) : Prop := exists a, txn h (fs_lst s) t a.

Definition set_lst (l : lst S) (s : fstate S) : fstate S := mkfst l (fs_sb s) (icache s) (cwd s).

(** Room for [n] more blocks, in the log and beside the buffers in use; only an
    operation may log any. *)
Definition room (n : Z) (t : tview) : Prop :=
  Z.of_nat (length (tl t) + size (th t)) + n < sz /\ (0 < n -> 1 <= tn t).

Definition not_held (b : Z) (t : tview) : Prop := forall i, th t !! i <> Some b.

Lemma fsrep_sz h s t : fsrep h s t -> 0 < sz <= LOGSIZE /\ 0 <= start /\ start + sz <= FSSIZE.
Proof. intros [a [_ Hi _ _ _ _]]. destruct Hi as [_ Hlo ? ? ? _ _ _]. destruct Hlo. lia. Qed.

Lemma fsrep_nodup h s t : fsrep h s t -> NoDup (tl t).
Proof. intros [a [_ Hi _ _ _ _]]. apply (li_lo _ _ _ _ _ Hi). Qed.

Lemma fsrep_length h s t b : fsrep h s t -> 0 <= b < FSSIZE -> length (tv t b) = BSIZE.
Proof. intros [a [Hr _ Hv _ _ _]] Hb. rewrite <-Hv. by eapply view_length. Qed.

Lemma not_held_blocks a t b : st_held a = th t -> not_held b t -> b ∉ held_blocks a.
Proof. intros Hh Hn (i & Hi)%elem_held_blocks. apply (Hn i). by rewrite <-Hh. Qed.

Lemma held_blocks_size a : (size (held_blocks a) <= size (st_held a))%nat.
Proof.
  unfold held_blocks. rewrite <-length_map_to_list, <-(length_fmap snd). by apply pinned_size.
Qed.

Lemma union_size (x y : gset Z) : (size (x ∪ y) <= size x + size y)%nat.
Proof.
  replace (x ∪ y) with (x ∪ (y ∖ x)) by (apply set_eq; intros z; destruct (decide (z ∈ x)); set_solver).
  rewrite size_union by set_solver. pose proof (subseteq_size (y ∖ x) y ltac:(set_solver)). lia.
Qed.

Lemma wp_inlog {A} (m : M (lst S) A) Q s x l :
  m (fs_lst s) = Ok (x, l) -> Q x (set_lst l s) -> wp E (inlog m) Q s.
Proof. intros Hm HQ. eapply wp_Ok; [|exact HQ]. unfold inlog. by rewrite Hm. Qed.

Lemma room_in_use l a t :
  log_inv start sz l a (tl t) -> st_held a = th t -> room 0 t -> (size (in_use a) < NBUF)%nat.
Proof.
  intros Hi Hh Hroom. unfold room in Hroom. pose proof (li_max _ _ _ _ _ Hi) as Hmax.
  unfold LOGSIZE, MAXOPBLOCKS in Hmax.
  unfold in_use. pose proof (union_size (st_pinned a) (held_blocks a)). pose proof (held_blocks_size a).
  rewrite (li_pinned _ _ _ _ _ Hi) in *. pose proof (pinned_size (list_to_set (tl t)) (tl t) ltac:(done)).
  rewrite Hh in *. unfold NBUF. lia.
Qed.

Lemma wp_f_bread b Q s t :
  fsrep None s t -> 0 <= b < FSSIZE -> not_held b t ->
  room 0 t ->
  (forall i l, th t !! i = None -> fsrep None (set_lst l s) (hold i b t) -> Q i (set_lst l s)) ->
  wp E (f_bread ROOTDEV b) Q s.
Proof.
  intros [a [Hr Hi Hv Hh Hc Ho]] Hb Hn Hroom HQ.
  destruct (bread_ok b (sub (fs_lst s)) a) as (i & t' & H1 & Hf & Hr'); [done|done|by eapply not_held_blocks| |].
  { right. by eapply room_in_use. }
  eapply wp_inlog; [by apply zoom_Ok|]. apply HQ; [by rewrite <-Hh|].
  exists (set_held (<[i := b]> (st_held a)) a). split; try done.
  - destruct Hi. by split.
  - simpl. by rewrite Hh.
Qed.

Lemma wp_f_get i b Q s h t :
  fsrep h s t -> th t !! i = Some b -> Q (tv t b) s -> wp E (f_get i) Q s.
Proof.
  intros [a [Hr Hi Hv Hh Hc Ho]] Hb HQ. eapply wp_inlog.
  - apply zoom_Ok. eapply b_get_ok; [done|by rewrite Hh].
  - rewrite Hv. destruct s as [[] ? ? ?]. exact HQ.
Qed.
Lemma wp_f_write {A} i b d (k : M (fstate S) A) Q s t :
  fsrep None s t -> th t !! i = Some b -> 0 <= b < FSSIZE -> ~ in_log start sz b ->
  length d = BSIZE -> room 1 t ->
  (forall l, fsrep None (set_lst l s) (put_log b d t) -> wp E k Q (set_lst l s)) ->
  wp E (f_put i d ;; f_log_write i ;; k) Q s.
Proof.
  intros [a [Hr Hi Hv Hh Hc Ho]] Hb Hbr Hnl Hd Hroom HQ.
  assert (Hib : st_held a !! i = Some b) by by rewrite Hh.
  destruct (b_put_ok i b d _ _ _ Hr Hib Hd) as (t1 & H1 & Hr1).
  set (a1 := set_view _ a) in Hr1.
  destruct (log_write_ok start sz (tl t) (mklst (lg (fs_lst s)) t1) a1 i b) as (l2 & H2 & Hr2 & Hi2 & Ho2); try done; [|injection Ho as Ho _; simpl; destruct Hroom; lia|destruct Hroom; lia|].
  { destruct Hi. by split. }
  apply wp_bind. eapply wp_inlog; [by apply zoom_Ok|]. apply wp_bind. eapply wp_inlog; [exact H2|].
  apply HQ. eexists. split; try done.
  - simpl. by rewrite Hv.
  - intros c Hc'. simpl. unfold upd. destruct (Z.eqb_spec c b) as [->|Hne].
    + destruct Hc'. simpl. unfold add_block. case_bool_decide; [done|]. apply elem_of_app. right. by left.
    + apply Hc. intros Hin. apply Hc'. simpl. unfold add_block. case_bool_decide; [done|]. apply elem_of_app. by left.
  - simpl. unfold ops in Ho2. simpl in Ho2. etrans; [exact Ho2|exact Ho].
Qed.

Lemma wp_f_brelse i b Q s t :
  fsrep None s t -> th t !! i = Some b ->
  (forall l, fsrep None (set_lst l s) (unhold i t) -> Q tt (set_lst l s)) ->
  wp E (f_brelse i) Q s.
Proof.
  intros [a [Hr Hi Hv Hh Hc Ho]] Hb HQ.
  destruct (brelse_ok i b _ _ Hr) as (t1 & H1 & Hr1); [by rewrite Hh| |].
  { rewrite (li_pinned _ _ _ _ _ Hi), Hv. destruct (decide (b ∈ tl t)); [left; by apply elem_of_list_to_set|right; auto]. }
  eapply wp_inlog; [by apply zoom_Ok|]. apply HQ. eexists. split; try done.
  - destruct Hi. by split.
  - simpl. by rewrite Hh.
Qed.

Lemma wp_f_acquire Q s t :
  fsrep None s t -> (forall l, fsrep (Some ICACHE) (set_lst l s) t -> Q tt (set_lst l s)) -> wp E f_acquire Q s.
Proof.
  intros [a [Hr Hi Hv Hh Hc Ho]] HQ.
  destruct (bc_acquire_ok ICACHE _ _ ltac:(right; by left) Hr) as (t1 & H1 & Hr1).
  eapply wp_inlog; [by apply zoom_Ok|]. apply HQ. by exists a.
Qed.

Lemma wp_f_release Q s t :
  fsrep (Some ICACHE) s t -> (forall l, fsrep None (set_lst l s) t -> Q tt (set_lst l s)) -> wp E f_release Q s.
Proof.
  intros [a [Hr Hi Hv Hh Hc Ho]] HQ.
  destruct (bc_release_ok ICACHE _ _ Hr) as (t1 & H1 & Hr1).
  eapply wp_inlog; [by apply zoom_Ok|]. apply HQ. by exists a.
Qed.

Lemma wp_f_wakeup ch h Q s t :
  fsrep h s t -> (forall l, fsrep h (set_lst l s) t -> Q tt (set_lst l s)) ->
  wp E (inlog (zoom (bc_wakeup ch))) Q s.
Proof.
  intros [a [Hr Hi Hv Hh Hc Ho]] HQ. destruct (bc_wakeup_ok ch _ _ _ Hr) as (t1 & H1 & Hr1).
  eapply wp_inlog; [by apply zoom_Ok|]. apply HQ. by exists a.
Qed.

(** Taking a buffer and giving it back leaves the transaction as it was. *)
Lemma unhold_hold i b t : th t !! i = None -> unhold i (hold i b t) = t.
Proof. intros Hi. unfold unhold, hold. simpl. rewrite delete_insert_id by done. by destruct t. Qed.

Lemma room_le n m t : room n t -> m <= n -> room m t.
Proof. unfold room. lia. Qed.

Lemma room_hold n i b t : room (n + 1) t -> th t !! i = None -> room n (hold i b t).
Proof. unfold room. simpl. intros [Hr Hn] Hi. rewrite map_size_insert_None by done. lia. Qed.

Lemma room_log n b d t : room (n + 1) t -> room n (put_log b d t).
Proof. unfold room. simpl. pose proof (add_block_length b (tl t)). lia. Qed.

Lemma not_held_hold b c i t : not_held b t -> b <> c -> not_held b (hold i c t).
Proof.
  intros Hn Hne j. simpl. destruct (decide (j = i)) as [->|Hji].
  - rewrite lookup_insert_eq. congruence.
  - rewrite lookup_insert_ne by done. apply Hn.
Qed.

Lemma unhold_hold_log i b c d t : th t !! i = None -> unhold i (put_log c d (hold i b t)) = put_log c d t.
Proof. intros Hi. unfold unhold, put_log, hold. simpl. by rewrite delete_insert_id. Qed.

(** A block read and released. *)
Lemma wp_readonly {A} b (k : list Z -> M (fstate S) A) Q s t :
  fsrep None s t -> 0 <= b < FSSIZE -> not_held b t ->
  room 0 t ->
  (forall l, fsrep None (set_lst l s) t -> wp E (k (tv t b)) Q (set_lst l s)) ->
  wp E (bp ← f_bread ROOTDEV b; d ← f_get bp; f_brelse bp ;; k d) Q s.
Proof.
  intros Hs Hb Hn Hroom HQ. apply wp_bind. eapply wp_f_bread; [done..|]. intros i l1 Hi H1.
  assert (Hli : th (hold i b t) !! i = Some b) by apply lookup_insert_eq.
  apply wp_bind. eapply wp_f_get; [done|done|]. apply wp_bind. eapply wp_f_brelse; [done|done|].
  intros l2 H2. rewrite unhold_hold in H2 by done. apply HQ. exact H2.
Qed.

End Txn.
