(* ===== verification/FsAlloc.v ===== *)
(** * The block allocator (fs.c: bzero, balloc, bfree)

    The free map as a predicate on block numbers, and the rules of the two
    operations on it. *)

From stdpp Require Import base numbers list gmap sets strings.
From S2P Require Import Prelude Strings Bytes Machine Ide Store Log LogSpec LogTheorems Fs FsTxn.

Open Scope Z_scope.

(** ** Bits of a block *)

Definition bit (d : list Z) (b : Z) : bool :=
  match d !! Z.to_nat (b / 8) with Some x => Z.testbit x (b mod 8) | None => true end.

Definition set_bit (d : list Z) (b : Z) : list Z :=
  alter (fun x => Z.lor x (Z.shiftl 1 (b mod 8))) (Z.to_nat (b / 8)) d.
Definition clear_bit (d : list Z) (b : Z) : list Z :=
  alter (fun x => Z.land x (Z.lnot (Z.shiftl 1 (b mod 8)))) (Z.to_nat (b / 8)) d.

Lemma bit_mask x k : 0 <= k -> (Z.land x (Z.shiftl 1 k) =? 0) = negb (Z.testbit x k).
Proof.
  intros Hk. rewrite Z.shiftl_1_l. destruct (Z.testbit x k) eqn:Ht; simpl.
  - apply Z.eqb_neq. intros H. assert (Z.testbit (Z.land x (2 ^ k)) k = false) as H' by by rewrite H, Z.bits_0.
    rewrite Z.land_spec, Z.pow2_bits_true, Ht in H' by done. done.
  - apply Z.eqb_eq, Z.bits_inj_0. intros n. rewrite Z.land_spec.
    destruct (decide (n = k)) as [->|Hn]; [by rewrite Ht|]. rewrite Z.pow2_bits_false by done. apply andb_false_r.
Qed.

Lemma bit_eq b c : 0 <= b -> 0 <= c -> Z.to_nat (b / 8) = Z.to_nat (c / 8) -> b mod 8 = c mod 8 -> b = c.
Proof.
  intros Hb Hc Hd Hm. pose proof (Z.div_mod b 8). pose proof (Z.div_mod c 8).
  pose proof (Z.div_pos b 8). pose proof (Z.div_pos c 8). lia.
Qed.

Lemma bit_set_bit d b c : 0 <= b < 8 * Z.of_nat (length d) -> 0 <= c ->
  bit (set_bit d b) c = (c =? b) || bit d c.
Proof.
  intros Hb Hc. unfold bit, set_bit.
  assert (Hlt : (Z.to_nat (b / 8) < length d)%nat) by (pose proof (Z.div_lt_upper_bound b 8 (Z.of_nat (length d))); pose proof (Z.div_pos b 8); lia).
  destruct (decide (Z.to_nat (c / 8) = Z.to_nat (b / 8))) as [He|Hne].
  - rewrite He, list_lookup_alter_eq. destruct (lookup_lt_is_Some_2 _ _ Hlt) as [x ->]. simpl.
    rewrite Z.lor_spec, Z.shiftl_1_l. pose proof (Z.mod_pos_bound b 8). pose proof (Z.mod_pos_bound c 8).
    destruct (Z.eqb_spec c b) as [->|Hcb].
    + rewrite Z.pow2_bits_true by lia. apply orb_true_r.
    + rewrite Z.pow2_bits_false; [apply orb_false_r|]. intros Hm. apply Hcb, bit_eq; lia.
  - rewrite list_lookup_alter_ne by done. by destruct (Z.eqb_spec c b) as [->|].
Qed.

Lemma bit_clear_bit d b c : 0 <= b < 8 * Z.of_nat (length d) -> 0 <= c ->
  bit (clear_bit d b) c = negb (c =? b) && bit d c.
Proof.
  intros Hb Hc. unfold bit, clear_bit.
  assert (Hlt : (Z.to_nat (b / 8) < length d)%nat) by (pose proof (Z.div_lt_upper_bound b 8 (Z.of_nat (length d))); pose proof (Z.div_pos b 8); lia).
  destruct (decide (Z.to_nat (c / 8) = Z.to_nat (b / 8))) as [He|Hne].
  - rewrite He, list_lookup_alter_eq. destruct (lookup_lt_is_Some_2 _ _ Hlt) as [x ->]. simpl.
    pose proof (Z.mod_pos_bound b 8). pose proof (Z.mod_pos_bound c 8).
    rewrite Z.land_spec, Z.lnot_spec, Z.shiftl_1_l by lia.
    destruct (Z.eqb_spec c b) as [->|Hcb]; simpl.
    + rewrite Z.pow2_bits_true by lia. apply andb_false_r.
    + rewrite Z.pow2_bits_false; [apply andb_true_r|]. intros Hm. apply Hcb, bit_eq; lia.
  - rewrite list_lookup_alter_ne by done. by destruct (Z.eqb_spec c b) as [->|].
Qed.

(** ** The layout *)

(** The areas of the disk are in the order of fs.h and do not overlap, and the
    free map fits in one block. *)
Record layout (start sz : Z) (sb : superblock) : Prop := {
  ly_log : 1 < start;
  ly_sz : 0 < sz;
  ly_inode : start + sz <= sb_inodestart sb;
  ly_ninodes : 0 <= sb_ninodes sb;
  ly_bmap : sb_inodestart sb + sb_ninodes sb / IPB < sb_bmapstart sb;
  ly_data : sb_bmapstart sb < sb_size sb;
  ly_size : sb_size sb <= FSSIZE;
}.

Definition used (v : Z -> list Z) (sb : superblock) (b : Z) : bool := bit (v (sb_bmapstart sb)) b.

(** Blocks that hold file contents. *)
Definition data (sb : superblock) (b : Z) : Prop := sb_bmapstart sb < b < sb_size sb.

(** Every block before the data blocks is marked in use. *)
Definition meta_used (v : Z -> list Z) (sb : superblock) : Prop :=
  forall b, 0 <= b <= sb_bmapstart sb -> used v sb b = true.

Definition marked (sb : superblock) (b : Z) (v : Z -> list Z) : Z -> list Z :=
  upd v (sb_bmapstart sb) (set_bit (v (sb_bmapstart sb)) b).

Definition zero_block : list Z := replicate BSIZE 0.

(** What [balloc] makes of a transaction when [b] is the first free block. *)
Definition alloc_view (sb : superblock) (b : Z) (t : tview) : tview :=
  put_log b zero_block (put_log (sb_bmapstart sb) (set_bit (tv t (sb_bmapstart sb)) b) t).

Record first_free (v : Z -> list Z) (sb : superblock) (b : Z) : Prop := {
  ff_range : 0 <= b < sb_size sb;
  ff_free : used v sb b = false;
  ff_least c : 0 <= c < b -> used v sb c = true;
}.

Lemma first_free_data v sb b : meta_used v sb -> first_free v sb b -> data sb b.
Proof.
  intros Hm [Hr Hf _]. unfold data. destruct (decide (b <= sb_bmapstart sb)); [|lia].
  rewrite Hm in Hf by lia. done.
Qed.

Lemma BBLOCK_one start sz sb b : layout start sz sb -> 0 <= b < sb_size sb -> BBLOCK b sb = sb_bmapstart sb.
Proof.
  intros [] Hb. unfold BBLOCK. rewrite Z.div_small; [done|]. unfold BPB, BSIZE. unfold FSSIZE in *. lia.
Qed.

Lemma data_range start sz sb b : layout start sz sb -> data sb b ->
  0 <= b < FSSIZE /\ ~ in_log start sz b /\ b <> sb_bmapstart sb /\ b <> 1.
Proof.
  intros [] Hb. unfold data, in_log in *.
  assert (0 <= sb_ninodes sb / IPB) by by apply Z.div_pos. lia.
Qed.

Lemma bmap_range start sz sb : layout start sz sb ->
  0 <= sb_bmapstart sb < FSSIZE /\ ~ in_log start sz (sb_bmapstart sb) /\ sb_bmapstart sb <> 1.
Proof.
  intros []. unfold in_log in *.
  assert (0 <= sb_ninodes sb / IPB) by by apply Z.div_pos. lia.
Qed.

(** ** Rules *)

Section Alloc.
Context {S : Type} {BC : BufferCache S} {BS : BufferCacheSpec S}.
Context (start sz : Z) {E : error -> Prop}.
Implicit Types (s : fstate S) (t : tview).

Lemma wp_bzero b Q s t :
  fsrep start sz None s t -> 0 <= b < FSSIZE -> ~ in_log start sz b -> not_held b t -> room sz 2 t ->
  (forall l, fsrep start sz None (set_lst l s) (put_log b zero_block t) -> Q tt (set_lst l s)) ->
  wp E (bzero ROOTDEV b) Q s.
Proof.
  intros Hs Hb Hnl Hn Hroom HQ. unfold bzero. apply wp_bind.
  eapply wp_f_bread; [done..|by eapply room_le|]. intros i l1 Hi H1.
  assert (Hli : th (hold i b t) !! i = Some b) by apply lookup_insert_eq.
  eapply wp_f_write; [exact H1|exact Hli|done|done|by rewrite length_replicate|by apply room_hold|].
  intros l2 H2. eapply wp_f_brelse; [exact H2|exact Hli|].
  intros l3 H3. rewrite unhold_hold_log in H3 by done. by apply HQ.
Qed.

Lemma insert_alter {A} (f : A -> A) (l : list A) i x : l !! i = Some x -> <[i := f x]> l = alter f i l.
Proof.
  revert i. induction l as [|y l IH]; intros [|i] Hx; simpl in *; try done; [by injection Hx as ->|].
  f_equal. by apply IH.
Qed.

Lemma byte_at_bit d b : 0 <= b < 8 * Z.of_nat (length d) ->
  exists x, d !! Z.to_nat (b / 8) = Some x /\ bit d b = Z.testbit x (b mod 8) /\
    <[Z.to_nat (b / 8) := Z.lor x (Z.shiftl 1 (b mod 8))]> d = set_bit d b /\
    <[Z.to_nat (b / 8) := Z.land x (Z.lnot (Z.shiftl 1 (b mod 8)))]> d = clear_bit d b.
Proof.
  intros Hb. destruct (lookup_lt_is_Some_2 d (Z.to_nat (b / 8))) as [x Hx].
  { pose proof (Z.div_lt_upper_bound b 8 (Z.of_nat (length d))). pose proof (Z.div_pos b 8). lia. }
  exists x. unfold bit, set_bit, clear_bit. rewrite Hx. split_and!; [done|done| |].
  - by apply (insert_alter (fun x => Z.lor x (Z.shiftl 1 (b mod 8)))).
  - by apply (insert_alter (fun x => Z.land x (Z.lnot (Z.shiftl 1 (b mod 8))))).
Qed.

Lemma length_set_bit d b : length (set_bit d b) = length d.
Proof. apply length_alter. Qed.

Lemma length_clear_bit d b : length (clear_bit d b) = length d.
Proof. apply length_alter. Qed.

Context (sb : superblock).
Hypothesis Hly : layout start sz sb.

(** The search of the bitmap block, held in [bp], from bit [bi] on. *)
Lemma wp_balloc_bits b fuel bi bp Q s t :
  fsrep start sz None s (hold bp (sb_bmapstart sb) t) -> th t !! bp = None -> fs_sb s = sb ->
  first_free (tv t) sb b -> meta_used (tv t) sb -> 0 <= bi <= b -> (Z.to_nat (b - bi) < fuel)%nat ->
  not_held b t -> room sz 3 t ->
  (forall l, fsrep start sz None (set_lst l s) (alloc_view sb b t) -> Q (Some b) (set_lst l s)) ->
  wp E (balloc_bits fuel ROOTDEV bp 0 bi) Q s.
Proof.
  intros Hs Hbp Hsb Hff Hmu Hbi Hfuel Hnh Hroom HQ.
  pose proof (first_free_data _ _ _ Hmu Hff) as Hdata. destruct Hff as [Hbr Hfree Hleast].
  destruct (bmap_range _ _ _ Hly) as (Hmr & Hml & _). destruct (data_range _ _ _ _ Hly Hdata) as (Hdr & Hdl & Hdm & _).
  assert (Hlen : length (tv t (sb_bmapstart sb)) = BSIZE) by by eapply (fsrep_length start sz None s (hold bp _ t)).
  assert (Hli : th (hold bp (sb_bmapstart sb) t) !! bp = Some (sb_bmapstart sb)) by apply lookup_insert_eq.
  pose proof (ly_size _ _ _ Hly) as Hsize.
  revert bi Hbi Hfuel. induction fuel as [|fuel IH]; intros bi Hbi Hfuel; [lia|]. cbn [balloc_bits].
  apply wp_bind, wp_gets. rewrite Hsb, Z.add_0_l. destruct (Z.leb_spec (sb_size sb) bi); [lia|].
  apply wp_bind. eapply wp_f_get; [exact Hs|exact Hli|]. cbn [tv hold].
  destruct (byte_at_bit (tv t (sb_bmapstart sb)) bi) as (x & Hx & Hbit & Hset & _).
  { rewrite Hlen. unfold BSIZE, FSSIZE in *. lia. }
  rewrite Hx. apply wp_bind, wp_ret. rewrite bit_mask by (apply Z.mod_pos_bound; lia). rewrite <-Hbit.
  destruct (decide (bi = b)) as [->|Hne].
  - change (bit (tv t (sb_bmapstart sb)) b) with (used (tv t) sb b). rewrite Hfree. cbn [negb]. rewrite Hset.
    eapply wp_f_write; [exact Hs|exact Hli|done|done|by rewrite length_set_bit|apply room_hold; [by eapply room_le|done]|].
    intros l1 H1. apply wp_bind. eapply wp_f_brelse; [exact H1|exact Hli|]. intros l2 H2.
    rewrite unhold_hold_log in H2 by done. apply wp_bind.
    eapply wp_bzero; [exact H2|done|done|done|by apply room_log|]. intros l3 H3. by apply wp_ret, HQ.
  - change (bit (tv t (sb_bmapstart sb)) bi) with (used (tv t) sb bi). rewrite Hleast by lia. cbn [negb].
    apply IH; lia.
Qed.

Lemma wp_balloc b Q s t :
  fsrep start sz None s t -> fs_sb s = sb ->
  first_free (tv t) sb b -> meta_used (tv t) sb ->
  not_held (sb_bmapstart sb) t -> not_held b t -> room sz 3 t ->
  (forall l, fsrep start sz None (set_lst l s) (alloc_view sb b t) -> Q b (set_lst l s)) ->
  wp E (balloc ROOTDEV) Q s.
Proof.
  intros Hs Hsb Hff Hmu Hnm Hnb Hroom HQ.
  destruct (bmap_range _ _ _ Hly) as (Hmr & Hml & _). pose proof (ff_range _ _ _ Hff) as Hbr.
  pose proof (ly_size _ _ _ Hly) as Hsize.
  unfold balloc. apply wp_bind, wp_gets. rewrite Hsb.
  destruct (Z.to_nat (sb_size sb / BPB + 2)) as [|fuel] eqn:Hfuel.
  { assert (0 <= sb_size sb / BPB) by (apply Z.div_pos; [lia|done]). lia. }
  cbn [balloc_loop]. apply wp_bind, wp_gets. rewrite Hsb. destruct (Z.ltb_spec 0 (sb_size sb)); [|lia].
  rewrite (BBLOCK_one start sz) by (done || lia). apply wp_bind.
  eapply wp_f_bread; [exact Hs|done|done|by eapply room_le|]. intros bp l1 Hbp H1.
  apply wp_bind. eapply wp_balloc_bits; [exact H1|done|done|done|done|lia| |done|done|].
  { unfold BPB, BSIZE, FSSIZE in *. lia. }
  intros l2 H2. apply wp_ret. by apply HQ.
Qed.

(** With no free block, [balloc] panics. *)
Lemma wp_balloc_bits_full fuel bi bp Q s t :
  fsrep start sz None s (hold bp (sb_bmapstart sb) t) -> fs_sb s = sb ->
  (forall c, 0 <= c < sb_size sb -> used (tv t) sb c = true) -> 0 <= bi ->
  Q None s -> wp E (balloc_bits fuel ROOTDEV bp 0 bi) Q s.
Proof.
  intros Hs Hsb Hfull Hbi HQ. destruct (bmap_range _ _ _ Hly) as (Hmr & Hml & _).
  assert (Hlen : length (tv t (sb_bmapstart sb)) = BSIZE) by by eapply (fsrep_length start sz None s (hold bp _ t)).
  assert (Hli : th (hold bp (sb_bmapstart sb) t) !! bp = Some (sb_bmapstart sb)) by apply lookup_insert_eq.
  pose proof (ly_size _ _ _ Hly) as Hsize.
  revert bi Hbi. induction fuel as [|fuel IH]; intros bi Hbi; [by apply wp_ret|]. cbn [balloc_bits].
  apply wp_bind, wp_gets. rewrite Hsb, Z.add_0_l. destruct (Z.leb_spec (sb_size sb) bi); [by apply wp_ret|].
  apply wp_bind. eapply wp_f_get; [exact Hs|exact Hli|]. cbn [tv hold].
  destruct (byte_at_bit (tv t (sb_bmapstart sb)) bi) as (x & Hx & Hbit & _).
  { rewrite Hlen. unfold BSIZE, FSSIZE in *. lia. }
  rewrite Hx. apply wp_bind, wp_ret. rewrite bit_mask by (apply Z.mod_pos_bound; lia). rewrite <-Hbit.
  change (bit (tv t (sb_bmapstart sb)) bi) with (used (tv t) sb bi). rewrite Hfull by lia. cbn [negb].
  apply IH. lia.
Qed.

Lemma wp_balloc_full Q s t :
  fsrep start sz None s t -> fs_sb s = sb -> (forall c, 0 <= c < sb_size sb -> used (tv t) sb c = true) ->
  not_held (sb_bmapstart sb) t -> room sz 1 t ->
  E (Panic "balloc: out of blocks") -> wp E (balloc ROOTDEV) Q s.
Proof.
  intros Hs Hsb Hfull Hnm Hroom HE. destruct (bmap_range _ _ _ Hly) as (Hmr & Hml & _).
  pose proof (ly_size _ _ _ Hly) as Hsize. pose proof (ly_data _ _ _ Hly) as Hdata.
  assert (Hdiv : sb_size sb / BPB = 0) by (apply Z.div_small; unfold BPB, BSIZE, FSSIZE in *; lia).
  unfold balloc. apply wp_bind, wp_gets. rewrite Hsb, Hdiv. change (Z.to_nat (0 + 2)) with 2%nat.
  cbn [balloc_loop]. apply wp_bind, wp_gets. rewrite Hsb. destruct (Z.ltb_spec 0 (sb_size sb)); [|lia].
  rewrite (BBLOCK_one start sz) by (done || lia). apply wp_bind.
  eapply wp_f_bread; [exact Hs|done|done|by eapply room_le|]. intros bp l1 Hbp H1.
  apply wp_bind. eapply wp_balloc_bits_full; [exact H1|done|done|done|].
  apply wp_bind. eapply wp_f_brelse; [exact H1|apply lookup_insert_eq|]. intros l2 H2.
  apply wp_bind, wp_gets. cbn [fs_sb set_lst]. rewrite Hsb.
  destruct (Z.ltb_spec (0 + BPB) (sb_size sb)); [unfold BPB, BSIZE, FSSIZE in *; lia|]. exact HE.
Qed.

Lemma wp_readsb Q s t :
  fsrep start sz None s t -> decode_super (tv t 1) = Some sb -> not_held 1 t -> room sz 0 t ->
  (forall l, fsrep start sz None (set_lst l s) t -> Q sb (set_lst l s)) ->
  wp E (inlog (zoom (readsb ROOTDEV))) Q s.
Proof.
  intros [a [Hr Hi Hv Hh Hc Ho]] Hsb Hn Hroom HQ.
  destruct (bread_ok 1 (sub (fs_lst s)) a) as (i & t1 & H1 & Hf & Hr1); [done|done|by eapply not_held_blocks| |].
  { right. by eapply room_in_use. }
  assert (Hli : <[i := 1]> (st_held a) !! i = Some 1) by apply lookup_insert_eq.
  destruct (brelse_ok i 1 _ _ Hr1 Hli) as (t2 & H2 & Hr2).
  { simpl. rewrite (li_pinned _ _ _ _ _ Hi), Hv.
    destruct (decide (1 ∈ tl t)); [left; by apply elem_of_list_to_set|right; auto]. }
  assert (Hrun : readsb ROOTDEV (sub (fs_lst s)) = Ok (sb, t2)).
  { unfold readsb. erewrite bind_Ok by exact H1. erewrite bind_Ok; [|apply (b_get_ok i 1 _ _ _ Hr1 Hli)].
    cbn [st_view set_held]. rewrite Hv, Hsb. erewrite bind_Ok by done. by erewrite bind_Ok by exact H2. }
  eapply wp_inlog; [by apply zoom_Ok|]. apply HQ. exists a. split; try done.
  simpl in Hr2. unfold set_held in Hr2. simpl in Hr2. rewrite delete_insert_id in Hr2 by done. by destruct a.
Qed.

(** What [bfree] makes of a transaction. *)
Definition free_view (b : Z) (t : tview) : tview :=
  put_log (sb_bmapstart sb) (clear_bit (tv t (sb_bmapstart sb)) b) t.

Lemma wp_bfree b Q s t :
  fsrep start sz None s t -> decode_super (tv t 1) = Some sb -> 0 <= b < sb_size sb ->
  not_held 1 t -> not_held (sb_bmapstart sb) t -> room sz 2 t ->
  (if used (tv t) sb b then
     forall l, fsrep start sz None (set_lst l (set_fs_sb sb s)) (free_view b t) -> Q tt (set_lst l (set_fs_sb sb s))
   else E (Panic "freeing free block")) ->
  wp E (bfree ROOTDEV b) Q s.
Proof.
  intros Hs Hsb Hb Hn1 Hnm Hroom HQ. destruct (bmap_range _ _ _ Hly) as (Hmr & Hml & _).
  pose proof (ly_size _ _ _ Hly) as Hsize.
  assert (Hlen : length (tv t (sb_bmapstart sb)) = BSIZE) by by eapply (fsrep_length start sz None s t).
  assert (Hmod : b mod BPB = b) by (apply Z.mod_small; unfold BPB, BSIZE, FSSIZE in *; lia).
  unfold bfree. apply wp_bind. eapply wp_readsb; [exact Hs|done|done|by eapply room_le|]. intros l1 H1.
  apply wp_bind, wp_modify. rewrite (BBLOCK_one start sz), Hmod by done. apply wp_bind.
  eapply wp_f_bread; [exact H1|done|done|by eapply room_le|]. intros bp l2 Hbp H2.
  assert (Hli : th (hold bp (sb_bmapstart sb) t) !! bp = Some (sb_bmapstart sb)) by apply lookup_insert_eq.
  apply wp_bind. eapply wp_f_get; [exact H2|exact Hli|]. cbn [tv hold].
  destruct (byte_at_bit (tv t (sb_bmapstart sb)) b) as (x & Hx & Hbit & _ & Hclr).
  { rewrite Hlen. unfold BSIZE, FSSIZE in *. lia. }
  rewrite Hx. apply wp_bind, wp_ret. rewrite bit_mask by (apply Z.mod_pos_bound; lia). rewrite <-Hbit.
  unfold used in HQ. destruct (bit (tv t (sb_bmapstart sb)) b); cbn [negb]; [|exact HQ]. rewrite Hclr.
  eapply wp_f_write; [exact H2|exact Hli|done|done|by rewrite length_clear_bit|by apply room_hold|].
  intros l3 H3. eapply wp_f_brelse; [exact H3|exact Hli|]. intros l4 H4.
  rewrite unhold_hold_log in H4 by done. by apply HQ.
Qed.
End Alloc.
