(* ===== verification/FsInode.v ===== *)
(** * Inodes (fs.c: ialloc, iupdate, iget, idup, ilock, iunlock, iput)

    The layout of an inode on disk, and the inode cache: one entry per inode in
    use, counted references, and contents that match the disk while the entry is
    valid. *)

From stdpp Require Import base numbers list gmap sets strings.
From S2P Require Import Prelude Strings Bytes Machine Ide Store Log LogSpec LogTheorems Fs FsTxn FsAlloc.

Open Scope Z_scope.

(** ** On disk *)

Record dinode_ok (x : dinode) : Prop := {
  do_type : -2 ^ 15 <= di_type x < 2 ^ 15;
  do_major : -2 ^ 15 <= di_major x < 2 ^ 15;
  do_minor : -2 ^ 15 <= di_minor x < 2 ^ 15;
  do_nlink : -2 ^ 15 <= di_nlink x < 2 ^ 15;
  do_mode : 0 <= di_mode x < 2 ^ 32;
  do_uid : 0 <= di_uid x < 2 ^ 16;
  do_gid : 0 <= di_gid x < 2 ^ 16;
  do_size : 0 <= di_size x < 2 ^ 32;
  do_length : length (di_addrs x) = 11%nat;
  do_addrs : Forall (fun a => 0 <= a < 2 ^ 32) (di_addrs x);
}.

Lemma s16_mod z : -2 ^ 15 <= z < 2 ^ 15 -> s16 (z mod 2 ^ 16) = z.
Proof.
  intros Hz. unfold s16. rewrite Zplus_mod_idemp_l, Z.mod_small; lia.
Qed.

Lemma put_addrs_spec d off l : (off + 4 * length l <= length d)%nat ->
  exists d', put_addrs d off l = Some d' /\ length d' = length d /\
    (forall o, (o + 2 <= off \/ off + 4 * length l <= o)%nat -> get16 d' o = get16 d o) /\
    (forall o, (o + 4 <= off \/ off + 4 * length l <= o)%nat -> get32 d' o = get32 d o) /\
    (Forall (fun a => 0 <= a < 2 ^ 32) l -> get_addrs d' off (length l) = Some l).
Proof.
  revert d off. induction l as [|a l IH]; intros d off Hl; simpl in Hl; [by exists d|].
  destruct (put32_Some d off a) as [d1 Hd1]; [lia|]. pose proof (put32_length _ _ _ _ Hd1) as Hl1.
  destruct (IH d1 (off + 4)%nat) as (d' & Hp & Hld & H16 & H32 & Hg); [lia|].
  exists d'. cbn [put_addrs length]. rewrite Hd1. cbn [mbind option_bind]. split_and!; [done|lia| | |].
  - intros o Ho. rewrite H16 by lia. eapply get16_put32_ne; [done|lia].
  - intros o Ho. rewrite H32 by lia. eapply get32_put32_ne; [done|lia].
  - intros [Ha Hf]%Forall_cons. cbn [get_addrs]. rewrite H32 by lia. rewrite (get32_put32 _ _ _ _ Hd1).
    cbn [mbind option_bind]. rewrite Hg by done. cbn [mbind option_bind]. by rewrite Z.mod_small.
Qed.

(** Read a field through the writes of the others. *)
Ltac through := repeat first
  [ erewrite get16_put16_ne; [|eassumption|lia] | erewrite get16_put32_ne; [|eassumption|lia]
  | erewrite get32_put32_ne; [|eassumption|lia] | erewrite get32_put16_ne; [|eassumption|lia] ].
Ltac hit := first [ erewrite get16_put16; [|eassumption] | erewrite get32_put32; [|eassumption] ];
  cbn [mbind option_bind].

Lemma get_addrs_other d d' off k : (forall o, (off <= o /\ o + 4 <= off + 4 * k)%nat -> get32 d' o = get32 d o) ->
  get_addrs d' off k = get_addrs d off k.
Proof.
  revert off. induction k as [|k IH]; intros off H; [done|]. cbn [get_addrs].
  rewrite H by lia. rewrite IH; [done|]. intros o Ho. apply H. lia.
Qed.

(** An inode written is read back, and the other inodes of the block stay. *)
Lemma decode_encode_dinode d off x : (off + 64 <= length d)%nat -> dinode_ok x ->
  exists d', encode_dinode d off x = Some d' /\ length d' = length d /\ decode_dinode d' off = Some x /\
    forall off', (off' + 64 <= off \/ off + 64 <= off')%nat -> decode_dinode d' off' = decode_dinode d off'.
Proof.
  intros Hl []. unfold encode_dinode.
  destruct (put16_Some d off (di_type x)) as [d1 H1]; [lia|]. pose proof (put16_length _ _ _ _ H1) as L1.
  destruct (put16_Some d1 (off + 2) (di_major x)) as [d2 H2]; [lia|]. pose proof (put16_length _ _ _ _ H2) as L2.
  destruct (put16_Some d2 (off + 4) (di_minor x)) as [d3 H3]; [lia|]. pose proof (put16_length _ _ _ _ H3) as L3.
  destruct (put16_Some d3 (off + 6) (di_nlink x)) as [d4 H4]; [lia|]. pose proof (put16_length _ _ _ _ H4) as L4.
  destruct (put32_Some d4 (off + 16) (di_size x)) as [d5 H5]; [lia|]. pose proof (put32_length _ _ _ _ H5) as L5.
  destruct (put16_Some d5 (off + 12) (di_uid x)) as [d6 H6]; [lia|]. pose proof (put16_length _ _ _ _ H6) as L6.
  destruct (put16_Some d6 (off + 14) (di_gid x)) as [d7 H7]; [lia|]. pose proof (put16_length _ _ _ _ H7) as L7.
  destruct (put32_Some d7 (off + 8) (di_mode x)) as [d8 H8]; [lia|]. pose proof (put32_length _ _ _ _ H8) as L8.
  destruct (put_addrs_spec d8 (off + 20) (di_addrs x)) as (d9 & H9 & Hl9 & H16 & H32 & Hg); [lia|].
  exists d9. rewrite H1. cbn [mbind option_bind]. rewrite H2. cbn [mbind option_bind]. rewrite H3. cbn [mbind option_bind].
  rewrite H4. cbn [mbind option_bind]. rewrite H5. cbn [mbind option_bind]. rewrite H6. cbn [mbind option_bind].
  rewrite H7. cbn [mbind option_bind]. rewrite H8. cbn [mbind option_bind].
  split_and!; [done|lia| |].
  - unfold decode_dinode. rewrite !H16, !H32 by lia.
    through. hit. through. hit. through. hit. through. hit. through. hit. through. hit. through. hit. through. hit.
    change (Z.to_nat NDIRECT + 1)%nat with 11%nat. rewrite do_length0 in Hg. rewrite Hg by done. cbn [mbind option_bind].
    rewrite !s16_mod by done. rewrite !(Z.mod_small _ (2 ^ 16)), !(Z.mod_small _ (2 ^ 32)) by done. by destruct x.
  - assert (G16 : forall o, (o + 2 <= off \/ off + 64 <= o)%nat -> get16 d9 o = get16 d o).
    { intros o Ho. rewrite H16 by lia. by through. }
    assert (G32 : forall o, (o + 4 <= off \/ off + 64 <= o)%nat -> get32 d9 o = get32 d o).
    { intros o Ho. rewrite H32 by lia. by through. }
    intros off' Hoff. unfold decode_dinode. rewrite !G16, !G32 by lia.
    change (Z.to_nat NDIRECT + 1)%nat with 11%nat.
    rewrite (get_addrs_other d d9); [done|]. intros o Ho. apply G32. lia.
Qed.

(** ** The cache *)

(** The inode [inum] on the disk a transaction sees. *)
Definition dinode_at (v : Z -> list Z) (sb : superblock) (inum : Z) : option dinode :=
  decode_dinode (v (IBLOCK inum sb)) (dinode_off inum).

(** An entry in use for the inode [inum]. *)
Definition entry (inum : Z) (x : inode) : Prop := 0 < i_ref x /\ i_dev x = ROOTDEV /\ i_inum x = inum.

Record icache_ok (v : Z -> list Z) (sb : superblock) (l : list inode) : Prop := {
  ic_ref i x : l !! i = Some x -> 0 <= i_ref x;
  ic_flags i x : l !! i = Some x -> 0 <= i_flags x < 4;
  ic_used i x : l !! i = Some x -> 0 < i_ref x -> i_dev x = ROOTDEV /\ 0 < i_inum x < sb_ninodes sb;
  ic_uniq i j x y inum : l !! i = Some x -> l !! j = Some y -> entry inum x -> entry inum y -> i = j;
  ic_valid i x : l !! i = Some x -> 0 < i_ref x -> i_flags x = I_VALID -> dinode_at v sb (i_inum x) = Some (i_d x);
}.

Lemma iget_scan_spec l k empty dev inum :
  match iget_scan l k empty dev inum with
  | inl i => (k <= i)%nat /\ exists x, l !! (i - k)%nat = Some x /\ 0 < i_ref x /\ i_dev x = dev /\ i_inum x = inum
  | inr r =>
      (forall j y, l !! j = Some y -> ~ (0 < i_ref y /\ i_dev y = dev /\ i_inum y = inum)) /\
      match r with
      | None => empty = None /\ forall j y, l !! j = Some y -> i_ref y <> 0
      | Some i => empty = Some i \/ (k <= i)%nat /\ exists x, l !! (i - k)%nat = Some x /\ i_ref x = 0
      end
  end.
Proof.
  revert k empty. induction l as [|x l IH]; intros k empty; cbn [iget_scan].
  { destruct empty as [i|]; (split; [done|]); [by left|done]. }
  destruct ((0 <? i_ref x) && (i_dev x =? dev) && (i_inum x =? inum)) eqn:Ht.
  { rewrite !andb_true_iff, Z.ltb_lt, !Z.eqb_eq in Ht. split; [done|]. exists x. rewrite Nat.sub_diag. naive_solver. }
  assert (Hx : ~ (0 < i_ref x /\ i_dev x = dev /\ i_inum x = inum)).
  { intros (H1 & H2 & H3). rewrite (proj2 (Z.ltb_lt _ _) H1), (proj2 (Z.eqb_eq _ _) H2), (proj2 (Z.eqb_eq _ _) H3) in Ht. done. }
  set (e := if bool_decide (empty = None) && (i_ref x =? 0) then Some k else empty).
  specialize (IH (S k) e). destruct (iget_scan l (S k) e dev inum) as [i|r].
  - destruct IH as (Hk & y & Hy & Hm). split; [lia|]. exists y.
    replace (i - k)%nat with (S (i - S k)) by lia. done.
  - destruct IH as [Hn Hr]. split; [intros [|j] y; simpl; [by intros [= <-]|apply Hn]|].
    destruct r as [i|].
    + destruct Hr as [He|(Hk & y & Hy & Hr)].
      * unfold e in He. destruct (bool_decide (empty = None)) eqn:Hb; simpl in He; [|by left].
        destruct (Z.eqb_spec (i_ref x) 0) as [H0|]; [|by left]. injection He as <-. right. split; [done|].
        exists x. by rewrite Nat.sub_diag.
      * right. split; [lia|]. exists y. replace (i - k)%nat with (S (i - S k)) by lia. done.
    + destruct Hr as [He Hr]. unfold e in He. destruct (bool_decide_reflect (empty = None)) as [Hem|]; simpl in He; [|done].
      destruct (Z.eqb_spec (i_ref x) 0); [done|]. split; [done|]. intros [|j] y; simpl; [by intros [= <-]|apply Hr].
Qed.

(** What [iget] does to the slot it returns. *)
Definition got (l : list inode) (inum : Z) (x x' : inode) : Prop :=
  (entry inum x /\ x' = set_i_ref (i_ref x + 1) x) \/
  (i_ref x = 0 /\ (forall j y, l !! j = Some y -> ~ entry inum y) /\ x' = mkinode ROOTDEV inum 1 0 (i_d x)).

(** The inode is cached, or a slot is free. *)
Definition gettable (l : list inode) (inum : Z) : Prop :=
  (exists i x, l !! i = Some x /\ entry inum x) \/ (exists i x, l !! i = Some x /\ i_ref x = 0).

Lemma icache_ok_insert v sb l i x x' :
  icache_ok v sb l -> l !! i = Some x -> 0 <= i_ref x' -> 0 <= i_flags x' < 4 ->
  (0 < i_ref x' -> i_dev x' = ROOTDEV /\ 0 < i_inum x' < sb_ninodes sb) ->
  (forall inum, entry inum x' -> entry inum x \/ forall j y, l !! j = Some y -> ~ entry inum y) ->
  (0 < i_ref x' -> i_flags x' = I_VALID -> dinode_at v sb (i_inum x') = Some (i_d x')) ->
  icache_ok v sb (<[i := x']> l).
Proof.
  intros [Hr Hf Hu Hq Hv] Hx Hr' Hf' Hu' Hq' Hv'.
  assert (Hcase : forall j y, <[i := x']> l !! j = Some y -> (j = i /\ y = x') \/ (j <> i /\ l !! j = Some y)).
  { intros j y [(<- & <- & _)|[Hne Hy]]%list_lookup_insert_Some; [by left|by right]. }
  split.
  - intros j y [[-> ->]|[_ Hy]]%Hcase; [done|by eapply Hr].
  - intros j y [[-> ->]|[_ Hy]]%Hcase; [done|by eapply Hf].
  - intros j y [[-> ->]|[_ Hy]]%Hcase; [done|by eapply Hu].
  - intros j k y z inum [[-> ->]|[Hji Hy]]%Hcase [[-> ->]|[Hki Hz]]%Hcase Hey Hez; [done| | |by eapply Hq].
    + destruct (Hq' inum Hey) as [He|Hno]; [by eapply (Hq i k x z)|by destruct (Hno k z Hz)].
    + destruct (Hq' inum Hez) as [He|Hno]; [by eapply (Hq j i y x)|by destruct (Hno j y Hy)].
  - intros j y [[-> ->]|[_ Hy]]%Hcase; [done|by eapply Hv].
Qed.

Lemma entry_same inum x x' : 0 < i_ref x -> i_dev x' = i_dev x -> i_inum x' = i_inum x -> entry inum x' -> entry inum x.
Proof. intros Hr Hd Hi (_ & ? & ?). split_and!; [done|congruence|congruence]. Qed.

(** [iget] keeps the cache well formed. *)
Lemma icache_ok_got v sb l i x x' inum :
  icache_ok v sb l -> l !! i = Some x -> 0 < inum < sb_ninodes sb -> got l inum x x' ->
  icache_ok v sb (<[i := x']> l) /\ entry inum x'.
Proof.
  intros Hic Hx Hin [[(Hr & Hd & Hi) ->]|(Hr & Hno & ->)].
  - split; [|split_and!; simpl; [lia|done|done]].
    eapply icache_ok_insert; [done|done|simpl; lia|apply (ic_flags _ _ _ Hic i x Hx)|intros; by apply (ic_used _ _ _ Hic i x Hx)|
      |intros; by apply (ic_valid _ _ _ Hic i x Hx)].
    intros n He. left. by apply (entry_same n x (set_i_ref (i_ref x + 1) x)).
  - split; [|done]. eapply icache_ok_insert; [done|done|done|done|done| |done].
    intros n (_ & _ & <-). by right.
Qed.

(** Locking, unlocking and other changes to an entry in use. *)
Lemma icache_ok_change v sb l i x x' :
  icache_ok v sb l -> l !! i = Some x -> 0 < i_ref x -> 0 <= i_ref x' -> 0 <= i_flags x' < 4 ->
  i_dev x' = i_dev x -> i_inum x' = i_inum x ->
  (i_flags x' = I_VALID -> dinode_at v sb (i_inum x) = Some (i_d x')) ->
  icache_ok v sb (<[i := x']> l).
Proof.
  intros Hic Hx Hr Hr' Hf Hd Hi Hv.
  eapply icache_ok_insert; [done|done|done|done| | |].
  - intros _. rewrite Hd, Hi. by apply (ic_used _ _ _ Hic i x).
  - intros n He. left. by apply (entry_same n x x').
  - intros _ Hf'. rewrite Hi. by apply Hv.
Qed.

Section Inode.
Context {S : Type} {BC : BufferCache S} {BS : BufferCacheSpec S}.
Context (start sz : Z) {E : error -> Prop}.
Implicit Types (s : fstate S) (t : tview).

Lemma wp_geti ip x Q s : icache s !! ip = Some x -> Q x s -> wp E (geti ip) Q s.
Proof. intros Hx HQ. eapply wp_Ok; [|exact HQ]. unfold geti. by rewrite Hx. Qed.

Lemma wp_modi ip f x Q s :
  icache s !! ip = Some x -> Q tt (set_icache (<[ip := f x]> (icache s)) s) -> wp E (modi ip f) Q s.
Proof. intros Hx HQ. eapply wp_Ok; [|exact HQ]. unfold modi. by rewrite Hx. Qed.

Lemma wp_iget inum Q s t :
  fsrep start sz None s t -> gettable (icache s) inum ->
  (forall i x x' l, icache s !! i = Some x -> got (icache s) inum x x' -> fsrep start sz None (set_lst l s) t ->
     Q i (set_icache (<[i := x']> (icache s)) (set_lst l s))) ->
  wp E (iget ROOTDEV inum) Q s.
Proof.
  intros Hs Hg HQ. unfold iget. apply wp_bind. eapply wp_f_acquire; [exact Hs|]. intros l1 H1.
  apply wp_bind, wp_gets. cbn [icache set_lst].
  pose proof (iget_scan_spec (icache s) 0 None ROOTDEV inum) as Hsc.
  destruct (iget_scan _ _ _ _ _) as [i|[i|]].
  - destruct Hsc as (_ & x & Hx & He). rewrite Nat.sub_0_r in Hx.
    apply wp_bind. eapply wp_modi; [exact Hx|]. apply wp_bind. eapply wp_f_release; [exact H1|]. intros l2 H2.
    apply wp_ret. apply (HQ i x _ l2); [done|by left|exact H2].
  - destruct Hsc as (Hn & [|(_ & x & Hx & He)]); [done|]. rewrite Nat.sub_0_r in Hx.
    apply wp_bind. eapply wp_modi; [exact Hx|]. apply wp_bind. eapply wp_f_release; [exact H1|]. intros l2 H2.
    apply wp_ret. apply (HQ i x _ l2); [done|by right|exact H2].
  - destruct Hsc as (Hn & _ & Hr). exfalso.
    destruct Hg as [(i & x & Hx & He)|(i & x & Hx & He)]; [by eapply Hn|by eapply Hr].
Qed.

(** ** Inode blocks *)

Lemma iblock_range sb inum : layout start sz sb -> 0 < inum < sb_ninodes sb ->
  0 <= IBLOCK inum sb < FSSIZE /\ ~ in_log start sz (IBLOCK inum sb) /\ IBLOCK inum sb < sb_bmapstart sb /\
  IBLOCK inum sb <> 1.
Proof.
  intros [] Hi. unfold IBLOCK, in_log.
  assert (0 <= inum / IPB <= sb_ninodes sb / IPB).
  { split; [by apply Z.div_pos; [lia|]|]. apply Z.div_le_mono; [done|lia]. }
  lia.
Qed.

Lemma dinode_off_bound inum : (dinode_off inum + 64 <= BSIZE)%nat.
Proof.
  unfold dinode_off, BSIZE. pose proof (Z.mod_pos_bound inum IPB eq_refl) as H. unfold IPB, BSIZE in *.
  change (Z.of_nat 512 / 64) with 8 in *. lia.
Qed.

(** Different inodes are in different blocks or at different places. *)
Lemma dinode_disjoint i j sb : 0 <= i -> 0 <= j -> i <> j -> IBLOCK i sb = IBLOCK j sb ->
  (dinode_off i + 64 <= dinode_off j \/ dinode_off j + 64 <= dinode_off i)%nat.
Proof.
  intros Hi Hj Hne. unfold IBLOCK, dinode_off. change IPB with 8. intros Hb.
  pose proof (Z.div_mod i 8). pose proof (Z.div_mod j 8).
  pose proof (Z.mod_pos_bound i 8). pose proof (Z.mod_pos_bound j 8). lia.
Qed.

Definition put_dinode (sb : superblock) (inum : Z) (d : list Z) (t : tview) : tview := put_log (IBLOCK inum sb) d t.

Lemma dinode_at_put v sb inum x d' : layout start sz sb ->
  0 < inum < sb_ninodes sb -> dinode_ok x -> length (v (IBLOCK inum sb)) = BSIZE ->
  encode_dinode (v (IBLOCK inum sb)) (dinode_off inum) x = Some d' ->
  let v' := upd v (IBLOCK inum sb) d' in
  dinode_at v' sb inum = Some x /\
  forall j, 0 < j -> j <> inum -> dinode_at v' sb j = dinode_at v sb j.
Proof.
  intros Hly Hi Hx Hl He v'. pose proof (dinode_off_bound inum).
  destruct (decode_encode_dinode (v (IBLOCK inum sb)) (dinode_off inum) x) as (d & Hd & _ & Hdec & Ho); [lia|done|].
  rewrite He in Hd. injection Hd as <-. unfold dinode_at, v'. split; [by rewrite upd_same|].
  intros j Hj Hne. destruct (decide (IBLOCK j sb = IBLOCK inum sb)) as [Hb|Hb].
  - rewrite Hb, upd_same. apply Ho. apply (dinode_disjoint j inum sb); [lia|lia|done|done].
  - by rewrite upd_other.
Qed.

Context (sb : superblock).
Hypothesis Hly : layout start sz sb.

Lemma wp_iupdate ip x Q s t :
  fsrep start sz None s t -> fs_sb s = sb -> icache s !! ip = Some x ->
  i_dev x = ROOTDEV -> 0 < i_inum x < sb_ninodes sb -> dinode_ok (i_d x) ->
  not_held (IBLOCK (i_inum x) sb) t -> room sz 2 t ->
  (forall l d, encode_dinode (tv t (IBLOCK (i_inum x) sb)) (dinode_off (i_inum x)) (i_d x) = Some d ->
     length d = BSIZE ->
     fsrep start sz None (set_lst l s) (put_log (IBLOCK (i_inum x) sb) d t) -> Q tt (set_lst l s)) ->
  wp E (iupdate ip) Q s.
Proof.
  intros Hs Hsb Hx Hdev Hin Hok Hnh Hroom HQ. destruct (iblock_range sb (i_inum x) Hly Hin) as (Hb & Hbl & _).
  assert (Hlen : length (tv t (IBLOCK (i_inum x) sb)) = BSIZE) by by eapply fsrep_length.
  unfold iupdate. apply wp_bind. eapply wp_geti; [exact Hx|]. apply wp_bind, wp_gets. rewrite Hsb, Hdev.
  apply wp_bind. eapply wp_f_bread; [exact Hs|done|done|by eapply room_le|]. intros bp l1 Hbp H1.
  assert (Hli : th (hold bp (IBLOCK (i_inum x) sb) t) !! bp = Some (IBLOCK (i_inum x) sb)) by apply lookup_insert_eq.
  apply wp_bind. eapply wp_f_get; [exact H1|exact Hli|]. cbn [tv hold].
  pose proof (dinode_off_bound (i_inum x)).
  destruct (decode_encode_dinode (tv t (IBLOCK (i_inum x) sb)) (dinode_off (i_inum x)) (i_d x)) as (d & Hd & Hld & _); [lia|done|].
  rewrite Hd. apply wp_bind, wp_ret.
  eapply wp_f_write; [exact H1|exact Hli|done|done|lia|by apply room_hold|].
  intros l2 H2. eapply wp_f_brelse; [exact H2|exact Hli|]. intros l3 H3.
  rewrite unhold_hold_log in H3 by done. eapply HQ; [exact Hd|lia|exact H3].
Qed.

(** [ilock] of an unlocked entry whose inode on disk is allocated. *)
Lemma wp_ilock ip x d Q s t :
  fsrep start sz None s t -> fs_sb s = sb -> icache_ok (tv t) sb (icache s) -> icache s !! ip = Some x ->
  0 < i_ref x -> Z.land (i_flags x) I_BUSY = 0 -> dinode_at (tv t) sb (i_inum x) = Some d -> di_type d <> 0 ->
  not_held (IBLOCK (i_inum x) sb) t -> room sz 0 t ->
  (forall l, fsrep start sz None (set_lst l s) t ->
     Q tt (set_icache (<[ip := mkinode ROOTDEV (i_inum x) (i_ref x) 3 d]> (icache s)) (set_lst l s))) ->
  wp E (ilock ip) Q s.
Proof.
  intros Hs Hsb Hic Hx Hr Hfl Hd Ht Hnh Hroom HQ. destruct (ic_used _ _ _ Hic ip x Hx Hr) as [Hdev Hin].
  destruct (iblock_range sb (i_inum x) Hly Hin) as (Hb & Hbl & _).
  pose proof (lookup_lt_Some _ _ _ Hx) as Hlt.
  unfold ilock. apply wp_bind. eapply wp_geti; [exact Hx|]. destruct (Z.ltb_spec (i_ref x) 1); [lia|].
  apply wp_bind. eapply wp_f_acquire; [exact Hs|]. intros l1 H1. apply wp_bind. eapply wp_geti; [exact Hx|].
  rewrite Hfl. cbn [negb Z.eqb]. apply wp_bind. eapply wp_modi; [exact Hx|]. apply wp_bind.
  eapply wp_f_release; [exact H1|]. intros l2 H2. apply wp_bind.
  eapply wp_geti; [by apply list_lookup_insert_eq|].
  assert (i_flags x = 0 \/ i_flags x = 2) as [Hf|Hf].
  { pose proof (ic_flags _ _ _ Hic ip x Hx) as Hf4. assert (i_flags x = 0 \/ i_flags x = 1 \/ i_flags x = 2 \/ i_flags x = 3) as Hc by lia.
    destruct Hc as [Hc|[Hc|[Hc|Hc]]]; rewrite Hc in Hfl; [by left|done|by right|done]. }
  - simpl. rewrite Hf. simpl. apply wp_bind, wp_gets. cbn [fs_sb set_lst set_icache]. rewrite Hsb, Hdev.
    apply wp_bind. eapply wp_f_bread; [exact H2|done|done|done|]. intros bp l3 Hbp H3.
    assert (Hli : th (hold bp (IBLOCK (i_inum x) sb) t) !! bp = Some (IBLOCK (i_inum x) sb)) by apply lookup_insert_eq.
    apply wp_bind. eapply wp_f_get; [exact H3|exact Hli|]. cbn [tv hold].
    unfold dinode_at in Hd. rewrite Hd. apply wp_bind, wp_ret. apply wp_bind.
    eapply wp_modi; [by apply list_lookup_insert_eq|]. apply wp_bind.
    eapply wp_f_brelse; [exact H3|exact Hli|]. intros l4 H4. rewrite unhold_hold in H4 by done.
    apply wp_bind. eapply wp_modi; [apply list_lookup_insert_eq; simpl; by rewrite length_insert|].
    destruct (Z.eqb_spec (di_type d) 0); [done|]. apply wp_ret.
    specialize (HQ l4 H4). cbn [icache set_icache set_lst fs_lst fs_sb cwd] in *. rewrite !list_insert_insert_eq.
    unfold set_i_flags, set_i_d. simpl. rewrite ?Hdev, ?Hf. exact HQ.
  - simpl. rewrite Hf. simpl. apply wp_ret. specialize (HQ l2 H2).
    rewrite (ic_valid _ _ _ Hic ip x Hx Hr Hf) in Hd. injection Hd as <-.
    unfold set_i_flags. rewrite ?Hdev, ?Hf. exact HQ.
Qed.

Lemma wp_iunlock ip x Q s t :
  fsrep start sz None s t -> icache s !! ip = Some x -> 0 < i_ref x -> i_flags x = 3 ->
  (forall l, fsrep start sz None (set_lst l s) t ->
     Q tt (set_icache (<[ip := set_i_flags I_VALID x]> (icache s)) (set_lst l s))) ->
  wp E (iunlock ip) Q s.
Proof.
  intros Hs Hx Hr Hf HQ. unfold iunlock. apply wp_bind. eapply wp_geti; [exact Hx|]. rewrite Hf. simpl.
  destruct (Z.ltb_spec (i_ref x) 1); [lia|]. apply wp_bind. eapply wp_f_acquire; [exact Hs|]. intros l1 H1.
  apply wp_bind. eapply wp_modi; [exact Hx|]. apply wp_bind. eapply wp_f_wakeup; [exact H1|]. intros l2 H2.
  eapply wp_f_release; [exact H2|]. intros l3 H3. specialize (HQ l3 H3). rewrite Hf. exact HQ.
Qed.

(** [iput] when the inode stays: other references, or links on disk. *)
Lemma wp_iput_keep ip x Q s t :
  fsrep start sz None s t -> icache s !! ip = Some x ->
  i_ref x <> 1 \/ Z.land (i_flags x) I_VALID = 0 \/ di_nlink (i_d x) <> 0 ->
  (forall l, fsrep start sz None (set_lst l s) t ->
     Q tt (set_icache (<[ip := set_i_ref (i_ref x - 1) x]> (icache s)) (set_lst l s))) ->
  wp E (iput ip) Q s.
Proof.
  intros Hs Hx Hk HQ. unfold iput. apply wp_bind. eapply wp_f_acquire; [exact Hs|]. intros l1 H1.
  apply wp_bind. eapply wp_geti; [exact Hx|].
  replace ((i_ref x =? 1) && negb (Z.land (i_flags x) I_VALID =? 0) && (di_nlink (i_d x) =? 0)) with false.
  - unfold when. apply wp_bind, wp_ret, wp_bind. eapply wp_modi; [exact Hx|].
    eapply wp_f_release; [exact H1|]. intros l2 H2. by apply HQ.
  - symmetry. rewrite !andb_false_iff, negb_false_iff, !Z.eqb_neq, Z.eqb_eq. tauto.
Qed.

Lemma wp_idup ip x Q s t :
  fsrep start sz None s t -> icache s !! ip = Some x ->
  (forall l, fsrep start sz None (set_lst l s) t ->
     Q ip (set_icache (<[ip := set_i_ref (i_ref x + 1) x]> (icache s)) (set_lst l s))) ->
  wp E (idup ip) Q s.
Proof.
  intros Hs Hx HQ. unfold idup. apply wp_bind. eapply wp_f_acquire; [exact Hs|]. intros l1 H1.
  apply wp_bind. eapply wp_modi; [exact Hx|]. apply wp_bind. eapply wp_f_release; [exact H1|]. intros l2 H2.
  by apply wp_ret, HQ.
Qed.

End Inode.
