(* ===== verification/FsFile.v ===== *)
(** * File contents (fs.c: bmap, readi, writei)

    A file is the sequence of bytes its inode's block addresses give.  [bmap]
    keeps it and makes a block of it present; [readi] returns a part of it;
    [writei] replaces a part of it. *)

From stdpp Require Import base numbers list gmap sets strings.
From S2P Require Import Prelude Strings Bytes Machine Ide Store Log LogSpec LogTheorems Fs FsTxn FsAlloc FsInode.

Open Scope Z_scope.

(** ** Addresses and bytes *)

(** The addresses of a file: ten direct ones, that of the indirect block, and
    those in the indirect block.  0 stands for no block. *)
Definition NSLOT : Z := NDIRECT + 1 + NINDIRECT.

Definition slot (v : Z -> list Z) (di : dinode) (p : Z) : Z :=
  if p <=? NDIRECT then default 0 (di_addrs di !! Z.to_nat p)
  else
    let ind := default 0 (di_addrs di !! Z.to_nat NDIRECT) in
    if ind =? 0 then 0 else default 0 (get32 (v ind) (4 * Z.to_nat (p - NDIRECT - 1))).

(** Arithmetic on the constants of the format. *)
Ltac fs_lia :=
  change NSLOT with 139 in *; change NINDIRECT with 128 in *; change NDIRECT with 10 in *;
  change MAXFILE with 138 in *; change (Z.of_nat BSIZE) with 512 in *; change BSIZE with 512%nat in *; lia.

(** The slot of block [bn] of the file. *)
Definition pos (bn : Z) : Z := if bn <? NDIRECT then bn else bn + 1.

Definition byte_at (v : Z -> list Z) (di : dinode) (off : Z) : Z :=
  let b := slot v di (pos (off / Z.of_nat BSIZE)) in
  if b =? 0 then 0 else default 0 (v b !! Z.to_nat (off mod Z.of_nat BSIZE)).

Definition file_bytes (v : Z -> list Z) (di : dinode) (off n : Z) : list Z := byte_at v di <$> seqZ off n.

(** The blocks of a file are data blocks, marked in use, and all different. *)
Record file_ok (v : Z -> list Z) (sb : superblock) (di : dinode) : Prop := {
  fo_di : dinode_ok di;
  fo_data p : 0 <= p < NSLOT -> slot v di p <> 0 -> data sb (slot v di p) /\ used v sb (slot v di p) = true;
  fo_inj p q : 0 <= p < NSLOT -> 0 <= q < NSLOT -> slot v di p <> 0 -> slot v di p = slot v di q -> p = q;
}.

(** [v'], [di'] is the file with block [b], unused before, put in slot [p]. *)
Record grows (sb : superblock) (v : Z -> list Z) (di : dinode) (v' : Z -> list Z) (di' : dinode) (p b : Z) : Prop := {
  gr_slot q : 0 <= q < NSLOT -> slot v' di' q = if q =? p then b else slot v di q;
  gr_pos : 0 <= p < NSLOT;
  gr_was : slot v di p = 0;
  gr_data : data sb b;
  gr_free : used v sb b = false;
  gr_used c : 0 <= c < sb_size sb -> used v' sb c = (c =? b) || used v sb c;
  gr_zero : v' b = zero_block;
  gr_frame c : c <> sb_bmapstart sb -> c <> b -> (slot v di NDIRECT <> 0 -> c <> slot v di NDIRECT) -> v' c = v c;
  gr_meta : di' = set_di_addrs (di_addrs di') di;
  gr_di : dinode_ok di';
}.

(** What [bmap] may do to the file system. *)
Record mapped (sb : superblock) (v : Z -> list Z) (di : dinode) (v' : Z -> list Z) (di' : dinode) : Prop := {
  mp_ok : file_ok v' sb di';
  mp_bytes o : 0 <= o < MAXFILE * Z.of_nat BSIZE -> byte_at v' di' o = byte_at v di o;
  mp_keep p : 0 <= p < NSLOT -> slot v di p <> 0 -> slot v' di' p = slot v di p;
  mp_new p : 0 <= p < NSLOT -> slot v di p = 0 -> slot v' di' p <> 0 -> used v sb (slot v' di' p) = false;
  mp_used c : 0 <= c < sb_size sb -> used v sb c = true -> used v' sb c = true;
  mp_frame c : 0 <= c < sb_size sb -> used v sb c = true ->
    c <> sb_bmapstart sb -> (slot v di NDIRECT <> 0 -> c <> slot v di NDIRECT) -> v' c = v c;
  mp_meta : di' = set_di_addrs (di_addrs di') di;
}.

Lemma pos_range bn : 0 <= bn < MAXFILE -> 0 <= pos bn < NSLOT /\ pos bn <> NDIRECT.
Proof. unfold pos, MAXFILE, NSLOT. destruct (Z.ltb_spec bn NDIRECT); lia. Qed.

Lemma pos_inj a b : pos a = pos b -> a = b.
Proof. unfold pos. destruct (Z.ltb_spec a NDIRECT), (Z.ltb_spec b NDIRECT); lia. Qed.

Lemma bn_range o : 0 <= o < MAXFILE * Z.of_nat BSIZE -> 0 <= o / Z.of_nat BSIZE < MAXFILE.
Proof.
  intros Ho. split; [apply Z.div_pos; [lia|done]|]. apply Z.div_lt_upper_bound; [done|lia].
Qed.

Lemma zero_block_byte i : default 0 (zero_block !! i) = 0.
Proof.
  unfold zero_block. destruct (replicate BSIZE 0 !! i) eqn:H; [|done]. by apply lookup_replicate in H as [-> _].
Qed.

Lemma mapped_refl sb v di : file_ok v sb di -> mapped sb v di v di.
Proof. intros H. split; try done. by destruct di. Qed.

Lemma grows_mapped start sz sb v di v' di' p b :
  layout start sz sb -> file_ok v sb di -> grows sb v di v' di' p b -> mapped sb v di v' di'.
Proof.
  intros Hly Hfo Hg. destruct Hg as [Hsl Hp Hwas Hdata Hfree Hus Hz Hfr Hme Hdi].
  assert (Hb0 : b <> 0).
  { destruct (data_range _ _ _ _ Hly Hdata) as (_ & _ & _ & _). destruct (bmap_range _ _ _ Hly). unfold data in Hdata. lia. }
  assert (Hold : forall q, 0 <= q < NSLOT -> slot v di q <> 0 -> slot v di q <> b).
  { intros q Hq Hne He. destruct (fo_data _ _ _ Hfo q Hq Hne) as [_ Hu]. rewrite He in Hu. congruence. }
  assert (Hkeep : forall q, 0 <= q < NSLOT -> slot v di q <> 0 -> slot v' di' q = slot v di q).
  { intros q Hq Hne. rewrite Hsl by done. destruct (Z.eqb_spec q p) as [->|]; [congruence|done]. }
  split; try done.
  - split; [done| |].
    + intros q Hq. rewrite Hsl by done. unfold data in *. destruct (bmap_range _ _ _ Hly) as [Hm _].
      destruct (Z.eqb_spec q p) as [->|]; intros Hne.
      * split; [done|]. rewrite Hus by lia. by rewrite Z.eqb_refl.
      * destruct (fo_data _ _ _ Hfo q Hq Hne) as [Hd Hu]. split; [done|]. unfold data in Hd.
        rewrite Hus, Hu by lia. apply orb_true_r.
    + intros q r Hq Hr. rewrite !Hsl by done.
      destruct (Z.eqb_spec q p) as [->|Hqp], (Z.eqb_spec r p) as [->|Hrp]; intros Hne He; [done| | |].
      * destruct (Hold r Hr); [congruence|done].
      * by destruct (Hold q Hq Hne).
      * by apply (fo_inj _ _ _ Hfo).
  - intros o Ho. unfold byte_at. pose proof (bn_range o Ho) as Hbn. destruct (pos_range _ Hbn) as [Hpr Hpn].
    set (q := pos (o / Z.of_nat BSIZE)) in *. rewrite Hsl by done.
    destruct (Z.eqb_spec q p) as [->|Hqp].
    + rewrite Hwas. destruct (Z.eqb_spec b 0); [done|]. simpl. rewrite Hz. apply zero_block_byte.
    + destruct (Z.eqb_spec (slot v di q) 0) as [|Hne]; [done|]. f_equal. f_equal.
      destruct (fo_data _ _ _ Hfo q Hpr Hne) as [Hd _]. destruct (data_range _ _ _ _ Hly Hd) as (_ & _ & Hbm & _).
      apply Hfr; [done|by apply Hold|]. intros _ He. apply Hpn. apply (fo_inj _ _ _ Hfo); [done|done|done|done].
  - intros q Hq H0. rewrite Hsl by done. destruct (Z.eqb_spec q p); [done|congruence].
  - intros c Hc Hu. rewrite Hus, Hu by done. apply orb_true_r.
  - intros c Hc Hu Hm Hi. apply Hfr; [done| |done]. intros ->. congruence.
Qed.

Lemma mapped_trans start sz sb v di v1 di1 v2 di2 :
  layout start sz sb -> mapped sb v di v1 di1 -> mapped sb v1 di1 v2 di2 -> mapped sb v di v2 di2.
Proof.
  intros Hly [? Hb1 Hk1 Hn1 Hu1 Hf1 Hm1] [Ho2 Hb2 Hk2 Hn2 Hu2 Hf2 Hm2].
  split.
  - done.
  - intros o Hr. by rewrite Hb2, Hb1.
  - intros p Hp Hne. rewrite Hk2; [by apply Hk1|done|]. by rewrite Hk1.
  - intros p Hp H0 Hne. destruct (decide (slot v1 di1 p = 0)) as [H1|H1].
    + destruct (used v sb (slot v2 di2 p)) eqn:Hu; [|done].
      destruct (fo_data _ _ _ Ho2 p Hp Hne) as [Hd _]. unfold data in Hd. destruct (bmap_range _ _ _ Hly) as [Hm _].
      pose proof (Hn2 p Hp H1 Hne) as Hf. rewrite (Hu1 (slot v2 di2 p)) in Hf by (done || lia). done.
    + rewrite Hk2 in * by done. by apply Hn1.
  - intros c Hc Hu. auto.
  - intros c Hc Hu Hm Hi. rewrite Hf2; [by apply Hf1|done|by apply Hu1|done|].
    intros H1 He. assert (HN : 0 <= NDIRECT < NSLOT) by done.
    destruct (decide (slot v di NDIRECT = 0)) as [H0|H0]; [|rewrite Hk1 in He by done; by apply Hi].
    pose proof (Hn1 NDIRECT HN H0 H1). congruence.
  - rewrite Hm2, Hm1. by destruct di.
Qed.

(** ** Allocation of a block for a file *)

Lemma get32_zero off : (off + 4 <= BSIZE)%nat -> get32 zero_block off = Some 0.
Proof.
  intros Ho. unfold get32, zero_block. rewrite rd_bytes_Some by (rewrite length_replicate; lia).
  rewrite drop_replicate, take_replicate. by replace (4 `min` (BSIZE - off))%nat with 4%nat by lia.
Qed.

Section Grow.
Context (start sz : Z) (sb : superblock) (t : tview) (di : dinode) (b : Z).
Hypothesis Hly : layout start sz sb.
Hypothesis Hfo : file_ok (tv t) sb di.
Hypothesis Hff : first_free (tv t) sb b.
Hypothesis Hmu : meta_used (tv t) sb.
Hypothesis Hlen : length (tv t (sb_bmapstart sb)) = BSIZE.

Let v1 := tv (alloc_view sb b t).

Lemma alloc_data : data sb b.
Proof. by eapply first_free_data. Qed.

Lemma alloc_used c : 0 <= c < sb_size sb -> used v1 sb c = (c =? b) || used (tv t) sb c.
Proof.
  intros Hc. pose proof alloc_data as Hd. destruct (data_range _ _ _ _ Hly Hd) as (_ & _ & Hne & _).
  unfold used, v1. simpl. rewrite upd_other, upd_same by done.
  apply bit_set_bit; [|lia]. rewrite Hlen. unfold data in Hd. destruct (bmap_range _ _ _ Hly) as [Hm _].
  pose proof (ly_size _ _ _ Hly). unfold FSSIZE, BSIZE in *. lia.
Qed.

Lemma alloc_zero : v1 b = zero_block.
Proof. unfold v1. simpl. apply upd_same. Qed.

Lemma alloc_frame c : c <> sb_bmapstart sb -> c <> b -> v1 c = tv t c.
Proof. intros H1 H2. unfold v1. simpl. by rewrite !upd_other. Qed.

Lemma alloc_small : 0 <= b < 2 ^ 32 /\ b <> 0.
Proof.
  pose proof alloc_data as Hd. unfold data in Hd. destruct (bmap_range _ _ _ Hly) as [Hm _].
  pose proof (ly_size _ _ _ Hly). unfold FSSIZE in *. lia.
Qed.

(** A slot in use keeps its contents. *)
Lemma alloc_slot p : 0 <= p < NSLOT -> slot (tv t) di p <> 0 ->
  v1 (slot (tv t) di p) = tv t (slot (tv t) di p) /\ slot (tv t) di p <> b.
Proof.
  intros Hp Hne. destruct (fo_data _ _ _ Hfo p Hp Hne) as [Hd Hu].
  destruct (data_range _ _ _ _ Hly Hd) as (_ & _ & Hbm & _).
  assert (slot (tv t) di p <> b) by (intros He; rewrite He, (ff_free _ _ _ Hff) in Hu; done).
  split; [by apply alloc_frame|done].
Qed.

Lemma slot_ind : slot (tv t) di NDIRECT = default 0 (di_addrs di !! Z.to_nat NDIRECT).
Proof. done. Qed.

Lemma grow_direct p : 0 <= p <= NDIRECT -> slot (tv t) di p = 0 ->
  grows sb (tv t) di v1 (set_di_addrs (<[Z.to_nat p := b]> (di_addrs di)) di) p b.
Proof.
  intros Hp H0. pose proof (fo_di _ _ _ Hfo) as Hdi. pose proof alloc_small as [Hsm Hb0].
  assert (Hpl : (Z.to_nat p < length (di_addrs di))%nat) by (rewrite (do_length _ Hdi); unfold NDIRECT in *; lia).
  split; try done.
  - intros q Hq. unfold slot at 1. cbn [di_addrs set_di_addrs]. destruct (Z.leb_spec q NDIRECT) as [Hqn|Hqn].
    + destruct (Z.eqb_spec q p) as [->|Hne]; [by rewrite list_lookup_insert_eq|].
      rewrite list_lookup_insert_ne by lia. unfold slot. by destruct (Z.leb_spec q NDIRECT); [|lia].
    + destruct (Z.eqb_spec q p); [lia|]. destruct (decide (p = NDIRECT)) as [->|Hpn].
      * rewrite list_lookup_insert_eq by done. simpl (default 0 (Some b)).
        destruct (Z.eqb_spec b 0); [done|]. rewrite alloc_zero, get32_zero; [|fs_lia].
        unfold slot. destruct (Z.leb_spec q NDIRECT); [lia|]. rewrite <-slot_ind, H0. done.
      * rewrite list_lookup_insert_ne by lia. rewrite <-slot_ind. unfold slot at 3. destruct (Z.leb_spec q NDIRECT); [lia|].
        rewrite <-slot_ind. destruct (Z.eqb_spec (slot (tv t) di NDIRECT) 0) as [|Hne]; [done|].
        by rewrite (proj1 (alloc_slot NDIRECT ltac:(done) Hne)).
  - fs_lia.
  - apply alloc_data.
  - apply Hff.
  - intros c Hc. by apply alloc_used.
  - apply alloc_zero.
  - intros c H1 H2 _. by apply alloc_frame.
  - destruct Hdi. split; try done; cbn [di_addrs set_di_addrs]; [by rewrite length_insert|]. by apply Forall_insert.
Qed.

Lemma grow_indirect k a' : 0 <= k < NINDIRECT -> slot (tv t) di NDIRECT <> 0 -> slot (tv t) di (NDIRECT + 1 + k) = 0 ->
  put32 (v1 (slot (tv t) di NDIRECT)) (4 * Z.to_nat k) b = Some a' ->
  grows sb (tv t) di (upd v1 (slot (tv t) di NDIRECT) a') di (NDIRECT + 1 + k) b.
Proof.
  intros Hk Hind H0 Hput. pose proof alloc_small as [Hsm Hb0].
  set (ind := slot (tv t) di NDIRECT) in *.
  destruct (alloc_slot NDIRECT ltac:(done) Hind) as [Hv1 Hib]. fold ind in Hv1, Hib.
  destruct (fo_data _ _ _ Hfo NDIRECT ltac:(done) Hind) as [Hid _]. fold ind in Hid.
  destruct (data_range _ _ _ _ Hly Hid) as (_ & _ & Hbm & _).
  split; try done.
  - intros q Hq. unfold slot. destruct (Z.leb_spec q NDIRECT); [by destruct (Z.eqb_spec q (NDIRECT + 1 + k)); [lia|]|].
    rewrite <-slot_ind. fold ind. destruct (Z.eqb_spec ind 0); [done|]. rewrite upd_same.
    destruct (Z.eqb_spec q (NDIRECT + 1 + k)) as [->|Hne].
    + replace (NDIRECT + 1 + k - NDIRECT - 1) with k by lia. rewrite (get32_put32 _ _ _ _ Hput). simpl. by rewrite Z.mod_small.
    + rewrite (get32_put32_ne _ _ _ _ _ Hput) by lia. by rewrite Hv1.
  - fs_lia.
  - apply alloc_data.
  - apply Hff.
  - intros c Hc. unfold used. rewrite upd_other by done. by apply alloc_used.
  - rewrite upd_other by done. apply alloc_zero.
  - intros c H1 H2 H3. rewrite upd_other by (by apply H3). by apply alloc_frame.
  - by destruct di.
  - apply Hfo.
Qed.
End Grow.

(** ** Free blocks *)

Definition free_list (v : Z -> list Z) (sb : superblock) : list Z :=
  filter (fun b => used v sb b = false) (seqZ 0 (sb_size sb)).
Definition nfree (v : Z -> list Z) (sb : superblock) : nat := length (free_list v sb).

Lemma free_list_elem v sb b : b ∈ free_list v sb <-> used v sb b = false /\ 0 <= b < sb_size sb.
Proof. unfold free_list. rewrite list_elem_of_filter, elem_of_seqZ. naive_solver lia. Qed.

Lemma nfree_first v sb : (0 < nfree v sb)%nat -> exists b, first_free v sb b.
Proof.
  intros Hn. destruct (list_find (fun b => used v sb b = false) (seqZ 0 (sb_size sb))) as [[i b]|] eqn:Hf.
  - apply list_find_Some in Hf as (Hi & Hb & Hl). apply lookup_seqZ in Hi as [Hi1 Hi2]. exists b. split; [lia|done|].
    intros c Hc. destruct (used v sb c) eqn:Hu; [done|]. exfalso.
    apply (Hl (Z.to_nat c) c); [apply lookup_seqZ; lia|lia|done].
  - apply list_find_None in Hf. unfold nfree, free_list in Hn.
    replace (filter _ _) with (@nil Z) in Hn; [simpl in Hn; lia|]. symmetry.
    apply elem_of_nil_inv. intros b [Hb Hin]%list_elem_of_filter. rewrite Forall_forall in Hf. by apply (Hf b).
Qed.

Lemma nfree_less v v' sb b : 0 <= b < sb_size sb -> used v sb b = false ->
  (forall c, 0 <= c < sb_size sb -> used v' sb c = (c =? b) || used v sb c) ->
  nfree v sb = S (nfree v' sb).
Proof.
  intros Hb Hu Hv. unfold nfree. change (S (length (free_list v' sb))) with (length (b :: free_list v' sb)).
  apply Permutation_length, NoDup_Permutation.
  - apply NoDup_filter, NoDup_seqZ.
  - apply NoDup_cons. split; [|apply NoDup_filter, NoDup_seqZ].
    rewrite free_list_elem. intros [H _]. rewrite Hv, Z.eqb_refl in H by done. done.
  - intros c. rewrite elem_of_cons, !free_list_elem. split.
    + intros [Hc Hr]. destruct (decide (c = b)); [by left|right]. rewrite Hv, Hc by done.
      by destruct (Z.eqb_spec c b).
    + intros [->|[Hc Hr]]; [done|]. rewrite Hv in Hc by done. by destruct (c =? b).
Qed.

Lemma meta_used_mapped start sz sb v di v' di' :
  layout start sz sb -> meta_used v sb -> mapped sb v di v' di' -> meta_used v' sb.
Proof.
  intros Hly Hm Hmp b Hb. apply (mp_used _ _ _ _ _ Hmp); [|by apply Hm].
  pose proof (ly_data _ _ _ Hly). lia.
Qed.

Section File.
Context {S : Type} {BC : BufferCache S} {BS : BufferCacheSpec S}.
Context (start sz : Z) {E : error -> Prop} (sb : superblock).
Hypothesis Hly : layout start sz sb.
Implicit Types (s : fstate S) (t : tview).

Lemma none_held_any t b : th t = ∅ -> not_held b t.
Proof. intros Hh i. by rewrite Hh, lookup_empty. Qed.

Lemma slot_addr di p : dinode_ok di -> 0 <= p <= NDIRECT ->
  di_addrs di !! Z.to_nat p = Some (default 0 (di_addrs di !! Z.to_nat p)).
Proof.
  intros Hdi Hp. destruct (lookup_lt_is_Some_2 (di_addrs di) (Z.to_nat p)) as [a Ha]; [|by rewrite Ha].
  rewrite (do_length _ Hdi). fs_lia.
Qed.

(** Block [bn] of the file is there. *)
Lemma wp_bmap_present ip x bn Q s t :
  fsrep start sz None s t -> icache s !! ip = Some x -> i_dev x = ROOTDEV ->
  file_ok (tv t) sb (i_d x) -> th t = ∅ -> room sz 0 t -> 0 <= bn < MAXFILE ->
  slot (tv t) (i_d x) (pos bn) <> 0 ->
  (forall l, fsrep start sz None (set_lst l s) t -> Q (slot (tv t) (i_d x) (pos bn)) (set_lst l s)) ->
  wp E (bmap ip bn) Q s.
Proof.
  intros Hs Hx Hdev Hfo Hth Hroom Hbn Hne HQ. pose proof (fo_di _ _ _ Hfo) as Hdi.
  unfold bmap. apply wp_bind. eapply wp_geti; [exact Hx|]. unfold pos in *.
  destruct (Z.ltb_spec bn NDIRECT) as [Hd|Hd].
  - rewrite (slot_addr (i_d x) bn) by (done || lia). apply wp_bind, wp_ret.
    unfold slot in Hne, HQ. destruct (Z.leb_spec bn NDIRECT); [|lia].
    destruct (Z.eqb_spec (default 0 (di_addrs (i_d x) !! Z.to_nat bn)) 0); [done|]. apply wp_ret.
    specialize (HQ (fs_lst s)). destruct s. apply HQ. exact Hs.
  - destruct (Z.ltb_spec (bn - NDIRECT) NINDIRECT); [|unfold MAXFILE in *; lia].
    rewrite (slot_addr (i_d x) NDIRECT) by done. apply wp_bind, wp_ret. rewrite <-slot_ind with (t := t).
    assert (Hi : slot (tv t) (i_d x) NDIRECT <> 0).
    { intros H0. apply Hne. unfold slot. destruct (Z.leb_spec (bn + 1) NDIRECT); [lia|]. by rewrite <-slot_ind with (t := t), H0. }
    destruct (Z.eqb_spec (slot (tv t) (i_d x) NDIRECT) 0); [done|]. apply wp_bind, wp_ret.
    destruct (fo_data _ _ _ Hfo NDIRECT ltac:(done) Hi) as [Hid _].
    destruct (data_range _ _ _ _ Hly Hid) as (Hir & _). rewrite Hdev.
    apply wp_bind. eapply wp_f_bread; [exact Hs|done|by apply none_held_any|done|]. intros bp l1 Hbp H1.
    set (ind := slot (tv t) (i_d x) NDIRECT) in *.
    assert (Hli : th (hold bp ind t) !! bp = Some ind) by apply lookup_insert_eq.
    apply wp_bind. eapply wp_f_get; [exact H1|exact Hli|]. cbn [tv hold].
    unfold slot in Hne, HQ. destruct (Z.leb_spec (bn + 1) NDIRECT); [lia|].
    rewrite <-slot_ind with (t := t) in Hne, HQ. fold ind in Hne, HQ.
    destruct (Z.eqb_spec ind 0); [done|].
    replace (bn + 1 - NDIRECT - 1) with (bn - NDIRECT) in Hne, HQ by lia.
    destruct (get32 (tv t ind) (4 * Z.to_nat (bn - NDIRECT))) as [a|] eqn:Ha; [|done]. simpl in Hne, HQ.
    apply wp_bind, wp_ret. destruct (Z.eqb_spec a 0); [done|]. apply wp_bind, wp_ret, wp_bind.
    eapply wp_f_brelse; [exact H1|exact Hli|]. intros l2 H2. rewrite unhold_hold in H2 by done.
    apply wp_ret. by apply HQ.
Qed.
(** After [bmap] of block [bn], at [b]. *)
Record bmap_post (s : fstate S) t (ip : nat) (x : inode) (bn b : Z) (s' : fstate S) (t' : tview) (di' : dinode) : Prop := {
  bp_rep : fsrep start sz None s' t';
  bp_icache : icache s' = <[ip := set_i_d di' x]> (icache s);
  bp_sb : fs_sb s' = fs_sb s;
  bp_cwd : cwd s' = cwd s;
  bp_mapped : mapped sb (tv t) (i_d x) (tv t') di';
  bp_slot : slot (tv t') di' (pos bn) = b;
  bp_nonzero : b <> 0;
  bp_held : th t' = ∅;
  bp_logged c : c ∈ tl t' -> c ∈ tl t \/ c ∈ [sb_bmapstart sb; slot (tv t') di' NDIRECT; b];
  bp_free : (nfree (tv t) sb <= nfree (tv t') sb + 2)%nat;
  bp_same : slot (tv t) (i_d x) (pos bn) <> 0 -> di' = i_d x;
  bp_n : tn t' = tn t;
}.

Lemma elem_add_block c b l : c ∈ add_block b l -> c ∈ l \/ c = b.
Proof.
  unfold add_block. case_bool_decide; [by left|]. rewrite elem_of_app, list_elem_of_singleton. done.
Qed.

Lemma set_i_d_same x : set_i_d (i_d x) x = x.
Proof. by destruct x. Qed.

Lemma alloc_hold b i c t : alloc_view sb b (hold i c t) = hold i c (alloc_view sb b t).
Proof. done. Qed.

Lemma room_alloc n b t : room sz (n + 2) t -> room sz n (alloc_view sb b t).
Proof. intros H. unfold alloc_view. apply room_log, room_log. by replace (n + 1 + 1) with (n + 2) by lia. Qed.

(** The part of [bmap] that allocates a block for a free entry of the indirect block. *)
Definition bmap_entry (dev addr : Z) (bn : Z) : M (fstate S) Z :=
  bp ← f_bread dev addr;
  a ← f_get bp;
  addr ← or_fault (get32 a (4 * Z.to_nat bn));
  addr ← (if addr =? 0 then
            addr ← balloc dev;
            a ← f_get bp;
            a ← or_fault (put32 a (4 * Z.to_nat bn) addr);
            f_put bp a ;;
            f_log_write bp ;;
            mret addr
          else mret addr);
  f_brelse bp ;;
  mret addr.

Lemma wp_bmap_entry di k Q s t :
  fsrep start sz None s t -> fs_sb s = sb -> file_ok (tv t) sb di -> meta_used (tv t) sb -> th t = ∅ ->
  0 <= k < NINDIRECT -> slot (tv t) di NDIRECT <> 0 -> slot (tv t) di (NDIRECT + 1 + k) = 0 ->
  (0 < nfree (tv t) sb)%nat -> room sz 4 t ->
  (forall l b a, fsrep start sz None (set_lst l s) (put_log (slot (tv t) di NDIRECT) a (alloc_view sb b t)) ->
     first_free (tv t) sb b ->
     grows sb (tv t) di (upd (tv (alloc_view sb b t)) (slot (tv t) di NDIRECT) a) di (NDIRECT + 1 + k) b ->
     Q b (set_lst l s)) ->
  wp E (bmap_entry ROOTDEV (slot (tv t) di NDIRECT) k) Q s.
Proof.
  intros Hs Hsb Hfo Hmu Hth Hk Hi H0 Hnf Hroom HQ. destruct (nfree_first _ _ Hnf) as [b Hff].
  destruct (bmap_range _ _ _ Hly) as (Hmr & _).
  assert (Hlm : length (tv t (sb_bmapstart sb)) = BSIZE) by by eapply fsrep_length.
  destruct (fo_data _ _ _ Hfo NDIRECT ltac:(done) Hi) as [Hid _].
  destruct (data_range _ _ _ _ Hly Hid) as (Hir & Hil & Him & _).
  assert (Hli0 : length (tv t (slot (tv t) di NDIRECT)) = BSIZE) by by eapply fsrep_length.
  destruct (alloc_slot start sz sb t di b Hly Hfo Hff NDIRECT ltac:(done) Hi) as [Hvi Hib].
  set (ind := slot (tv t) di NDIRECT) in *. unfold bmap_entry.
  apply wp_bind. eapply wp_f_bread; [exact Hs|done|by apply none_held_any|by eapply room_le|]. intros bp l1 Hbp H1.
  assert (Hli : th (hold bp ind t) !! bp = Some ind) by apply lookup_insert_eq.
  apply wp_bind. eapply wp_f_get; [exact H1|exact Hli|]. cbn [tv hold].
  assert (Hg : get32 (tv t ind) (4 * Z.to_nat k) = Some 0).
  { destruct (get32_Some (tv t ind) (4 * Z.to_nat k)) as [a Ha]; [rewrite Hli0; fs_lia|].
    unfold slot in H0. destruct (Z.leb_spec (NDIRECT + 1 + k) NDIRECT); [lia|].
    rewrite <-slot_ind with (t := t) in H0. fold ind in H0. destruct (Z.eqb_spec ind 0); [done|].
    replace (NDIRECT + 1 + k - NDIRECT - 1) with k in H0 by lia. rewrite Ha in *. simpl in H0. by subst. }
  rewrite Hg. apply wp_bind, wp_ret, wp_bind. simpl (0 =? 0). cbn iota. apply wp_bind.
  eapply (wp_balloc start sz sb Hly b); [exact H1|done|exact Hff|exact Hmu| | |by apply room_hold|].
  { apply not_held_hold; [by apply none_held_any|done]. }
  { apply not_held_hold; [by apply none_held_any|done]. }
  intros l2 H2. rewrite alloc_hold in H2. apply wp_bind. eapply wp_f_get; [exact H2|exact Hli|]. cbn [tv hold].
  destruct (put32_Some (tv (alloc_view sb b t) ind) (4 * Z.to_nat k) b) as [a Ha]; [rewrite Hvi, Hli0; fs_lia|].
  pose proof (put32_length _ _ _ _ Ha) as Hla. rewrite Hvi, Hli0 in Hla.
  rewrite Ha. apply wp_bind, wp_ret.
  eapply wp_f_write; [exact H2|exact Hli|done|done|done|apply room_hold; [by apply (room_alloc 2)|exact Hbp]|].
  intros l3 H3. apply wp_ret, wp_bind. eapply wp_f_brelse; [exact H3|exact Hli|]. intros l4 H4.
  rewrite unhold_hold_log in H4 by exact Hbp. apply wp_ret. eapply HQ; [exact H4|done|].
  by eapply grow_indirect.
Qed.

Lemma grows_nfree v di v' di' p b : grows sb v di v' di' p b -> nfree v sb = Datatypes.S (nfree v' sb).
Proof.
  intros Hg. pose proof (gr_data _ _ _ _ _ _ _ Hg) as Hd. unfold data in Hd.
  destruct (bmap_range _ _ _ Hly) as [Hm _].
  eapply nfree_less; [|by apply Hg|by apply Hg]. lia.
Qed.

Lemma data_nonzero b : data sb b -> b <> 0.
Proof. unfold data. destruct (bmap_range _ _ _ Hly) as [Hm _]. lia. Qed.

Lemma alloc_logged b t c : c ∈ tl (alloc_view sb b t) -> c ∈ tl t \/ c = sb_bmapstart sb \/ c = b.
Proof. intros [[Hc|Hc]%elem_add_block|Hc]%elem_add_block; tauto. Qed.

(** Allocation of a direct block or of the indirect block. *)
Lemma wp_bmap_addr ip x p Q s t :
  fsrep start sz None s t -> fs_sb s = sb -> icache s !! ip = Some x ->
  file_ok (tv t) sb (i_d x) -> meta_used (tv t) sb -> th t = ∅ ->
  0 <= p <= NDIRECT -> slot (tv t) (i_d x) p = 0 -> (0 < nfree (tv t) sb)%nat -> room sz 3 t ->
  (forall l b, let di' := set_di_addrs (<[Z.to_nat p := b]> (di_addrs (i_d x))) (i_d x) in
     let s' := set_icache (<[ip := set_i_d di' x]> (icache s)) (set_lst l s) in
     fsrep start sz None s' (alloc_view sb b t) -> grows sb (tv t) (i_d x) (tv (alloc_view sb b t)) di' p b ->
     Q b s') ->
  wp E (addr ← balloc ROOTDEV;
        modd ip (fun di => set_di_addrs (<[Z.to_nat p := addr]> (di_addrs di)) di) ;;
        mret addr) Q s.
Proof.
  intros Hs Hsb Hx Hfo Hmu Hth Hp H0 Hnf Hroom HQ. destruct (nfree_first _ _ Hnf) as [b Hff].
  destruct (bmap_range _ _ _ Hly) as (Hmr & _).
  assert (Hlm : length (tv t (sb_bmapstart sb)) = BSIZE) by by eapply fsrep_length.
  apply wp_bind. eapply (wp_balloc start sz sb Hly b); [exact Hs|done|done|done|by apply none_held_any..|done|].
  intros l1 H1. apply wp_bind. unfold modd. eapply wp_modi; [exact Hx|]. apply wp_ret.
  apply (HQ l1 b); [exact H1|]. by eapply grow_direct.
Qed.

Lemma wp_bmap_tail ip x bn Q s t s1 t1 di1 :
  fsrep start sz None s1 t1 -> icache s1 = <[ip := set_i_d di1 x]> (icache s) -> fs_sb s1 = fs_sb s -> fs_sb s = sb ->
  cwd s1 = cwd s -> mapped sb (tv t) (i_d x) (tv t1) di1 -> meta_used (tv t) sb -> th t1 = ∅ ->
  tn t1 = tn t -> (forall c, c ∈ tl t1 -> c ∈ tl t \/ c = sb_bmapstart sb \/ c = slot (tv t1) di1 NDIRECT) ->
  (nfree (tv t) sb <= nfree (tv t1) sb + 1)%nat -> (0 < nfree (tv t1) sb)%nat -> room sz 4 t1 ->
  NDIRECT <= bn < MAXFILE -> slot (tv t1) di1 NDIRECT <> 0 -> slot (tv t1) di1 (bn + 1) = 0 -> slot (tv t) (i_d x) (pos bn) = 0 ->
  (forall b s' t' di', bmap_post s t ip x bn b s' t' di' -> Q b s') ->
  wp E (bmap_entry ROOTDEV (slot (tv t1) di1 NDIRECT) (bn - NDIRECT)) Q s1.
Proof.
  intros Hs Hic Hs1 Hsb Hcw Hmp Hmu Hth Htn Hlog Hnf1 Hnf Hroom Hbn Hi H0 Hs0 HQ.
  replace (bn + 1) with (NDIRECT + 1 + (bn - NDIRECT)) in H0 by lia.
  assert (Hk : 0 <= bn - NDIRECT < NINDIRECT) by fs_lia.
  eapply wp_bmap_entry; [exact Hs|congruence|apply Hmp|by eapply meta_used_mapped|done|done|done|done|done|done|].
  intros l b a H1 Hff Hg. pose proof (grows_nfree _ _ _ _ _ _ Hg) as Hn. 
  apply (HQ b _ (put_log (slot (tv t1) di1 NDIRECT) a (alloc_view sb b t1)) di1). split; try done.
  - eapply mapped_trans; [done|exact Hmp|]. eapply grows_mapped; [done|apply Hmp|exact Hg].
  - unfold pos. destruct (Z.ltb_spec bn NDIRECT); [lia|]. cbn [tv put_log].
    replace (bn + 1) with (NDIRECT + 1 + (bn - NDIRECT)) by lia.
    rewrite (gr_slot _ _ _ _ _ _ _ Hg) by fs_lia. by rewrite Z.eqb_refl.
  - by apply data_nonzero, Hg.
  - cbn [tv put_log]. rewrite (gr_slot _ _ _ _ _ _ _ Hg NDIRECT) by done.
    destruct (Z.eqb_spec NDIRECT (NDIRECT + 1 + (bn - NDIRECT))); [lia|].
    intros c [[Hc|[->| ->]]%alloc_logged| ->]%elem_add_block.
    + destruct (Hlog c Hc) as [?|[->| ->]]; [by left|right; left|right; right; left].
    + right. left.
    + right. right. right. left.
    + right. right. left.
  - cbn [tv put_log]. lia.
Qed.

Lemma wp_bmap ip x bn Q s t :
  fsrep start sz None s t -> fs_sb s = sb -> icache s !! ip = Some x -> i_dev x = ROOTDEV ->
  file_ok (tv t) sb (i_d x) -> meta_used (tv t) sb -> th t = ∅ ->
  0 <= bn < MAXFILE -> (2 <= nfree (tv t) sb)%nat -> room sz 6 t ->
  (forall b s' t' di', bmap_post s t ip x bn b s' t' di' -> Q b s') ->
  wp E (bmap ip bn) Q s.
Proof.
  intros Hs Hsb Hx Hdev Hfo Hmu Hth Hbn Hnf Hroom HQ. pose proof (fo_di _ _ _ Hfo) as Hdi.
  destruct (decide (slot (tv t) (i_d x) (pos bn) = 0)) as [H0|H0].
  2: { eapply wp_bmap_present; [exact Hs|done..|by eapply room_le|done|done|]. intros l H1.
       eapply (HQ _ _ t (i_d x)). split; try done; [|by apply mapped_refl|by left|lia].
       cbn [icache set_lst]. by rewrite set_i_d_same, list_insert_id. }
  unfold bmap. apply wp_bind. eapply wp_geti; [exact Hx|]. rewrite Hdev. pose proof H0 as Hz. unfold pos in H0.
  destruct (Z.ltb_spec bn NDIRECT) as [Hd|Hd].
  - rewrite (slot_addr (i_d x) bn) by (done || lia). apply wp_bind, wp_ret.
    assert (Hs0 : default 0 (di_addrs (i_d x) !! Z.to_nat bn) = 0).
    { unfold slot in H0. by destruct (Z.leb_spec bn NDIRECT); [|lia]. }
    rewrite Hs0. cbn [Z.eqb].
    eapply wp_bmap_addr; [exact Hs|done|exact Hx|done|done|done|lia|done|lia|by eapply room_le|].
    cbv zeta. intros l b H1 Hg. eapply HQ. pose proof (grows_nfree _ _ _ _ _ _ Hg).
    split; try done; [by eapply grows_mapped| | | |lia].
    + unfold pos. destruct (Z.ltb_spec bn NDIRECT); [|lia]. rewrite (gr_slot _ _ _ _ _ _ _ Hg) by (by fs_lia). by rewrite Z.eqb_refl.
    + by apply data_nonzero, Hg.
    + intros c [?|[->| ->]]%alloc_logged; [by left|right; left|right; right; right; left].
  - destruct (Z.ltb_spec (bn - NDIRECT) NINDIRECT); [|unfold MAXFILE in *; lia].
    rewrite (slot_addr (i_d x) NDIRECT) by done. apply wp_bind, wp_ret. rewrite <-slot_ind with (t := t).
    apply wp_bind. destruct (Z.eqb_spec (slot (tv t) (i_d x) NDIRECT) 0) as [Hi|Hi].
    + eapply wp_bmap_addr; [exact Hs|done|exact Hx|done|done|done|done|done|lia|by eapply room_le|].
      cbv zeta. intros l b H1 Hg. pose proof (grows_nfree _ _ _ _ _ _ Hg) as Hn.
      pose proof (gr_slot _ _ _ _ _ _ _ Hg NDIRECT ltac:(done)) as Hsl. rewrite Z.eqb_refl in Hsl.
      set (di1 := set_di_addrs _ (i_d x)) in *. set (s1 := set_icache _ _) in *. set (t1 := alloc_view sb b t) in *.
      rewrite <-Hsl. eapply (wp_bmap_tail ip x bn Q s t); [exact H1|done|done|done|done|by eapply grows_mapped|done|done|done| | | | |lia| | |exact Hz|exact HQ].
      * intros c [?|[->| ->]]%alloc_logged; [tauto|tauto|]. right. right. by rewrite Hsl.
      * lia.
      * lia.
      * by apply (room_alloc 4).
      * rewrite Hsl. by apply data_nonzero, Hg.
      * rewrite (gr_slot _ _ _ _ _ _ _ Hg) by fs_lia. by destruct (Z.eqb_spec (bn + 1) NDIRECT); [lia|].
    + apply wp_ret. eapply (wp_bmap_tail ip x bn Q s t s t (i_d x)); [done| |done|done|done|by apply mapped_refl|done|done|done|tauto|lia|lia|by eapply room_le|lia|done|done|done|done].
      by rewrite set_i_d_same, list_insert_id.
Qed.


(** ** Reading *)

(** Every byte of the file has a block. *)
Definition full (v : Z -> list Z) (di : dinode) : Prop :=
  di_size di <= MAXFILE * Z.of_nat BSIZE /\
  forall o, 0 <= o < di_size di -> slot v di (pos (o / Z.of_nat BSIZE)) <> 0.

Lemma same_block off i m : 0 <= i < m -> m <= Z.of_nat BSIZE - off mod Z.of_nat BSIZE -> 0 <= off ->
  (off + i) / Z.of_nat BSIZE = off / Z.of_nat BSIZE /\
  (off + i) mod Z.of_nat BSIZE = off mod Z.of_nat BSIZE + i.
Proof.
  intros Hi Hm Ho. pose proof (Z.div_mod off (Z.of_nat BSIZE) ltac:(done)) as Hdm.
  pose proof (Z.mod_pos_bound off (Z.of_nat BSIZE) eq_refl) as Hb.
  assert ((off + i) / Z.of_nat BSIZE = off / Z.of_nat BSIZE) as Hq.
  { symmetry. apply Z.div_unique with (off mod Z.of_nat BSIZE + i); lia. }
  split; [done|]. rewrite (Z.mod_eq (off + i)), Hq by done. lia.
Qed.

(** The bytes of a file within one block. *)
Lemma chunk_bytes v di off m b : 0 <= off -> 0 <= m <= Z.of_nat BSIZE - off mod Z.of_nat BSIZE ->
  slot v di (pos (off / Z.of_nat BSIZE)) = b -> b <> 0 -> length (v b) = BSIZE ->
  rd_bytes (v b) (Z.to_nat (off mod Z.of_nat BSIZE)) (Z.to_nat m) = Some (file_bytes v di off m).
Proof.
  intros Ho Hm Hb Hb0 Hl. pose proof (Z.mod_pos_bound off (Z.of_nat BSIZE) eq_refl) as Hmb.
  rewrite rd_bytes_Some by (rewrite Hl; fs_lia). f_equal. apply list_eq. intros i.
  unfold file_bytes. rewrite list_lookup_fmap. destruct (decide (i < Z.to_nat m)%nat) as [Hi|Hi].
  - rewrite lookup_take_lt, lookup_drop by done. rewrite (proj2 (lookup_seqZ off m i (off + Z.of_nat i))) by lia. simpl.
    unfold byte_at. destruct (same_block off (Z.of_nat i) m) as [-> ->]; [lia|lia|done|]. rewrite Hb.
    destruct (Z.eqb_spec b 0); [done|]. rewrite Z2Nat.inj_add, Nat2Z.id by lia.
    destruct (lookup_lt_is_Some_2 (v b) (Z.to_nat (off mod Z.of_nat BSIZE) + i)) as [c Hc]; [rewrite Hl; fs_lia|].
    by rewrite Hc.
  - rewrite lookup_take_ge by lia. symmetry. rewrite fmap_None. apply lookup_ge_None. rewrite length_seqZ. lia.
Qed.

Lemma file_bytes_app v di off m n : 0 <= m -> 0 <= n ->
  file_bytes v di off (m + n) = file_bytes v di off m ++ file_bytes v di (off + m) n.
Proof. intros Hm Hn. unfold file_bytes. by rewrite seqZ_app, fmap_app. Qed.

(** The next round of a copy starts at a block. *)
Lemma next_round off left fuel : 0 <= off ->
  let m := Z.min left (Z.of_nat BSIZE - off mod Z.of_nat BSIZE) in
  off mod Z.of_nat BSIZE + left <= Z.of_nat BSIZE * Z.of_nat (Datatypes.S fuel) -> 0 < left - m ->
  (off + m) mod Z.of_nat BSIZE + (left - m) <= Z.of_nat BSIZE * Z.of_nat fuel.
Proof.
  intros Ho m Hf Hl. pose proof (Z.mod_pos_bound off (Z.of_nat BSIZE) eq_refl) as Hb.
  assert (m = Z.of_nat BSIZE - off mod Z.of_nat BSIZE) as Hm by lia.
  assert (off + m = (off / Z.of_nat BSIZE + 1) * Z.of_nat BSIZE) as ->.
  { pose proof (Z.div_mod off (Z.of_nat BSIZE) ltac:(done)). lia. }
  rewrite Z.mod_mul by done. lia.
Qed.

Context {DV : Devsw S}.

Lemma wp_readi_loop fuel ip x off left Q s t :
  fsrep start sz None s t -> icache s !! ip = Some x -> i_dev x = ROOTDEV ->
  file_ok (tv t) sb (i_d x) -> full (tv t) (i_d x) -> th t = ∅ -> room sz 0 t ->
  0 <= off -> 0 <= left -> off + left <= di_size (i_d x) ->
  (0 < left -> off mod Z.of_nat BSIZE + left <= Z.of_nat BSIZE * Z.of_nat fuel) ->
  (forall l, fsrep start sz None (set_lst l s) t -> Q (file_bytes (tv t) (i_d x) off left) (set_lst l s)) ->
  wp E (readi_loop fuel ip off left) Q s.
Proof.
  revert off left Q s. induction fuel as [|fuel IH]; intros off left Q s Hs Hx Hdev Hfo Hfu Hth Hroom Hoff Hleft Hsz Hfuel HQ.
  { pose proof (Z.mod_pos_bound off (Z.of_nat BSIZE) eq_refl). cbn [readi_loop]. destruct (Z.leb_spec left 0); [|specialize (Hfuel ltac:(lia)); lia].
    apply wp_ret. replace left with 0 in HQ by lia. specialize (HQ (fs_lst s)). destruct s. by apply HQ. }
  cbn [readi_loop]. destruct (Z.leb_spec left 0).
  { apply wp_ret. replace left with 0 in HQ by lia. specialize (HQ (fs_lst s)). destruct s. by apply HQ. }
  destruct Hfu as [Hmax Hfu]. pose proof (Hfu off ltac:(lia)) as Hne.
  assert (Hbn : 0 <= off / Z.of_nat BSIZE < MAXFILE) by (apply bn_range; lia).
  destruct (pos_range _ Hbn) as [Hpr _]. destruct (fo_data _ _ _ Hfo _ Hpr Hne) as [Hd _].
  destruct (data_range _ _ _ _ Hly Hd) as (Hbr & _).
  assert (Hlen : length (tv t (slot (tv t) (i_d x) (pos (off / Z.of_nat BSIZE)))) = BSIZE) by by eapply fsrep_length.
  set (b := slot (tv t) (i_d x) (pos (off / Z.of_nat BSIZE))) in *.
  set (m := Z.min left (Z.of_nat BSIZE - off mod Z.of_nat BSIZE)).
  pose proof (Z.mod_pos_bound off (Z.of_nat BSIZE) eq_refl) as Hmb.
  assert (Hm : 0 < m <= left) by lia.
  apply wp_bind. eapply wp_geti; [exact Hx|]. apply wp_bind. rewrite Hdev.
  eapply wp_bmap_present; [exact Hs|exact Hx|done|done|done|done|done|done|]. fold b. intros l1 H1.
  apply wp_bind. eapply wp_f_bread; [exact H1|done|by apply none_held_any|done|]. intros bp l2 Hbp H2.
  assert (Hli : th (hold bp b t) !! bp = Some b) by apply lookup_insert_eq.
  apply wp_bind. eapply wp_f_get; [exact H2|exact Hli|]. cbn [tv hold].
  rewrite (chunk_bytes (tv t) (i_d x) off m b) by (done || lia). apply wp_bind, wp_ret, wp_bind.
  eapply wp_f_brelse; [exact H2|exact Hli|]. intros l3 H3. rewrite unhold_hold in H3 by done.
  apply wp_bind. eapply IH; [exact H3|exact Hx|done|done|done|done|done|lia|lia|lia| |].
  { intros Hl. exact (next_round off left fuel Hoff (Hfuel ltac:(lia)) Hl). }
  intros l4 H4. apply wp_ret. specialize (HQ l4 H4).
  replace left with (m + (left - m)) in HQ by lia. rewrite file_bytes_app in HQ by lia. exact HQ.
Qed.


(** What [readi] returns for a file or a directory. *)
Definition read_result (v : Z -> list Z) (di : dinode) (off n : Z) : Z * list Z :=
  if (di_size di <? off) || (2 ^ 32 <=? off + n) then (-1, [])
  else let m := Z.min n (di_size di - off) in (m, file_bytes v di off m).

(** [off + n] wraps around exactly when it leaves the 32-bit words. *)
Lemma u32_wraps off n : 0 <= off < 2 ^ 32 -> 0 <= n < 2 ^ 32 -> (u32 (off + n) <? off) = (2 ^ 32 <=? off + n).
Proof.
  intros Ho Hn. unfold u32. destruct (Z.leb_spec (2 ^ 32) (off + n)).
  - apply Z.ltb_lt. replace (off + n) with (off + n - 2 ^ 32 + 1 * 2 ^ 32) by lia. rewrite Z.mod_add, Z.mod_small by lia. lia.
  - apply Z.ltb_ge. rewrite Z.mod_small by lia. lia.
Qed.

Lemma rounds_enough off n : 0 <= n -> off mod Z.of_nat BSIZE + n <= Z.of_nat BSIZE * Z.of_nat (rounds n).
Proof.
  intros Hn. unfold rounds. pose proof (Z.mod_pos_bound off (Z.of_nat BSIZE) eq_refl).
  pose proof (Z.div_mod n (Z.of_nat BSIZE) ltac:(done)). pose proof (Z.mod_pos_bound n (Z.of_nat BSIZE) eq_refl).
  pose proof (Z.div_pos n (Z.of_nat BSIZE) Hn eq_refl). rewrite Z2Nat.id by lia. lia.
Qed.

Lemma wp_readi ip x off n Q s t :
  fsrep start sz None s t -> icache s !! ip = Some x -> i_dev x = ROOTDEV ->
  file_ok (tv t) sb (i_d x) -> full (tv t) (i_d x) -> th t = ∅ -> room sz 0 t ->
  di_type (i_d x) <> T_DEV -> 0 <= off < 2 ^ 32 -> 0 <= n < 2 ^ 32 ->
  (forall l, fsrep start sz None (set_lst l s) t -> Q (read_result (tv t) (i_d x) off n) (set_lst l s)) ->
  wp E (readi ip off n) Q s.
Proof.
  intros Hs Hx Hdev Hfo Hfu Hth Hroom Hty Hoff Hn HQ. pose proof (fo_di _ _ _ Hfo) as Hdi.
  pose proof (do_size _ Hdi) as Hsz. destruct Hfu as [Hmax Hfu].
  assert (Hm : di_size (i_d x) < 2 ^ 31) by fs_lia.
  unfold readi. apply wp_bind. eapply wp_geti; [exact Hx|]. destruct (Z.eqb_spec (di_type (i_d x)) T_DEV); [done|].
  rewrite u32_wraps by done. unfold read_result in HQ.
  destruct ((di_size (i_d x) <? off) || (2 ^ 32 <=? off + n)) eqn:Hbad.
  { apply wp_ret. specialize (HQ (fs_lst s)). destruct s. apply HQ. exact Hs. }
  apply orb_false_iff in Hbad as [Hb1%Z.ltb_ge Hb2%Z.leb_gt]. rewrite !u32_small by lia.
  replace (if di_size (i_d x) <? off + n then di_size (i_d x) - off else n) with (Z.min n (di_size (i_d x) - off))
    by (destruct (Z.ltb_spec (di_size (i_d x)) (off + n)); lia).
  apply wp_bind. eapply wp_readi_loop; [exact Hs|exact Hx|done|done|done|done|done|lia|lia|lia|intros _; apply rounds_enough; lia|].
  intros l H1. apply wp_ret. rewrite s32_id by lia. by apply HQ.
Qed.


(** ** Writing *)

(** [f] with the bytes [d] from [off] on. *)
Definition overlay (f : Z -> Z) (off : Z) (d : list Z) (o : Z) : Z :=
  if (off <=? o) && (o <? off + Z.of_nat (length d)) then default 0 (d !! Z.to_nat (o - off)) else f o.

(** [v'], [di'] is the file with [d] written at [off]; blocks of other files keep
    their contents. *)
Record wrote (v : Z -> list Z) (di : dinode) (v' : Z -> list Z) (di' : dinode) (off : Z) (d : list Z) : Prop := {
  wr_ok : file_ok v' sb di';
  wr_bytes_at o : 0 <= o < MAXFILE * Z.of_nat BSIZE -> byte_at v' di' o = overlay (byte_at v di) off d o;
  wr_here o : off <= o < off + Z.of_nat (length d) -> slot v' di' (pos (o / Z.of_nat BSIZE)) <> 0;
  wr_keep p : 0 <= p < NSLOT -> slot v di p <> 0 -> slot v' di' p = slot v di p;
  wr_new p : 0 <= p < NSLOT -> slot v di p = 0 -> slot v' di' p <> 0 -> used v sb (slot v' di' p) = false;
  wr_used c : 0 <= c < sb_size sb -> used v sb c = true -> used v' sb c = true;
  wr_frame c : 0 <= c < sb_size sb -> used v sb c = true -> c <> sb_bmapstart sb ->
    (forall p, 0 <= p < NSLOT -> slot v di p <> 0 -> slot v di p <> c) -> v' c = v c;
  wr_meta : di' = set_di_addrs (di_addrs di') di;
  wr_same : (forall o, off <= o < off + Z.of_nat (length d) -> slot v di (pos (o / Z.of_nat BSIZE)) <> 0) -> di' = di;
}.

Lemma overlay_nil f off o : overlay f off [] o = f o.
Proof.
  unfold overlay. cbn [length]. destruct (Z.leb_spec off o), (Z.ltb_spec o (off + Z.of_nat 0)); simpl; first [done|lia].
Qed.

Lemma overlay_app f off d1 d2 o :
  overlay (overlay f off d1) (off + Z.of_nat (length d1)) d2 o = overlay f off (d1 ++ d2) o.
Proof.
  unfold overlay. rewrite length_app, Nat2Z.inj_add, Z.add_assoc.
  destruct (Z.leb_spec (off + Z.of_nat (length d1)) o), (Z.leb_spec off o); simpl; try lia.
  - destruct (Z.ltb_spec o (off + Z.of_nat (length d1) + Z.of_nat (length d2))).
    + rewrite lookup_app_r by lia. do 2 f_equal. lia.
    + destruct (Z.ltb_spec o (off + Z.of_nat (length d1))); [lia|done].
  - destruct (Z.ltb_spec o (off + Z.of_nat (length d1))); [|lia].
    destruct (Z.ltb_spec o (off + Z.of_nat (length d1) + Z.of_nat (length d2))); [|lia].
    by rewrite lookup_app_l by lia.
Qed.

Lemma wrote_refl v di off : file_ok v sb di -> wrote v di v di off [].
Proof.
  intros H. split; try done.
  - intros o _. by rewrite overlay_nil.
  - simpl. lia.
  - by destruct di.
Qed.

Lemma wrote_trans v di v1 di1 v2 di2 off d1 d2 :
  wrote v di v1 di1 off d1 -> wrote v1 di1 v2 di2 (off + Z.of_nat (length d1)) d2 ->
  0 <= off -> off + Z.of_nat (length (d1 ++ d2)) <= MAXFILE * Z.of_nat BSIZE ->
  wrote v di v2 di2 off (d1 ++ d2).
Proof.
  intros [? Hb1 Hh1 Hk1 Hn1 Hu1 Hf1 Hm1 Hs1] [Ho2 Hb2 Hh2 Hk2 Hn2 Hu2 Hf2 Hm2 Hs2] Hoff Hmax. rewrite length_app in Hmax.
  assert (Hslot : forall p, 0 <= p < NSLOT -> slot v di p = 0 -> slot v1 di1 p = 0 -> slot v2 di2 p <> 0 ->
    used v sb (slot v2 di2 p) = false).
  { intros p Hp H0 H1 Hne. destruct (used v sb (slot v2 di2 p)) eqn:Hu; [|done].
    destruct (fo_data _ _ _ Ho2 p Hp Hne) as [Hd _]. unfold data in Hd. destruct (bmap_range _ _ _ Hly) as [Hm _].
    pose proof (Hn2 p Hp H1 Hne) as Hf. rewrite (Hu1 (slot v2 di2 p)) in Hf by (done || lia). done. }
  split; try done.
  - intros o Hr. rewrite Hb2, <-overlay_app by done. unfold overlay at 1 2.
    destruct (_ && _); [done|]. by rewrite Hb1.
  - intros o Ho. rewrite length_app, Nat2Z.inj_add in Ho.
    destruct (decide (o < off + Z.of_nat (length d1))); [|apply Hh2; lia].
    assert (Hp : 0 <= pos (o / Z.of_nat BSIZE) < NSLOT) by (apply pos_range, bn_range; lia).
    rewrite Hk2; [apply Hh1; lia|done|apply Hh1; lia].
  - intros p Hp Hne. rewrite Hk2; [by apply Hk1|done|]. by rewrite Hk1.
  - intros p Hp H0 Hne. destruct (decide (slot v1 di1 p = 0)) as [H1|H1]; [by apply Hslot|].
    rewrite Hk2 in * by done. by apply Hn1.
  - intros c Hc Hu. auto.
  - intros c Hc Hu Hm Hi. rewrite Hf2; [by apply Hf1|done|by apply Hu1|done|].
    intros p Hp Hne. destruct (decide (slot v di p = 0)) as [H0|H0]; [|rewrite Hk1 by done; by apply Hi].
    intros He. pose proof (Hn1 p Hp H0 Hne). congruence.
  - rewrite Hm2, Hm1. by destruct di.
  - intros Hall. rewrite length_app, Nat2Z.inj_add in Hall.
    rewrite Hs2; [apply Hs1; intros o Ho; apply Hall; lia|]. intros o Ho.
    rewrite Hk1; [|apply pos_range, bn_range; lia|]; apply Hall; lia.
Qed.

(** A change to a block of the file that is not the indirect block. *)
Lemma slot_upd v di p d q : file_ok v sb di -> 0 <= p < NSLOT -> p <> NDIRECT -> slot v di p <> 0 ->
  slot (upd v (slot v di p) d) di q = slot v di q.
Proof.
  intros Hfo Hp Hpn Hne. unfold slot at 1 3. destruct (q <=? NDIRECT); [done|].
  change (default 0 (di_addrs di !! Z.to_nat NDIRECT)) with (slot v di NDIRECT).
  destruct (Z.eqb_spec (slot v di NDIRECT) 0) as [|Hi]; [done|]. rewrite upd_other; [done|].
  intros He. apply Hpn. by apply (fo_inj _ _ _ Hfo).
Qed.

Lemma wrote_chunk v di v1 di1 off b chunk d' : mapped sb v di v1 di1 -> 0 <= off ->
  off + Z.of_nat (length chunk) <= MAXFILE * Z.of_nat BSIZE ->
  Z.of_nat (length chunk) <= Z.of_nat BSIZE - off mod Z.of_nat BSIZE -> chunk <> [] ->
  slot v1 di1 (pos (off / Z.of_nat BSIZE)) = b -> b <> 0 ->
  wr_bytes (v1 b) (Z.to_nat (off mod Z.of_nat BSIZE)) chunk = Some d' ->
  (slot v di (pos (off / Z.of_nat BSIZE)) <> 0 -> di1 = di) ->
  wrote v di (upd v1 b d') di1 off chunk.
Proof.
  intros Hmp Hoff Hmax Hlen Hne Hb Hb0 Hd' Hsame. pose proof (mp_ok _ _ _ _ _ Hmp) as Hfo.
  assert (0 < length chunk)%nat by (destruct chunk; simpl; [done|lia]).
  assert (Hbn : 0 <= off / Z.of_nat BSIZE < MAXFILE) by (apply bn_range; lia).
  destruct (pos_range _ Hbn) as [Hp Hpn]. set (p := pos (off / Z.of_nat BSIZE)) in *.
  assert (Hsl : forall q, slot (upd v1 b d') di1 q = slot v1 di1 q).
  { intros q. rewrite <-Hb. apply slot_upd; try done. by rewrite Hb. }
  assert (Hbd : data sb b) by (rewrite <-Hb; apply (fo_data _ _ _ Hfo); [done|by rewrite Hb]).
  destruct (data_range _ _ _ _ Hly Hbd) as (_ & _ & Hbm & _).
  assert (Hu : forall c, used (upd v1 b d') sb c = used v1 sb c) by (intros c; unfold used; by rewrite upd_other).
  split.
  - split; [apply Hfo| |]; intros q; rewrite Hsl, ?Hu; [apply Hfo|]. intros r. rewrite Hsl. apply Hfo.
  - intros o Ho. unfold overlay.
    rewrite <-(mp_bytes _ _ _ _ _ Hmp) by done. unfold byte_at. rewrite Hsl.
    pose proof (Z.div_mod o (Z.of_nat BSIZE) ltac:(done)). pose proof (Z.div_mod off (Z.of_nat BSIZE) ltac:(done)).
    pose proof (Z.mod_pos_bound o (Z.of_nat BSIZE) eq_refl). pose proof (Z.mod_pos_bound off (Z.of_nat BSIZE) eq_refl).
    destruct (pos_range _ (bn_range o Ho)) as [Hq _].
    destruct (decide (o / Z.of_nat BSIZE = off / Z.of_nat BSIZE)) as [Hsm|Hdiff].
    + rewrite Hsm. fold p. rewrite Hb, upd_same, (wr_bytes_lookup _ _ _ _ _ Hd'). rewrite (proj2 (Z.eqb_neq b 0) Hb0).
      destruct (Z.leb_spec off o), (Z.ltb_spec o (off + Z.of_nat (length chunk))); simpl; case_bool_decide; try lia; try done.
      do 2 f_equal. lia.
    + assert (Hqb : slot v1 di1 (pos (o / Z.of_nat BSIZE)) <> 0 -> slot v1 di1 (pos (o / Z.of_nat BSIZE)) <> b).
      { intros Hn0 He. apply Hdiff, pos_inj. apply (fo_inj _ _ _ Hfo); [done|done|done|]. by rewrite He. }
      assert (Hout : (off <=? o) && (o <? off + Z.of_nat (length chunk)) = false).
      { destruct (Z.leb_spec off o), (Z.ltb_spec o (off + Z.of_nat (length chunk))); simpl; try done. exfalso. apply Hdiff.
        replace o with (off + (o - off)) by lia.
        by destruct (same_block off (o - off) (Z.of_nat (length chunk))) as [-> _]; [lia|done|done|]. }
      rewrite Hout. destruct (Z.eqb_spec (slot v1 di1 (pos (o / Z.of_nat BSIZE))) 0); [done|]. by rewrite upd_other by auto.
  - intros o Ho. rewrite Hsl. replace o with (off + (o - off)) by lia.
    destruct (same_block off (o - off) (Z.of_nat (length chunk))) as [-> _]; [lia|done|done|]. fold p. by rewrite Hb.
  - intros q Hq Hnq. rewrite Hsl. by apply (mp_keep _ _ _ _ _ Hmp).
  - intros q Hq H0. rewrite Hsl. by apply (mp_new _ _ _ _ _ Hmp).
  - intros c Hc. rewrite Hu. by apply (mp_used _ _ _ _ _ Hmp).
  - intros c Hc Huc Hcm Hn. assert (c <> b).
    { intros ->. destruct (decide (slot v di p = 0)) as [H0|H0].
      - pose proof (mp_new _ _ _ _ _ Hmp p Hp H0) as Hf. rewrite Hb in Hf. by rewrite Hf in Huc.
      - apply (Hn p Hp H0). by rewrite <-Hb, (mp_keep _ _ _ _ _ Hmp). }
    rewrite upd_other by done. apply (mp_frame _ _ _ _ _ Hmp); [done|done|done|].
    intros Hi ->. by apply (Hn NDIRECT).
  - apply Hmp.
  - intros Hall. apply Hsame, Hall. lia.
Qed.


(** ** Blocks a write logs *)

Definition ind_of (di : dinode) : Z := default 0 (di_addrs di !! Z.to_nat NDIRECT).

(** The blocks a transaction has logged, or will log anyway while it writes the
    file: the free map and the indirect block. *)
Definition log_set (t : tview) (di : dinode) : gset Z :=
  (list_to_set (tl t) ∪ {[sb_bmapstart sb; ind_of di]}) ∖ {[0]}.
Definition pot (t : tview) (di : dinode) : nat :=
  size (log_set t di) + (if ind_of di =? 0 then 1 else 0).

Lemma size_add (X : gset Z) b : (size (X ∪ {[b]}) <= Datatypes.S (size X))%nat.
Proof. pose proof (union_size X {[b]}). rewrite size_singleton in *. lia. Qed.

Lemma NoDup_size (l : list Z) : NoDup l -> size (list_to_set l : gset Z) = length l.
Proof. apply size_list_to_set. Qed.

Lemma pot_room n s t di : fsrep start sz None s t -> th t = ∅ -> 1 <= tn t ->
  Z.of_nat (pot t di) + n + 1 < sz -> room sz n t.
Proof.
  intros Hs Hth Htn Hp. unfold room. rewrite Hth, map_size_empty, Nat.add_0_r.
  assert (length (tl t) <= Datatypes.S (size (log_set t di)))%nat as Hl.
  { rewrite <-(NoDup_size (tl t)) by by eapply fsrep_nodup.
    pose proof (size_add (log_set t di) 0) as H1.
    pose proof (subseteq_size (list_to_set (tl t)) (log_set t di ∪ {[0]})) as H2.
    assert (list_to_set (tl t) ⊆ log_set t di ∪ {[0]}) as H3.
    { intros c Hc. unfold log_set. destruct (decide (c = 0)); set_solver. }
    specialize (H2 H3). lia. }
  unfold pot in Hp. destruct (ind_of di =? 0); lia.
Qed.

Lemma pot_round s t ip x bn b s' t' di' d :
  bmap_post s t ip x bn b s' t' di' -> (pot (put_log b d t') di' <= pot t (i_d x) + 1)%nat /\
  (pot t' di' <= pot t (i_d x) + 1)%nat.
Proof.
  intros Hp. assert (Hb : (pot t' di' <= pot (put_log b d t') di')%nat).
  { unfold pot. apply Nat.add_le_mono_r, subseteq_size. unfold log_set. simpl. unfold add_block.
    case_bool_decide; set_solver. }
  enough (pot (put_log b d t') di' <= pot t (i_d x) + 1)%nat by lia.
  assert (Hin : forall c, c ∈ log_set (put_log b d t') di' -> c ∈ log_set t (i_d x) \/ c = ind_of di' \/ c = b).
  { intros c. unfold log_set. rewrite !elem_of_difference, !elem_of_union, !elem_of_list_to_set, !elem_of_singleton. simpl.
    intros [[Hc|[->| ->]] Hc0]; [|tauto|tauto]. apply elem_add_block in Hc as [Hc| ->]; [|tauto].
    apply (bp_logged _ _ _ _ _ _ _ _ _ Hp) in Hc as [Hc|Hc]; [tauto|].
    apply elem_of_cons in Hc as [->|Hc]; [tauto|]. apply elem_of_cons in Hc as [->|Hc]; [right; by left|].
    apply list_elem_of_singleton in Hc as ->. tauto. }
  pose proof (mp_keep _ _ _ _ _ (bp_mapped _ _ _ _ _ _ _ _ _ Hp) NDIRECT ltac:(done)) as Hk.
  change (slot (tv t) (i_d x) NDIRECT) with (ind_of (i_d x)) in Hk.
  change (slot (tv t') di' NDIRECT) with (ind_of di') in Hk. unfold pot.
  assert (Hkeep : ind_of di' = ind_of (i_d x) -> (size (log_set (put_log b d t') di') <= Datatypes.S (size (log_set t (i_d x))))%nat).
  { intros He. etrans; [|apply (size_add _ b)]. apply subseteq_size. intros c Hc.
    pose proof Hc as Hc'. apply Hin in Hc as [Hc|[Hc|Hc]]; [set_solver| |set_solver]. subst c.
    apply elem_of_union_l. unfold log_set in *. rewrite He in *. set_solver. }
  destruct (Z.eqb_spec (ind_of (i_d x)) 0) as [H0|H0].
  - destruct (Z.eqb_spec (ind_of di') 0) as [H1|H1]; [specialize (Hkeep ltac:(congruence)); lia|].
    etrans; [apply Nat.add_le_mono_r, (subseteq_size _ (log_set t (i_d x) ∪ {[ind_of di']} ∪ {[b]}))|].
    + intros c Hc%Hin. set_solver.
    + pose proof (size_add (log_set t (i_d x) ∪ {[ind_of di']}) b). pose proof (size_add (log_set t (i_d x)) (ind_of di')). lia.
  - rewrite (Hk H0). destruct (Z.eqb_spec (ind_of (i_d x)) 0); [done|]. specialize (Hkeep (Hk H0)). lia.
Qed.

Lemma nfree_upd v b d : b <> sb_bmapstart sb -> nfree (upd v b d) sb = nfree v sb.
Proof. intros Hb. unfold nfree, free_list, used. by rewrite upd_other. Qed.

(** ** [writei] *)

(** After [writei]'s loop. *)
Record wloop_post (s : fstate S) t (ip : nat) (x : inode) (off : Z) (d : list Z) (k : nat)
    (s' : fstate S) (t' : tview) (di' : dinode) : Prop := {
  wl_rep : fsrep start sz None s' t';
  wl_icache : icache s' = <[ip := set_i_d di' x]> (icache s);
  wl_sb : fs_sb s' = fs_sb s;
  wl_cwd : cwd s' = cwd s;
  wl_wrote : wrote (tv t) (i_d x) (tv t') di' off d;
  wl_meta : meta_used (tv t') sb;
  wl_held : th t' = ∅;
  wl_pot : (pot t' di' <= pot t (i_d x) + k)%nat;
  wl_n : tn t' = tn t;
  wl_free : (nfree (tv t) sb <= nfree (tv t') sb + 2 * k)%nat;
}.

Lemma wp_writei_loop fuel ip x src off left Q s t :
  fsrep start sz None s t -> fs_sb s = sb -> icache s !! ip = Some x -> i_dev x = ROOTDEV ->
  file_ok (tv t) sb (i_d x) -> meta_used (tv t) sb -> th t = ∅ ->
  1 <= tn t -> (2 * fuel <= nfree (tv t) sb)%nat -> Z.of_nat (pot t (i_d x) + fuel) + 7 < sz ->
  0 <= off -> 0 <= left <= Z.of_nat (length src) -> off + left <= MAXFILE * Z.of_nat BSIZE ->
  (0 < left -> off mod Z.of_nat BSIZE + left <= Z.of_nat BSIZE * Z.of_nat fuel) ->
  (forall s' t' di', wloop_post s t ip x off (take (Z.to_nat left) src) fuel s' t' di' -> Q tt s') ->
  wp E (writei_loop fuel ip src off left) Q s.
Proof.
  revert x src off left Q s t. induction fuel as [|fuel IH];
    intros x src off left Q s t Hs Hsb Hx Hdev Hfo Hmu Hth Htn Hnf Hpot Hoff Hleft Hmax Hfuel HQ.
  all: cbn [writei_loop]; destruct (Z.leb_spec left 0) as [Hl0|Hl0].
  1, 3: apply wp_ret; apply (HQ s t (i_d x)); replace left with 0 by lia; split; try done;
    [by rewrite set_i_d_same, list_insert_id|by apply wrote_refl|lia|lia].
  { pose proof (Z.mod_pos_bound off (Z.of_nat BSIZE) eq_refl). specialize (Hfuel Hl0). lia. }
  set (m := Z.min left (Z.of_nat BSIZE - off mod Z.of_nat BSIZE)).
  pose proof (Z.mod_pos_bound off (Z.of_nat BSIZE) eq_refl) as Hmb. assert (Hm : 0 < m <= left) by lia.
  apply wp_bind. eapply wp_geti; [exact Hx|]. apply wp_bind. rewrite Hdev.
  eapply wp_bmap; [exact Hs|done|exact Hx|done|done|done|done|apply bn_range; lia|lia|eapply (pot_room _ _ _ (i_d x)); [done|done|done|lia]|].
  intros b s1 t1 di1 Hp. pose proof Hp as [H1 Hic1 Hsb1 Hcw1 Hmp1 Hsl1 Hb0 Hth1 _ Hnf1 Hsm1 Htn1].
  pose proof (mp_ok _ _ _ _ _ Hmp1) as Hfo1.
  assert (Hpr : 0 <= pos (off / Z.of_nat BSIZE) < NSLOT) by (apply pos_range, bn_range; lia).
  assert (Hbd : data sb b) by (rewrite <-Hsl1; apply (fo_data _ _ _ Hfo1); [done|by rewrite Hsl1]).
  destruct (data_range _ _ _ _ Hly Hbd) as (Hbr & Hbl & Hbm & _).
  assert (Hlen : length (tv t1 b) = BSIZE) by by eapply fsrep_length.
  destruct (pot_round s t ip x (off / Z.of_nat BSIZE) b s1 t1 di1 [] Hp) as [_ Hpot1].
  apply wp_bind. eapply wp_f_bread; [exact H1|done|by apply none_held_any|eapply (pot_room _ _ _ di1); [done|done|lia|lia]|].
  intros bp l2 Hbp H2. assert (Hli : th (hold bp b t1) !! bp = Some b) by apply lookup_insert_eq.
  set (chunk := take (Z.to_nat m) src).
  assert (Hlc : length chunk = Z.to_nat m) by (unfold chunk; rewrite length_take; lia).
  rewrite rd_bytes_Some by lia. rewrite drop_0. fold chunk. apply wp_bind, wp_ret, wp_bind.
  eapply wp_f_get; [exact H2|exact Hli|]. cbn [tv hold].
  destruct (wr_bytes (tv t1 b) (Z.to_nat (off mod Z.of_nat BSIZE)) chunk) as [d'|] eqn:Hd'.
  2: { rewrite wr_bytes_Some in Hd'; [done|]. rewrite Hlen, Hlc. fs_lia. }
  pose proof (wr_bytes_length _ _ _ _ Hd') as Hld. apply wp_bind, wp_ret.
  eapply wp_f_write; [exact H2|exact Hli|done|done|lia|apply room_hold; [eapply (pot_room _ _ _ di1); [done|done|lia|lia]|done]|].
  intros l3 H3. apply wp_bind. eapply wp_f_brelse; [exact H3|exact Hli|]. intros l4 H4.
  rewrite unhold_hold_log in H4 by done.
  destruct (pot_round s t ip x (off / Z.of_nat BSIZE) b s1 t1 di1 d' Hp) as [Hpot2 _].
  assert (Hw : wrote (tv t) (i_d x) (tv (put_log b d' t1)) di1 off chunk).
  { eapply wrote_chunk; [exact Hmp1|done|rewrite Hlc; lia|rewrite Hlc; lia| |done|done|done|done].
    intros He. rewrite He in Hlc. simpl in Hlc. lia. }
  eapply (IH (set_i_d di1 x) (drop (Z.to_nat m) src)); [exact H4| | |done|apply Hw| |done|simpl; lia| | |lia|rewrite length_drop; lia|lia| |].
  { cbn [fs_sb set_lst]. congruence. }
  { cbn [icache set_lst]. rewrite Hic1. apply list_lookup_insert_eq. by eapply lookup_lt_Some. }
  { intros c Hc. cbn [tv put_log]. unfold used. rewrite upd_other by done. by eapply (meta_used_mapped start sz). }
  { cbn [tv put_log]. rewrite nfree_upd by done. lia. }
  { simpl (i_d _). lia. }
  { intros Hl. exact (next_round off left fuel Hoff (Hfuel ltac:(lia)) Hl). }
  intros s' t' di' [Hr' Hic' Hsb' Hcw' Hw' Hme' Hth' Hpot' Htn' Hfr']. apply (HQ s' t' di'). split; try done.
  - rewrite Hic'. cbn [icache set_lst]. rewrite Hic1. by rewrite list_insert_insert_eq.
  - rewrite Hsb'. done.
  - rewrite Hcw'. done.
  - replace (take (Z.to_nat left) src) with (chunk ++ take (Z.to_nat (left - m)) (drop (Z.to_nat m) src)).
    + eapply wrote_trans; [exact Hw| |done|rewrite length_app, Hlc, length_take; lia]. rewrite Hlc, Z2Nat.id by lia. exact Hw'.
    + unfold chunk. rewrite take_take_drop. f_equal. lia.
  - simpl (i_d _) in Hpot'. lia.
  - simpl in Htn'. congruence.
  - cbn [tv put_log] in Hfr'. rewrite nfree_upd in Hfr' by done. lia.
Qed.

End File.
