(* ===== verification/FsWrite.v ===== *)
(** * Writing files and the file-level theorems

    The rule of [writei], which also writes the inode when the file grows, and
    the properties of allocation, inodes, reading and writing. *)

From stdpp Require Import base numbers list gmap sets strings.
From S2P Require Import Prelude Strings Bytes Machine Ide Store Log LogSpec LogTheorems Fs FsTxn FsAlloc FsInode FsFile.

Open Scope Z_scope.

(** The file system with [d] written at [off] of the file [inum]: its bytes and
    its size, its inode on disk, and what stays of everything else. *)
Record written_file (sb : superblock) (inum : Z) (v : Z -> list Z) (di : dinode)
    (v' : Z -> list Z) (di' : dinode) (off : Z) (d : list Z) : Prop := {
  wf_ok : file_ok v' sb di';
  wf_bytes o : 0 <= o < MAXFILE * Z.of_nat BSIZE -> byte_at v' di' o = overlay (byte_at v di) off d o;
  wf_size : di_size di' = Z.max (di_size di) (off + Z.of_nat (length d));
  wf_full : full v di -> full v' di';
  wf_meta : meta_used v' sb;
  wf_dinode : full v di -> dinode_at v sb inum = Some di -> dinode_at v' sb inum = Some di';
  wf_others j : 0 < j < sb_ninodes sb -> j <> inum -> dinode_at v' sb j = dinode_at v sb j;
  wf_frame c : data sb c -> used v sb c = true ->
    (forall p, 0 <= p < NSLOT -> slot v di p <> 0 -> slot v di p <> c) -> v' c = v c;
  wf_super : v' 1 = v 1;
  wf_keep p : 0 <= p < NSLOT -> slot v di p <> 0 -> slot v' di' p = slot v di p;
  wf_new p : 0 <= p < NSLOT -> slot v di p = 0 -> slot v' di' p <> 0 -> used v sb (slot v' di' p) = false;
  wf_used c : 0 <= c < sb_size sb -> used v sb c = true -> used v' sb c = true;
  wf_fields : di_type di' = di_type di /\ di_nlink di' = di_nlink di /\ di_mode di' = di_mode di /\
    di_uid di' = di_uid di /\ di_gid di' = di_gid di;
}.

Section Write.
Context {S : Type} {BC : BufferCache S} {BS : BufferCacheSpec S}.
Context (start sz : Z) {E : error -> Prop} (sb : superblock).
Hypothesis Hly : layout start sz sb.
Context {DV : Devsw S}.
Implicit Types (s : fstate S) (t : tview).

Lemma iblock_not_data inum b : 0 < inum < sb_ninodes sb -> data sb b -> b <> IBLOCK inum sb.
Proof. intros Hi Hb. destruct (iblock_range start sz sb inum Hly Hi) as (_ & _ & Hlt & _). unfold data in Hb. lia. Qed.

(** The inode block of a file may change without changing its contents. *)
Lemma slot_inode_block v di inum d p : file_ok v sb di -> 0 < inum < sb_ninodes sb ->
  slot (upd v (IBLOCK inum sb) d) di p = slot v di p.
Proof.
  intros Hfo Hi. unfold slot at 1 2. destruct (p <=? NDIRECT); [done|].
  change (default 0 (di_addrs di !! Z.to_nat NDIRECT)) with (slot v di NDIRECT).
  destruct (Z.eqb_spec (slot v di NDIRECT) 0) as [|Hne]; [done|]. rewrite upd_other; [done|].
  apply iblock_not_data; [done|]. by apply (fo_data _ _ _ Hfo).
Qed.

Lemma slot_size v di n p : slot v (set_di_size n di) p = slot v di p.
Proof. done. Qed.

Lemma bytes_inode_block v di inum d n o : file_ok v sb di -> 0 < inum < sb_ninodes sb ->
  0 <= o < MAXFILE * Z.of_nat BSIZE -> byte_at (upd v (IBLOCK inum sb) d) (set_di_size n di) o = byte_at v di o.
Proof.
  intros Hfo Hi Ho. unfold byte_at. rewrite slot_size, slot_inode_block by done.
  destruct (Z.eqb_spec (slot v di (pos (o / Z.of_nat BSIZE))) 0) as [|Hne]; [done|]. rewrite upd_other; [done|].
  apply iblock_not_data; [done|]. apply (fo_data _ _ _ Hfo); [|done]. by apply pos_range, bn_range.
Qed.

Lemma used_inode_block v inum d c : 0 < inum < sb_ninodes sb -> used (upd v (IBLOCK inum sb) d) sb c = used v sb c.
Proof.
  intros Hi. unfold used. rewrite upd_other; [done|].
  destruct (iblock_range start sz sb inum Hly Hi) as (_ & _ & Hlt & _). lia.
Qed.

Lemma file_ok_inode_block v di inum d n : file_ok v sb di -> 0 < inum < sb_ninodes sb -> 0 <= n < 2 ^ 32 ->
  file_ok (upd v (IBLOCK inum sb) d) sb (set_di_size n di).
Proof.
  intros Hfo Hi Hn. split.
  - pose proof (fo_di _ _ _ Hfo) as []. by split.
  - intros p Hp. rewrite slot_size, slot_inode_block, used_inode_block by done. by apply (fo_data _ _ _ Hfo).
  - intros p q Hp Hq. rewrite !slot_size, !slot_inode_block by done. by apply (fo_inj _ _ _ Hfo).
Qed.

(** The blocks of inodes are not blocks of files. *)
Lemma dinode_at_frame v v' di : file_ok v sb di -> meta_used v sb ->
  (forall c, 0 <= c < sb_size sb -> used v sb c = true -> c <> sb_bmapstart sb ->
     (forall p, 0 <= p < NSLOT -> slot v di p <> 0 -> slot v di p <> c) -> v' c = v c) ->
  forall j, 0 < j < sb_ninodes sb -> v' (IBLOCK j sb) = v (IBLOCK j sb).
Proof.
  intros Hfo Hmu Hfr j Hj. destruct (iblock_range start sz sb j Hly Hj) as (Hr & _ & Hlt & _).
  pose proof (ly_data _ _ _ Hly). apply Hfr; [lia|apply Hmu; lia|lia|].
  intros p Hp Hne. apply iblock_not_data; [done|]. by apply (fo_data _ _ _ Hfo).
Qed.

Lemma length_take_src {A} (src : list A) n : 0 <= n <= Z.of_nat (length src) -> Z.of_nat (length (take (Z.to_nat n) src)) = n.
Proof. intros H. rewrite length_take. lia. Qed.

Lemma bmap_after : 1 < sb_bmapstart sb < sb_size sb.
Proof.
  destruct Hly. assert (0 <= sb_ninodes sb / IPB) by (apply Z.div_pos; [done|reflexivity]). lia.
Qed.

Lemma data_meta c : data sb c -> 0 <= c < sb_size sb /\ c <> sb_bmapstart sb /\ c <> 1.
Proof. unfold data. pose proof bmap_after. lia. Qed.

(** The super block stays. *)
Lemma super_frame v di v1 di1 off d : file_ok v sb di -> meta_used v sb -> wrote sb v di v1 di1 off d -> v1 1 = v 1.
Proof.
  intros Hfo Hmu Hw. pose proof bmap_after. apply (wr_frame _ _ _ _ _ _ _ Hw); [lia|apply Hmu; lia|lia|].
  intros p Hp Hne He. pose proof (fo_data _ _ _ Hfo p Hp Hne) as [Hd _]. unfold data in Hd. lia.
Qed.

(** The effect without growth, and with it. *)
Lemma written_same inum v di v1 di1 off d : 0 < inum < sb_ninodes sb -> meta_used v sb -> file_ok v sb di -> meta_used v1 sb ->
  wrote sb v di v1 di1 off d -> 0 <= off -> off + Z.of_nat (length d) <= di_size di ->
  written_file sb inum v di v1 di1 off d.
Proof.
  intros Hinum Hmu Hfo Hmu1 Hw Hoff Hin. pose proof (wr_meta _ _ _ _ _ _ _ Hw) as Hm.
  assert (Hsz : di_size di1 = di_size di) by by rewrite Hm.
  assert (Hfr := dinode_at_frame v v1 di Hfo Hmu (wr_frame _ _ _ _ _ _ _ Hw)).
  assert (Hsame : full v di -> di1 = di).
  { intros [Hmax Hf]. apply (wr_same _ _ _ _ _ _ _ Hw). intros o Ho. apply Hf. lia. }
  split; try assumption.
  - apply Hw.
  - apply Hw.
  - lia.
  - intros Hf. destruct Hf as [Hmax Hf]. split; [by rewrite Hsz|]. intros o Ho. rewrite Hsz in Ho.
    rewrite (wr_keep _ _ _ _ _ _ _ Hw); [by apply Hf| |by apply Hf]. apply pos_range, bn_range. lia.
  - intros Hf Hd. rewrite (Hsame Hf). unfold dinode_at in *. by rewrite Hfr.
  - intros j Hj _. unfold dinode_at. by rewrite Hfr.
  - intros c Hc Hu Hp. destruct (data_meta c Hc) as (? & ? & _). by apply (wr_frame _ _ _ _ _ _ _ Hw).
  - by eapply super_frame.
  - apply Hw.
  - apply Hw.
  - apply Hw.
  - by rewrite Hm.
Qed.

Lemma written_grow inum v di v1 di1 off d n ib : 0 < inum < sb_ninodes sb -> meta_used v sb ->
  file_ok v sb di -> meta_used v1 sb -> wrote sb v di v1 di1 off d -> length (v1 (IBLOCK inum sb)) = BSIZE ->
  n = off + Z.of_nat (length d) -> 0 <= off <= di_size di -> di_size di < n <= MAXFILE * Z.of_nat BSIZE ->
  encode_dinode (v1 (IBLOCK inum sb)) (dinode_off inum) (set_di_size n di1) = Some ib ->
  written_file sb inum v di (upd v1 (IBLOCK inum sb) ib) (set_di_size n di1) off d.
Proof.
  intros Hinum Hmu Hfo Hmu1 Hw Hl Hn Hoff Hsz He. pose proof (wr_meta _ _ _ _ _ _ _ Hw) as Hm.
  pose proof (wr_ok _ _ _ _ _ _ _ Hw) as Hfo1.
  assert (Hn32 : 0 <= n < 2 ^ 32) by (pose proof (do_size _ (fo_di _ _ _ Hfo)); fs_lia).
  pose proof (file_ok_inode_block v1 di1 inum ib n Hfo1 Hinum Hn32) as Hfo2.
  destruct (dinode_at_put start sz v1 sb inum (set_di_size n di1) ib Hly Hinum (fo_di _ _ _ Hfo2) Hl He) as [Hat Hot].
  assert (Hfr := dinode_at_frame v v1 di Hfo Hmu (wr_frame _ _ _ _ _ _ _ Hw)).
  split; try assumption.
  - intros o Ho. rewrite bytes_inode_block by done. by apply (wr_bytes_at _ _ _ _ _ _ _ Hw).
  - simpl. lia.
  - intros [Hmax Hf]. split; [simpl; lia|]. intros o Ho. simpl in Ho. rewrite slot_size, slot_inode_block by done.
    destruct (decide (o < off)).
    + rewrite (wr_keep _ _ _ _ _ _ _ Hw); [apply Hf; lia| |apply Hf; lia]. apply pos_range, bn_range. lia.
    + apply (wr_here _ _ _ _ _ _ _ Hw). lia.
  - intros b Hb. rewrite used_inode_block by done. by apply Hmu1.
  - intros _ _. exact Hat.
  - intros j Hj Hne. rewrite Hot by (done || lia). unfold dinode_at. by rewrite Hfr.
  - intros c Hc Hu Hp. destruct (data_meta c Hc) as (? & ? & ?). rewrite upd_other by (by apply iblock_not_data).
    by apply (wr_frame _ _ _ _ _ _ _ Hw).
  - destruct (iblock_range start sz sb inum Hly Hinum) as (_ & _ & _ & Hne). rewrite upd_other by done. by eapply super_frame.
  - intros p Hp Hne. rewrite slot_size, slot_inode_block by done. by apply (wr_keep _ _ _ _ _ _ _ Hw).
  - intros p Hp H0. rewrite slot_size, slot_inode_block by done. by apply (wr_new _ _ _ _ _ _ _ Hw).
  - intros c Hc Hu. rewrite used_inode_block by done. by apply (wr_used _ _ _ _ _ _ _ Hw).
  - by rewrite Hm.
Qed.

(** The bytes written are read back. *)
Lemma file_bytes_written inum v di v' di' off d : written_file sb inum v di v' di' off d -> 0 <= off ->
  off + Z.of_nat (length d) <= MAXFILE * Z.of_nat BSIZE -> file_bytes v' di' off (Z.of_nat (length d)) = d.
Proof.
  intros Hw Hoff Hmax. unfold file_bytes. apply list_eq. intros i. rewrite list_lookup_fmap.
  destruct (decide (Z.of_nat i < Z.of_nat (length d))) as [Hi|Hi].
  - rewrite (proj2 (lookup_seqZ off (Z.of_nat (length d)) i (off + Z.of_nat i))) by lia. simpl.
    rewrite (wf_bytes _ _ _ _ _ _ _ _ Hw) by lia. unfold overlay.
    destruct (Z.leb_spec off (off + Z.of_nat i)); [|lia]. destruct (Z.ltb_spec (off + Z.of_nat i) (off + Z.of_nat (length d))); [|lia].
    cbn [andb]. replace (Z.to_nat (off + Z.of_nat i - off)) with i by lia.
    destruct (lookup_lt_is_Some_2 d i) as [z Hz]; [lia|]. by rewrite Hz.
  - rewrite lookup_seqZ_ge by lia. simpl. symmetry. apply lookup_ge_None. lia.
Qed.

Lemma pot_start t di : (pot sb t di <= length (tl t) + 2)%nat.
Proof.
  unfold pot, log_set. pose proof (pinned_size (list_to_set (tl t)) (tl t) ltac:(done)) as Hl.
  pose proof (size_add (list_to_set (tl t)) (sb_bmapstart sb)) as H1.
  destruct (Z.eqb_spec (ind_of di) 0) as [H0|H0].
  - pose proof (subseteq_size ((list_to_set (tl t) ∪ {[sb_bmapstart sb; ind_of di]}) ∖ {[0]})
      (list_to_set (tl t) ∪ {[sb_bmapstart sb]} : gset Z)) as H2. rewrite H0 in *. specialize (H2 ltac:(set_solver)). lia.
  - pose proof (size_add (list_to_set (tl t) ∪ {[sb_bmapstart sb]}) (ind_of di)) as H3.
    pose proof (subseteq_size ((list_to_set (tl t) ∪ {[sb_bmapstart sb; ind_of di]}) ∖ {[0]})
      (list_to_set (tl t) ∪ {[sb_bmapstart sb]} ∪ {[ind_of di]} : gset Z)) as H2. specialize (H2 ltac:(set_solver)). lia.
Qed.

(** After [writei]. *)
Record writei_post (s : fstate S) t (ip : nat) (x : inode) (off : Z) (d : list Z) (s' : fstate S) (t' : tview) (di' : dinode) : Prop := {
  wp_rep : fsrep start sz None s' t';
  wp_icache : icache s' = <[ip := set_i_d di' x]> (icache s);
  wp_sb : fs_sb s' = fs_sb s;
  wp_cwd : cwd s' = cwd s;
  wp_held : th t' = ∅;
  wp_file : written_file sb (i_inum x) (tv t) (i_d x) (tv t') di' off d;
  wp_n : tn t' = tn t;
  wp_free : (nfree (tv t) sb <= nfree (tv t') sb + 2 * rounds (Z.of_nat (length d)))%nat;
}.

(** [writei] refuses a write past the largest file or after the end of the file. *)
Definition write_refused (di : dinode) (off n : Z) : bool :=
  (di_size di <? off) || (MAXFILE * Z.of_nat BSIZE <? off + n).

Lemma wp_writei ip x src off n Q s t :
  fsrep start sz None s t -> fs_sb s = sb -> icache s !! ip = Some x -> i_dev x = ROOTDEV ->
  0 < i_inum x < sb_ninodes sb -> file_ok (tv t) sb (i_d x) -> meta_used (tv t) sb -> th t = ∅ ->
  di_type (i_d x) <> T_DEV -> 0 <= off < 2 ^ 32 -> 0 <= n < 2 ^ 32 ->
  (if write_refused (i_d x) off n then Q (-1) s
   else 1 <= tn t /\ n <= Z.of_nat (length src) /\ (2 * rounds n <= nfree (tv t) sb)%nat /\
     Z.of_nat (length (tl t) + rounds n) + 9 < sz /\
     forall s' t' di', writei_post s t ip x off (take (Z.to_nat n) src) s' t' di' -> Q n s') ->
  wp E (writei ip src off n) Q s.
Proof.
  intros Hs Hsb Hx Hdev Hin Hfo Hmu Hth Hty Hoff Hn HQ. pose proof (do_size _ (fo_di _ _ _ Hfo)) as Hsz.
  unfold writei. apply wp_bind. eapply wp_geti; [exact Hx|]. destruct (Z.eqb_spec (di_type (i_d x)) T_DEV); [done|].
  rewrite u32_wraps by done. unfold write_refused in HQ.
  destruct (Z.ltb_spec (di_size (i_d x)) off) as [Hlt|Hle]; [by apply wp_ret|].
  destruct (Z.leb_spec (2 ^ 32) (off + n)) as [Hov|Hov]; cbn [orb].
  { apply wp_ret. cbn [orb] in HQ. destruct (Z.ltb_spec (MAXFILE * Z.of_nat BSIZE) (off + n)); [done|fs_lia]. }
  rewrite u32_small by lia. cbn [orb] in HQ.
  destruct (Z.ltb_spec (MAXFILE * Z.of_nat BSIZE) (off + n)) as [Hmx|Hmx]; [by apply wp_ret|].
  destruct HQ as (Htn & Hsrc & Hnf & Hroom & HQ).
  pose proof (pot_start t (i_d x)) as Hpot.
  apply wp_bind. eapply wp_writei_loop; [done|exact Hs|done|exact Hx|done|done|done|done|done|done|lia|lia|lia|lia|intros _; apply rounds_enough; lia|].
  intros s1 t1 di1 [H1 Hic1 Hsb1 Hcw1 Hw1 Hmu1 Hth1 Hpot1 Htn1 Hfr1]. set (d := take (Z.to_nat n) src) in *.
  assert (Hld : Z.of_nat (length d) = n) by (apply length_take_src; lia).
  assert (Hx1 : icache s1 !! ip = Some (set_i_d di1 x)).
  { rewrite Hic1. apply list_lookup_insert_eq. by eapply lookup_lt_Some. }
  apply wp_bind. eapply wp_geti; [exact Hx1|]. simpl (i_d _).
  assert (Hsz1 : di_size di1 = di_size (i_d x)) by (by rewrite (wr_meta _ _ _ _ _ _ _ Hw1)). rewrite Hsz1.
  assert (Hs32 : s32 n = n) by (apply s32_id; fs_lia). rewrite Hs32.
  destruct (Z.ltb_spec 0 n) as [Hn0|Hn0], (Z.ltb_spec (di_size (i_d x)) (off + n)) as [Hg|Hg]; cbn [andb]; unfold when.
  2, 3, 4: apply wp_bind, wp_ret, wp_ret; apply (HQ s1 t1 di1); split; try assumption;
    [apply written_same; try assumption; lia|by rewrite Hld].
  destruct (iblock_range start sz sb (i_inum x) Hly Hin) as (Hbr & _).
  assert (Hl1 : length (tv t1 (IBLOCK (i_inum x) sb)) = BSIZE) by by eapply fsrep_length.
  apply wp_bind, wp_bind. unfold modd. eapply wp_modi; [exact Hx1|]. simpl (i_d (set_i_d _ _)).
  eapply (wp_iupdate start sz sb Hly); [exact H1|simpl; congruence|simpl; apply list_lookup_insert_eq; by eapply lookup_lt_Some|done|done| | | |].
  { pose proof (fo_di _ _ _ (wr_ok _ _ _ _ _ _ _ Hw1)) as []. split; try done. simpl. fs_lia. }
  { by apply none_held_any. }
  { eapply (pot_room start sz sb Hly 2 s1 t1 di1); [exact H1|exact Hth1|lia|lia]. }
  intros l2 d2 He Hl2 H2. apply wp_ret. simpl in He. eapply HQ. split; [exact H2| |exact Hsb1|exact Hcw1|exact Hth1| |exact Htn1|].
  - simpl. by rewrite Hic1, list_insert_insert_eq.
  - simpl. apply written_grow; try assumption; lia.
  - simpl. rewrite Hld, (nfree_upd sb) by (destruct (iblock_range start sz sb (i_inum x) Hly Hin) as (_ & _ & Hlt & _); lia).
    exact Hfr1.
Qed.

End Write.
