(* ===== verification/FsCommit.v ===== *)
(** * Transactions of the file system from their start to their commit

    [begin_op] and [end_op] on what a transaction sees, writes that follow one
    another, and that a commit, which only touches the blocks of the log, changes
    no file. *)

From stdpp Require Import base numbers list gmap sets strings.
From S2P Require Import Prelude Strings Bytes Machine Ide Store Log LogSpec LogTheorems Fs FsTxn FsAlloc FsInode FsFile FsWrite.

Open Scope Z_scope.

Section Agree.
Context (start sz : Z) (sb : superblock).
Hypothesis Hly : layout start sz sb.

(** The same blocks, but for the log. *)
Definition agree (v v' : Z -> list Z) : Prop := forall c, ~ in_log start sz c -> v' c = v c.

Section Views.
Context (v v' : Z -> list Z) (Ha : agree v v').

Lemma used_agree c : used v' sb c = used v sb c.
Proof. unfold used. rewrite Ha; [done|]. apply (bmap_range _ _ _ Hly). Qed.

Lemma data_agree c : data sb c -> v' c = v c.
Proof. intros Hc. apply Ha. destruct (data_range _ _ _ _ Hly Hc) as (_ & Hl & _). done. Qed.

Lemma super_agree : v' 1 = v 1.
Proof. apply Ha. unfold in_log. pose proof (ly_log _ _ _ Hly). lia. Qed.

Lemma dinode_agree j : 0 < j < sb_ninodes sb -> dinode_at v' sb j = dinode_at v sb j.
Proof. intros Hj. unfold dinode_at. rewrite Ha; [done|]. by apply (iblock_range start sz sb j Hly Hj). Qed.

Lemma slot_agree di p : file_ok v sb di -> slot v' di p = slot v di p.
Proof.
  intros Hfo. unfold slot. destruct (p <=? NDIRECT); [done|].
  change (default 0 (di_addrs di !! Z.to_nat NDIRECT)) with (slot v di NDIRECT).
  destruct (Z.eqb_spec (slot v di NDIRECT) 0) as [|Hne]; [done|]. rewrite data_agree; [done|].
  by apply (fo_data _ _ _ Hfo).
Qed.

Lemma byte_agree di o : file_ok v sb di -> 0 <= o < MAXFILE * Z.of_nat BSIZE -> byte_at v' di o = byte_at v di o.
Proof.
  intros Hfo Ho. unfold byte_at. rewrite slot_agree by done.
  destruct (Z.eqb_spec (slot v di (pos (o / Z.of_nat BSIZE))) 0) as [|Hne]; [done|]. rewrite data_agree; [done|].
  apply (fo_data _ _ _ Hfo); [|done]. by apply pos_range, bn_range.
Qed.

Lemma file_ok_agree di : file_ok v sb di -> file_ok v' sb di.
Proof.
  intros Hfo. split.
  - apply Hfo.
  - intros p Hp. rewrite slot_agree, used_agree by done. by apply (fo_data _ _ _ Hfo).
  - intros p q Hp Hq. rewrite !slot_agree by done. by apply (fo_inj _ _ _ Hfo).
Qed.

Lemma full_agree di : file_ok v sb di -> full v di -> full v' di.
Proof. intros Hfo [Hm Hf]. split; [done|]. intros o Ho. rewrite slot_agree by done. by apply Hf. Qed.

Lemma meta_agree : meta_used v sb -> meta_used v' sb.
Proof. intros H b Hb. rewrite used_agree. by apply H. Qed.

Lemma nfree_agree : nfree v' sb = nfree v sb.
Proof. unfold nfree, free_list, used. rewrite Ha; [done|]. apply (bmap_range _ _ _ Hly). Qed.
End Views.

Lemma written_agree inum v di v1 v2 di1 off d : 0 < inum < sb_ninodes sb ->
  agree v1 v2 -> written_file sb inum v di v1 di1 off d -> written_file sb inum v di v2 di1 off d.
Proof.
  intros Hi Ha Hw. pose proof (wf_ok _ _ _ _ _ _ _ _ Hw) as Hfo. split.
  - by apply (file_ok_agree v1).
  - intros o Ho. rewrite (byte_agree v1) by done. by apply (wf_bytes _ _ _ _ _ _ _ _ Hw).
  - exact (wf_size _ _ _ _ _ _ _ _ Hw).
  - intros Hf. apply (full_agree v1); [done|done|]. by apply (wf_full _ _ _ _ _ _ _ _ Hw).
  - apply (meta_agree v1); [done|]. exact (wf_meta _ _ _ _ _ _ _ _ Hw).
  - intros Hf Hd. rewrite (dinode_agree v1) by done. by apply (wf_dinode _ _ _ _ _ _ _ _ Hw).
  - intros j Hj Hne. rewrite (dinode_agree v1) by done. by apply (wf_others _ _ _ _ _ _ _ _ Hw).
  - intros c Hc Hu Hp. rewrite (data_agree v1) by done. by apply (wf_frame _ _ _ _ _ _ _ _ Hw).
  - rewrite (super_agree v1) by done. exact (wf_super _ _ _ _ _ _ _ _ Hw).
  - intros p Hp Hne. rewrite (slot_agree v1) by done. by apply (wf_keep _ _ _ _ _ _ _ _ Hw).
  - intros p Hp H0. rewrite (slot_agree v1) by done. by apply (wf_new _ _ _ _ _ _ _ _ Hw).
  - intros c Hc Hu. rewrite (used_agree v1) by done. by apply (wf_used _ _ _ _ _ _ _ _ Hw).
  - exact (wf_fields _ _ _ _ _ _ _ _ Hw).
Qed.

(** Two writes one after the other are one write. *)
Lemma written_trans inum v di v1 di1 v2 di2 off d1 d2 :
  written_file sb inum v di v1 di1 off d1 ->
  written_file sb inum v1 di1 v2 di2 (off + Z.of_nat (length d1)) d2 ->
  written_file sb inum v di v2 di2 off (d1 ++ d2).
Proof.
  intros H1 H2. assert (Hdata : forall p, 0 <= p < NSLOT -> slot v2 di2 p <> 0 -> 0 <= slot v2 di2 p < sb_size sb).
  { intros p Hp Hne. destruct (fo_data _ _ _ (wf_ok _ _ _ _ _ _ _ _ H2) p Hp Hne) as [Hd _]. unfold data in Hd.
    destruct (bmap_range _ _ _ Hly) as [Hm _]. lia. }
  split.
  - exact (wf_ok _ _ _ _ _ _ _ _ H2).
  - intros o Ho. rewrite (wf_bytes _ _ _ _ _ _ _ _ H2) by done. rewrite <-overlay_app. unfold overlay at 1 2.
    destruct (_ && _); [done|]. by apply (wf_bytes _ _ _ _ _ _ _ _ H1).
  - rewrite (wf_size _ _ _ _ _ _ _ _ H2), (wf_size _ _ _ _ _ _ _ _ H1), length_app. lia.
  - intros Hf. by apply (wf_full _ _ _ _ _ _ _ _ H2), (wf_full _ _ _ _ _ _ _ _ H1).
  - exact (wf_meta _ _ _ _ _ _ _ _ H2).
  - intros Hf Hd. apply (wf_dinode _ _ _ _ _ _ _ _ H2); [by apply (wf_full _ _ _ _ _ _ _ _ H1)|].
    by apply (wf_dinode _ _ _ _ _ _ _ _ H1).
  - intros j Hj Hne. rewrite (wf_others _ _ _ _ _ _ _ _ H2) by done. by apply (wf_others _ _ _ _ _ _ _ _ H1).
  - intros c Hc Hu Hp. rewrite (wf_frame _ _ _ _ _ _ _ _ H2 c Hc).
    + by apply (wf_frame _ _ _ _ _ _ _ _ H1).
    + apply (wf_used _ _ _ _ _ _ _ _ H1); [|done]. unfold data in Hc. destruct (bmap_range _ _ _ Hly) as [Hm _]. lia.
    + intros p Hpr Hne <-. destruct (decide (slot v di p = 0)) as [H0|H0].
      * by rewrite (wf_new _ _ _ _ _ _ _ _ H1 p Hpr H0 Hne) in Hu.
      * apply (Hp p Hpr H0). by rewrite (wf_keep _ _ _ _ _ _ _ _ H1).
  - rewrite (wf_super _ _ _ _ _ _ _ _ H2). exact (wf_super _ _ _ _ _ _ _ _ H1).
  - intros p Hp Hne. pose proof (wf_keep _ _ _ _ _ _ _ _ H1 p Hp Hne) as He.
    rewrite (wf_keep _ _ _ _ _ _ _ _ H2); [done|done|congruence].
  - intros p Hp H0 Hne. destruct (decide (slot v1 di1 p = 0)) as [Hz|Hz].
    + pose proof (wf_new _ _ _ _ _ _ _ _ H2 p Hp Hz Hne) as Hf.
      destruct (used v sb (slot v2 di2 p)) eqn:Hu; [|done].
      rewrite (wf_used _ _ _ _ _ _ _ _ H1) in Hf; [done|by apply Hdata|done].
    + rewrite (wf_keep _ _ _ _ _ _ _ _ H2) by done. by apply (wf_new _ _ _ _ _ _ _ _ H1).
  - intros c Hc Hu. apply (wf_used _ _ _ _ _ _ _ _ H2); [done|]. by apply (wf_used _ _ _ _ _ _ _ _ H1).
  - destruct (wf_fields _ _ _ _ _ _ _ _ H1) as (<- & <- & <- & <- & <-). exact (wf_fields _ _ _ _ _ _ _ _ H2).
Qed.

Lemma written_nothing inum v di off : file_ok v sb di -> meta_used v sb -> 0 <= off <= di_size di ->
  written_file sb inum v di v di off [].
Proof.
  intros Hfo Hmu Hoff. split; try done.
  - intros o _. by rewrite overlay_nil.
  - simpl. lia.
Qed.
End Agree.

Section Txns.
Context {S : Type} {BC : BufferCache S} {BS : BufferCacheSpec S} {DV : Devsw S}.
Context (start sz : Z) {E : error -> Prop}.
Implicit Types (s : fstate S) (t : tview).

(** No operation under way, nothing logged, no buffer in use. *)
Record idle (t : tview) : Prop := {
  id_held : th t = ∅;
  id_logged : tl t = [];
  id_ops : tn t = 0;
}.

Definition set_tn (n : Z) (t : tview) : tview := mktv (tv t) (th t) (tl t) n.

Lemma wp_f_begin_op Q s t : fsrep start sz None s t -> idle t ->
  (forall l, fsrep start sz None (set_lst l s) (set_tn 1 t) -> Q tt (set_lst l s)) -> wp E (inlog begin_op) Q s.
Proof.
  intros [a [Hr Hi Hv Hh Hc Ho]] [Hth Htl Htn] HQ. rewrite Htn in Ho. injection Ho as Hout Hcom.
  destruct (begin_op_ok (fs_lst s) a) as (t' & H1 & Hr1); [done|done| |].
  { rewrite Hout, (ls_n _ _ _ (li_logs _ _ _ _ _ Hi)), Htl. unfold LOGSIZE, MAXOPBLOCKS. simpl. lia. }
  eapply wp_inlog; [exact H1|]. apply HQ. exists a. split; try done.
  - pose proof (log_inv_ops _ _ _ _ _ (outstanding (lg (fs_lst s)) + 1) (committing (lg (fs_lst s))) Hi) as Hi'. done.
  - unfold ops. simpl. by rewrite Hout, Hcom.
Qed.

(** The commit leaves the file system as the transaction saw it, on the disk. *)
Lemma wp_f_end_op Q s t : fsrep start sz None s t -> th t = ∅ -> tn t = 1 ->
  (forall l t', fsrep start sz None (set_lst l s) t' -> idle t' -> agree start sz (tv t) (tv t') -> Q tt (set_lst l s)) ->
  wp E (inlog end_op) Q s.
Proof.
  intros [a [Hr Hi Hv Hh Hc Ho]] Hth Htn HQ. rewrite Htn in Ho.
  destruct (end_op_last start sz (tl t) (fs_lst s) a) as (ws & l' & H1 & Hr1 & Hi1 & Ho1 & Hd1 & _); [done|done|by rewrite Hh|done|].
  destruct (put_all_fields ws a) as (_ & _ & _ & _ & Hh1).
  assert (Hvd : forall c, st_view (put_all ws a) c = st_disk (put_all ws a) c).
  { intros c. eapply view_disk; [exact Hr1|]. rewrite idle_in_use, (li_pinned _ _ _ _ _ Hi1) by (by rewrite Hh1, Hh). set_solver. }
  eapply wp_inlog; [exact H1|]. apply (HQ l' (mktv (st_view (put_all ws a)) ∅ [] 0)).
  - exists (put_all ws a). split; try done; [by rewrite Hh1, Hh|]. intros b _. simpl. by rewrite Hvd.
  - by split.
  - intros c Hc'. simpl. by rewrite Hvd, Hd1, <-Hv.
Qed.
End Txns.
