(* ===== verification/FsDir.v ===== *)
(** * Directories (fs.c: dirlookup, dirlink)

    A directory is a file of 16-byte entries, an inode number and a name of up to
    14 characters; number 0 marks a free entry. *)

From stdpp Require Import base numbers list gmap sets strings.
From S2P Require Import Prelude Strings Bytes Machine Ide Store Log LogSpec LogTheorems Fs FsTxn FsAlloc FsInode FsFile FsWrite.

Open Scope Z_scope.

(** The part of a name that counts. *)
Definition fname (name : list Z) : list Z := take DIRSIZ (cstr name).

Definition dent (v : Z -> list Z) (di : dinode) (k : Z) : list Z := file_bytes v di (16 * k) 16.
Definition dent_inum (v : Z -> list Z) (di : dinode) (k : Z) : Z := default 0 (get16 (dent v di k) 0).
Definition dent_name (v : Z -> list Z) (di : dinode) (k : Z) : list Z := drop 2 (dent v di k).

Definition matches (v : Z -> list Z) (di : dinode) (name : list Z) (k : Z) : bool :=
  negb (dent_inum v di k =? 0) && bool_decide (fname name = fname (dent_name v di k)).

(** The offset and the inode number of the first entry for [name] among [n]
    entries from entry [k] on. *)
Fixpoint dir_scan (v : Z -> list Z) (di : dinode) (name : list Z) (n : nat) (k : Z) : option (Z * Z) :=
  match n with
  | O => None
  | S n => if matches v di name k then Some (16 * k, dent_inum v di k) else dir_scan v di name n (k + 1)
  end.

Definition entries (di : dinode) : nat := Z.to_nat (di_size di / 16).
Definition dir_find (v : Z -> list Z) (di : dinode) (name : list Z) : option (Z * Z) :=
  dir_scan v di name (entries di) 0.

(** The first free entry among [n] from [k] on, or the one after them. *)
Fixpoint dir_free (v : Z -> list Z) (di : dinode) (n : nat) (k : Z) : Z :=
  match n with
  | O => k
  | S n => if dent_inum v di k =? 0 then k else dir_free v di n (k + 1)
  end.

Record dir_ok (v : Z -> list Z) (sb : superblock) (di : dinode) : Prop := {
  dk_file : file_ok v sb di;
  dk_full : full v di;
  dk_type : di_type di = T_DIR;
  dk_size : di_size di mod 16 = 0;
}.

Lemma length_dent v di k : length (dent v di k) = 16%nat.
Proof. unfold dent, file_bytes. by rewrite length_fmap, length_seqZ. Qed.

Lemma dent_get16 v di k : get16 (dent v di k) 0 = Some (dent_inum v di k).
Proof.
  unfold dent_inum, get16. rewrite rd_bytes_Some; [done|]. rewrite length_dent. lia.
Qed.

Lemma dir_size v sb di : dir_ok v sb di -> di_size di = 16 * Z.of_nat (entries di).
Proof.
  intros H. pose proof (dk_size _ _ _ H) as Hm. pose proof (do_size _ (fo_di _ _ _ (dk_file _ _ _ H))) as Hs.
  unfold entries. rewrite Z2Nat.id by (apply Z.div_pos; lia). pose proof (Z.div_mod (di_size di) 16). lia.
Qed.

(** ** Scans *)

Lemma dir_scan_none v di name n k : dir_scan v di name n k = None ->
  forall j, k <= j < k + Z.of_nat n -> matches v di name j = false.
Proof.
  revert k. induction n as [|n IH]; intros k H j Hj; [lia|]. cbn [dir_scan] in H.
  destruct (matches v di name k) eqn:Hm; [done|]. destruct (decide (j = k)) as [->|]; [done|]. apply (IH (k + 1)); [done|lia].
Qed.

Lemma dir_scan_first v di name n k j : k <= j < k + Z.of_nat n -> matches v di name j = true ->
  (forall i, k <= i < j -> matches v di name i = false) ->
  dir_scan v di name n k = Some (16 * j, dent_inum v di j).
Proof.
  revert k. induction n as [|n IH]; intros k Hj Hm Hf; [lia|]. cbn [dir_scan].
  destruct (decide (j = k)) as [->|]; [by rewrite Hm|]. rewrite Hf by lia. apply IH; [lia|done|]. intros i Hi. apply Hf. lia.
Qed.

Lemma dir_scan_ext v di v' di' name n n' k : (n <= n')%nat ->
  (forall j, k <= j < k + Z.of_nat n -> matches v' di' name j = matches v di name j /\
     (matches v di name j = true -> dent_inum v' di' j = dent_inum v di j)) ->
  (forall j, k + Z.of_nat n <= j < k + Z.of_nat n' -> matches v' di' name j = false) ->
  dir_scan v' di' name n' k = dir_scan v di name n k.
Proof.
  revert n' k. induction n as [|n IH]; intros n' k Hn Hsame Hmore.
  - cbn [dir_scan]. revert k Hsame Hmore. clear Hn. induction n' as [|n' IH']; intros k Hsame Hmore; [done|]. cbn [dir_scan].
    rewrite Hmore by lia. apply IH'; [intros j Hj; lia|]. intros j Hj. apply Hmore. lia.
  - destruct n' as [|n']; [lia|]. cbn [dir_scan]. destruct (Hsame k) as [Hm Hi]; [lia|]. rewrite Hm.
    destruct (matches v di name k); [by rewrite Hi|]. apply IH; [lia| |].
    + intros j Hj. apply Hsame. lia.
    + intros j Hj. apply Hmore. lia.
Qed.

Lemma dir_free_spec v di n k : let f := dir_free v di n k in
  k <= f <= k + Z.of_nat n /\ (f < k + Z.of_nat n -> dent_inum v di f = 0).
Proof.
  revert k. induction n as [|n IH]; intros k; cbn [dir_free]; [lia|].
  destruct (Z.eqb_spec (dent_inum v di k) 0) as [H0|H0]; [split; [lia|done]|].
  destruct (IH (k + 1)) as [H1 H2]. split; [lia|]. intros Hlt. apply H2. lia.
Qed.

(** ** A new entry *)

(** The bytes [dirlink] writes. *)
Definition new_dent (inum : Z) (name : list Z) : list Z := le_bytes 2 inum ++ take DIRSIZ (cstr name ++ replicate DIRSIZ 0).

Lemma length_new_dent inum name : length (new_dent inum name) = 16%nat.
Proof.
  unfold new_dent. rewrite length_app, length_le_bytes, length_take, length_app, length_replicate. unfold DIRSIZ. lia.
Qed.

Lemma cstr_nonzero s : Forall (fun c => c <> 0) (cstr s).
Proof. induction s as [|c s IH]; simpl; [done|]. destruct (Z.eqb_spec c 0); by constructor. Qed.

Lemma cstr_padded s n : Forall (fun c => c <> 0) s -> cstr (take n (s ++ replicate n 0)) = take n s.
Proof.
  revert n. induction s as [|c s IH]; intros n Hs.
  - simpl. rewrite take_nil, take_ge by (by rewrite length_replicate). by destruct n.
  - destruct n as [|n]; [done|]. apply Forall_cons in Hs as [Hc Hs]. simpl.
    destruct (Z.eqb_spec c 0); [done|]. f_equal. rewrite <-IH by done.
    change (0 :: replicate n 0) with (replicate (S n) 0). f_equal.
    rewrite replicate_S_end, app_assoc, take_app_le; [done|]. rewrite length_app, length_replicate. lia.
Qed.

Lemma fname_new_dent inum name : fname (drop 2 (new_dent inum name)) = fname name.
Proof.
  unfold new_dent, fname. rewrite drop_app_length' by (by rewrite length_le_bytes).
  rewrite cstr_padded by apply cstr_nonzero. rewrite take_take. by rewrite Nat.min_id.
Qed.

Lemma inum_new_dent inum name : 0 <= inum < 2 ^ 16 -> get16 (new_dent inum name) 0 = Some inum.
Proof.
  intros Hi. unfold get16. rewrite rd_bytes_Some by (rewrite length_new_dent; lia).
  change (Some (le_val (take 2 (drop 0 (new_dent inum name)))) = Some inum). f_equal.
  unfold new_dent. rewrite drop_0, take_app_length' by (by rewrite length_le_bytes).
  rewrite le_val_bytes. apply Z.mod_small. lia.
Qed.

Section Link.
Context (sb : superblock) (inum : Z) (v : Z -> list Z) (di : dinode) (v' : Z -> list Z) (di' : dinode)
  (name : list Z) (n : Z).
Hypothesis Hdir : dir_ok v sb di.
Hypothesis Hn : 0 < n < 2 ^ 16.
Let f := dir_free v di (entries di) 0.
Hypothesis Hw : written_file sb inum v di v' di' (16 * f) (new_dent n name).
Hypothesis Hmax : 16 * f + 16 <= MAXFILE * Z.of_nat BSIZE.

Lemma link_size : Z.of_nat (entries di') = Z.max (Z.of_nat (entries di)) (f + 1) /\ di_size di' = 16 * Z.of_nat (entries di').
Proof.
  pose proof (dir_size _ _ _ Hdir) as Hs. pose proof (wf_size _ _ _ _ _ _ _ _ Hw) as Hs'.
  rewrite length_new_dent in Hs'. pose proof (dir_free_spec v di (entries di) 0) as [Hf _]. fold f in Hf.
  assert (di_size di' = 16 * Z.max (Z.of_nat (entries di)) (f + 1)) as He by lia.
  unfold entries at 1 3. rewrite He, Z.mul_comm, Z.div_mul, Z2Nat.id by lia. lia.
Qed.

Lemma link_dent k : 0 <= k < Z.of_nat (entries di') -> dent v' di' k = if k =? f then new_dent n name else dent v di k.
Proof.
  intros Hk. destruct link_size as [Hsz Hds]. pose proof (wf_full _ _ _ _ _ _ _ _ Hw (dk_full _ _ _ Hdir)) as [Hm' _].
  assert (Hb : forall i, (i < 16)%nat -> dent v' di' k !! i = Some (overlay (byte_at v di) (16 * f) (new_dent n name) (16 * k + Z.of_nat i))).
  { intros i Hi. unfold dent, file_bytes. rewrite list_lookup_fmap, (proj2 (lookup_seqZ (16 * k) 16 i (16 * k + Z.of_nat i))) by lia.
    simpl. f_equal. apply (wf_bytes _ _ _ _ _ _ _ _ Hw). lia. }
  apply list_eq. intros i. destruct (decide (i < 16)%nat) as [Hi|Hi].
  - rewrite Hb by done. unfold overlay. rewrite length_new_dent.
    destruct (Z.eqb_spec k f) as [->|Hkf].
    + destruct (Z.leb_spec (16 * f) (16 * f + Z.of_nat i)); [|lia].
      destruct (Z.ltb_spec (16 * f + Z.of_nat i) (16 * f + Z.of_nat 16)); [|lia]. simpl.
      replace (Z.to_nat (16 * f + Z.of_nat i - 16 * f)) with i by lia.
      destruct (lookup_lt_is_Some_2 (new_dent n name) i) as [c Hc]; [by rewrite length_new_dent|]. by rewrite Hc.
    + destruct (Z.leb_spec (16 * f) (16 * k + Z.of_nat i)), (Z.ltb_spec (16 * k + Z.of_nat i) (16 * f + Z.of_nat 16)); simpl; try lia;
        unfold dent, file_bytes; rewrite list_lookup_fmap, (proj2 (lookup_seqZ (16 * k) 16 i (16 * k + Z.of_nat i))) by lia; done.
  - transitivity (@None Z); [apply lookup_ge_None_2; rewrite length_dent; lia|]. symmetry. apply lookup_ge_None_2.
    destruct (k =? f); rewrite ?length_new_dent, ?length_dent; lia.
Qed.

Lemma link_dir_ok : dir_ok v' sb di'.
Proof.
  destruct link_size as [Hsz Hds]. destruct (wf_fields _ _ _ _ _ _ _ _ Hw) as [Ht _]. split.
  - apply Hw.
  - apply (wf_full _ _ _ _ _ _ _ _ Hw), (dk_full _ _ _ Hdir).
  - rewrite Ht. apply (dk_type _ _ _ Hdir).
  - rewrite Hds, Z.mul_comm. by apply Z.mod_mul.
Qed.

(** The new name is found, every other name is as before. *)
Lemma link_find : dir_find v di name = None -> dir_find v' di' name = Some (16 * f, n).
Proof.
  intros Hno. destruct link_size as [Hsz _]. pose proof (dir_free_spec v di (entries di) 0) as [Hf _]. fold f in Hf.
  assert (Hdf : dent v' di' f = new_dent n name) by (rewrite link_dent by lia; by rewrite Z.eqb_refl).
  assert (Hif : dent_inum v' di' f = n) by (unfold dent_inum; rewrite Hdf, inum_new_dent by lia; done).
  unfold dir_find. rewrite (dir_scan_first _ _ _ _ _ f); [by rewrite Hif|lia| |].
  - unfold matches. rewrite Hif. destruct (Z.eqb_spec n 0); [lia|]. simpl. apply bool_decide_true.
    unfold dent_name. by rewrite Hdf, fname_new_dent.
  - intros i Hi. pose proof (dir_scan_none _ _ _ _ _ Hno i ltac:(lia)) as Hm.
    unfold matches, dent_inum, dent_name in *. rewrite link_dent by lia. by destruct (Z.eqb_spec i f); [lia|].
Qed.

Lemma link_others other : fname other <> fname name -> dir_find v' di' other = dir_find v di other.
Proof.
  intros Hne. destruct link_size as [Hsz _]. pose proof (dir_free_spec v di (entries di) 0) as [Hf Hf0]. fold f in Hf, Hf0.
  assert (Hdf : dent v' di' f = new_dent n name) by (rewrite link_dent by lia; by rewrite Z.eqb_refl).
  assert (Hmf : matches v' di' other f = false).
  { unfold matches, dent_name. rewrite Hdf, fname_new_dent, (bool_decide_false _ Hne). apply andb_false_r. }
  apply dir_scan_ext; [lia| |].
  - intros j Hj. destruct (decide (j = f)) as [->|Hjf].
    + assert (matches v di other f = false) as Hm by (unfold matches; rewrite Hf0 by lia; done). rewrite Hm. by split.
    + unfold matches, dent_inum, dent_name. rewrite link_dent by lia. by destruct (Z.eqb_spec j f).
  - intros j Hj. by replace j with f by lia.
Qed.
End Link.

Section Dir.
Context {S : Type} {BC : BufferCache S} {BS : BufferCacheSpec S}.
Context (start sz : Z) {E : error -> Prop} (sb : superblock).
Hypothesis Hly : layout start sz sb.
Context {DV : Devsw S}.
Implicit Types (s : fstate S) (t : tview).

(** One entry is read. *)
Lemma wp_read_dent dp x k Q s t :
  fsrep start sz None s t -> icache s !! dp = Some x -> i_dev x = ROOTDEV -> dir_ok (tv t) sb (i_d x) ->
  th t = ∅ -> room sz 0 t -> 0 <= k < Z.of_nat (entries (i_d x)) ->
  (forall l, fsrep start sz None (set_lst l s) t -> Q (16, dent (tv t) (i_d x) k) (set_lst l s)) ->
  wp E (readi dp (16 * k) 16) Q s.
Proof.
  intros Hs Hx Hdev Hd Hth Hroom Hk HQ. pose proof (dir_size _ _ _ Hd) as Hsz.
  destruct (dk_full _ _ _ Hd) as [Hmax _].
  eapply wp_readi; [done|exact Hs|exact Hx|done|apply Hd|apply Hd|done|done|rewrite (dk_type _ _ _ Hd); done|fs_lia|lia|].
  intros l H1. specialize (HQ l H1). unfold read_result.
  destruct (Z.ltb_spec (di_size (i_d x)) (16 * k)); [lia|]. destruct (Z.leb_spec (2 ^ 32) (16 * k + 16)); [fs_lia|].
  cbn [orb]. rewrite Z.min_l by lia. exact HQ.
Qed.

Lemma wp_dirlookup_loop fuel dp x name k Q s t :
  fsrep start sz None s t -> icache s !! dp = Some x -> i_dev x = ROOTDEV -> dir_ok (tv t) sb (i_d x) ->
  th t = ∅ -> room sz 0 t -> readable name DIRSIZ ->
  0 <= k <= Z.of_nat (entries (i_d x)) -> (entries (i_d x) < fuel + Z.to_nat k)%nat ->
  (forall l, fsrep start sz None (set_lst l s) t ->
     Q (dir_scan (tv t) (i_d x) name (entries (i_d x) - Z.to_nat k) k) (set_lst l s)) ->
  wp E (dirlookup_loop fuel dp name (16 * k)) Q s.
Proof.
  revert k Q s. induction fuel as [|fuel IH]; intros k Q s Hs Hx Hdev Hd Hth Hroom Hnm Hk Hfuel HQ; [lia|].
  pose proof (dir_size _ _ _ Hd) as Hsz. cbn [dirlookup_loop]. apply wp_bind. eapply wp_geti; [exact Hx|].
  destruct (Z.leb_spec (di_size (i_d x)) (16 * k)) as [He|He].
  { apply wp_ret. replace (entries (i_d x) - Z.to_nat k)%nat with O in HQ by lia.
    specialize (HQ (fs_lst s)). destruct s. by apply HQ. }
  apply wp_bind. eapply wp_read_dent; [exact Hs|exact Hx|done|done|done|done|lia|]. intros l1 H1. simpl (16 =? 16). cbn [negb].
  rewrite dent_get16. apply wp_bind, wp_ret.
  replace (entries (i_d x) - Z.to_nat k)%nat with (Datatypes.S (entries (i_d x) - Z.to_nat (k + 1))) in HQ by lia.
  cbn [dir_scan] in HQ. unfold matches in HQ.
  replace (16 * k + 16) with (16 * (k + 1)) by lia.
  destruct (Z.eqb_spec (dent_inum (tv t) (i_d x) k) 0) as [H0|H0]; cbn [negb andb] in HQ.
  { apply IH; try done; [lia|lia]. }
  destruct (strncmp_ok name (drop 2 (dent (tv t) (i_d x) k)) DIRSIZ) as (r & Hr & Hiff); [done| |].
  { right. rewrite length_drop, length_dent. unfold DIRSIZ. lia. }
  apply wp_bind. eapply wp_lift; [exact Hr|]. fold (dent_name (tv t) (i_d x) k) in Hiff.
  destruct (Z.eqb_spec r 0) as [Hr0|Hr0].
  - rewrite bool_decide_true in HQ by (by apply Hiff). apply wp_ret. by apply HQ.
  - rewrite bool_decide_false in HQ by (unfold fname; tauto). apply IH; try done; [lia|lia].
Qed.

Lemma wp_dirlookup dp x name Q s t :
  fsrep start sz None s t -> icache s !! dp = Some x -> i_dev x = ROOTDEV -> dir_ok (tv t) sb (i_d x) ->
  th t = ∅ -> room sz 0 t -> readable name DIRSIZ ->
  match dir_find (tv t) (i_d x) name with
  | None => forall l, fsrep start sz None (set_lst l s) t -> Q None (set_lst l s)
  | Some (off, inum) =>
      gettable (icache s) inum /\
      forall i y y' l, icache s !! i = Some y -> got (icache s) inum y y' -> fsrep start sz None (set_lst l s) t ->
        Q (Some (i, off)) (set_icache (<[i := y']> (icache s)) (set_lst l s))
  end ->
  wp E (dirlookup dp name) Q s.
Proof.
  intros Hs Hx Hdev Hd Hth Hroom Hnm HQ. unfold dirlookup. apply wp_bind. eapply wp_geti; [exact Hx|].
  rewrite (dk_type _ _ _ Hd). simpl (negb _). cbn iota. apply wp_bind.
  apply (wp_dirlookup_loop _ dp x name 0 _ s t); try done; [lia| |].
  { unfold entries. assert (0 <= di_size (i_d x) / 16).
    { apply Z.div_pos; [|done]. apply (do_size _ (fo_di _ _ _ (dk_file _ _ _ Hd))). } lia. }
  intros l1 H1. rewrite Nat.sub_0_r. fold (dir_find (tv t) (i_d x) name).
  destruct (dir_find (tv t) (i_d x) name) as [[off inum]|]; [|apply wp_ret; by apply HQ].
  destruct HQ as [Hg HQ]. apply wp_bind. eapply wp_geti; [exact Hx|]. rewrite Hdev. apply wp_bind.
  eapply wp_iget; [exact H1|exact Hg|]. intros i y y' l2 Hy Hgot H2. apply wp_ret. by apply (HQ i y).
Qed.

Lemma wp_dirlink_loop fuel dp x k Q s t :
  fsrep start sz None s t -> icache s !! dp = Some x -> i_dev x = ROOTDEV -> dir_ok (tv t) sb (i_d x) ->
  th t = ∅ -> room sz 0 t ->
  0 <= k <= Z.of_nat (entries (i_d x)) -> (entries (i_d x) < fuel + Z.to_nat k)%nat ->
  (forall l, fsrep start sz None (set_lst l s) t ->
     Q (16 * dir_free (tv t) (i_d x) (entries (i_d x) - Z.to_nat k) k) (set_lst l s)) ->
  wp E (dirlink_loop fuel dp (16 * k)) Q s.
Proof.
  revert k Q s. induction fuel as [|fuel IH]; intros k Q s Hs Hx Hdev Hd Hth Hroom Hk Hfuel HQ; [lia|].
  pose proof (dir_size _ _ _ Hd) as Hsz. cbn [dirlink_loop]. apply wp_bind. eapply wp_geti; [exact Hx|].
  destruct (Z.leb_spec (di_size (i_d x)) (16 * k)) as [He|He].
  { apply wp_ret. replace (entries (i_d x) - Z.to_nat k)%nat with O in HQ by lia.
    specialize (HQ (fs_lst s)). destruct s. by apply HQ. }
  apply wp_bind. eapply wp_read_dent; [exact Hs|exact Hx|done|done|done|done|lia|]. intros l1 H1. simpl (16 =? 16). cbn [negb].
  rewrite dent_get16. apply wp_bind, wp_ret.
  replace (entries (i_d x) - Z.to_nat k)%nat with (Datatypes.S (entries (i_d x) - Z.to_nat (k + 1))) in HQ by lia.
  cbn [dir_free] in HQ. replace (16 * k + 16) with (16 * (k + 1)) by lia.
  destruct (Z.eqb_spec (dent_inum (tv t) (i_d x) k) 0) as [H0|H0]; [apply wp_ret; by apply HQ|].
  apply IH; try done; [lia|lia].
Qed.

(** A name that is already in the directory is refused; a new one is written to
    the first free entry or to the end. *)
Lemma wp_dirlink_new dp x name inum Q s t :
  fsrep start sz None s t -> fs_sb s = sb -> icache s !! dp = Some x -> i_dev x = ROOTDEV ->
  0 < i_inum x < sb_ninodes sb -> dir_ok (tv t) sb (i_d x) -> meta_used (tv t) sb -> th t = ∅ ->
  readable name DIRSIZ -> dir_find (tv t) (i_d x) name = None ->
  1 <= tn t -> Z.of_nat (length (tl t)) + 11 < sz -> (4 <= nfree (tv t) sb)%nat ->
  let f := dir_free (tv t) (i_d x) (entries (i_d x)) 0 in
  16 * f + 16 <= MAXFILE * Z.of_nat BSIZE ->
  (forall s' t' di', writei_post start sz sb s t dp x (16 * f) (new_dent inum name) s' t' di' -> Q 0 s') ->
  wp E (dirlink dp name inum) Q s.
Proof.
  intros Hs Hsb Hx Hdev Hin Hd Hmu Hth Hnm Hno Htn Hroom Hnf f Hmax HQ.
  assert (Hr0 : room sz 0 t) by (unfold room; rewrite Hth, map_size_empty; lia).
  unfold dirlink. apply wp_bind. eapply wp_dirlookup; [exact Hs|exact Hx|done|done|done|done|done|]. rewrite Hno.
  intros l1 H1. apply wp_bind. eapply wp_geti; [exact Hx|]. apply wp_bind.
  apply (wp_dirlink_loop _ dp x 0 _ (set_lst l1 s) t); try done; [lia| |].
  { unfold entries. assert (0 <= di_size (i_d x) / 16).
    { apply Z.div_pos; [|done]. apply (do_size _ (fo_di _ _ _ (dk_file _ _ _ Hd))). } lia. }
  intros l2 H2. rewrite Nat.sub_0_r. fold f. apply wp_bind.
  eapply wp_lift; [apply strncpy_ok; [by rewrite length_replicate|done]|].
  rewrite drop_ge, app_nil_r by (by rewrite length_replicate). fold (new_dent inum name).
  apply wp_bind. pose proof (dir_free_spec (tv t) (i_d x) (entries (i_d x)) 0) as [Hf _]. fold f in Hf.
  pose proof (dir_size _ _ _ Hd) as Hsz. pose proof (dk_full _ _ _ Hd) as [Hm _].
  eapply (wp_writei start sz sb Hly); [exact H2|done|exact Hx|done|done|apply Hd|done|done|rewrite (dk_type _ _ _ Hd); done|fs_lia|lia|].
  unfold write_refused. destruct (Z.ltb_spec (di_size (i_d x)) (16 * f)); [lia|].
  destruct (Z.ltb_spec (MAXFILE * Z.of_nat BSIZE) (16 * f + 16)); [lia|]. cbn [orb].
  split_and!; [done|rewrite length_new_dent; lia|change (rounds 16) with 2%nat; lia|change (rounds 16) with 2%nat; lia|].
  intros s' t' di' Hp. simpl (16 =? 16). cbn [negb]. apply wp_ret. apply (HQ s' t' di').
  rewrite take_ge in Hp by (by rewrite length_new_dent).
  destruct Hp. by split.
Qed.

End Dir.
