(* ===== verification/FsPath.v ===== *)
(** * Path names (fs.c: skipelem, namex, namei)

    A path is a sequence of names separated by slashes; [namei] follows it from
    the root or the current directory and returns the inode it leads to with one
    more reference, and leaves every other count as it was. *)

From stdpp Require Import base numbers list gmap sets strings.
From S2P Require Import Prelude Strings Bytes Machine Ide Store Log LogSpec LogTheorems Fs FsTxn FsAlloc FsInode FsFile FsWrite FsDir.

Open Scope Z_scope.

(** ** Path elements *)

(** The pieces of a string between slashes, and those that are not empty. *)
Fixpoint pieces (p : list Z) : list (list Z) :=
  match p with
  | [] => [[]]
  | c :: p =>
      if c =? 47 then [] :: pieces p
      else match pieces p with [] => [[c]] | w :: ws => (c :: w) :: ws end
  end.

Definition elems (p : list Z) : list (list Z) := filter (fun e => e <> []) (pieces p).

Lemma elems_slash p : elems (47 :: p) = elems p.
Proof. done. Qed.

Lemma pieces_span e p : Forall (fun c => c <> 47) e -> pieces (e ++ 47 :: p) = e :: pieces p.
Proof.
  induction 1 as [|c e Hc _ IH]; [done|]. simpl. destruct (Z.eqb_spec c 47); [done|]. by rewrite IH.
Qed.

Lemma pieces_last e : Forall (fun c => c <> 47) e -> pieces e = [e].
Proof. induction 1 as [|c e Hc _ IH]; [done|]. simpl. destruct (Z.eqb_spec c 47); [done|]. by rewrite IH. Qed.

Lemma elems_span e p : Forall (fun c => c <> 47) e -> e <> [] -> elems (e ++ 47 :: p) = e :: elems p.
Proof. intros He Hn. unfold elems. rewrite pieces_span by done. by rewrite filter_cons_True. Qed.

Lemma elems_last e : Forall (fun c => c <> 47) e -> e <> [] -> elems e = [e].
Proof. intros He Hn. unfold elems. rewrite pieces_last by done. by rewrite filter_cons_True. Qed.

Lemma terminated_tail c p : terminated (c :: p) -> c <> 0 -> terminated p.
Proof. intros [H|H]%elem_of_cons Hc; [by subst|done]. Qed.

Lemma skip_slashes_ok p : terminated p ->
  exists p', skip_slashes p = Ok p' /\ terminated p' /\ elems (cstr p') = elems (cstr p) /\
    head p' <> Some 47 /\ (length p' <= length p)%nat.
Proof.
  induction p as [|c p IH]; intros Ht; [by apply elem_of_nil in Ht|]. cbn [skip_slashes].
  destruct (Z.eqb_spec c 47) as [->|Hc].
  - destruct IH as (p' & H1 & H2 & H3 & H4 & H5); [by eapply terminated_tail|].
    exists p'. split_and!; try done. simpl. lia.
  - exists (c :: p). split_and!; try done. simpl. congruence.
Qed.

Lemma span_elem_ok p : terminated p ->
  exists e p', span_elem p = Ok (e, p') /\ p = e ++ p' /\ Forall (fun c => c <> 47 /\ c <> 0) e /\
    (head p' = Some 47 \/ head p' = Some 0) /\ terminated p'.
Proof.
  induction p as [|c p IH]; intros Ht; [by apply elem_of_nil in Ht|]. cbn [span_elem].
  destruct (Z.eqb_spec c 47) as [->|Hc]; [exists [], (47 :: p); split_and!; try done; by left|].
  destruct (Z.eqb_spec c 0) as [->|H0]; [exists [], (0 :: p); split_and!; try done; by right|]. cbn [orb].
  destruct IH as (e & p' & H1 & H2 & H3 & H4 & H5); [by eapply terminated_tail|].
  exists (c :: e), p'. rewrite H1. cbn [mbind outcome_bind]. split_and!; try done; [by rewrite H2|by constructor].
Qed.

Lemma cstr_span e p : Forall (fun c => c <> 47 /\ c <> 0) e -> cstr (e ++ p) = e ++ cstr p.
Proof.
  induction 1 as [|c e [_ Hc] _ IH]; [done|]. simpl. destruct (Z.eqb_spec c 0); [done|]. by rewrite IH.
Qed.

Lemma elems_empty p : terminated p -> head p <> Some 47 -> head p = Some 0 <-> elems (cstr p) = [].
Proof.
  intros Ht Hh. destruct (span_elem_ok p Ht) as (e & q & _ & -> & Hf & Hq & _).
  assert (Hf' : Forall (fun c => c <> 47) e) by (eapply Forall_impl; [exact Hf|]; naive_solver).
  destruct e as [|c e].
  - destruct q as [|d q]; [destruct Hq; done|]. destruct Hq as [Hq|Hq]; simpl in Hq; injection Hq as ->; [done|].
    by simpl.
  - split; [simpl; intros [= ->]; inversion Hf; naive_solver|].
    rewrite (cstr_span (c :: e)) by exact Hf.
    destruct q as [|d q]; [destruct Hq; done|]. destruct Hq as [Hq|Hq]; simpl in Hq; injection Hq as ->.
    + cbn [cstr]. replace (47 =? 0) with false by done. by rewrite elems_span.
    + cbn [cstr]. replace (0 =? 0) with true by done. rewrite app_nil_r. by rewrite elems_last.
Qed.

(** The first element of the path, in the name buffer, and the rest. *)
Lemma skipelem_ok path name : terminated path -> length name = DIRSIZ ->
  match elems (cstr path) with
  | [] => skipelem path name = Ok None
  | e :: es => exists path' name', skipelem path name = Ok (Some (path', name')) /\
      terminated path' /\ elems (cstr path') = es /\ fname name' = fname e /\ length name' = DIRSIZ /\
      (head path' = Some 0 <-> es = []) /\ (length path' < length path)%nat
  end.
Proof.
  intros Ht Hn. destruct (skip_slashes_ok path Ht) as (p1 & H1 & Ht1 & He1 & Hh1 & Hl1). rewrite <-He1.
  unfold skipelem. rewrite H1. cbn [mbind outcome_bind].
  case_bool_decide as Hz.
  { destruct p1 as [|c p1]; [done|]. simpl in Hz. injection Hz as ->. done. }
  destruct (span_elem_ok p1 Ht1) as (e & p2 & H2 & Hp1 & Hfe & Hh2 & Ht2). rewrite H2. cbn [mbind outcome_bind].
  assert (Hne : e <> []).
  { intros ->. simpl in Hp1. subst p2. destruct Hh2; done. }
  assert (Hfe' : Forall (fun c => c <> 47) e) by (eapply Forall_impl; [exact Hfe|]; naive_solver).
  assert (He : cstr e = e) by (rewrite <-(app_nil_r e) at 1; rewrite cstr_span by done; apply app_nil_r).
  destruct (skip_slashes_ok p2 Ht2) as (p3 & H3 & Ht3 & He3 & Hh3 & Hl3). rewrite H3. cbn [mbind outcome_bind].
  assert (Helems : elems (cstr p1) = e :: elems (cstr p3)).
  { rewrite Hp1, cstr_span by done. rewrite He3. destruct p2 as [|c p2]; [destruct Hh2; done|].
    destruct Hh2 as [Hh|Hh]; simpl in Hh; injection Hh as ->.
    - simpl. rewrite elems_span by done. by rewrite elems_slash.
    - simpl. rewrite app_nil_r. by rewrite elems_last. }
  rewrite Helems. set (nm := if (DIRSIZ <=? length e)%nat then _ else _). exists p3, nm. split_and!; try done.
  - unfold fname, nm. rewrite He. destruct (Nat.leb_spec DIRSIZ (length e)) as [Hle|Hlt].
    + rewrite (drop_ge name) by lia. rewrite cstr_span by (by apply Forall_take). simpl.
      rewrite app_nil_r. by rewrite take_take, Nat.min_id.
    + rewrite cstr_span by done. simpl. by rewrite app_nil_r.
  - unfold nm. destruct (Nat.leb_spec DIRSIZ (length e)) as [Hle|Hlt].
    + rewrite length_app, length_take, length_drop. lia.
    + rewrite length_app. simpl. rewrite length_drop. lia.
  - by apply elems_empty.
  - assert (0 < length e)%nat by (destruct e; simpl; [done|lia]).
    rewrite Hp1, length_app in Hl1. lia.
Qed.

(** ** Counting references *)

(** What an entry of the cache adds to the count of inode [n]. *)
Definition holds (n : Z) (x : inode) : Z :=
  if bool_decide (i_dev x = ROOTDEV /\ i_inum x = n) then i_ref x else 0.

(** How many references the cache holds to inode [n]. *)
Definition refs (l : list inode) (n : Z) : Z := foldr (fun x acc => holds n x + acc) 0 l.

(** An entry that can be taken over. *)
Definition free_slot (x : inode) : Prop := i_ref x = 0.

#[global] Instance free_slot_dec x : Decision (free_slot x) := Z.eq_dec (i_ref x) 0.

Definition delta (n k : Z) : Z := if n =? k then 1 else 0.

Lemma refs_insert l i x x' n : l !! i = Some x -> refs (<[i := x']> l) n = refs l n - holds n x + holds n x'.
Proof.
  unfold refs. revert i. induction l as [|y l IH]; intros [|i] Hi; simplify_eq/=; [lia|]. rewrite (IH i Hi). lia.
Qed.

Lemma refs_pos l n : 0 < refs l n -> exists x, x ∈ l /\ entry n x.
Proof.
  unfold refs. induction l as [|y l IH]; simpl; [lia|]. intros H.
  destruct (decide (0 < holds n y)) as [Hy|Hy].
  - exists y. split; [left|]. unfold holds in Hy. case_bool_decide; [|lia]. unfold entry. naive_solver.
  - destruct IH as (x & ? & ?); [lia|]. exists x. split; [by right|done].
Qed.

Lemma refs_member l n x : (forall y, y ∈ l -> 0 <= i_ref y) -> x ∈ l -> entry n x -> 0 < refs l n.
Proof.
  intros Hpos Hx (Hr & Hd & Hn). unfold refs. induction l as [|y l IH]; [by apply elem_of_nil in Hx|]. simpl.
  assert (Hy : 0 <= holds n y) by (unfold holds; case_bool_decide; [apply Hpos; left|done]).
  assert (Hl : 0 <= foldr (fun x acc => holds n x + acc) 0 l).
  { clear IH Hx Hy. induction l as [|z l IH]; simpl; [done|].
    assert (0 <= holds n z) by (unfold holds; case_bool_decide; [apply Hpos; right; left|done]).
    assert (0 <= foldr (fun x acc => holds n x + acc) 0 l); [|lia]. apply IH.
    intros w [->|Hw]%elem_of_cons; apply Hpos; [left|by right; right]. }
  apply elem_of_cons in Hx as [->|Hx].
  - unfold holds in *. rewrite bool_decide_true in * by done. lia.
  - assert (0 < foldr (fun x acc => holds n x + acc) 0 l); [|lia]. apply IH; [|done]. intros w Hw. apply Hpos. by right.
Qed.

Lemma holds_same n x x' : i_dev x' = i_dev x -> i_inum x' = i_inum x -> i_ref x' = i_ref x -> holds n x' = holds n x.
Proof. unfold holds. by intros -> -> ->. Qed.

Lemma holds_entry n k x : entry n x -> holds k x = delta n k * i_ref x.
Proof.
  intros (Hr & Hd & Hn). unfold holds, delta. destruct (Z.eqb_spec n k).
  - rewrite bool_decide_true by (split; congruence). lia.
  - rewrite bool_decide_false by (intros []; congruence). lia.
Qed.

Section cache_view.
Context (v : Z -> list Z) (sb : superblock).

(** The cache [c] is sound, only entry [busy] is locked, and it holds [d] more
    references than [l0] did. *)
Record cview (l0 c : list inode) (busy : option nat) (d : Z -> Z) : Prop := {
  cv_ok : icache_ok v sb c;
  cv_unlocked i x : c !! i = Some x -> 0 < i_ref x -> busy <> Some i -> Z.land (i_flags x) I_BUSY = 0;
  cv_length : length c = length l0;
  cv_refs k : refs c k = refs l0 k + d k;
}.

Lemma cview_ext l0 c b d d' : cview l0 c b d -> (forall k, d k = d' k) -> cview l0 c b d'.
Proof. intros [? ? ? H] Hd. split; try done. intros k. by rewrite <-Hd. Qed.

Lemma entry_unlocked l0 c i x d : cview l0 c None d -> c !! i = Some x -> 0 < i_ref x -> i_flags x = 0 \/ i_flags x = 2.
Proof.
  intros H Hx Hr. pose proof (cv_unlocked _ _ _ _ H i x Hx Hr) as Hb. pose proof (ic_flags _ _ _ (cv_ok _ _ _ _ H) i x Hx).
  assert (i_flags x = 0 \/ i_flags x = 1 \/ i_flags x = 2 \/ i_flags x = 3) as [Hf|[Hf|[Hf|Hf]]] by lia;
    rewrite Hf in *; auto; by specialize (Hb ltac:(done)).
Qed.

Lemma cview_lock l0 c ip x n di d :
  cview l0 c None d -> c !! ip = Some x -> entry n x ->
  cview l0 (<[ip := mkinode ROOTDEV n (i_ref x) 3 di]> c) (Some ip) d.
Proof.
  intros H Hx (Hr & Hd & Hn). split.
  - eapply icache_ok_change; [apply (cv_ok _ _ _ _ H)|exact Hx|done|simpl; lia|done|done|done|done].
  - intros i y [(-> & <- & _)|(Hne & Hy)]%list_lookup_insert_Some Hry Hb; [done|]. by eapply (cv_unlocked _ _ _ _ H).
  - rewrite length_insert. apply (cv_length _ _ _ _ H).
  - intros k. rewrite (refs_insert _ _ _ _ _ Hx), (holds_same k x (mkinode ROOTDEV n (i_ref x) 3 di)) by done. rewrite (cv_refs _ _ _ _ H). lia.
Qed.

Lemma cview_unlock l0 c ip x n d :
  cview l0 c (Some ip) d -> c !! ip = Some x -> entry n x -> dinode_at v sb n = Some (i_d x) ->
  cview l0 (<[ip := set_i_flags I_VALID x]> c) None d.
Proof.
  intros H Hx (Hr & Hd & Hn) Hdi. split.
  - eapply icache_ok_change; [apply (cv_ok _ _ _ _ H)|exact Hx|done|by apply Z.lt_le_incl|done|done|done|]. intros _. by rewrite Hn.
  - intros i y [(-> & <- & _)|(Hne & Hy)]%list_lookup_insert_Some Hry Hb; [done|]. eapply (cv_unlocked _ _ _ _ H); [done|done|congruence].
  - rewrite length_insert. apply (cv_length _ _ _ _ H).
  - intros k. rewrite (refs_insert _ _ _ _ _ Hx), (holds_same k x (set_i_flags I_VALID x)) by done. rewrite (cv_refs _ _ _ _ H). lia.
Qed.

Lemma cview_got l0 c b j y y' m d :
  cview l0 c b d -> c !! j = Some y -> 0 < m < sb_ninodes sb -> got c m y y' ->
  cview l0 (<[j := y']> c) b (fun k => d k + delta m k) /\ entry m y'.
Proof.
  intros H Hy Hm Hg. destruct (icache_ok_got _ _ _ _ _ _ _ (cv_ok _ _ _ _ H) Hy Hm Hg) as [Hok He]. split; [|done]. split; try done.
  - intros i z [(-> & <- & _)|(Hne & Hz)]%list_lookup_insert_Some Hrz Hb; [|by eapply (cv_unlocked _ _ _ _ H)].
    destruct Hg as [[[Hr _] ->]|(_ & _ & ->)]; [|done]. simpl. by eapply (cv_unlocked _ _ _ _ H).
  - rewrite length_insert. apply (cv_length _ _ _ _ H).
  - intros k. rewrite (refs_insert _ _ _ _ _ Hy), (cv_refs _ _ _ _ H), (holds_entry m k y') by done.
    destruct Hg as [[Hey ->]|(H0 & _ & ->)]; simpl.
    + rewrite (holds_entry m k y) by done. lia.
    + assert (holds k y = 0) as -> by (unfold holds; case_bool_decide; lia). lia.
Qed.

Lemma cview_put l0 c ip x n d :
  cview l0 c None d -> c !! ip = Some x -> entry n x ->
  cview l0 (<[ip := set_i_ref (i_ref x - 1) x]> c) None (fun k => d k - delta n k).
Proof.
  intros H Hx He. pose proof He as (Hr & Hd & Hn). split.
  - eapply icache_ok_change; [apply (cv_ok _ _ _ _ H)|exact Hx|done|simpl; lia| |done|done|].
    + apply (ic_flags _ _ _ (cv_ok _ _ _ _ H) ip x Hx).
    + simpl. by apply (ic_valid _ _ _ (cv_ok _ _ _ _ H) ip x Hx).
  - intros i y [(-> & <- & _)|(Hne & Hy)]%list_lookup_insert_Some Hry Hb; [|by eapply (cv_unlocked _ _ _ _ H)].
    simpl. by apply (cv_unlocked _ _ _ _ H i x).
  - rewrite length_insert. apply (cv_length _ _ _ _ H).
  - intros k. rewrite (refs_insert _ _ _ _ _ Hx), (cv_refs _ _ _ _ H), (holds_entry n k x He).
    unfold holds, delta. simpl. destruct (Z.eqb_spec n k).
    + rewrite bool_decide_true by (split; congruence). lia.
    + rewrite bool_decide_false by (intros []; congruence). lia.
Qed.

Lemma not_free_length (l : list inode) :
  (length (filter free_slot l) + length (filter (not ∘ free_slot) l) = length l)%nat.
Proof.
  induction l as [|x l IH]; [done|]. destruct (decide (free_slot x)).
  - rewrite filter_cons_True, filter_cons_False by naive_solver. simpl. lia.
  - rewrite filter_cons_False, filter_cons_True by naive_solver. simpl. lia.
Qed.

(** With two free entries at the start, one is left while one reference is held. *)
Lemma cview_gettable l0 c b n m :
  cview l0 c b (delta n) -> (2 <= length (filter free_slot l0))%nat -> gettable c m.
Proof.
  intros H Hfree. destruct (filter free_slot c) as [|x r] eqn:Hc.
  2: { right. assert (Hx : x ∈ filter free_slot c) by (rewrite Hc; left).
       apply list_elem_of_filter in Hx as [H0 [i Hi]%list_elem_of_lookup]. by exists i, x. }
  exfalso. assert (Hall : forall x, x ∈ c -> 0 < i_ref x).
  { intros x Hx. destruct (decide (i_ref x = 0)) as [H0|H0].
    - assert (Hx' : x ∈ filter free_slot c) by (by apply list_elem_of_filter).
      rewrite Hc in Hx'. by apply elem_of_nil in Hx'.
    - apply list_elem_of_lookup in Hx as [i Hi]. pose proof (ic_ref _ _ _ (cv_ok _ _ _ _ H) i x Hi). lia. }
  assert (Hent : forall i x, c !! i = Some x -> entry (i_inum x) x).
  { intros i x Hi. assert (0 < i_ref x) by (eapply Hall, list_elem_of_lookup_2, Hi).
    split; [done|]. split; [|done]. by apply (ic_used _ _ _ (cv_ok _ _ _ _ H) i x). }
  assert (Hnd : NoDup (i_inum <$> c)).
  { apply NoDup_alt. intros i j k. rewrite !list_lookup_fmap. intros (x & Hx & ->)%fmap_Some (y & Hy & Hxy)%fmap_Some.
    apply (ic_uniq _ _ _ (cv_ok _ _ _ _ H) i j x y (i_inum x)); try done; [by eapply Hent|rewrite Hxy; by eapply Hent]. }
  assert (Hsub : (i_inum <$> c) ⊆ n :: (i_inum <$> filter (not ∘ free_slot) l0)).
  { intros k (x & -> & Hx)%list_elem_of_fmap. pose proof Hx as [i Hi]%list_elem_of_lookup.
    assert (Hp : 0 < refs c (i_inum x)).
    { eapply refs_member; [|exact Hx|by eapply Hent]. intros y Hy. by apply Z.lt_le_incl, Hall. }
    rewrite (cv_refs _ _ _ _ H) in Hp. unfold delta in Hp. destruct (Z.eqb_spec n (i_inum x)) as [->|Hne]; [left|right].
    destruct (refs_pos l0 (i_inum x)) as (y & Hy & Hr & _ & Hi'); [lia|].
    rewrite <-Hi'. apply list_elem_of_fmap_2, list_elem_of_filter. split; [unfold compose, free_slot; lia|done]. }
  pose proof (submseteq_length _ _ (NoDup_submseteq _ _ Hnd Hsub)) as Hlen.
  pose proof (not_free_length l0). pose proof (cv_length _ _ _ _ H). simpl in Hlen. rewrite !length_fmap in Hlen. lia.
Qed.

End cache_view.

(** ** Following a path *)

(** Inode [n] is allocated and has a link. *)
Definition linked_inode (v : Z -> list Z) (sb : superblock) (n : Z) : Prop :=
  0 < n < sb_ninodes sb /\ exists di, dinode_at v sb n = Some di /\ di_type di <> 0 /\ di_nlink di <> 0.

(** The directories are well formed and their entries name inodes in use. *)
Record tree_ok (v : Z -> list Z) (sb : superblock) : Prop := {
  tk_root : linked_inode v sb ROOTINO;
  tk_dir n di : 0 < n < sb_ninodes sb -> dinode_at v sb n = Some di -> di_type di = T_DIR -> dir_ok v sb di;
  tk_ent n di k : 0 < n < sb_ninodes sb -> dinode_at v sb n = Some di -> di_type di = T_DIR ->
    0 <= k < Z.of_nat (entries di) -> dent_inum v di k <> 0 -> linked_inode v sb (dent_inum v di k);
}.

(** The inode the elements lead to from inode [n]: the last one, or with
    [parent] the directory that holds it. *)
Fixpoint walk (v : Z -> list Z) (sb : superblock) (parent : bool) (n : Z) (es : list (list Z)) : option Z :=
  match es with
  | [] => if parent then None else Some n
  | e :: es =>
      match dinode_at v sb n with
      | None => None
      | Some di =>
          if negb (di_type di =? T_DIR) then None else
          if parent && bool_decide (es = []) then Some n else
          match dir_find v di e with
          | None => None
          | Some (_, m) => walk v sb parent m es
          end
      end
  end.

Lemma dir_scan_name v di a b n k : fname a = fname b -> dir_scan v di a n k = dir_scan v di b n k.
Proof.
  intros H. revert k. induction n as [|n IH]; intros k; [done|]. simpl. unfold matches. rewrite H. by rewrite IH.
Qed.

Lemma dir_scan_Some v di name n k off m : dir_scan v di name n k = Some (off, m) ->
  exists j, k <= j < k + Z.of_nat n /\ m = dent_inum v di j /\ m <> 0.
Proof.
  revert k. induction n as [|n IH]; intros k; [done|]. cbn [dir_scan]. destruct (matches v di name k) eqn:Hm.
  - intros [= <- <-]. exists k. unfold matches in Hm. apply andb_true_iff in Hm as [Hm _].
    apply negb_true_iff, Z.eqb_neq in Hm. split; [lia|done].
  - intros (j & ? & ?)%IH. exists j. split; [lia|done].
Qed.

Lemma tree_find v sb n di name off m : tree_ok v sb -> 0 < n < sb_ninodes sb -> dinode_at v sb n = Some di ->
  di_type di = T_DIR -> dir_find v di name = Some (off, m) -> linked_inode v sb m.
Proof. intros Ht Hn Hd Hty (j & Hj & -> & H0)%dir_scan_Some. by eapply tk_ent. Qed.

Section walking.
Context {S : Type} {BC : BufferCache S} {BS : BufferCacheSpec S} {DV : Devsw S}.
Context {E : error -> Prop} (start sz : Z) (sb : superblock).
Local Notation fstate := (Fs.fstate S).
Context (HL : layout start sz sb) (l0 : list inode) (t : tview).
Context (Htree : tree_ok (tv t) sb) (Hth : th t = ∅) (Hroom : room sz 0 t).
Context (Hfree : (2 <= length (filter free_slot l0))%nat).

(** What following a path to [w] leaves: the entry for the inode with one more
    reference, or the counts as they were. *)
Definition resolved (s : fstate) (w : option Z) (o : option nat) (s' : fstate) : Prop :=
  exists (l : lst S) c, s' = set_icache c (set_lst l s) /\ fsrep start sz None s' t /\
    match w with
    | Some m => cview (tv t) sb l0 c None (delta m) /\ exists j y, o = Some j /\ c !! j = Some y /\ entry m y
    | None => cview (tv t) sb l0 c None (fun _ => 0) /\ o = None
    end.

Lemma resolved_trans s l c w o s' : resolved (set_icache c (set_lst l s)) w o s' -> resolved s w o s'.
Proof. intros (l' & c' & -> & ?). by exists l', c'. Qed.

(** Dropping a reference to a linked inode. *)
Lemma wp_drop ip x n d Q s :
  fsrep start sz None s t -> cview (tv t) sb l0 (icache s) None d -> icache s !! ip = Some x -> entry n x ->
  linked_inode (tv t) sb n ->
  (forall l, let s' := set_icache (<[ip := set_i_ref (i_ref x - 1) x]> (icache s)) (set_lst l s) in
     fsrep start sz None s' t -> cview (tv t) sb l0 (icache s') None (fun k => d k - delta n k) -> Q tt s') ->
  wp E (iput ip) Q s.
Proof.
  intros Hs Hc Hx He (Hn & di & Hdi & Hty & Hnl) HQ. pose proof He as (Hr & _ & Hi).
  eapply wp_iput_keep; [exact Hs|exact Hx| |].
  - destruct (entry_unlocked _ _ _ _ _ _ _ Hc Hx Hr) as [Hf|Hf]; [right; left; by rewrite Hf|].
    right. right. pose proof (ic_valid _ _ _ (cv_ok _ _ _ _ _ _ Hc) ip x Hx Hr Hf) as Hv. rewrite Hi in Hv. congruence.
  - intros l Hl. apply HQ; [done|]. by apply cview_put.
Qed.

(** Unlocking and dropping the entry [namex] is at. *)
Lemma wp_unlock_drop ip x n d Q s :
  fsrep start sz None s t -> cview (tv t) sb l0 (icache s) (Some ip) d -> icache s !! ip = Some x -> entry n x ->
  i_flags x = 3 -> linked_inode (tv t) sb n -> dinode_at (tv t) sb n = Some (i_d x) ->
  (forall l c, let s' := set_icache c (set_lst l s) in
     fsrep start sz None s' t -> cview (tv t) sb l0 c None (fun k => d k - delta n k) ->
     (forall j y m, icache s !! j = Some y -> entry m y -> (j = ip -> 1 < i_ref y) -> exists y', c !! j = Some y' /\ entry m y') ->
     Q tt s') ->
  wp E (iunlockput ip) Q s.
Proof.
  intros Hs Hc Hx He Hf Hl Hdi HQ. unfold iunlockput. apply wp_bind.
  eapply wp_iunlock; [exact Hs|exact Hx|apply He|exact Hf|]. intros l1 H1.
  assert (Hx1 : <[ip := set_i_flags I_VALID x]> (icache s) !! ip = Some (set_i_flags I_VALID x)).
  { apply list_lookup_insert_eq. by eapply lookup_lt_Some. }
  eapply wp_drop; [exact H1|by eapply cview_unlock|exact Hx1|exact He|exact Hl|]. intros l2 s' H2 Hc2.
  apply (HQ l2 _ H2 Hc2). intros j y m Hy Hm Hne. simpl. rewrite list_insert_insert_eq.
  destruct (decide (j = ip)) as [->|Hj].
  - rewrite list_lookup_insert_eq by (by eapply lookup_lt_Some). eexists. split; [done|]. simplify_eq.
    destruct Hm as (? & ? & ?). specialize (Hne eq_refl). repeat split; simpl; try done. lia.
  - exists y. rewrite list_lookup_insert_ne by done. done.
Qed.

(** [name] is the last of the elements. *)
Definition last_name (parent : bool) (es : list (list Z)) (o : option nat) (name : list Z) : Prop :=
  parent = true -> o <> None -> exists e, last es = Some e /\ fname name = fname e.

(** One element: the lock, the search and the move to the inode found. *)
Lemma wp_namex_step {A} (kn : M fstate A) (ks : nat -> M fstate A) ip x n di e name Q s :
  fsrep start sz None s t -> fs_sb s = sb -> cview (tv t) sb l0 (icache s) (Some ip) (delta n) ->
  icache s !! ip = Some x -> entry n x -> i_flags x = 3 -> i_d x = di ->
  linked_inode (tv t) sb n -> dinode_at (tv t) sb n = Some di -> di_type di = T_DIR ->
  length name = DIRSIZ -> fname name = fname e ->
  (forall l c, let s' := set_icache c (set_lst l s) in fsrep start sz None s' t ->
     match dir_find (tv t) di e with
     | None => cview (tv t) sb l0 c None (fun _ => 0) -> wp E kn Q s'
     | Some (off, m) => forall j y, cview (tv t) sb l0 c None (delta m) -> c !! j = Some y -> entry m y -> wp E (ks j) Q s'
     end) ->
  wp E (next ← dirlookup ip name;
        match next with
        | None => iunlockput ip ;; kn
        | Some (next, _) => iunlockput ip ;; ks next
        end) Q s.
Proof.
  intros Hs Hsb Hc Hx He Hf Hd Hl Hdi Hty Hlen Hname HQ. pose proof Hl as [Hn _].
  apply wp_bind. eapply (wp_dirlookup start sz sb HL ip x); [exact Hs|exact Hx|apply He| |exact Hth|exact Hroom| |].
  { rewrite Hd. by apply (tk_dir _ _ Htree n). }
  { right. lia. }
  rewrite Hd. unfold dir_find in *. rewrite (dir_scan_name _ _ name e) by done.
  destruct (dir_scan (tv t) di e (entries di) 0) as [[off m]|] eqn:Hfind.
  - assert (Hlm : linked_inode (tv t) sb m) by (eapply (tree_find _ _ n di e); done).
    split; [by eapply cview_gettable|]. intros j y y' l1 Hy Hg H1. apply wp_bind.
    destruct (cview_got _ _ _ _ _ _ _ _ _ _ Hc Hy (proj1 Hlm) Hg) as [Hc1 He1].
    assert (Hj : <[j := y']> (icache s) !! j = Some y') by (apply list_lookup_insert_eq; by eapply lookup_lt_Some).
    assert (Hx1 : exists x', <[j := y']> (icache s) !! ip = Some x' /\ entry n x' /\ i_flags x' = 3 /\
      i_d x' = di /\ (j = ip -> 1 < i_ref y')).
    { destruct (decide (j = ip)) as [->|Hne].
      - simplify_eq. exists y'. split; [done|]. destruct Hg as [[Hey ->]|(H0 & _ & _)].
        + destruct Hey as (? & ? & ?), He as (? & ? & ?). repeat split; simpl; try done; lia.
        + destruct He as [? _]. lia.
      - exists x. rewrite list_lookup_insert_ne by done. done. }
    destruct Hx1 as (x' & Hx1 & Hex & Hfx & Hdx & Hrx).
    eapply (wp_unlock_drop ip x' n); [exact H1|exact Hc1|exact Hx1|exact Hex|exact Hfx|exact Hl|by rewrite Hdx|].
    intros l2 c2 s' H2 Hc2 Hkeep. destruct (Hkeep j y' m Hj He1 Hrx) as (y2 & Hy2 & Hey2).
    eapply (HQ l2 c2 H2 j y2); [|done|done]. eapply cview_ext; [exact Hc2|]. intros k. simpl. lia.
  - intros l1 H1. apply wp_bind.
    eapply (wp_unlock_drop ip x n); [exact H1|exact Hc|exact Hx|exact He|exact Hf|exact Hl|by rewrite Hd|].
    intros l2 c2 s' H2 Hc2 _. apply (HQ l2 c2 H2). eapply cview_ext; [exact Hc2|]. intros k. simpl. lia.
Qed.

Lemma wp_namex_loop fuel ip path parent name n x Q s :
  fsrep start sz None s t -> fs_sb s = sb -> cview (tv t) sb l0 (icache s) None (delta n) ->
  icache s !! ip = Some x -> entry n x -> linked_inode (tv t) sb n ->
  terminated path -> length name = DIRSIZ -> (length path <= fuel)%nat ->
  (forall o name' s', resolved s (walk (tv t) sb parent n (elems (cstr path))) o s' ->
     last_name parent (elems (cstr path)) o name' -> Q (o, name') s') ->
  wp E (namex_loop fuel ip path parent name) Q s.
Proof.
  revert ip path name n x Q s.
  induction fuel as [|fuel IH]; intros ip path name n x Q s Hs Hsb Hc Hx He Hl Hterm Hlen Hfuel HQ.
  { destruct path; [by apply elem_of_nil in Hterm|simpl in Hfuel; lia]. }
  cbn [namex_loop]. pose proof (skipelem_ok path name Hterm Hlen) as Hskip. pose proof Hl as (Hn & di & Hdi & Hty & Hnl).
  destruct (elems (cstr path)) as [|e es] eqn:Hes.
  { apply wp_bind. eapply wp_lift; [exact Hskip|]. destruct parent.
    - apply wp_bind. eapply wp_drop; [exact Hs|exact Hc|exact Hx|exact He|exact Hl|]. intros l s' H1 Hc1. apply wp_ret.
      apply HQ; [|by intros _ []]. exists l, (icache s'). split; [done|]. split; [done|]. split; [|done]. eapply cview_ext; [exact Hc1|].
      intros k. simpl. lia.
    - apply wp_ret. apply HQ; [|by intros ?]. exists (fs_lst s), (icache s). destruct s. split; [done|]. split; [done|]. split; [done|]. by exists ip, x. }
  destruct Hskip as (path' & name' & Hsk & Hterm' & Hes' & Hname & Hlen' & Hhead & Hshort).
  apply wp_bind. eapply wp_lift; [exact Hsk|]. apply wp_bind. pose proof He as (Hr & Hdv & Hin).
  eapply (wp_ilock start sz sb HL ip x di); [exact Hs|exact Hsb|apply (cv_ok _ _ _ _ _ _ Hc)|exact Hx|exact Hr| |by rewrite Hin|exact Hty| |exact Hroom|].
  { by apply (cv_unlocked _ _ _ _ _ _ Hc ip x). }
  { intros i. rewrite Hth. by rewrite lookup_empty. }
  intros l1 H1. set (x1 := mkinode ROOTDEV (i_inum x) (i_ref x) 3 di) in *.
  assert (Hx1 : <[ip := x1]> (icache s) !! ip = Some x1) by (apply list_lookup_insert_eq; by eapply lookup_lt_Some).
  assert (He1 : entry n x1) by done.
  assert (Hc1 : cview (tv t) sb l0 (<[ip := x1]> (icache s)) (Some ip) (delta n)).
  { unfold x1. rewrite Hin. by apply cview_lock. }
  apply wp_bind. eapply wp_geti; [exact Hx1|]. cbn [walk] in HQ. rewrite Hdi in HQ. cbn [i_d x1].
  destruct (Z.eqb_spec (di_type di) T_DIR) as [Hdir|Hdir]; cbn [negb] in HQ |- *.
  2: { apply wp_bind. eapply (wp_unlock_drop ip x1 n); [exact H1|exact Hc1|exact Hx1|exact He1|done|exact Hl|exact Hdi|].
       intros l2 c2 s' H2 Hc2 _. apply wp_ret. apply HQ; [|by intros _ []]. exists l2, c2. split; [done|]. split; [done|]. split; [|done].
       eapply cview_ext; [exact Hc2|]. intros k. simpl. lia. }
  rewrite (bool_decide_ext (head path' = Some 0) (es = [])) by exact Hhead.
  destruct (parent && bool_decide (es = [])) eqn:Hpar.
  { apply andb_true_iff in Hpar as [-> Hnil%bool_decide_eq_true]. apply wp_bind.
    eapply wp_iunlock; [exact H1|exact Hx1|exact Hr|done|]. intros l2 H2. apply wp_ret. apply HQ.
    - eexists l2, _. split; [reflexivity|]. split; [exact H2|]. split; [by eapply cview_unlock|].
      eexists ip, _. split_and!; [done| |]; [apply list_lookup_insert_eq; by eapply lookup_lt_Some|done].
    - intros _ _. exists e. by rewrite Hnil. }
  eapply (wp_namex_step _ _ ip x1 n di e); try done. intros l2 c2 s' H2.
  destruct (dir_find (tv t) di e) as [[off m]|] eqn:Hfind.
  - intros j y Hc2 Hy Hey. eapply (IH j path' name' m y); try done; [by eapply tree_find|lia|].
    rewrite Hes'. intros o name2 s2 Hres Hlast. apply HQ; [by eapply resolved_trans, resolved_trans|].
    intros Hp Ho. destruct (Hlast Hp Ho) as (e' & He' & ?). exists e'. split; [|done]. by destruct es.
  - intros Hc2. apply wp_ret. apply HQ; [|by intros _ []]. by exists l2, c2.
Qed.
End walking.
