(* ===== verification/FsTheorems.v ===== *)
(** * The file system: results

    What one call inside a transaction does: the block allocator, inodes on disk,
    reading and writing a file, directory entries and path names.  A small file
    system, two inodes and five blocks in use, is the instance. *)

From stdpp Require Import base numbers list gmap sets strings.
From S2P Require Import Prelude Strings Bytes Machine Ide Store Bio BioTheorems Log LogSpec LogTheorems Fs FsTxn FsAlloc FsInode FsFile FsWrite FsDir FsPath.

Open Scope Z_scope.

Section Results.
Context {S : Type} {BC : BufferCache S} {BS : BufferCacheSpec S} {DV : Devsw S}.
Context (start sz : Z) (sb : superblock).
Implicit Types (s : fstate S) (t : tview).

Lemma room_empty n t : th t = ∅ -> (0 < n -> 1 <= tn t) -> Z.of_nat (length (tl t)) + n < sz -> room sz n t.
Proof. intros Hth Htn H. unfold room. rewrite Hth, map_size_empty. lia. Qed.

Lemma not_held_empty b t : th t = ∅ -> not_held b t.
Proof. intros Hth i. by rewrite Hth, lookup_empty. Qed.

Lemma room_fsrep h s t : fsrep start sz h s t -> th t = ∅ -> room sz 0 t.
Proof.
  intros [a Ha] Hth. apply room_empty; [done|lia|].
  pose proof (lo_fits _ _ _ (li_lo _ _ _ _ _ (tx_log _ _ _ _ _ _ Ha))). lia.
Qed.

Lemma icache_ok_view v v' l : icache_ok v sb l ->
  (forall i x, l !! i = Some x -> 0 < i_ref x -> i_flags x = I_VALID -> dinode_at v' sb (i_inum x) = dinode_at v sb (i_inum x)) ->
  icache_ok v' sb l.
Proof. intros [? ? ? ? Hv] H. split; try done. intros i x Hx Hr Hf. rewrite (H i x) by done. by apply (Hv i). Qed.

(** [balloc] takes the first block that is free in the free map, a data
    block: it is zeroed, it is marked, and no other block changes; when every
    block is in use it panics. *)
Theorem balloc_correct s t :
  layout start sz sb -> fsrep start sz None s t -> fs_sb s = sb -> meta_used (tv t) sb ->
  th t = ∅ -> 1 <= tn t -> Z.of_nat (length (tl t)) + 3 < sz ->
  (exists b l t', first_free (tv t) sb b /\ data sb b /\ balloc ROOTDEV s = Ok (b, set_lst l s) /\
     fsrep start sz None (set_lst l s) t' /\ tv t' b = zero_block /\
     (forall c, 0 <= c < sb_size sb -> used (tv t') sb c = (c =? b) || used (tv t) sb c) /\
     (forall c, c <> sb_bmapstart sb -> c <> b -> tv t' c = tv t c)) \/
  ((forall c, 0 <= c < sb_size sb -> used (tv t) sb c = true) /\
   balloc ROOTDEV s = Err (Panic "balloc: out of blocks")).
Proof.
  intros Hly Hs Hsb Hmu Hth Htn Hroom. destruct (bmap_range _ _ _ Hly) as [Hm _].
  assert (Hlen : length (tv t (sb_bmapstart sb)) = BSIZE).
  { eapply fsrep_length; [exact Hs|]. lia. }
  destruct (nfree (tv t) sb) as [|k] eqn:Hnf.
  - right. assert (Hfull : forall c, 0 <= c < sb_size sb -> used (tv t) sb c = true).
    { intros c Hc. destruct (used (tv t) sb c) eqn:Hu; [done|]. unfold nfree in Hnf.
      apply nil_length_inv in Hnf. assert (c ∈ free_list (tv t) sb) as Hin by by apply free_list_elem.
      rewrite Hnf in Hin. by apply elem_of_nil in Hin. }
    split; [done|].
    assert (Hw : wp (fun e => e = Panic "balloc: out of blocks") (balloc ROOTDEV) (fun _ _ => False) s).
    { eapply wp_balloc_full; [exact Hly|exact Hs|done|done|by apply not_held_empty|apply room_empty; [done|done|lia]|done]. }
    unfold wp in Hw. destruct (balloc ROOTDEV s) as [[? ?]|e]; [done|by subst].
  - left. destruct (nfree_first (tv t) sb) as [b Hff]; [lia|].
    edestruct (wp_no_error (balloc ROOTDEV)) as (b' & s' & Hrun & HP).
    { eapply (wp_balloc start sz sb Hly b (fun b' s' => b' = b /\ exists l, s' = set_lst l s /\
        fsrep start sz None (set_lst l s) (alloc_view sb b t)));
        [exact Hs|done|done|done|by apply not_held_empty|by apply not_held_empty|by apply room_empty|].
      intros l Hl. split; [done|]. by exists l. }
    destruct HP as (-> & l & -> & Hl). exists b, l, (alloc_view sb b t).
    split_and!; [done|by eapply first_free_data|done|done| | |].
    + by eapply alloc_zero.
    + intros c Hc. by eapply alloc_used.
    + intros c H1 H2. by apply alloc_frame.
Qed.

(** [iupdate] and [ilock] are a round trip through the disk: after [iupdate]
    the inode block holds the cached fields, every other inode is as it was, and
    an entry of the cache that has not been read gets the same fields. *)
Theorem iupdate_ilock s t ip x junk :
  layout start sz sb -> fsrep start sz None s t -> fs_sb s = sb -> icache_ok (tv t) sb (icache s) ->
  icache s !! ip = Some x -> 0 < i_ref x -> Z.land (i_flags x) I_BUSY <> 0 -> dinode_ok (i_d x) ->
  di_type (i_d x) <> 0 -> th t = ∅ -> 1 <= tn t -> Z.of_nat (length (tl t)) + 3 < sz ->
  exists l t' l', iupdate ip s = Ok (tt, set_lst l s) /\ fsrep start sz None (set_lst l s) t' /\
    dinode_at (tv t') sb (i_inum x) = Some (i_d x) /\
    (forall j, 0 < j -> j <> i_inum x -> dinode_at (tv t') sb j = dinode_at (tv t) sb j) /\
    let fresh := mkinode ROOTDEV (i_inum x) 1 0 junk in
    ilock ip (set_icache (<[ip := fresh]> (icache s)) (set_lst l s)) =
      Ok (tt, set_icache (<[ip := mkinode ROOTDEV (i_inum x) 1 3 (i_d x)]> (icache s)) (set_lst l' s)).
Proof.
  intros Hly Hs Hsb Hic Hx Hr Hbusy Hdi Hty Hth Htn Hroom.
  destruct (ic_used _ _ _ Hic ip x Hx Hr) as [Hdev Hin].
  destruct (iblock_range start sz sb (i_inum x) Hly Hin) as (Hb & _).
  edestruct (wp_no_error (iupdate ip)) as ([] & s1 & Hrun & HP).
  { eapply (wp_iupdate start sz sb Hly ip x (fun _ s1 => exists l d, s1 = set_lst l s /\
      encode_dinode (tv t (IBLOCK (i_inum x) sb)) (dinode_off (i_inum x)) (i_d x) = Some d /\
      fsrep start sz None (set_lst l s) (put_log (IBLOCK (i_inum x) sb) d t)));
      [exact Hs|done|done|done|done|done|by apply not_held_empty|apply room_empty; [done|done|lia]|].
    intros l d Hd _ Hl. by exists l, d. }
  destruct HP as (l & d & -> & Hd & Hl). set (t' := put_log _ d t) in *.
  destruct (dinode_at_put start sz (tv t) sb (i_inum x) (i_d x) d) as [Hat Hot]; try done.
  { by eapply fsrep_length. }
  exists l, t'. set (fr := mkinode ROOTDEV (i_inum x) 1 0 junk).
  assert (Hlt := lookup_lt_Some _ _ _ Hx).
  edestruct (wp_no_error (ilock ip)) as ([] & s2 & Hrun2 & HP).
  { eapply (wp_ilock start sz sb Hly ip fr (i_d x) (fun _ s2 => exists l', s2 = set_icache
        (<[ip := mkinode ROOTDEV (i_inum x) 1 3 (i_d x)]> (icache s)) (set_lst l' s))
        (set_icache (<[ip := fr]> (icache s)) (set_lst l s)) t'); try done.
    - apply (icache_ok_view (tv t)).
      + eapply icache_ok_change; [exact Hic|exact Hx|done..].
      + intros i y Hy Hry Hf. destruct (decide (i_inum y = i_inum x)) as [He|Hne].
        * exfalso. simpl in Hy. apply list_lookup_insert_Some in Hy as [(_ & <- & _)|(Hne & Hy)]; [done|].
          apply Hne, (ic_uniq _ _ _ Hic ip i x y (i_inum x)); try done.
          split_and!; [done| |done]. by apply (ic_used _ _ _ Hic i y).
        * apply Hot; [|done]. simpl in Hy. apply list_lookup_insert_Some in Hy as [(_ & <- & _)|(_ & Hy)]; [done|].
          by apply (ic_used _ _ _ Hic i y).
    - by apply list_lookup_insert_eq.
    - by apply not_held_empty.
    - apply room_empty; [done|done|]. unfold t', put_log. simpl. pose proof (add_block_length (IBLOCK (i_inum x) sb) (tl t)). lia.
    - intros l' Hl'. exists l'. simpl. by rewrite list_insert_insert_eq. }
  destruct HP as [l' ->]. exists l'. split_and!; done.
Qed.

(** C7. [writei] and [readi] are a round trip: a write past the end of the file
    or of the largest file is refused and changes nothing; any other puts the
    bytes in the file, also when blocks have to be allocated for them, extends it
    if needed, changes no other file, and [readi] at the same offset gives them back. *)
Theorem writei_readi s t ip x src off n :
  layout start sz sb -> fsrep start sz None s t -> fs_sb s = sb -> icache s !! ip = Some x ->
  i_dev x = ROOTDEV -> 0 < i_inum x < sb_ninodes sb -> file_ok (tv t) sb (i_d x) -> full (tv t) (i_d x) ->
  meta_used (tv t) sb -> th t = ∅ -> 1 <= tn t -> di_type (i_d x) <> T_DEV -> 0 <= off < 2 ^ 32 -> 0 <= n < 2 ^ 32 ->
  n <= Z.of_nat (length src) -> (2 * rounds n <= nfree (tv t) sb)%nat ->
  Z.of_nat (length (tl t) + rounds n) + 9 < sz ->
  if write_refused (i_d x) off n then writei ip src off n s = Ok (-1, s)
  else exists s' t' di', writei ip src off n s = Ok (n, s') /\
    writei_post start sz sb s t ip x off (take (Z.to_nat n) src) s' t' di' /\
    exists l, readi ip off n s' = Ok ((n, take (Z.to_nat n) src), set_lst l s').
Proof.
  intros Hly Hs Hsb Hx Hdev Hin Hfo Hfu Hmu Hth Htn Hty Hoff Hn Hsrc Hnf Hroom.
  edestruct (wp_no_error (writei ip src off n)) as (r & s' & Hrun & HP).
  { eapply (wp_writei start sz sb Hly ip x src off n (fun r s' =>
      if write_refused (i_d x) off n then r = -1 /\ s' = s
      else r = n /\ exists t' di', writei_post start sz sb s t ip x off (take (Z.to_nat n) src) s' t' di')); try done.
    destruct (write_refused (i_d x) off n); [done|]. split_and!; try done. intros s' t' di' Hp. split; [done|]. by exists t', di'. }
  destruct (write_refused (i_d x) off n) eqn:Href; [by destruct HP as [-> ->]|].
  destruct HP as (-> & t' & di' & Hp). exists s', t', di'. split; [done|]. split; [done|].
  destruct Hp as [Hrep Hic Hsb' _ Hth' Hw _]. pose proof (wf_fields _ _ _ _ _ _ _ _ Hw) as (Hty' & _).
  pose proof (wf_size _ _ _ _ _ _ _ _ Hw) as Hsize. pose proof (wf_full _ _ _ _ _ _ _ _ Hw Hfu) as Hfu'.
  set (d := take (Z.to_nat n) src) in *. assert (Hld : Z.of_nat (length d) = n) by (unfold d; rewrite length_take; lia).
  edestruct (wp_no_error (readi ip off n)) as (r & s2 & Hrun2 & HP).
  { eapply (wp_readi start sz sb Hly ip (set_i_d di' x) off n (fun r s2 =>
      r = read_result (tv t') di' off n /\ exists l, s2 = set_lst l s') s' t'); try done.
    - rewrite Hic. apply list_lookup_insert_eq. by eapply lookup_lt_Some.
    - apply (wf_ok _ _ _ _ _ _ _ _ Hw).
    - by apply (room_fsrep None s').
    - simpl. by rewrite Hty'.
    - intros l Hl. split; [done|]. by exists l. }
  destruct HP as (-> & l & ->). exists l. rewrite Hrun2. do 2 f_equal. unfold read_result.
  destruct Hfu' as [Hmax _]. unfold write_refused in Href. apply orb_false_iff in Href as [Hr1%Z.ltb_ge Hr2%Z.ltb_ge].
  destruct (Z.ltb_spec (di_size di') off); [lia|]. destruct (Z.leb_spec (2 ^ 32) (off + n)); [fs_lia|]. cbn [orb].
  rewrite Z.min_l by lia. f_equal. rewrite <-Hld at 1. eapply (file_bytes_written sb); [exact Hw|lia|lia].
Qed.

(** C21. [dirlink] and [dirlookup] are a round trip: a name that is not in the
    directory is put in its first free entry, or in a new one at its end; looking
    it up then gives that entry and a reference to the inode, and every other
    name is found where it was. *)
Theorem dirlink_dirlookup s t dp x name inum :
  layout start sz sb -> fsrep start sz None s t -> fs_sb s = sb -> icache s !! dp = Some x ->
  i_dev x = ROOTDEV -> 0 < i_inum x < sb_ninodes sb -> dir_ok (tv t) sb (i_d x) ->
  meta_used (tv t) sb -> th t = ∅ -> 1 <= tn t -> readable name DIRSIZ -> 0 < inum < 2 ^ 16 ->
  dir_find (tv t) (i_d x) name = None -> Z.of_nat (length (tl t)) + 11 < sz -> (4 <= nfree (tv t) sb)%nat ->
  let f := dir_free (tv t) (i_d x) (entries (i_d x)) 0 in
  16 * f + 16 <= MAXFILE * Z.of_nat BSIZE ->
  gettable (icache s) inum ->
  exists s' t' di' j s'' y, dirlink dp name inum s = Ok (0, s') /\ fsrep start sz None s' t' /\
    icache s' = <[dp := set_i_d di' x]> (icache s) /\ dir_ok (tv t') sb di' /\
    dirlookup dp name s' = Ok (Some (j, 16 * f), s'') /\ icache s'' !! j = Some y /\ entry inum y /\
    forall other, fname other <> fname name -> dir_find (tv t') di' other = dir_find (tv t) (i_d x) other.
Proof.
  intros Hly Hs Hsb Hx Hdev Hin Hd Hmu Hth Htn Hnm Hinum Hno Hroom Hnf f Hmax Hget.
  edestruct (wp_no_error (dirlink dp name inum)) as (r & s' & Hrun & HP).
  { eapply (wp_dirlink_new start sz sb Hly dp x name inum (fun r s' => r = 0 /\ exists t' di',
      writei_post start sz sb s t dp x (16 * f) (new_dent inum name) s' t' di')); try done.
    intros s' t' di' Hp. split; [done|]. by exists t', di'. }
  destruct HP as (-> & t' & di' & [Hrep Hic _ _ Hth' Hw _]).
  assert (Hd' : dir_ok (tv t') sb di') by (by eapply link_dir_ok).
  assert (Hx' : icache s' !! dp = Some (set_i_d di' x)).
  { rewrite Hic. apply list_lookup_insert_eq. by eapply lookup_lt_Some. }
  edestruct (wp_no_error (dirlookup dp name)) as (r & s'' & Hrun2 & HP).
  { eapply (wp_dirlookup start sz sb Hly dp (set_i_d di' x) name (fun r s'' => exists j y y' l,
      r = Some (j, 16 * f) /\ icache s' !! j = Some y /\ got (icache s') inum y y' /\
      s'' = set_icache (<[j := y']> (icache s')) (set_lst l s')) s' t'); try done; [by apply (room_fsrep None s')|].
    simpl. unfold f. rewrite (link_find sb (i_inum x) _ _ _ _ _ _ Hd Hinum Hw Hno). split.
    - rewrite Hic. assert (Hlt := lookup_lt_Some _ _ _ Hx).
      destruct Hget as [(i & y & Hy & He)|(i & y & Hy & He)]; [left|right];
        (destruct (decide (i = dp)) as [->|Hne]; simplify_eq;
         [exists dp, (set_i_d di' x); split; [by apply list_lookup_insert_eq|done]
         |exists i, y; by rewrite list_lookup_insert_ne]).
    - intros i y y' l Hy Hg _. by exists i, y, y', l. }
  destruct HP as (j & y & y' & l & -> & Hy & Hg & ->).
  exists s', t', di', j, (set_icache (<[j := y']> (icache s')) (set_lst l s')), y'. split_and!; try done.
  - simpl. apply list_lookup_insert_eq. by eapply lookup_lt_Some.
  - destruct Hg as [[(? & ? & ?) ->]|(_ & _ & ->)]; split_and!; simpl; try done. lia.
  - intros other Ho. by eapply link_others.
Qed.

(** Where a path starts: at the root, or at the current directory. *)
Definition from (s : fstate S) (path : list Z) : Z :=
  if bool_decide (head path = Some 47) then ROOTINO
  else match icache s !! cwd s with Some x => i_inum x | None => 0 end.

Lemma cview_start v s : icache_ok v sb (icache s) ->
  (forall i x, icache s !! i = Some x -> 0 < i_ref x -> Z.land (i_flags x) I_BUSY = 0) ->
  cview v sb (icache s) (icache s) None (fun _ => 0).
Proof. intros Hok Hu. split; try done; [intros i x ? ? _; by apply (Hu i)|]. intros k. lia. Qed.

Lemma wp_namei {E} path Q s t :
  layout start sz sb -> fsrep start sz None s t -> fs_sb s = sb -> icache_ok (tv t) sb (icache s) ->
  (forall i x, icache s !! i = Some x -> 0 < i_ref x -> Z.land (i_flags x) I_BUSY = 0) ->
  tree_ok (tv t) sb -> th t = ∅ -> (2 <= length (filter free_slot (icache s)))%nat ->
  (exists x, icache s !! cwd s = Some x /\ entry (i_inum x) x /\ linked_inode (tv t) sb (i_inum x)) -> terminated path ->
  (forall o s', resolved start sz sb (icache s) t s (walk (tv t) sb false (from s path) (elems (cstr path))) o s' -> Q o s') ->
  wp E (namei path) Q s.
Proof.
  intros Hly Hs Hsb Hic Hun Htree Hth Hfree (x & Hx & He & Hl) Hterm HQ.
  pose proof (room_fsrep _ _ _ Hs Hth) as Hroom. pose proof (cview_start _ _ Hic Hun) as Hc0.
  unfold namei, namex. apply wp_bind.
  eapply wp_mono; [|intros r s' HP; apply wp_ret, HQ; exact HP]. apply wp_bind. unfold from. case_bool_decide as Hroot.
  - eapply wp_iget; [exact Hs| |].
    { right. destruct (filter free_slot (icache s)) as [|z zs] eqn:Hz; [simpl in Hfree; lia|].
      assert (Hin : z ∈ filter free_slot (icache s)) by (rewrite Hz; left).
      apply list_elem_of_filter in Hin as [H0 [i Hi]%list_elem_of_lookup]. by exists i, z. }
    intros i y y' l1 Hy Hg H1.
    destruct (cview_got _ _ _ _ _ _ _ _ _ _ Hc0 Hy (proj1 (tk_root _ _ Htree)) Hg) as [Hc1 He1].
    eapply (wp_namex_loop start sz sb Hly (icache s) t Htree Hth Hroom Hfree _ i path false _ ROOTINO y'); try done.
    + by apply list_lookup_insert_eq; eapply lookup_lt_Some.
    + apply Htree.
  - apply wp_bind, wp_gets. eapply wp_idup; [exact Hs|exact Hx|]. intros l1 H1.
    destruct (cview_got _ _ _ _ _ _ x (set_i_ref (i_ref x + 1) x) (i_inum x) _ Hc0 Hx (proj1 Hl)) as [Hc1 He1]; [by left|].
    rewrite Hx. eapply (wp_namex_loop start sz sb Hly (icache s) t Htree Hth Hroom Hfree _ (cwd s) path false _ (i_inum x)); try done.
    apply list_lookup_insert_eq. by eapply lookup_lt_Some.
Qed.

(** C4. [namei] follows a path: it takes the elements one after the other, looks
    each up in the directory reached, and ends with the inode they lead to, with
    exactly one reference more to it; when an element is missing or what is
    reached is not a directory it returns null and every count is as before. *)
Theorem namei_correct s t path :
  layout start sz sb -> fsrep start sz None s t -> fs_sb s = sb -> icache_ok (tv t) sb (icache s) ->
  (forall i x, icache s !! i = Some x -> 0 < i_ref x -> Z.land (i_flags x) I_BUSY = 0) ->
  tree_ok (tv t) sb -> th t = ∅ -> (2 <= length (filter free_slot (icache s)))%nat ->
  (exists x, icache s !! cwd s = Some x /\ entry (i_inum x) x /\ linked_inode (tv t) sb (i_inum x)) ->
  terminated path ->
  exists o s', namei path s = Ok (o, s') /\
    resolved start sz sb (icache s) t s (walk (tv t) sb false (from s path) (elems (cstr path))) o s'.
Proof.
  intros Hly Hs Hsb Hic Hun Htree Hth Hfree Hcwd Hterm. apply (wp_no_error (namei path)). by eapply wp_namei.
Qed.
End Results.

(** ** A small file system *)

(** The root directory, inode 1, has the entries ".", ".." and "f"; inode 2 is the
    file "f" with the contents "hello". *)
Definition demo_sb : superblock := mksuper 2000 1941 200 30 2 32 58.
Definition demo_root : dinode := mkdinode T_DIR 0 0 1 493 0 0 48 (59 :: replicate 10 0).
Definition demo_file : dinode := mkdinode T_FILE 0 0 1 420 0 0 5 (60 :: replicate 10 0).

Definition pad (l : list Z) : list Z := l ++ replicate (BSIZE - length l) 0.

Definition demo_inodes : list Z :=
  default [] (encode_dinode zero_block 64 demo_root ≫= fun b => encode_dinode b 128 demo_file).
Definition demo_bitmap : list Z := pad (replicate 7 255 ++ [31]).
Definition demo_entry (n : Z) (name : list Z) : list Z := le_bytes 2 n ++ name ++ replicate (14 - length name) 0.
Definition demo_dir : list Z := pad (demo_entry 1 [46] ++ demo_entry 1 [46; 46] ++ demo_entry 2 [102]).
Definition demo_data : list Z := pad [104; 101; 108; 108; 111].

Definition demo_disk (b : Z) : list Z :=
  if b =? 1 then super_bytes else if b =? 32 then demo_inodes else if b =? 58 then demo_bitmap else
  if b =? 59 then demo_dir else if b =? 60 then demo_data else zero_block.

(** The cache: the root and the file, both read. *)
Definition demo_icache : list inode :=
  mkinode ROOTDEV 1 1 I_VALID demo_root :: mkinode ROOTDEV 2 1 I_VALID demo_file ::
  replicate 48 (mkinode 0 0 0 0 demo_file).

(** A device table without entries. *)
#[global] Instance no_devices : Devsw (bst unit) := {|
  dev_read _ := None;
  dev_write _ := None;
|}.

Definition demo_fs (l : list inode) : fstate (bst unit) := mkfst (mklst busy_log (booted demo_disk)) demo_sb l 0%nat.
Definition demo_view : tview := mktv demo_disk ∅ [] 1.

Lemma demo_disk_length b : length (demo_disk b) = BSIZE.
Proof. unfold demo_disk. repeat (case_match; [by vm_compute|]). by vm_compute. Qed.

Lemma demo_layout : layout 2 30 demo_sb.
Proof. split; vm_compute; congruence. Qed.

Lemma demo_rep l : fsrep 2 30 None (demo_fs l) demo_view.
Proof.
  exists (empty_store demo_disk). split.
  - apply booted_rep. intros b _. apply demo_disk_length.
  - split; [done|apply empty_loggable|done..|by vm_compute].
  - reflexivity.
  - reflexivity.
  - intros b _. reflexivity.
  - reflexivity.
Qed.

Lemma demo_meta : meta_used demo_disk demo_sb.
Proof.
  intros b Hb. assert (H : Forall (fun b => used demo_disk demo_sb b = true) (seqZ 0 59)).
  { apply (bool_decide_unpack _). by vm_compute. }
  rewrite Forall_forall in H. apply H, elem_of_seqZ. simpl in Hb. lia.
Qed.

(** A file with one block [b] in its first slot. *)
Lemma one_block_slot v di b p : di_addrs di = b :: replicate 10 0 -> 0 <= p < NSLOT ->
  slot v di p = if p =? 0 then b else 0.
Proof.
  intros Ha Hp. unfold slot. rewrite Ha. destruct (Z.leb_spec p NDIRECT) as [Hle|Hgt]; [|by destruct (Z.eqb_spec p 0); [fs_lia|]].
  assert (p ∈ seqZ 0 11) as Hin by (apply elem_of_seqZ; fs_lia). clear Hp Hle.
  repeat (apply elem_of_cons in Hin as [->|Hin]; [done|]). by apply elem_of_nil in Hin.
Qed.

Lemma one_block_ok v sb di b : di_addrs di = b :: replicate 10 0 -> dinode_ok di -> data sb b -> used v sb b = true ->
  di_size di <= Z.of_nat BSIZE -> b <> 0 -> file_ok v sb di /\ full v di.
Proof.
  intros Ha Hdi Hd Hu Hs Hb. split; [split|split].
  - done.
  - intros p Hp. rewrite (one_block_slot _ _ b) by done. by destruct (p =? 0).
  - intros p q Hp Hq. rewrite !(one_block_slot _ _ b) by done. destruct (Z.eqb_spec p 0), (Z.eqb_spec q 0); [lia|done..].
  - fs_lia.
  - intros o Ho. rewrite Z.div_small by lia. by rewrite (one_block_slot _ _ b).
Qed.

Lemma demo_dinode_ok di : di = demo_root \/ di = demo_file -> dinode_ok di.
Proof.
  intros [->| ->]; (split; cbn [demo_root demo_file di_type di_major di_minor di_nlink di_mode di_uid di_gid di_size di_addrs];
    [unfold T_DIR, T_FILE; lia|lia..|reflexivity|]);
    (apply Forall_cons; split; [lia|]; apply Forall_replicate; lia).
Qed.

Lemma demo_root_ok : dir_ok demo_disk demo_sb demo_root.
Proof.
  destruct (one_block_ok demo_disk demo_sb demo_root 59) as [H1 H2];
    [reflexivity|apply demo_dinode_ok; by left|by vm_compute|by vm_compute|by vm_compute|done|].
  split; [exact H1|exact H2|reflexivity|reflexivity].
Qed.

Lemma demo_file_ok : file_ok demo_disk demo_sb demo_file /\ full demo_disk demo_file.
Proof.
  apply (one_block_ok demo_disk demo_sb demo_file 60);
    [reflexivity|apply demo_dinode_ok; by right|by vm_compute|by vm_compute|by vm_compute|done].
Qed.

Lemma demo_cached i x : demo_icache !! i = Some x ->
  (i = 0%nat /\ x = mkinode ROOTDEV 1 1 I_VALID demo_root) \/
  (i = 1%nat /\ x = mkinode ROOTDEV 2 1 I_VALID demo_file) \/ x = mkinode 0 0 0 0 demo_file.
Proof.
  destruct i as [|[|i]]; [intros [= <-]; auto..|].
  unfold demo_icache. cbn [lookup list_lookup]. intros [-> _]%lookup_replicate. auto.
Qed.

Lemma demo_icache_ok : icache_ok demo_disk demo_sb demo_icache.
Proof.
  split.
  - intros i x [(_ & ->)|[(_ & ->)| ->]]%demo_cached; simpl; lia.
  - intros i x [(_ & ->)|[(_ & ->)| ->]]%demo_cached; unfold I_VALID; simpl; lia.
  - intros i x [(_ & ->)|[(_ & ->)| ->]]%demo_cached; simpl; lia.
  - intros i j x y n Hx Hy (Hr & _ & Hn) (Hr' & _ & Hn').
    apply demo_cached in Hx as [(-> & ->)|[(-> & ->)| ->]], Hy as [(-> & ->)|[(-> & ->)| ->]]; simpl in *; lia.
  - intros i x [(_ & ->)|[(_ & ->)| ->]]%demo_cached Hr _; [by vm_compute|by vm_compute|done].
Qed.

Lemma demo_zero b : 32 < b < 58 -> demo_disk b = zero_block.
Proof.
  intros Hb. unfold demo_disk.
  destruct (Z.eqb_spec b 1); [lia|]. destruct (Z.eqb_spec b 32); [lia|]. destruct (Z.eqb_spec b 58); [lia|].
  destruct (Z.eqb_spec b 59); [lia|]. by destruct (Z.eqb_spec b 60); [lia|].
Qed.

(** The inodes but the first two are free. *)
Lemma demo_dinode n : 0 < n < 200 ->
  (n = 1 /\ dinode_at demo_disk demo_sb n = Some demo_root) \/
  (n = 2 /\ dinode_at demo_disk demo_sb n = Some demo_file) \/
  exists di, dinode_at demo_disk demo_sb n = Some di /\ di_type di = 0.
Proof.
  intros Hn. unfold dinode_at.
  assert (Hm : dinode_off n ∈ [0; 64; 128; 192; 256; 320; 384; 448]%nat).
  { unfold dinode_off. change IPB with 8. pose proof (Z.mod_pos_bound n 8 ltac:(lia)) as Hb.
    assert (n mod 8 ∈ seqZ 0 8) as Hin by (apply elem_of_seqZ; lia).
    repeat (apply elem_of_cons in Hin as [->|Hin]; [apply (bool_decide_unpack _); by vm_compute|]). by apply elem_of_nil in Hin. }
  destruct (decide (n < 8)) as [H8|H8].
  - assert (Hin : n ∈ seqZ 1 7) by (apply elem_of_seqZ; lia). clear Hn H8 Hm.
    repeat (apply elem_of_cons in Hin as [->|Hin]; [first [left; split; [done|by vm_compute] | right; left; split; [done|by vm_compute]
      | right; right; eexists; split; [vm_compute; reflexivity|done]]|]). by apply elem_of_nil in Hin.
  - right. right. rewrite demo_zero.
    + repeat (apply elem_of_cons in Hm as [->|Hm]; [eexists; split; [vm_compute; reflexivity|done]|]). by apply elem_of_nil in Hm.
    + unfold IBLOCK. change IPB with 8. cbn [sb_inodestart demo_sb]. pose proof (Z.div_le_lower_bound n 8 1). pose proof (Z.div_lt_upper_bound n 8 25). lia.
Qed.

Lemma demo_linked n : n = 1 \/ n = 2 -> linked_inode demo_disk demo_sb n.
Proof.
  intros [->| ->]; (split; [simpl; lia|]); eexists; (split; [vm_compute; reflexivity|done]).
Qed.

Lemma demo_tree : tree_ok demo_disk demo_sb.
Proof.
  assert (Hdir : forall n di, 0 < n < sb_ninodes demo_sb -> dinode_at demo_disk demo_sb n = Some di ->
    di_type di = T_DIR -> di = demo_root).
  { intros n di Hn. destruct (demo_dinode n Hn) as [(-> & ->)|[(-> & ->)|(di' & -> & Ht)]]; intros [= <-] Hty; [done..|].
    unfold T_DIR in Hty. lia. }
  split.
  - apply demo_linked. by left.
  - intros n di Hn Hd Hty. rewrite (Hdir n di) by done. apply demo_root_ok.
  - intros n di k Hn Hd Hty. rewrite (Hdir n di) by done. intros Hk _.
    assert (Hin : k ∈ seqZ 0 3) by (apply elem_of_seqZ; change (Z.of_nat (entries demo_root)) with 3 in Hk; lia).
    apply demo_linked.
    repeat (apply elem_of_cons in Hin as [->|Hin]; [first [left; by vm_compute|right; by vm_compute]|]). by apply elem_of_nil in Hin.
Qed.

Lemma demo_unlocked i x : demo_icache !! i = Some x -> 0 < i_ref x -> Z.land (i_flags x) I_BUSY = 0.
Proof. by intros [(_ & ->)|[(_ & ->)| ->]]%demo_cached. Qed.

Lemma demo_nfree : (6 <= nfree demo_disk demo_sb)%nat.
Proof. apply (bool_decide_unpack _). by vm_compute. Qed.

Lemma balloc_correct_witness :
  (exists b l t', first_free demo_disk demo_sb b /\ data demo_sb b /\
     balloc ROOTDEV (demo_fs demo_icache) = Ok (b, set_lst l (demo_fs demo_icache)) /\
     fsrep 2 30 None (set_lst l (demo_fs demo_icache)) t' /\ tv t' b = zero_block /\
     (forall c, 0 <= c < 2000 -> used (tv t') demo_sb c = (c =? b) || used demo_disk demo_sb c) /\
     (forall c, c <> 58 -> c <> b -> tv t' c = demo_disk c)) \/
  ((forall c, 0 <= c < 2000 -> used demo_disk demo_sb c = true) /\
   balloc ROOTDEV (demo_fs demo_icache) = Err (Panic "balloc: out of blocks")).
Proof.
  apply (balloc_correct (BS := bio_spec) 2 30 demo_sb (demo_fs demo_icache) demo_view);
    [apply demo_layout|apply demo_rep|done|apply demo_meta|done|reflexivity|simpl; lia].
Defined.

(** The file locked by the caller. *)
Definition demo_locked : list inode := <[1%nat := mkinode ROOTDEV 2 1 3 demo_file]> demo_icache.

Lemma demo_locked_ok : icache_ok demo_disk demo_sb demo_locked.
Proof.
  eapply icache_ok_change; [apply demo_icache_ok|reflexivity|done|done|simpl; lia|done|done|done].
Qed.

Lemma iupdate_ilock_witness :
  exists l t' l', iupdate 1 (demo_fs demo_locked) = Ok (tt, set_lst l (demo_fs demo_locked)) /\
    fsrep 2 30 None (set_lst l (demo_fs demo_locked)) t' /\ dinode_at (tv t') demo_sb 2 = Some demo_file /\
    (forall j, 0 < j -> j <> 2 -> dinode_at (tv t') demo_sb j = dinode_at demo_disk demo_sb j) /\
    ilock 1 (set_icache (<[1%nat := mkinode ROOTDEV 2 1 0 demo_root]> demo_locked) (set_lst l (demo_fs demo_locked))) =
      Ok (tt, set_icache (<[1%nat := mkinode ROOTDEV 2 1 3 demo_file]> demo_locked) (set_lst l' (demo_fs demo_locked))).
Proof.
  apply (iupdate_ilock (BS := bio_spec) 2 30 demo_sb (demo_fs demo_locked) demo_view 1
    (mkinode ROOTDEV 2 1 3 demo_file) demo_root);
    [apply demo_layout|apply demo_rep|done|apply demo_locked_ok|done|done|done|apply demo_dinode_ok; by right|done|done|done|simpl; lia].
Defined.

Lemma writei_readi_witness :
  exists s' t' di', writei 1 [119; 111; 114; 108; 100] 5 5 (demo_fs demo_icache) = Ok (5, s') /\
    writei_post 2 30 demo_sb (demo_fs demo_icache) demo_view 1 (mkinode ROOTDEV 2 1 I_VALID demo_file) 5
      [119; 111; 114; 108; 100] s' t' di' /\
    exists l, readi 1 5 5 s' = Ok ((5, [119; 111; 114; 108; 100]), set_lst l s').
Proof.
  apply (writei_readi (BS := bio_spec) 2 30 demo_sb (demo_fs demo_icache) demo_view 1
    (mkinode ROOTDEV 2 1 I_VALID demo_file) [119; 111; 114; 108; 100] 5 5);
    [apply demo_layout|apply demo_rep|done|done|done|simpl; lia|apply demo_file_ok|apply demo_file_ok
    |apply demo_meta|done|reflexivity|by vm_compute|lia|lia|by vm_compute| |by vm_compute].
  change (rounds 5) with 2%nat. pose proof demo_nfree. simpl. lia.
Defined.

Lemma dirlink_dirlookup_witness :
  exists s' t' di' j s'' y, dirlink 0 [103; 0] 2 (demo_fs demo_icache) = Ok (0, s') /\ fsrep 2 30 None s' t' /\
    icache s' = <[0%nat := set_i_d di' (mkinode ROOTDEV 1 1 I_VALID demo_root)]> demo_icache /\
    dir_ok (tv t') demo_sb di' /\ dirlookup 0 [103; 0] s' = Ok (Some (j, 48), s'') /\
    icache s'' !! j = Some y /\ entry 2 y /\
    forall other, fname other <> fname [103; 0] -> dir_find (tv t') di' other = dir_find demo_disk demo_root other.
Proof.
  apply (dirlink_dirlookup (BS := bio_spec) 2 30 demo_sb (demo_fs demo_icache) demo_view 0
    (mkinode ROOTDEV 1 1 I_VALID demo_root) [103; 0] 2);
    [apply demo_layout|apply demo_rep|done|done|done|simpl; lia|apply demo_root_ok|apply demo_meta|done|reflexivity
    | |lia|by vm_compute|simpl; lia|pose proof demo_nfree; simpl; lia|by vm_compute|].
  - left. right. left.
  - left. exists 1%nat, (mkinode ROOTDEV 2 1 I_VALID demo_file). split_and!; done.
Defined.

Lemma namei_correct_witness :
  walk demo_disk demo_sb false ROOTINO [[46; 46]; [102]] = Some 2 /\
  exists o s', namei [47; 46; 46; 47; 102; 0] (demo_fs demo_icache) = Ok (o, s') /\
    resolved 2 30 demo_sb demo_icache demo_view (demo_fs demo_icache)
      (walk demo_disk demo_sb false ROOTINO [[46; 46]; [102]]) o s'.
Proof.
  split; [by vm_compute|].
  apply (namei_correct (BS := bio_spec) 2 30 demo_sb (demo_fs demo_icache) demo_view [47; 46; 46; 47; 102; 0]);
    [apply demo_layout|apply demo_rep|done|apply demo_icache_ok|apply demo_unlocked|apply demo_tree|done| | |].
  - apply (bool_decide_unpack _). by vm_compute.
  - exists (mkinode ROOTDEV 1 1 I_VALID demo_root). split_and!; [done..|apply demo_linked; by left].
  - apply (bool_decide_unpack _). by vm_compute.
Defined.

(** The same file system between transactions. *)
Definition demo_idle : fstate (bst unit) :=
  mkfst (mklst (mklog 2 30 0 false ROOTDEV 0 (replicate 30 0)) (booted demo_disk)) demo_sb demo_icache 0%nat.

(** [chmod] does not drop the reference [namei] gave it: it succeeds, the mode is
    changed in the cache, and the inode is left with one reference more, so its
    entry is never free again. *)
Theorem chmod_keeps_reference :
  match chmod [47; 102; 0] 511 demo_idle with
  | Ok (r, s') => r = 0 /\ (di_mode ∘ i_d) <$> (icache s' !! 1%nat) = Some 511 /\
      refs (icache demo_idle) 2 = 1 /\ refs (icache s') 2 = 2
  | Err _ => False
  end.
Proof. vm_compute. repeat split. Qed.
