(* ===== verification/File.v ===== *)
(** * Open files (file.c, file.h, and pipealloc of pipe.c)

    The table of open files over the file system and the pipes.  A file is an
    index of [ftable.file]; what it stands for is an inode, with an offset, or an
    end of a pipe.  A read or a write of a pipe may sleep, so it ends with a
    [segment] of [Pipe]; the calls on inodes always return. *)

From stdpp Require Import base numbers list gmap strings.
From S2P Require Import Prelude Spinlock Machine Pipe Ide Store Log Fs.

Open Scope Z_scope.

Definition NFILE : nat := 100.

Inductive fdtype := FD_NONE | FD_PIPE | FD_INODE.

#[export] Instance fdtype_eq_dec : EqDecision fdtype.
Proof. solve_decision. Defined.

(** [struct file]; [f_pipe] is the address of the pipe, [f_ip] the inode. *)
Record file := mkfile {
  f_type : fdtype;
  f_ref : Z;
  f_readable : bool;
  f_writable : bool;
  f_pipe : Z;
  f_ip : nat;
  f_off : Z;
}.

Definition set_f_type (v : fdtype) (x : file) : file :=
  mkfile v (f_ref x) (f_readable x) (f_writable x) (f_pipe x) (f_ip x) (f_off x).
Definition set_f_ref (v : Z) (x : file) : file :=
  mkfile (f_type x) v (f_readable x) (f_writable x) (f_pipe x) (f_ip x) (f_off x).
Definition set_f_off (v : Z) (x : file) : file :=
  mkfile (f_type x) (f_ref x) (f_readable x) (f_writable x) (f_pipe x) (f_ip x) v.

(** The pipes as file.c and [pipealloc] use them, each named by its page. *)
Class Pipes (P : Type) := {
  pipes_kalloc : M P Z;
  pipes_kfree : Z -> M P unit;
  pipes_init : Z -> M P unit;
  pipes_close : Z -> bool -> M P unit;
  pipes_read : Z -> Z -> M P (segment * list Z);
  pipes_write : Z -> list Z -> Z -> M P (segment * Z);
}.

Section File.
Context {S P : Type} {BC : BufferCache S} {DV : Devsw S} {PI : Pipes P}.

(** [ftable] over the globals of fs.c and the pipes. *)
Record fdst := mkfdst {
  fd_fs : fstate S;
  ftable : list file;
  fd_pipes : P;
}.

Definition set_fd_fs (v : fstate S) (s : fdst) : fdst := mkfdst v (ftable s) (fd_pipes s).
Definition set_ftable (v : list file) (s : fdst) : fdst := mkfdst (fd_fs s) v (fd_pipes s).
Definition set_fd_pipes (v : P) (s : fdst) : fdst := mkfdst (fd_fs s) (ftable s) v.

Definition infs {A} (m : M (fstate S) A) : M fdst A := fun s =>
  match m (fd_fs s) with
  | Ok (a, t) => Ok (a, set_fd_fs t s)
  | Err e => Err e
  end.
Definition inpipes {A} (m : M P A) : M fdst A := fun s =>
  match m (fd_pipes s) with
  | Ok (a, t) => Ok (a, set_fd_pipes t s)
  | Err e => Err e
  end.

Definition t_initlock : M fdst unit := infs (inlog (zoom (bc_initlock FTABLE))).
Definition t_acquire : M fdst unit := infs (inlog (zoom (bc_acquire FTABLE))).
Definition t_release : M fdst unit := infs (inlog (zoom (bc_release FTABLE))).
Definition t_begin_op : M fdst unit := infs (inlog begin_op).
Definition t_end_op : M fdst unit := infs (inlog end_op).

Definition getf (f : nat) : M fdst file := fun s =>
  match ftable s !! f with Some x => Ok (x, s) | None => Err Fault end.
Definition modf (f : nat) (g : file -> file) : M fdst unit := fun s =>
  match ftable s !! f with Some x => Ok (tt, set_ftable (<[f := g x]> (ftable s)) s) | None => Err Fault end.

Definition fileinit : M fdst unit := t_initlock.

(** [for(f = ftable.file; f < ftable.file + NFILE; f++) if(f->ref == 0)]. *)
Fixpoint filealloc_scan (l : list file) (i : nat) : option nat :=
  match l with
  | [] => None
  | x :: l => if f_ref x =? 0 then Some i else filealloc_scan l (Datatypes.S i)
  end.

Definition filealloc : M fdst (option nat) :=
  t_acquire ;;
  l ← gets ftable;
  match filealloc_scan l 0 with
  | Some f => modf f (set_f_ref 1) ;; t_release ;; mret (Some f)
  | None => t_release ;; mret None
  end.

Definition filedup (f : nat) : M fdst nat :=
  t_acquire ;;
  x ← getf f;
  if f_ref x <? 1 then panic "filedup" else
  modf f (set_f_ref (f_ref x + 1)) ;;
  t_release ;;
  mret f.

Definition fileclose (f : nat) : M fdst unit :=
  t_acquire ;;
  x ← getf f;
  if f_ref x <? 1 then panic "fileclose" else
  modf f (set_f_ref (f_ref x - 1)) ;;
  ff ← getf f;
  if 0 <? f_ref ff then t_release else
  modf f (set_f_ref 0) ;;
  modf f (set_f_type FD_NONE) ;;
  t_release ;;
  match f_type ff with
  | FD_PIPE => inpipes (pipes_close (f_pipe ff) (f_writable ff))
  | FD_INODE => t_begin_op ;; infs (iput (f_ip ff)) ;; t_end_op
  | FD_NONE => mret tt
  end.

(** [*st] on success. *)
Definition filestat (f : nat) : M fdst (Z * option stat) :=
  x ← getf f;
  match f_type x with
  | FD_INODE =>
      infs (ilock (f_ip x)) ;;
      st ← infs (stati (f_ip x));
      infs (iunlock (f_ip x)) ;;
      mret (0, Some st)
  | _ => mret (-1, None)
  end.

(** The bytes go to [addr]. *)
Definition fileread (f : nat) (n : Z) : M fdst (segment * list Z) :=
  x ← getf f;
  if negb (f_readable x) then mret (Return (-1), []) else
  match f_type x with
  | FD_PIPE => inpipes (pipes_read (f_pipe x) n)
  | FD_INODE =>
      infs (ilock (f_ip x)) ;;
      x ← getf f;
      r ← infs (readi (f_ip x) (f_off x) (u32 n));
      when (0 <? r.1) (modf f (fun x => set_f_off (u32 (f_off x + r.1)) x)) ;;
      infs (iunlock (f_ip x)) ;;
      mret (Return r.1, r.2)
  | FD_NONE => panic "fileread"
  end.

(** [int max = ((LOGSIZE-1-1-2) / 2) * 512], the bytes of one transaction. *)
Definition max_write : Z := (LOGSIZE - 1 - 1 - 2) / 2 * 512.

(** [while(i < n)] from [i] on; returns with the final [i]. *)
Fixpoint filewrite_loop (fuel : nat) (f : nat) (addr : list Z) (n i : Z) : M fdst Z :=
  if n <=? i then mret i else
  match fuel with
  | O => fail NoFuel
  | Datatypes.S fuel =>
      let n1 := if max_write <? n - i then max_write else n - i in
      t_begin_op ;;
      x ← getf f;
      infs (ilock (f_ip x)) ;;
      x ← getf f;
      r ← infs (writei (f_ip x) (drop (Z.to_nat i) addr) (f_off x) n1);
      when (0 <? r) (modf f (fun x => set_f_off (u32 (f_off x + r)) x)) ;;
      infs (iunlock (f_ip x)) ;;
      t_end_op ;;
      if r <? 0 then mret i
      else if negb (r =? n1) then panic "short filewrite"
      else filewrite_loop fuel f addr n (i + r)
  end.

(** Each round writes [max_write] bytes but for the last. *)
Definition write_rounds (n : Z) : nat := Z.to_nat (n / max_write + 1).

(** The call itself; when the pipe is full it goes on with the segments of
    [pipewrite], from the [i] it returns. *)
Definition filewrite (f : nat) (addr : list Z) (n : Z) : M fdst (segment * Z) :=
  x ← getf f;
  if negb (f_writable x) then mret (Return (-1), 0) else
  match f_type x with
  | FD_PIPE => inpipes (pipes_write (f_pipe x) addr n)
  | FD_INODE =>
      i ← filewrite_loop (write_rounds n) f addr n 0;
      mret (Return (if i =? n then n else -1), i)
  | FD_NONE => panic "filewrite"
  end.

(** The two tests at the end of [pipealloc]'s [bad]: close what was allocated. *)
Definition close_if (o : option nat) : M fdst unit :=
  match o with Some f => fileclose f | None => mret tt end.

Definition pipealloc_bad (p : Z) (f0 f1 : option nat) : M fdst (option (nat * nat)) :=
  when (negb (p =? 0)) (inpipes (pipes_kfree p)) ;;
  close_if f0 ;;
  close_if f1 ;;
  mret None.

(** The two files on success, -1 for [None]. *)
Definition pipealloc : M fdst (option (nat * nat)) :=
  f0 ← filealloc;
  match f0 with
  | None => pipealloc_bad 0 None None
  | Some a =>
      f1 ← filealloc;
      match f1 with
      | None => pipealloc_bad 0 (Some a) None
      | Some b =>
          p ← inpipes pipes_kalloc;
          if p =? 0 then pipealloc_bad 0 (Some a) (Some b) else
          inpipes (pipes_init p) ;;
          modf a (fun x => mkfile FD_PIPE (f_ref x) true false p (f_ip x) (f_off x)) ;;
          modf b (fun x => mkfile FD_PIPE (f_ref x) false true p (f_ip x) (f_off x)) ;;
          mret (Some (a, b))
      end
  end.
End File.
Arguments fdst S P : clear implicits.

(** ** The pipes of pipe.c *)

(** [kalloc] as [pipealloc] uses it: the page and what it holds where the
    pipe's data goes. *)
Class PagePool (W : Type) := {
  pool_kalloc : W -> outcome (Z * list Z * W);
}.

Section Table.
Context {W : Type} {SC : Sched W} {PE : PageEnv W} {PP : PagePool W}.

(** Every pipe with its lock, by the page it lives in; the pages just taken. *)
Record pipes := mkpipes {
  pt_cpu : cpu;
  pt_world : W;
  pt_tab : gmap Z (spinlock * pipe);
  pt_new : gmap Z (list Z);
}.

(** A call on the pipe at [p], which runs on its lock and its fields. *)
Definition on_pipe {A} (p : Z) (m : M (pst W) A) : M pipes A := fun s =>
  match pt_tab s !! p with
  | None => Err Fault
  | Some (lk, q) =>
      match m (mkpst (mkmach [lk] (pt_cpu s) (pt_world s)) q) with
      | Ok (a, t) =>
          match m_locks (pp_mach t) with
          | [lk] => Ok (a, mkpipes (m_cpu (pp_mach t)) (m_world (pp_mach t)) (<[p := (lk, pp t)]> (pt_tab s)) (pt_new s))
          | _ => Err Fault
          end
      | Err e => Err e
      end
  end.

#[export] Instance pipes_table : Pipes pipes := {|
  pipes_kalloc := fun s =>
    match pool_kalloc (pt_world s) with
    | Ok (p, d, w) => Ok (p, mkpipes (pt_cpu s) w (pt_tab s) (<[p := d]> (pt_new s)))
    | Err e => Err e
    end;
  pipes_kfree p := fun s =>
    match env_kfree p (pt_world s) with
    | Ok w => Ok (tt, mkpipes (pt_cpu s) w (pt_tab s) (delete p (pt_new s)))
    | Err e => Err e
    end;
  pipes_init p := fun s =>
    match pt_new s !! p with
    | Some d => Ok (tt, mkpipes (pt_cpu s) (pt_world s) (<[p := (initlock, new_pipe p d)]> (pt_tab s)) (delete p (pt_new s)))
    | None => Err Fault
    end;
  pipes_close p writable := on_pipe p (pipeclose writable);
  pipes_read p n := on_pipe p (piperead n);
  pipes_write p addr n := on_pipe p (pipewrite addr n 0);
|}.
End Table.
Arguments pipes W : clear implicits.
