(* ===== verification/FileWrite.v ===== *)
(** * Reading and writing open files

    [filewrite] splits a write into transactions that fit in the log; the file
    holds the bytes when the last has committed.  [fileread] reads from the
    offset and moves it. *)

From stdpp Require Import base numbers list gmap sets strings.
From S2P Require Import Prelude Strings Bytes Machine Ide Store Log LogSpec LogTheorems Pipe Fs FsTxn FsAlloc FsInode FsFile FsWrite FsCommit FsTheorems File.

Open Scope Z_scope.

Section FileIO.
Context {S P : Type} {BC : BufferCache S} {BS : BufferCacheSpec S} {DV : Devsw S} {PI : Pipes P}.
Context (start sz : Z) {E : error -> Prop} (sb : superblock).
Hypothesis Hly : layout start sz sb.
Implicit Types (s : fdst S P) (t : tview).

Lemma wp_infs {A} (m : M (fstate S) A) Q s :
  wp E m (fun a u => Q a (set_fd_fs u s)) (fd_fs s) -> wp E (infs m) Q s.
Proof. unfold wp, infs. by destruct (m (fd_fs s)) as [[]|]. Qed.

Lemma wp_getf_at f x Q s : ftable s !! f = Some x -> Q x s -> wp E (getf f) Q s.
Proof. intros Hx HQ. unfold wp, getf. by rewrite Hx. Qed.

Lemma wp_modf_at f g x Q s : ftable s !! f = Some x -> Q tt (set_ftable (<[f := g x]> (ftable s)) s) -> wp E (modf f g) Q s.
Proof. intros Hx HQ. unfold wp, modf. by rewrite Hx. Qed.

(** The cached, unlocked inode [x] in slot [ip] of a file with contents [di],
    between transactions. *)
Record file_at (u : fstate S) (t : tview) (ip : nat) (x : inode) (di : dinode) : Prop := {
  fa_rep : fsrep start sz None u t;
  fa_sb : fs_sb u = sb;
  fa_icache : icache_ok (tv t) sb (icache u);
  fa_in : icache u !! ip = Some x;
  fa_ref : 0 < i_ref x;
  fa_unlocked : Z.land (i_flags x) I_BUSY = 0;
  fa_dinode : dinode_at (tv t) sb (i_inum x) = Some di;
  fa_type : di_type di <> 0 /\ di_type di <> T_DEV;
  fa_ok : file_ok (tv t) sb di;
  fa_full : full (tv t) di;
  fa_meta : meta_used (tv t) sb;
  fa_idle : idle t;
}.

(** A write to the file behind a cached inode keeps the cache well formed. *)
Lemma icache_ok_written v v' l ip x di di' off d : icache_ok v sb l -> l !! ip = Some x -> 0 < i_ref x ->
  dinode_at v sb (i_inum x) = Some di -> full v di -> written_file sb (i_inum x) v di v' di' off d ->
  icache_ok v' sb (<[ip := mkinode ROOTDEV (i_inum x) (i_ref x) I_VALID di']> l).
Proof.
  intros Hic Hx Hr Hd Hf Hw. destruct (ic_used _ _ _ Hic ip x Hx Hr) as [Hdev Hin].
  assert (Hic1 : icache_ok v sb (<[ip := mkinode ROOTDEV (i_inum x) (i_ref x) 3 di']> l)).
  { eapply icache_ok_change; [exact Hic|exact Hx|done|simpl; lia|simpl; lia|done|done|done]. }
  apply (icache_ok_view sb v v') in Hic1.
  - rewrite <-(list_insert_insert_eq l ip _ (mkinode ROOTDEV (i_inum x) (i_ref x) 3 di')).
    eapply icache_ok_change; [exact Hic1|apply list_lookup_insert_eq; by eapply lookup_lt_Some|done|simpl; lia|done|done|done|].
    intros _. simpl. by apply (wf_dinode _ _ _ _ _ _ _ _ Hw).
  - intros j y Hy Hry Hfy. apply list_lookup_insert_Some in Hy as [(_ & <- & _)|(Hne & Hy)]; [done|].
    destruct (ic_used _ _ _ Hic j y Hy Hry) as [Hdy Hiny]. apply (wf_others _ _ _ _ _ _ _ _ Hw); [done|].
    intros He. apply Hne. apply (ic_uniq _ _ _ Hic ip j x y (i_inum x)); done.
Qed.

Definition seen (x : inode) (di : dinode) : inode := mkinode ROOTDEV (i_inum x) (i_ref x) I_VALID di.

Lemma max_rounds n : 0 < n <= max_write -> (rounds n <= 15)%nat.
Proof.
  intros [_ Hn]. unfold rounds. change max_write with 6656 in Hn. change (Z.of_nat BSIZE) with 512.
  assert (n / 512 <= 13) by (apply Z.div_le_upper_bound; lia). lia.
Qed.

(** One transaction of [filewrite]. *)
Lemma wp_write_round {A} (k : Z -> M (fdst S P) A) f fl ip x di src n Q s t :
  file_at (fd_fs s) t ip x di -> ftable s !! f = Some fl -> f_ip fl = ip -> 24 < sz -> 0 < n <= max_write ->
  n <= Z.of_nat (length src) -> 0 <= f_off fl <= di_size di -> f_off fl + n <= MAXFILE * Z.of_nat BSIZE ->
  (30 <= nfree (tv t) sb)%nat ->
  (forall u t' di', file_at u t' ip (seen x di') di' ->
     written_file sb (i_inum x) (tv t) di (tv t') di' (f_off fl) (take (Z.to_nat n) src) ->
     icache u = <[ip := seen x di']> (icache (fd_fs s)) -> cwd u = cwd (fd_fs s) ->
     (nfree (tv t) sb <= nfree (tv t') sb + 30)%nat ->
     wp E (k n) Q (set_ftable (<[f := set_f_off (f_off fl + n) fl]> (ftable s)) (set_fd_fs u s))) ->
  wp E (t_begin_op ;;
        x ← getf f;
        infs (ilock (f_ip x)) ;;
        x ← getf f;
        r ← infs (writei (f_ip x) src (f_off x) n);
        when (0 <? r) (modf f (fun x => set_f_off (u32 (f_off x + r)) x)) ;;
        infs (iunlock (f_ip x)) ;;
        t_end_op ;;
        k r) Q s.
Proof.
  intros Ha Hf Hip Hsz Hn Hsrc Hoff Hmax Hnf HQ. destruct Ha as [Hs Hsb Hic Hx Hr Hu Hd [Ht0 Htd] Hfo Hfu Hmu Hid].
  pose proof Hid as [Hth Htl Htn]. destruct (ic_used _ _ _ Hic ip x Hx Hr) as [Hdev Hin].
  pose proof (max_rounds n Hn) as Hrd. pose proof (lookup_lt_Some _ _ _ Hx) as Hlt.
  unfold t_begin_op, t_end_op. apply wp_bind, wp_infs. eapply wp_f_begin_op; [exact Hs|done|]. intros l1 H1.
  apply wp_bind. eapply wp_getf_at; [exact Hf|]. rewrite Hip. apply wp_bind, wp_infs.
  assert (Hroom : room sz 0 (set_tn 1 t)).
  { apply room_empty; [done|simpl; lia|]. simpl. rewrite Htl. simpl. lia. }
  eapply (wp_ilock start sz sb Hly ip x di); [exact H1|done|exact Hic|exact Hx|done|done|exact Hd|done|by apply not_held_empty|done|].
  intros l2 H2. apply wp_bind. eapply wp_getf_at; [exact Hf|]. apply wp_bind, wp_infs. rewrite Hip.
  set (xl := mkinode ROOTDEV (i_inum x) (i_ref x) 3 di).
  eapply (wp_writei start sz sb Hly ip xl src (f_off fl) n); [exact H2|done| |done|done|exact Hfo|exact Hmu|exact Hth|done|fs_lia|fs_lia|].
  { by apply list_lookup_insert_eq. }
  replace (write_refused (i_d xl) (f_off fl) n) with false.
  2: { symmetry. unfold write_refused. simpl. apply orb_false_iff. rewrite !Z.ltb_ge. lia. }
  split_and!; [done|done|simpl; lia|simpl; rewrite Htl; simpl; lia|]. intros u3 t3 di3 Hp.
  destruct Hp as [H3 Hic3 Hsb3 Hcw3 Hth3 Hw3 Htn3 Hfr3]. cbn [icache set_icache set_lst fd_fs set_fd_fs] in Hic3. rewrite list_insert_insert_eq in Hic3.
  apply wp_bind. destruct (Z.ltb_spec 0 n); [|lia]. unfold when. eapply wp_modf_at; [exact Hf|].
  apply wp_bind, wp_infs. cbn [fd_fs set_ftable set_fd_fs].
  eapply (wp_iunlock start sz ip (set_i_d di3 xl)); [exact H3|rewrite Hic3; by apply list_lookup_insert_eq|done|done|].
  intros l4 H4. apply wp_bind, wp_infs. eapply wp_f_end_op; [exact H4|done|by rewrite Htn3|]. intros l5 t5 H5 Hid5 Hag.
  cbn [fd_fs ftable set_ftable set_fd_fs]. rewrite Hic3, list_insert_insert_eq. rewrite u32_small by fs_lia.
  pose proof (written_agree start sz sb Hly _ _ _ _ _ _ _ _ Hin Hag Hw3) as Hw5. simpl in Hw5.
  assert (Hty : di_type di3 = di_type di) by apply (wf_fields _ _ _ _ _ _ _ _ Hw5).
  apply (HQ _ t5 di3); [|exact Hw5|reflexivity|exact Hcw3|].
  - split; try done.
    + rewrite <-Hsb. exact Hsb3.
    + exact (icache_ok_written (tv t) (tv t5) (icache (fd_fs s)) ip x di di3 _ _ Hic Hx Hr Hd Hfu Hw5).
    + by apply list_lookup_insert_eq.
    + simpl. by apply (wf_dinode _ _ _ _ _ _ _ _ Hw5).
    + by rewrite Hty.
    + apply (wf_ok _ _ _ _ _ _ _ _ Hw5).
    + by apply (wf_full _ _ _ _ _ _ _ _ Hw5).
    + apply (wf_meta _ _ _ _ _ _ _ _ Hw5).
  - rewrite (nfree_agree start sz sb Hly (tv t3) (tv t5) Hag). simpl in Hfr3.
    assert (Hl : Z.of_nat (length (take (Z.to_nat n) src)) = n) by (rewrite length_take; lia). rewrite Hl in Hfr3. lia.
Qed.
(** After [d] has been written at the offset of [f], which has moved past it. *)
Definition filewrite_post s t (f : nat) (fl : file) (ip : nat) (x : inode) (di : dinode) (d : list Z)
    s' t' (x' : inode) (di' : dinode) : Prop :=
  file_at (fd_fs s') t' ip x' di' /\
  written_file sb (i_inum x) (tv t) di (tv t') di' (f_off fl) d /\
  icache (fd_fs s') = <[ip := x']> (icache (fd_fs s)) /\ i_inum x' = i_inum x /\ i_ref x' = i_ref x /\
  ftable s' = <[f := set_f_off (f_off fl + Z.of_nat (length d)) fl]> (ftable s) /\
  fd_pipes s' = fd_pipes s /\ cwd (fd_fs s') = cwd (fd_fs s).

Lemma filewrite_post_trans s t f fl ip x di d s1 t1 x1 di1 d' s2 t2 x2 di2 :
  filewrite_post s t f fl ip x di d s1 t1 x1 di1 ->
  filewrite_post s1 t1 f (set_f_off (f_off fl + Z.of_nat (length d)) fl) ip x1 di1 d' s2 t2 x2 di2 ->
  filewrite_post s t f fl ip x di (d ++ d') s2 t2 x2 di2.
Proof.
  intros (Ha1 & Hw1 & Hi1 & Hn1 & Hr1 & Ht1 & Hp1 & Hc1) (Ha2 & Hw2 & Hi2 & Hn2 & Hr2 & Ht2 & Hp2 & Hc2).
  split_and!; try done; try congruence.
  - eapply written_trans; [done|exact Hw1|]. rewrite Hn1 in Hw2. exact Hw2.
  - rewrite Hi2, Hi1. by rewrite list_insert_insert_eq.
  - rewrite Ht2, Ht1, list_insert_insert_eq. f_equal. unfold set_f_off. simpl. f_equal. rewrite length_app. lia.
Qed.

Lemma wp_filewrite_loop fuel f fl ip x di addr n i Q s t :
  file_at (fd_fs s) t ip x di -> ftable s !! f = Some fl -> f_ip fl = ip -> 24 < sz ->
  0 <= i <= n -> n <= Z.of_nat (length addr) -> n - i <= Z.of_nat fuel * max_write ->
  0 <= f_off fl <= di_size di -> f_off fl + (n - i) <= MAXFILE * Z.of_nat BSIZE ->
  (30 * fuel <= nfree (tv t) sb)%nat ->
  (forall s' t' x' di', filewrite_post s t f fl ip x di (take (Z.to_nat (n - i)) (drop (Z.to_nat i) addr)) s' t' x' di' -> Q n s') ->
  wp E (filewrite_loop fuel f addr n i) Q s.
Proof.
  revert fl x di i Q s t. induction fuel as [|fuel IH];
    intros fl x di i Q s t Ha Hf Hip Hsz Hi Hlen Hfuel Hoff Hmax Hnf HQ; cbn [filewrite_loop];
    destruct (Z.leb_spec n i) as [Hle|Hgt]; [|simpl in Hfuel; lia| |].
  1, 2: replace i with n in * by lia; apply wp_ret; apply (HQ s t x di); rewrite Z.sub_diag; cbn [Z.to_nat take length]; split_and!;
    [done|apply written_nothing; [apply Ha|apply Ha|done]|symmetry; apply list_insert_id, Ha|done|done
    |rewrite Z.add_0_r; symmetry; apply list_insert_id; destruct fl; exact Hf|done|done].
  assert (Hmw : 0 < max_write) by reflexivity.
  set (n1 := if max_write <? n - i then max_write else n - i).
  assert (Hn1 : 0 < n1 <= max_write /\ n1 <= n - i /\ n - (i + n1) <= Z.of_nat fuel * max_write).
  { unfold n1. destruct (Z.ltb_spec max_write (n - i)); lia. }
  assert (Hlt := lookup_lt_Some _ _ _ Hf).
  set (c := take (Z.to_nat n1) (drop (Z.to_nat i) addr)).
  assert (Hlc : Z.of_nat (length c) = n1) by (unfold c; rewrite length_take, length_drop; lia).
  eapply wp_write_round; [exact Ha|exact Hf|done|done|lia|rewrite length_drop; lia|done|lia|lia|].
  intros u t1 di1 Ha1 Hw1 Hic1 Hcw1 Hfr1. fold c in Hw1.
  destruct (Z.ltb_spec n1 0); [lia|]. rewrite Z.eqb_refl. cbn [negb].
  set (fl1 := set_f_off (f_off fl + n1) fl). set (s1 := set_ftable _ _).
  assert (Hp1 : filewrite_post s t f fl ip x di c s1 t1 (seen x di1) di1).
  { split_and!; try done. unfold s1, fl1. simpl. by rewrite Hlc. }
  eapply (IH fl1 (seen x di1) di1 (i + n1) Q s1 t1); [exact Ha1|by apply list_lookup_insert_eq|done|done|lia|done|lia| |unfold fl1; simpl; lia|lia|].
  { unfold fl1. simpl. rewrite (wf_size _ _ _ _ _ _ _ _ Hw1), Hlc. lia. }
  intros s2 t2 x2 di2 Hp2. apply (HQ s2 t2 x2 di2).
  replace (take (Z.to_nat (n - i)) (drop (Z.to_nat i) addr)) with (c ++ take (Z.to_nat (n - (i + n1))) (drop (Z.to_nat (i + n1)) addr)).
  - eapply filewrite_post_trans; [exact Hp1|]. rewrite Hlc. exact Hp2.
  - unfold c. replace (drop (Z.to_nat (i + n1)) addr) with (drop (Z.to_nat n1) (drop (Z.to_nat i) addr)) by (rewrite drop_drop; f_equal; lia).
    rewrite take_take_drop. f_equal. lia.
Qed.

Lemma write_rounds_enough n : 0 <= n -> n <= Z.of_nat (write_rounds n) * max_write.
Proof.
  intros Hn. unfold write_rounds. assert (Hm : 0 < max_write) by reflexivity.
  pose proof (Z.div_pos n max_write Hn Hm). pose proof (Z.mul_succ_div_gt n max_write Hm). rewrite Z2Nat.id by lia. lia.
Qed.

Lemma wp_filewrite f fl ip x di addr n Q s t :
  file_at (fd_fs s) t ip x di -> ftable s !! f = Some fl -> f_type fl = FD_INODE -> f_ip fl = ip -> f_writable fl = true -> 24 < sz ->
  0 <= n <= Z.of_nat (length addr) -> 0 <= f_off fl <= di_size di -> f_off fl + n <= MAXFILE * Z.of_nat BSIZE ->
  (30 * write_rounds n <= nfree (tv t) sb)%nat ->
  (forall s' t' x' di', filewrite_post s t f fl ip x di (take (Z.to_nat n) addr) s' t' x' di' -> Q (Return n, n) s') ->
  wp E (filewrite f addr n) Q s.
Proof.
  intros Ha Hf Hty Hip Hwr Hsz Hn Hoff Hmax Hnf HQ. unfold filewrite. apply wp_bind. eapply wp_getf_at; [exact Hf|].
  rewrite Hwr, Hty. cbn [negb]. apply wp_bind.
  eapply wp_filewrite_loop; [exact Ha|exact Hf|done|done|lia|lia| |done|lia|lia|].
  - rewrite Z.sub_0_r. apply write_rounds_enough. lia.
  - intros s' t' x' di' Hp. apply wp_ret. rewrite Z.eqb_refl. rewrite Z.sub_0_r, drop_0 in Hp. by eapply HQ.
Qed.

(** [fileread] gives the bytes from the offset on and moves it past them. *)
Lemma wp_fileread f fl ip x di n Q s t :
  file_at (fd_fs s) t ip x di -> ftable s !! f = Some fl -> f_type fl = FD_INODE -> f_ip fl = ip -> f_readable fl = true ->
  0 <= n < 2 ^ 31 -> 0 <= f_off fl <= di_size di ->
  let m := Z.min n (di_size di - f_off fl) in
  (forall u x', file_at u t ip x' di -> icache u = <[ip := x']> (icache (fd_fs s)) -> i_inum x' = i_inum x ->
     Q (Return m, file_bytes (tv t) di (f_off fl) m)
       (set_ftable (<[f := set_f_off (f_off fl + m) fl]> (ftable s)) (set_fd_fs u s))) ->
  wp E (fileread f n) Q s.
Proof.
  intros Ha Hf Hty Hip Hrd Hn Hoff m HQ. destruct Ha as [Hs Hsb Hic Hx Hr Hu Hd [Ht0 Htd] Hfo Hfu Hmu Hid].
  pose proof Hid as [Hth Htl Htn]. destruct (ic_used _ _ _ Hic ip x Hx Hr) as [Hdev Hin].
  pose proof (lookup_lt_Some _ _ _ Hx) as Hlt. pose proof (do_size _ (fo_di _ _ _ Hfo)) as Hsz. pose proof Hfu as [Hmax _].
  assert (Hroom : room sz 0 t) by (by eapply room_fsrep).
  unfold fileread. apply wp_bind. eapply wp_getf_at; [exact Hf|]. rewrite Hrd, Hty. cbn [negb]. apply wp_bind, wp_infs. rewrite Hip.
  eapply (wp_ilock start sz sb Hly ip x di); [exact Hs|done|exact Hic|exact Hx|done|done|exact Hd|done|by apply not_held_empty|done|].
  intros l1 H1. apply wp_bind. eapply wp_getf_at; [exact Hf|]. apply wp_bind, wp_infs. rewrite Hip.
  set (xl := mkinode ROOTDEV (i_inum x) (i_ref x) 3 di). rewrite u32_small by lia.
  eapply (wp_readi start sz sb Hly ip xl (f_off fl) n _ _ t);
    [exact H1|by apply list_lookup_insert_eq|done|exact Hfo|exact Hfu|done|done|done|lia|lia|].
  intros l2 H2. simpl (i_d xl).
  assert (Hres : read_result (tv t) di (f_off fl) n = (m, file_bytes (tv t) di (f_off fl) m)).
  { unfold read_result. destruct (Z.ltb_spec (di_size di) (f_off fl)); [lia|].
    destruct (Z.leb_spec (2 ^ 32) (f_off fl + n)); [fs_lia|]. done. }
  rewrite Hres. cbn [fst snd]. assert (Hm0 : 0 <= m) by lia.
  apply wp_bind. eapply (wp_mono _ (fun _ s' => s' = set_ftable (<[f := set_f_off (f_off fl + m) fl]> (ftable s))
    (set_fd_fs (set_lst l2 (set_icache (<[ip := xl]> (icache (fd_fs s))) (set_lst l1 (fd_fs s)))) s))).
  { destruct (Z.ltb_spec 0 m) as [Hpos|Hz]; unfold when.
    - eapply wp_modf_at; [exact Hf|]. cbn [ftable set_ftable set_fd_fs]. by rewrite u32_small by fs_lia.
    - apply wp_ret. replace m with 0 by lia. rewrite Z.add_0_r, (list_insert_id (ftable s) f); [done|]. destruct fl. exact Hf. }
  intros _ s2 ->. apply wp_bind, wp_infs. cbn [fd_fs set_ftable set_fd_fs].
  eapply (wp_iunlock start sz ip xl); [exact H2|by apply list_lookup_insert_eq|done|done|].
  intros l3 H3. apply wp_ret. cbn [fd_fs ftable set_ftable set_fd_fs icache set_icache set_lst]. rewrite list_insert_insert_eq.
  apply (HQ _ (seen x di)); [|reflexivity|reflexivity]. split; try done.
  - eapply icache_ok_change; [exact Hic|exact Hx|done|simpl; lia|done|done|done|]. intros _. exact Hd.
  - by apply list_lookup_insert_eq.
Qed.
End FileIO.
