(* ===== verification/Sysfile.v ===== *)
(** * File system calls (sysfile.c)

    Each call fetches its arguments from the memory of the process ([Syscall]),
    and works on the open files ([File]) and the file system ([Fs]).  The state
    adds [proc->ofile] and the memory of the process to that of [File];
    [proc->cwd] is in the state of [Fs].  A pointer of the process is a number; a
    string argument is the memory from its address on.  The reads and writes of
    pipes may sleep, and end with a [segment]. *)

From stdpp Require Import base numbers list gmap strings.
From S2P Require Import Prelude Strings Bytes Syscall Machine Pipe Ide Store Log Fs File.

Open Scope Z_scope.

Definition NOFILE : nat := 16.
Definition MAXARG : nat := 32.
Definition FILE_UID : Z := 0.
Definition FILE_GID : Z := 0.
Definition FILE_MODE : Z := 493.

Definition set_di_major (v : Z) (x : dinode) : dinode := ltac:(update dinode_eta di_major v x).
Definition set_di_minor (v : Z) (x : dinode) : dinode := ltac:(update dinode_eta di_minor v x).

(** The fields of [struct stat] where [stati] stores them. *)
Definition put_stat (m : list Z) (a : nat) (st : stat) : option (list Z) :=
  m ← put32 m (a + 4) (st_dev st);
  m ← put32 m (a + 8) (st_ino st);
  m ← put16 m a (st_type st);
  m ← put16 m (a + 12) (st_nlink st);
  m ← put32 m (a + 24) (st_size st);
  m ← put32 m (a + 16) (st_mode st);
  m ← put16 m (a + 20) (st_uid st);
  put16 m (a + 22) (st_gid st).
Definition STAT_SIZE : Z := 28.

(** The strings "." and "..". *)
Definition dot : list Z := [46; 0].
Definition dotdot : list Z := [46; 46; 0].

Section Create.
Context {S : Type} {BC : BufferCache S} {DV : Devsw S}.

(** [for(off=2*sizeof(de); off<dp->size; off+=sizeof(de))]. *)
Fixpoint isdirempty_loop (fuel : nat) (dp : nat) (off : Z) : M (fstate S) bool :=
  x ← geti dp;
  if di_size (i_d x) <=? off then mret true else
  match fuel with
  | O => fail NoFuel
  | Datatypes.S fuel =>
      r ← readi dp off 16;
      if negb (r.1 =? 16) then panic "isdirempty: readi" else
      inum ← or_fault (get16 r.2 0);
      if negb (inum =? 0) then mret false else isdirempty_loop fuel dp (off + 16)
  end.

Definition isdirempty (dp : nat) : M (fstate S) bool :=
  x ← geti dp;
  isdirempty_loop (Z.to_nat (di_size (i_d x) / 16 + 1)) dp 32.

(** The inode, locked, on success.  [ialloc] never returns null. *)
Definition create (path : list Z) (type major minor : Z) : M (fstate S) (option nat) :=
  r ← nameiparent path (replicate DIRSIZ 0);
  match r with
  | (None, _) => mret None
  | (Some dp, name) =>
      ilock dp ;;
      e ← dirlookup dp name;
      match e with
      | Some (ip, _) =>
          iunlockput dp ;;
          ilock ip ;;
          x ← geti ip;
          if (type =? T_FILE) && (di_type (i_d x) =? T_FILE) then mret (Some ip)
          else iunlockput ip ;; mret None
      | None =>
          d ← geti dp;
          ip ← ialloc (i_dev d) type;
          ilock ip ;;
          modd ip (fun di => set_di_nlink 1 (set_di_minor (s16 minor) (set_di_major (s16 major) di))) ;;
          modd ip (fun di => set_di_mode FILE_MODE (set_di_gid FILE_GID (set_di_uid FILE_UID di))) ;;
          iupdate ip ;;
          x ← geti ip;
          when (type =? T_DIR)
            (modd dp (fun di => set_di_nlink (s16 (di_nlink di + 1)) di) ;;
             iupdate dp ;;
             r1 ← dirlink ip dot (i_inum x);
             d ← geti dp;
             r2 ← (if r1 <? 0 then mret r1 else dirlink ip dotdot (i_inum d));
             if r2 <? 0 then panic "create dots" else mret tt) ;;
          r3 ← dirlink dp name (i_inum x);
          if r3 <? 0 then panic "create: dirlink" else
          iunlockput dp ;;
          mret (Some ip)
      end
  end.
End Create.

Section Sysfile.
Context {S P : Type} {BC : BufferCache S} {DV : Devsw S} {PI : Pipes P}.

Record sst := mksst {
  ss_fd : fdst S P;
  ofile : list (option nat);
  ss_ctx : uctx;
}.

Definition set_ss_fd (v : fdst S P) (s : sst) : sst := mksst v (ofile s) (ss_ctx s).
Definition set_ofile (v : list (option nat)) (s : sst) : sst := mksst (ss_fd s) v (ss_ctx s).
Definition set_umem (m : list Z) (s : sst) : sst :=
  mksst (ss_fd s) (ofile s) (mkuctx m (u_sz (ss_ctx s)) (u_esp (ss_ctx s))).

Definition infd {A} (m : M (fdst S P) A) : M sst A := fun s =>
  match m (ss_fd s) with
  | Ok (a, t) => Ok (a, set_ss_fd t s)
  | Err e => Err e
  end.
Definition s_fs {A} (m : M (fstate S) A) : M sst A := infd (infs m).
Definition s_begin_op : M sst unit := infd t_begin_op.
Definition s_end_op : M sst unit := infd t_end_op.

(** An argument, from the memory of the process. *)
Definition arg {A} (f : uctx -> outcome (option A)) : M sst (option A) := fun s =>
  match f (ss_ctx s) with Ok r => Ok (r, s) | Err e => Err e end.
Definition uint_arg (n : Z) : M sst (option Z) := arg (fun p => argint p n).
Definition ptr_arg (n size : Z) : M sst (option Z) := arg (fun p => argptr p n size).
Definition mem_at (a : Z) : M sst (list Z) := gets (fun s => drop (Z.to_nat a) (u_mem (ss_ctx s))).
Definition path_arg (n : Z) : M sst (option (list Z)) :=
  r ← arg (fun p => argstr p n);
  match r with
  | None => mret None
  | Some (a, _) => m ← mem_at a; mret (Some m)
  end.

(** A store of the kernel in the memory of the process. *)
Definition store_user (f : list Z -> option (list Z)) : M sst unit := fun s =>
  match f (u_mem (ss_ctx s)) with Some m => Ok (tt, set_umem m s) | None => Err Fault end.

(** [*pfd] and [*pf] on success. *)
Definition argfd (n : Z) : M sst (option (Z * nat)) :=
  r ← uint_arg n;
  match r with
  | None => mret None
  | Some fd =>
      if (fd <? 0) || (Z.of_nat NOFILE <=? fd) then mret None else
      l ← gets ofile;
      o ← or_fault (l !! Z.to_nat fd);
      mret (match o with Some f => Some (fd, f) | None => None end)
  end.

Fixpoint fdalloc_scan (l : list (option nat)) (fd : nat) : option nat :=
  match l with
  | [] => None
  | None :: _ => Some fd
  | Some _ :: l => fdalloc_scan l (Datatypes.S fd)
  end.

Definition fdalloc (f : nat) : M sst Z :=
  l ← gets ofile;
  match fdalloc_scan l 0 with
  | Some fd => modify (set_ofile (<[fd := Some f]> l)) ;; mret (Z.of_nat fd)
  | None => mret (-1)
  end.

Definition sys_dup : M sst Z :=
  r ← argfd 0;
  match r with
  | None => mret (-1)
  | Some (_, f) =>
      fd ← fdalloc f;
      if fd <? 0 then mret (-1) else
      infd (filedup f) ;;
      mret fd
  end.

(** The three arguments of [read] and [write]: the file, the pointer and the size. *)
Definition rw_args : M sst (option (nat * Z * Z)) :=
  r ← argfd 0;
  match r with
  | None => mret None
  | Some (_, f) =>
      n ← uint_arg 2;
      match n with
      | None => mret None
      | Some n =>
          p ← ptr_arg 1 n;
          mret (match p with Some p => Some (f, p, n) | None => None end)
      end
  end.

Definition sys_read : M sst segment :=
  a ← rw_args;
  match a with
  | None => mret (Return (-1))
  | Some (f, p, n) =>
      r ← infd (fileread f n);
      store_user (fun m => wr_bytes m (Z.to_nat p) r.2) ;;
      mret r.1
  end.

Definition sys_write : M sst (segment * Z) :=
  a ← rw_args;
  match a with
  | None => mret (Return (-1), 0)
  | Some (f, p, n) => m ← mem_at p; infd (filewrite f m n)
  end.

Definition sys_close : M sst Z :=
  r ← argfd 0;
  match r with
  | None => mret (-1)
  | Some (fd, f) =>
      modify (fun s => set_ofile (<[Z.to_nat fd := None]> (ofile s)) s) ;;
      infd (fileclose f) ;;
      mret 0
  end.

Definition sys_fstat : M sst Z :=
  r ← argfd 0;
  match r with
  | None => mret (-1)
  | Some (_, f) =>
      p ← ptr_arg 1 STAT_SIZE;
      match p with
      | None => mret (-1)
      | Some p =>
          r ← infd (filestat f);
          match r with
          | (c, Some st) => store_user (fun m => put_stat m (Z.to_nat p) st) ;; mret c
          | (c, None) => mret c
          end
      end
  end.

(** [bad] of [sys_link]. *)
Definition link_bad (ip : nat) : M sst Z :=
  s_fs (ilock ip) ;;
  s_fs (modd ip (fun di => set_di_nlink (s16 (di_nlink di - 1)) di)) ;;
  s_fs (iupdate ip) ;;
  s_fs (iunlockput ip) ;;
  s_end_op ;;
  mret (-1).

Definition sys_link : M sst Z :=
  old ← path_arg 0;
  match old with
  | None => mret (-1)
  | Some old =>
      new ← path_arg 1;
      match new with
      | None => mret (-1)
      | Some new =>
          s_begin_op ;;
          ip ← s_fs (namei old);
          match ip with
          | None => s_end_op ;; mret (-1)
          | Some ip =>
              s_fs (ilock ip) ;;
              x ← s_fs (geti ip);
              if di_type (i_d x) =? T_DIR then s_fs (iunlockput ip) ;; s_end_op ;; mret (-1) else
              s_fs (modd ip (fun di => set_di_nlink (s16 (di_nlink di + 1)) di)) ;;
              s_fs (iupdate ip) ;;
              s_fs (iunlock ip) ;;
              r ← s_fs (nameiparent new (replicate DIRSIZ 0));
              match r with
              | (None, _) => link_bad ip
              | (Some dp, name) =>
                  s_fs (ilock dp) ;;
                  d ← s_fs (geti dp);
                  x ← s_fs (geti ip);
                  c ← (if negb (i_dev d =? i_dev x) then mret (-1) else s_fs (dirlink dp name (i_inum x)));
                  if c <? 0 then s_fs (iunlockput dp) ;; link_bad ip else
                  s_fs (iunlockput dp) ;;
                  s_fs (iput ip) ;;
                  s_end_op ;;
                  mret 0
              end
          end
      end
  end.

(** [bad] of [sys_unlink]. *)
Definition unlink_bad (dp : nat) : M sst Z :=
  s_fs (iunlockput dp) ;; s_end_op ;; mret (-1).

Definition sys_unlink : M sst Z :=
  path ← path_arg 0;
  match path with
  | None => mret (-1)
  | Some path =>
      s_begin_op ;;
      r ← s_fs (nameiparent path (replicate DIRSIZ 0));
      match r with
      | (None, _) => s_end_op ;; mret (-1)
      | (Some dp, name) =>
          s_fs (ilock dp) ;;
          c1 ← lift (namecmp name dot);
          c2 ← (if c1 =? 0 then mret 0 else lift (namecmp name dotdot));
          if c2 =? 0 then unlink_bad dp else
          e ← s_fs (dirlookup dp name);
          match e with
          | None => unlink_bad dp
          | Some (ip, off) =>
              s_fs (ilock ip) ;;
              x ← s_fs (geti ip);
              if di_nlink (i_d x) <? 1 then panic "unlink: nlink < 1" else
              empty ← (if di_type (i_d x) =? T_DIR then s_fs (isdirempty ip) else mret true);
              if negb empty then s_fs (iunlockput ip) ;; unlink_bad dp else
              n ← s_fs (writei dp (replicate 16 0) off 16);
              if negb (n =? 16) then panic "unlink: writei" else
              when (di_type (i_d x) =? T_DIR)
                (s_fs (modd dp (fun di => set_di_nlink (s16 (di_nlink di - 1)) di)) ;;
                 s_fs (iupdate dp)) ;;
              s_fs (iunlockput dp) ;;
              s_fs (modd ip (fun di => set_di_nlink (s16 (di_nlink di - 1)) di)) ;;
              s_fs (iupdate ip) ;;
              s_fs (iunlockput ip) ;;
              s_end_op ;;
              mret 0
          end
      end
  end.

(** The inode [open] works on, locked: created, or found by its name. *)
Definition open_inode (path : list Z) (omode : Z) : M sst (option nat) :=
  if negb (Z.land omode O_CREATE =? 0) then s_fs (create path T_FILE 0 0) else
  ip ← s_fs (namei path);
  match ip with
  | None => mret None
  | Some ip =>
      s_fs (ilock ip) ;;
      x ← s_fs (geti ip);
      if (di_type (i_d x) =? T_DIR) && negb (omode =? O_RDONLY) then
        s_fs (iunlockput ip) ;; mret None
      else mret (Some ip)
  end.

Definition sys_open : M sst Z :=
  path ← path_arg 0;
  match path with
  | None => mret (-1)
  | Some path =>
      o ← uint_arg 1;
      match o with
      | None => mret (-1)
      | Some omode =>
          s_begin_op ;;
          ip ← open_inode path omode;
          match ip with
          | None => s_end_op ;; mret (-1)
          | Some ip =>
              f ← infd filealloc;
              fd ← (match f with Some f => fdalloc f | None => mret (-1) end);
              match f with
              | Some f =>
                  if fd <? 0 then
                    infd (fileclose f) ;; s_fs (iunlockput ip) ;; s_end_op ;; mret (-1)
                  else
                    s_fs (iunlock ip) ;;
                    s_end_op ;;
                    infd (modf f (fun x => mkfile FD_INODE (f_ref x)
                      (Z.land omode O_WRONLY =? 0)
                      (negb (Z.land omode O_WRONLY =? 0) || negb (Z.land omode O_RDWR =? 0))
                      (f_pipe x) ip 0)) ;;
                    mret fd
              | None => s_fs (iunlockput ip) ;; s_end_op ;; mret (-1)
              end
          end
      end
  end.

(** [sys_mkdir] and [sys_mknod] once [create] has been called or not. *)
Definition made (ip : option nat) : M sst Z :=
  match ip with
  | None => s_end_op ;; mret (-1)
  | Some ip => s_fs (iunlockput ip) ;; s_end_op ;; mret 0
  end.

Definition sys_mkdir : M sst Z :=
  s_begin_op ;;
  path ← path_arg 0;
  ip ← (match path with Some path => s_fs (create path T_DIR 0 0) | None => mret None end);
  made ip.

Definition sys_mknod : M sst Z :=
  s_begin_op ;;
  path ← path_arg 0;
  match path with
  | None => made None
  | Some path =>
      major ← uint_arg 1;
      match major with
      | None => made None
      | Some major =>
          minor ← uint_arg 2;
          match minor with
          | None => made None
          | Some minor => ip ← s_fs (create path T_DEV major minor); made ip
          end
      end
  end.

Definition sys_chdir : M sst Z :=
  s_begin_op ;;
  path ← path_arg 0;
  ip ← (match path with Some path => s_fs (namei path) | None => mret None end);
  match ip with
  | None => s_end_op ;; mret (-1)
  | Some ip =>
      s_fs (ilock ip) ;;
      x ← s_fs (geti ip);
      if negb (di_type (i_d x) =? T_DIR) then s_fs (iunlockput ip) ;; s_end_op ;; mret (-1) else
      s_fs (iunlock ip) ;;
      old ← s_fs (gets cwd);
      s_fs (iput old) ;;
      s_end_op ;;
      s_fs (modify (fun s => mkfst (fs_lst s) (fs_sb s) (icache s) ip)) ;;
      mret 0
  end.

(** The two descriptors, or -1 for the one that is missing. *)
Definition sys_pipe : M sst Z :=
  p ← ptr_arg 0 8;
  match p with
  | None => mret (-1)
  | Some fd =>
      r ← infd pipealloc;
      match r with
      | None => mret (-1)
      | Some (rf, wf) =>
          fd0 ← fdalloc rf;
          fd1 ← (if fd0 <? 0 then mret (-1) else fdalloc wf);
          if fd1 <? 0 then
            when (0 <=? fd0) (modify (fun s => set_ofile (<[Z.to_nat fd0 := None]> (ofile s)) s)) ;;
            infd (fileclose rf) ;;
            infd (fileclose wf) ;;
            mret (-1)
          else
            store_user (fun m => put32 m (Z.to_nat fd) fd0) ;;
            store_user (fun m => put32 m (Z.to_nat fd + 4) fd1) ;;
            mret 0
      end
  end.

(** [sys_chmod], [sys_chown] and [sys_chgrp] fetch the number first. *)
Definition num_path (k : Z -> list Z -> M sst Z) : M sst Z :=
  n ← uint_arg 1;
  match n with
  | None => mret (-1)
  | Some n =>
      path ← path_arg 0;
      match path with
      | None => mret (-1)
      | Some path => k n path
      end
  end.

Definition sys_chmod : M sst Z :=
  num_path (fun mode path =>
    if (3361 <? mode) || (mode <? 0) then mret (-1) else
    s_fs (chmod path mode) ;; mret 0).
Definition sys_chown : M sst Z := num_path (fun uid path => s_fs (chown path uid) ;; mret 0).
Definition sys_chgrp : M sst Z := num_path (fun gid path => s_fs (chgrp path gid) ;; mret 0).
End Sysfile.
Arguments sst S P : clear implicits.
