(* ===== verification/FileCount.v ===== *)
(** * Reference counts of open files

    Every count of the file table is the number of descriptors that name the
    file, whatever calls the processes make and in whatever order: a file is
    given out again only when no descriptor names it. *)

From stdpp Require Import base numbers list gmap strings.
From S2P Require Import Prelude Strings Bytes Syscall Machine Pipe Ide Store Log Fs File Sysfile.

Open Scope Z_scope.

Definition refcount (l : list file) (f : nat) : Z :=
  match l !! f with Some x => f_ref x | None => 0 end.

(** The descriptors of a process that name [f]. *)
Definition ndesc (l : list (option nat)) (f : nat) : Z := Z.of_nat (length (filter (fun o => o = Some f) l)).

Definition one (f g : nat) : Z := if bool_decide (g = f) then 1 else 0.

Lemma refcount_insert l f x y g : l !! f = Some x ->
  refcount (<[f := y]> l) g = refcount l g + one f g * (f_ref y - f_ref x).
Proof.
  intros Hx. unfold refcount, one. case_bool_decide as Hg.
  - subst g. rewrite list_lookup_insert_eq by (by eapply lookup_lt_Some). rewrite Hx. lia.
  - rewrite list_lookup_insert_ne by done. lia.
Qed.

Lemma ndesc_cons o l f : ndesc (o :: l) f = (if bool_decide (o = Some f) then 1 else 0) + ndesc l f.
Proof. unfold ndesc. rewrite filter_cons. do 2 case_match; try done; case_bool_decide; simpl; done || lia. Qed.

Lemma ndesc_insert l i o o' f : l !! i = Some o ->
  ndesc (<[i := o']> l) f =
    ndesc l f - (if bool_decide (o = Some f) then 1 else 0) + (if bool_decide (o' = Some f) then 1 else 0).
Proof.
  revert i. induction l as [|p l IH]; intros [|i] Hi; simplify_eq/=; rewrite !ndesc_cons; [lia|].
  rewrite (IH i Hi). lia.
Qed.

Lemma ndesc_nonneg l f : 0 <= ndesc l f.
Proof. unfold ndesc. lia. Qed.

Lemma ndesc_member l i f : l !! i = Some (Some f) -> 1 <= ndesc l f.
Proof.
  intros Hi. pose proof (ndesc_insert l i (Some f) None f Hi) as H. rewrite bool_decide_true in H by done.
  rewrite bool_decide_false in H by done. pose proof (ndesc_nonneg (<[i := None]> l) f). lia.
Qed.

Lemma filealloc_scan_free l i f : filealloc_scan l i = Some f ->
  exists k x, f = (i + k)%nat /\ l !! k = Some x /\ f_ref x = 0.
Proof.
  revert i. induction l as [|x l IH]; intros i; simpl; [done|]. destruct (Z.eqb_spec (f_ref x) 0).
  - intros [= <-]. exists 0%nat, x. split_and!; [lia|done|done].
  - intros (k & y & -> & Hy & Hr)%IH. exists (Datatypes.S k), y. split_and!; [lia|done|done].
Qed.

Lemma fdalloc_scan_free l i fd : fdalloc_scan l i = Some fd -> exists k, fd = (i + k)%nat /\ l !! k = Some None.
Proof.
  revert i. induction l as [|[f|] l IH]; intros i; simpl; [done| |].
  - intros (k & -> & Hk)%IH. exists (Datatypes.S k). split; [lia|done].
  - intros [= <-]. exists 0%nat. split; [lia|done].
Qed.

Section Table.
Context {S P : Type} {BC : BufferCache S} {DV : Devsw S} {PI : Pipes P}.
Implicit Types (s : fdst S P).

Notation any := (fun _ : error => True).

Lemma wp_any {T A} (m : M T A) (Q : A -> T -> Prop) (s : T) : (forall a (s' : T), m s = Ok (a, s') -> Q a s') -> wp any m Q s.
Proof. unfold wp. destruct (m s) as [[a s']|]; auto. Qed.

Lemma infs_table {A} (m : M (fstate S) A) Q s : (forall a t, Q a (set_fd_fs t s)) -> wp any (infs (P := P) m) Q s.
Proof. intros H. apply wp_any. unfold infs. intros a s'. destruct (m _) as [[]|]; [|done]. intros [= <- <-]. apply H. Qed.

Lemma inpipes_table {A} (m : M P A) Q s : (forall a t, Q a (set_fd_pipes t s)) -> wp any (inpipes (S := S) m) Q s.
Proof. intros H. apply wp_any. unfold inpipes. intros a s'. destruct (m _) as [[]|]; [|done]. intros [= <- <-]. apply H. Qed.

Lemma wp_getf f Q s : (forall x, ftable s !! f = Some x -> Q x s) -> wp any (getf f) Q s.
Proof. intros H. apply wp_any. unfold getf. intros a s'. destruct (ftable s !! f); [|done]. intros [= <- <-]. auto. Qed.

Lemma wp_modf f g Q s :
  (forall x, ftable s !! f = Some x -> Q tt (set_ftable (<[f := g x]> (ftable s)) s)) -> wp any (modf f g) Q s.
Proof. intros H. apply wp_any. unfold modf. intros a s'. destruct (ftable s !! f); [|done]. intros [= <- <-]. auto. Qed.

(** The counts of the table are [R]. *)
Definition tab (R : nat -> Z) s : Prop := forall f, refcount (ftable s) f = R f /\ 0 <= R f.

Lemma tab_mono {A} (m : M (fdst S P) A) (R : A -> nat -> Z) (Q : A -> fdst S P -> Prop) s :
  wp any m (fun a => tab (R a)) s -> (forall a s', tab (R a) s' -> Q a s') -> wp any m Q s.
Proof. intros H HQ. eapply wp_mono; [exact H|]. exact HQ. Qed.

Lemma tab_ext R R' s : tab R s -> (forall f, R f = R' f) -> tab R' s.
Proof. intros H HR f. rewrite <-HR. apply H. Qed.

Lemma tab_set R s f x y : tab R s -> ftable s !! f = Some x -> 0 <= f_ref y ->
  tab (fun g => R g + one f g * (f_ref y - f_ref x)) (set_ftable (<[f := y]> (ftable s)) s).
Proof.
  intros H Hx Hy g. cbn [ftable set_ftable]. rewrite (refcount_insert _ _ x) by done. destruct (H g) as [<- Hg].
  split; [done|]. unfold one. case_bool_decide as Hgf; [subst g|lia].
  unfold refcount. rewrite Hx. lia.
Qed.

Lemma tab_filealloc R Q s : tab R s ->
  (forall s', tab R s' -> Q None s') ->
  (forall f s', R f = 0 -> tab (fun g => R g + one f g) s' -> Q (Some f) s') ->
  wp any filealloc Q s.
Proof.
  intros Hs H0 H1. unfold filealloc, t_acquire. apply wp_bind, infs_table. intros _ t. apply wp_bind, wp_gets.
  cbn [ftable set_fd_fs]. destruct (filealloc_scan (ftable s) 0) as [f|] eqn:Hf.
  - apply filealloc_scan_free in Hf as (k & x & -> & Hx & Hr). change (0 + k)%nat with k. apply wp_bind, wp_modf. cbn [ftable set_fd_fs].
    intros y Hy. assert (y = x) as -> by congruence. unfold t_release. apply wp_bind, infs_table. intros _ t2. apply wp_ret, H1.
    + destruct (Hs k) as [<- _]. unfold refcount. by rewrite Hx.
    + intros g. destruct (tab_set R s k x (set_f_ref 1 x) Hs Hx ltac:(simpl; lia) g) as [Hg Hg'].
      simpl in Hg, Hg'. rewrite Hr in *. split; [|lia]. simpl. lia.
  - unfold t_release. apply wp_bind, infs_table. intros _ t2. apply wp_ret, H0, Hs.
Qed.

Lemma tab_filedup R f Q s : tab R s -> (forall s', 1 <= R f -> tab (fun g => R g + one f g) s' -> Q f s') ->
  wp any (filedup f) Q s.
Proof.
  intros Hs HQ. unfold filedup, t_acquire. apply wp_bind, infs_table. intros _ t. apply wp_bind, wp_getf.
  cbn [ftable set_fd_fs]. intros x Hx. destruct (Z.ltb_spec (f_ref x) 1); [done|].
  apply wp_bind, wp_modf. cbn [ftable set_fd_fs]. intros y Hy. assert (y = x) as -> by congruence. unfold t_release.
  apply wp_bind, infs_table. intros _ t2. apply wp_ret, HQ.
  - destruct (Hs f) as [<- _]. unfold refcount. by rewrite Hx.
  - intros g. destruct (tab_set R s f x (set_f_ref (f_ref x + 1) x) Hs Hx ltac:(simpl; lia) g) as [Hg Hg'].
    simpl in Hg, Hg'. split; [simpl|]; lia.
Qed.

(** What [fileclose] does once the table is up to date does not touch it. *)
Lemma closing_table f (x : file) Q s : (forall s', ftable s' = ftable s -> Q tt s') ->
  wp any (match f_type x with
          | FD_PIPE => inpipes (pipes_close (f_pipe x) (f_writable x))
          | FD_INODE => t_begin_op ;; infs (iput f) ;; t_end_op
          | FD_NONE => mret tt
          end) Q s.
Proof.
  intros HQ. destruct (f_type x).
  - by apply wp_ret, HQ.
  - apply inpipes_table. intros [] t. by apply HQ.
  - unfold t_begin_op, t_end_op. apply wp_bind, infs_table. intros _ t. apply wp_bind, infs_table. intros _ t2.
    apply infs_table. intros [] t3. by apply HQ.
Qed.

Lemma tab_fileclose R f Q s : tab R s -> (forall s', 1 <= R f -> tab (fun g => R g - one f g) s' -> Q tt s') ->
  wp any (fileclose f) Q s.
Proof.
  intros Hs HQ. unfold fileclose, t_acquire. apply wp_bind, infs_table. intros _ t. apply wp_bind, wp_getf.
  cbn [ftable set_fd_fs]. intros x Hx. destruct (Z.ltb_spec (f_ref x) 1); [done|].
  assert (HR : 1 <= R f) by (destruct (Hs f) as [<- _]; unfold refcount; by rewrite Hx).
  assert (Hlt := lookup_lt_Some _ _ _ Hx).
  apply wp_bind, wp_modf. cbn [ftable set_fd_fs set_ftable]. intros y Hy. assert (y = x) as -> by congruence. apply wp_bind, wp_getf.
  cbn [ftable set_fd_fs set_ftable]. intros z. rewrite list_lookup_insert_eq by done. intros [= <-].
  destruct (Z.ltb_spec 0 (f_ref (set_f_ref (f_ref x - 1) x))) as [Hp|Hp]; simpl in Hp.
  - unfold t_release. apply infs_table. intros [] t2. apply HQ; [done|]. intros g.
    destruct (tab_set R s f x (set_f_ref (f_ref x - 1) x) Hs Hx ltac:(simpl; lia) g) as [Hg Hg'].
    simpl in Hg, Hg'. split; [simpl|]; lia.
  - apply wp_bind, wp_modf. cbn [ftable set_fd_fs set_ftable]. intros z. rewrite list_lookup_insert_eq by done. intros [= <-].
    apply wp_bind, wp_modf. cbn [ftable set_fd_fs set_ftable]. intros z.
    rewrite list_lookup_insert_eq by (by rewrite length_insert). intros [= <-].
    unfold t_release. apply wp_bind, infs_table. intros _ t2. apply (closing_table _ (set_f_ref (f_ref x - 1) x)).
    intros s' Hs'. apply HQ; [done|]. intros g. rewrite Hs'. simpl. rewrite !list_insert_insert_eq.
    destruct (tab_set R s f x (set_f_type FD_NONE (set_f_ref 0 (set_f_ref (f_ref x - 1) x))) Hs Hx ltac:(simpl; lia) g) as [Hg Hg'].
    assert (Hr1 : f_ref x = 1) by lia. simpl in Hg, Hg'. rewrite Hr1 in *. split; [rewrite Hg|]; lia.
Qed.

(** A change that keeps the count. *)
Lemma tab_modf R f g Q s : tab R s -> (forall x, f_ref (g x) = f_ref x) -> (forall s', tab R s' -> Q tt s') ->
  wp any (modf f g) Q s.
Proof.
  intros Hs Hg HQ. apply wp_modf. intros x Hx. apply HQ. intros h.
  assert (Hx0 : 0 <= f_ref x) by (destruct (Hs f) as [Hf ?]; unfold refcount in Hf; rewrite Hx in Hf; lia).
  destruct (tab_set R s f x (g x) Hs Hx ltac:(rewrite Hg; done) h) as [Ha Hb]. rewrite Hg in *. split; [rewrite Ha|]; lia.
Qed.

Lemma tab_close_if R o Q s : tab R s ->
  (forall s', tab (fun g => R g - match o with Some f => one f g | None => 0 end) s' -> Q tt s') ->
  wp any (close_if o) Q s.
Proof.
  intros Hs HQ. destruct o as [f|]; simpl.
  - eapply tab_fileclose; [exact Hs|]. intros s' _ Hs'. by apply HQ.
  - apply wp_ret, HQ. eapply tab_ext; [exact Hs|]. intros g. lia.
Qed.

Lemma tab_pipealloc R Q s : tab R s ->
  (forall s', tab R s' -> Q None s') ->
  (forall f0 f1 s', tab (fun g => R g + one f0 g + one f1 g) s' -> Q (Some (f0, f1)) s') ->
  wp any pipealloc Q s.
Proof.
  intros Hs H0 H1. assert (Hbad : forall R' f0 f1 s', tab R' s' ->
    (forall g, R' g = R g + match f0 with Some f => one f g | None => 0 end + match f1 with Some f => one f g | None => 0 end) ->
    wp any (pipealloc_bad 0 f0 f1) Q s').
  { intros R' f0 f1 s' Hs' HR. unfold pipealloc_bad. simpl. apply wp_bind, wp_ret, wp_bind.
    eapply tab_close_if; [exact Hs'|]. intros s2 H2. apply wp_bind. eapply tab_close_if; [exact H2|].
    intros s3 H3. apply wp_ret, H0. eapply tab_ext; [exact H3|]. intros g. simpl. rewrite HR. lia. }
  unfold pipealloc. apply wp_bind. eapply tab_filealloc; [exact Hs| |].
  { intros s' Hs'. eapply Hbad; [exact Hs'|]. intros g. cbn beta iota. lia. }
  intros a s1 _ Hs1. apply wp_bind. eapply tab_filealloc; [exact Hs1| |].
  { intros s' Hs'. eapply Hbad; [exact Hs'|]. intros g. cbn beta iota. lia. }
  intros b s2 _ Hs2. apply wp_bind, inpipes_table. intros p t. destruct (p =? 0).
  { eapply Hbad; [|intros g; reflexivity]. exact Hs2. }
  apply wp_bind, inpipes_table. intros _ t2. apply wp_bind. eapply tab_modf; [exact Hs2|done|]. intros s3 Hs3.
  apply wp_bind. eapply tab_modf; [exact Hs3|done|]. intros s4 Hs4. by apply wp_ret, H1.
Qed.

(** Reading, writing and looking at a file keep the counts. *)
Definition keeps {A} (m : M (fdst S P) A) : Prop := forall R s, tab R s -> wp any m (fun _ => tab R) s.

Lemma keeps_bind {A B} (m : M (fdst S P) A) (f : A -> M (fdst S P) B) :
  keeps m -> (forall a, keeps (f a)) -> keeps (m ≫= f).
Proof. intros Hm Hf R s Hs. apply wp_bind. eapply wp_mono; [by apply Hm|]. intros a s' Hs'. by apply Hf. Qed.

Lemma keeps_ret {A} (a : A) : keeps (mret a).
Proof. intros R s Hs. by apply wp_ret. Qed.

Lemma keeps_fail {A} e : keeps (fail (A := A) e).
Proof. by intros R s Hs. Qed.

Lemma keeps_infs {A} (m : M (fstate S) A) : keeps (infs m).
Proof. intros R s Hs. by apply infs_table. Qed.

Lemma keeps_inpipes {A} (m : M P A) : keeps (inpipes m).
Proof. intros R s Hs. by apply inpipes_table. Qed.

Lemma keeps_getf f : keeps (getf f).
Proof. intros R s Hs. apply wp_getf. done. Qed.

Lemma keeps_off f (g : file -> Z) : keeps (modf f (fun x => set_f_off (g x) x)).
Proof. intros R s Hs. eapply tab_modf; [exact Hs|done|done]. Qed.
End Table.

Create HintDb keeps.
#[export] Hint Resolve keeps_ret keeps_fail keeps_infs keeps_inpipes keeps_getf keeps_off : keeps.

(** Goes through the text of a call. *)
Ltac keep :=
  repeat first
    [ solve [eauto with keeps]
    | apply keeps_bind; [|intros ?]
    | progress unfold when, panic, t_begin_op, t_end_op
    | case_match ].

Section Keep.
Context {S P : Type} {BC : BufferCache S} {DV : Devsw S} {PI : Pipes P}.

Lemma keeps_filestat f : keeps (P := P) (filestat f).
Proof. unfold filestat. keep. Qed.

Lemma keeps_fileread f n : keeps (P := P) (fileread f n).
Proof. unfold fileread. keep. Qed.

Lemma keeps_filewrite_loop fuel f addr n i : keeps (P := P) (filewrite_loop fuel f addr n i).
Proof. revert i. induction fuel as [|fuel IH]; intros i; cbn [filewrite_loop]; keep. Qed.

Lemma keeps_filewrite f addr n : keeps (P := P) (filewrite f addr n).
Proof. unfold filewrite. keep. apply keeps_filewrite_loop. Qed.
End Keep.

(** ** The system calls *)

Section Calls.
Context {S P : Type} {BC : BufferCache S} {DV : Devsw S} {PI : Pipes P}.
Implicit Types (s : sst S P).

Notation any := (fun _ : error => True).

(** The counts are those of the process's descriptors, and [R] besides. *)
Definition acct (R : nat -> Z) s : Prop := tab (fun f => ndesc (ofile s) f + R f) (ss_fd s).

(** The call keeps the account. *)
Definition even {A} (m : M (sst S P) A) : Prop := forall R s, acct R s -> wp any m (fun _ => acct R) s.

Lemma even_bind {A B} (m : M (sst S P) A) (f : A -> M (sst S P) B) : even m -> (forall a, even (f a)) -> even (m ≫= f).
Proof. intros Hm Hf R s Hs. apply wp_bind. eapply wp_mono; [by apply Hm|]. intros a s' Hs'. by apply Hf. Qed.

Lemma even_ret {A} (a : A) : even (mret a).
Proof. intros R s Hs. by apply wp_ret. Qed.

Lemma even_fail {A} e : even (fail (A := A) e).
Proof. by intros R s Hs. Qed.

Lemma even_gets {A} (f : sst S P -> A) : even (gets f).
Proof. by intros R s Hs. Qed.

Lemma even_lift {A} (o : outcome A) : even (lift o).
Proof. intros R s Hs. apply wp_any. unfold lift. destruct o; [|done]. by intros ? ? [= _ <-]. Qed.

Lemma even_arg {A} (f : uctx -> outcome (option A)) : even (arg f).
Proof. intros R s Hs. apply wp_any. unfold arg. intros a s'. destruct (f _); [|done]. by intros [= _ <-]. Qed.

Lemma even_store f : even (store_user f).
Proof. intros R s Hs. apply wp_any. unfold store_user. intros a s'. destruct (f _); [|done]. by intros [= _ <-]. Qed.

Lemma wp_infd {A} (m : M (fdst S P) A) Q s : wp any m (fun a t => Q a (set_ss_fd t s)) (ss_fd s) -> wp any (infd m) Q s.
Proof. unfold wp, infd. by destruct (m _) as [[]|]. Qed.

Lemma even_infd {A} (m : M (fdst S P) A) : keeps m -> even (infd m).
Proof. intros Hm R s Hs. apply wp_infd. exact (Hm _ _ Hs). Qed.

Lemma even_fs {A} (m : M (fstate S) A) : even (s_fs m).
Proof. apply even_infd, keeps_infs. Qed.

Lemma wp_argfd n Q s :
  Q None s -> (forall fd f, ofile s !! Z.to_nat fd = Some (Some f) -> Q (Some (fd, f)) s) -> wp any (argfd n) Q s.
Proof.
  intros H0 H1. apply wp_bind, wp_any. unfold uint_arg, arg. intros o s'.
  destruct (argint _ n) as [r|]; [|done]. intros [= <- <-]. destruct r as [fd|]; [|by apply wp_ret].
  destruct ((fd <? 0) || (Z.of_nat NOFILE <=? fd)); [by apply wp_ret|]. apply wp_bind, wp_gets.
  destruct (ofile s !! Z.to_nat fd) as [[f|]|] eqn:Hf; [| |done]; apply wp_bind, wp_ret, wp_ret; auto.
Qed.

Lemma even_argfd n : even (argfd n).
Proof. intros R s Hs. by apply wp_argfd. Qed.

Lemma acct_set R s i o o' : acct R s -> ofile s !! i = Some o ->
  acct (fun f => R f + (if bool_decide (o = Some f) then 1 else 0) - (if bool_decide (o' = Some f) then 1 else 0))
    (set_ofile (<[i := o']> (ofile s)) s).
Proof.
  intros Hs Hi. eapply tab_ext; [exact Hs|]. intros f. simpl. rewrite (ndesc_insert _ _ o) by done. lia.
Qed.

Lemma one_desc f g : one f g = if bool_decide (Some f = Some g) then 1 else 0.
Proof. unfold one. do 2 case_bool_decide; done || congruence. Qed.

Lemma acct_ext R R' s : acct R s -> (forall f, R f = R' f) -> acct R' s.
Proof. intros Hs HR. eapply tab_ext; [exact Hs|]. intros f. simpl. by rewrite HR. Qed.

(** A descriptor for [f]: it counts from now on. *)
Lemma wp_fdalloc R f Q s : acct R s ->
  Q (-1) s ->
  (forall fd, ofile s !! fd = Some None -> acct (fun g => R g - one f g) (set_ofile (<[fd := Some f]> (ofile s)) s) ->
     Q (Z.of_nat fd) (set_ofile (<[fd := Some f]> (ofile s)) s)) ->
  wp any (fdalloc f) Q s.
Proof.
  intros Hs H0 H1. unfold fdalloc. apply wp_bind, wp_gets.
  destruct (fdalloc_scan (ofile s) 0) as [fd|] eqn:Hf; [|by apply wp_ret].
  apply fdalloc_scan_free in Hf as (k & -> & Hk). change (0 + k)%nat with k. apply wp_bind, wp_modify, wp_ret.
  apply H1; [done|]. eapply acct_ext; [by eapply acct_set|]. intros g. cbn beta. rewrite one_desc.
  rewrite (bool_decide_false (None = Some g)) by done. lia.
Qed.

Lemma even_dup : even sys_dup.
Proof.
  intros R s Hs. apply wp_bind, wp_argfd; [by apply wp_ret|]. intros i f _. apply wp_bind.
  eapply wp_fdalloc; [exact Hs|by apply wp_ret|]. intros fd _ Hfd. destruct (Z.ltb_spec (Z.of_nat fd) 0); [lia|].
  apply wp_bind, wp_infd. eapply tab_filedup; [exact Hfd|]. intros t _ Ht. apply wp_ret.
  eapply tab_ext; [exact Ht|]. intros g. simpl. lia.
Qed.

Lemma even_close : even sys_close.
Proof.
  intros R s Hs. apply wp_bind, wp_argfd; [by apply wp_ret|]. intros fd f Hf. apply wp_bind, wp_modify, wp_bind, wp_infd.
  eapply tab_fileclose; [exact (acct_set R s _ _ None Hs Hf)|]. intros t _ Ht. apply wp_ret.
  eapply tab_ext; [exact Ht|]. intros g. cbn beta iota delta [ofile set_ofile set_ss_fd]. rewrite one_desc.
  rewrite (bool_decide_false (None = Some g)) by done. lia.
Qed.

(** [fileclose] of a file the account has once more than the descriptors. *)
Lemma even_drop {A} R f (k : M (sst S P) A) s : acct (fun g => R g + one f g) s -> even k ->
  wp any (infd (fileclose f) ≫= fun _ => k) (fun _ => acct R) s.
Proof.
  intros Hs Hk. apply wp_bind, wp_infd. eapply tab_fileclose; [exact Hs|]. intros t _ Ht. apply Hk.
  eapply tab_ext; [exact Ht|]. intros g. simpl. lia.
Qed.
End Calls.

Create HintDb even.
#[export] Hint Resolve even_ret even_fail even_gets even_lift even_arg even_store even_fs even_argfd : even.
#[export] Hint Resolve even_infd keeps_filestat keeps_fileread keeps_filewrite keeps_infs : even.

Ltac level :=
  repeat first
    [ solve [eauto with even]
    | apply even_bind; [|intros ?]
    | progress unfold when, panic, s_begin_op, s_end_op, t_begin_op, t_end_op, uint_arg, ptr_arg, path_arg, mem_at
    | case_match ].

Section System.
Context {S P : Type} {BC : BufferCache S} {DV : Devsw S} {PI : Pipes P}.

Notation any := (fun _ : error => True).

Lemma even_rw_args : even (S := S) (P := P) rw_args.
Proof. unfold rw_args. level. Qed.

Lemma even_read : even (S := S) (P := P) sys_read.
Proof. unfold sys_read. apply even_bind; [apply even_rw_args|intros a]. level. Qed.

Lemma even_write : even (S := S) (P := P) sys_write.
Proof. unfold sys_write. apply even_bind; [apply even_rw_args|intros a]. level. Qed.

Lemma even_fstat : even (S := S) (P := P) sys_fstat.
Proof. unfold sys_fstat. level. Qed.

Lemma even_link : even (S := S) (P := P) sys_link.
Proof. unfold sys_link, link_bad. level. Qed.

Lemma even_unlink : even (S := S) (P := P) sys_unlink.
Proof. unfold sys_unlink, unlink_bad. level. Qed.

Lemma even_open_inode path omode : even (S := S) (P := P) (open_inode path omode).
Proof. unfold open_inode. level. Qed.

Lemma even_mkdir : even (S := S) (P := P) sys_mkdir.
Proof. unfold sys_mkdir, made. level. Qed.

Lemma even_mknod : even (S := S) (P := P) sys_mknod.
Proof. unfold sys_mknod, made. level. Qed.

Lemma even_chdir : even (S := S) (P := P) sys_chdir.
Proof. unfold sys_chdir. level. Qed.

Lemma even_num_path k : (forall n path, even (k n path)) -> even (S := S) (P := P) (num_path k).
Proof. intros Hk. unfold num_path. level. Qed.

Lemma even_open : even (S := S) (P := P) sys_open.
Proof.
  unfold sys_open. apply even_bind; [level|intros [path|]]; [|level].
  apply even_bind; [level|intros [omode|]]; [|level]. apply even_bind; [level|intros _].
  apply even_bind; [apply even_open_inode|intros [ip|]]; [|level]. intros R s Hs.
  apply wp_bind, wp_infd. eapply tab_filealloc; [exact Hs| |].
  { intros t Ht. apply wp_bind, wp_ret. revert Ht. change (tab (fun g => ndesc (ofile s) g + R g) t) with (acct R (set_ss_fd t s)).
    assert (He : even (S := S) (P := P) (s_fs (iunlockput ip) ;; s_end_op ;; mret (-1))) by level. apply He. }
  intros f t _ Ht. assert (Hs1 : acct (fun g => R g + one f g) (set_ss_fd t s)).
  { eapply tab_ext; [exact Ht|]. intros g. simpl. lia. }
  apply wp_bind. eapply wp_fdalloc; [exact Hs1| |].
  - simpl. apply even_drop; [done|]. level.
  - intros fd _ Hfd. destruct (Z.ltb_spec (Z.of_nat fd) 0); [lia|].
    assert (He : even (S := S) (P := P) (s_fs (iunlock ip) ;; s_end_op ;; infd (modf f (fun x => mkfile FD_INODE (f_ref x)
      (Z.land omode O_WRONLY =? 0) (negb (Z.land omode O_WRONLY =? 0) || negb (Z.land omode O_RDWR =? 0)) (f_pipe x) ip 0)) ;;
      mret (Z.of_nat fd))).
    { apply even_bind; [level|intros _]. apply even_bind; [level|intros _]. apply even_bind; [|level].
      intros R' s' Hs'. apply wp_infd. eapply tab_modf; [exact Hs'|done|done]. }
    apply He. eapply acct_ext; [exact Hfd|]. intros g. simpl. lia.
Qed.

Lemma even_pipe : even (S := S) (P := P) sys_pipe.
Proof.
  unfold sys_pipe. apply even_bind; [level|intros [p|]]; [|level]. intros R s Hs.
  apply wp_bind, wp_infd. eapply tab_pipealloc; [exact Hs|by intros t Ht; apply wp_ret|]. intros rf wf t Ht.
  assert (Hs1 : acct (fun g => R g + one rf g + one wf g) (set_ss_fd t s)).
  { eapply tab_ext; [exact Ht|]. intros g. simpl. lia. }
  assert (Hbad : forall s', acct (fun g => R g + one rf g + one wf g) s' ->
    wp any (infd (fileclose rf) ;; infd (fileclose wf) ;; mret (-1)) (fun _ => acct R) s').
  { intros s' Hs'. apply wp_bind, wp_infd. eapply tab_fileclose; [exact Hs'|]. intros t' _ Ht'.
    apply even_drop; [|level]. eapply tab_ext; [exact Ht'|]. intros g. simpl. lia. }
  apply wp_bind. eapply wp_fdalloc; [exact Hs1| |].
  { apply wp_bind. simpl. apply wp_ret. simpl. apply wp_bind, wp_ret. by apply Hbad. }
  intros fd0 Hn Hfd0. apply wp_bind. destruct (Z.ltb_spec (Z.of_nat fd0) 0); [lia|]. eapply wp_fdalloc; [exact Hfd0| |].
  - simpl. destruct (Z.leb_spec 0 (Z.of_nat fd0)); [|lia]. simpl. apply wp_bind, wp_modify. apply Hbad.
    rewrite Nat2Z.id. eapply acct_ext; [eapply acct_set; [exact Hfd0|]|].
    + simpl. apply list_lookup_insert_eq. by eapply lookup_lt_Some.
    + intros g. cbn beta. rewrite one_desc. rewrite (bool_decide_false (None = Some g)) by done. lia.
  - intros fd1 _ Hfd1. destruct (Z.ltb_spec (Z.of_nat fd1) 0); [lia|].
    assert (He : even (S := S) (P := P) (store_user (fun m => put32 m (Z.to_nat p) (Z.of_nat fd0)) ;;
      store_user (fun m => put32 m (Z.to_nat p + 4) (Z.of_nat fd1)) ;; mret 0)) by level.
    apply He. eapply acct_ext; [exact Hfd1|]. intros g. simpl. lia.
Qed.
End System.

(** ** Processes *)

(** The loops of [fork] and [exit] over [ofile] (proc.c). *)
Section Loops.
Context {S P : Type} {BC : BufferCache S} {DV : Devsw S} {PI : Pipes P}.

Fixpoint dup_files (l : list (option nat)) : M (fdst S P) unit :=
  match l with
  | [] => mret tt
  | Some f :: l => filedup f ;; dup_files l
  | None :: l => dup_files l
  end.

Fixpoint close_files (l : list (option nat)) : M (fdst S P) unit :=
  match l with
  | [] => mret tt
  | Some f :: l => fileclose f ;; close_files l
  | None :: l => close_files l
  end.

Inductive fcall :=
  | Cdup | Cread | Cwrite | Cclose | Cfstat | Clink | Cunlink | Copen
  | Cmkdir | Cmknod | Cchdir | Cpipe | Cchmod | Cchown | Cchgrp.

(** A call up to its return, or to the first time it sleeps for a pipe. *)
Definition call (c : fcall) : M (sst S P) unit :=
  match c with
  | Cdup => sys_dup ;; mret tt
  | Cread => sys_read ;; mret tt
  | Cwrite => sys_write ;; mret tt
  | Cclose => sys_close ;; mret tt
  | Cfstat => sys_fstat ;; mret tt
  | Clink => sys_link ;; mret tt
  | Cunlink => sys_unlink ;; mret tt
  | Copen => sys_open ;; mret tt
  | Cmkdir => sys_mkdir ;; mret tt
  | Cmknod => sys_mknod ;; mret tt
  | Cchdir => sys_chdir ;; mret tt
  | Cpipe => sys_pipe ;; mret tt
  | Cchmod => sys_chmod ;; mret tt
  | Cchown => sys_chown ;; mret tt
  | Cchgrp => sys_chgrp ;; mret tt
  end.

(** A process as far as files go; its memory is what its program made of it. *)
Record task := mktask {
  t_ofile : list (option nat);
  t_cwd : nat;
  t_ctx : uctx;
}.

Definition set_cwd (c : nat) (s : fdst S P) : fdst S P :=
  set_fd_fs (mkfst (fs_lst (fd_fs s)) (fs_sb (fd_fs s)) (icache (fd_fs s)) c) s.

(** One process runs, makes a file system call, forks or exits. *)
Inductive sysstep : fdst S P * list task -> fdst S P * list task -> Prop :=
  | step_user s ts k t u :
      ts !! k = Some t ->
      sysstep (s, ts) (s, <[k := mktask (t_ofile t) (t_cwd t) u]> ts)
  | step_call s ts k t c s' :
      ts !! k = Some t ->
      call c (mksst (set_cwd (t_cwd t) s) (t_ofile t) (t_ctx t)) = Ok (tt, s') ->
      sysstep (s, ts) (ss_fd s', <[k := mktask (ofile s') (cwd (fd_fs (ss_fd s'))) (ss_ctx s')]> ts)
  | step_fork s ts k t s' :
      ts !! k = Some t ->
      dup_files (t_ofile t) s = Ok (tt, s') ->
      sysstep (s, ts) (s', ts ++ [t])
  | step_exit s ts k t s' :
      ts !! k = Some t ->
      close_files (t_ofile t) s = Ok (tt, s') ->
      sysstep (s, ts) (s', <[k := mktask (replicate NOFILE None) (t_cwd t) (t_ctx t)]> ts).

Definition total (ts : list task) (f : nat) : Z := foldr (fun t n => ndesc (t_ofile t) f + n) 0 ts.

Notation any := (fun _ : error => True).

Lemma total_insert ts k t t' f : ts !! k = Some t ->
  total (<[k := t']> ts) f = total ts f - ndesc (t_ofile t) f + ndesc (t_ofile t') f.
Proof.
  revert k. induction ts as [|x ts IH]; intros [|k] Hk; simplify_eq/=; [lia|]. rewrite (IH k Hk). lia.
Qed.

Lemma total_app ts t f : total (ts ++ [t]) f = total ts f + ndesc (t_ofile t) f.
Proof. induction ts as [|x ts IH]; simpl; lia. Qed.

Lemma total_member ts k t f : ts !! k = Some t -> ndesc (t_ofile t) f <= total ts f.
Proof.
  revert k. induction ts as [|x ts IH]; intros [|k] Hk; simplify_eq/=.
  - assert (0 <= total ts f); [|lia]. clear. induction ts as [|x ts IH]; simpl; [done|]. pose proof (ndesc_nonneg (t_ofile x) f). lia.
  - specialize (IH k Hk). pose proof (ndesc_nonneg (t_ofile x) f). lia.
Qed.

Lemma ndesc_closed n f : ndesc (replicate n None) f = 0.
Proof. induction n as [|n IH]; [done|]. simpl. rewrite ndesc_cons, IH. by rewrite bool_decide_false. Qed.

Lemma ndesc_none l f : Some f ∉ l -> ndesc l f = 0.
Proof.
  induction l as [|o l IH]; [done|]. intros [Ho Hl]%not_elem_of_cons. rewrite ndesc_cons, (IH Hl).
  by rewrite bool_decide_false.
Qed.

Lemma total_none ts f : Forall (fun t => forall g, Some g ∉ t_ofile t) ts -> total ts f = 0.
Proof. induction 1 as [|t ts Ht _ IH]; [done|]. simpl. by rewrite IH, ndesc_none. Qed.

Lemma tab_dup_files R l Q s : tab R s -> (forall s', tab (fun f => R f + ndesc l f) s' -> Q tt s') ->
  wp any (dup_files l) Q s.
Proof.
  revert R s. induction l as [|[f|] l IH]; intros R s Hs HQ; cbn [dup_files].
  - apply wp_ret, HQ. eapply tab_ext; [exact Hs|]. intros f. unfold ndesc. simpl. lia.
  - apply wp_bind. eapply tab_filedup; [exact Hs|]. intros s1 _ H1. eapply IH; [exact H1|]. intros s2 H2. apply HQ.
    eapply tab_ext; [exact H2|]. intros g. cbn beta. rewrite ndesc_cons, one_desc. lia.
  - eapply IH; [exact Hs|]. intros s2 H2. apply HQ. eapply tab_ext; [exact H2|]. intros g. cbn beta. by rewrite ndesc_cons.
Qed.

Lemma tab_close_files R l Q s : tab R s -> (forall s', tab (fun f => R f - ndesc l f) s' -> Q tt s') ->
  wp any (close_files l) Q s.
Proof.
  revert R s. induction l as [|[f|] l IH]; intros R s Hs HQ; cbn [close_files].
  - apply wp_ret, HQ. eapply tab_ext; [exact Hs|]. intros f. unfold ndesc. simpl. lia.
  - apply wp_bind. eapply tab_fileclose; [exact Hs|]. intros s1 _ H1. eapply IH; [exact H1|]. intros s2 H2. apply HQ.
    eapply tab_ext; [exact H2|]. intros g. cbn beta. rewrite ndesc_cons, one_desc. lia.
  - eapply IH; [exact Hs|]. intros s2 H2. apply HQ. eapply tab_ext; [exact H2|]. intros g. cbn beta. by rewrite ndesc_cons.
Qed.

Lemma even_call c : even (call c).
Proof.
  destruct c; (apply even_bind; [|intros ?; apply even_ret]); first
    [apply even_dup|apply even_read|apply even_write|apply even_close|apply even_fstat|apply even_link
    |apply even_unlink|apply even_open|apply even_mkdir|apply even_mknod|apply even_chdir|apply even_pipe
    |apply even_num_path; intros; level].
Qed.

Definition counts (x : fdst S P * list task) : Prop := tab (total x.2) x.1.

Lemma wp_run_any {T A} (m : M T A) (Q : A -> T -> Prop) (s : T) a s' : wp any m Q s -> m s = Ok (a, s') -> Q a s'.
Proof. unfold wp. intros H Hm. by rewrite Hm in H. Qed.

Lemma counts_step x y : counts x -> sysstep x y -> counts y.
Proof.
  intros Hx Hs. destruct Hs as [s ts k t u Ht|s ts k t c s' Ht Hc|s ts k t s' Ht Hd|s ts k t s' Ht Hd]; unfold counts in *; cbn [fst snd] in *.
  - eapply tab_ext; [exact Hx|]. intros f. rewrite (total_insert _ _ t) by done. simpl. lia.
  - assert (Ha : acct (fun f => total ts f - ndesc (t_ofile t) f) (mksst (set_cwd (t_cwd t) s) (t_ofile t) (t_ctx t))).
    { eapply tab_ext; [exact Hx|]. intros f. simpl. lia. }
    pose proof (wp_run_any _ _ _ _ _ (even_call c _ _ Ha) Hc) as H1.
    eapply tab_ext; [exact H1|]. intros f. rewrite (total_insert _ _ t) by done. simpl. lia.
  - eapply (wp_run_any _ (fun _ => tab (total (ts ++ [t]))) s); [|exact Hd]. eapply tab_dup_files; [exact Hx|].
    intros s2 H2. eapply tab_ext; [exact H2|]. intros f. by rewrite total_app.
  - eapply (wp_run_any _ (fun _ => tab (total (<[k := _]> ts))) s); [|exact Hd]. eapply tab_close_files; [exact Hx|].
    intros s2 H2. eapply tab_ext; [exact H2|]. intros f. cbn beta. rewrite (total_insert _ _ t) by done.
    cbn [t_ofile]. rewrite ndesc_closed. lia.
Qed.

Lemma counts_reachable x y : counts x -> rtc sysstep x y -> counts y.
Proof. intros Hx H. revert Hx. induction H as [|x y z Hxy _ IH]; [done|]. intros Hx. by apply IH, (counts_step x). Qed.
End Loops.

(** ** Property *)

(** C6. Whatever file system calls the processes make, in whatever order, with
    forks and exits between: the count of every open file is the number of
    descriptors that name it.  A file some descriptor names is therefore never
    free, and one that [filealloc] gives out is named by none. *)
Theorem files_counted {S P} {BC : BufferCache S} {DV : Devsw S} {PI : Pipes P} (s : fdst S P) ts s' ts' :
  Forall (fun x => f_ref x = 0) (ftable s) -> Forall (fun t => forall f, Some f ∉ t_ofile t) ts ->
  rtc sysstep (s, ts) (s', ts') ->
  (forall f, refcount (ftable s') f = total ts' f) /\
  (forall k t fd f, ts' !! k = Some t -> t_ofile t !! fd = Some (Some f) -> 1 <= refcount (ftable s') f) /\
  (forall f s2, filealloc s' = Ok (Some f, s2) -> total ts' f = 0 /\ refcount (ftable s2) f = 1).
Proof.
  intros Hf Ht Hr. assert (H0 : counts (s, ts)).
  { intros f. simpl. rewrite total_none by done. split; [|done]. unfold refcount.
    destruct (ftable s !! f) as [x|] eqn:Hx; [|done]. rewrite Forall_lookup in Hf. by eapply Hf. }
  pose proof (counts_reachable _ _ H0 Hr) as H1. unfold counts in H1. simpl in H1. split_and!.
  - intros f. apply H1.
  - intros k t fd f Hk Hfd. destruct (H1 f) as [-> _]. pose proof (total_member _ _ _ f Hk). pose proof (ndesc_member _ _ _ Hfd). lia.
  - intros f s2 Hfa. enough (total ts' f = 0 /\ refcount (ftable s2) f = total ts' f + 1) as [? ?] by lia.
    eapply (wp_run_any filealloc (fun o s2 => forall g, o = Some g -> total ts' g = 0 /\ refcount (ftable s2) g = total ts' g + 1) s'
      (Some f) s2); [|exact Hfa|done]. eapply tab_filealloc; [exact H1|done|]. intros g s3 Hg H3 h [= <-]. split; [done|].
    destruct (H3 g) as [-> _]. unfold one. by rewrite bool_decide_true.
Qed.
