(* ===== verification/FileTheorems.v ===== *)
(** * Open files: properties and runs

    What reading and writing an open file do, and runs of the calls of [Sysfile]
    on the disk of [FsTheorems]. *)

From stdpp Require Import base numbers list gmap sets strings.
From S2P Require Import Prelude Strings Bytes Spinlock Syscall Machine Ide Store Bio BioTheorems Log LogSpec LogTheorems Pipe Fs FsTxn FsAlloc FsInode FsFile FsWrite FsCommit FsTheorems File FileWrite Sysfile FileCount.

Open Scope Z_scope.

(** C5. [filewrite] and [fileread] are a round trip through the log: a write of any
    length the file can hold is cut into transactions that each fit in the log,
    and when it returns all of them are committed; the bytes are in the file, the
    file's other bytes and every other file are as they were, and the offset is
    past what was written.  A read from there through another open file of the
    same inode gives the bytes back. *)
Theorem filewrite_fileread {S P} {BC : BufferCache S} {BS : BufferCacheSpec S} {DV : Devsw S} {PI : Pipes P}
    start sz sb (s : fdst S P) t f fl g gl x di addr n :
  layout start sz sb -> 24 < sz -> file_at start sz sb (fd_fs s) t (f_ip fl) x di ->
  ftable s !! f = Some fl -> f_type fl = FD_INODE -> f_writable fl = true ->
  ftable s !! g = Some gl -> g <> f -> f_type gl = FD_INODE -> f_readable gl = true ->
  f_ip gl = f_ip fl -> f_off gl = f_off fl ->
  0 <= n <= Z.of_nat (length addr) -> 0 <= f_off fl <= di_size di -> f_off fl + n <= MAXFILE * Z.of_nat BSIZE ->
  (30 * write_rounds n <= nfree (tv t) sb)%nat ->
  exists s' t' x' di', filewrite f addr n s = Ok ((Return n, n), s') /\
    filewrite_post start sz sb s t f fl (f_ip fl) x di (take (Z.to_nat n) addr) s' t' x' di' /\
    exists s'', fileread g n s' = Ok ((Return n, take (Z.to_nat n) addr), s'') /\
      ftable s'' = <[g := set_f_off (f_off gl + n) gl]> (ftable s').
Proof.
  intros Hly Hsz Ha Hf Hty Hwr Hg Hne Hgt Hgr Hgi Hgo Hn Hoff Hmax Hnf.
  destruct (wp_no_error (filewrite f addr n) (fun r s' => r = (Return n, n) /\ exists t' x' di',
    filewrite_post start sz sb s t f fl (f_ip fl) x di (take (Z.to_nat n) addr) s' t' x' di') s) as (r & s' & Hrun & -> & t' & x' & di' & Hp).
  { eapply (wp_filewrite start sz sb Hly f fl (f_ip fl) x di); try done. intros s' t' x' di' Hp. split; [done|]. by exists t', x', di'. }
  exists s', t', x', di'. split; [done|]. split; [done|]. destruct Hp as (Ha' & Hw & _ & _ & _ & Hft & _).
  set (d := take (Z.to_nat n) addr) in *. assert (Hld : Z.of_nat (length d) = n) by (apply length_take_src; lia).
  pose proof (wf_size _ _ _ _ _ _ _ _ Hw) as Hsize. rewrite Hld in Hsize.
  assert (Hfull : di_size di' <= MAXFILE * Z.of_nat BSIZE) by apply (fa_full _ _ _ _ _ _ _ _ Ha').
  destruct (wp_no_error (fileread g n) (fun r s'' => r = (Return n, d) /\ ftable s'' = <[g := set_f_off (f_off gl + n) gl]> (ftable s')) s')
    as (r & s'' & Hrun2 & -> & Hft2); [|by exists s''].
  eapply (wp_fileread start sz sb Hly g gl (f_ip fl) x' di'); try done.
  - by rewrite Hft, list_lookup_insert_ne.
  - fs_lia.
  - lia.
  - rewrite Z.min_l by lia. intros u x2 Ha2 _ _. split; [|done]. f_equal. rewrite Hgo, <-Hld.
    eapply (file_bytes_written sb); [exact Hw|lia|lia].
Qed.

(** ** Runs *)

(** Pages for pipes. *)
#[global] Instance demo_pool : PagePool unit := {| pool_kalloc w := Ok (4096, replicate 512 0, w) |}.
#[global] Instance demo_free : PageEnv unit := {| env_kfree _ w := Ok w |}.

Definition demo_pipes : pipes unit := mkpipes (m_cpu (boot_mach 1 tt)) tt ∅ ∅.
Definition closed_file : file := mkfile FD_NONE 0 false false 0 0 0.

(** Two open files of the inode in slot 1, one to write and one to read. *)
Definition demo_open : list file :=
  mkfile FD_INODE 1 false true 0 1 5 :: mkfile FD_INODE 1 true false 0 1 5 :: replicate 98 closed_file.
Definition demo_fd : fdst (bst unit) (pipes unit) := mkfdst demo_idle demo_open demo_pipes.

Lemma demo_idle_rep : fsrep 2 30 None demo_idle (mktv demo_disk ∅ [] 0).
Proof.
  exists (empty_store demo_disk). split.
  - apply booted_rep. intros b _. apply demo_disk_length.
  - split; [done|apply empty_loggable|done..|by vm_compute].
  - reflexivity.
  - reflexivity.
  - intros b _. reflexivity.
  - reflexivity.
Qed.

Lemma demo_file_at : file_at 2 30 demo_sb demo_idle (mktv demo_disk ∅ [] 0) 1 (mkinode ROOTDEV 2 1 I_VALID demo_file) demo_file.
Proof.
  split.
  - apply demo_idle_rep.
  - reflexivity.
  - apply demo_icache_ok.
  - reflexivity.
  - reflexivity.
  - reflexivity.
  - vm_compute. reflexivity.
  - by split.
  - apply demo_file_ok.
  - apply demo_file_ok.
  - apply demo_meta.
  - by split.
Qed.

Lemma demo_blocks : (30 <= nfree demo_disk demo_sb)%nat.
Proof. apply (bool_decide_unpack _). by vm_compute. Qed.

Lemma filewrite_fileread_witness :
  exists s' t' x' di', filewrite 0 [119; 111; 114; 108; 100] 5 demo_fd = Ok ((Return 5, 5), s') /\
    filewrite_post 2 30 demo_sb demo_fd (mktv demo_disk ∅ [] 0) 0 (mkfile FD_INODE 1 false true 0 1 5) 1
      (mkinode ROOTDEV 2 1 I_VALID demo_file) demo_file [119; 111; 114; 108; 100] s' t' x' di' /\
    exists s'', fileread 1 5 s' = Ok ((Return 5, [119; 111; 114; 108; 100]), s'') /\
      ftable s'' = <[1%nat := mkfile FD_INODE 1 true false 0 1 10]> (ftable s').
Proof.
  apply (filewrite_fileread (BS := bio_spec) 2 30 demo_sb demo_fd (mktv demo_disk ∅ [] 0) 0
    (mkfile FD_INODE 1 false true 0 1 5) 1 (mkfile FD_INODE 1 true false 0 1 5) (mkinode ROOTDEV 2 1 I_VALID demo_file) demo_file
    [119; 111; 114; 108; 100] 5);
    [apply demo_layout|lia|apply demo_file_at|reflexivity|reflexivity|reflexivity|reflexivity|done|reflexivity|reflexivity
    |reflexivity|reflexivity|simpl; lia|simpl; lia|by vm_compute|apply demo_blocks].
Defined.

(** A process with nothing open that calls [pipe] with the address 16: 64 bytes of
    memory, the stack at 32. *)
Definition demo_task : task :=
  mktask (replicate NOFILE None) 0 (mkuctx (replicate 36 0 ++ [16; 0; 0; 0] ++ replicate 24 0) 64 32).
Definition demo_start : fdst (bst unit) (pipes unit) := mkfdst demo_idle (replicate NFILE closed_file) demo_pipes.

(** The state a call that returns ends in. *)
Definition after {A} (o : outcome (unit * A)) (d : A) : A := match o with Ok (_, s) => s | Err _ => d end.
Definition returns {A} (o : outcome (unit * A)) : bool := match o with Ok _ => true | Err _ => false end.

Lemma returns_Ok {A} (o : outcome (unit * A)) d : returns o = true -> o = Ok (tt, after o d).
Proof. by destruct o as [[[] s]|]. Qed.

Definition demo_sst : sst (bst unit) (pipes unit) :=
  mksst (set_cwd 0 demo_start) (t_ofile demo_task) (t_ctx demo_task).
Definition demo_piped : sst (bst unit) (pipes unit) := after (call Cpipe demo_sst) demo_sst.
Definition demo_child : task := mktask (ofile demo_piped) (cwd (fd_fs (ss_fd demo_piped))) (ss_ctx demo_piped).
Definition demo_forked : fdst (bst unit) (pipes unit) := after (dup_files (t_ofile demo_child) (ss_fd demo_piped)) demo_start.

(** [pipe], then [fork]: both ends are open twice. *)
Lemma files_counted_witness :
  (forall f, refcount (ftable demo_forked) f = total [demo_child; demo_child] f) /\
  total [demo_child; demo_child] 0 = 2 /\ total [demo_child; demo_child] 1 = 2.
Proof.
  split; [|split; vm_compute; reflexivity].
  apply (files_counted demo_start [demo_task]).
  - apply Forall_replicate. reflexivity.
  - apply Forall_singleton. intros f Hf. apply elem_of_replicate in Hf as [Hf _]. discriminate Hf.
  - eapply rtc_l; [apply (step_call _ _ 0 demo_task Cpipe demo_piped); [reflexivity|]|].
    + apply (returns_Ok (call Cpipe demo_sst) demo_sst). vm_compute. reflexivity.
    + eapply rtc_l; [apply (step_fork _ _ 0 demo_child demo_forked); [reflexivity|]|apply rtc_refl].
      apply (returns_Ok (dup_files (t_ofile demo_child) (ss_fd demo_piped)) demo_start). vm_compute. reflexivity.
Defined.

(** A process that calls [chmod]: the path at 0, the stack at 32 with the
    arguments 0 and [mode]. *)
Definition chmod_caller (path : list Z) (mode : Z) : sst (bst unit) (pipes unit) :=
  mksst demo_start (replicate NOFILE None)
    (mkuctx (path ++ replicate (36 - length path) 0 ++ le_bytes 4 0 ++ le_bytes 4 mode ++ replicate 20 0) 64 32).

(** [sys_chmod] reports success whether or not [chmod] found the file, and its
    bound is 1777 read as a decimal number: the mode 03361, outside the range 0 to
    01777 that the chmod command announces, is accepted and stored. *)
Theorem sys_chmod_unchecked :
  (match chmod [47; 120; 0] 493 demo_idle with Ok (r, _) => r = -1 | Err _ => False end) /\
  (match sys_chmod (chmod_caller [47; 120; 0] 493) with Ok (r, _) => r = 0 | Err _ => False end) /\
  (match sys_chmod (chmod_caller [47; 102; 0] 3361) with
   | Ok (r, s') => r = 0 /\ (di_mode ∘ i_d) <$> (icache (fd_fs (ss_fd s')) !! 1%nat) = Some 3361 /\ 3361 > 1023
   | Err _ => False
   end).
Proof. vm_compute. repeat split. Qed.
