(* ===== verification/Exec.v ===== *)
(** * Running programs (exec.c, elf.h, and sys_exec of sysfile.c)

    [exec] builds a new address space with the operations of [Vm], reading the
    program from an inode, and gives it to the process.  The file system is part of
    the world behind the memory; [ExecFs] lists the calls [exec] makes to it, and
    [fs_exec] implements them with [Fs] and [Log].  The path and the strings of the
    arguments are given by their bytes; they lie outside the bytes that the null
    [struct stat] covers, which [exec] overwrites. *)

From stdpp Require Import base numbers list gmap strings.
From S2P Require Import Prelude Strings Bytes Syscall Spinlock Machine Kalloc Vm Store Log Fs File Sysfile.

Open Scope Z_scope.

Definition ELF_MAGIC : Z := 1179403647.
Definition ELF_PROG_LOAD : Z := 1.

(** The fields of [struct elfhdr] and [struct proghdr] that [exec] uses. *)
Record elfhdr := mkelfhdr {
  e_magic : Z;
  e_entry : Z;
  e_phoff : Z;
  e_phnum : Z;
}.
Record proghdr := mkproghdr {
  ph_type : Z;
  ph_off : Z;
  ph_vaddr : Z;
  ph_filesz : Z;
  ph_memsz : Z;
}.
Definition ELFSIZE : Z := 52.
Definition PHSIZE : Z := 32.

Definition elfhdr_of (b : list Z) : option elfhdr :=
  magic ← get32 b 0; entry ← get32 b 24; phoff ← get32 b 28; phnum ← get16 b 44;
  Some (mkelfhdr magic entry phoff phnum).
Definition proghdr_of (b : list Z) : option proghdr :=
  ty ← get32 b 0; off ← get32 b 4; vaddr ← get32 b 8; filesz ← get32 b 16; memsz ← get32 b 20;
  Some (mkproghdr ty off vaddr filesz memsz).

(** The calls to the file system; an inode is an index of the inode cache. *)
Class ExecFs (W : Type) := {
  x_begin_op : M W unit;
  x_end_op : M W unit;
  x_namei : list Z -> M W (option nat);
  x_ilock : nat -> M W unit;
  x_iunlockput : nat -> M W unit;
  x_readi : nat -> Z -> Z -> M W (Z * list Z);
  x_stati : nat -> M W stat;
}.

(** The file system, next to the rest of the machine. *)
Section FsWorld.
Context {U S : Type} {VU : VmWorld U} {BC : BufferCache S} {DV : Devsw S}.

Definition infs {A} (m : M (fstate S) A) : M (U * fstate S) A := fun w =>
  match m w.2 with
  | Ok (a, f) => Ok (a, (w.1, f))
  | Err e => Err e
  end.

#[export] Instance fs_vmworld : VmWorld (U * fstate S) := {|
  console msg w := (console msg w.1, w.2);
  set_cr3 pa w := (set_cr3 pa w.1, w.2);
|}.

#[export] Instance fs_exec : ExecFs (U * fstate S) := {|
  x_begin_op := infs (inlog begin_op);
  x_end_op := infs (inlog end_op);
  x_namei path := infs (namei path);
  x_ilock ip := infs (ilock ip);
  x_iunlockput ip := infs (iunlockput ip);
  x_readi ip off n := infs (readi ip off n);
  x_stati ip := infs (stati ip);
|}.
End FsWorld.

(** What [exec] uses of [struct proc]; [p_eip] and [p_esp] are in its trap frame. *)
Record xproc := mkxproc {
  p_pgdir : Z;
  p_sz : Z;
  p_eip : Z;
  p_esp : Z;
  p_name : list Z;
  p_uid : Z;
  p_gid : Z;
}.
Definition set_p_uid (v : Z) (p : xproc) : xproc := mkxproc (p_pgdir p) (p_sz p) (p_eip p) (p_esp p) (p_name p) v (p_gid p).

Section Exec.
Context {W : Type} {VW : VmWorld W} {XF : ExecFs W}.
Variables kend kdata : Z.

Record xst := mkxst {
  x_vm : kmst W;
  x_proc : xproc;
}.

(** An operation on the memory. *)
Definition vm {A} (m : M (kmst W) A) : M xst A := fun s =>
  match m (x_vm s) with
  | Ok (a, k) => Ok (a, mkxst k (x_proc s))
  | Err e => Err e
  end.

(** An operation on the world behind it. *)
Definition vfs {A} (f : M W A) : M (kmst W) A := fun s =>
  let m := km_mach s in
  match f (m_world m) with
  | Ok (a, w) => Ok (a, set_km_mach (mkmach (m_locks m) (m_cpu m) w) s)
  | Err e => Err e
  end.
Definition modproc (f : xproc -> xproc) : M xst unit := modify (fun s => mkxst (x_vm s) (f (x_proc s))).

(** A store by the kernel to the user address [va], which the current address
    space [pgdir] maps. *)
Definition kstore (pgdir va : Z) (f : list Z -> option (list Z)) : M (kmst W) unit :=
  pte ← walkpgdir pgdir va false;
  if pte =? 0 then fail Fault else
  e ← load pte;
  if negb (has e PTE_P && has e PTE_W) then fail Fault else
  fun s => match pages s !! p2v (PTE_ADDR e) ≫= f with
           | Some b => Ok (tt, set_pages (<[p2v (PTE_ADDR e) := b]> (pages s)) s)
           | None => Err Fault
           end.

(** [bad]: [pgdir] may be null, and the inode may be gone. *)
Definition exec_bad (pgdir : Z) (ip : option nat) : M xst Z :=
  (if pgdir =? 0 then mret tt else vm (freevm kend pgdir)) ;;
  (match ip with
   | Some ip => vm (vfs (x_iunlockput ip)) ;; vm (vfs x_end_op)
   | None => mret tt
   end) ;;
  mret (-1).

(** [for(i=0, off=elf.phoff; i<elf.phnum; i++, off+=sizeof(ph))], [n] rounds left:
    the size, or nothing for [goto bad]. *)
Fixpoint load_segments (ip : nat) (pgdir : Z) (n : nat) (off sz : Z) : M (kmst W) (option Z) :=
  match n with
  | O => mret (Some sz)
  | S n =>
      r ← vfs (x_readi ip (u32 off) PHSIZE);
      if negb (r.1 =? PHSIZE) then mret None else
      ph ← lift (match proghdr_of r.2 with Some ph => Ok ph | None => Err Fault end);
      if negb (ph_type ph =? ELF_PROG_LOAD) then load_segments ip pgdir n (s32 (off + PHSIZE)) sz else
      if ph_memsz ph <? ph_filesz ph then mret None else
      sz ← allocuvm kend pgdir sz (u32 (ph_vaddr ph + ph_memsz ph));
      if sz =? 0 then mret None else
      r ← loaduvm (fun off n => vfs (x_readi ip off n)) pgdir (ph_vaddr ph) (ph_off ph) (ph_filesz ph);
      if r <? 0 then mret None else
      load_segments ip pgdir n (s32 (off + PHSIZE)) sz
  end.

(** [for(argc = 0; argv[argc]; argc++)]: the stack pointer and the pointers
    [ustack[3]] and on, or nothing for [goto bad]. *)
Fixpoint push_args (pgdir : Z) (argv : list (list Z)) (argc sp : Z) : M (kmst W) (option (Z * list Z)) :=
  match argv with
  | [] => mret (Some (sp, []))
  | s :: argv =>
      if Z.of_nat MAXARG <=? argc then mret None else
      let len := Z.of_nat (length s) + 1 in
      let sp := Z.land (u32 (sp - len)) (u32 (Z.lnot 3)) in
      r ← copyout pgdir sp (s ++ [0]) len;
      if r <? 0 then mret None else
      x ← push_args pgdir argv (argc + 1) sp;
      mret (match x with Some (sp', ptrs) => Some (sp', sp :: ptrs) | None => None end)
  end.

(** [ustack], and the stack pointer below it. *)
Definition push_ustack (pgdir : Z) (argc sp : Z) (ptrs : list Z) : M (kmst W) (option Z) :=
  let ustack := [4294967295; argc; u32 (sp - (argc + 1) * 4)] ++ ptrs ++ [0] in
  let len := (3 + argc + 1) * 4 in
  let sp := u32 (sp - len) in
  r ← copyout pgdir sp (ustack ≫= le_bytes 4) len;
  mret (if r <? 0 then None else Some sp).

(** [for(last=s=path; *s; s++) if( *s == '/') last = s+1]. *)
Fixpoint last_name (s last : list Z) : list Z :=
  match s with
  | [] => last
  | c :: s => if c =? 0 then last else last_name s (if c =? 47 then s else last)
  end.

(** The stack of the new address space of size [sz]: its size, the stack pointer. *)
Definition exec_stack (pgdir sz : Z) (argv : list (list Z)) : M (kmst W) (option (Z * Z)) :=
  let sz := PGROUNDUP sz in
  sz ← allocuvm kend pgdir sz (u32 (sz + 2 * PGSIZE));
  if sz =? 0 then mret None else
  clearpteu pgdir (u32 (sz - 2 * PGSIZE)) ;;
  x ← push_args pgdir argv 0 sz;
  match x with
  | None => mret None
  | Some (sp, ptrs) =>
      y ← push_ustack pgdir (Z.of_nat (length ptrs)) sp ptrs;
      mret (match y with Some sp => Some (sz, sp) | None => None end)
  end.

(** The process takes the new address space, and the old one is freed; of
    [switchuvm], the check and the register that holds the page directory. *)
Definition exec_commit (pgdir sz entry sp : Z) (path : list Z) : M xst Z :=
  p ← gets x_proc;
  name ← lift (safestrcpy (p_name p) (last_name path path) 16);
  modproc (fun p => mkxproc pgdir sz entry sp name (p_uid p) (p_gid p)) ;;
  (if pgdir =? 0 then fail (Panic "switchuvm: no pgdir") else vm (world (set_cr3 (v2p pgdir)))) ;;
  vm (freevm kend (p_pgdir p)) ;;
  mret 0.

(** [u], [g] and [o] of the permission check. *)
Definition may_exec (p : xproc) (st : stat) : bool :=
  ((p_uid p =? st_uid st) && Z.testbit (st_mode st) 6) || ((p_gid p =? st_gid st) && Z.testbit (st_mode st) 3) || Z.testbit (st_mode st) 0.

(** The permission check.  [stati] is called with a null [struct stat], so the kernel
    stores at address 0 of the process; a set-uid file sets [proc->uid] here. *)
Definition exec_check (ip : nat) : M xst bool :=
  st ← vm (vfs (x_stati ip));
  p ← gets x_proc;
  vm (kstore (p_pgdir p) 0 (fun b => put_stat b 0 st)) ;;
  if negb (may_exec p st) then mret false else
  (if Z.testbit (st_mode st) 9 then modproc (set_p_uid (st_uid st)) else mret tt) ;;
  mret true.

(** The check of the ELF header; [junk] is what the stack holds where [elf] is. *)
Definition exec_elf (junk : list Z) (ip : nat) : M xst (option elfhdr) :=
  r ← vm (vfs (x_readi ip 0 ELFSIZE));
  if u32 r.1 <? ELFSIZE then mret None else
  elf ← lift (match elfhdr_of (r.2 ++ drop (length r.2) junk) with Some e => Ok e | None => Err Fault end);
  mret (if negb (e_magic elf =? ELF_MAGIC) then None else Some elf).

(** From [setupkvm] to the end. *)
Definition exec_load (path : list Z) (argv : list (list Z)) (ip : nat) (elf : elfhdr) : M xst Z :=
  pgdir ← vm (setupkvm kdata);
  if pgdir =? 0 then exec_bad 0 (Some ip) else
  sz ← vm (load_segments ip pgdir (Z.to_nat (e_phnum elf)) (s32 (e_phoff elf)) 0);
  match sz with
  | None => exec_bad pgdir (Some ip)
  | Some sz =>
      vm (vfs (x_iunlockput ip)) ;;
      vm (vfs x_end_op) ;;
      x ← vm (exec_stack pgdir sz argv);
      match x with
      | None => exec_bad pgdir None
      | Some (sz, sp) => exec_commit pgdir sz (e_entry elf) sp path
      end
  end.

(** [exec(path, argv)]. *)
Definition exec (junk path : list Z) (argv : list (list Z)) : M xst Z :=
  vm (vfs x_begin_op) ;;
  ip ← vm (vfs (x_namei path));
  match ip with
  | None => vm (vfs x_end_op) ;; mret (-1)
  | Some ip =>
      vm (vfs (x_ilock ip)) ;;
      ok ← exec_check ip;
      if negb ok then exec_bad 0 (Some ip) else
      elf ← exec_elf junk ip;
      match elf with
      | None => exec_bad 0 (Some ip)
      | Some elf => exec_load path argv ip elf
      end
  end.
End Exec.
Arguments xst W : clear implicits.

(** ** System call *)

(** [for(i=0;; i++)] of [sys_exec]: the strings, or nothing for -1. *)
Fixpoint sys_exec_args (p : uctx) (uargv i : Z) (n : nat) : outcome (option (list (list Z))) :=
  match n with
  | O => Ok None
  | S n =>
      r ← fetchint p (u32 (uargv + 4 * i));
      match r with
      | None => Ok None
      | Some uarg =>
          if u32 uarg =? 0 then Ok (Some []) else
          r ← fetchstr p (u32 uarg);
          match r with
          | None => Ok None
          | Some (a, len) =>
              l ← sys_exec_args p uargv (i + 1) n;
              Ok (match l with Some l => Some (cstr (drop (Z.to_nat a) (u_mem p)) :: l) | None => None end)
          end
      end
  end.

Definition sys_exec {W} {VW : VmWorld W} {XF : ExecFs W} (kend kdata : Z) (junk : list Z) (p : uctx) : M (xst W) Z :=
  path ← lift (argstr p 0);
  match path with
  | None => mret (-1)
  | Some (a, _) =>
      uargv ← lift (argint p 1);
      match uargv with
      | None => mret (-1)
      | Some uargv =>
          argv ← lift (sys_exec_args p (u32 uargv) 0 MAXARG);
          match argv with
          | None => mret (-1)
          | Some argv => exec kend kdata junk (drop (Z.to_nat a) (u_mem p)) argv
          end
      end
  end.
