(* ===== verification/ExecSpec.v ===== *)
(** * Rules for exec (exec.c)

    The world behind the memory through the operations of [Vm], the loading of
    segments into user pages, and the stack of a new program. *)

From stdpp Require Import base numbers list gmap sets strings.
From S2P Require Import Prelude Strings Bytes Syscall Spinlock Machine Kalloc Vm VmSpec VmSpace VmFree VmCopy VmTheorems Store Log Fs File Sysfile Exec.

Open Scope Z_scope.

(** ** The world *)

Section Stable.
Context {W : Type} {VW : VmWorld W} (P : W -> Prop).

Definition at_world (s : kmst W) : Prop := P (m_world (km_mach s)).

(** [m] keeps [P] of the world. *)
Definition wstable {A} (m : M (kmst W) A) : Prop := forall s a s', at_world s -> m s = Ok (a, s') -> at_world s'.

Lemma wp_stable {E A} (m : M (kmst W) A) Q s : wstable m -> at_world s -> wp E m (fun a s' => at_world s' -> Q a s') s ->
  wp E m Q s.
Proof. intros Hm HP. unfold wp. destruct (m s) as [[a s']|e] eqn:He; [|done]. intros H. apply H. by eapply Hm. Qed.

Lemma wst_ret {A} (a : A) : wstable (mret a).
Proof. by intros s b s' H [= <- <-]. Qed.
Lemma wst_fail {A} e : wstable (fail (A := A) e).
Proof. by intros s b s' H. Qed.
Lemma wst_gets {A} (f : kmst W -> A) : wstable (gets f).
Proof. by intros s b s' H [= <- <-]. Qed.
Lemma wst_lift {A} (o : outcome A) : wstable (lift o).
Proof. intros s b s' H. unfold lift. destruct o; [|done]. by intros [= <- <-]. Qed.
Lemma wst_bind {A B} (m : M (kmst W) A) (f : A -> M (kmst W) B) : wstable m -> (forall a, wstable (f a)) -> wstable (m ≫= f).
Proof. intros Hm Hf s b s' H (a & s1 & H1 & H2)%bind_Ok_inv. eapply Hf; [|exact H2]. by eapply Hm. Qed.
Lemma wst_when b m : wstable m -> wstable (when b m).
Proof. intros Hm. destruct b; [done|apply wst_ret]. Qed.
Lemma wst_load a : wstable (load a).
Proof. intros s b s' H. unfold load. destruct (_ ≫= _); [|done]. by intros [= <- <-]. Qed.
Lemma wst_store a v : wstable (Kalloc.store a v).
Proof. intros s b s' H. unfold Kalloc.store. destruct (pages s !! _) as [x|]; [|done]. destruct (put32 _ _ _); [|done]. by intros [= <- <-]. Qed.
Lemma wst_memset_page v c : wstable (memset_page v c).
Proof. intros s b s' H. unfold memset_page. destruct (pages s !! v) as [x|]; [|done]. destruct (memset _ _ _ _); [|done]. by intros [= <- <-]. Qed.
Lemma wst_memmove_page v off d : wstable (memmove_page v off d).
Proof. intros s b s' H. unfold memmove_page. destruct (_ ≫= _); [|done]. by intros [= <- <-]. Qed.
Lemma wst_set_freelist v : wstable (modify (set_freelist v)).
Proof. by intros s b s' H [= <- <-]. Qed.
Lemma wst_mlock l f : wstable (with_mlock l f).
Proof.
  intros s b s' H. unfold with_mlock. destruct (_ !! l); [|done]. destruct (f _ _) as [[? ?]|]; [|done]. by intros [= <- <-].
Qed.
Hint Resolve wst_ret wst_fail wst_gets wst_lift wst_bind wst_when wst_load wst_store wst_memset_page wst_memmove_page
  wst_set_freelist wst_mlock : wst.

Ltac wst := repeat first [ progress eauto 2 with wst | apply wst_bind | apply wst_when
  | match goal with |- forall _, wstable _ => intros ? end
  | match goal with |- wstable (if ?b then _ else _) => destruct b end
  | match goal with |- wstable (match ?b with _ => _ end) => destruct b end ].

Lemma wst_kalloc : wstable kalloc.
Proof. unfold kalloc, acquire_m, release_m. wst. Qed.
Lemma wst_kfree kend v : wstable (kfree kend v).
Proof. unfold kfree, acquire_m, release_m, panic. wst. Qed.
Hint Resolve wst_kalloc wst_kfree : wst.

Lemma wst_walkpgdir dir va alloc : wstable (walkpgdir dir va alloc).
Proof. unfold walkpgdir. wst. Qed.
Hint Resolve wst_walkpgdir : wst.

Lemma wst_mappages_loop fuel dir a last pa perm : wstable (mappages_loop fuel dir a last pa perm).
Proof. revert a pa. induction fuel as [|fuel IH]; intros a pa; cbn [mappages_loop]; unfold panic; wst. Qed.
Lemma wst_mappages dir va size pa perm : wstable (mappages dir va size pa perm).
Proof. apply wst_mappages_loop. Qed.
Hint Resolve wst_mappages : wst.

Lemma wst_setupkvm_loop dir l : wstable (setupkvm_loop dir l).
Proof. induction l as [|k l IH]; cbn [setupkvm_loop]; wst. Qed.
Hint Resolve wst_setupkvm_loop : wst.
Lemma wst_setupkvm kdata : wstable (setupkvm kdata).
Proof. unfold setupkvm, panic. wst. Qed.

Lemma wst_deallocuvm_loop kend fuel dir a oldsz : wstable (deallocuvm_loop kend fuel dir a oldsz).
Proof. revert a. induction fuel as [|fuel IH]; intros a; cbn [deallocuvm_loop]; unfold panic; wst. Qed.
Hint Resolve wst_deallocuvm_loop : wst.
Lemma wst_deallocuvm kend dir a b : wstable (deallocuvm kend dir a b).
Proof. unfold deallocuvm. wst. Qed.
Hint Resolve wst_deallocuvm : wst.

Hypothesis Hcons : forall msg w, P w -> P (console msg w).

Lemma wst_console msg : wstable (world (console msg)).
Proof. intros s b s' H [= <- <-]. by apply Hcons. Qed.
Hint Resolve wst_console : wst.

Lemma wst_allocuvm_loop kend fuel dir a oldsz newsz : wstable (allocuvm_loop kend fuel dir a oldsz newsz).
Proof. revert a. induction fuel as [|fuel IH]; intros a; cbn [allocuvm_loop]; wst. Qed.
Lemma wst_allocuvm kend dir oldsz newsz : wstable (allocuvm kend dir oldsz newsz).
Proof. unfold allocuvm. pose proof wst_allocuvm_loop. wst. Qed.
End Stable.

(** ** Reading the program *)

(** While [P] holds, [x_readi] reads the file [f] from [ip]. *)
Record prog_at {W} {VW : VmWorld W} {XF : ExecFs W} (P : W -> Prop) (ip : nat) (f : list Z) : Prop := {
  pa_console msg w : P w -> P (console msg w);
  pa_read w off n : P w -> 0 <= off -> 0 <= n -> off + n <= Z.of_nat (length f) ->
    exists w', x_readi ip off n w = Ok ((n, take (Z.to_nat n) (drop (Z.to_nat off) f)), w') /\ P w';
}.

Section Load.
Context {W : Type} {E : error -> Prop} {VW : VmWorld W} {XF : ExecFs W} (kend kdata : Z) (all : list Z).
Implicit Types s : kmst W.
Local Notation space := (uspace kend kdata all).
Local Notation poked := (poked kend kdata all).

Lemma space_world rest s fs dir tabs frm w : space rest s fs dir tabs frm ->
  space rest (set_km_mach (mkmach (m_locks (km_mach s)) (m_cpu (km_mach s)) w) s) fs dir tabs frm.
Proof.
  intros H. eapply uspace_frame; [exact H| |done].
  destruct (dp_split _ _ _ _ _ _ _ (us_dir _ _ _ _ _ _ _ _ _ H)) as [[H1 H2 H3 H4 [Q1 Q2 Q3] H6] Hp Hn Hv Hm].
  by repeat split.
Qed.

Lemma poked_pages rest s s0 fs dir tabs frm va d s' : pages s = pages s0 ->
  poked rest s fs dir tabs frm va d s' -> poked rest s0 fs dir tabs frm va d s'.
Proof. intros He [H1 H2 H3 H4]. rewrite He in *. by split. Qed.

(** A second write right after the first, or an empty one. *)
Lemma poked_cat rest s fs dir tabs frm va d1 va2 d2 s1 s2 :
  poked rest s fs dir tabs frm va d1 s1 -> poked rest s1 fs dir tabs frm va2 d2 s2 ->
  d2 = [] \/ va2 = va + Z.of_nat (length d1) -> poked rest s fs dir tabs frm va (d1 ++ d2) s2.
Proof.
  intros H1 H2 [->| ->]; [|by eapply poked_app]. rewrite app_nil_r. destruct H1 as [G1 G2 G3 G4], H2 as [K1 K2 K3 K4].
  split; [done|intros m; by rewrite K2| |intros w Hw; by rewrite K4, G4].
  intros a. rewrite K3, G3, decide_False by (simpl; lia). done.
Qed.

Context (P : W -> Prop) (ip : nat) (f : list Z).
Hypothesis Hprog : prog_at P ip f.
Local Notation at_prog := (at_world P).

Definition slice (off n : Z) : list Z := take (Z.to_nat n) (drop (Z.to_nat off) f).

Lemma slice_length off n : 0 <= off -> off + n <= Z.of_nat (length f) -> length (slice off n) = Z.to_nat n.
Proof. intros Ho Hn. unfold slice. rewrite length_take, length_drop. lia. Qed.

Lemma slice_app off m n : 0 <= off -> 0 <= m -> 0 <= n -> slice off m ++ slice (off + m) n = slice off (m + n).
Proof.
  intros Ho Hm Hn. unfold slice. rewrite Z2Nat.inj_add, (Z2Nat.inj_add m) by done. rewrite <-drop_drop. apply take_take_drop.
Qed.

(** The part of a slice in one page, and the rest. *)
Lemma slice_page off n c : 0 <= off -> 0 < c <= n -> c <= PGSIZE -> (c < n -> c = PGSIZE) ->
  slice off n = slice off c ++ slice (off + PGSIZE) (n - PGSIZE).
Proof.
  intros Ho Hc Hp Hn. destruct (decide (c = PGSIZE)) as [->|Hne].
  - rewrite slice_app by lia. f_equal. lia.
  - assert (c = n) as -> by lia. unfold slice at 3. replace (Z.to_nat (n - PGSIZE)) with 0%nat by lia. by rewrite app_nil_r.
Qed.

Lemma wp_read off n rest s fs dir tabs frm Q : space rest s fs dir tabs frm -> at_prog s ->
  0 <= off -> 0 <= n -> off + n <= Z.of_nat (length f) ->
  (forall s', space rest s' fs dir tabs frm -> pages s' = pages s -> at_prog s' -> Q (n, slice off n) s') ->
  wp E (vfs (x_readi ip off n)) Q s.
Proof.
  intros H Hw Ho Hn Hl HQ. destruct (pa_read _ _ _ Hprog _ off n Hw Ho Hn Hl) as (w' & Hr & Hw').
  unfold wp, vfs. rewrite Hr. apply HQ; [by apply space_world|done|done].
Qed.

(** [loaduvm], [k] pages from page [n + j] on. *)
Lemma wp_loaduvm_loop k fuel n j off sz rest s fs dir tabs frm Q :
  space rest s fs dir tabs frm -> at_prog s -> 0 <= n -> 0 <= j -> n + j + Z.of_nat k <= UPAGES -> (k <= fuel)%nat ->
  (j + Z.of_nat k - 1) * PGSIZE < sz <= (j + Z.of_nat k) * PGSIZE ->
  (forall m, n + j <= m < n + j + Z.of_nat k -> is_Some (frm !! m)) ->
  0 <= off -> off + sz <= Z.of_nat (length f) < 2 ^ 31 ->
  (forall s', poked rest s fs dir tabs frm ((n + j) * PGSIZE) (slice (off + j * PGSIZE) (sz - j * PGSIZE)) s' ->
     at_prog s' -> Q 0 s') ->
  wp E (loaduvm_loop (fun off n => vfs (x_readi ip off n)) fuel dir (n * PGSIZE) off sz (j * PGSIZE)) Q s.
Proof.
  revert fuel j s. induction k as [|k IH]; intros fuel j s H Hw Hn Hj Hu Hf Hsz Hfrm Ho Hl HQ.
  { assert (He : sz <=? j * PGSIZE = true) by (apply Z.leb_le; lia).
    assert (wp E (mret 0) Q s); [|destruct fuel; cbn [loaduvm_loop]; by rewrite He]. apply wp_ret, HQ; [|done].
    unfold slice. replace (Z.to_nat (sz - j * PGSIZE)) with 0%nat by lia. by apply poked_nil. }
  destruct fuel as [|fuel]; [lia|]. cbn [loaduvm_loop]. destruct (Z.leb_spec sz (j * PGSIZE)); [unfold PGSIZE in *; lia|].
  unfold UPAGES in Hu. replace (u32 (n * PGSIZE + j * PGSIZE)) with ((n + j) * PGSIZE)
    by (symmetry; unfold u32; rewrite Z.mod_small; unfold PGSIZE; lia).
  destruct (Hfrm (n + j)) as [v Hv]; [lia|]. pose proof (us_dir _ _ _ _ _ _ _ _ _ H) as Hd.
  destruct (user_entry _ _ _ _ _ _ _ _ _ _ _ H Hv) as (t & fl & Ht & Hhas & Haddr & _).
  apply wp_bind. eapply wp_walk_found; [exact Hd|apply in_page_start; lia|exact Ht|].
  destruct (Z.eqb_spec (t + 4 * ((n + j) mod 1024)) 0) as [Ht0|_].
  { exfalso. revert Ht0. eapply tab_nonzero; [exact Hd|exact Ht|by apply Z.mod_pos_bound]. }
  apply wp_bind. eapply wp_pte_load; [exact Hd|exact Ht|].
  replace (u32 (off + j * PGSIZE)) with (off + j * PGSIZE) by (symmetry; apply Z.mod_small; unfold PGSIZE in *; lia).
  set (c := if sz - j * PGSIZE <? PGSIZE then sz - j * PGSIZE else PGSIZE).
  assert (Hc : 0 < c <= PGSIZE /\ c <= sz - j * PGSIZE /\ (c < sz - j * PGSIZE -> c = PGSIZE)).
  { unfold c. destruct (Z.ltb_spec (sz - j * PGSIZE) PGSIZE); unfold PGSIZE in *; lia. }
  apply wp_bind. eapply wp_read; [exact H|exact Hw|unfold PGSIZE; lia|lia|lia|]. intros s1 H1 Hp1 Hw1.
  assert (Hsl : length (slice (off + j * PGSIZE) c) = Z.to_nat c) by (apply slice_length; unfold PGSIZE in *; lia).
  rewrite Haddr. destruct (poke_page kend kdata all rest s1 fs dir tabs frm ((n + j) * PGSIZE) v (slice (off + j * PGSIZE) c))
    as (s2 & Hrun & Hpk); [done|unfold PGSIZE; lia|by rewrite Z.div_mul|rewrite Z.mod_mul, Hsl by done; lia|].
  rewrite Z.mod_mul in Hrun by done. apply wp_bind. eapply wp_Ok; [exact Hrun|].
  assert (Hw2 : at_prog s2) by (eapply wst_memmove_page; [exact Hw1|exact Hrun]).
  replace (u32 c) with c by (symmetry; apply Z.mod_small; unfold PGSIZE in *; lia). rewrite Z.eqb_refl. cbn [negb].
  replace (u32 (j * PGSIZE + PGSIZE)) with ((j + 1) * PGSIZE) by (symmetry; unfold u32; rewrite Z.mod_small; unfold PGSIZE in *; lia).
  apply (poked_pages _ _ s) in Hpk; [|done].
  apply IH; [apply Hpk|done|done|lia|unfold UPAGES; lia|lia|unfold PGSIZE in *; lia|intros m Hm; apply Hfrm; lia|done|done|].
  intros s3 Hpk3 Hw3. apply HQ; [|done].
  rewrite (slice_page _ (sz - j * PGSIZE) c) by (done || unfold PGSIZE in *; lia).
  replace (off + j * PGSIZE + PGSIZE) with (off + (j + 1) * PGSIZE) by lia.
  replace (sz - j * PGSIZE - PGSIZE) with (sz - (j + 1) * PGSIZE) by lia.
  eapply poked_cat; [exact Hpk|exact Hpk3|]. destruct (decide (c = PGSIZE)) as [Hcp|Hcp]; [right; rewrite Hsl; lia|left].
  unfold slice. by replace (Z.to_nat (sz - (j + 1) * PGSIZE)) with 0%nat by lia.
Qed.
End Load.

(** ** The image of a program *)

(** Memory with the bytes [d] at [va]. *)
Definition poke (img : Z -> Z) (va : Z) (d : list Z) (a : Z) : Z :=
  if decide (va <= a < va + Z.of_nat (length d)) then default 0 (d !! Z.to_nat (a - va)) else img a.

(** The program headers of the file [f]. *)
Fixpoint phdrs (f : list Z) (off : nat) (n : nat) : option (list proghdr) :=
  match n with
  | O => Some []
  | S n =>
      b ← rd_bytes f off (Z.to_nat PHSIZE);
      ph ← proghdr_of b;
      l ← phdrs f (off + Z.to_nat PHSIZE) n;
      Some (ph :: l)
  end.

(** The size of the program, and its memory: the later segment wins. *)
Definition seg_size (phs : list proghdr) (sz : Z) : Z :=
  fold_left (fun sz ph => if ph_type ph =? ELF_PROG_LOAD then Z.max sz (ph_vaddr ph + ph_memsz ph) else sz) phs sz.
Definition seg_image (f : list Z) (phs : list proghdr) (img : Z -> Z) : Z -> Z :=
  fold_left (fun img ph => if ph_type ph =? ELF_PROG_LOAD then poke img (ph_vaddr ph) (slice f (ph_off ph) (ph_filesz ph)) else img) phs img.

(** A segment that can be loaded from [f]. *)
Definition good_seg (f : list Z) (ph : proghdr) : Prop :=
  ph_type ph = ELF_PROG_LOAD -> 0 <= ph_filesz ph <= ph_memsz ph /\ 0 <= ph_vaddr ph /\ ph_vaddr ph mod PGSIZE = 0 /\
    0 < ph_vaddr ph + ph_memsz ph < KERNBASE /\ 0 <= ph_off ph /\ ph_off ph + ph_filesz ph <= Z.of_nat (length f).

Lemma seg_size_le phs sz : sz <= seg_size phs sz.
Proof.
  revert sz. induction phs as [|ph phs IH]; intros sz; [done|]. unfold seg_size in *. cbn [fold_left].
  etrans; [|apply IH]. destruct (_ =? _); lia.
Qed.

Lemma poke_bytes pg pg' frm va d img a : 
  ubyte pg' frm a = (if decide (va <= a < va + Z.of_nat (length d)) then d !! Z.to_nat (a - va) else ubyte pg frm a) ->
  ubyte pg frm a = Some (img a) -> ubyte pg' frm a = Some (poke img va d a).
Proof.
  intros -> Ha. unfold poke. destruct (decide _); [|done].
  destruct (lookup_lt_is_Some_2 d (Z.to_nat (a - va))) as [x Hx]; [lia|]. by rewrite Hx.
Qed.

Section Image.
Context {W : Type} {E : error -> Prop} {VW : VmWorld W} {XF : ExecFs W} (kend kdata : Z) (all : list Z).
Implicit Types s : kmst W.
Local Notation space := (uspace kend kdata all).
Local Notation grown := (grown kend kdata all).
Local Notation poked := (poked kend kdata all).

(** An address space of [sz] bytes with the contents [img], writable; the user
    may access the pages [usr]. *)
Record image_at (rest : list Z) (s : kmst W) (fs : list Z) (dir : Z) (tabs frm : gmap Z Z) (sz : Z) (usr : Z -> bool)
    (img : Z -> Z) : Prop := {
  im_space : space rest s fs dir tabs frm;
  im_frames m : is_Some (frm !! m) <-> 0 <= m < npages sz;
  im_user m : 0 <= m < npages sz -> has (pte (pages s) tabs m) PTE_U = usr m /\ has (pte (pages s) tabs m) PTE_W = true;
  im_bytes a : 0 <= a < npages sz * PGSIZE -> ubyte (pages s) frm a = Some (img a);
  im_zero a : npages sz * PGSIZE <= a -> img a = 0;
}.

Lemma page_of a n N : n * PGSIZE <= a < N * PGSIZE <-> n <= a / PGSIZE < N.
Proof.
  pose proof (Z.div_mod a PGSIZE ltac:(done)). pose proof (Z.mod_pos_bound a PGSIZE ltac:(done)). unfold PGSIZE in *. lia.
Qed.

(** [allocuvm], for a size below [KERNBASE]. *)
Lemma wp_allocuvm newsz rest s fs dir tabs frm sz usr img Q :
  image_at rest s fs dir tabs frm sz usr img -> 0 <= sz -> 0 <= newsz < KERNBASE ->
  (forall m, npages sz <= m -> usr m = true) -> 2 * (npages newsz - npages sz) <= Z.of_nat (length fs) ->
  (forall s' fs' tabs' frm', image_at rest s' fs' dir tabs' frm' (Z.max sz newsz) usr img ->
     Z.of_nat (length fs) <= Z.of_nat (length fs') + 2 * (npages (Z.max sz newsz) - npages sz) ->
     (forall w, w ∈ rest -> pages s' !! w = pages s !! w) -> Q (Z.max sz newsz) s') ->
  wp E (allocuvm kend dir sz newsz) Q s.
Proof.
  intros H Hsz Hnew Husr Hmem HQ. pose proof H as [H1 H2 H3 H4 H5].
  unfold allocuvm. destruct (Z.leb_spec KERNBASE newsz) as [|_]; [lia|].
  destruct (Z.ltb_spec newsz sz) as [Hlt|Hle].
  { replace (Z.max sz newsz) with sz in HQ by lia. apply wp_ret. eapply HQ; [exact H|lia|done]. }
  replace (Z.max sz newsz) with newsz in HQ by lia.
  pose proof (npages_le _ _ Hle) as Hn. pose proof (npages_user sz ltac:(lia)). pose proof (npages_user newsz ltac:(lia)).
  rewrite PGROUNDUP_npages by lia. set (k := Z.to_nat (npages newsz - npages sz)).
  assert (Hk' : npages newsz = npages sz + Z.of_nat k) by lia.
  eapply (wp_allocuvm_loop kend kdata all k); [exact H1|lia|lia| |rewrite <-Hk'; apply npages_bounds| |lia|].
  { pose proof (npages_bounds newsz). pose proof (Z.div_mod newsz PGSIZE ltac:(done)).
    pose proof (Z.mod_pos_bound newsz PGSIZE ltac:(done)). unfold PGSIZE in *. lia. }
  { intros m Hm. apply eq_None_not_Some. rewrite H2. lia. }
  rewrite <-Hk'. intros s' fs' tabs' frm' [G1 G2 G3 G4 G5]. eapply HQ; [|done|intros w Hw; apply G4; set_solver].
  split; [done| | | |intros a Ha; apply H5; unfold PGSIZE in *; lia].
  - intros m. destruct (decide (npages sz <= m < npages newsz)) as [Hm|Hm].
    + destruct (G3 m Hm) as (v & -> & _). split; [lia|by eexists].
    + destruct (G2 m Hm) as [-> _]. rewrite H2. lia.
  - intros m Hm. destruct (decide (npages sz <= m < npages newsz)) as [Hm'|Hm'].
    + destruct (G3 m Hm') as (v & _ & _ & ->). rewrite has_U, (has_testbit _ 1), !Z.lor_spec, Husr by lia. split; apply orb_true_r.
    + destruct (G2 m Hm') as [_ ->]. apply H3. lia.
  - intros a Ha. unfold ubyte. destruct (decide (npages sz <= a / PGSIZE < npages newsz)) as [Hm|Hm].
    + destruct (G3 _ Hm) as (v & -> & Hz & _). simpl. rewrite Hz. simpl.
      rewrite H5 by (apply page_of in Hm; lia). apply lookup_replicate. pose proof (Z.mod_pos_bound a PGSIZE ltac:(done)).
      split; [done|]. lia.
    + destruct (G2 _ Hm) as [-> _]. rewrite <-H4; [|].
      * unfold ubyte. destruct (frm !! (a / PGSIZE)) as [v|] eqn:Hv; [|done]. simpl. rewrite G4; [done|].
        apply elem_of_app. right. apply elem_tabl. by eexists.
      * assert (0 <= a / PGSIZE < npages newsz) by (apply (page_of a 0); lia). pose proof (page_of a 0 (npages sz)). lia.
Qed.

(** Bytes written inside. *)
Lemma image_poked rest s fs dir tabs frm sz usr img va d s' :
  image_at rest s fs dir tabs frm sz usr img -> poked rest s fs dir tabs frm va d s' ->
  va + Z.of_nat (length d) <= npages sz * PGSIZE -> image_at rest s' fs dir tabs frm sz usr (poke img va d).
Proof.
  intros [H1 H2 H3 H4 H5] [G1 G2 G3 G4] Hl. split; [done|done|intros m Hm; rewrite G2; by apply H3| |].
  - intros a Ha. eapply poke_bytes; [apply G3|by apply H4].
  - intros a Ha. unfold poke. rewrite decide_False by lia. by apply H5.
Qed.

Section Segments.
Context (P : W -> Prop) (ip : nat) (f : list Z).
Hypothesis Hprog : prog_at P ip f.
Hypothesis Hf : Z.of_nat (length f) < 2 ^ 31.
Local Notation at_prog := (at_world P).

(** One segment. *)
Lemma wp_loaduvm ph rest s fs dir tabs frm sz img Q :
  image_at rest s fs dir tabs frm sz (fun _ => true) img -> at_prog s -> good_seg f ph -> ph_type ph = ELF_PROG_LOAD ->
  ph_vaddr ph + ph_memsz ph <= sz <= KERNBASE ->
  (forall s', image_at rest s' fs dir tabs frm sz (fun _ => true) (poke img (ph_vaddr ph) (slice f (ph_off ph) (ph_filesz ph))) ->
     at_prog s' -> (forall w, w ∈ rest -> pages s' !! w = pages s !! w) -> Q 0 s') ->
  wp E (loaduvm (fun off n => vfs (x_readi ip off n)) dir (ph_vaddr ph) (ph_off ph) (ph_filesz ph)) Q s.
Proof.
  intros H Hw Hg Ht Hsz HQ. destruct (Hg Ht) as (Hfs & Hv & Ha & Hm & Ho & Hl).
  unfold loaduvm. rewrite Ha, Z.eqb_refl. cbn [negb].
  pose proof (Z.div_mod (ph_vaddr ph) PGSIZE ltac:(done)) as Hdm. rewrite Ha, Z.add_0_r, Z.mul_comm in Hdm.
  set (n := ph_vaddr ph / PGSIZE) in *. rewrite Hdm. pose proof (npages_bounds (ph_filesz ph)) as Hnp.
  pose proof (npages_bounds sz) as Hns. pose proof (npages_user sz ltac:(lia)) as Hnu. unfold UPAGES in Hnu.
  set (k := Z.to_nat (npages (ph_filesz ph))). assert (0 <= npages (ph_filesz ph)) by (unfold PGSIZE in *; lia).
  assert (Hin : n + npages (ph_filesz ph) <= npages sz) by (unfold PGSIZE in *; lia).
  eapply (wp_loaduvm_loop kend kdata all P ip f Hprog k _ n 0);
    [apply H|done|unfold PGSIZE in *; lia|lia|unfold UPAGES; lia| |unfold PGSIZE in *; lia| |done|lia|].
  - pose proof (Z.div_mod (ph_filesz ph) PGSIZE ltac:(done)).
    pose proof (Z.mod_pos_bound (ph_filesz ph) PGSIZE ltac:(done)). unfold PGSIZE in *. lia.
  - intros m Hm'. apply (im_frames _ _ _ _ _ _ _ _ _ H). unfold PGSIZE in *. lia.
  - intros s' Hpk Hw'. apply HQ; [|done|apply Hpk]. rewrite Z.mul_0_l, !Z.add_0_r, Z.sub_0_r in Hpk. rewrite Hdm.
    eapply image_poked; [exact H|exact Hpk|]. rewrite slice_length by done. unfold PGSIZE in *. lia.
Qed.

Lemma wp_load_segments phs off rest s fs dir tabs frm sz img extra Q :
  image_at rest s fs dir tabs frm sz (fun _ => true) img -> at_prog s -> 0 <= sz -> 0 <= extra -> seg_size phs sz < KERNBASE ->
  phdrs f off (length phs) = Some phs -> Forall (good_seg f) phs ->
  2 * (npages (seg_size phs sz) - npages sz) + extra <= Z.of_nat (length fs) ->
  (forall s' fs' tabs' frm', image_at rest s' fs' dir tabs' frm' (seg_size phs sz) (fun _ => true) (seg_image f phs img) ->
     at_prog s' -> extra <= Z.of_nat (length fs') -> (forall w, w ∈ rest -> pages s' !! w = pages s !! w) ->
     Q (Some (seg_size phs sz)) s') ->
  wp E (load_segments kend ip dir (length phs) (Z.of_nat off) sz) Q s.
Proof.
  revert off s fs tabs frm sz img. induction phs as [|ph phs IH]; intros off s fs tabs frm sz img H Hw Hsz Hx Hk Hp Hg Hmem HQ.
  { apply wp_ret. eapply (HQ s fs tabs frm); try done. simpl in Hmem. lia. }
  cbn [length phdrs] in Hp. destruct (rd_bytes f off _) as [b|] eqn:Hb; [|done]. cbn [mbind option_bind] in Hp.
  destruct (proghdr_of b) as [ph'|] eqn:Hph; [|done]. cbn [mbind option_bind] in Hp.
  destruct (phdrs f _ _) as [l|] eqn:Hl; [|done]. injection Hp as -> ->.
  pose proof (rd_bytes_length _ _ _ _ Hb) as [_ Hbl]. rewrite rd_bytes_Some in Hb by done. injection Hb as Hb.
  apply Forall_cons in Hg as [Hg Hgs]. change (Z.to_nat PHSIZE) with 32%nat in *.
  cbn [length load_segments]. apply wp_bind. replace (u32 (Z.of_nat off)) with (Z.of_nat off) by (symmetry; apply Z.mod_small; lia).
  eapply (wp_read kend kdata all P ip f Hprog); [apply H|done|lia|by unfold PHSIZE|unfold PHSIZE; lia|].
  intros s1 H1 Hp1 Hw1. cbn [fst snd]. rewrite Z.eqb_refl. cbn [negb].
  assert (Hs : slice f (Z.of_nat off) PHSIZE = b) by (unfold slice; by rewrite Nat2Z.id). rewrite Hs.
  apply wp_bind. eapply wp_lift; [by rewrite Hph|].
  assert (Hoff : s32 (Z.of_nat off + PHSIZE) = Z.of_nat (off + 32)).
  { unfold s32. rewrite Z.mod_small; unfold PHSIZE; lia. }
  rewrite Hoff. assert (Him1 : image_at rest s1 fs dir tabs frm sz (fun _ => true) img).
  { destruct H as [K1 K2 K3 K4 K5]. split; [done|done|by rewrite Hp1|by rewrite Hp1|done]. }
  unfold seg_size, seg_image in *. cbn [fold_left] in *.
  destruct (Z.eqb_spec (ph_type ph) ELF_PROG_LOAD) as [Ht|Ht]; cbn [negb].
  2: { eapply IH; try done. intros s2 fs2 tabs2 frm2 H2 Hw2 Hx2 Hr2. eapply HQ; try done. intros w Hw'. by rewrite Hr2, Hp1. }
  destruct (Hg Ht) as (Hfs & Hv & Ha & Hm & Ho & Hl'). destruct (Z.ltb_spec (ph_memsz ph) (ph_filesz ph)) as [|_]; [lia|].
  replace (u32 (ph_vaddr ph + ph_memsz ph)) with (ph_vaddr ph + ph_memsz ph)
    by (symmetry; apply Z.mod_small; unfold KERNBASE in *; lia).
  set (sz1 := Z.max sz (ph_vaddr ph + ph_memsz ph)) in *. pose proof (seg_size_le phs sz1) as Hle. unfold seg_size in Hle.
  apply npages_le in Hle as Hnle.
  assert (Hn1 : npages (ph_vaddr ph + ph_memsz ph) <= npages sz1) by (apply npages_le; lia).
  apply wp_bind. eapply (wp_stable P); [apply wst_allocuvm, Hprog|exact Hw1|].
  eapply wp_allocuvm; [exact Him1|done|lia|done|lia|]. fold sz1. intros s2 fs2 tabs2 frm2 H2 Hc2 Hr2 Hw2.
  destruct (Z.eqb_spec sz1 0); [lia|]. apply wp_bind.
  eapply wp_loaduvm; [exact H2|exact Hw2|done|done|lia|]. intros s3 H3 Hw3 Hr3. change (0 <? 0) with false. cbn iota.
  eapply IH; [exact H3|done|lia|done|done|done|done|lia|]. intros s4 fs4 tabs4 frm4 H4 Hw4 Hx4 Hr4.
  eapply HQ; try done. intros w Hw'. by rewrite Hr4, Hr3, Hr2, Hp1.
Qed.
End Segments.
End Image.
