(* ===== verification/ExecStack.v ===== *)
(** * The stack of a new program (exec.c)

    [clearpteu] makes the page below the stack inaccessible; the strings of the
    arguments, the pointers to them and the arguments of [main] are on the stack. *)

From stdpp Require Import base numbers list gmap sets strings.
From S2P Require Import Prelude Strings Bytes Syscall Spinlock Machine Kalloc Vm VmSpec VmSpace VmFree VmCopy VmTheorems Store Log Fs File Sysfile Exec ExecSpec.

Open Scope Z_scope.

(** ** What is on the stack *)

Definition bytes_at (img : Z -> Z) (a : Z) (d : list Z) : Prop :=
  forall i x, d !! i = Some x -> img (a + Z.of_nat i) = x.
Definition string_at (img : Z -> Z) (a : Z) (s : list Z) : Prop := bytes_at img a (s ++ [0]).
Definition words_at (img : Z -> Z) (a : Z) (l : list Z) : Prop := bytes_at img a (l ≫= le_bytes 4).

(** The arguments of [main] at [sp]: a return address, [argc], [argv], and the
    array [argv] with the addresses of the strings. *)
Record main_args (img : Z -> Z) (sp : Z) (argv : list (list Z)) : Prop := {
  ma_aligned : sp mod 4 = 0;
  ma_frame : exists ptrs, Forall2 (string_at img) ptrs argv /\
    words_at img sp ([4294967295; Z.of_nat (length argv); sp + 12] ++ ptrs ++ [0]);
}.

(** Where the strings go, from [sp] down. *)
Definition arg_sp (sp : Z) (s : list Z) : Z := (sp - (Z.of_nat (length s) + 1)) / 4 * 4.
Fixpoint args_sp (sp : Z) (argv : list (list Z)) : Z :=
  match argv with
  | [] => sp
  | s :: argv => args_sp (arg_sp sp s) argv
  end.

(** The stack pointer of the program. *)
Definition main_sp (sp : Z) (argv : list (list Z)) : Z := args_sp sp argv - (4 + Z.of_nat (length argv)) * 4.

Lemma land_not3 x : 0 <= x < 2 ^ 32 -> Z.land x (u32 (Z.lnot 3)) = x / 4 * 4.
Proof.
  intros Hx. change (x / 4 * 4) with (x / 2 ^ 2 * 2 ^ 2). rewrite <-Z.shiftr_div_pow2, <-Z.shiftl_mul_pow2 by lia.
  change (u32 (Z.lnot 3)) with (Z.shiftl (Z.ones 30) 2). apply Z.bits_inj'. intros i Hi.
  rewrite Z.land_spec, Z.shiftl_spec by done. destruct (decide (i < 2)).
  - rewrite Z.shiftl_spec_low, (Z.testbit_neg_r (Z.ones 30)) by lia. apply andb_false_r.
  - rewrite Z.shiftl_spec, Z.shiftr_spec by lia. replace (i - 2 + 2) with i by lia. destruct (decide (i < 32)).
    + rewrite Z.ones_spec_low by lia. apply andb_true_r.
    + rewrite Z.ones_spec_high by lia. rewrite andb_false_r. symmetry. apply Z.bits_above_log2; [lia|].
      destruct (decide (x = 0)) as [->|]; [simpl; lia|]. apply Z.log2_lt_pow2; [lia|].
      apply Z.lt_le_trans with (2 ^ 32); [lia|]. apply Z.pow_le_mono_r; lia.
Qed.

Lemma arg_sp_lt sp s : arg_sp sp s <= sp - (Z.of_nat (length s) + 1) < arg_sp sp s + 4.
Proof.
  unfold arg_sp. pose proof (Z.div_mod (sp - (Z.of_nat (length s) + 1)) 4 ltac:(done)).
  pose proof (Z.mod_pos_bound (sp - (Z.of_nat (length s) + 1)) 4 ltac:(done)). lia.
Qed.

Lemma args_sp_le argv sp : args_sp sp argv <= sp.
Proof. revert sp. induction argv as [|s argv IH]; intros sp; [done|]. cbn [args_sp]. etrans; [apply IH|]. pose proof (arg_sp_lt sp s). lia. Qed.

Lemma args_sp_aligned argv sp : sp mod 4 = 0 -> args_sp sp argv mod 4 = 0.
Proof. revert sp. induction argv as [|s argv IH]; intros sp Hsp; [done|]. apply IH. apply Z.mod_mul. done. Qed.

Lemma bytes_at_frame img img' a d : (forall b, a <= b < a + Z.of_nat (length d) -> img' b = img b) ->
  bytes_at img a d -> bytes_at img' a d.
Proof. intros Hf H i x Hx. rewrite Hf; [by apply H|]. apply lookup_lt_Some in Hx. lia. Qed.

Lemma strings_frame img img' lo ptrs argv : Forall2 (string_at img) ptrs argv -> Forall (Z.le lo) ptrs ->
  (forall a, lo <= a -> img' a = img a) -> Forall2 (string_at img') ptrs argv.
Proof.
  intros Hs Hp Hf. induction Hs as [|p x ptrs argv Hx _ IH]; constructor; inv Hp; [|by apply IH].
  eapply bytes_at_frame; [|exact Hx]. intros b Hb. apply Hf. lia.
Qed.

Lemma bytes_at_poke img a d : bytes_at (poke img a d) a d.
Proof.
  intros i x Hx. pose proof (lookup_lt_Some _ _ _ Hx). unfold poke. rewrite decide_True by lia.
  replace (Z.to_nat (a + Z.of_nat i - a)) with i by lia. by rewrite Hx.
Qed.

Lemma poke_other img a d b : ~ (a <= b < a + Z.of_nat (length d)) -> poke img a d b = img b.
Proof. intros H. unfold poke. by rewrite decide_False. Qed.

(** ** Rules *)

Section Stack.
Context {W : Type} {E : error -> Prop} {VW : VmWorld W} {XF : ExecFs W} (kend kdata : Z) (all : list Z).
Implicit Types s : kmst W.
Local Notation image_at := (image_at kend kdata all).

(** A write to memory the user may access. *)
Lemma wp_image_copyout va d rest s fs dir tabs frm sz usr img Q :
  image_at rest s fs dir tabs frm sz usr img -> 0 <= va -> va + Z.of_nat (length d) <= sz <= KERNBASE ->
  (forall m, va / PGSIZE <= m < npages sz -> usr m = true) ->
  (forall s', image_at rest s' fs dir tabs frm sz usr (poke img va d) -> (forall w, w ∈ rest -> pages s' !! w = pages s !! w) -> Q 0 s') ->
  wp E (copyout dir va d (Z.of_nat (length d))) Q s.
Proof.
  intros H Hva Hl Hu HQ. pose proof (npages_bounds sz) as Hnp.
  eapply (wp_copyout_loop kend kdata all); [apply H|done|lia|lia|lia| | |].
  - intros a Ha. assert (Hm : va / PGSIZE <= a / PGSIZE < npages sz).
    { pose proof (page_of a 0 (npages sz)). split; [apply Z.div_le_mono; [done|lia]|lia]. }
    pose proof (Z.div_pos va PGSIZE Hva ltac:(done)). split; [apply H; lia|].
    destruct (im_user _ _ _ _ _ _ _ _ _ _ _ _ H (a / PGSIZE)) as [-> _]; [lia|]. by apply Hu.
  - pose proof (Z.div_mod (Z.of_nat (length d)) PGSIZE ltac:(done)).
    pose proof (Z.mod_pos_bound (Z.of_nat (length d)) PGSIZE ltac:(done)).
    pose proof (Z.mod_pos_bound va PGSIZE ltac:(done)). pose proof (Z.div_pos (Z.of_nat (length d)) PGSIZE ltac:(lia) ltac:(done)).
    rewrite Z2Nat.id by lia. unfold PGSIZE in *. lia.
  - intros s' Hpk. rewrite Nat2Z.id, firstn_all in Hpk. apply HQ; [|apply Hpk]. eapply image_poked; [exact H|exact Hpk|lia].
Qed.

(** The strings, from [sp] down to [args_sp sp argv]; the user may access the memory
    between [lo] and the end. *)
Lemma wp_push_args argv argc sp lo rest s fs dir tabs frm sz usr img Q :
  image_at rest s fs dir tabs frm sz usr img -> 0 <= lo <= args_sp sp argv -> sp <= sz <= KERNBASE ->
  (forall m, lo / PGSIZE <= m < npages sz -> usr m = true) ->
  0 <= argc -> argc + Z.of_nat (length argv) <= Z.of_nat MAXARG ->
  (forall s' img' ptrs, image_at rest s' fs dir tabs frm sz usr img' -> (forall w, w ∈ rest -> pages s' !! w = pages s !! w) ->
     (forall a, ~ (args_sp sp argv <= a < sp) -> img' a = img a) ->
     Forall2 (string_at img') ptrs argv -> Forall (Z.le (args_sp sp argv)) ptrs -> Q (Some (args_sp sp argv, ptrs)) s') ->
  wp E (push_args dir argv argc sp) Q s.
Proof.
  revert argc sp s img Q. induction argv as [|x argv IH]; intros argc sp s img Q H Hlo Hsp Hu Ha Hargc HQ.
  { cbn [push_args]. apply wp_ret. eapply (HQ s img []); [exact H|done|done|constructor|constructor]. }
  cbn [push_args args_sp length] in *. destruct (Z.leb_spec (Z.of_nat MAXARG) argc) as [|_]; [lia|].
  pose proof (arg_sp_lt sp x) as Hlt. pose proof (args_sp_le argv (arg_sp sp x)) as Hle.
  assert (Hn : u32 (sp - (Z.of_nat (length x) + 1)) = sp - (Z.of_nat (length x) + 1)) by (apply Z.mod_small; unfold KERNBASE in *; lia).
  rewrite Hn, land_not3 by (unfold KERNBASE in *; lia). fold (arg_sp sp x). set (p := arg_sp sp x) in *.
  assert (Hl : Z.of_nat (length x) + 1 = Z.of_nat (length (x ++ [0]))) by (rewrite length_app; simpl; lia). rewrite Hl in Hlt |- *.
  apply wp_bind. eapply wp_image_copyout; [exact H|lia|lia| |].
  { intros m Hm. apply Hu. assert (lo / PGSIZE <= p / PGSIZE) by (apply Z.div_le_mono; [done|lia]). lia. }
  intros s1 H1 Hr1. change (0 <? 0) with false. cbn iota. apply wp_bind.
  eapply IH; [exact H1|lia|lia|exact Hu|lia|lia|]. intros s2 img2 ptrs H2 Hr2 Hf2 Hs2 Hp2. apply wp_ret.
  eapply (HQ s2 img2 (p :: ptrs)); [exact H2|intros w Hw; by rewrite Hr2, Hr1| | |by constructor].
  - intros a Ha'. rewrite Hf2 by lia. apply poke_other. lia.
  - constructor; [|done]. eapply bytes_at_frame; [|apply bytes_at_poke]. intros b Hb. rewrite Hf2 by lia. done.
Qed.

Lemma length_words l : length (l ≫= le_bytes 4) = (4 * length l)%nat.
Proof. induction l as [|x l IH]; [done|]. cbn [mbind list_bind length]. rewrite length_app, length_le_bytes, IH. lia. Qed.

Lemma wp_push_ustack sp ptrs lo rest s fs dir tabs frm sz usr img Q :
  let n := Z.of_nat (length ptrs) in
  image_at rest s fs dir tabs frm sz usr img -> 0 <= lo <= sp - (4 + n) * 4 -> sp <= sz <= KERNBASE ->
  (forall m, lo / PGSIZE <= m < npages sz -> usr m = true) ->
  (forall s' img', image_at rest s' fs dir tabs frm sz usr img' -> (forall w, w ∈ rest -> pages s' !! w = pages s !! w) ->
     (forall a, ~ (sp - (4 + n) * 4 <= a < sp) -> img' a = img a) ->
     words_at img' (sp - (4 + n) * 4) ([4294967295; n; sp - (4 + n) * 4 + 12] ++ ptrs ++ [0]) ->
     Q (Some (sp - (4 + n) * 4)) s') ->
  wp E (push_ustack dir n sp ptrs) Q s.
Proof.
  intros n H Hlo Hsp Hu HQ. unfold push_ustack. unfold KERNBASE in *.
  replace (u32 (sp - (n + 1) * 4)) with (sp - (4 + n) * 4 + 12) by (unfold u32; rewrite Z.mod_small; lia).
  replace (u32 (sp - (3 + n + 1) * 4)) with (sp - (4 + n) * 4) by (unfold u32; rewrite Z.mod_small; lia).
  set (ws := [4294967295; n; _] ++ ptrs ++ [0]). set (p := sp - (4 + n) * 4) in *.
  assert (Hl : (3 + n + 1) * 4 = Z.of_nat (length (ws ≫= le_bytes 4))).
  { rewrite length_words. unfold ws. rewrite !length_app. simpl length. lia. }
  rewrite Hl. apply wp_bind. eapply wp_image_copyout; [exact H|lia|unfold KERNBASE; lia| |].
  { intros m Hm. apply Hu. assert (lo / PGSIZE <= p / PGSIZE) by (apply Z.div_le_mono; [done|lia]). lia. }
  intros s1 H1 Hr1. change (0 <? 0) with false. cbn iota. apply wp_ret. eapply HQ; [exact H1|done| |apply bytes_at_poke].
  intros a Ha. apply poke_other. lia.
Qed.

(** An entry without [PTE_U]. *)
Lemma clear_user v fl : kvalid kend v -> 0 <= fl < 4096 -> Z.testbit fl 0 = true ->
  exists fl', u32 (Z.land (Z.lor (v2p v) fl) (u32 (Z.lnot PTE_U))) = Z.lor (v2p v) fl' /\ 0 <= fl' < 4096 /\
    Z.testbit fl' 0 = true /\ Z.testbit fl' 1 = Z.testbit fl 1 /\ Z.testbit fl' 2 = false.
Proof.
  intros Hv Hfl Hbit. destruct (v2p_valid _ _ Hv) as (Hb & Ha & _). exists (Z.land fl (Z.lnot PTE_U)).
  assert (Hle : 0 <= Z.land fl (Z.lnot PTE_U) < 4096).
  { assert (Hnn : 0 <= Z.land fl (Z.lnot PTE_U)) by (apply Z.land_nonneg; lia). split; [done|].
    apply Z.lt_nge. intros Hge. assert (Hlog : 12 <= Z.log2 (Z.land fl (Z.lnot PTE_U))) by (by apply Z.log2_le_pow2; lia).
    pose proof (Z.bit_log2 (Z.land fl (Z.lnot PTE_U)) ltac:(lia)) as Hbl. rewrite Z.land_spec, flag_bit in Hbl by lia. done. }
  rewrite !Z.land_spec, !Z.lnot_spec by done. split_and!; try done; [|lia|lia| | |].
  - assert (He : Z.land (Z.lor (v2p v) fl) (u32 (Z.lnot PTE_U)) = Z.lor (v2p v) (Z.land fl (Z.lnot PTE_U))).
    { change (u32 (Z.lnot PTE_U)) with (Z.land (Z.lnot PTE_U) (Z.ones 32)). rewrite (Z.land_comm (Z.lnot PTE_U)), Z.land_assoc.
      rewrite Z.land_ones, (Z.mod_small (Z.lor _ _)) by (done || by apply lor_bound). rewrite Z.land_lor_distr_l. f_equal.
      apply Z.bits_inj'. intros i Hi. rewrite Z.land_spec, Z.lnot_spec by done. destruct (decide (i = 2)) as [->|Hne].
      - rewrite aligned_bit by done. done.
      - change PTE_U with (2 ^ 2). rewrite Z.pow2_bits_false by done. apply andb_true_r. }
    rewrite He. apply Z.mod_small. by apply lor_bound.
  - by rewrite Hbit.
  - apply andb_true_r.
  - apply andb_false_r.
Qed.

Lemma wp_clearpteu n rest s fs dir tabs frm sz img Q :
  image_at rest s fs dir tabs frm sz (fun _ => true) img -> 0 <= n < npages sz ->
  (forall s', image_at rest s' fs dir tabs frm sz (fun m => negb (m =? n)) img ->
     (forall w, w ∈ rest -> pages s' !! w = pages s !! w) -> Q tt s') ->
  wp E (clearpteu dir (n * PGSIZE)) Q s.
Proof.
  intros [H1 H2 H3 H4 H5] Hn HQ. destruct (proj2 (H2 n) Hn) as [v Hv]. pose proof (us_dir _ _ _ _ _ _ _ _ _ H1) as Hd.
  pose proof (us_keys _ _ _ _ _ _ _ _ _ H1 _ _ Hv) as Hk. unfold UPAGES in Hk.
  destruct (user_entry _ _ _ _ _ _ _ _ _ _ _ H1 Hv) as (t & _ & Ht & _ & _ & _ & _ & _ & Hkv & _).
  pose proof (us_pte _ _ _ _ _ _ _ _ _ H1 n ltac:(unfold UPAGES; lia)) as Hp. rewrite Hv in Hp. destruct Hp as (fl & Hfl & Hbit & Hp).
  destruct (clear_user v fl Hkv Hfl Hbit) as (fl' & He & Hfl' & Hb0 & Hb1 & Hb2).
  destruct (v2p_valid _ _ Hkv) as (Hvb & Hva & _).
  unfold clearpteu. apply wp_bind. eapply wp_walk_found; [exact Hd|apply in_page_start; lia|exact Ht|].
  destruct (Z.eqb_spec (t + 4 * (n mod 1024)) 0) as [Ht0|_].
  { exfalso. revert Ht0. eapply tab_nonzero; [exact Hd|exact Ht|by apply Z.mod_pos_bound]. }
  apply wp_bind. eapply wp_pte_load; [exact Hd|exact Ht|]. rewrite Hp.
  eapply wp_pte_store; [exact Hd|exact Ht|]. intros s' Hd' Hp' Hr'. rewrite He in Hp'.
  apply HQ; [|intros w Hw; apply Hr'; set_solver]. split; [split|done| | |done].
  - exact Hd'.
  - apply H1.
  - intros m Hm. rewrite Hp'. destruct (Z.eqb_spec m n) as [->|]; [|by apply H1]. rewrite Hv. by exists fl'.
  - intros m Hm. rewrite Hp'. destruct (Z.eqb_spec m n) as [->|]; [unfold UPAGES in Hm; lia|by apply H1].
  - intros m Hm. rewrite Hp'. destruct (Z.eqb_spec m n) as [->|]; [|by apply H3]. destruct (H3 n Hm) as [_ Hw].
    rewrite Hp, (has_testbit _ 1), Z.lor_spec in Hw by lia.
    rewrite has_U, (has_testbit _ 1), !Z.lor_spec, Hb2, Hb1, Hw, (aligned_bit (v2p v) 2) by (done || lia). done.
  - intros a Ha. rewrite <-H4 by done. unfold ubyte. destruct (frm !! (a / PGSIZE)) as [w|] eqn:Hw; [|done]. simpl.
    rewrite Hr'; [done|]. apply elem_of_app. right. apply elem_tabl. by eexists.
Qed.
Lemma npages_mul n : npages (n * PGSIZE) = n.
Proof.
  unfold npages. replace (n * PGSIZE + PGSIZE - 1) with ((PGSIZE - 1) + n * PGSIZE) by lia.
  rewrite Z.div_add, Z.div_small by (unfold PGSIZE; lia). done.
Qed.

(** The two pages, the guard and what is on the stack. *)
Lemma wp_exec_stack argv rest s fs dir tabs frm sz img Q :
  let top := (npages sz + 2) * PGSIZE in
  image_at rest s fs dir tabs frm sz (fun _ => true) img -> 0 <= sz -> top < KERNBASE ->
  (length argv <= MAXARG)%nat -> top - PGSIZE <= main_sp top argv -> (4 <= length fs)%nat ->
  (forall s' fs' tabs' frm' img', image_at rest s' fs' dir tabs' frm' top (fun m => negb (m =? npages sz)) img' ->
     (forall w, w ∈ rest -> pages s' !! w = pages s !! w) -> (forall a, a < main_sp top argv -> img' a = img a) ->
     main_args img' (main_sp top argv) argv -> Q (Some (top, main_sp top argv)) s') ->
  wp E (exec_stack kend dir sz argv) Q s.
Proof.
  intros top H Hsz Htop Hargv Hfit Hfs HQ. pose proof (npages_bounds sz) as Hnp.
  assert (Hn0 : 0 <= npages sz) by (unfold PGSIZE in *; lia). assert (Hpg : PGROUNDUP sz = npages sz * PGSIZE).
  { apply PGROUNDUP_npages. unfold top, PGSIZE, KERNBASE in *. lia. }
  unfold exec_stack. rewrite Hpg. replace (u32 (npages sz * PGSIZE + 2 * PGSIZE)) with top
    by (unfold u32; rewrite Z.mod_small; unfold top, PGSIZE, KERNBASE in *; lia).
  assert (H0 : image_at rest s fs dir tabs frm (npages sz * PGSIZE) (fun _ => true) img).
  { destruct H as [H1 H2 H3 H4 H5]. by split; rewrite ?npages_mul. }
  assert (Hmax : Z.max (npages sz * PGSIZE) top = top) by (unfold top, PGSIZE; lia).
  assert (Hnt : npages top = npages sz + 2) by apply npages_mul.
  apply wp_bind. eapply wp_allocuvm; [exact H0|unfold PGSIZE; lia|unfold top, PGSIZE in *; lia|done|rewrite npages_mul; lia|].
  rewrite Hmax. intros s1 fs1 tabs1 frm1 H1 _ Hr1. destruct (Z.eqb_spec top 0); [unfold top, PGSIZE in *; lia|].
  replace (u32 (top - 2 * PGSIZE)) with (npages sz * PGSIZE)
    by (unfold u32; rewrite Z.mod_small; unfold top, PGSIZE, KERNBASE in *; lia).
  apply wp_bind. eapply wp_clearpteu; [exact H1|lia|]. intros s2 H2 Hr2.
  assert (Hu : forall m, (top - PGSIZE) / PGSIZE <= m < npages top -> negb (m =? npages sz) = true).
  { intros m Hm. replace (top - PGSIZE) with ((npages sz + 1) * PGSIZE) in Hm by (unfold top; lia).
    rewrite Z.div_mul in Hm by done. destruct (Z.eqb_spec m (npages sz)); [lia|done]. }
  apply wp_bind. eapply (wp_push_args argv 0 top (top - PGSIZE)); [exact H2| |lia|exact Hu|done|lia|].
  { unfold main_sp in Hfit. unfold top, PGSIZE in *. lia. }
  intros s3 img3 ptrs H3 Hr3 Hf3 Hs3 Hge3. pose proof (Forall2_length _ _ _ Hs3) as Hlen.
  unfold main_sp in *. rewrite <-Hlen in *. set (p := args_sp top argv) in *. pose proof (args_sp_le argv top) as Hple. fold p in Hple.
  apply wp_bind. eapply (wp_push_ustack p ptrs (top - PGSIZE)); [exact H3|unfold top, PGSIZE in *; lia|lia|exact Hu|].
  intros s4 img4 H4 Hr4 Hf4 Hw4. apply wp_ret. eapply HQ; [exact H4|intros w Hw; by rewrite Hr4, Hr3, Hr2, Hr1| |].
  - intros a Ha. rewrite Hf4, Hf3 by lia. done.
  - split.
    + assert (Hpa : p mod 4 = 0) by (apply args_sp_aligned; unfold top, PGSIZE; change 4096 with (1024 * 4); rewrite Z.mul_assoc; by apply Z.mod_mul).
      rewrite Zminus_mod, Z.mod_mul, Hpa by done. done.
    + exists ptrs. split; [|by rewrite <-Hlen]. eapply strings_frame; [exact Hs3|exact Hge3|].
      intros a Ha. apply Hf4. lia.
Qed.

End Stack.
