(* ===== verification/ExecTheorems.v ===== *)
(** * What exec does (exec.c)

    A well-formed program replaces the memory of the process; a failing [exec]
    leaves the process as it was, but for the user id of a set-uid file and the bytes
    at address 0 that the null [struct stat] covers. *)

From stdpp Require Import base numbers list gmap sets strings.
From S2P Require Import Prelude Strings Bytes Syscall Spinlock Machine Kalloc Vm VmSpec VmSpace VmFree VmCopy VmTheorems Store Log Fs File Sysfile Exec ExecSpec ExecStack.

Open Scope Z_scope.

(** [f] is a program with header [e] and segments [phs]. *)
Record good_elf (f : list Z) (e : elfhdr) (phs : list proghdr) : Prop := {
  ge_length : ELFSIZE <= Z.of_nat (length f) < 2 ^ 31;
  ge_header : elfhdr_of (take (Z.to_nat ELFSIZE) f) = Some e;
  ge_magic : e_magic e = ELF_MAGIC;
  ge_phoff : 0 <= e_phoff e < 2 ^ 31;
  ge_phdrs : phdrs f (Z.to_nat (e_phoff e)) (Z.to_nat (e_phnum e)) = Some phs;
  ge_segs : Forall (good_seg f) phs;
}.

(** The file system finds [f] at [path]: the calls of [exec] succeed from the world
    [w] on. *)
Record found_at {W} {VW : VmWorld W} {XF : ExecFs W} (P : W -> Prop) (path : list Z) (ip : nat) (st : stat) (f : list Z) (w : W)
    : Prop := {
  fa_open : exists w1 w2 w3 w4, x_begin_op w = Ok (tt, w1) /\ x_namei path w1 = Ok (Some ip, w2) /\
    x_ilock ip w2 = Ok (tt, w3) /\ x_stati ip w3 = Ok (st, w4) /\ P w4;
  fa_prog : prog_at P ip f;
  fa_close w' : P w' -> exists w1 w2, x_iunlockput ip w' = Ok (tt, w1) /\ x_end_op w1 = Ok (tt, w2);
}.

Lemma get_app a b off n : (off + n <= length a)%nat -> rd_bytes (a ++ b) off n = rd_bytes a off n.
Proof.
  intros H. rewrite !rd_bytes_Some by (rewrite ?length_app; lia). f_equal. rewrite drop_app_le by lia.
  rewrite take_app_le; [done|]. rewrite length_drop. lia.
Qed.

Lemma elfhdr_app a b : (52 <= length a)%nat -> elfhdr_of (a ++ b) = elfhdr_of a.
Proof. intros H. unfold elfhdr_of, get32, get16. by rewrite !get_app by lia. Qed.

Lemma phdrs_length f off n phs : phdrs f off n = Some phs -> length phs = n.
Proof.
  revert off phs. induction n as [|n IH]; intros off phs; cbn [phdrs]; [by intros [= <-]|].
  destruct (rd_bytes _ _ _) as [b|]; [|done]. cbn [mbind option_bind]. destruct (proghdr_of b); [|done]. cbn [mbind option_bind].
  destruct (phdrs f _ n) as [l|] eqn:Hl; [|done]. intros [= <-]. simpl. f_equal. by eapply IH.
Qed.

Lemma put_stat_ok b st : (28 <= length b)%nat -> exists b', put_stat b 0 st = Some b' /\ length b' = length b.
Proof.
  intros H. unfold put_stat.
  repeat match goal with
  | |- context [put32 ?m ?o ?v] => let b' := fresh "b" in let Hp := fresh "Hp" in
      destruct (put32_Some m o v) as [b' Hp]; [lia|]; rewrite Hp; apply put32_length in Hp; cbn [mbind option_bind]
  | |- context [put16 ?m ?o ?v] => let b' := fresh "b" in let Hp := fresh "Hp" in
      destruct (put16_Some m o v) as [b' Hp]; [lia|]; rewrite Hp; apply put16_length in Hp; cbn [mbind option_bind]
  end.
  eexists. split; [done|]. lia.
Qed.

Section Exec.
Context {W : Type} {E : error -> Prop} {VW : VmWorld W} {XF : ExecFs W} (kend kdata : Z) (all : list Z).
Local Notation space := (uspace kend kdata all).
Local Notation image_at := (image_at kend kdata all).

Lemma wp_vm {A} (m : M (kmst W) A) (Q : A -> xst W -> Prop) s :
  wp E m (fun a k => Q a (mkxst k (x_proc s))) (x_vm s) -> wp E (vm m) Q s.
Proof. unfold wp, vm. by destruct (m (x_vm s)) as [[a k]|e]. Qed.

(** A state that differs in the world only. *)
Definition with_world (w : W) (s : kmst W) : kmst W := set_km_mach (mkmach (m_locks (km_mach s)) (m_cpu (km_mach s)) w) s.

Lemma wp_vfs {A} (m : M W A) (Q : A -> kmst W -> Prop) s a w : m (m_world (km_mach s)) = Ok (a, w) ->
  Q a (with_world w s) -> wp E (vfs m) Q s.
Proof. intros Hm. unfold wp, vfs. by rewrite Hm. Qed.

(** The address space where its pages are as before. *)
Lemma image_frame rest rest' (s s' : kmst W) fs fs' dir tabs frm sz usr img :
  image_at rest s fs dir tabs frm sz usr img -> split_pages kend all ((rest' ++ tabl frm) ++ dir :: tabl tabs) s' fs' ->
  (forall w, w ∈ dir :: tabl tabs ++ tabl frm -> pages s' !! w = pages s !! w) -> image_at rest' s' fs' dir tabs frm sz usr img.
Proof.
  intros [H1 H2 H3 H4 H5] Hs Hf. split; [|done| | |done].
  - eapply uspace_frame; [exact H1|exact Hs|]. intros w Hw. apply Hf. set_solver.
  - intros m Hm. rewrite (pte_frame (pages s)); [by apply H3|]. intros t Ht. apply Hf. set_solver.
  - intros a Ha. rewrite <-H4 by done. unfold ubyte. destruct (frm !! (a / PGSIZE)) as [v|] eqn:Hv; [|done]. simpl.
    rewrite Hf; [done|]. assert (v ∈ tabl frm) by (apply elem_tabl; by eexists). set_solver.
Qed.

Lemma image_world rest (s : kmst W) fs dir tabs frm sz usr img w : image_at rest s fs dir tabs frm sz usr img ->
  image_at rest (with_world w s) fs dir tabs frm sz usr img.
Proof. intros H. eapply image_frame; [exact H|apply (space_world kend kdata all _ _ _ _ _ _ w), H|done]. Qed.

(** A store to the first page of the process. *)
Lemma wp_kstore rest (s : kmst W) fs dir tabs frm v b b' g Q : space rest s fs dir tabs frm -> frm !! 0 = Some v ->
  has (pte (pages s) tabs 0) PTE_W = true -> pages s !! v = Some b -> g b = Some b' -> length b' = length b ->
  (space rest (set_pages (<[v := b']> (pages s)) s) fs dir tabs frm -> Q tt (set_pages (<[v := b']> (pages s)) s)) ->
  wp E (kstore dir 0 g) Q s.
Proof.
  intros H Hv Hw Hb Hg Hl HQ. pose proof (us_dir _ _ _ _ _ _ _ _ _ H) as Hd.
  destruct (user_entry _ _ _ _ _ _ _ _ _ _ _ H Hv) as (t & fl & Ht & Hp & Haddr & _ & _ & _ & _ & b0 & Hb0 & Hl0).
  assert (b0 = b) as -> by congruence.
  unfold kstore. apply wp_bind. eapply (wp_walk_found _ _ _ _ _ _ _ 0); [exact Hd|by apply (in_page_start 0)|exact Ht|].
  destruct (Z.eqb_spec (t + 4 * (0 mod 1024)) 0) as [Ht0|_].
  { exfalso. revert Ht0. eapply tab_nonzero; [exact Hd|exact Ht|by apply Z.mod_pos_bound]. }
  apply wp_bind. eapply wp_pte_load; [exact Hd|exact Ht|]. rewrite Hp, Hw. cbn [negb andb]. rewrite Haddr.
  unfold wp. rewrite Hb. cbn [mbind option_bind]. rewrite Hg. apply HQ.
  apply uspace_write; [done| |lia]. apply elem_of_app. right. apply elem_tabl. by eexists.
Qed.

(** The new address space takes over, and the pages of the old one are free. *)
Lemma wp_exec_commit rest (s : xst W) fs dir tabs frm sz usr img otabs ofrm (s0 : kmst W) fs0 entry sp path name Q :
  let p := x_proc s in
  KERNBASE < kend -> space rest s0 fs0 (p_pgdir p) otabs ofrm ->
  image_at (others rest (p_pgdir p) otabs ofrm) (x_vm s) fs dir tabs frm sz usr img ->
  (forall w, w ∈ others rest (p_pgdir p) otabs ofrm -> pages (x_vm s) !! w = pages s0 !! w) ->
  safestrcpy (p_name p) (last_name path path) 16 = Ok name ->
  (forall k fs', image_at rest k fs' dir tabs frm sz usr img -> (forall w, w ∈ rest -> pages k !! w = pages s0 !! w) ->
     Q 0 (mkxst k (mkxproc dir sz entry sp name (p_uid p) (p_gid p)))) ->
  wp E (exec_commit kend dir sz entry sp path) Q s.
Proof.
  intros p Hk Hold Him Hkeep Hname HQ. unfold exec_commit. apply wp_bind, wp_gets. fold p. apply wp_bind. eapply wp_lift; [exact Hname|].
  apply wp_bind, wp_modify. destruct (dirp_dir _ _ _ _ _ _ _ (us_dir _ _ _ _ _ _ _ _ _ (im_space _ _ _ _ _ _ _ _ _ _ _ _ Him))) as (Hkd & _).
  destruct (kvalid_bounds _ _ Hkd) as [Hd0 _]. destruct (Z.eqb_spec dir 0); [lia|].
  apply wp_bind, wp_vm, wp_modify. cbn [x_vm x_proc].
  apply (image_world _ _ _ _ _ _ _ _ _ (set_cr3 (v2p dir) (m_world (km_mach (x_vm s))))) in Him. fold (with_world (set_cr3 (v2p dir) (m_world (km_mach (x_vm s)))) (x_vm s)).
  set (k1 := with_world _ _) in *. change (pages (x_vm s)) with (pages k1) in Hkeep.
  apply wp_bind, wp_vm. cbn [x_vm x_proc]. unfold others in *.
  eapply (wp_freevm kend kdata all Hk (rest ++ dir :: tabl tabs ++ tabl frm) k1 fs _ otabs ofrm).
  { eapply uspace_frame; [exact Hold| |intros w Hw; apply Hkeep; set_solver].
    eapply split_perm; [|apply Him]. solve_Permutation. }
  intros k2 fs2 Hs2 _ Hr2. apply wp_ret. cbn [x_vm x_proc]. apply (HQ k2 fs2).
  - eapply image_frame; [exact Him| |intros w Hw; apply Hr2; set_solver]. eapply split_perm; [|exact Hs2]. solve_Permutation.
  - intros w Hw. rewrite Hr2, Hkeep by set_solver. done.
Qed.

(** The empty address space that [setupkvm] makes. *)
Lemma image_new rest (s : kmst W) fs dir tabs : kdata_ok kdata -> dirp kend all rest s fs dir tabs ->
  (forall m, pte (pages s) tabs m = kernel_pte kdata m) -> image_at rest s fs dir tabs ∅ 0 (fun _ => true) (fun _ => 0).
Proof.
  intros Hk Hd Hp. split; [by apply uspace_new| | | |done].
  - intros m. rewrite lookup_empty. split; [by intros []|]. change (npages 0) with 0. lia.
  - change (npages 0) with 0. lia.
  - change (npages 0) with 0. lia.
Qed.
(** ** The parts of exec *)

Section Parts.
Context (P : W -> Prop) (path : list Z) (ip : nat) (st : stat) (f : list Z).

(** What is left of the process when the checks are passed. *)
Definition checked (p : xproc) : xproc := if Z.testbit (st_mode st) 9 then set_p_uid (st_uid st) p else p.

(** The calls up to the permission check: the structure is stored in the first page of
    the process. *)
Lemma wp_exec_open {A} rest (s : xst W) fs otabs ofrm v b b' (Knone : M (xst W) A) (Kbad K : nat -> M (xst W) A) Q :
  let p := x_proc s in
  space rest (x_vm s) fs (p_pgdir p) otabs ofrm -> ofrm !! 0 = Some v -> has (pte (pages (x_vm s)) otabs 0) PTE_W = true ->
  pages (x_vm s) !! v = Some b -> put_stat b 0 st = Some b' -> length b' = length b ->
  found_at P path ip st f (m_world (km_mach (x_vm s))) -> may_exec p st = true ->
  (forall k, space rest k fs (p_pgdir p) otabs ofrm -> pages k = <[v := b']> (pages (x_vm s)) -> at_world P k ->
     wp E (K ip) Q (mkxst k (checked p))) ->
  wp E (vm (vfs x_begin_op) ;; i ← vm (vfs (x_namei path));
        match i with
        | None => Knone
        | Some ip => vm (vfs (x_ilock ip)) ;; ok ← exec_check ip; if negb ok then Kbad ip else K ip
        end) Q s.
Proof.
  intros p H Hv Hw Hb Hput Hl [Hop Hprog Hclose] Hmay HQ. destruct Hop as (w1 & w2 & w3 & w4 & H1 & H2 & H3 & H4 & HP).
  apply wp_bind, wp_vm. eapply wp_vfs; [exact H1|]. apply wp_bind, wp_vm. eapply wp_vfs; [exact H2|].
  apply wp_bind, wp_vm. eapply wp_vfs; [exact H3|]. apply wp_bind. unfold exec_check.
  apply wp_bind, wp_vm. eapply wp_vfs; [exact H4|]. apply wp_bind, wp_gets. cbn [x_proc x_vm]. fold p. apply wp_bind, wp_vm. cbn [x_proc x_vm].
  set (k0 := with_world w4 _). assert (H0 : space rest k0 fs (p_pgdir p) otabs ofrm) by (by repeat apply space_world).
  eapply (wp_kstore _ k0); [exact H0|exact Hv|exact Hw|exact Hb|exact Hput|exact Hl|]. intros H5. rewrite Hmay. cbn [negb x_proc].
  assert (Hend : wp E (mret true) (fun ok s => wp E (if negb ok then Kbad ip else K ip) Q s)
    (mkxst (set_pages (<[v := b']> (pages k0)) k0) (checked p))) by (apply wp_ret, HQ; [exact H5|done|exact HP]).
  apply wp_bind. unfold checked in *. destruct (Z.testbit (st_mode st) 9); [apply wp_modify|apply wp_ret]; exact Hend.
Qed.

Hypothesis Hprog : prog_at P ip f.

(** The header of a file that has room for one. *)
Lemma wp_exec_elf junk e rest (s : xst W) fs otabs ofrm Q :
  let p := x_proc s in
  space rest (x_vm s) fs (p_pgdir p) otabs ofrm -> at_world P (x_vm s) -> ELFSIZE <= Z.of_nat (length f) < 2 ^ 31 ->
  elfhdr_of (take (Z.to_nat ELFSIZE) f) = Some e ->
  (forall k, space rest k fs (p_pgdir p) otabs ofrm -> pages k = pages (x_vm s) -> at_world P k ->
     Q (if negb (e_magic e =? ELF_MAGIC) then None else Some e) (mkxst k p)) ->
  wp E (exec_elf junk ip) Q s.
Proof.
  intros p H Hw Hl He HQ. unfold exec_elf. apply wp_bind, wp_vm.
  eapply (wp_read kend kdata all P ip f Hprog 0 ELFSIZE); [exact H|exact Hw|done|done|lia|]. intros k Hk Hp Hw'. cbn [fst snd].
  rewrite u32_small by done. destruct (Z.ltb_spec ELFSIZE ELFSIZE); [lia|].
  assert (Hs : slice f 0 ELFSIZE = take (Z.to_nat ELFSIZE) f) by done. rewrite Hs.
  apply wp_bind. eapply wp_lift; [rewrite elfhdr_app, He; [reflexivity|rewrite length_take; unfold ELFSIZE in *; lia]|].
  apply wp_ret. by apply HQ.
Qed.
End Parts.

(** A page of the process has no other owner. *)
Lemma rest_not_frame rest (s : kmst W) fs dir tabs frm n v : space rest s fs dir tabs frm -> v ∈ rest -> frm !! n = Some v -> False.
Proof.
  intros H Hin Hv. pose proof (split_nodup _ _ _ _ _ (dp_split _ _ _ _ _ _ _ (us_dir _ _ _ _ _ _ _ _ _ H))) as Hnd.
  apply NoDup_app in Hnd as (Hnd & _ & _). apply NoDup_app in Hnd as (_ & Hd & _). apply (Hd v Hin), elem_tabl. by eexists.
Qed.

(** The first page of a process, and what the structure does to it. *)
Lemma first_page rest (s : kmst W) fs dir tabs frm v st : space rest s fs dir tabs frm -> frm !! 0 = Some v ->
  exists b b', pages s !! v = Some b /\ put_stat b 0 st = Some b' /\ length b' = length b.
Proof.
  intros H Hv. destruct (user_entry _ _ _ _ _ _ _ _ _ _ _ H Hv) as (_ & _ & _ & _ & _ & _ & _ & _ & _ & b & Hb & Hl).
  destruct (put_stat_ok b st) as (b' & Hp & Hl'); [unfold PGSIZE in Hl; lia|]. by exists b, b'.
Qed.

Lemma wp_exec_load path argv P ip f e phs name rest (s : xst W) fs otabs ofrm Q :
  let p := x_proc s in
  let size := seg_size phs 0 in
  let top := (npages size + 2) * PGSIZE in
  kdata_ok kdata -> KERNBASE < kend -> space rest (x_vm s) fs (p_pgdir p) otabs ofrm -> at_world P (x_vm s) -> prog_at P ip f ->
  (forall w, P w -> exists w1 w2, x_iunlockput ip w = Ok (tt, w1) /\ x_end_op w1 = Ok (tt, w2)) ->
  good_elf f e phs -> top < KERNBASE -> (length argv <= MAXARG)%nat -> top - PGSIZE <= main_sp top argv ->
  66 + 2 * (npages size + 2) <= Z.of_nat (length fs) -> safestrcpy (p_name p) (last_name path path) 16 = Ok name ->
  (forall k fs' dir tabs frm img, image_at rest k fs' dir tabs frm top (fun m => negb (m =? npages size)) img ->
     (forall a, a < main_sp top argv -> img a = seg_image f phs (fun _ => 0) a) -> main_args img (main_sp top argv) argv ->
     (forall w, w ∈ rest -> pages k !! w = pages (x_vm s) !! w) ->
     Q 0 (mkxst k (mkxproc dir top (e_entry e) (main_sp top argv) name (p_uid p) (p_gid p)))) ->
  wp E (exec_load kend kdata path argv ip e) Q s.
Proof.
  intros p size top Hkd Hk H Hw Hprog Hclose [Hlen _ _ Hoff Hphs Hsegs] Htop Hargv Hfit Hmem Hname HQ.
  pose proof (seg_size_le phs 0 : 0 <= size) as Hsz. pose proof (npages_bounds size) as Hnp.
  assert (Hn0 : 0 <= npages size) by (unfold PGSIZE in *; lia).
  unfold exec_load. apply wp_bind, wp_vm. eapply (wp_stable P); [apply wst_setupkvm|exact Hw|].
  eapply (wp_setupkvm kend kdata all Hkd (others rest (p_pgdir p) otabs ofrm)); [apply H|intros Hl; lia|].
  intros dir k1 fs1 tabs1 Hd H1 Hp1 Hkeys Hr1 Hc1 Hw1. destruct (Z.eqb_spec dir 0); [done|].
  pose proof (keys_size tabs1 _ Hkeys) as Hks. change (length kernel_keys) with 64%nat in Hks.
  apply wp_bind, wp_vm. cbn [x_vm x_proc]. rewrite s32_id by lia. rewrite <-(phdrs_length _ _ _ _ Hphs) in Hphs |- *.
  rewrite <-(Z2Nat.id (e_phoff e)) by lia.
  eapply (wp_load_segments kend kdata all P ip f Hprog ltac:(lia) phs _ _ k1 fs1 dir tabs1 ∅ 0 (fun _ => 0) 4);
    [by apply image_new|done|done|done|unfold top, PGSIZE, KERNBASE in *; fold size; lia|exact Hphs|exact Hsegs| |].
  { fold size. change (npages 0) with 0. lia. }
  fold size. intros k2 fs2 tabs2 frm2 H2 Hw2 Hf2 Hr2. destruct (Hclose _ Hw2) as (w1 & w2 & Hc & Hc').
  apply wp_bind, wp_vm. eapply wp_vfs; [exact Hc|]. apply wp_bind, wp_vm. eapply wp_vfs; [exact Hc'|]. cbn [x_vm x_proc].
  do 2 eapply image_world in H2. set (k3 := with_world w2 (with_world w1 k2)) in *.
  apply wp_bind, wp_vm. cbn [x_vm x_proc].
  eapply (wp_exec_stack kend kdata all argv); [exact H2|done|exact Htop|done|exact Hfit|lia|].
  fold top. intros k4 fs4 tabs4 frm4 img4 H4 Hr4 Him4 Hma4.
  eapply (wp_exec_commit rest (mkxst k4 p)); [exact Hk|exact H|exact H4| |exact Hname|].
  { intros w Hw'. cbn [x_vm]. rewrite Hr4, <-Hr1, <-Hr2 by done. done. }
  intros k5 fs5 H5 Hr5. by eapply HQ.
Qed.

End Exec.

Section Results.
Context {W : Type} {VW : VmWorld W} {XF : ExecFs W} (kend kdata : Z) (all : list Z).

(** C10. [exec] of a well-formed program that the process may execute succeeds when there
    is memory: the process has a new address space with the segments of the file, a
    guard page the user cannot access and a stack with the arguments of [main]; the
    entry point, the stack pointer and the name are set, and every page of the old
    address space is free. *)
Theorem exec_runs junk path argv (s : xst W) rest fs otabs ofrm P ip st f e phs name :
  let p := x_proc s in
  let size := seg_size phs 0 in
  let top := (npages size + 2) * PGSIZE in
  kdata_ok kdata -> KERNBASE < kend ->
  uspace kend kdata all rest (x_vm s) fs (p_pgdir p) otabs ofrm ->
  is_Some (ofrm !! 0) -> has (pte (pages (x_vm s)) otabs 0) PTE_W = true ->
  found_at P path ip st f (m_world (km_mach (x_vm s))) -> may_exec p st = true -> good_elf f e phs ->
  top < KERNBASE -> (length argv <= MAXARG)%nat -> top - PGSIZE <= main_sp top argv ->
  66 + 2 * (npages size + 2) <= Z.of_nat (length fs) -> safestrcpy (p_name p) (last_name path path) 16 = Ok name ->
  exists k fs' dir tabs frm img,
    exec kend kdata junk path argv s =
      Ok (0, mkxst k (mkxproc dir top (e_entry e) (main_sp top argv) name
                        (if Z.testbit (st_mode st) 9 then st_uid st else p_uid p) (p_gid p))) /\
    image_at kend kdata all rest k fs' dir tabs frm top (fun m => negb (m =? npages size)) img /\
    (forall a, a < main_sp top argv -> img a = seg_image f phs (fun _ => 0) a) /\
    main_args img (main_sp top argv) argv /\
    forall w, w ∈ rest -> pages k !! w = pages (x_vm s) !! w.
Proof.
  intros p size top Hkd Hk H [v Hv] Hw Hfound Hmay He Htop Hargv Hfit Hmem Hname. subst p.
  destruct (first_page _ _ _ _ _ _ _ _ _ _ st H Hv) as (b & b' & Hb & Hput & Hl).
  assert (Hc : checked st (x_proc s) = x_proc s \/ checked st (x_proc s) = set_p_uid (st_uid st) (x_proc s))
    by (unfold checked; destruct (Z.testbit _ _); auto).
  assert (Hpg : p_pgdir (checked st (x_proc s)) = p_pgdir (x_proc s)) by (by destruct Hc as [-> | ->]).
  edestruct (wp_no_error (exec kend kdata junk path argv) (fun r s' => exists k fs' dir tabs frm img, r = 0 /\
    s' = mkxst k (mkxproc dir top (e_entry e) (main_sp top argv) name (p_uid (checked st (x_proc s))) (p_gid (x_proc s))) /\
    image_at kend kdata all rest k fs' dir tabs frm top (fun m => negb (m =? npages size)) img /\
    (forall a, a < main_sp top argv -> img a = seg_image f phs (fun _ => 0) a) /\ main_args img (main_sp top argv) argv /\
    forall w, w ∈ rest -> pages k !! w = pages (x_vm s) !! w) s) as (r & s' & Hrun & HP).
  { unfold exec. eapply (wp_exec_open kend kdata all P path ip st f rest s);
      [exact H|exact Hv|exact Hw|exact Hb|exact Hput|exact Hl|exact Hfound|exact Hmay|].
    intros k1 H1 Hp1 Hw1. apply wp_bind.
    eapply (wp_exec_elf kend kdata all P ip f (fa_prog _ _ _ _ _ _ Hfound) junk e rest); cbn [x_vm x_proc];
      [rewrite Hpg; exact H1|exact Hw1|apply He|apply He|].
    rewrite Hpg. intros k2 H2 Hp2 Hw2. rewrite (ge_magic _ _ _ He), Z.eqb_refl. cbn [negb].
    eapply (wp_exec_load kend kdata all path argv P ip f e phs name rest); cbn [x_vm x_proc];
      [done|done|rewrite Hpg; exact H2|exact Hw2|apply Hfound|apply Hfound|exact He|exact Htop|done|exact Hfit|exact Hmem
      |by destruct Hc as [-> | ->]|].
    intros k fs' dir tabs frm img Him Hseg Hma Hkeep. exists k, fs', dir, tabs, frm, img. split_and!; try done.
    - by destruct Hc as [-> | ->].
    - intros w Hin. rewrite Hkeep, Hp2, Hp1 by done. apply lookup_insert_ne. intros ->.
      eapply rest_not_frame; [exact H|exact Hin|exact Hv]. }
  destruct HP as (k & fs' & dir & tabs & frm & img & -> & -> & HP). exists k, fs', dir, tabs, frm, img. split; [|done].
  rewrite Hrun. unfold checked. by destruct (Z.testbit _ _).
Qed.

(** C30. [exec] of a file that is not a program returns -1 with the memory of the
    process as before, but for two things: a [struct stat] overwrites its first 28 bytes,
    and when the file is set-uid the process keeps the user id of the owner. *)
Theorem exec_not_elf junk path argv (s : xst W) rest fs otabs ofrm v b P ip st f e :
  let p := x_proc s in
  uspace kend kdata all rest (x_vm s) fs (p_pgdir p) otabs ofrm ->
  ofrm !! 0 = Some v -> pages (x_vm s) !! v = Some b -> has (pte (pages (x_vm s)) otabs 0) PTE_W = true ->
  found_at P path ip st f (m_world (km_mach (x_vm s))) -> may_exec p st = true ->
  ELFSIZE <= Z.of_nat (length f) < 2 ^ 31 -> elfhdr_of (take (Z.to_nat ELFSIZE) f) = Some e -> e_magic e <> ELF_MAGIC ->
  exists k b', put_stat b 0 st = Some b' /\ pages k = <[v := b']> (pages (x_vm s)) /\
    uspace kend kdata all rest k fs (p_pgdir p) otabs ofrm /\
    exec kend kdata junk path argv s =
      Ok (-1, mkxst k (if Z.testbit (st_mode st) 9 then set_p_uid (st_uid st) p else p)).
Proof.
  intros p H Hv Hb Hw Hfound Hmay Hlen He Hmagic. subst p.
  destruct (first_page _ _ _ _ _ _ _ _ _ _ st H Hv) as (b0 & b' & Hb0 & Hput & Hl). assert (b0 = b) as -> by congruence.
  assert (Hpg : p_pgdir (checked st (x_proc s)) = p_pgdir (x_proc s)) by (unfold checked; by destruct (Z.testbit _ _)).
  edestruct (wp_no_error (exec kend kdata junk path argv) (fun r s' => exists k, r = -1 /\ s' = mkxst k (checked st (x_proc s)) /\
    pages k = <[v := b']> (pages (x_vm s)) /\ uspace kend kdata all rest k fs (p_pgdir (x_proc s)) otabs ofrm) s) as (r & s' & Hrun & HP).
  { unfold exec. eapply (wp_exec_open kend kdata all P path ip st f rest s);
      [exact H|exact Hv|exact Hw|exact Hb|exact Hput|exact Hl|exact Hfound|exact Hmay|].
    intros k1 H1 Hp1 Hw1. apply wp_bind.
    eapply (wp_exec_elf kend kdata all P ip f (fa_prog _ _ _ _ _ _ Hfound) junk e rest); cbn [x_vm x_proc];
      [rewrite Hpg; exact H1|exact Hw1|exact Hlen|exact He|].
    rewrite Hpg. intros k2 H2 Hp2 Hw2. destruct (Z.eqb_spec (e_magic e) ELF_MAGIC); [done|]. cbn [negb].
    destruct (fa_close _ _ _ _ _ _ Hfound _ Hw2) as (w1 & w2 & Hc1 & Hc2).
    unfold exec_bad. change (0 =? 0) with true. apply wp_bind, wp_ret. apply wp_bind, wp_bind, wp_vm. eapply wp_vfs; [exact Hc1|].
    apply wp_vm. eapply wp_vfs; [exact Hc2|]. apply wp_ret. cbn [x_vm x_proc]. eexists. split_and!; [done|done| |by repeat apply space_world].
    change (pages k2 = <[v := b']> (pages (x_vm s))). by rewrite Hp2. }
  destruct HP as (k & -> & -> & Hp & Hs). exists k, b'. split_and!; try done.
Qed.
End Results.

(** ** A small program *)

(** Three bytes of code in one segment of ten bytes at address 0. *)
Definition demo_elf (magic : Z) : list Z :=
  le_bytes 4 magic ++ replicate 20 0 ++ le_bytes 4 0 ++ le_bytes 4 52 ++ replicate 12 0 ++ le_bytes 2 1 ++ replicate 6 0 ++
  le_bytes 4 ELF_PROG_LOAD ++ le_bytes 4 84 ++ le_bytes 4 0 ++ replicate 4 0 ++ le_bytes 4 3 ++ le_bytes 4 10 ++ replicate 8 0 ++
  [144; 205; 64].
Definition demo_ph : proghdr := mkproghdr 1 84 0 3 10.

(** Every path leads to the file [f], which belongs to user 7, is set-uid and may be
    executed by all. *)
Definition demo_stat (f : list Z) : stat := mkstat T_FILE 1 2 1 1001 7 7 (Z.of_nat (length f)).
Definition one_file (f : list Z) : ExecFs unit := {|
  x_begin_op := mret tt;
  x_end_op := mret tt;
  x_namei _ := mret (Some 0%nat);
  x_ilock _ := mret tt;
  x_iunlockput _ := mret tt;
  x_readi _ off n := mret (n, take (Z.to_nat n) (drop (Z.to_nat off) f));
  x_stati _ := mret (demo_stat f);
|}.

Lemma one_file_found f path w : found_at (XF := one_file f) (fun _ => True) path 0 (demo_stat f) f w.
Proof.
  destruct w. split.
  - exists tt, tt, tt, tt. by repeat split.
  - split; [done|]. intros w off n _ _ _ _. exists w. by split.
  - intros [] _. exists tt, tt. by split.
Qed.

(** A process with one page. *)
Lemma vm_process : exists (k : kmst unit) fs dir tabs frm, image_at vm_end vm_data vm_pages [] k fs dir tabs frm PGSIZE (fun _ => true) (fun _ => 0) /\
  (100 <= length fs)%nat.
Proof.
  destruct vm_kernel as (s0 & fs0 & dir & tabs0 & H0 & Hl & _).
  edestruct (wp_no_error (allocuvm (W := unit) vm_end dir 0 PGSIZE)) as (r & k & _ & HP).
  { eapply (wp_allocuvm vm_end vm_data vm_pages PGSIZE [] s0 fs0 dir tabs0 ∅ 0 (fun _ => true) (fun _ => 0)) with
      (Q := fun _ k => exists fs tabs frm, image_at vm_end vm_data vm_pages [] k fs dir tabs frm PGSIZE (fun _ => true) (fun _ => 0) /\ (100 <= length fs)%nat);
      [|done|done|done|change (npages PGSIZE - npages 0) with 1; lia|].
    - split; try done; change (npages 0) with 0; intros m; [rewrite lookup_empty; split; [by intros []|lia]|lia|lia].
    - change (Z.max 0 PGSIZE) with PGSIZE. change (npages PGSIZE - npages 0) with 1. intros k fs tabs frm Him Hc _.
      exists fs, tabs, frm. split; [done|lia]. }
  destruct HP as (fs & tabs & frm & HP). by exists k, fs, dir, tabs, frm.
Qed.

Lemma demo_elf_ok : good_elf (demo_elf ELF_MAGIC) (mkelfhdr ELF_MAGIC 0 52 1) [demo_ph].
Proof.
  split; [by vm_compute|by vm_compute|done|done|by vm_compute|]. apply Forall_singleton. intros _. by vm_compute.
Qed.

Definition demo_proc (dir : Z) : xproc := mkxproc dir PGSIZE 0 0 (replicate 16 0) 3 3.

(** "/a" with the arguments "a" and "bc". *)
Lemma exec_runs_witness : exists (s : xst unit) k fs' dir tabs frm img,
  exec (XF := one_file (demo_elf ELF_MAGIC)) vm_end vm_data [] [47; 97; 0] [[97]; [98; 99]] s =
    Ok (0, mkxst k (mkxproc dir (3 * PGSIZE) 0 (3 * PGSIZE - 32) (97 :: replicate 15 0) 7 3)) /\
  image_at vm_end vm_data vm_pages [] k fs' dir tabs frm (3 * PGSIZE) (fun m => negb (m =? 1)) img /\
  (forall a, a < 3 * PGSIZE - 32 -> img a = seg_image (demo_elf ELF_MAGIC) [demo_ph] (fun _ => 0) a) /\
  main_args img (3 * PGSIZE - 32) [[97]; [98; 99]] /\ forall w, w ∈ [] -> pages k !! w = pages (x_vm s) !! w.
Proof.
  destruct vm_process as (k0 & fs & dir0 & tabs0 & frm0 & Him & Hl). exists (mkxst k0 (demo_proc dir0)).
  apply (exec_runs (XF := one_file (demo_elf ELF_MAGIC)) vm_end vm_data vm_pages [] [47; 97; 0] [[97]; [98; 99]] (mkxst k0 (demo_proc dir0))
    [] fs tabs0 frm0 (fun _ => True) 0 (demo_stat (demo_elf ELF_MAGIC)) (demo_elf ELF_MAGIC) (mkelfhdr ELF_MAGIC 0 52 1) [demo_ph]
    (97 :: replicate 15 0)); [apply vm_data_ok|by vm_compute|apply Him| | |apply one_file_found|done|apply demo_elf_ok|by vm_compute|simpl; unfold MAXARG; lia
    |by vm_compute|change (npages (seg_size [demo_ph] 0)) with 1; lia|by vm_compute].
  - by apply (im_frames _ _ _ _ _ _ _ _ _ _ _ _ Him).
  - by apply (im_user _ _ _ _ _ _ _ _ _ _ _ _ Him 0).
Defined.

(** The same file with another magic number. *)
Lemma exec_not_elf_witness : exists (s : xst unit) fs tabs frm v b k b', put_stat b 0 (demo_stat (demo_elf 0)) = Some b' /\
  pages k = <[v := b']> (pages (x_vm s)) /\ uspace vm_end vm_data vm_pages [] k fs (p_pgdir (x_proc s)) tabs frm /\
  exec (XF := one_file (demo_elf 0)) vm_end vm_data [] [47; 97; 0] [] s = Ok (-1, mkxst k (set_p_uid 7 (x_proc s))).
Proof.
  destruct vm_process as (k0 & fs & dir0 & tabs0 & frm0 & Him & Hl).
  destruct (proj2 (im_frames _ _ _ _ _ _ _ _ _ _ _ _ Him 0) ltac:(by vm_compute)) as [v Hv].
  destruct (first_page vm_end vm_data vm_pages _ _ _ _ _ _ _ (demo_stat (demo_elf 0)) (im_space _ _ _ _ _ _ _ _ _ _ _ _ Him) Hv) as (b & _ & Hb & _).
  exists (mkxst k0 (demo_proc dir0)), fs, tabs0, frm0, v, b.
  apply (exec_not_elf (XF := one_file (demo_elf 0)) vm_end vm_data vm_pages [] [47; 97; 0] [] (mkxst k0 (demo_proc dir0))
    [] fs tabs0 frm0 v b (fun _ => True) 0 (demo_stat (demo_elf 0)) (demo_elf 0) (mkelfhdr 0 0 52 1));
    [apply Him|exact Hv|exact Hb| |apply one_file_found|done|by vm_compute|by vm_compute|done].
  by apply (im_user _ _ _ _ _ _ _ _ _ _ _ _ Him 0).
Defined.
