(* ===== verification/ExecFile.v ===== *)
(** * Programs on the disk (exec.c over fs.c and log.c)

    The file system implements the calls [exec] makes: for a path that leads to a
    regular file, [found_at] holds with the bytes of the file. *)

From stdpp Require Import base numbers list gmap sets strings.
From S2P Require Import Prelude Strings Bytes Machine Kalloc Vm VmTheorems Ide Store Bio BioTheorems Log LogSpec LogTheorems Fs FsTxn FsAlloc FsInode FsFile FsWrite FsCommit FsDir FsPath FsTheorems File Sysfile FileTheorems Exec ExecSpec ExecTheorems.

Open Scope Z_scope.

(** What [stati] gives for inode [n] with the fields [di]. *)
Definition stat_of (n : Z) (di : dinode) : stat :=
  mkstat (di_type di) (s32 ROOTDEV) n (di_nlink di) (di_mode di) (di_uid di) (di_gid di) (di_size di).

Section Disk.
Context {U S : Type} {VU : VmWorld U} {BC : BufferCache S} {BS : BufferCacheSpec S} {DV : Devsw S}.
Context (start sz : Z) (sb : superblock).
Implicit Types (s : fstate S) (t : tview).

(** Inode [n] is open and locked as entry [ip], inside a transaction. *)
Record reading (l0 : list inode) (t : tview) (n : Z) (di : dinode) (ip : nat) (w : U * fstate S) : Prop := {
  rd_rep : fsrep start sz None w.2 t;
  rd_sb : fs_sb w.2 = sb;
  rd_cache : cview (tv t) sb l0 (icache w.2) (Some ip) (delta n);
  rd_entry : exists x, icache w.2 !! ip = Some x /\ entry n x /\ i_flags x = 3 /\ i_d x = di;
}.

Lemma run_infs {A} (m : M (fstate S) A) (Q : A -> fstate S -> Prop) (w : U * fstate S) :
  wp no_error m Q w.2 -> exists a s', infs m w = Ok (a, (w.1, s')) /\ Q a s'.
Proof. intros (a & s' & Hm & HQ)%wp_no_error. exists a, s'. unfold infs. by rewrite Hm. Qed.

Section Steps.
Context (Hly : layout start sz sb) (l0 : list inode) (t : tview) (n : Z) (di : dinode).
Hypothesis Hth : th t = ∅.
Hypothesis Hlink : linked_inode (tv t) sb n.
Hypothesis Hdi : dinode_at (tv t) sb n = Some di.

(** [ilock] after [namei]. *)
Lemma reading_ilock (w : U * fstate S) o s' :
  resolved start sz sb l0 t w.2 (Some n) o s' -> fs_sb w.2 = sb ->
  exists ip s2, o = Some ip /\ x_ilock ip (w.1, s') = Ok (tt, (w.1, s2)) /\ reading l0 t n di ip (w.1, s2).
Proof.
  intros (l & c & -> & Hs & Hc & ip & x & -> & Hx & He) Hsb. pose proof He as (Hr & Hd & Hi).
  destruct Hlink as (Hn & di' & Hdi' & Hty & _). assert (di' = di) as -> by congruence. exists ip.
  edestruct (run_infs (ilock ip) (fun _ s2 => reading l0 t n di ip (w.1, s2)) (w.1, set_icache c (set_lst l w.2))) as ([] & s2 & H2 & HP).
  { eapply (wp_ilock start sz sb Hly ip x di); [exact Hs|done|apply Hc|exact Hx|done|by eapply (cv_unlocked _ _ _ _ _ _ Hc)|by rewrite Hi|done
      |by apply not_held_empty|by eapply room_fsrep|].
    intros l2 H2. rewrite Hi. split; [exact H2|done|by apply cview_lock|]. eexists. split; [apply list_lookup_insert_eq; by eapply lookup_lt_Some|].
    done. }
  exists s2. done.
Qed.

Hypothesis Hfo : file_ok (tv t) sb di.
Hypothesis Hfu : full (tv t) di.
Hypothesis Hty : di_type di <> T_DEV.

(** The contents of the file. *)
Definition contents (v : Z -> list Z) : list Z := file_bytes v di 0 (di_size di).

Lemma contents_length v : length (contents v) = Z.to_nat (di_size di).
Proof. unfold contents, file_bytes. by rewrite length_fmap, length_seqZ. Qed.

Lemma contents_slice v off m : 0 <= off -> 0 <= m -> off + m <= di_size di ->
  file_bytes v di off m = take (Z.to_nat m) (drop (Z.to_nat off) (contents v)).
Proof.
  intros Ho Hm Hl. unfold contents, file_bytes. rewrite <-fmap_drop, <-fmap_take. f_equal.
  apply list_eq. intros i. destruct (decide (i < Z.to_nat m)%nat) as [Hi|Hi].
  - rewrite lookup_take_lt, lookup_drop by done. rewrite (proj2 (lookup_seqZ _ _ _ (off + Z.of_nat i))) by lia.
    symmetry. apply lookup_seqZ. lia.
  - rewrite lookup_seqZ_ge, lookup_take_ge by lia. done.
Qed.

Lemma reading_prog ip : prog_at (reading l0 t n di ip) ip (contents (tv t)).
Proof.
  split.
  - intros msg w [H1 H2 H3 H4]. by split.
  - intros w off m [H1 H2 H3 (x & Hx & He & Hf & Hd)] Ho Hm Hl. rewrite contents_length in Hl.
    pose proof (do_size _ (fo_di _ _ _ Hfo)) as Hsz. pose proof (proj1 Hfu) as Hmax.
    edestruct (run_infs (readi ip off m) (fun r s' => r = (m, file_bytes (tv t) di off m) /\ reading l0 t n di ip (w.1, s')) w)
      as (r & s' & Hr & -> & HP).
    { eapply (wp_readi start sz sb Hly ip x off m _ w.2 t);
        [done|done|apply He|by rewrite Hd|by rewrite Hd|done|by eapply room_fsrep|by rewrite Hd|fs_lia|fs_lia|].
      intros l Hl'. rewrite Hd. unfold read_result. destruct (Z.ltb_spec (di_size di) off); [lia|].
      destruct (Z.leb_spec (2 ^ 32) (off + m)); [fs_lia|]. cbn [orb]. rewrite Z.min_l by lia. split; [done|].
      split; [exact Hl'|done|done|]. by exists x. }
    exists (w.1, s'). rewrite <-contents_slice by lia. done.
Qed.

Lemma reading_stati ip w : reading l0 t n di ip w -> x_stati ip w = Ok (stat_of n di, w).
Proof.
  intros [H1 H2 H3 (x & Hx & (_ & Hdev & Hi) & Hf & Hd)]. destruct w as [u s]. cbn [x_stati fs_exec infs snd fst] in *. unfold infs, stati.
  cbn [snd fst]. rewrite (bind_Ok _ _ s x s) by (unfold geti; by rewrite Hx). unfold stat_of. by rewrite Hd, Hdev, Hi.
Qed.

Hypothesis Hfree : (2 <= length (filter free_slot l0))%nat.
Hypothesis Hops : tn t = 1.

Lemma reading_close ip w : reading l0 t n di ip w ->
  exists w1 w2, x_iunlockput ip w = Ok (tt, w1) /\ x_end_op w1 = Ok (tt, w2).
Proof.
  intros [H1 H2 H3 (x & Hx & He & Hf & Hd)].
  edestruct (run_infs (iunlockput ip) (fun _ s' => fsrep start sz None s' t) w) as ([] & s1 & Hr1 & HP1).
  { eapply (wp_unlock_drop start sz sb l0 t Hfree ip x n); [exact H1|exact H3|exact Hx|exact He|exact Hf|exact Hlink|by rewrite Hd|done]. }
  edestruct (run_infs (inlog end_op) (fun _ _ => True) (w.1, s1)) as ([] & s2 & Hr2 & _).
  { eapply wp_f_end_op; [exact HP1|done|done|done]. }
  by exists (w.1, s1), (w.1, s2).
Qed.
End Steps.

(** C27. The file system implements what [exec] relies on: between transactions, for a
    path that leads to a regular file, [begin_op], [namei], [ilock] and [stati] succeed,
    [readi] then gives the bytes of the file as often as it is called, and
    [iunlockput] and [end_op] succeed. *)
Theorem fs_found_at (u : U) s t path n di :
  layout start sz sb -> fsrep start sz None s t -> idle t -> fs_sb s = sb -> icache_ok (tv t) sb (icache s) ->
  (forall i x, icache s !! i = Some x -> 0 < i_ref x -> Z.land (i_flags x) I_BUSY = 0) ->
  tree_ok (tv t) sb -> (2 <= length (filter free_slot (icache s)))%nat ->
  (exists x, icache s !! cwd s = Some x /\ entry (i_inum x) x /\ linked_inode (tv t) sb (i_inum x)) -> terminated path ->
  walk (tv t) sb false (from s path) (elems (cstr path)) = Some n -> linked_inode (tv t) sb n ->
  dinode_at (tv t) sb n = Some di -> file_ok (tv t) sb di -> full (tv t) di -> di_type di <> T_DEV ->
  exists ip, found_at (reading (icache s) (set_tn 1 t) n di ip) path ip (stat_of n di) (contents di (tv t)) (u, s).
Proof.
  intros Hly Hs Hidle Hsb Hic Hun Htree Hfree Hcwd Hterm Hwalk Hlink Hdi Hfo Hfu Hty.
  edestruct (run_infs (inlog begin_op) (fun _ s1 => exists l, s1 = set_lst l s /\ fsrep start sz None s1 (set_tn 1 t)) (u, s))
    as ([] & s1 & Hr1 & l1 & -> & H1); [eapply wp_f_begin_op; [exact Hs|done|by eauto]|].
  edestruct (run_infs (namei path) (fun o s2 => resolved start sz sb (icache s) (set_tn 1 t) (set_lst l1 s) (Some n) o s2) (u, set_lst l1 s))
    as (o & s2 & Hr2 & HP2).
  { eapply (wp_namei start sz sb path); [done|exact H1|done|done|done|done|apply Hidle|done|done|done|]. intros o s2 H2.
    change (walk _ _ _ _ _) with (walk (tv t) sb false (from s path) (elems (cstr path))) in H2. by rewrite Hwalk in H2. }
  destruct (reading_ilock Hly (icache s) (set_tn 1 t) n di ltac:(apply Hidle) Hlink Hdi (u, set_lst l1 s) o s2 HP2 Hsb) as (ip & s3 & -> & Hr3 & H3).
  exists ip. split.
  - do 3 eexists. exists (u, s3). split_and!; [exact Hr1|exact Hr2|exact Hr3|by eapply reading_stati|exact H3].
  - apply (reading_prog Hly (icache s) (set_tn 1 t)); try done. apply Hidle.
  - intros w Hw. by apply (reading_close (icache s) (set_tn 1 t) n di ltac:(apply Hidle) Hlink Hdi Hfree eq_refl ip).
Qed.
End Disk.

(** "/f" of the small file system. *)
Lemma fs_found_at_witness : exists ip, found_at (reading 2 30 demo_sb (icache demo_idle) (set_tn 1 (mktv demo_disk ∅ [] 0)) 2 demo_file ip)
  [47; 102; 0] ip (stat_of 2 demo_file) [104; 101; 108; 108; 111] (tt, demo_idle).
Proof.
  change [104; 101; 108; 108; 111] with (contents demo_file demo_disk).
  apply (fs_found_at (BS := bio_spec) 2 30 demo_sb tt demo_idle (mktv demo_disk ∅ [] 0) [47; 102; 0] 2 demo_file);
    [apply demo_layout|apply demo_idle_rep|done|done|apply demo_icache_ok|apply demo_unlocked|apply demo_tree| | | | |apply demo_linked; by right
    |by vm_compute|apply demo_file_ok|apply demo_file_ok|done].
  - apply (bool_decide_unpack _). by vm_compute.
  - exists (mkinode ROOTDEV 1 1 I_VALID demo_root). split_and!; [done..|apply demo_linked; by left].
  - apply (bool_decide_unpack _). by vm_compute.
  - by vm_compute.
Defined.
