(* ===== verification/StateLists.v ===== *)
(** * The per-state process lists (proc.c: [struct state_lists])

    Every process structure is on exactly one singly linked list, threaded
    through [p->next] and kept as a head and a tail pointer.  This file has
    the pointer-level routines [stateListAdd], [stateListAddAtHead],
    [stateListRemove], [initProcessLists], [countList] and the list splice of
    [promoteAll]; the interface [StateLists] the rest of proc.c is written
    against; an abstract instance whose state is a family of duplicate-free
    lists of process indices; and the proof that the pointer-level instance
    refines the abstract one. *)

From stdpp Require Import base numbers list sets strings.
From S2P Require Import Prelude.

Open Scope Z_scope.

Definition NPROC : nat := 64.
Definition MAXPRIO : nat := 6.

(** A [struct proc *]: null, or the index of an element of [ptable.proc]. *)
Notation pptr := (option nat).

(** Which list a [head]/[tail] pair of arguments denotes. *)
Inductive lid :=
  | LFree
  | LEmbryo
  | LSleep
  | LZombie
  | LRunning
  | LReady (i : nat).

#[export] Instance lid_eq_dec : EqDecision lid.
Proof. solve_decision. Defined.

(** [ready] has [MAXPRIO+1] elements. *)
Definition valid_lid (l : lid) : bool :=
  match l with LReady i => (i <=? MAXPRIO)%nat | _ => true end.

(** ** The interface *)

Class StateLists (L : Type) := {
  sl_head : lid -> M L pptr;                  (* *head *)
  sl_ready : nat -> M L pptr;                 (* ptable.pLists.ready[i] *)
  sl_next : nat -> M L pptr;                  (* p->next *)
  stateListAdd : lid -> pptr -> M L unit;
  stateListAddAtHead : lid -> pptr -> M L unit;
  stateListRemove : lid -> pptr -> M L Z;
  initProcessLists : M L unit;
  promoteLists : M L unit;                    (* the splice of promoteAll *)
}.

(** ** Pointer-level implementation *)

Record plists := mkplists {
  pl_ready : list pptr;
  pl_ready_tail : list pptr;
  pl_free : pptr;
  pl_free_tail : pptr;
  pl_sleep : pptr;
  pl_sleep_tail : pptr;
  pl_zombie : pptr;
  pl_zombie_tail : pptr;
  pl_running : pptr;
  pl_running_tail : pptr;
  pl_embryo : pptr;
  pl_embryo_tail : pptr;
  pnext : list pptr;     (* the [next] field of every element of ptable.proc *)
}.

Module Ptr.

(** Reads and writes through the [head] and [tail] arguments. *)
Definition get_head (l : lid) (s : plists) : option pptr :=
  match l with
  | LFree => Some (pl_free s)
  | LEmbryo => Some (pl_embryo s)
  | LSleep => Some (pl_sleep s)
  | LZombie => Some (pl_zombie s)
  | LRunning => Some (pl_running s)
  | LReady i => pl_ready s !! i
  end.

Definition get_tail (l : lid) (s : plists) : option pptr :=
  match l with
  | LFree => Some (pl_free_tail s)
  | LEmbryo => Some (pl_embryo_tail s)
  | LSleep => Some (pl_sleep_tail s)
  | LZombie => Some (pl_zombie_tail s)
  | LRunning => Some (pl_running_tail s)
  | LReady i => pl_ready_tail s !! i
  end.

Definition put_head (l : lid) (p : pptr) (s : plists) : plists :=
  let '(mkplists r rt f ft sl slt z zt ru rut e et nx) := s in
  match l with
  | LFree => mkplists r rt p ft sl slt z zt ru rut e et nx
  | LEmbryo => mkplists r rt f ft sl slt z zt ru rut p et nx
  | LSleep => mkplists r rt f ft p slt z zt ru rut e et nx
  | LZombie => mkplists r rt f ft sl slt p zt ru rut e et nx
  | LRunning => mkplists r rt f ft sl slt z zt p rut e et nx
  | LReady i => mkplists (<[i := p]> r) rt f ft sl slt z zt ru rut e et nx
  end.

Definition put_tail (l : lid) (p : pptr) (s : plists) : plists :=
  let '(mkplists r rt f ft sl slt z zt ru rut e et nx) := s in
  match l with
  | LFree => mkplists r rt f p sl slt z zt ru rut e et nx
  | LEmbryo => mkplists r rt f ft sl slt z zt ru rut e p nx
  | LSleep => mkplists r rt f ft sl p z zt ru rut e et nx
  | LZombie => mkplists r rt f ft sl slt z p ru rut e et nx
  | LRunning => mkplists r rt f ft sl slt z zt ru p e et nx
  | LReady i => mkplists r (<[i := p]> rt) f ft sl slt z zt ru rut e et nx
  end.

Definition put_next (nx : list pptr) (s : plists) : plists :=
  let '(mkplists r rt f ft sl slt z zt ru rut e et _) := s in
  mkplists r rt f ft sl slt z zt ru rut e et nx.

Definition rd {A} (f : plists -> option A) : M plists A := fun s =>
  match f s with Some a => Ok (a, s) | None => Err Fault end.

Definition rd_head (l : lid) : M plists pptr := rd (get_head l).
Definition rd_tail (l : lid) : M plists pptr := rd (get_tail l).

Definition wr_head (l : lid) (p : pptr) : M plists unit := fun s =>
  match get_head l s with Some _ => Ok (tt, put_head l p s) | None => Err Fault end.

Definition wr_tail (l : lid) (p : pptr) : M plists unit := fun s =>
  match get_tail l s with Some _ => Ok (tt, put_tail l p s) | None => Err Fault end.

(** [p->next] and [p->next = q]. *)
Definition rd_next (p : pptr) : M plists pptr := rd (fun s => i ← p; pnext s !! i).

Definition wr_next (p q : pptr) : M plists unit := fun s =>
  match (i ← p; n ← pnext s !! i; Some i) with
  | Some i => Ok (tt, put_next (<[i := q]> (pnext s)) s)
  | None => Err Fault
  end.

Definition stateListAdd (l : lid) (p : pptr) : M plists unit :=
  h ← rd_head l;
  match h with
  | None =>
      wr_head l p ;;
      wr_tail l p ;;
      wr_next p None
  | Some _ =>
      t ← rd_tail l;
      wr_next t p ;;
      t ← rd_tail l;
      n ← rd_next t;
      wr_tail l n ;;
      t ← rd_tail l;
      wr_next t None
  end.

Definition stateListAddAtHead (l : lid) (p : pptr) : M plists unit :=
  h ← rd_head l;
  match h with
  | None =>
      wr_head l p ;;
      wr_tail l p ;;
      wr_next p None
  | Some _ =>
      wr_next p h ;;
      wr_head l p
  end.

(** The [while(current)] loop of [stateListRemove]: returns [previous] and
    [current].  [NPROC + 1] rounds visit every process once. *)
Fixpoint scan (fuel : nat) (p previous current : pptr) : M plists (pptr * pptr) :=
  match current with
  | None => mret (previous, None)
  | Some _ =>
      if decide (current = p) then mret (previous, current)
      else match fuel with
           | O => fail NoFuel
           | S fuel => n ← rd_next current; scan fuel p current n
           end
  end.

Definition stateListRemove (l : lid) (p : pptr) : M plists Z :=
  h ← rd_head l;
  t ← rd_tail l;
  if decide (h = None \/ t = None \/ p = None) then
    (* the message prints p->pid and ( *head)->pid *)
    rd_next p ;; rd_next h ;; mret (-1)
  else if decide (h = p) then
    n ← rd_next h;
    wr_head l n ;;
    (if decide (t = p) then wr_tail l None else mret tt) ;;
    mret 0
  else
    '(previous, current) ← scan (S NPROC) p None h;
    match current with
    | None => mret (-1)
    | Some _ =>
        t ← rd_tail l;
        (if decide (current = t) then
           wr_tail l previous ;;
           t ← rd_tail l;
           wr_next t None
         else
           n ← rd_next current;
           wr_next previous n) ;;
        wr_next p None ;;
        mret 0
    end.

(** [countList]: the number of elements reached from [p]. *)
Fixpoint countList (fuel : nat) (p : pptr) : M plists Z :=
  match p with
  | None => mret 0
  | Some _ =>
      match fuel with
      | O => fail NoFuel
      | S fuel => n ← rd_next p; i ← countList fuel n; mret (i + 1)
      end
  end.

Definition initProcessLists : M plists unit :=
  modify (fun s =>
    mkplists (replicate (S MAXPRIO) None) (replicate (S MAXPRIO) None)
      None None None None None None None None None None (pnext s)).

(** [ptable.pLists.ready[i]] for any [i]: [ready_tail] follows [ready] in the
    structure, so an index past the end of [ready] reads [ready_tail]. *)
Definition rd_ready (i : nat) : M plists pptr :=
  rd (fun s => (pl_ready s ++ pl_ready_tail s) !! i).

(** The loop [for (i = 1; i < MAXPRIO; i++) ready[i] = ready[i+1]] (and tails). *)
Fixpoint shift_up (n i : nat) : M plists unit :=
  match n with
  | O => mret tt
  | S n =>
      h ← rd_head (LReady (S i));
      wr_head (LReady i) h ;;
      t ← rd_tail (LReady (S i));
      wr_tail (LReady i) t ;;
      shift_up n (S i)
  end.

Definition promoteLists : M plists unit :=
  h0 ← rd_head (LReady 0);
  t0 ← rd_tail (LReady 0);
  (if decide (h0 <> None /\ t0 <> None) then
     h1 ← rd_head (LReady 1);
     wr_next t0 h1 ;;
     t1 ← rd_tail (LReady 1);
     (if decide (t1 <> None) then wr_tail (LReady 0) t1 else mret tt)
   else
     h1 ← rd_head (LReady 1);
     wr_head (LReady 0) h1 ;;
     t1 ← rd_tail (LReady 1);
     wr_tail (LReady 0) t1) ;;
  wr_head (LReady 1) None ;;
  wr_tail (LReady 1) None ;;
  shift_up (MAXPRIO - 1) 1 ;;
  wr_head (LReady MAXPRIO) None ;;
  wr_tail (LReady MAXPRIO) None.

End Ptr.

#[export] Instance ptr_lists : StateLists plists := {|
  sl_head := Ptr.rd_head;
  sl_ready := Ptr.rd_ready;
  sl_next i := Ptr.rd_next (Some i);
  stateListAdd := Ptr.stateListAdd;
  stateListAddAtHead := Ptr.stateListAddAtHead;
  stateListRemove := Ptr.stateListRemove;
  initProcessLists := Ptr.initProcessLists;
  promoteLists := Ptr.promoteLists;
|}.

(** ** Abstract implementation: a family of lists of process indices *)

Definition alists : Type := lid -> list nat.

Definition all_lids : list lid :=
  [LFree; LEmbryo; LSleep; LZombie; LRunning] ++ (LReady <$> seq 0 (S MAXPRIO)).

Module Abs.

Definition upd (l : lid) (xs : list nat) (a : alists) : alists :=
  fun l' => if decide (l = l') then xs else a l'.

(** The list that holds process [i], if any. *)
Definition where_is (a : alists) (i : nat) : option lid :=
  snd <$> list_find (fun l => i ∈ a l) all_lids.

Fixpoint succ_in (i : nat) (xs : list nat) : pptr :=
  match xs with
  | [] => None
  | x :: xs => if decide (x = i) then head xs else succ_in i xs
  end.

(** A process may be added when it is on no list. *)
Definition addable (l : lid) (i : nat) (a : alists) : bool :=
  valid_lid l && bool_decide (i < NPROC)%nat && bool_decide (where_is a i = None).

Definition head_ (l : lid) : M alists pptr := fun a =>
  if valid_lid l then Ok (head (a l), a) else Err Fault.

Definition ready_ (i : nat) : M alists pptr := fun a =>
  if (i <=? MAXPRIO)%nat then Ok (head (a (LReady i)), a)
  else if (i <=? 2 * MAXPRIO + 1)%nat then Ok (last (a (LReady (i - S MAXPRIO)%nat)), a)
  else Err Fault.

Definition next_ (i : nat) : M alists pptr := fun a =>
  match where_is a i with
  | Some l => Ok (succ_in i (a l), a)
  | None => Err Fault
  end.

Definition add_ (l : lid) (p : pptr) : M alists unit := fun a =>
  match p with
  | Some i => if addable l i a then Ok (tt, upd l (a l ++ [i]) a) else Err Fault
  | None => Err Fault
  end.

Definition add_head_ (l : lid) (p : pptr) : M alists unit := fun a =>
  match p with
  | Some i => if addable l i a then Ok (tt, upd l (i :: a l) a) else Err Fault
  | None => Err Fault
  end.

Definition remove_ (l : lid) (p : pptr) : M alists Z := fun a =>
  match p with
  | Some i =>
      if valid_lid l && bool_decide (a l <> []) then
        if decide (i ∈ a l) then Ok (0, upd l (filter (fun x => x <> i) (a l)) a)
        else Ok (-1, a)
      else Err Fault
  | None => Err Fault
  end.

Definition init_ : M alists unit := fun a => Ok (tt, fun _ => []).

(** Every ready list moves up one level; the two highest are appended. *)
Definition promoted (a : alists) : alists := fun l =>
  match l with
  | LReady O => a (LReady 0) ++ a (LReady 1)
  | LReady i => if (i <? MAXPRIO)%nat then a (LReady (S i)) else []
  | l => a l
  end.

Definition promote_ : M alists unit := modify promoted.

End Abs.

#[export] Instance abs_lists : StateLists alists := {|
  sl_head := Abs.head_;
  sl_ready := Abs.ready_;
  sl_next := Abs.next_;
  stateListAdd := Abs.add_;
  stateListAddAtHead := Abs.add_head_;
  stateListRemove := Abs.remove_;
  initProcessLists := Abs.init_;
  promoteLists := Abs.promote_;
|}.

(** ** Refinement *)

(** An outcome refines another when it agrees with every result and every
    panic of it; a fault of the abstract side leaves the concrete side free. *)
Definition refines_o {A C D} (R : C -> D -> Prop)
    (oc : outcome (A * C)) (oa : outcome (A * D)) : Prop :=
  match oa with
  | Ok (x, a) => exists c, oc = Ok (x, c) /\ R c a
  | Err Fault | Err NoFuel => True
  | Err e => oc = Err e
  end.

Definition refines {A C D} (R : C -> D -> Prop) (mc : M C A) (ma : M D A) : Prop :=
  forall c a, R c a -> refines_o R (mc c) (ma a).

(** What an implementation of the lists promises its client. *)
Class ListRefinement {C D} (LC : StateLists C) (LD : StateLists D)
    (R : C -> D -> Prop) : Prop := {
  ref_head l : refines R (sl_head (StateLists := LC) l) (sl_head (StateLists := LD) l);
  ref_ready i : refines R (sl_ready (StateLists := LC) i) (sl_ready (StateLists := LD) i);
  ref_next i : refines R (sl_next (StateLists := LC) i) (sl_next (StateLists := LD) i);
  ref_add l p : refines R (stateListAdd (StateLists := LC) l p)
    (stateListAdd (StateLists := LD) l p);
  ref_add_head l p : refines R (stateListAddAtHead (StateLists := LC) l p)
    (stateListAddAtHead (StateLists := LD) l p);
  ref_remove l p : refines R (stateListRemove (StateLists := LC) l p)
    (stateListRemove (StateLists := LD) l p);
  ref_init : refines R (initProcessLists (StateLists := LC))
    (initProcessLists (StateLists := LD));
  ref_promote : refines R (promoteLists (StateLists := LC))
    (promoteLists (StateLists := LD));
}.

(** The segment of the linked list from [h] (inclusive) to [t] (exclusive)
    visits the processes [xs]. *)
Fixpoint lseg (nx : list pptr) (h : pptr) (xs : list nat) (t : pptr) : Prop :=
  match xs with
  | [] => h = t
  | i :: xs => h = Some i /\ exists n, nx !! i = Some n /\ lseg nx n xs t
  end.

(** The pointers [h] and [t] represent the list [xs]. *)
Definition is_list (nx : list pptr) (h t : pptr) (xs : list nat) : Prop :=
  lseg nx h xs None /\ t = last xs.

(** The pointer structure [s] represents the lists [a]. *)
Record represents (s : plists) (a : alists) : Prop := {
  rep_ready : length (pl_ready s) = S MAXPRIO;
  rep_ready_tail : length (pl_ready_tail s) = S MAXPRIO;
  rep_next : length (pnext s) = NPROC;
  rep_list l : valid_lid l = true -> exists h t,
    Ptr.get_head l s = Some h /\ Ptr.get_tail l s = Some t /\
    is_list (pnext s) h t (a l);
  rep_nodup l : valid_lid l = true -> NoDup (a l);
  rep_disj l l' i : valid_lid l = true -> valid_lid l' = true ->
    i ∈ a l -> i ∈ a l' -> l = l';
}.

(** *** Segments *)

Lemma lseg_app nx h xs ys t :
  lseg nx h (xs ++ ys) t <-> exists m, lseg nx h xs m /\ lseg nx m ys t.
Proof.
  revert h. induction xs as [|i xs IH]; intros h; simpl; [naive_solver|].
  setoid_rewrite IH. naive_solver.
Qed.

Lemma lseg_frame nx h xs t i v :
  i ∉ xs -> lseg nx h xs t -> lseg (<[i := v]> nx) h xs t.
Proof.
  revert h. induction xs as [|x xs IH]; intros h Hi; simpl; [done|].
  intros (-> & n & Hn & Hs). apply not_elem_of_cons in Hi as [??].
  split; [done|]. exists n. rewrite list_lookup_insert_ne by done. eauto.
Qed.

Lemma lseg_lt nx h xs t i : lseg nx h xs t -> i ∈ xs -> (i < length nx)%nat.
Proof.
  revert h. induction xs as [|x xs IH]; intros h; simpl; [by intros _ ?%not_elem_of_nil|].
  intros (-> & n & Hn & Hs) [->|Hi]%elem_of_cons; eauto using lookup_lt_Some.
Qed.

Lemma is_list_nil nx h t : is_list nx h t [] <-> h = None /\ t = None.
Proof. done. Qed.

Lemma is_list_frame nx h t xs i v :
  i ∉ xs -> is_list nx h t xs -> is_list (<[i := v]> nx) h t xs.
Proof. intros Hi [Hs Ht]. split; eauto using lseg_frame. Qed.

Lemma is_list_head nx h t xs : is_list nx h t xs -> h = head xs.
Proof. intros [Hs _]. destruct xs; simpl in *; naive_solver. Qed.

(** A non-empty represented list, opened at its last element. *)
Lemma is_list_snoc nx h t xs :
  is_list nx h t xs -> xs <> [] ->
  exists ys j, xs = ys ++ [j] /\ t = Some j /\ lseg nx h ys (Some j) /\
    nx !! j = Some None.
Proof.
  intros [Hs ->] Hne. destruct (exists_last Hne) as (ys & j & ->).
  apply lseg_app in Hs as (m & Hs & Hm). simpl in Hm.
  destruct Hm as (-> & n & Hn & ->). rewrite last_snoc. naive_solver.
Qed.

(** *** Reads after writes *)

Create Rewrite HintDb ptr.

Lemma get_head_put_head l l' p s :
  Ptr.get_head l' (Ptr.put_head l p s) =
  if decide (l = l') then (fun _ => p) <$> Ptr.get_head l s else Ptr.get_head l' s.
Proof.
  destruct s, l, l'; simpl; repeat case_decide; simplify_eq; try done.
  - rewrite list_lookup_insert. case_decide as Hd; simpl.
    + destruct Hd as [_ Hd]. by apply lookup_lt_is_Some in Hd as [? ->].
    + rewrite lookup_ge_None_2; [done|]. lia.
  - rewrite list_lookup_insert_ne by congruence. done.
Qed.

Lemma get_tail_put_tail l l' p s :
  Ptr.get_tail l' (Ptr.put_tail l p s) =
  if decide (l = l') then (fun _ => p) <$> Ptr.get_tail l s else Ptr.get_tail l' s.
Proof.
  destruct s, l, l'; simpl; repeat case_decide; simplify_eq; try done.
  - rewrite list_lookup_insert. case_decide as Hd; simpl.
    + destruct Hd as [_ Hd]. by apply lookup_lt_is_Some in Hd as [? ->].
    + rewrite lookup_ge_None_2; [done|]. lia.
  - rewrite list_lookup_insert_ne by congruence. done.
Qed.

Lemma get_tail_put_head l l' p s :
  Ptr.get_tail l' (Ptr.put_head l p s) = Ptr.get_tail l' s.
Proof. by destruct s, l, l'. Qed.
Lemma get_head_put_tail l l' p s :
  Ptr.get_head l' (Ptr.put_tail l p s) = Ptr.get_head l' s.
Proof. by destruct s, l, l'. Qed.
Lemma get_head_put_next l nx s : Ptr.get_head l (Ptr.put_next nx s) = Ptr.get_head l s.
Proof. by destruct s, l. Qed.
Lemma get_tail_put_next l nx s : Ptr.get_tail l (Ptr.put_next nx s) = Ptr.get_tail l s.
Proof. by destruct s, l. Qed.
Lemma pnext_put_head l p s : pnext (Ptr.put_head l p s) = pnext s.
Proof. by destruct s, l. Qed.
Lemma pnext_put_tail l p s : pnext (Ptr.put_tail l p s) = pnext s.
Proof. by destruct s, l. Qed.
Lemma pnext_put_next nx s : pnext (Ptr.put_next nx s) = nx.
Proof. by destruct s. Qed.
Lemma ready_put_head l p s : length (pl_ready (Ptr.put_head l p s)) = length (pl_ready s).
Proof. destruct s, l; simpl; by rewrite ?length_insert. Qed.
Lemma ready_put_tail l p s : length (pl_ready (Ptr.put_tail l p s)) = length (pl_ready s).
Proof. by destruct s, l. Qed.
Lemma ready_put_next nx s : length (pl_ready (Ptr.put_next nx s)) = length (pl_ready s).
Proof. by destruct s. Qed.
Lemma ready_tail_put_head l p s :
  length (pl_ready_tail (Ptr.put_head l p s)) = length (pl_ready_tail s).
Proof. by destruct s, l. Qed.
Lemma ready_tail_put_tail l p s :
  length (pl_ready_tail (Ptr.put_tail l p s)) = length (pl_ready_tail s).
Proof. destruct s, l; simpl; by rewrite ?length_insert. Qed.
Lemma ready_tail_put_next nx s :
  length (pl_ready_tail (Ptr.put_next nx s)) = length (pl_ready_tail s).
Proof. by destruct s. Qed.

#[export] Hint Rewrite get_head_put_head get_tail_put_tail get_tail_put_head
  get_head_put_tail get_head_put_next get_tail_put_next pnext_put_head
  pnext_put_tail pnext_put_next ready_put_head ready_put_tail ready_put_next
  ready_tail_put_head ready_tail_put_tail ready_tail_put_next
  @length_insert : ptr.

(** Executes one pointer-level access of a routine whose operands are known. *)
Lemma rd_Ok {A} (f : plists -> option A) s x : f s = Some x -> Ptr.rd f s = Ok (x, s).
Proof. unfold Ptr.rd. by intros ->. Qed.

Lemma wr_head_Ok l p s h :
  Ptr.get_head l s = Some h -> Ptr.wr_head l p s = Ok (tt, Ptr.put_head l p s).
Proof. unfold Ptr.wr_head. by intros ->. Qed.

Lemma wr_tail_Ok l p s t :
  Ptr.get_tail l s = Some t -> Ptr.wr_tail l p s = Ok (tt, Ptr.put_tail l p s).
Proof. unfold Ptr.wr_tail. by intros ->. Qed.

Lemma rd_next_Ok i s n : pnext s !! i = Some n -> Ptr.rd_next (Some i) s = Ok (n, s).
Proof. intros H. by apply rd_Ok. Qed.

Lemma wr_next_Ok i q s n :
  pnext s !! i = Some n ->
  Ptr.wr_next (Some i) q s = Ok (tt, Ptr.put_next (<[i := q]> (pnext s)) s).
Proof. unfold Ptr.wr_next. simpl. by intros ->. Qed.

(** Simplifies reads of updated pointers. *)
Ltac ptr_simp :=
  autorewrite with ptr;
  repeat first [rewrite decide_True by done | rewrite decide_False by congruence];
  simpl.

Ltac ptr_step :=
  first
    [ erewrite bind_Ok; [|first
        [ eapply rd_next_Ok; ptr_simp; eassumption
        | eapply rd_Ok; ptr_simp; eassumption
        | eapply wr_head_Ok; ptr_simp; eassumption
        | eapply wr_tail_Ok; ptr_simp; eassumption
        | eapply wr_next_Ok; ptr_simp; eassumption ]]
    | eapply wr_next_Ok; ptr_simp; eassumption ]; cbn beta.

(** The lists after an operation that touches only list [l]. *)
Lemma represents_update s a s' l xs :
  represents s a -> valid_lid l = true ->
  length (pl_ready s') = length (pl_ready s) ->
  length (pl_ready_tail s') = length (pl_ready_tail s) ->
  length (pnext s') = length (pnext s) ->
  (forall l', l <> l' -> Ptr.get_head l' s' = Ptr.get_head l' s) ->
  (forall l', l <> l' -> Ptr.get_tail l' s' = Ptr.get_tail l' s) ->
  (forall l' h t, valid_lid l' = true -> l <> l' ->
     is_list (pnext s) h t (a l') -> is_list (pnext s') h t (a l')) ->
  (exists h t, Ptr.get_head l s' = Some h /\ Ptr.get_tail l s' = Some t /\
     is_list (pnext s') h t xs) ->
  NoDup xs ->
  (forall l' i, valid_lid l' = true -> l <> l' -> i ∈ xs -> i ∉ a l') ->
  represents s' (Abs.upd l xs a).
Proof.
  intros [Hr Hrt Hn Hl Hnd Hd] Hv Er Ert En Eh Et Hfr Hx Hxs Hdis.
  split; try congruence; unfold Abs.upd.
  - intros l' Hv'. case_decide as E; [by subst|].
    destruct (Hl l' Hv') as (h & t & ? & ? & ?). exists h, t.
    rewrite Eh, Et by done. eauto.
  - intros l' Hv'. case_decide; eauto.
  - intros l1 l2 i Hv1 Hv2. repeat case_decide; subst; intros H1 H2;
      [done|by destruct (Hdis l2 i)|by destruct (Hdis l1 i)|eauto].
Qed.

(** *** Where a process is *)

Lemma elem_all_lids l : l ∈ all_lids <-> valid_lid l = true.
Proof.
  unfold all_lids. rewrite elem_of_app, list_elem_of_fmap.
  setoid_rewrite elem_of_seq. destruct l as [| | | | |i].
  1-5: by split; [|intros _; left; set_solver].
  unfold valid_lid. rewrite Nat.leb_le. split.
  - intros [H|(y & [= <-] & Hy)]; [set_solver|lia].
  - intros Hi. right. exists i. split; [done|lia].
Qed.

Lemma where_is_None a i :
  Abs.where_is a i = None <-> forall l, valid_lid l = true -> i ∉ a l.
Proof.
  unfold Abs.where_is. rewrite fmap_None, list_find_None, Forall_forall.
  by setoid_rewrite elem_all_lids.
Qed.

Lemma where_is_Some a i l :
  Abs.where_is a i = Some l -> valid_lid l = true /\ i ∈ a l.
Proof.
  unfold Abs.where_is. intros ([n l'] & (Hl & Hi & _)%list_find_Some & ->)%fmap_Some.
  split; [|done]. apply elem_all_lids. by eapply list_elem_of_lookup_2.
Qed.

Lemma addable_spec l i a :
  Abs.addable l i a = true <->
  valid_lid l = true /\ (i < NPROC)%nat /\ forall l', valid_lid l' = true -> i ∉ a l'.
Proof.
  unfold Abs.addable. rewrite !andb_true_iff, !bool_decide_eq_true, where_is_None. tauto.
Qed.

(** *** Adding a process *)

Lemma next_lookup s a i :
  represents s a -> (i < NPROC)%nat -> exists n, pnext s !! i = Some n.
Proof. intros Hr Hi. apply lookup_lt_is_Some. by rewrite (rep_next _ _ Hr). Qed.

(** The side conditions of [represents_update] that only read pointers. *)
Ltac rep_update Hr Hv :=
  refine (represents_update _ _ _ _ _ Hr Hv _ _ _ _ _ _ _ _ _);
  [ by autorewrite with ptr | by autorewrite with ptr | by autorewrite with ptr
  | by intros l' Hl'; ptr_simp | by intros l' Hl'; ptr_simp | | | | ].

Lemma add_empty s a l i h t :
  represents s a -> Abs.addable l i a = true -> a l = [] ->
  Ptr.get_head l s = Some h -> Ptr.get_tail l s = Some t ->
  exists s', (Ptr.wr_head l (Some i) ;; Ptr.wr_tail l (Some i) ;;
              Ptr.wr_next (Some i) None) s = Ok (tt, s') /\
    represents s' (Abs.upd l [i] a).
Proof.
  intros Hr (Hv & Hi & Hfree)%addable_spec Hnil Hh Ht.
  destruct (next_lookup _ _ _ Hr Hi) as [n Hn].
  eexists. split; [do 2 ptr_step; ptr_step|]. ptr_simp. rep_update Hr Hv.
  - intros l' h' t' Hv' Hne Hs. ptr_simp. eauto using is_list_frame.
  - exists (Some i), (Some i). ptr_simp. rewrite Hh, Ht. split_and!; [done..|].
    split; [|done]. simpl. split; [done|]. exists None.
    rewrite list_lookup_insert_eq; [done|]. by eapply lookup_lt_Some.
  - apply NoDup_singleton.
  - intros l' j Hv' Hne ->%list_elem_of_singleton. eauto.
Qed.

Lemma add_refines l p :
  refines represents (Ptr.stateListAdd l p) (Abs.add_ l p).
Proof.
  intros s a Hr. destruct p as [i|]; [|done]. simpl.
  destruct (Abs.addable l i a) eqn:Hadd; [|done].
  pose proof Hadd as (Hv & Hi & Hfree)%addable_spec.
  destruct (rep_list _ _ Hr l Hv) as (h & t & Hh & Ht & Hs).
  destruct (next_lookup _ _ _ Hr Hi) as [ni Hni]. unfold Ptr.stateListAdd.
  erewrite bind_Ok; [|by apply rd_Ok]. destruct (decide (a l = [])) as [E|E].
  - rewrite E in Hs |- *. apply is_list_nil in Hs as [-> ->]. by eapply add_empty.
  - destruct (is_list_snoc _ _ _ _ Hs E) as (ys & j & Ea & -> & Hseg & Hj).
    rewrite (is_list_head _ _ _ _ Hs) in *.
    destruct (head (a l)) as [h0|] eqn:Eh; [|by destruct (a l)].
    assert (Hij : j <> i).
    { intros ->. apply (Hfree l Hv). rewrite Ea. set_solver. }
    assert (Hj' : <[j := Some i]> (pnext s) !! j = Some (Some i)).
    { apply list_lookup_insert_eq. by eapply lookup_lt_Some. }
    assert (Hi' : <[j := Some i]> (pnext s) !! i = Some ni).
    { by rewrite list_lookup_insert_ne. }
    eexists. split.
    { do 4 ptr_step. erewrite bind_Ok by (eapply wr_tail_Ok; ptr_simp; eassumption).
      erewrite bind_Ok.
      2: { eapply rd_Ok. ptr_simp. by rewrite Ht. }
      eapply wr_next_Ok. ptr_simp. eassumption. }
    ptr_simp. rep_update Hr Hv.
    + intros l' h' t' Hv' Hne Hl'. ptr_simp. apply is_list_frame; [eauto|].
      apply is_list_frame; [|done]. intros Hin. apply Hne.
      eapply (rep_disj _ _ Hr); [done..| |exact Hin]. rewrite Ea. set_solver.
    + exists (Some h0), (Some i). ptr_simp. rewrite Hh, Ht. split_and!; [done..|].
      split; [|by rewrite last_snoc]. rewrite Ea, <- app_assoc.
      apply lseg_app. exists (Some j). split.
      * apply lseg_frame; [intros Hin; apply (Hfree l Hv); rewrite Ea; set_solver|].
        apply lseg_frame; [|done]. pose proof (rep_nodup _ _ Hr l Hv) as Hnd.
        rewrite Ea in Hnd. apply NoDup_app in Hnd as (_ & Hnd & _). set_solver.
      * simpl. split; [done|]. exists (Some i). rewrite list_lookup_insert_ne by done.
        split; [done|]. split; [done|]. exists None.
        rewrite list_lookup_insert_eq; [done|]. by eapply lookup_lt_Some.
    + apply NoDup_app. split_and!; [by apply (rep_nodup _ _ Hr)| |apply NoDup_singleton].
      intros k Hk ->%list_elem_of_singleton. by apply (Hfree l Hv).
    + intros l' k Hv' Hne [Hk| ->%list_elem_of_singleton]%elem_of_app Hk'; [|by apply (Hfree l' Hv')].
      apply Hne. by eapply (rep_disj _ _ Hr).
Qed.

Lemma add_head_refines l p :
  refines represents (Ptr.stateListAddAtHead l p) (Abs.add_head_ l p).
Proof.
  intros s a Hr. destruct p as [i|]; [|done]. simpl.
  destruct (Abs.addable l i a) eqn:Hadd; [|done].
  pose proof Hadd as (Hv & Hi & Hfree)%addable_spec.
  destruct (rep_list _ _ Hr l Hv) as (h & t & Hh & Ht & Hs).
  destruct (next_lookup _ _ _ Hr Hi) as [ni Hni]. unfold Ptr.stateListAddAtHead.
  erewrite bind_Ok; [|by apply rd_Ok]. destruct (decide (a l = [])) as [E|E].
  - rewrite E in Hs |- *. apply is_list_nil in Hs as [-> ->]. by eapply add_empty.
  - pose proof (is_list_head _ _ _ _ Hs) as Eh.
    destruct h as [h0|]; [|by destruct (a l)].
    eexists. split.
    { ptr_step. eapply wr_head_Ok. ptr_simp. eassumption. }
    rep_update Hr Hv.
    + intros l' h' t' Hv' Hne Hl'. ptr_simp. apply is_list_frame; eauto.
    + exists (Some i), t. ptr_simp. rewrite Hh, Ht. split_and!; [done..|].
      destruct Hs as [Hseg ->]. split.
      * simpl. split; [done|]. exists (Some h0).
        rewrite list_lookup_insert_eq by (by eapply lookup_lt_Some). split; [done|].
        apply lseg_frame; eauto.
      * by destruct (a l).
    + apply NoDup_cons. split; [by apply Hfree|by apply (rep_nodup _ _ Hr)].
    + intros l' k Hv' Hne [->|Hk]%elem_of_cons Hk'; [by apply (Hfree l' Hv')|].
      apply Hne. by eapply (rep_disj _ _ Hr).
Qed.

(** *** Removing a process *)

Lemma rep_length s a l :
  represents s a -> valid_lid l = true -> (length (a l) <= NPROC)%nat.
Proof.
  intros Hr Hv. apply NoDup_bounded_length; [by apply (rep_nodup _ _ Hr)|].
  intros x Hx. destruct (rep_list _ _ Hr l Hv) as (h & t & _ & _ & [Hs _]).
  rewrite <- (rep_next _ _ Hr). by eapply lseg_lt.
Qed.

Lemma filter_ne_id (xs : list nat) i : i ∉ xs -> filter (fun x => x <> i) xs = xs.
Proof.
  intros Hi. induction xs as [|x xs IH]; [done|].
  apply not_elem_of_cons in Hi as [??]. rewrite filter_cons_True by done. by rewrite IH.
Qed.

Lemma filter_ne_app (ys zs : list nat) i :
  NoDup (ys ++ i :: zs) -> filter (fun x => x <> i) (ys ++ i :: zs) = ys ++ zs.
Proof.
  intros (_ & Hd & [Hi _]%NoDup_cons)%NoDup_app.
  rewrite filter_app, filter_cons_False by naive_solver.
  rewrite !filter_ne_id; [done|done|set_solver].
Qed.

Lemma scan_found s fuel prev cur ys i t :
  lseg (pnext s) cur ys (Some i) -> i ∉ ys -> (length ys <= fuel)%nat ->
  t = from_option Some prev (last ys) ->
  Ptr.scan fuel (Some i) prev cur s = Ok ((t, Some i), s).
Proof.
  revert prev cur t fuel. induction ys as [|y ys IH]; intros prev cur t fuel Hs Hi Hf ->; simpl in *.
  - subst cur. destruct fuel; simpl; by rewrite decide_True.
  - destruct Hs as (-> & n & Hn & Hs). apply not_elem_of_cons in Hi as [??].
    destruct fuel as [|fuel]; [lia|]. simpl. rewrite decide_False by congruence.
    erewrite bind_Ok by (by apply rd_next_Ok). apply IH; [done..|lia|].
    destruct ys as [|y' ys]; [done|]. rewrite last_cons_cons.
    destruct (last (y' :: ys)) eqn:E; [done|]. by apply last_None in E.
Qed.

Lemma scan_not_found s fuel prev cur xs i :
  lseg (pnext s) cur xs None -> i ∉ xs -> (length xs <= fuel)%nat ->
  exists q, Ptr.scan fuel (Some i) prev cur s = Ok ((q, None), s).
Proof.
  revert prev cur fuel. induction xs as [|y ys IH]; intros prev cur fuel Hs Hi Hf; simpl in *.
  - subst cur. exists prev. by destruct fuel.
  - destruct Hs as (-> & n & Hn & Hs). apply not_elem_of_cons in Hi as [??].
    destruct fuel as [|fuel]; [lia|]. simpl. rewrite decide_False by congruence.
    erewrite bind_Ok by (by apply rd_next_Ok). apply IH; [done..|lia].
Qed.

#[global] Arguments Ptr.scan : simpl never.

(** The first element is removed. *)
Lemma remove_head s a l i zs t :
  represents s a -> valid_lid l = true -> a l = i :: zs ->
  Ptr.get_head l s = Some (Some i) -> Ptr.get_tail l s = Some t ->
  is_list (pnext s) (Some i) t (i :: zs) ->
  exists s', (n ← Ptr.rd_next (Some i); Ptr.wr_head l n ;;
     (if decide (t = Some i) then Ptr.wr_tail l None else mret tt) ;;
     mret 0) s = Ok (0, s') /\ represents s' (Abs.upd l zs a).
Proof.
  intros Hr Hv Ea Hh Ht [(_ & n & Hn & Hs) ->].
  pose proof (rep_nodup _ _ Hr l Hv) as Hnd. rewrite Ea in Hnd.
  apply NoDup_cons in Hnd as [Hi Hnd].
  set (s' := if decide (last (i :: zs) = Some i)
             then Ptr.put_tail l None (Ptr.put_head l n s) else Ptr.put_head l n s).
  exists s'. split.
  { do 2 ptr_step. unfold s'. case_decide; [|done].
    erewrite bind_Ok; [done|]. eapply wr_tail_Ok. ptr_simp. exact Ht. }
  assert (Hlast : last zs = Some i -> False).
  { intros Hl%last_Some_elem_of. done. }
  unfold s'. case_decide as Hd; rep_update Hr Hv; try done.
  - intros l' h' t' Hv' Hne Hl. by ptr_simp.
  - exists n, None. ptr_simp. rewrite Hh, Ht. split_and!; [done..|]. split; [done|].
    destruct zs; [done|]. by destruct Hlast.
  - intros l' k Hv' Hne Hk Hk'. apply Hne. eapply (rep_disj _ _ Hr); [done..| |exact Hk'].
    rewrite Ea. set_solver.
  - intros l' h' t' Hv' Hne Hl. by ptr_simp.
  - exists n, (last (i :: zs)). ptr_simp. rewrite Hh, Ht. split_and!; [done..|]. split; [done|].
    by destruct zs.
  - intros l' k Hv' Hne Hk Hk'. apply Hne. eapply (rep_disj _ _ Hr); [done..| |exact Hk'].
    rewrite Ea. set_solver.
Qed.

(** A later element [i], whose predecessor is [j], is unlinked. *)
Lemma remove_middle s a l ys j i zs h t s' n :
  represents s a -> valid_lid l = true -> a l = (ys ++ [j]) ++ i :: zs ->
  Ptr.get_head l s = Some h -> Ptr.get_tail l s = Some t ->
  is_list (pnext s) h t (a l) ->
  pnext s !! i = Some n ->
  length (pl_ready s') = length (pl_ready s) ->
  length (pl_ready_tail s') = length (pl_ready_tail s) ->
  (forall l', Ptr.get_head l' s' = Ptr.get_head l' s) ->
  (forall l', l <> l' -> Ptr.get_tail l' s' = Ptr.get_tail l' s) ->
  Ptr.get_tail l s' = Some (last ((ys ++ [j]) ++ zs)) ->
  pnext s' = <[i := None]> (<[j := n]> (pnext s)) ->
  represents s' (Abs.upd l ((ys ++ [j]) ++ zs) a).
Proof.
  intros Hr Hv Ea Hh Ht [Hs _] Hn Er Ert Eh Et El En.
  pose proof (rep_nodup _ _ Hr l Hv) as Hnd. rewrite Ea in Hnd, Hs.
  apply NoDup_app in Hnd as (Hnd1 & Hd & [Hiz Hnd2]%NoDup_cons).
  apply NoDup_app in Hnd1 as (Hnd0 & Hd0 & _).
  apply lseg_app in Hs as (m & Hs & -> & n' & Hn' & Hz).
  assert (n' = n) as -> by congruence.
  apply lseg_app in Hs as (m & Hs & -> & nj & Hj & ->).
  assert (Hall : forall k, k ∈ (ys ++ [j]) ++ zs -> k ∈ a l) by (rewrite Ea; set_solver).
  assert (Hia : i ∈ a l) by (rewrite Ea; set_solver).
  assert (Hja : j ∈ a l) by (rewrite Ea; set_solver).
  assert (Hij : i <> j) by (intros ->; set_solver).
  refine (represents_update _ _ _ _ _ Hr Hv Er Ert _ (fun l' _ => Eh l') Et _ _ _ _).
  - by rewrite En, !length_insert.
  - intros l' h' t' Hv' Hne Hl. rewrite En.
    assert (forall k, k ∈ a l -> k ∉ a l').
    { intros k Hk Hk'. apply Hne. by eapply (rep_disj _ _ Hr). }
    apply is_list_frame; [eauto|]. apply is_list_frame; eauto.
  - exists h, (last ((ys ++ [j]) ++ zs)). rewrite Eh, El, En. split_and!; [done..|].
    split; [|done]. apply lseg_frame; [set_solver|]. rewrite <- app_assoc.
    apply lseg_app. exists (Some j). split; [apply lseg_frame; [set_solver|done]|].
    simpl. split; [done|]. exists n. split.
    + rewrite list_lookup_insert_eq; [done|]. by eapply lookup_lt_Some.
    + apply lseg_frame; [|done]. set_solver.
  - apply NoDup_app. split_and!; [|set_solver|done].
    apply NoDup_app. split_and!; [done|set_solver|apply NoDup_singleton].
  - intros l' k Hv' Hne Hk Hk'. apply Hne.
    by eapply (rep_disj _ _ Hr _ _ k); [..|apply Hall|].
Qed.

Lemma last_app_cons {A} (xs : list A) y zs : last (xs ++ y :: zs) = last (y :: zs).
Proof. induction xs as [|x [|x' xs] IH]; [done| |]; simpl in *; [by destruct zs|done]. Qed.

(** What [stateListRemove] does once the scan has found [i] after [j]. *)
Lemma remove_later s a l ys j i zs h t :
  represents s a -> valid_lid l = true -> a l = (ys ++ [j]) ++ i :: zs ->
  Ptr.get_head l s = Some h -> Ptr.get_tail l s = Some t ->
  is_list (pnext s) h t (a l) ->
  exists s',
    ((if decide (Some i = t) then
        Ptr.wr_tail l (Some j) ;; t ← Ptr.rd_tail l; Ptr.wr_next t None
      else n ← Ptr.rd_next (Some i); Ptr.wr_next (Some j) n) ;;
     Ptr.wr_next (Some i) None ;; mret 0) s = Ok (0, s') /\
    represents s' (Abs.upd l ((ys ++ [j]) ++ zs) a).
Proof.
  intros Hr Hv Ea Hh Ht Hs. pose proof (rep_nodup _ _ Hr l Hv) as Hnd.
  assert (Hseg := Hs). destruct Hseg as [Hseg Et]. rewrite Ea in Hseg, Hnd, Et.
  rewrite last_app_cons in Et.
  apply NoDup_app in Hnd as (_ & Hd & [Hi _]%NoDup_cons).
  apply lseg_app in Hseg as (m & Hseg & -> & n & Hn & Hz).
  assert (Hij : j <> i) by set_solver.
  assert (Hj : is_Some (pnext s !! j)).
  { apply lookup_lt_is_Some. eapply lseg_lt; [exact Hseg|]. set_solver. }
  destruct Hj as [nj Hj]. case_decide as Etail.
  - assert (zs = []) as ->.
    { destruct zs as [|z zs]; [done|]. rewrite last_cons_cons in Et.
      by rewrite <- Etail in Et; symmetry in Et; apply last_Some_elem_of in Et. }
    simpl in Hz. subst n. eexists. split.
    { erewrite bind_Ok.
      2: { erewrite bind_Ok by (by eapply wr_tail_Ok). erewrite bind_Ok.
           2: { eapply rd_Ok. ptr_simp. by rewrite Ht. }
           eapply wr_next_Ok. ptr_simp. eassumption. }
      cbn beta. erewrite bind_Ok; [done|].
      eapply wr_next_Ok. ptr_simp. by rewrite list_lookup_insert_ne. }
    eapply remove_middle; try done; try by intros; ptr_simp.
    + ptr_simp. rewrite Ht. simpl. by rewrite app_nil_r, last_snoc.
  - eexists. split.
    { erewrite bind_Ok.
      2: { erewrite bind_Ok by (by eapply rd_next_Ok). by eapply wr_next_Ok. }
      cbn beta. erewrite bind_Ok; [done|].
      eapply wr_next_Ok. ptr_simp. by rewrite list_lookup_insert_ne. }
    eapply remove_middle; try done; try by intros; ptr_simp.
    autorewrite with ptr. rewrite Ht. subst t.
    destruct zs as [|z zs]; [done|]. by rewrite last_cons_cons, last_app_cons.
Qed.

Lemma remove_refines l p :
  refines represents (Ptr.stateListRemove l p) (Abs.remove_ l p).
Proof.
  intros s a Hr. destruct p as [i|]; [|done]. simpl.
  destruct (valid_lid l) eqn:Hv; [|done]. simpl. case_bool_decide as Hne; [|done].
  destruct (rep_list _ _ Hr l Hv) as (h & t & Hh & Ht & Hs).
  pose proof (rep_nodup _ _ Hr l Hv) as Hnd. pose proof (is_list_head _ _ _ _ Hs) as Eh.
  unfold Ptr.stateListRemove. do 2 (erewrite bind_Ok; [|by apply rd_Ok]).
  assert (h <> None /\ t <> None) as [Hh0 Ht0].
  { split; [subst; by destruct (a l)|]. destruct Hs as [_ ->]. by intros E%last_None. }
  rewrite decide_False by naive_solver. case_decide as Ehi.
  { destruct (a l) as [|i' zs] eqn:Ea; [done|]. simpl in Eh. subst h. simplify_eq.
    destruct (decide (i ∈ i :: zs)) as [_|[]]; [|apply elem_of_cons; by left].
    rewrite filter_cons_False, filter_ne_id by (naive_solver || by apply NoDup_cons in Hnd as []).
    by eapply remove_head. }
  destruct Hs as [Hseg Et]. case_decide as Hin; simpl.
  - destruct (list_elem_of_split _ _ Hin) as (ys & zs & Ea).
    assert (i ∉ ys /\ (length ys <= S NPROC)%nat) as [Hiy Hlen].
    { pose proof (rep_length _ _ _ Hr Hv) as Hl. rewrite Ea in Hnd, Hl.
      rewrite length_app in Hl. apply NoDup_app in Hnd as (_ & Hd & _). split; [set_solver|lia]. }
    destruct (decide (ys = [])) as [->|Hys]; [by rewrite Ea in Eh|].
    destruct (exists_last Hys) as (ys' & j & ->).
    assert (Hy := Hseg). rewrite Ea in Hy. apply lseg_app in Hy as (m & Hy & -> & _).
    erewrite bind_Ok; [|by eapply scan_found].
    cbn beta iota. erewrite bind_Ok; [|by apply rd_Ok].
    rewrite Ea in Hnd |- *. rewrite filter_ne_app by done. rewrite last_snoc.
    by eapply remove_later.
  - destruct (scan_not_found s (S NPROC) None h (a l) i Hseg Hin) as [q Hq].
    { pose proof (rep_length _ _ _ Hr Hv). lia. }
    exists s. split; [|done]. by rewrite (bind_Ok _ _ _ _ _ Hq).
Qed.

(** *** Reads, initialisation and promotion *)

Lemma head_refines l : refines represents (Ptr.rd_head l) (Abs.head_ l).
Proof.
  intros s a Hr. unfold Abs.head_. destruct (valid_lid l) eqn:Hv; [|done].
  destruct (rep_list _ _ Hr l Hv) as (h & t & Hh & Ht & Hs).
  exists s. split; [|done]. unfold Ptr.rd_head. erewrite rd_Ok by done.
  by rewrite (is_list_head _ _ _ _ Hs).
Qed.

Lemma ready_refines i : refines represents (Ptr.rd_ready i) (Abs.ready_ i).
Proof.
  intros s a Hr. unfold Abs.ready_, Ptr.rd_ready.
  destruct (Nat.leb_spec i MAXPRIO) as [Hi|Hi].
  - assert (Hv : valid_lid (LReady i) = true) by (by apply Nat.leb_le).
    destruct (rep_list _ _ Hr _ Hv) as (h & t & Hh & Ht & Hs).
    exists s. split; [|done]. rewrite (rd_Ok _ _ h); [by rewrite (is_list_head _ _ _ _ Hs)|].
    rewrite lookup_app_l; [exact Hh|]. rewrite (rep_ready _ _ Hr). lia.
  - destruct (Nat.leb_spec i (2 * MAXPRIO + 1)) as [Hi'|]; [|done].
    assert (Hv : valid_lid (LReady (i - S MAXPRIO)) = true) by (apply Nat.leb_le; lia).
    destruct (rep_list _ _ Hr _ Hv) as (h & t & Hh & Ht & [_ Hs]).
    exists s. split; [|done]. rewrite (rd_Ok _ _ t); [by rewrite <- Hs|].
    rewrite lookup_app_r; rewrite (rep_ready _ _ Hr); [exact Ht|lia].
Qed.

Lemma lseg_succ nx h xs i :
  lseg nx h xs None -> i ∈ xs -> nx !! i = Some (Abs.succ_in i xs).
Proof.
  revert h. induction xs as [|x xs IH]; intros h; simpl; [by intros _ ?%not_elem_of_nil|].
  intros (-> & n & Hn & Hs) Hi. case_decide as E; [subst|].
  - rewrite Hn. f_equal. destruct xs; simpl in *; naive_solver.
  - apply elem_of_cons in Hi as [?|?]; [congruence|eauto].
Qed.

Lemma next_refines i : refines represents (Ptr.rd_next (Some i)) (Abs.next_ i).
Proof.
  intros s a Hr. unfold Abs.next_. destruct (Abs.where_is a i) as [l|] eqn:E; [|done].
  apply where_is_Some in E as [Hv Hi].
  destruct (rep_list _ _ Hr l Hv) as (h & t & _ & _ & [Hs _]).
  exists s. split; [|done]. apply rd_next_Ok. by eapply lseg_succ.
Qed.

(** [initProcessLists] empties every list whatever the pointers held before. *)
Lemma init_represents s :
  length (pnext s) = NPROC ->
  exists s', Ptr.initProcessLists s = Ok (tt, s') /\ represents s' (fun _ => []).
Proof.
  intros Hn. eexists. split; [done|]. split; try done.
  - intros l Hv. exists None, None.
    destruct l as [| | | | |i]; try done. unfold valid_lid in Hv. apply Nat.leb_le in Hv.
    change (Ptr.get_head (LReady i) ?s) with (replicate (S MAXPRIO) (@None nat) !! i).
    change (Ptr.get_tail (LReady i) ?s) with (replicate (S MAXPRIO) (@None nat) !! i).
    rewrite lookup_replicate_2 by lia. done.
  - intros. constructor.
  - intros l l' i _ _ Hi. by apply not_elem_of_nil in Hi.
Qed.

Lemma init_refines : refines represents Ptr.initProcessLists Abs.init_.
Proof. intros s a Hr. apply init_represents, Hr. Qed.

Lemma list_of_7 {A} (l : list A) :
  length l = S MAXPRIO -> exists a b c d e f g, l = [a; b; c; d; e; f; g].
Proof.
  intros H. do 7 (destruct l as [|? l]; [done|]). destruct l; [|done]. naive_solver.
Qed.

(** Concatenating the two highest ready lists. *)
Lemma is_list_app nx h1 t1 xs h2 t2 ys j :
  is_list nx h1 t1 xs -> is_list nx h2 t2 ys -> t1 = Some j ->
  NoDup xs -> (forall x, x ∈ xs -> x ∉ ys) ->
  is_list (<[j := h2]> nx) h1 (if t2 then t2 else t1) (xs ++ ys).
Proof.
  intros Hx Hy -> Hnd Hd. assert (Hne : xs <> []) by (destruct Hx as [_ E]; by destruct xs).
  destruct (is_list_snoc _ _ _ _ Hx Hne) as (zs & j' & -> & [= <-] & Hz & Hj).
  apply NoDup_app in Hnd as (_ & Hjz & _). destruct Hy as [Hy ->]. split.
  - rewrite <- app_assoc. apply lseg_app. exists (Some j).
    split; [apply lseg_frame; [set_solver|done]|]. simpl. split; [done|].
    exists h2. split; [apply list_lookup_insert_eq; by eapply lookup_lt_Some|].
    apply lseg_frame; [set_solver|done].
  - destruct ys as [|y ys]; simpl; [by rewrite app_nil_r, last_snoc|].
    rewrite last_app_cons. destruct (last (y :: ys)) eqn:E; [done|]. by apply last_None in E.
Qed.

Lemma promoted_elem a l i :
  valid_lid l = true -> i ∈ Abs.promoted a l ->
  exists l', valid_lid l' = true /\ i ∈ a l' /\
    match l' with LReady k => l = LReady (pred k) | _ => l = l' end.
Proof.
  destruct l as [| | | | |[|k]]; unfold valid_lid; intros Hv Hi; simpl in Hi.
  1-5: by eexists; split_and!; [|exact Hi|].
  - apply elem_of_app in Hi as [Hi|Hi]; by eexists; split_and!; [|exact Hi|].
  - apply Nat.leb_le in Hv. destruct (Nat.ltb_spec (S k) MAXPRIO); [|by apply not_elem_of_nil in Hi].
    exists (LReady (S (S k))). split_and!; [apply Nat.leb_le; lia|done..].
Qed.

(** Executing the splice on explicit arrays.  Either both pointers of the
    highest list are null, or its last element exists. *)
Lemma promote_run h0 h1 h2 h3 h4 h5 h6 t0 t1 t2 t3 t4 t5 t6
    f ft sl slt z zt ru rut e et nx :
  (h0 = None /\ t0 = None) \/ (exists i j n, h0 = Some i /\ t0 = Some j /\ nx !! j = Some n) ->
  Ptr.promoteLists (mkplists [h0; h1; h2; h3; h4; h5; h6] [t0; t1; t2; t3; t4; t5; t6]
    f ft sl slt z zt ru rut e et nx) =
  Ok (tt, mkplists [if h0 then h0 else h1; h2; h3; h4; h5; h6; None]
    [if t1 then t1 else t0; t2; t3; t4; t5; t6; None]
    f ft sl slt z zt ru rut e et (from_option (fun j => <[j := h1]> nx) nx t0)).
Proof.
  intros [[-> ->]|(i & j & n & -> & -> & Hj)]; [by destruct t1|].
  unfold Ptr.promoteLists.
  do 2 (erewrite bind_Ok; [|by apply rd_Ok]). rewrite decide_True by done.
  unfold mbind at 1, M_bind at 1. erewrite bind_Ok by (by apply rd_Ok).
  erewrite bind_Ok by (by eapply wr_next_Ok). erewrite bind_Ok by (by apply rd_Ok).
  by destruct t1.
Qed.

Lemma promoted_nodup a :
  (forall l, valid_lid l = true -> NoDup (a l)) ->
  (forall l l' i, valid_lid l = true -> valid_lid l' = true -> i ∈ a l -> i ∈ a l' -> l = l') ->
  forall l, valid_lid l = true -> NoDup (Abs.promoted a l).
Proof.
  intros Hnd Hdis l Hv. destruct l as [| | | | |[|k]]; simpl; try by apply Hnd.
  - apply NoDup_app. split_and!; [by apply Hnd| |by apply Hnd]. intros x H0 H1.
    by specialize (Hdis (LReady 0) (LReady 1) x eq_refl eq_refl H0 H1).
  - destruct (Nat.ltb_spec (S k) MAXPRIO); [|constructor]. apply Hnd, Nat.leb_le. lia.
Qed.

Lemma promote_refines : refines represents Ptr.promoteLists Abs.promote_.
Proof.
  intros [r rt f ft sl slt z zt ru rut e et nx] a [Hr Hrt Hn Hl Hnd Hdis]. simpl in *.
  destruct (list_of_7 _ Hr) as (h0 & h1 & h2 & h3 & h4 & h5 & h6 & ->).
  destruct (list_of_7 _ Hrt) as (t0 & t1 & t2 & t3 & t4 & t5 & t6 & ->).
  destruct (Hl (LReady 0) eq_refl) as (h & t & [= <-] & [= <-] & Hl0).
  destruct (Hl (LReady 1) eq_refl) as (h & t & [= <-] & [= <-] & Hl1).
  set (nx' := from_option (fun j => <[j := h1]> nx) nx t0).
  assert (Hrun : (h0 = None /\ t0 = None /\ a (LReady 0) = []) \/
    exists i j n, h0 = Some i /\ t0 = Some j /\ nx !! j = Some n).
  { destruct (decide (a (LReady 0) = [])) as [E|E].
    - rewrite E in Hl0. apply is_list_nil in Hl0 as [-> ->]. naive_solver.
    - destruct (is_list_snoc _ _ _ _ Hl0 E) as (ys & j & _ & -> & _ & Hj).
      pose proof (is_list_head _ _ _ _ Hl0) as ->.
      destruct (a (LReady 0)); [done|]. naive_solver. }
  assert (Hfr : forall l h t, valid_lid l = true -> l <> LReady 0 ->
    is_list nx h t (a l) -> is_list nx' h t (a l)).
  { intros l h t Hv Hne Hx. unfold nx'. destruct t0 as [j|]; [|done]. simpl.
    apply is_list_frame; [|done]. intros Hj. apply Hne. eapply (Hdis _ _ j); [done..|].
    destruct Hl0 as [_ E]. by apply last_Some_elem_of. }
  eexists. split; [apply promote_run; naive_solver|]. split; try done.
  - destruct t0; simpl; by rewrite ?length_insert.
  - intros l Hv. destruct l as [| | | | |k]; simpl.
    1-5: destruct (Hl _ Hv) as (h & t & Hh & Ht & Hx); exists h, t;
      split_and!; [exact Hh|exact Ht|by apply Hfr].
    destruct k as [|k].
    + eexists _, _. split_and!; [done..|].
      destruct Hrun as [(-> & -> & ->)|(i & j & n & -> & -> & _)]; [by destruct t1|].
      apply is_list_app; [done..|by apply Hnd|]. intros x Hx0 Hx1.
      by specialize (Hdis (LReady 0) (LReady 1) x eq_refl eq_refl Hx0 Hx1).
    + unfold valid_lid in Hv. apply Nat.leb_le in Hv.
      destruct (Nat.ltb_spec (S k) MAXPRIO) as [Hk|Hk].
      * destruct (Hl (LReady (S (S k)))) as (h & t & Hh & Ht & Hx); [by apply Nat.leb_le|].
        exists h, t. split_and!; [| |apply Hfr; [by apply Nat.leb_le|done..]];
          do 5 (destruct k as [|k]; [done|]); unfold MAXPRIO in Hk; lia.
      * assert (k = 5)%nat as -> by (unfold MAXPRIO in *; lia). by exists None, None.
  - by apply promoted_nodup.
  - intros l1 l2 i Hv1 Hv2 H1 H2.
    destruct (promoted_elem _ _ _ Hv1 H1) as (l1' & Hv1' & Hi1 & E1).
    destruct (promoted_elem _ _ _ Hv2 H2) as (l2' & Hv2' & Hi2 & E2).
    rewrite (Hdis _ _ _ Hv1' Hv2' Hi1 Hi2) in E1. destruct l2'; congruence.
Qed.

(** The pointer-level lists refine the abstract ones. *)
#[export] Instance ptr_refinement : ListRefinement ptr_lists abs_lists represents.
Proof.
  split.
  - exact head_refines.
  - exact ready_refines.
  - exact next_refines.
  - exact add_refines.
  - exact add_head_refines.
  - exact remove_refines.
  - exact init_refines.
  - exact promote_refines.
Qed.

(** [countList] of a segment. *)
Lemma countList_lseg s fuel h xs :
  lseg (pnext s) h xs None -> (length xs <= fuel)%nat ->
  Ptr.countList fuel h s = Ok (Z.of_nat (length xs), s).
Proof.
  revert fuel h. induction xs as [|i xs IH]; intros fuel h Hs Hf.
  - simpl in Hs. subst. by destruct fuel.
  - destruct Hs as (-> & n & Hn & Hs). destruct fuel as [|fuel]; [simpl in Hf; lia|].
    cbn [Ptr.countList]. erewrite bind_Ok; [|by apply rd_next_Ok].
    erewrite bind_Ok; [|apply IH; [done|simpl in Hf; lia]].
    unfold mret, M_ret. do 2 f_equal. simpl length. lia.
Qed.
