(* ===== verification/Proc.v ===== *)
(** * Processes (proc.c, proc.h)

    The process table, the per-CPU state a process runs with and every
    routine of proc.c, in the configuration of the Makefile
    ([CS333_P1] .. [CS333_P5] defined).  The routines are written against the
    interface [StateLists] of the process lists and against [ProcEnv], what
    the rest of the kernel provides.  A routine that gives up the CPU is
    split at [swtch]: the part before it ends with [sched], the part after it
    is a definition of its own ([.._exit]). *)

From stdpp Require Import base numbers list strings.
From S2P Require Import Prelude Strings Spinlock StateLists.

Open Scope Z_scope.

Definition NOFILE : nat := 16.
Definition KSTACKSIZE : Z := 4096.
Definition PGSIZE : Z := 4096.
Definition MAXBUDG : Z := 200.
Definition TICKS_TO_PROMOTE : Z := MAXBUDG * 20.
Definition PROC_UID : Z := 0.
Definition PROC_GID : Z := 0.

Inductive procstate := UNUSED | EMBRYO | SLEEPING | RUNNABLE | RUNNING | ZOMBIE.

#[export] Instance procstate_eq_dec : EqDecision procstate.
Proof. solve_decision. Defined.

(** A [void *] sleep channel: null, the address of a process structure (the
    channel of [wait]), of [ticks], or of another kernel object. *)
Inductive chan := CNull | CProc (i : nat) | CTicks | CObj (a : Z).

#[export] Instance chan_eq_dec : EqDecision chan.
Proof. solve_decision. Defined.

(** The [eip] of a saved [struct context]: 0, [forkret], or inside [sched]. *)
Inductive resume := AtZero | AtForkret | InSched.

(** [struct trapframe] (x86.h), without its padding. *)
Record trapframe := mktf {
  edi : Z;
  esi : Z;
  ebp : Z;
  oesp : Z;
  ebx : Z;
  edx : Z;
  ecx : Z;
  eax : Z;
  gs : Z;
  fs : Z;
  es : Z;
  ds : Z;
  trapno : Z;
  err : Z;
  eip : Z;
  cs : Z;
  eflags : Z;
  esp : Z;
  ss : Z;
}.

Definition set_eax (v : Z) (x : trapframe) : trapframe :=
  mktf (edi x) (esi x) (ebp x) (oesp x) (ebx x) (edx x) (ecx x) v (gs x) (fs x) (es x)
    (ds x) (trapno x) (err x) (eip x) (cs x) (eflags x) (esp x) (ss x).

Definition tf_zero : trapframe := mktf 0 0 0 0 0 0 0 0 0 0 0 0 0 0 0 0 0 0 0.

Definition sizeof_trapframe : Z := 76.
Definition sizeof_context : Z := 20.

(** [struct proc] (proc.h); the field [next] belongs to the process lists. *)
Record proc := mkproc {
  p_sz : Z;  (* size of process memory *)
  p_pgdir : Z;  (* page table, 0 is null *)
  p_kstack : Z;  (* kernel stack, 0 is null *)
  p_state : procstate;
  p_pid : Z;
  p_parent : pptr;
  p_tf : Z;  (* address of the trap frame *)
  p_trapframe : trapframe;  (* the frame itself *)
  p_context : Z;  (* address of the saved context *)
  p_resume : resume;  (* where the saved context continues *)
  p_chan : chan;
  p_killed : Z;
  p_ofile : list (option nat);  (* NOFILE open files *)
  p_cwd : option nat;
  p_name : list Z;  (* 16 bytes *)
  p_start_ticks : Z;
  p_gid : Z;
  p_uid : Z;
  p_cpu_ticks_total : Z;
  p_cpu_ticks_in : Z;
  p_priority : Z;
  p_budget : Z;
  p_intena : bool;  (* sched()'s local intena, on the kernel stack *)
}.

Definition proc_eta (x : proc) : proc :=
  mkproc (p_sz x) (p_pgdir x) (p_kstack x) (p_state x) (p_pid x) (p_parent x) (p_tf x)
    (p_trapframe x) (p_context x) (p_resume x) (p_chan x) (p_killed x) (p_ofile x)
    (p_cwd x) (p_name x) (p_start_ticks x) (p_gid x) (p_uid x) (p_cpu_ticks_total x)
    (p_cpu_ticks_in x) (p_priority x) (p_budget x) (p_intena x).

Definition set_p_sz (v : Z) (x : proc) : proc := ltac:(update proc_eta p_sz v x).
Definition set_p_pgdir (v : Z) (x : proc) : proc := ltac:(update proc_eta p_pgdir v x).
Definition set_p_kstack (v : Z) (x : proc) : proc := ltac:(update proc_eta p_kstack v x).
Definition set_p_state (v : procstate) (x : proc) : proc := ltac:(update proc_eta p_state v x).
Definition set_p_pid (v : Z) (x : proc) : proc := ltac:(update proc_eta p_pid v x).
Definition set_p_parent (v : pptr) (x : proc) : proc := ltac:(update proc_eta p_parent v x).
Definition set_p_tf (v : Z) (x : proc) : proc := ltac:(update proc_eta p_tf v x).
Definition set_p_trapframe (v : trapframe) (x : proc) : proc := ltac:(update proc_eta p_trapframe v x).
Definition set_p_context (v : Z) (x : proc) : proc := ltac:(update proc_eta p_context v x).
Definition set_p_resume (v : resume) (x : proc) : proc := ltac:(update proc_eta p_resume v x).
Definition set_p_chan (v : chan) (x : proc) : proc := ltac:(update proc_eta p_chan v x).
Definition set_p_killed (v : Z) (x : proc) : proc := ltac:(update proc_eta p_killed v x).
Definition set_p_ofile (v : list (option nat)) (x : proc) : proc := ltac:(update proc_eta p_ofile v x).
Definition set_p_cwd (v : option nat) (x : proc) : proc := ltac:(update proc_eta p_cwd v x).
Definition set_p_name (v : list Z) (x : proc) : proc := ltac:(update proc_eta p_name v x).
Definition set_p_start_ticks (v : Z) (x : proc) : proc := ltac:(update proc_eta p_start_ticks v x).
Definition set_p_gid (v : Z) (x : proc) : proc := ltac:(update proc_eta p_gid v x).
Definition set_p_uid (v : Z) (x : proc) : proc := ltac:(update proc_eta p_uid v x).
Definition set_p_cpu_ticks_total (v : Z) (x : proc) : proc := ltac:(update proc_eta p_cpu_ticks_total v x).
Definition set_p_cpu_ticks_in (v : Z) (x : proc) : proc := ltac:(update proc_eta p_cpu_ticks_in v x).
Definition set_p_priority (v : Z) (x : proc) : proc := ltac:(update proc_eta p_priority v x).
Definition set_p_budget (v : Z) (x : proc) : proc := ltac:(update proc_eta p_budget v x).
Definition set_p_intena (v : bool) (x : proc) : proc := ltac:(update proc_eta p_intena v x).

Section kst.
Context {L W : Type}.

(** The state the routines of proc.c work on: the process table, the lists [L],
    the executing CPU and, in [W], the other kernel components. *)
Record kst := mkkst {
  procs : list proc;  (* ptable.proc *)
  lists : L;  (* ptable.pLists and the next fields *)
  promoteAtTime : Z;
  klocks : list spinlock;  (* the kernel locks; number 0 is ptable.lock *)
  kcpu : cpu;  (* the CPU that executes *)
  cur : pptr;  (* %gs:4, the CPU-local proc *)
  initproc : pptr;
  nextpid : Z;
  ticks : Z;
  first : bool;  (* forkret()'s static first *)
  world : W;  (* the other kernel components *)
}.

Definition kst_eta (x : kst) : kst :=
  mkkst (procs x) (lists x) (promoteAtTime x) (klocks x) (kcpu x) (cur x) (initproc x)
    (nextpid x) (ticks x) (first x) (world x).

Definition set_procs (v : list proc) (x : kst) : kst := ltac:(update kst_eta procs v x).
Definition set_lists (v : L) (x : kst) : kst := ltac:(update kst_eta lists v x).
Definition set_promoteAtTime (v : Z) (x : kst) : kst := ltac:(update kst_eta promoteAtTime v x).
Definition set_klocks (v : list spinlock) (x : kst) : kst := ltac:(update kst_eta klocks v x).
Definition set_kcpu (v : cpu) (x : kst) : kst := ltac:(update kst_eta kcpu v x).
Definition set_cur (v : pptr) (x : kst) : kst := ltac:(update kst_eta cur v x).
Definition set_initproc (v : pptr) (x : kst) : kst := ltac:(update kst_eta initproc v x).
Definition set_nextpid (v : Z) (x : kst) : kst := ltac:(update kst_eta nextpid v x).
Definition set_ticks (v : Z) (x : kst) : kst := ltac:(update kst_eta ticks v x).
Definition set_first (v : bool) (x : kst) : kst := ltac:(update kst_eta first v x).
Definition set_world (v : W) (x : kst) : kst := ltac:(update kst_eta world v x).

End kst.
Arguments kst : clear implicits.

(** What proc.c calls of the other kernel components (kalloc.c, vm.c, file.c,
    fs.c, log.c).  Addresses are [Z] with 0 as null; files and in-memory
    inodes are numbered. *)
Class ProcEnv (W : Type) := {
  env_kalloc : M W Z;
  env_kfree : Z -> M W unit;
  env_setupkvm : M W Z;
  env_inituvm : Z -> M W unit;             (* of the initcode binary *)
  env_copyuvm : Z -> Z -> M W Z;
  env_freevm : Z -> M W unit;
  env_allocuvm : Z -> Z -> Z -> M W Z;
  env_deallocuvm : Z -> Z -> Z -> M W Z;
  env_filedup : nat -> M W unit;
  env_fileclose : nat -> M W unit;
  env_idup : nat -> M W unit;
  env_iput : nat -> M W unit;
  env_namei_root : M W (option nat);       (* namei("/") *)
  env_begin_op : M W unit;
  env_end_op : M W unit;
  env_fs_init : M W unit;                  (* iinit(ROOTDEV); initlog(ROOTDEV) *)
}.

Section Proc.
Context {L W : Type} {SL : StateLists L} {PE : ProcEnv W}.

#[local] Abbreviation K := (M (kst L W)).

(** ** Access to the state *)

Definition liftL {A} (m : M L A) : K A := fun s =>
  match m (lists s) with
  | Ok (a, l) => Ok (a, set_lists l s)
  | Err e => Err e
  end.

Definition liftW {A} (m : M W A) : K A := fun s =>
  match m (world s) with
  | Ok (a, w) => Ok (a, set_world w s)
  | Err e => Err e
  end.

(** [*p] and [p->f = v]. *)
Definition getp (p : pptr) : K proc := fun s =>
  match i ← p; procs s !! i with
  | Some x => Ok (x, s)
  | None => Err Fault
  end.

Definition modp (p : pptr) (f : proc -> proc) : K unit := fun s =>
  match i ← p; x ← procs s !! i; Some (i, x) with
  | Some (i, x) => Ok (tt, set_procs (<[i := f x]> (procs s)) s)
  | None => Err Fault
  end.

(** The current process. *)
Definition myproc : K proc := p ← gets cur; getp p.
Definition modmy (f : proc -> proc) : K unit := p ← gets cur; modp p f.

(** [acquire], [release] and [holding] of kernel lock [l]. *)
Definition with_lock {A} (l : nat) (f : spinlock -> cpu -> outcome (A * (spinlock * cpu))) : K A :=
  fun s =>
    match klocks s !! l with
    | None => Err Fault
    | Some lk =>
        match f lk (kcpu s) with
        | Ok (a, (lk, c)) => Ok (a, set_kcpu c (set_klocks (<[l := lk]> (klocks s)) s))
        | Err e => Err e
        end
    end.

Definition acquire_lk (l : nat) : K unit :=
  with_lock l (fun lk c => r ← acquire lk c; Ok (tt, r)).
Definition release_lk (l : nat) : K unit :=
  with_lock l (fun lk c => r ← release lk c; Ok (tt, r)).
Definition holding_lk (l : nat) : K bool :=
  with_lock l (fun lk c => Ok (holding lk c, (lk, c))).

Definition PTABLE : nat := 0.
#[local] Abbreviation acquire_ptable := (acquire_lk PTABLE).
#[local] Abbreviation release_ptable := (release_lk PTABLE).
#[local] Abbreviation holding_ptable := (holding_lk PTABLE).

(** [for(; p != 0; p = p->next) body]; a body that returns [Some r] is a
    [return r] out of the loop.  [NPROC + 1] rounds cover every list. *)
Fixpoint for_list {R} (fuel : nat) (p : pptr) (body : nat -> K (option R)) : K (option R) :=
  match p with
  | None => mret None
  | Some i =>
      match fuel with
      | O => fail NoFuel
      | S fuel =>
          r ← body i;
          match r with
          | Some r => mret (Some r)
          | None => n ← liftL (sl_next i); for_list fuel n body
          end
      end
  end.

Definition for_each {R} (l : lid) (body : nat -> K (option R)) : K (option R) :=
  h ← liftL (sl_head l); for_list (S NPROC) h body.

(** [for(i = ...; ...; i++) body] over the listed values of [i]. *)
Fixpoint for_index {R} (ix : list nat) (body : nat -> K (option R)) : K (option R) :=
  match ix with
  | [] => mret None
  | i :: ix =>
      r ← body i;
      match r with
      | Some r => mret (Some r)
      | None => for_index ix body
      end
  end.

(** The loops [for (i = 0; i < MAXPRIO+1; i++) for (p = ready[i]; ...)]. *)
Definition for_ready {R} (body : nat -> nat -> K (option R)) : K (option R) :=
  for_index (seq 0 (S MAXPRIO)) (fun i => for_each (LReady i) (body i)).

(** A loop body that never returns out of the loop. *)
Definition continue (m : K unit) : K (option unit) := m ;; mret None.

(** [if (b) return r; rest]. *)
Definition return_or {R} (o : option R) (k : K R) : K R :=
  match o with Some r => mret r | None => k end.

Definition assertState (p : pptr) (s : procstate) : K unit :=
  x ← getp p;
  if decide (p_state x = s) then mret tt else panic "assertState - wrong state".

(** [stateListRemove], with the caller's panic when it fails. *)
Definition remove_or_panic (l : lid) (p : pptr) (msg : string) : K unit :=
  r ← liftL (stateListRemove l p);
  when (r <? 0) (panic msg).

(** [&ready[p->priority]] *)
Definition ready_of (p : pptr) : K lid :=
  x ← getp p; mret (LReady (Z.to_nat (p_priority x))).

(** ** Priorities *)

Definition demoteProc (p : pptr) : K unit :=
  x ← getp p;
  if p_budget x <=? MAXBUDG then mret tt
  else
    h ← holding_ptable;
    when (negb h) acquire_ptable ;;
    when (p_priority x <? Z.of_nat MAXPRIO)
      (modp p (set_p_priority (u32 (p_priority x + 1)))) ;;
    modp p (set_p_budget MAXBUDG) ;;
    when (negb h) release_ptable.

(** [if (p->priority > 0) p->priority--; p->budget = MAXBUDG]. *)
Definition promote_one (p : pptr) : K unit :=
  x ← getp p;
  when (0 <? p_priority x) (modp p (set_p_priority (p_priority x - 1))) ;;
  modp p (set_p_budget MAXBUDG).

(** The lists move up a level; then the loops over the processes. *)
Definition promote_procs : K unit :=
  liftL promoteLists ;;
  for_index (seq 0 MAXPRIO) (fun i => for_each (LReady i) (fun h =>
    continue (modp (Some h) (set_p_budget MAXBUDG) ;;
              modp (Some h) (set_p_priority (Z.of_nat i))))) ;;
  for_each LSleep (fun p => continue (promote_one (Some p))) ;;
  for_each LRunning (fun p => continue (promote_one (Some p))) ;;
  mret tt.

Definition promoteAll : K unit :=
  h ← holding_ptable;
  when (negb h) acquire_ptable ;;
  t ← gets ticks;
  at_ ← gets promoteAtTime;
  if t <? u32 at_ then mret tt
  else
    promote_procs ;;
    t ← gets ticks;
    modify (set_promoteAtTime (s32 (t + TICKS_TO_PROMOTE))) ;;
    when (negb h) release_ptable.

Definition assertPriority : K unit :=
  h ← holding_ptable;
  when (negb h) acquire_ptable ;;
  for_ready (fun i p =>
    x ← getp (Some p);
    if p_priority x =? Z.of_nat i then mret (@None unit)
    else panic "assertPriority - p not in right priority list") ;;
  when (negb h) release_ptable.

(** ** Creation *)

(** The part of [allocproc] under the lock: an [UNUSED] process becomes an
    [EMBRYO] with a fresh pid. *)
Definition allocproc_take : K pptr :=
  acquire_ptable ;;
  p ← liftL (sl_head LFree);
  match p with
  | None => release_ptable ;; mret None
  | Some _ =>
      remove_or_panic LFree p "alloc - remove from free failed" ;;
      assertState p UNUSED ;;
      modp p (set_p_state EMBRYO) ;;
      liftL (stateListAddAtHead LEmbryo p) ;;
      assertState p EMBRYO ;;
      n ← gets nextpid;
      modp p (set_p_pid (u32 n)) ;;
      modify (set_nextpid (s32 (n + 1))) ;;
      release_ptable ;;
      mret p
  end.

(** The kernel stack layout and the initial fields. *)
Definition allocproc_init (p : pptr) (kstack : Z) : K pptr :=
  let sp := kstack + KSTACKSIZE - sizeof_trapframe in
  modp p (set_p_tf sp) ;;
  let sp := sp - 4 in                          (* trapret *)
  let sp := sp - sizeof_context in
  modp p (set_p_context sp) ;;
  modp p (set_p_resume AtForkret) ;;
  t ← gets ticks;
  modp p (set_p_start_ticks t) ;;
  modp p (set_p_cpu_ticks_total 0) ;;
  modp p (set_p_cpu_ticks_in 0) ;;
  modp p (set_p_budget MAXBUDG) ;;
  modp p (set_p_priority 0) ;;
  mret p.

(** When [kalloc] fails the source guards the list transition with the macro
    CS33_P3P4, which is never defined: only [p->state = UNUSED] is compiled. *)
Definition allocproc : K pptr :=
  p ← allocproc_take;
  match p with
  | None => mret None
  | Some _ =>
      k ← liftW env_kalloc;
      modp p (set_p_kstack k) ;;
      if k =? 0 then modp p (set_p_state UNUSED) ;; mret None
      else allocproc_init p k
  end.

(** [initFreeList]: every process of the table is appended to the free list. *)
Fixpoint free_all (ps : list nat) : K unit :=
  match ps with
  | [] => mret tt
  | i :: ps =>
      modp (Some i) (set_p_state UNUSED) ;;
      liftL (stateListAdd LFree (Some i)) ;;
      free_all ps
  end.

Definition initFreeList : K unit :=
  h ← holding_ptable;
  when (negb h) (panic "acquire the ptable lock before calling initFreeList\n") ;;
  free_all (seq 0 NPROC).

Definition DPL_USER : Z := 3.
Definition SEG_UCODE : Z := 4.
Definition SEG_UDATA : Z := 5.
Definition FL_IF : Z := 512.

Definition initcode_tf : trapframe :=
  let cs := Z.lor (Z.shiftl SEG_UCODE 3) DPL_USER in
  let ds := Z.lor (Z.shiftl SEG_UDATA 3) DPL_USER in
  mktf 0 0 0 0 0 0 0 0 0 0 ds ds 0 0 0 cs FL_IF PGSIZE ds.

(** "initcode" and its NUL. *)
Definition initcode_name : list Z := [105; 110; 105; 116; 99; 111; 100; 101; 0].

(** [safestrcpy(p->name, t, sizeof(p->name))]. *)
Definition set_name (p : pptr) (t : list Z) : K unit :=
  x ← getp p;
  r ← lift (safestrcpy (p_name x) t 16);
  modp p (set_p_name r).

(** The lists of [userinit]: everything is free. *)
Definition userinit_lists : K unit :=
  acquire_ptable ;;
  liftL initProcessLists ;;
  initFreeList ;;
  release_ptable.

Definition userinit : K unit :=
  userinit_lists ;;
  p ← allocproc;
  modify (set_initproc p) ;;
  d ← liftW env_setupkvm;
  modp p (set_p_pgdir d) ;;
  when (d =? 0) (panic "userinit: out of memory?") ;;
  liftW (env_inituvm d) ;;
  modp p (set_p_sz PGSIZE) ;;
  modp p (set_p_trapframe initcode_tf) ;;
  set_name p initcode_name ;;
  c ← liftW env_namei_root;
  modp p (set_p_cwd c) ;;
  modp p (set_p_uid PROC_UID) ;;
  modp p (set_p_gid PROC_GID) ;;
  modp p (set_p_parent p) ;;
  t ← gets ticks;
  modify (set_promoteAtTime (s32 (t + TICKS_TO_PROMOTE))) ;;
  acquire_ptable ;;
  remove_or_panic LEmbryo p "userinit - remove from embryo failed" ;;
  assertState p EMBRYO ;;
  modp p (set_p_state RUNNABLE) ;;
  l ← ready_of p;
  liftL (stateListAdd l p) ;;
  assertState p RUNNABLE ;;
  release_ptable.

(** [switchuvm]: the segment and page-table registers are not modelled. *)
Definition switchuvm (p : pptr) : K unit :=
  modify (fun s => set_kcpu (pushcli (kcpu s)) s) ;;
  x ← getp p;
  when (p_pgdir x =? 0) (panic "switchuvm: no pgdir") ;;
  c ← gets kcpu;
  c ← lift (popcli c);
  modify (set_kcpu c).

Definition growproc (n : Z) : K Z :=
  x ← myproc;
  let sz := p_sz x in
  (if 0 <? n then
     sz' ← liftW (env_allocuvm (p_pgdir x) sz (u32 (sz + n)));
     if sz' =? 0 then mret None else mret (Some sz')
   else if n <? 0 then
     sz' ← liftW (env_deallocuvm (p_pgdir x) sz (u32 (sz + n)));
     if sz' =? 0 then mret None else mret (Some sz')
   else mret (Some sz)) ≫= fun r =>
  match r with
  | None => mret (-1)
  | Some sz =>
      modmy (set_p_sz sz) ;;
      p ← gets cur;
      switchuvm p ;;
      mret 0
  end.

(** [for(i = 0; i < NOFILE; i++) if(proc->ofile[i]) np->ofile[i] = filedup(..)]. *)
Fixpoint fork_files (np : pptr) (fds : list nat) : K unit :=
  match fds with
  | [] => mret tt
  | i :: fds =>
      x ← myproc;
      match mjoin (p_ofile x !! i) with
      | None => mret tt
      | Some f =>
          liftW (env_filedup f) ;;
          y ← getp np;
          modp np (set_p_ofile (<[i := Some f]> (p_ofile y)))
      end ;;
      fork_files np fds
  end.

Definition fork : K Z :=
  np ← allocproc;
  match np with
  | None => mret (-1)
  | Some _ =>
      x ← myproc;
      d ← liftW (env_copyuvm (p_pgdir x) (p_sz x));
      modp np (set_p_pgdir d) ;;
      if d =? 0 then
        y ← getp np;
        liftW (env_kfree (p_kstack y)) ;;
        modp np (set_p_kstack 0) ;;
        acquire_ptable ;;
        remove_or_panic LEmbryo np "fork - remove from embryo failed" ;;
        assertState np EMBRYO ;;
        modp np (set_p_state UNUSED) ;;
        liftL (stateListAddAtHead LFree np) ;;
        assertState np UNUSED ;;
        release_ptable ;;
        mret (-1)
      else
        x ← myproc;
        parent ← gets cur;
        modp np (set_p_sz (p_sz x)) ;;
        modp np (set_p_parent parent) ;;
        modp np (set_p_trapframe (set_eax 0 (p_trapframe x))) ;;
        fork_files np (seq 0 NOFILE) ;;
        match p_cwd x with
        | Some c => liftW (env_idup c)
        | None => fail Fault
        end ;;
        modp np (set_p_cwd (p_cwd x)) ;;
        set_name np (p_name x) ;;
        modp np (set_p_uid (p_uid x)) ;;
        modp np (set_p_gid (p_gid x)) ;;
        y ← getp np;
        modp np (set_p_priority 0) ;;
        modp np (set_p_budget MAXBUDG) ;;
        acquire_ptable ;;
        remove_or_panic LEmbryo np "fork - remove from embryo failed" ;;
        assertState np EMBRYO ;;
        modp np (set_p_state RUNNABLE) ;;
        l ← ready_of np;
        liftL (stateListAdd l np) ;;
        assertState np RUNNABLE ;;
        release_ptable ;;
        mret (s32 (p_pid y))
  end.

(** ** Giving up the CPU *)

(** [sched] up to [swtch]. *)
Definition sched : K unit :=
  h ← holding_ptable;
  when (negb h) (panic "sched ptable.lock") ;;
  c ← gets kcpu;
  when (negb (ncli c =? 1)) (panic "sched locks") ;;
  x ← myproc;
  when (bool_decide (p_state x = RUNNING)) (panic "sched running") ;;
  when (fl_if c) (panic "sched interruptible") ;;
  t ← gets ticks;
  modmy (set_p_cpu_ticks_total (u32 (p_cpu_ticks_total x + (t - p_cpu_ticks_in x)))) ;;
  modmy (set_p_intena (intena c)) ;;
  modmy (set_p_resume InSched).

(** [sched] after [swtch]: [cpu->intena = intena]. *)
Definition sched_exit : K unit :=
  x ← myproc;
  modify (fun s => set_kcpu (mkcpu (cpu_id (kcpu s)) (ncli (kcpu s)) (p_intena x)
                               (fl_if (kcpu s))) s).

(** [proc->budget -= ticks - proc->cpu_ticks_in]. *)
Definition charge_budget : K unit :=
  x ← myproc;
  t ← gets ticks;
  modmy (set_p_budget (u32 (p_budget x - (t - p_cpu_ticks_in x)))).

Definition yield : K unit :=
  acquire_ptable ;;
  p ← gets cur;
  remove_or_panic LRunning p "yield - remove from running failed" ;;
  assertState p RUNNING ;;
  modp p (set_p_state RUNNABLE) ;;
  charge_budget ;;
  demoteProc p ;;
  l ← ready_of p;
  liftL (stateListAdd l p) ;;
  assertState p RUNNABLE ;;
  sched.

Definition yield_exit : K unit := sched_exit ;; release_ptable.

(** The first scheduling of a forked process resumes here. *)
Definition forkret : K unit :=
  release_ptable ;;
  f ← gets first;
  when f (modify (set_first false) ;; liftW env_fs_init).

(** "Go to sleep.", up to the [swtch] of [sched]. *)
Definition go_to_sleep (p : pptr) (ch : chan) : K unit :=
  modp p (set_p_chan ch) ;;
  remove_or_panic LRunning p "sleep - remove from running failed" ;;
  assertState p RUNNING ;;
  modp p (set_p_state SLEEPING) ;;
  liftL (stateListAdd LSleep p) ;;
  assertState p SLEEPING ;;
  charge_budget ;;
  demoteProc p ;;
  sched.

(** [sleep]: [lk] is null, [&ptable.lock] ([Some PTABLE]) or another lock. *)
Definition sleep (ch : chan) (lk : option nat) : K unit :=
  p ← gets cur;
  match p with
  | None => panic "sleep"
  | Some _ =>
      when (bool_decide (lk <> Some PTABLE))
        (acquire_ptable ;;
         match lk with Some l => release_lk l | None => mret tt end) ;;
      go_to_sleep p ch
  end.

Definition sleep_exit (lk : option nat) : K unit :=
  sched_exit ;;
  modmy (set_p_chan CNull) ;;
  when (bool_decide (lk <> Some PTABLE))
    (release_ptable ;;
     match lk with Some l => acquire_lk l | None => mret tt end).

(** ** Waking and killing *)

(** The move of a sleeping process to its ready list. *)
Definition make_runnable (p : nat) (msg : string) : K unit :=
  remove_or_panic LSleep (Some p) msg ;;
  assertState (Some p) SLEEPING ;;
  modp (Some p) (set_p_state RUNNABLE) ;;
  l ← ready_of (Some p);
  liftL (stateListAdd l (Some p)) ;;
  assertState (Some p) RUNNABLE.

Definition wakeup1 (ch : chan) : K unit :=
  for_each LSleep (fun p =>
    x ← getp (Some p);
    continue (when (bool_decide (p_chan x = ch))
      (make_runnable p "wakeup1 - remove from sleep failed"))) ;;
  mret tt.

Definition wakeup (ch : chan) : K unit :=
  acquire_ptable ;; wakeup1 ch ;; release_ptable.

(** The body of the search loops of [kill]. *)
Definition kill_if (pid : Z) (k : nat -> K unit) (p : nat) : K (option Z) :=
  x ← getp (Some p);
  if p_pid x =? u32 pid then
    modp (Some p) (set_p_killed 1) ;; k p ;; release_ptable ;; mret (Some 0)
  else mret None.

Definition kill (pid : Z) : K Z :=
  let found := kill_if pid (fun _ => mret tt) in
  acquire_ptable ;;
  r ← for_each LEmbryo found;
  return_or r (
  r ← for_ready (fun _ => found);
  return_or r (
  r ← for_each LRunning found;
  return_or r (
  r ← for_each LSleep
        (kill_if pid (fun p => make_runnable p "kill - remove from sleep failed\n"));
  return_or r (
  release_ptable ;; mret (-1))))).

(** ** Exit and wait *)

(** [void *] of a process pointer. *)
Definition chan_of (p : pptr) : chan :=
  match p with None => CNull | Some i => CProc i end.

(** [for(fd = 0; fd < NOFILE; fd++) if(proc->ofile[fd]){ fileclose(..); .. = 0; }]. *)
Fixpoint close_files (fds : list nat) : K unit :=
  match fds with
  | [] => mret tt
  | fd :: fds =>
      x ← myproc;
      match mjoin (p_ofile x !! fd) with
      | None => mret tt
      | Some f =>
          liftW (env_fileclose f) ;;
          modmy (fun x => set_p_ofile (<[fd := None]> (p_ofile x)) x)
      end ;;
      close_files fds
  end.

(** [if(p->parent == proc) { p->parent = initproc; extra }]. *)
Definition reparent (extra : K unit) (p : nat) : K (option unit) :=
  x ← getp (Some p);
  me ← gets cur;
  continue (when (bool_decide (p_parent x = me))
    (i ← gets initproc; modp (Some p) (set_p_parent i) ;; extra)).

(** "Pass abandoned children to init", list by list. *)
Definition reparent_all : K unit :=
  for_each LEmbryo (reparent (mret tt)) ;;
  for_ready (fun _ => reparent (mret tt)) ;;
  for_each LRunning (reparent (mret tt)) ;;
  for_each LSleep (reparent (mret tt)) ;;
  for_each LZombie (reparent (i ← gets initproc; wakeup1 (chan_of i))) ;;
  mret tt.

(** [exit] up to the [swtch] of [sched], which never comes back. *)
Definition exit : K unit :=
  me ← gets cur;
  i ← gets initproc;
  when (bool_decide (me = i)) (panic "init exiting") ;;
  close_files (seq 0 NOFILE) ;;
  x ← myproc;
  liftW env_begin_op ;;
  match p_cwd x with
  | Some c => liftW (env_iput c)
  | None => fail Fault
  end ;;
  liftW env_end_op ;;
  modmy (set_p_cwd None) ;;
  acquire_ptable ;;
  x ← myproc;
  wakeup1 (chan_of (p_parent x)) ;;
  reparent_all ;;
  remove_or_panic LRunning me "exit - remove from running failed\n" ;;
  assertState me RUNNING ;;
  modp me (set_p_state ZOMBIE) ;;
  liftL (stateListAdd LZombie me) ;;
  assertState me ZOMBIE ;;
  sched.

(** [exit] if it were resumed. *)
Definition exit_resumed : K unit := sched_exit ;; panic "zombie exit".

(** The zombie child [p] is released and its pid returned. *)
Definition reap (p : nat) : K (option Z) :=
  x ← getp (Some p);
  liftW (env_kfree (p_kstack x)) ;;
  modp (Some p) (set_p_kstack 0) ;;
  liftW (env_freevm (p_pgdir x)) ;;
  remove_or_panic LZombie (Some p) "wait - remove from zombie failed" ;;
  assertState (Some p) ZOMBIE ;;
  modp (Some p) (set_p_state UNUSED) ;;
  liftL (stateListAdd LFree (Some p)) ;;
  assertState (Some p) UNUSED ;;
  modp (Some p) (set_p_pid 0) ;;
  modp (Some p) (set_p_parent None) ;;
  modp (Some p) (fun x => set_p_name (<[0%nat := 0]> (p_name x)) x) ;;
  modp (Some p) (set_p_killed 0) ;;
  release_ptable ;;
  mret (Some (s32 (p_pid x))).

(** A loop with an accumulator and no early exit. *)
Fixpoint fold_list {B} (fuel : nat) (p : pptr) (b : B) (f : B -> nat -> K B) : K B :=
  match p with
  | None => mret b
  | Some i =>
      match fuel with
      | O => fail NoFuel
      | S fuel => b ← f b i; n ← liftL (sl_next i); fold_list fuel n b f
      end
  end.

Definition fold_each {B} (l : lid) (b : B) (f : B -> nat -> K B) : K B :=
  h ← liftL (sl_head l); fold_list (S NPROC) h b f.

Fixpoint fold_index {B} (ix : list nat) (b : B) (f : B -> nat -> K B) : K B :=
  match ix with
  | [] => mret b
  | i :: ix => b ← f b i; fold_index ix b f
  end.

(** [if (p->parent == proc) havekids = 1]. *)
Definition is_kid (havekids : bool) (p : nat) : K bool :=
  x ← getp (Some p);
  me ← gets cur;
  mret (havekids || bool_decide (p_parent x = me)).

(** One round of the loop of [wait]: a returned value, or [None] when the
    process must sleep. *)
Definition wait_scan : K (option Z) :=
  r ← for_each LZombie (fun p =>
    x ← getp (Some p);
    me ← gets cur;
    if decide (p_parent x = me) then reap p else mret None);
  match r with
  | Some pid => mret (Some pid)
  | None =>
      h ← fold_each LEmbryo false is_kid;
      h ← fold_index (seq 0 (S MAXPRIO)) h (fun h i => fold_each (LReady i) h is_kid);
      h ← fold_each LRunning h is_kid;
      h ← fold_each LSleep h is_kid;
      x ← myproc;
      if negb h || negb (p_killed x =? 0) then
        release_ptable ;; mret (Some (-1))
      else mret None
  end.

Definition wait_round : K (option Z) :=
  r ← wait_scan;
  match r with
  | Some z => mret (Some z)
  | None => me ← gets cur; sleep (chan_of me) (Some PTABLE) ;; mret None
  end.

(** [wait] from its call, and from the return of its [sleep]. *)
Definition wait : K (option Z) := acquire_ptable ;; wait_round.
Definition wait_resumed : K (option Z) := sleep_exit (Some PTABLE) ;; wait_round.

(** ** The scheduler *)

Definition sti : K unit :=
  modify (fun s => set_kcpu (mkcpu (cpu_id (kcpu s)) (ncli (kcpu s)) (intena (kcpu s)) true) s).

(** One turn of the outer loop is [scheduler_begin], then [scheduler_level]
    for each [i]; when that returns [true] the CPU runs the process, and
    [scheduler_back] is the return from [swtch]; then [scheduler_end]. *)
Definition scheduler_begin : K unit :=
  sti ;; acquire_ptable ;; assertPriority ;; promoteAll.

Definition scheduler_level (i : nat) : K bool :=
  p ← liftL (sl_ready i);
  match p with
  | None => mret false
  | Some _ =>
      modify (set_cur p) ;;
      t ← gets ticks;
      modp p (set_p_cpu_ticks_in t) ;;
      switchuvm p ;;
      assertPriority ;;
      l ← ready_of p;
      remove_or_panic l p "scheduler - remove from ready failed" ;;
      assertState p RUNNABLE ;;
      modp p (set_p_state RUNNING) ;;
      liftL (stateListAddAtHead LRunning p) ;;
      assertState p RUNNING ;;
      mret true
  end.

Definition scheduler_back : K unit := modify (set_cur None).

Definition scheduler_end (idle : bool) : K unit :=
  release_ptable ;; when idle sti.

(** ** Listing *)

Definition STRMAX : nat := 32.

Record uproc := mkuproc {
  u_pid : Z;
  u_uid : Z;
  u_gid : Z;
  u_ppid : Z;
  u_prio : Z;
  u_elapsed_ticks : Z;
  u_CPU_total_ticks : Z;
  u_state : list Z;
  u_size : Z;
  u_name : list Z;
}.

(** The names of the states, NUL included. *)
Definition states (s : procstate) : list Z :=
  match s with
  | UNUSED => [117; 110; 117; 115; 101; 100; 0]
  | EMBRYO => [101; 109; 98; 114; 121; 111; 0]
  | SLEEPING => [115; 108; 101; 101; 112; 32; 0]
  | RUNNABLE => [114; 117; 110; 98; 108; 101; 0]
  | RUNNING => [114; 117; 110; 32; 32; 32; 0]
  | ZOMBIE => [122; 111; 109; 98; 105; 101; 0]
  end.

(** The entry for process [x], written over the entry [u]. *)
Definition fill_uproc (x : proc) (u : uproc) : K uproc :=
  parent ← getp (p_parent x);
  t ← gets ticks;
  st ← lift (safestrcpy (u_state u) (states (p_state x)) (Z.of_nat STRMAX));
  nm ← lift (safestrcpy (u_name u) (p_name x) (Z.of_nat STRMAX));
  mret (mkuproc (p_pid x) (p_uid x) (p_gid x) (p_pid parent)
          (s32 (Z.of_nat MAXPRIO - p_priority x)) (u32 (t - p_start_ticks x))
          (p_cpu_ticks_total x) st (p_sz x) nm).

(** The loop of [getprocs] over the processes [ps]; [t] is the caller's array. *)
Fixpoint getprocs_loop (max : Z) (ps : list nat) (size : nat) (t : list uproc)
    : K (Z * list uproc) :=
  match ps with
  | [] => mret (Z.of_nat size, t)
  | p :: ps =>
      if max <=? Z.of_nat size then mret (Z.of_nat size, t)
      else
        x ← getp (Some p);
        if decide (p_state x <> EMBRYO /\ p_state x <> UNUSED) then
          match t !! size with
          | None => fail Fault
          | Some u =>
              u ← fill_uproc x u;
              getprocs_loop max ps (S size) (<[size := u]> t)
          end
        else getprocs_loop max ps size t
  end.

Definition getprocs (max : Z) (t : list uproc) : K (Z * list uproc) :=
  getprocs_loop max (seq 0 NPROC) 0 t.

(** ** Priorities, by system call *)

(** [priority <= MAXPRIO && priority >= 0] *)
Definition good_priority (priority : Z) : bool :=
  (priority <=? Z.of_nat MAXPRIO) && (0 <=? priority).

Definition setPriority_ready (h : bool) (pid priority : Z) (i p : nat) : K (option Z) :=
  x ← getp (Some p);
  if p_pid x =? u32 pid then
    if Z.of_nat i =? p_priority x then mret (Some (Z.of_nat i))
    else
      l ← ready_of (Some p);
      r ← liftL (stateListRemove l (Some p));
      when (negb (r =? 0)) (panic "setpriority - remove from ready failed\n") ;;
      (if good_priority priority
       then modp (Some p) (set_p_priority (Z.of_nat MAXPRIO - priority))
       else panic "setpriority - bad priority value") ;;
      modp (Some p) (set_p_budget MAXBUDG) ;;
      l ← ready_of (Some p);
      liftL (stateListAdd l (Some p)) ;;
      when (negb h) release_ptable ;;
      mret (Some 0)
  else mret None.

(** The loops over the running and the sleeping processes. *)
Definition setPriority_other (h : bool) (pid priority : Z) (p : nat) : K (option Z) :=
  x ← getp (Some p);
  if p_pid x =? u32 pid then
    if good_priority priority then
      modp (Some p) (set_p_priority priority) ;;
      modp (Some p) (set_p_budget MAXBUDG) ;;
      when (negb h) release_ptable ;;
      mret (Some priority)
    else mret (Some (-1))
  else mret None.

Definition setPriority (pid priority : Z) : K Z :=
  h ← holding_ptable;
  when (negb h) acquire_ptable ;;
  r ← for_ready (setPriority_ready h pid priority);
  return_or r (
  r ← for_each LRunning (setPriority_other h pid priority);
  return_or r (
  r ← for_each LSleep (setPriority_other h pid priority);
  return_or r (
  when (negb h) release_ptable ;;
  mret (-1)))).

(** The search runs to [i <= MAXPRIO+1]: [ready[MAXPRIO+1]] is the next
    member of the structure, [ready_tail[0]]. *)
Definition getPriority (pid : Z) : K Z :=
  let found p :=
    x ← getp (Some p);
    mret (if p_pid x =? u32 pid then Some (s32 (p_priority x)) else None) in
  r ← for_index (seq 0 (S (S MAXPRIO)))
        (fun i => h ← liftL (sl_ready i); for_list (S NPROC) h found);
  return_or r (
  r ← for_each LRunning found;
  return_or r (
  r ← for_each LSleep found;
  return_or r (mret (-1)))).

End Proc.
