(* ===== verification/ProcRefine.v ===== *)
(** * Processes over pointer lists and over abstract lists

    The routines of [Proc] are written once over the interface [StateLists].
    This file shows that running them over an implementation of the lists
    refines running them over another whenever the implementations are
    related by [ListRefinement]; [ptr_refinement] instantiates it with the
    [next]/head/tail pointers of the source below and the abstract lists
    above. *)

From stdpp Require Import base numbers list strings.
From S2P Require Import Prelude Strings Spinlock StateLists Proc.

Open Scope Z_scope.

(** The kernel state [s] with the lists [l]. *)
Definition relist {C D W} (l : C) (s : kst D W) : kst C W :=
  mkkst (procs s) l (promoteAtTime s) (klocks s) (kcpu s) (cur s) (initproc s)
    (nextpid s) (ticks s) (first s) (world s).

(** Two kernel states that agree but for their lists, which are related. *)
Definition krel {C D W} (R : C -> D -> Prop) (c : kst C W) (a : kst D W) : Prop :=
  exists l, c = relist l a /\ R l (lists a).

Create HintDb refine.

Section Sim.
Context {C D W : Type} {LC : StateLists C} {LD : StateLists D} {PE : ProcEnv W}.
Context {R : C -> D -> Prop} {LR : ListRefinement LC LD R}.

#[local] Abbreviation sim := (refines (krel (W := W) R)).

(** ** Congruence *)

Lemma sim_bind {A B} (m : M (kst C W) A) m' (f : A -> M (kst C W) B) f' :
  sim m m' -> (forall a, sim (f a) (f' a)) -> sim (m ≫= f) (m' ≫= f').
Proof.
  intros Hm Hf c a H. specialize (Hm c a H). unfold refines_o, mbind, M_bind in *.
  destruct (m' a) as [[x a']|e].
  - destruct Hm as (c' & -> & H'). apply (Hf x c' a' H').
  - destruct e; rewrite ?Hm; done.
Qed.

Lemma sim_ret {A} (x : A) : sim (mret x) (mret x).
Proof. intros c a H. exists c. done. Qed.

Lemma sim_fail {A} e : sim (fail (A := A) e) (fail e).
Proof. intros c a H. by destruct e. Qed.

Lemma sim_panic {A} msg : sim (panic (A := A) msg) (panic msg).
Proof. apply sim_fail. Qed.

Lemma sim_lift {A} (o : outcome A) : sim (lift o) (lift o).
Proof. intros c a H. destruct o as [x|[]]; [by exists c|done..]. Qed.

Lemma sim_gets {A} (f : kst C W -> A) f' :
  (forall l a, f (relist l a) = f' a) -> sim (gets f) (gets f').
Proof.
  intros Hf c a (l & -> & H). eexists. unfold gets. rewrite Hf.
  split; [done|]. by exists l.
Qed.

Lemma sim_modify (f : kst C W -> kst C W) f' :
  (forall l a, f (relist l a) = relist l (f' a) /\ lists (f' a) = lists a) ->
  sim (modify f) (modify f').
Proof.
  intros Hf c a (l & -> & H). destruct (Hf l a) as [E1 E2]. eexists. split; [done|].
  exists l. by rewrite E1, E2.
Qed.

Lemma sim_when b (m : M (kst C W) unit) m' : sim m m' -> sim (when b m) (when b m').
Proof. intros H. destruct b; [done|apply sim_ret]. Qed.

Lemma sim_liftL {A} (m : M C A) m' : refines R m m' -> sim (liftL m) (liftL m').
Proof.
  intros Hm c a (l & -> & H). specialize (Hm l (lists a) H). unfold liftL. simpl.
  unfold refines_o in *. destruct (m' (lists a)) as [[x d]|e].
  - destruct Hm as (c' & -> & H'). eexists. split; [done|]. by exists c'.
  - destruct e; rewrite ?Hm; done.
Qed.

Lemma sim_liftW {A} (m : M W A) : sim (liftW m) (liftW m).
Proof.
  intros c a (l & -> & H). unfold liftW. simpl.
  destruct (m (world a)) as [[x w]|[]]; [|done..]. eexists. split; [done|]. by exists l.
Qed.

Lemma sim_getp p : sim (getp p) (getp p).
Proof.
  intros c a (l & -> & H). unfold getp. simpl.
  destruct (p ≫= _); [|done]. eexists. split; [done|]. by exists l.
Qed.

Lemma sim_modp p f : sim (modp p f) (modp p f).
Proof.
  intros c a (l & -> & H). unfold modp. simpl.
  destruct (p ≫= _) as [[i x]|]; [|done]. eexists. split; [done|]. by exists l.
Qed.

Lemma sim_with_lock {A} l (f : spinlock -> cpu -> outcome (A * (spinlock * cpu))) :
  sim (with_lock l f) (with_lock l f).
Proof.
  intros c a (d & -> & H). unfold with_lock. simpl.
  destruct (klocks a !! l) as [lk|]; [|done].
  destruct (f lk (kcpu a)) as [[x [lk' c']]|[]]; [|done..].
  eexists. split; [done|]. by exists d.
Qed.

#[local] Hint Resolve sim_ret sim_fail sim_panic sim_lift sim_when sim_liftL
  sim_liftW sim_getp sim_modp sim_with_lock : refine.
#[local] Hint Resolve ref_head ref_ready ref_next ref_add ref_add_head ref_remove
  ref_init ref_promote : refine.
#[local] Hint Extern 1 (refines _ (gets _) _) => apply sim_gets; done : refine.
#[local] Hint Extern 1 (refines _ (modify _) _) => apply sim_modify; done : refine.

(** Case analysis on what both sides branch on. *)
Ltac branch :=
  match goal with
  | |- refines _ (if ?b then _ else _) _ => destruct b
  | |- refines _ (match ?o with _ => _ end) _ => destruct o
  | |- refines _ (let '_ := ?o in _) _ => destruct o
  end.

Ltac sim :=
  repeat first
    [ progress intros
    | solve [eauto 4 with refine]
    | apply sim_bind
    | apply sim_when
    | branch
    | progress unfold return_or ].

Lemma sim_acquire l : sim (acquire_lk l) (acquire_lk l).
Proof. apply sim_with_lock. Qed.
Lemma sim_release l : sim (release_lk l) (release_lk l).
Proof. apply sim_with_lock. Qed.
Lemma sim_holding l : sim (holding_lk l) (holding_lk l).
Proof. apply sim_with_lock. Qed.
Lemma sim_myproc : sim myproc myproc.
Proof. unfold myproc. sim. Qed.
Lemma sim_modmy f : sim (modmy f) (modmy f).
Proof. unfold modmy. sim. Qed.
#[local] Hint Resolve sim_acquire sim_release sim_holding sim_myproc sim_modmy : refine.

(** ** Loops *)

Lemma sim_for_list {A} fuel p (f : nat -> M (kst C W) (option A)) f' :
  (forall i, sim (f i) (f' i)) -> sim (for_list fuel p f) (for_list fuel p f').
Proof.
  intros Hf. revert p. induction fuel; intros [i|]; simpl; sim.
Qed.

Lemma sim_for_each {A} l (f : nat -> M (kst C W) (option A)) f' :
  (forall i, sim (f i) (f' i)) -> sim (for_each l f) (for_each l f').
Proof. intros Hf. unfold for_each. sim. by apply sim_for_list. Qed.

Lemma sim_for_index {A} ix (f : nat -> M (kst C W) (option A)) f' :
  (forall i, sim (f i) (f' i)) -> sim (for_index ix f) (for_index ix f').
Proof. intros Hf. induction ix; simpl; sim. Qed.

Lemma sim_for_ready {A} (f : nat -> nat -> M (kst C W) (option A)) f' :
  (forall i p, sim (f i p) (f' i p)) -> sim (for_ready f) (for_ready f').
Proof. intros Hf. apply sim_for_index. intros i. by apply sim_for_each. Qed.

Lemma sim_fold_list {B} fuel p (b : B) (f : B -> nat -> M (kst C W) B) f' :
  (forall b i, sim (f b i) (f' b i)) -> sim (fold_list fuel p b f) (fold_list fuel p b f').
Proof.
  intros Hf. revert p b. induction fuel; intros [i|] b; simpl; sim.
Qed.

Lemma sim_fold_each {B} l (b : B) (f : B -> nat -> M (kst C W) B) f' :
  (forall b i, sim (f b i) (f' b i)) -> sim (fold_each l b f) (fold_each l b f').
Proof. intros Hf. unfold fold_each. sim. by apply sim_fold_list. Qed.

Lemma sim_fold_index {B} ix (b : B) (f : B -> nat -> M (kst C W) B) f' :
  (forall b i, sim (f b i) (f' b i)) -> sim (fold_index ix b f) (fold_index ix b f').
Proof. intros Hf. revert b. induction ix; intros b; simpl; sim. Qed.

Ltac loops :=
  repeat first
    [ progress sim
    | apply sim_for_ready | apply sim_for_each | apply sim_for_index | apply sim_for_list
    | apply sim_fold_each | apply sim_fold_index | apply sim_fold_list
    | progress unfold continue ].

(** ** Routines *)

Lemma sim_assertState p s : sim (assertState p s) (assertState p s).
Proof. unfold assertState. sim. Qed.
Lemma sim_remove_or_panic l p msg : sim (remove_or_panic l p msg) (remove_or_panic l p msg).
Proof. unfold remove_or_panic. sim. Qed.
Lemma sim_ready_of p : sim (ready_of p) (ready_of p).
Proof. unfold ready_of. sim. Qed.
Lemma sim_demoteProc p : sim (demoteProc p) (demoteProc p).
Proof. unfold demoteProc. sim. Qed.
Lemma sim_promote_one p : sim (promote_one p) (promote_one p).
Proof. unfold promote_one. sim. Qed.
#[local] Hint Resolve sim_assertState sim_remove_or_panic sim_ready_of sim_demoteProc
  sim_promote_one : refine.

Lemma sim_promoteAll : sim promoteAll promoteAll.
Proof. unfold promoteAll, promote_procs. loops. Qed.
Lemma sim_assertPriority : sim assertPriority assertPriority.
Proof. unfold assertPriority. loops. Qed.
Lemma sim_allocproc : sim allocproc allocproc.
Proof. unfold allocproc, allocproc_take, allocproc_init. sim. Qed.
Lemma sim_free_all ps : sim (free_all ps) (free_all ps).
Proof. induction ps; simpl; sim. Qed.
Lemma sim_set_name p t : sim (set_name p t) (set_name p t).
Proof. unfold set_name. sim. Qed.
Lemma sim_switchuvm p : sim (switchuvm p) (switchuvm p).
Proof. unfold switchuvm. sim. Qed.
#[local] Hint Resolve sim_promoteAll sim_assertPriority sim_allocproc sim_free_all
  sim_set_name sim_switchuvm : refine.

Lemma sim_userinit : sim userinit userinit.
Proof. unfold userinit, userinit_lists, initFreeList. sim. Qed.
Lemma sim_growproc n : sim (growproc n) (growproc n).
Proof. unfold growproc. sim. Qed.
Lemma sim_fork_files p fds : sim (fork_files p fds) (fork_files p fds).
Proof. induction fds; simpl; sim. Qed.
#[local] Hint Resolve sim_fork_files : refine.
Lemma sim_fork : sim fork fork.
Proof. unfold fork. sim. Qed.

Lemma sim_sched : sim sched sched.
Proof. unfold sched. sim. Qed.
Lemma sim_sched_exit : sim sched_exit sched_exit.
Proof. unfold sched_exit. sim. Qed.
Lemma sim_charge_budget : sim charge_budget charge_budget.
Proof. unfold charge_budget. sim. Qed.
#[local] Hint Resolve sim_sched sim_sched_exit sim_charge_budget : refine.
Lemma sim_yield : sim yield yield.
Proof. unfold yield. sim. Qed.
Lemma sim_yield_exit : sim yield_exit yield_exit.
Proof. unfold yield_exit. sim. Qed.
Lemma sim_forkret : sim forkret forkret.
Proof. unfold forkret. sim. Qed.
Lemma sim_sleep ch lk : sim (sleep ch lk) (sleep ch lk).
Proof. unfold sleep, go_to_sleep. sim. Qed.
Lemma sim_sleep_exit lk : sim (sleep_exit lk) (sleep_exit lk).
Proof. unfold sleep_exit. sim. Qed.
Lemma sim_make_runnable p msg : sim (make_runnable p msg) (make_runnable p msg).
Proof. unfold make_runnable. sim. Qed.
#[local] Hint Resolve sim_sleep sim_sleep_exit sim_make_runnable : refine.
Lemma sim_wakeup1 ch : sim (wakeup1 ch) (wakeup1 ch).
Proof. unfold wakeup1. loops. Qed.
#[local] Hint Resolve sim_wakeup1 : refine.
Lemma sim_wakeup ch : sim (wakeup ch) (wakeup ch).
Proof. unfold wakeup. sim. Qed.
Lemma sim_kill pid : sim (kill pid) (kill pid).
Proof. unfold kill, kill_if. loops. Qed.

Lemma sim_close_files fds : sim (close_files fds) (close_files fds).
Proof. induction fds; simpl; sim. Qed.
Lemma sim_reparent m m' p : sim m m' -> sim (reparent m p) (reparent m' p).
Proof. intros. unfold reparent, continue. sim. Qed.
Lemma sim_reparent_all : sim reparent_all reparent_all.
Proof. unfold reparent_all. loops; apply sim_reparent; sim. Qed.
#[local] Hint Resolve sim_close_files sim_reparent_all : refine.
Lemma sim_exit : sim exit exit.
Proof. unfold exit. sim. Qed.
Lemma sim_reap p : sim (reap p) (reap p).
Proof. unfold reap. sim. Qed.
Lemma sim_is_kid h p : sim (is_kid h p) (is_kid h p).
Proof. unfold is_kid. sim. Qed.
#[local] Hint Resolve sim_reap sim_is_kid : refine.
Lemma sim_wait_round : sim wait_round wait_round.
Proof. unfold wait_round, wait_scan. loops. Qed.
#[local] Hint Resolve sim_wait_round : refine.
Lemma sim_wait : sim wait wait.
Proof. unfold wait. sim. Qed.
Lemma sim_wait_resumed : sim wait_resumed wait_resumed.
Proof. unfold wait_resumed. sim. Qed.

Lemma sim_scheduler_begin : sim scheduler_begin scheduler_begin.
Proof. unfold scheduler_begin, sti. sim. Qed.
Lemma sim_scheduler_level i : sim (scheduler_level i) (scheduler_level i).
Proof. unfold scheduler_level. sim. Qed.
Lemma sim_scheduler_back : sim scheduler_back scheduler_back.
Proof. unfold scheduler_back. sim. Qed.
Lemma sim_scheduler_end idle : sim (scheduler_end idle) (scheduler_end idle).
Proof. unfold scheduler_end, sti. sim. Qed.

Lemma sim_fill_uproc x u : sim (fill_uproc x u) (fill_uproc x u).
Proof. unfold fill_uproc. sim. Qed.
#[local] Hint Resolve sim_fill_uproc : refine.
Lemma sim_getprocs_loop max ps size t :
  sim (getprocs_loop max ps size t) (getprocs_loop max ps size t).
Proof. revert size t. induction ps; intros; cbn [getprocs_loop]; sim. Qed.
Lemma sim_getprocs max t : sim (getprocs max t) (getprocs max t).
Proof. apply sim_getprocs_loop. Qed.
Lemma sim_setPriority pid pr : sim (setPriority pid pr) (setPriority pid pr).
Proof. unfold setPriority, setPriority_ready, setPriority_other. loops. Qed.
Lemma sim_getPriority pid : sim (getPriority pid) (getPriority pid).
Proof. unfold getPriority. loops. Qed.

End Sim.

(** ** Transfer

    A specification proved over the abstract lists holds over an
    implementation, for errors that are not faults of the model. *)
Definition soft (E : error -> Prop) : Prop := forall e, E e -> e <> Fault /\ e <> NoFuel.

Section Transfer.
Context {C D W : Type} {R : C -> D -> Prop}.

Lemma wp_transfer {A} (E : error -> Prop) (mc : M (kst C W) A) ma
    (Q : A -> kst D W -> Prop) c a :
  soft E -> refines (krel R) mc ma -> krel R c a -> wp E ma Q a ->
  wp E mc (fun r c' => exists a', krel R c' a' /\ Q r a') c.
Proof.
  intros HE Hr Hca Hwp. specialize (Hr c a Hca). unfold wp, refines_o in *.
  destruct (ma a) as [[r a']|e].
  - destruct Hr as (c' & -> & Hca'). eauto.
  - destruct (HE e Hwp). destruct e; try done; by rewrite Hr.
Qed.

Lemma run_transfer {A} (mc : M (kst C W) A) ma c a r a' :
  refines (krel R) mc ma -> krel R c a -> ma a = Ok (r, a') ->
  exists c', mc c = Ok (r, c') /\ krel R c' a'.
Proof.
  intros Hr Hca Hma. specialize (Hr c a Hca). unfold refines_o in Hr. by rewrite Hma in Hr.
Qed.

Lemma no_error_soft : soft no_error.
Proof. by intros e []. Qed.

End Transfer.
