(* ===== verification/ProcInv.v ===== *)
(** * The process-table invariant (proc.c)

    Every process is on exactly one list, and the list fits its state and its
    priority.  The lemmas of this file are about the routines of [Proc] run
    over the abstract lists; [ProcRefine] carries them to the pointers. *)

From stdpp Require Import base numbers list sets strings.
From S2P Require Import Prelude Strings Spinlock StateLists Proc.

Open Scope Z_scope.

(** ** Well-formed lists *)

(** The lists are duplicate free, disjoint, and hold the processes of the
    table, all but the floating one [fl] (a process between its removal from
    a list and its addition to another). *)
Record wf_lists (fl : pptr) (a : alists) : Prop := {
  wf_nodup l : valid_lid l = true -> NoDup (a l);
  wf_disj l l' i : valid_lid l = true -> valid_lid l' = true ->
    i ∈ a l -> i ∈ a l' -> l = l';
  wf_bound l i : valid_lid l = true -> i ∈ a l -> (i < NPROC)%nat;
  wf_cover i : (i < NPROC)%nat -> fl <> Some i -> exists l, valid_lid l = true /\ i ∈ a l;
  wf_float i l : fl = Some i -> valid_lid l = true -> i ∉ a l;
}.

(** The list a process in a given state and priority belongs to.  An [UNUSED]
    process may also be on the embryo list: [allocproc] leaves it there when
    [kalloc] fails. *)
Definition fits (x : proc) (l : lid) : Prop :=
  match p_state x with
  | UNUSED => l = LFree \/ l = LEmbryo
  | EMBRYO => l = LEmbryo
  | SLEEPING => l = LSleep
  | RUNNABLE => l = LReady (Z.to_nat (p_priority x))
  | RUNNING => l = LRunning
  | ZOMBIE => l = LZombie
  end.

(** The list of a process that is in use. *)
Definition home (x : proc) : lid :=
  match p_state x with
  | UNUSED => LFree
  | EMBRYO => LEmbryo
  | SLEEPING => LSleep
  | RUNNABLE => LReady (Z.to_nat (p_priority x))
  | RUNNING => LRunning
  | ZOMBIE => LZombie
  end.

(** Priority in range, arrays of their declared sizes. *)
Record proc_ok (x : proc) : Prop := {
  ok_prio : 0 <= p_priority x <= Z.of_nat MAXPRIO;
  ok_ofile_length : length (p_ofile x) = NOFILE;
  ok_name_length : length (p_name x) = 16%nat;
}.

(** Writes to the other fields keep it. *)
Create HintDb proc_ok.

Lemma ok_sz v x : proc_ok x -> proc_ok (set_p_sz v x).
Proof. by intros []. Qed.
Lemma ok_pgdir v x : proc_ok x -> proc_ok (set_p_pgdir v x).
Proof. by intros []. Qed.
Lemma ok_kstack v x : proc_ok x -> proc_ok (set_p_kstack v x).
Proof. by intros []. Qed.
Lemma ok_state v x : proc_ok x -> proc_ok (set_p_state v x).
Proof. by intros []. Qed.
Lemma ok_pid v x : proc_ok x -> proc_ok (set_p_pid v x).
Proof. by intros []. Qed.
Lemma ok_parent v x : proc_ok x -> proc_ok (set_p_parent v x).
Proof. by intros []. Qed.
Lemma ok_tf v x : proc_ok x -> proc_ok (set_p_tf v x).
Proof. by intros []. Qed.
Lemma ok_trapframe v x : proc_ok x -> proc_ok (set_p_trapframe v x).
Proof. by intros []. Qed.
Lemma ok_context v x : proc_ok x -> proc_ok (set_p_context v x).
Proof. by intros []. Qed.
Lemma ok_resume v x : proc_ok x -> proc_ok (set_p_resume v x).
Proof. by intros []. Qed.
Lemma ok_chan v x : proc_ok x -> proc_ok (set_p_chan v x).
Proof. by intros []. Qed.
Lemma ok_killed v x : proc_ok x -> proc_ok (set_p_killed v x).
Proof. by intros []. Qed.
Lemma ok_cwd v x : proc_ok x -> proc_ok (set_p_cwd v x).
Proof. by intros []. Qed.
Lemma ok_start_ticks v x : proc_ok x -> proc_ok (set_p_start_ticks v x).
Proof. by intros []. Qed.
Lemma ok_gid v x : proc_ok x -> proc_ok (set_p_gid v x).
Proof. by intros []. Qed.
Lemma ok_uid v x : proc_ok x -> proc_ok (set_p_uid v x).
Proof. by intros []. Qed.
Lemma ok_cpu_ticks_total v x : proc_ok x -> proc_ok (set_p_cpu_ticks_total v x).
Proof. by intros []. Qed.
Lemma ok_cpu_ticks_in v x : proc_ok x -> proc_ok (set_p_cpu_ticks_in v x).
Proof. by intros []. Qed.
Lemma ok_budget v x : proc_ok x -> proc_ok (set_p_budget v x).
Proof. by intros []. Qed.
Lemma ok_intena v x : proc_ok x -> proc_ok (set_p_intena v x).
Proof. by intros []. Qed.

Lemma ok_priority v x :
  0 <= v <= Z.of_nat MAXPRIO -> proc_ok x -> proc_ok (set_p_priority v x).
Proof. by intros ? []. Qed.
Lemma ok_ofile v x : length v = NOFILE -> proc_ok x -> proc_ok (set_p_ofile v x).
Proof. by intros ? []. Qed.
Lemma ok_name v x : length v = 16%nat -> proc_ok x -> proc_ok (set_p_name v x).
Proof. by intros ? []. Qed.

#[export] Hint Resolve ok_sz ok_pgdir ok_kstack ok_state ok_pid ok_parent ok_tf ok_trapframe
  ok_context ok_resume ok_chan ok_killed ok_cwd ok_start_ticks ok_gid
  ok_uid ok_cpu_ticks_total ok_cpu_ticks_in ok_budget ok_intena ok_priority
  ok_ofile ok_name : proc_ok.

Record table_ok (fl : pptr) (ps : list proc) (a : alists) : Prop := {
  tb_length : length ps = NPROC;
  tb_lists : wf_lists fl a;
  tb_proc i x : ps !! i = Some x -> proc_ok x;
  tb_fits l i x : valid_lid l = true -> i ∈ a l -> ps !! i = Some x -> fits x l;
}.

(** ** Facts about the lists *)

Lemma upd_eq l xs a : Abs.upd l xs a l = xs.
Proof. unfold Abs.upd. by rewrite decide_True. Qed.

Lemma upd_ne l l' xs a : l <> l' -> Abs.upd l xs a l' = a l'.
Proof. intros. unfold Abs.upd. by rewrite decide_False. Qed.

Lemma valid_home x : proc_ok x -> valid_lid (home x) = true.
Proof.
  intros [Hp _ _]. unfold home. destruct (p_state x); simpl; try done. apply Nat.leb_le. lia.
Qed.

Lemma fits_home x : fits x (home x).
Proof. unfold fits, home. destruct (p_state x); auto. Qed.

Lemma fits_eq_home x l : p_state x <> UNUSED -> fits x l -> l = home x.
Proof. unfold fits, home. by destruct (p_state x). Qed.

Lemma wf_where fl a l i :
  wf_lists fl a -> valid_lid l = true -> i ∈ a l -> Abs.where_is a i = Some l.
Proof.
  intros [_ Hd _ _ _] Hv Hi. destruct (Abs.where_is a i) as [l'|] eqn:E.
  - apply where_is_Some in E as [Hv' Hi']. f_equal. eauto.
  - by pose proof (proj1 (where_is_None a i) E l Hv).
Qed.

Lemma wf_length fl a l : wf_lists fl a -> valid_lid l = true -> (length (a l) <= NPROC)%nat.
Proof.
  intros [Hn _ Hb _ _] Hv. apply NoDup_bounded_length; [by apply Hn|].
  intros i Hi. by apply (Hb l).
Qed.

Lemma table_home ps a i x :
  table_ok None ps a -> ps !! i = Some x -> p_state x <> UNUSED -> i ∈ a (home x).
Proof.
  intros [Hl Hw Hp Hf] Hx Hs.
  destruct (wf_cover _ _ Hw i) as (l & Hv & Hi); [|done|].
  { rewrite <- Hl. by eapply lookup_lt_Some. }
  by rewrite <- (fits_eq_home x l Hs (Hf l i x Hv Hi Hx)).
Qed.

Lemma table_lookup fl ps a l i :
  table_ok fl ps a -> valid_lid l = true -> i ∈ a l -> exists x, ps !! i = Some x /\ fits x l.
Proof.
  intros [Hl Hw Hp Hf] Hv Hi. pose proof (wf_bound _ _ Hw l i Hv Hi) as Hb.
  rewrite <- Hl in Hb. apply lookup_lt_is_Some in Hb as [x Hx]. eauto.
Qed.

Lemma elem_filter_ne (xs : list nat) i j :
  j ∈ filter (fun x => x <> i) xs <-> j ∈ xs /\ j <> i.
Proof. rewrite list_elem_of_filter. tauto. Qed.

(** Removing a process makes it float. *)
Lemma wf_remove a l i :
  wf_lists None a -> valid_lid l = true -> i ∈ a l ->
  wf_lists (Some i) (Abs.upd l (filter (fun x => x <> i) (a l)) a).
Proof.
  intros [Hn Hd Hb Hc Hf] Hv Hi.
  assert (Hsub : forall l' j, valid_lid l' = true ->
    j ∈ Abs.upd l (filter (fun x => x <> i) (a l)) a l' <-> j ∈ a l' /\ j <> i).
  { intros l' j Hv'. destruct (decide (l = l')) as [<-|Hne].
    - by rewrite upd_eq, elem_filter_ne.
    - rewrite upd_ne by done. split; [|tauto]. intros Hj. split; [done|].
      intros ->. by apply Hne, (Hd _ _ i). }
  split.
  - intros l' Hv'. destruct (decide (l = l')) as [<-|Hne].
    + rewrite upd_eq. by apply NoDup_filter, Hn.
    + rewrite upd_ne by done. by apply Hn.
  - intros l1 l2 j Hv1 Hv2 H1 H2. apply Hsub in H1 as [??], H2 as [??]; eauto.
  - intros l' j Hv' Hj. apply Hsub in Hj as [??]; eauto.
  - intros j Hj Hne. destruct (Hc j Hj) as (l' & Hv' & Hj'); [done|].
    exists l'. split; [done|]. apply Hsub; [done|]. split; congruence.
  - intros j l' [= <-] Hv' Hj. by apply Hsub in Hj as [_ ?].
Qed.

(** Putting the floating process on a list, at any place. *)
Lemma wf_insert a l i xs :
  wf_lists (Some i) a -> valid_lid l = true -> (i < NPROC)%nat -> xs ≡ₚ i :: a l ->
  wf_lists None (Abs.upd l xs a).
Proof.
  intros [Hn Hd Hb Hc Hf] Hv Hi Hp.
  assert (Hin : forall l' j, valid_lid l' = true ->
    j ∈ Abs.upd l xs a l' <-> j ∈ a l' \/ (j = i /\ l' = l)).
  { intros l' j Hv'. destruct (decide (l = l')) as [<-|Hne].
    - rewrite upd_eq, Hp, elem_of_cons. tauto.
    - rewrite upd_ne by done. split; [tauto|]. by intros [?|[_ ->]]. }
  split.
  - intros l' Hv'. destruct (decide (l = l')) as [<-|Hne].
    + rewrite upd_eq, Hp. apply NoDup_cons. split; [by apply Hf|by apply Hn].
    + rewrite upd_ne by done. by apply Hn.
  - intros l1 l2 j Hv1 Hv2 H1 H2. apply Hin in H1, H2; [|done..].
    destruct H1 as [H1|[-> ->]], H2 as [H2|[E ->]]; subst; [by eauto|..|done].
    + by apply Hf in H1.
    + by apply Hf in H2.
  - intros l' j Hv' Hj. apply Hin in Hj as [?|[-> _]]; eauto.
  - intros j Hj _. destruct (decide (j = i)) as [->|Hne].
    + exists l. split; [done|]. apply Hin; auto.
    + destruct (Hc j Hj) as (l' & Hv' & Hj'); [congruence|].
      exists l'. split; [done|]. apply Hin; auto.
  - done.
Qed.

(** ** Moving a process between lists *)

Definition rem (i : nat) (l : lid) (a : alists) : alists :=
  Abs.upd l (filter (fun x => x <> i) (a l)) a.
Definition push (i : nat) (l : lid) (a : alists) : alists := Abs.upd l (a l ++ [i]) a.
Definition push_front (i : nat) (l : lid) (a : alists) : alists := Abs.upd l (i :: a l) a.

Lemma in_upd l l' i xs a :
  i ∈ Abs.upd l xs a l' <-> (l' = l /\ i ∈ xs) \/ (l' <> l /\ i ∈ a l').
Proof.
  destruct (decide (l = l')) as [<-|Hne].
  - rewrite upd_eq. naive_solver.
  - rewrite upd_ne by done. naive_solver.
Qed.

Lemma table_remove ps a l i :
  table_ok None ps a -> valid_lid l = true -> i ∈ a l -> table_ok (Some i) ps (rem i l a).
Proof.
  intros [Hl Hw Hp Hf] Hv Hi. split; [done|by apply wf_remove|done|].
  intros l' j x Hv' Hj Hx. apply in_upd in Hj as [[-> Hj]|[_ Hj]]; [|by eauto].
  apply elem_filter_ne in Hj as [Hj _]. eauto.
Qed.

Lemma table_float_set ps a i y :
  table_ok (Some i) ps a -> proc_ok y -> table_ok (Some i) (<[i := y]> ps) a.
Proof.
  intros [Hl Hw Hp Hf] Hy. split; [by rewrite length_insert|done|..].
  - intros j x Hj. apply list_lookup_insert_Some in Hj as [(-> & <- & _)|[_ ?]]; eauto.
  - intros l j x Hv Hj Hx. apply list_lookup_insert_Some in Hx as [(-> & _ & _)|[_ ?]]; [|by eauto].
    exfalso. by eapply (wf_float _ _ Hw).
Qed.

Lemma table_insert ps a l i y xs :
  table_ok (Some i) ps a -> ps !! i = Some y -> valid_lid l = true -> fits y l ->
  xs ≡ₚ i :: a l -> table_ok None ps (Abs.upd l xs a).
Proof.
  intros [Hl Hw Hp Hf] Hy Hv Hfit Hxs. split; [done|..|done|].
  - eapply wf_insert; [done..| |done]. rewrite <- Hl. by eapply lookup_lt_Some.
  - intros l' j x Hv' Hj Hx. apply in_upd in Hj as [[-> Hj]|[_ Hj]]; [|by eauto].
    rewrite Hxs in Hj. apply elem_of_cons in Hj as [->|Hj]; [|by eauto]. by simplify_eq.
Qed.

Lemma table_push ps a l i y :
  table_ok (Some i) ps a -> ps !! i = Some y -> valid_lid l = true -> fits y l ->
  table_ok None ps (push i l a).
Proof. intros. eapply table_insert; [done..|]. by rewrite Permutation_app_comm. Qed.

Lemma table_push_front ps a l i y :
  table_ok (Some i) ps a -> ps !! i = Some y -> valid_lid l = true -> fits y l ->
  table_ok None ps (push_front i l a).
Proof. intros. by eapply table_insert. Qed.

(** A write to a process that keeps it where it is. *)
Lemma table_set fl ps a i x y :
  table_ok fl ps a -> ps !! i = Some x -> proc_ok y -> (forall l, fits x l -> fits y l) ->
  table_ok fl (<[i := y]> ps) a.
Proof.
  intros [Hl Hw Hp Hf] Hx Hy Hxy. split; [by rewrite length_insert|done|..].
  - intros j z Hj. apply list_lookup_insert_Some in Hj as [(-> & <- & _)|[_ ?]]; eauto.
  - intros l j z Hv Hj Hz.
    apply list_lookup_insert_Some in Hz as [(-> & <- & _)|[_ ?]]; eauto.
Qed.

(** A write that changes neither state nor priority. *)
Lemma table_frame fl ps a i x y :
  table_ok fl ps a -> ps !! i = Some x -> proc_ok y -> p_state y = p_state x ->
  p_priority y = p_priority x -> table_ok fl (<[i := y]> ps) a.
Proof.
  intros Ht Hx Hy Hs Hp. eapply table_set; [done..|].
  intros l. unfold fits. by rewrite Hs, Hp.
Qed.

(** The whole move of process [i] from list [l] to the end or the front of
    list [l'], with its structure rewritten to [y]. *)
Lemma table_move ps a l l' i x y :
  table_ok None ps a -> ps !! i = Some x -> valid_lid l = true -> i ∈ a l ->
  proc_ok y -> valid_lid l' = true -> fits y l' ->
  table_ok None (<[i := y]> ps) (push i l' (rem i l a)).
Proof.
  intros Ht Hx Hv Hi Hy Hv' Hf. eapply table_push; [..|done|done].
  - apply table_float_set; [|done]. by apply table_remove.
  - apply list_lookup_insert_eq. by eapply lookup_lt_Some.
Qed.

Lemma table_move_front ps a l l' i x y :
  table_ok None ps a -> ps !! i = Some x -> valid_lid l = true -> i ∈ a l ->
  proc_ok y -> valid_lid l' = true -> fits y l' ->
  table_ok None (<[i := y]> ps) (push_front i l' (rem i l a)).
Proof.
  intros Ht Hx Hv Hi Hy Hv' Hf. eapply table_push_front; [..|done|done].
  - apply table_float_set; [|done]. by apply table_remove.
  - apply list_lookup_insert_eq. by eapply lookup_lt_Some.
Qed.

Lemma table_lt fl ps a i x : table_ok fl ps a -> ps !! i = Some x -> (i < NPROC)%nat.
Proof. intros Ht Hx. rewrite <- (tb_length _ _ _ Ht). by eapply lookup_lt_Some. Qed.

Lemma ready_valid x : proc_ok x -> valid_lid (LReady (Z.to_nat (p_priority x))) = true.
Proof. intros [Hp _ _]. apply Nat.leb_le. lia. Qed.

(** ** Symbolic execution *)

Definition cpu_ok (c : cpu) : Prop := 0 <= ncli c /\ (0 < ncli c -> fl_if c = false).

(** The effect of [pushcli(); popcli()]. *)
Definition cpu_saved (c : cpu) : cpu :=
  mkcpu (cpu_id c) (ncli c) (if ncli c =? 0 then fl_if c else intena c) (fl_if c).

Lemma popcli_pushcli c : cpu_ok c -> popcli (pushcli c) = Ok (cpu_saved c).
Proof.
  intros [H0 H1]. unfold popcli, pushcli, cpu_saved. simpl.
  replace (ncli c + 1 - 1) with (ncli c) by lia.
  destruct (Z.ltb_spec (ncli c) 0); [lia|]. destruct (Z.eqb_spec (ncli c) 0); simpl.
  - by destruct (fl_if c).
  - rewrite H1 by lia. done.
Qed.

Section Rules.
Context {W : Type} {PE : ProcEnv W} {E : error -> Prop}.
Implicit Types s : kst alists W.

#[local] Abbreviation K := (M (kst alists W)).

(** The lock is free, or held by the executing CPU. *)
Definition lk_free (l : nat) s : Prop := klocks s !! l = Some initlock.
Definition lk_held (l : nat) s : Prop :=
  klocks s !! l = Some (mkspinlock 1 (Some (cpu_id (kcpu s)))).

Definition acquired (l : nat) s : kst alists W :=
  set_kcpu (pushcli (kcpu s))
    (set_klocks (<[l := mkspinlock 1 (Some (cpu_id (kcpu s)))]> (klocks s)) s).

Lemma wp_getp p i x (Q : proc -> kst alists W -> Prop) s :
  p = Some i -> procs s !! i = Some x -> Q x s -> wp E (getp p) Q s.
Proof. intros -> Hx HQ. unfold wp, getp. simpl. by rewrite Hx. Qed.

Lemma wp_modp p i x f (Q : unit -> kst alists W -> Prop) s :
  p = Some i -> procs s !! i = Some x ->
  Q tt (set_procs (<[i := f x]> (procs s)) s) -> wp E (modp p f) Q s.
Proof. intros -> Hx HQ. unfold wp, modp. simpl. rewrite Hx. done. Qed.

Lemma wp_myproc i x (Q : proc -> kst alists W -> Prop) s :
  cur s = Some i -> procs s !! i = Some x -> Q x s -> wp E myproc Q s.
Proof. intros Hc Hx HQ. apply wp_bind, wp_gets. by eapply wp_getp. Qed.

Lemma wp_modmy i x f (Q : unit -> kst alists W -> Prop) s :
  cur s = Some i -> procs s !! i = Some x ->
  Q tt (set_procs (<[i := f x]> (procs s)) s) -> wp E (modmy f) Q s.
Proof. intros Hc Hx HQ. apply wp_bind, wp_gets. by eapply wp_modp. Qed.

Lemma wp_assertState p i x st (Q : unit -> kst alists W -> Prop) s :
  p = Some i -> procs s !! i = Some x -> p_state x = st -> Q tt s ->
  wp E (assertState p st) Q s.
Proof.
  intros Hp Hx Hs HQ. apply wp_bind. eapply wp_getp; [done..|].
  rewrite decide_True by done. done.
Qed.

Lemma wp_ready_of p i x (Q : lid -> kst alists W -> Prop) s :
  p = Some i -> procs s !! i = Some x -> Q (LReady (Z.to_nat (p_priority x))) s ->
  wp E (ready_of p) Q s.
Proof. intros Hp Hx HQ. apply wp_bind. by eapply wp_getp. Qed.

Lemma wp_acquire l (Q : unit -> kst alists W -> Prop) s :
  lk_free l s -> Q tt (acquired l s) -> wp E (acquire_lk l) Q s.
Proof.
  unfold lk_free, wp, acquire_lk, with_lock. intros -> HQ. unfold acquire, holding. simpl.
  done.
Qed.

Lemma wp_release l c (Q : unit -> kst alists W -> Prop) s :
  lk_held l s -> popcli (kcpu s) = Ok c ->
  Q tt (set_kcpu c (set_klocks (<[l := initlock]> (klocks s)) s)) ->
  wp E (release_lk l) Q s.
Proof.
  unfold lk_held, wp, release_lk, with_lock. intros -> Hc HQ.
  unfold release, holding. simpl. rewrite bool_decide_true by done. simpl.
  rewrite Hc. simpl. done.
Qed.

Lemma wp_holding_held l (Q : bool -> kst alists W -> Prop) s :
  lk_held l s -> Q true s -> wp E (holding_lk l) Q s.
Proof.
  unfold lk_held, wp, holding_lk, with_lock. intros Hl HQ. rewrite Hl. unfold holding. simpl.
  rewrite bool_decide_true by done. rewrite list_insert_id by done. by destruct s.
Qed.

Lemma wp_holding_free l (Q : bool -> kst alists W -> Prop) s :
  lk_free l s -> Q false s -> wp E (holding_lk l) Q s.
Proof.
  unfold lk_free, wp, holding_lk, with_lock. intros Hl HQ. rewrite Hl. unfold holding. simpl.
  rewrite list_insert_id by done. by destruct s.
Qed.

Lemma wp_head l (Q : pptr -> kst alists W -> Prop) s :
  valid_lid l = true -> Q (head (lists s l)) s -> wp E (liftL (sl_head l)) Q s.
Proof.
  unfold wp, liftL. simpl. unfold Abs.head_. intros -> HQ. by destruct s.
Qed.

Lemma wp_next fl l i (Q : pptr -> kst alists W -> Prop) s :
  wf_lists fl (lists s) -> valid_lid l = true -> i ∈ lists s l ->
  Q (Abs.succ_in i (lists s l)) s -> wp E (liftL (sl_next i)) Q s.
Proof.
  unfold wp, liftL. simpl. unfold Abs.next_. intros Hw Hv Hi HQ.
  rewrite (wf_where _ _ _ _ Hw Hv Hi). by destruct s.
Qed.

Lemma wp_remove l p i msg (Q : unit -> kst alists W -> Prop) s :
  p = Some i -> valid_lid l = true -> i ∈ lists s l ->
  Q tt (set_lists (rem i l (lists s)) s) -> wp E (remove_or_panic l p msg) Q s.
Proof.
  intros -> Hv Hi HQ. unfold remove_or_panic. apply wp_bind.
  unfold wp, liftL. simpl. unfold Abs.remove_. rewrite Hv.
  rewrite bool_decide_true by (intros En; rewrite En in Hi; by apply not_elem_of_nil in Hi).
  simpl. by rewrite decide_True.
Qed.

Lemma float_addable i l a :
  wf_lists (Some i) a -> valid_lid l = true -> (i < NPROC)%nat -> Abs.addable l i a = true.
Proof.
  intros Hw Hv Hi. apply addable_spec. split_and!; [done..|].
  intros l' Hv'. by apply (wf_float _ _ Hw).
Qed.

Lemma wp_add l p i (Q : unit -> kst alists W -> Prop) s :
  p = Some i -> wf_lists (Some i) (lists s) -> valid_lid l = true -> (i < NPROC)%nat ->
  Q tt (set_lists (push i l (lists s)) s) -> wp E (liftL (stateListAdd l p)) Q s.
Proof.
  intros -> Hw Hv Hi HQ. unfold wp, liftL. simpl. by rewrite float_addable.
Qed.

Lemma wp_add_front l p i (Q : unit -> kst alists W -> Prop) s :
  p = Some i -> wf_lists (Some i) (lists s) -> valid_lid l = true -> (i < NPROC)%nat ->
  Q tt (set_lists (push_front i l (lists s)) s) ->
  wp E (liftL (stateListAddAtHead l p)) Q s.
Proof.
  intros -> Hw Hv Hi HQ. unfold wp, liftL. simpl. by rewrite float_addable.
Qed.

End Rules.

(** ** Loops *)

Lemma succ_in_app dn i rest : i ∉ dn -> Abs.succ_in i (dn ++ i :: rest) = head rest.
Proof.
  induction dn as [|j dn IH]; intros Hi; simpl.
  - by rewrite decide_True.
  - apply not_elem_of_cons in Hi as [Hne Hi]. rewrite decide_False by done. auto.
Qed.

Section Loops.
Context {W : Type} {E : error -> Prop}.
Implicit Types s t : kst alists W.

#[local] Abbreviation K := (M (kst alists W)).

(** Traversal of list [l], whose elements [xs] the body does not change;
    [I dn] is what holds after the processes [dn] were visited. *)
Lemma wp_for_list {R} l xs (body : nat -> K (option R)) I (Q : option R -> kst alists W -> Prop) :
  valid_lid l = true ->
  (forall dn i rest t, xs = dn ++ i :: rest -> I dn t ->
    wp E (body i) (fun r t' => match r with
      | Some _ => Q r t'
      | None => wf_lists None (lists t') /\ lists t' l = xs /\ I (dn ++ [i]) t'
      end) t) ->
  (forall t, I xs t -> Q None t) ->
  forall rest fuel dn s, xs = dn ++ rest -> (length rest <= fuel)%nat -> NoDup xs ->
    I dn s -> wp E (for_list fuel (head rest) body) Q s.
Proof.
  intros Hv Hbody HQ. induction rest as [|i rest IH]; intros fuel dn s Hxs Hf Hnd HI.
  - rewrite app_nil_r in Hxs. subst dn. destruct fuel; by apply HQ.
  - destruct fuel as [|fuel]; [simpl in Hf; lia|]. cbn [for_list head].
    apply wp_bind. eapply wp_mono; [by apply (Hbody dn i rest)|].
    intros [r|] t; [done|]. intros (Hw & Hl & HI'). cbn beta iota.
    apply wp_bind. eapply (wp_next _ l); [done..|rewrite Hl, Hxs; set_solver|].
    rewrite Hl, Hxs, succ_in_app.
    2:{ intros Hi. rewrite Hxs in Hnd. apply NoDup_app in Hnd as (_ & Hd & _).
        apply (Hd i Hi). set_solver. }
    apply (IH fuel (dn ++ [i])); [by rewrite <- app_assoc|simpl in Hf; lia|done..].
Qed.

Lemma wp_for_each {R} l xs (body : nat -> K (option R)) I
    (Q : option R -> kst alists W -> Prop) s :
  valid_lid l = true -> wf_lists None (lists s) -> lists s l = xs -> I [] s ->
  (forall dn i rest t, xs = dn ++ i :: rest -> I dn t ->
    wp E (body i) (fun r t' => match r with
      | Some _ => Q r t'
      | None => wf_lists None (lists t') /\ lists t' l = xs /\ I (dn ++ [i]) t'
      end) t) ->
  (forall t, I xs t -> Q None t) ->
  wp E (for_each l body) Q s.
Proof.
  intros Hv Hw Hxs HI Hbody HQ. apply wp_bind, wp_head; [done|]. rewrite Hxs.
  eapply (wp_for_list l xs _ I); [done..| | | |done].
  - done.
  - rewrite <- Hxs. pose proof (wf_length _ _ _ Hw Hv). lia.
  - rewrite <- Hxs. by apply (wf_nodup _ _ Hw).
Qed.

Lemma wp_fold_list {B} l xs (f : B -> nat -> K B) I (Q : B -> kst alists W -> Prop) :
  valid_lid l = true ->
  (forall dn i rest b t, xs = dn ++ i :: rest -> I dn b t ->
    wp E (f b i) (fun b' t' =>
      wf_lists None (lists t') /\ lists t' l = xs /\ I (dn ++ [i]) b' t') t) ->
  (forall b t, I xs b t -> Q b t) ->
  forall rest fuel dn b s, xs = dn ++ rest -> (length rest <= fuel)%nat -> NoDup xs ->
    I dn b s -> wp E (fold_list fuel (head rest) b f) Q s.
Proof.
  intros Hv Hbody HQ. induction rest as [|i rest IH]; intros fuel dn b s Hxs Hf Hnd HI.
  - rewrite app_nil_r in Hxs. subst dn. destruct fuel; by apply HQ.
  - destruct fuel as [|fuel]; [simpl in Hf; lia|]. cbn [fold_list head].
    apply wp_bind. eapply wp_mono; [by apply (Hbody dn i rest)|].
    intros b' t (Hw & Hl & HI'). cbn beta iota.
    apply wp_bind. eapply (wp_next _ l); [done..|rewrite Hl, Hxs; set_solver|].
    rewrite Hl, Hxs, succ_in_app.
    2:{ intros Hi. rewrite Hxs in Hnd. apply NoDup_app in Hnd as (_ & Hd & _).
        apply (Hd i Hi). set_solver. }
    apply (IH fuel (dn ++ [i])); [by rewrite <- app_assoc|simpl in Hf; lia|done..].
Qed.

Lemma wp_fold_each {B} l xs (f : B -> nat -> K B) I b (Q : B -> kst alists W -> Prop) s :
  valid_lid l = true -> wf_lists None (lists s) -> lists s l = xs -> I [] b s ->
  (forall dn i rest b t, xs = dn ++ i :: rest -> I dn b t ->
    wp E (f b i) (fun b' t' =>
      wf_lists None (lists t') /\ lists t' l = xs /\ I (dn ++ [i]) b' t') t) ->
  (forall b t, I xs b t -> Q b t) ->
  wp E (fold_each l b f) Q s.
Proof.
  intros Hv Hw Hxs HI Hbody HQ. apply wp_bind, wp_head; [done|]. rewrite Hxs.
  eapply (wp_fold_list l xs _ I); [done..| | | |done].
  - done.
  - rewrite <- Hxs. pose proof (wf_length _ _ _ Hw Hv). lia.
  - rewrite <- Hxs. by apply (wf_nodup _ _ Hw).
Qed.

(** Loops over an index, with what holds before each value. *)
Lemma wp_for_index {R} (body : nat -> K (option R)) (I : nat -> kst alists W -> Prop)
    (Q : option R -> kst alists W -> Prop) n m s :
  I n s ->
  (forall i t, (n <= i < n + m)%nat -> I i t ->
    wp E (body i) (fun r t' => match r with Some _ => Q r t' | None => I (S i) t' end) t) ->
  (forall t, I (n + m)%nat t -> Q None t) ->
  wp E (for_index (seq n m) body) Q s.
Proof.
  revert n s. induction m as [|m IH]; intros n s HI Hbody HQ.
  - apply HQ. by rewrite Nat.add_0_r.
  - cbn [seq for_index]. apply wp_bind. eapply wp_mono; [apply Hbody; [lia|done]|].
    intros [r|] t; [done|]. intros HI'. apply IH; [done|..].
    + intros i t' Hi. apply Hbody. lia.
    + intros t'. replace (S n + m)%nat with (n + S m)%nat by lia. apply HQ.
Qed.

Lemma wp_fold_index {B} (f : B -> nat -> K B) (I : nat -> B -> kst alists W -> Prop)
    (Q : B -> kst alists W -> Prop) n m b s :
  I n b s ->
  (forall i b t, (n <= i < n + m)%nat -> I i b t -> wp E (f b i) (fun b' t' => I (S i) b' t') t) ->
  (forall b t, I (n + m)%nat b t -> Q b t) ->
  wp E (fold_index (seq n m) b f) Q s.
Proof.
  revert n b s. induction m as [|m IH]; intros n b s HI Hbody HQ.
  - apply HQ. by rewrite Nat.add_0_r.
  - cbn [seq fold_index]. apply wp_bind. eapply wp_mono; [apply Hbody; [lia|done]|].
    intros b' t HI'. apply IH; [done|..].
    + intros i b'' t' Hi. apply Hbody. lia.
    + intros b'' t'. replace (S n + m)%nat with (n + S m)%nat by lia. apply HQ.
Qed.

(** A loop that only reads and never leaves early. *)
Lemma wp_for_each_id {R} l (body : nat -> K (option R)) (Q : option R -> kst alists W -> Prop) s :
  valid_lid l = true -> wf_lists None (lists s) ->
  (forall i, i ∈ lists s l -> body i s = Ok (None, s)) -> Q None s ->
  wp E (for_each l body) Q s.
Proof.
  intros Hv Hw Hbody HQ.
  apply (wp_for_each l (lists s l) body (fun _ t => t = s)); [done..| |by intros t ->].
  intros dn i rest t Hxs ->. unfold wp. rewrite Hbody; [done|rewrite Hxs; set_solver].
Qed.

End Loops.
