(* ===== verification/ProcSpec.v ===== *)
(** * What the routines of proc.c do

    Functional specifications over the abstract lists: for every routine the
    exact table and lists it leaves, that it does not panic or fault, and that
    it keeps the invariant of [ProcInv]. *)

From stdpp Require Import base numbers list sets strings.
From S2P Require Import Prelude Strings Spinlock StateLists Proc ProcInv.

Open Scope Z_scope.

(** ** Execution tactics *)

Lemma lookup_set {A} (ps : list A) i x y : ps !! i = Some x -> <[i := y]> ps !! i = Some y.
Proof. intros Hx. apply list_lookup_insert_eq. by eapply lookup_lt_Some. Qed.

Lemma lookup_set_ne {A} (ps : list A) i j x y :
  i <> j -> ps !! i = Some x -> <[j := y]> ps !! i = Some x.
Proof. intros. by rewrite list_lookup_insert_ne. Qed.

(** Projections and updates of a kernel state that is written out. *)
Ltac kcbv t :=
  eval cbv beta iota delta [procs lists promoteAtTime klocks kcpu cur initproc nextpid ticks
    first world set_procs set_lists set_promoteAtTime set_klocks set_kcpu set_cur
    set_initproc set_nextpid set_ticks set_first set_world acquired lk_held lk_free] in t.

Ltac kproj :=
  cbn beta iota delta [procs lists promoteAtTime klocks kcpu cur initproc nextpid ticks
    first world].

Ltac kred :=
  cbv beta;
  lazymatch goal with
  | |- wp ?E ?m ?Q ?s => let s' := kcbv s in change (wp E m Q s'); kproj
  | |- ?G => let G' := kcbv G in change G'
  end;
  rewrite ?list_insert_insert_eq.

(** Write out the kernel state [s]. *)
Ltac kopen s :=
  destruct s as [ps a pt lks c cu ip np tk fi w];
  cbn [procs lists promoteAtTime klocks kcpu cur initproc nextpid ticks first world] in *;
  unfold lk_held, lk_free in *;
  cbn [procs lists promoteAtTime klocks kcpu cur initproc nextpid ticks first world] in *.

Ltac look :=
  kred; first [eassumption | eapply lookup_set; look | eapply lookup_set_ne; [done|look]].

Ltac held := kred; first [eassumption | look].

(** One step of symbolic execution, for the steps that need no invariant. *)
Ltac ptr := kred; first [reflexivity | eassumption].

Ltac wp1 :=
  lazymatch goal with
  | |- wp _ (mbind _ _) _ _ => apply wp_bind
  | |- wp _ (mret _) _ _ => apply wp_ret
  | |- wp _ (gets _) _ _ => apply wp_gets
  | |- wp _ (modify _) _ _ => apply wp_modify
  | |- wp _ (getp _) _ _ => eapply wp_getp; [ptr | look |]
  | |- wp _ (modp _ _) _ _ => eapply wp_modp; [ptr | look |]
  | |- wp _ myproc _ _ => eapply wp_myproc; [ptr | look |]
  | |- wp _ (modmy _) _ _ => eapply wp_modmy; [ptr | look |]
  | |- wp _ (assertState _ _) _ _ =>
      eapply wp_assertState; [ptr | look | first [done | eassumption] |]
  | |- wp _ (ready_of _) _ _ => eapply wp_ready_of; [ptr | look |]
  | |- wp _ (acquire_lk _) _ _ => eapply wp_acquire; [held |]
  | |- wp _ (holding_lk _) _ _ => eapply wp_holding_held; [held |]
  | |- wp _ (when true _) _ _ => unfold when at 1
  | |- wp _ (when false _) _ _ => unfold when at 1
  | |- wp _ (when (negb true) _) _ _ => unfold when at 1; simpl negb; cbn iota
  | |- wp _ (when (negb false) _) _ _ => unfold when at 1; simpl negb; cbn iota
  end; kred.

Ltac wps := repeat wp1.

(** ** Shared state predicates *)

Section Spec.
Context {W : Type} {PE : ProcEnv W} {E : error -> Prop}.
Implicit Types s : kst alists W.

(** The invariant of the kernel state while nobody holds [ptable.lock]. *)
Record kinv s : Prop := {
  ki_table : table_ok None (procs s) (lists s);
  ki_lock : lk_free PTABLE s;
  ki_cpu : cpu_ok (kcpu s);
}.

(** Process [me], with the structure [x], runs on the executing CPU. *)
Record running (me : nat) (x : proc) s : Prop := {
  ru_cur : cur s = Some me;
  ru_proc : procs s !! me = Some x;
  ru_state : p_state x = RUNNING;
}.

(** Every error of [m] is one of [E]. *)
Definition safe {S A} (m : M S A) : Prop := forall w e, m w = Err e -> E e.

(** What the callers assume of the other components: when a call into them
    stops, it stops with an error in [E]. *)
Class EnvSafe : Prop := {
  safe_kalloc : safe env_kalloc;
  safe_kfree v : safe (env_kfree v);
  safe_setupkvm : safe env_setupkvm;
  safe_inituvm d : safe (env_inituvm d);
  safe_copyuvm d sz : safe (env_copyuvm d sz);
  safe_freevm d : safe (env_freevm d);
  safe_filedup f : safe (env_filedup f);
  safe_fileclose f : safe (env_fileclose f);
  safe_idup i : safe (env_idup i);
  safe_iput i : safe (env_iput i);
  safe_namei_root : safe env_namei_root;
  safe_begin_op : safe env_begin_op;
  safe_end_op : safe env_end_op;
}.

Lemma wp_liftW {A} (m : M W A) (Q : A -> kst alists W -> Prop) s :
  safe m -> (forall a w, m (world s) = Ok (a, w) -> Q a (set_world w s)) ->
  wp E (liftW m) Q s.
Proof.
  intros Hm HQ. unfold wp, liftW. destruct (m (world s)) as [[a w]|e] eqn:Hw; eauto.
Qed.

(** The effect of [charge_budget], of [demoteProc] and of [sched] on the
    process they apply to. *)
Definition charged (t : Z) (x : proc) : proc :=
  set_p_budget (u32 (p_budget x - (t - p_cpu_ticks_in x))) x.

Definition demoted (x : proc) : proc :=
  if p_budget x <=? MAXBUDG then x
  else set_p_budget MAXBUDG
         (if p_priority x <? Z.of_nat MAXPRIO then set_p_priority (p_priority x + 1) x else x).

Definition switched (t : Z) (ie : bool) (x : proc) : proc :=
  set_p_resume InSched (set_p_intena ie
    (set_p_cpu_ticks_total (u32 (p_cpu_ticks_total x + (t - p_cpu_ticks_in x))) x)).

Lemma switched_priority t ie x : p_priority (switched t ie x) = p_priority x.
Proof. done. Qed.

Lemma demoted_ok x : proc_ok x -> proc_ok (demoted x).
Proof.
  intros Hok. unfold demoted. destruct (_ <=? _); [done|]. apply ok_budget.
  destruct (Z.ltb_spec (p_priority x) (Z.of_nat MAXPRIO)); [|done].
  apply ok_priority; [|done]. destruct Hok. lia.
Qed.

Lemma charged_ok t x : proc_ok x -> proc_ok (charged t x).
Proof. unfold charged. auto 8 with proc_ok. Qed.

Lemma switched_ok t ie x : proc_ok x -> proc_ok (switched t ie x).
Proof. unfold switched. auto 8 with proc_ok. Qed.

Lemma demoted_state x : p_state (demoted x) = p_state x.
Proof. unfold demoted. by repeat case_match. Qed.

(** [demoteProc] with the lock held. *)
Lemma wp_demoteProc p i x (Q : unit -> kst alists W -> Prop) s :
  p = Some i -> procs s !! i = Some x -> proc_ok x -> lk_held PTABLE s ->
  Q tt (set_procs (<[i := demoted x]> (procs s)) s) -> wp E (demoteProc p) Q s.
Proof.
  intros -> Hx Hp Hl HQ. unfold demoteProc. kopen s. wps. unfold demoted in HQ.
  destruct (p_budget x <=? MAXBUDG).
  { wps. by rewrite list_insert_id in HQ. }
  wps.
  destruct (Z.ltb_spec (p_priority x) (Z.of_nat MAXPRIO)); cbn iota in *; wps; kred; [|exact HQ].
  replace (u32 (p_priority x + 1)) with (p_priority x + 1); [exact HQ|].
  destruct Hp as [Hp _ _]. unfold u32, MAXPRIO in *. rewrite Z.mod_small; lia.
Qed.

Lemma wp_charge_budget i x (Q : unit -> kst alists W -> Prop) s :
  cur s = Some i -> procs s !! i = Some x ->
  Q tt (set_procs (<[i := charged (ticks s) x]> (procs s)) s) -> wp E charge_budget Q s.
Proof. intros Hc Hx HQ. unfold charge_budget. kopen s. wps. exact HQ. Qed.

(** [sched] of the process [i] that has left the running state. *)
Lemma wp_sched i x (Q : unit -> kst alists W -> Prop) s :
  cur s = Some i -> procs s !! i = Some x -> p_state x <> RUNNING -> lk_held PTABLE s ->
  ncli (kcpu s) = 1 -> fl_if (kcpu s) = false ->
  Q tt (set_procs (<[i := switched (ticks s) (intena (kcpu s)) x]> (procs s)) s) ->
  wp E sched Q s.
Proof.
  intros Hc Hx Hs Hl Hn Hf HQ. unfold sched. kopen s. wps.
  rewrite Hn. simpl. wps. rewrite bool_decide_false by done. wps. rewrite Hf. wps. exact HQ.
Qed.

End Spec.

Section Run.
Context {W : Type} {PE : ProcEnv W}.
Implicit Types s : kst alists W.

#[local] Hint Resolve demoted_ok charged_ok switched_ok : proc_ok.

(** ** [yield] *)

Definition yielded (t : Z) (ie : bool) (x : proc) : proc :=
  switched t ie (demoted (charged t (set_p_state RUNNABLE x))).

Lemma yielded_state t ie x : p_state (yielded t ie x) = RUNNABLE.
Proof. exact (demoted_state (charged t (set_p_state RUNNABLE x))). Qed.

Lemma yielded_ok t ie x : proc_ok x -> proc_ok (yielded t ie x).
Proof. intros. unfold yielded. auto 8 with proc_ok. Qed.

Lemma fits_ready x :
  p_state x = RUNNABLE -> fits x (LReady (Z.to_nat (p_priority x))).
Proof. intros Hs. unfold fits. by rewrite Hs. Qed.

Lemma table_running ps a i x :
  table_ok None ps a -> ps !! i = Some x -> p_state x = RUNNING -> i ∈ a LRunning.
Proof.
  intros Ht Hx Hst. pose proof (table_home _ _ _ _ Ht Hx) as Hh.
  unfold home in Hh. rewrite Hst in Hh. by apply Hh.
Qed.

Lemma running_in me x s : kinv s -> running me x s -> me ∈ lists s LRunning.
Proof.
  intros [Ht _ _] [_ Hx Hst]. by eapply table_running.
Qed.

Lemma intena_pushcli c : ncli c = 0 -> intena (pushcli c) = fl_if c.
Proof. unfold pushcli. simpl. by intros ->. Qed.

Lemma yield_run me x s :
  kinv s -> running me x s -> ncli (kcpu s) = 0 ->
  let y := yielded (ticks s) (fl_if (kcpu s)) x in
  let a := push me (LReady (Z.to_nat (p_priority y))) (rem me LRunning (lists s)) in
  yield s = Ok (tt, set_procs (<[me := y]> (procs s)) (set_lists a (acquired PTABLE s))) /\
  table_ok None (<[me := y]> (procs s)) a.
Proof.
  intros Hk Hr Hn y b. pose proof (running_in _ _ _ Hk Hr) as Hin.
  destruct Hk as [Ht Hl Hc], Hr as [Hcur Hx Hst].
  assert (Hp : proc_ok x) by by eapply (tb_proc _ _ _ Ht).
  assert (Hpy : proc_ok y) by by apply yielded_ok.
  split.
  2:{ eapply table_move; [done..|by apply ready_valid|]. apply fits_ready, yielded_state. }
  kopen s. apply (wp_eq yield). unfold yield. wps.
  eapply wp_remove; [done..|]. wps. eapply wp_charge_budget; [done|look|]. wps.
  eapply wp_demoteProc; [done|look|eauto 10 with proc_ok|held|]. wps.
  eapply wp_add; [done|by eapply tb_lists, table_remove| |by eapply table_lt|].
  { apply ready_valid. auto 8 with proc_ok. }
  wps. eapply wp_assertState; [done|look|apply demoted_state|]. wps.
  eapply wp_sched; [done|look|by rewrite demoted_state|held|simpl; lia|done|]. kred.
  rewrite (intena_pushcli _ Hn). unfold b, y, yielded. by rewrite switched_priority.
Qed.

(** ** [sleep] *)

Definition slept (t : Z) (ie : bool) (ch : chan) (x : proc) : proc :=
  switched t ie (demoted (charged t (set_p_state SLEEPING (set_p_chan ch x)))).

Lemma slept_state t ie ch x : p_state (slept t ie ch x) = SLEEPING.
Proof. exact (demoted_state (charged t (set_p_state SLEEPING (set_p_chan ch x)))). Qed.

Lemma slept_ok t ie ch x : proc_ok x -> proc_ok (slept t ie ch x).
Proof. intros. unfold slept. auto 8 with proc_ok. Qed.

Lemma go_to_sleep_run me x ch s :
  table_ok None (procs s) (lists s) -> running me x s -> lk_held PTABLE s ->
  ncli (kcpu s) = 1 -> fl_if (kcpu s) = false ->
  let y := slept (ticks s) (intena (kcpu s)) ch x in
  let b := push me LSleep (rem me LRunning (lists s)) in
  go_to_sleep (Some me) ch s = Ok (tt, set_procs (<[me := y]> (procs s)) (set_lists b s)) /\
  table_ok None (<[me := y]> (procs s)) b.
Proof.
  intros Ht [Hcur Hx Hst] Hl Hn Hif y b.
  assert (Hin : me ∈ lists s LRunning) by by eapply table_running.
  assert (Hp : proc_ok x) by by eapply (tb_proc _ _ _ Ht).
  split.
  2:{ eapply table_move; [done..|by apply slept_ok|done|].
      unfold fits, y. by rewrite slept_state. }
  kopen s. apply (wp_eq (go_to_sleep _ _)). unfold go_to_sleep. wps.
  eapply wp_remove; [done..|]. wps.
  eapply wp_add; [done|by eapply tb_lists, table_remove|done|by eapply table_lt|]. wps.
  eapply wp_charge_budget; [done|look|]. wps.
  eapply wp_demoteProc; [done|look|eauto 10 with proc_ok|held|]. wps.
  eapply wp_sched; [done|look|by rewrite demoted_state|held|done|done|]. kred. done.
Qed.

(** With [ptable.lock] as the caller's lock, as [wait] calls it. *)
Lemma sleep_ptable_run me x ch s :
  table_ok None (procs s) (lists s) -> running me x s -> lk_held PTABLE s ->
  ncli (kcpu s) = 1 -> fl_if (kcpu s) = false ->
  let y := slept (ticks s) (intena (kcpu s)) ch x in
  let b := push me LSleep (rem me LRunning (lists s)) in
  sleep ch (Some PTABLE) s
    = Ok (tt, set_procs (<[me := y]> (procs s)) (set_lists b s)) /\
  table_ok None (<[me := y]> (procs s)) b.
Proof.
  intros Ht Hr Hl Hn Hif y b.
  destruct (go_to_sleep_run me x ch s) as [Hg Hb]; [done..|]. split; [|done].
  destruct Hr as [Hcur _ _]. unfold sleep, mbind, M_bind, gets. rewrite Hcur.
  exact Hg.
Qed.

(** Without a lock, as the [sleep] system call and the clock use it. *)
Lemma sleep_nolock_run me x ch s :
  kinv s -> running me x s -> ncli (kcpu s) = 0 ->
  let y := slept (ticks s) (fl_if (kcpu s)) ch x in
  let b := push me LSleep (rem me LRunning (lists s)) in
  sleep ch None s
    = Ok (tt, set_procs (<[me := y]> (procs s)) (set_lists b (acquired PTABLE s))) /\
  table_ok None (<[me := y]> (procs s)) b.
Proof.
  intros [Ht Hl Hc] [Hcur Hx Hst] Hn y b.
  destruct (go_to_sleep_run me x ch (acquired PTABLE s)) as [Hg Hb].
  - done.
  - by split.
  - kopen s. by eapply lookup_set.
  - simpl. lia.
  - done.
  - simpl in Hb. rewrite Hn in Hb. split; [|done].
    apply (wp_eq (sleep _ _)). unfold sleep. apply wp_bind, wp_gets. rewrite Hcur.
    apply wp_bind. rewrite bool_decide_true by done. unfold when.
    apply wp_bind, wp_acquire; [done|]. apply wp_ret.
    eapply wp_Ok; [exact Hg|]. split; [done|]. simpl. by rewrite Hn.
Qed.

(** ** [wakeup] *)

(** The process [i] leaves the sleep list for the end of its ready list. *)
Definition wake (i : nat) s : kst alists W :=
  match procs s !! i with
  | Some x =>
      set_procs (<[i := set_p_state RUNNABLE x]> (procs s))
        (set_lists (push i (LReady (Z.to_nat (p_priority x))) (rem i LSleep (lists s))) s)
  | None => s
  end.

Definition on_chan (ch : chan) (ps : list proc) (i : nat) : bool :=
  match ps !! i with Some x => bool_decide (p_chan x = ch) | None => false end.

(** The first process of the sleep list that sleeps on [ch], woken. *)
Definition wake_first (ch : chan) s : kst alists W :=
  match List.find (on_chan ch (procs s)) (lists s LSleep) with
  | Some i => wake i s
  | None => s
  end.

Lemma table_sleeping ps a i x :
  table_ok None ps a -> ps !! i = Some x -> p_state x = SLEEPING -> i ∈ a LSleep.
Proof.
  intros Ht Hx Hst. pose proof (table_home _ _ _ _ Ht Hx) as Hh.
  unfold home in Hh. rewrite Hst in Hh. by apply Hh.
Qed.

Lemma table_asleep ps a i :
  table_ok None ps a -> i ∈ a LSleep -> exists x, ps !! i = Some x /\ p_state x = SLEEPING.
Proof.
  intros Ht Hi. destruct (table_lookup _ _ _ LSleep _ Ht eq_refl Hi) as (x & Hx & Hf).
  exists x. split; [done|]. unfold fits in Hf. destruct (p_state x); naive_solver.
Qed.

Lemma make_runnable_run i x msg s :
  table_ok None (procs s) (lists s) -> procs s !! i = Some x -> p_state x = SLEEPING ->
  make_runnable i msg s = Ok (tt, wake i s) /\
  table_ok None (procs (wake i s)) (lists (wake i s)).
Proof.
  intros Ht Hx Hst. assert (Hp : proc_ok x) by by eapply (tb_proc _ _ _ Ht).
  assert (Hin : i ∈ lists s LSleep) by by eapply table_sleeping.
  unfold wake. rewrite Hx. split.
  2:{ eapply table_move; [done..|by apply ok_state|by apply ready_valid|].
      by apply (fits_ready (set_p_state RUNNABLE x)). }
  kopen s. apply (wp_eq (make_runnable _ _)). unfold make_runnable.
  apply wp_bind. eapply wp_remove; [done..|]. wps.
  eapply wp_add; [done|by eapply tb_lists, table_remove| |by eapply table_lt|].
  { by apply (ready_valid x). }
  wps. done.
Qed.

(** The process just woken is the last of its list: the loop ends there. *)
Lemma wake_next i x s :
  table_ok None (procs s) (lists s) -> procs s !! i = Some x -> p_state x = SLEEPING ->
  liftL (sl_next i) (wake i s) = Ok (None, wake i s).
Proof.
  intros Ht Hx Hst. destruct (make_runnable_run i x "" s Ht Hx Hst) as [_ Ht'].
  assert (Hp : proc_ok x) by by eapply (tb_proc _ _ _ Ht).
  assert (Hin : i ∈ lists s LSleep) by by eapply table_sleeping.
  pose proof (tb_lists _ _ _ (table_remove _ _ LSleep _ Ht eq_refl Hin)) as Hw.
  apply (wp_eq (liftL (sl_next i))).
  eapply (wp_next None (LReady (Z.to_nat (p_priority x)))).
  - by eapply tb_lists.
  - by apply ready_valid.
  - unfold wake. rewrite Hx. simpl. unfold push. rewrite upd_eq. set_solver.
  - split; [|done]. unfold wake. rewrite Hx. simpl. unfold push. rewrite upd_eq.
    apply succ_in_app. by apply (wf_float _ _ Hw), ready_valid.
Qed.

Lemma wakeup1_loop ch s dn rest fuel :
  table_ok None (procs s) (lists s) -> lists s LSleep = dn ++ rest ->
  (length rest <= fuel)%nat ->
  for_list fuel (head rest) (fun p =>
    x ← getp (Some p);
    continue (when (bool_decide (p_chan x = ch))
      (make_runnable p "wakeup1 - remove from sleep failed"))) s
  = Ok (None, match List.find (on_chan ch (procs s)) rest with
              | Some i => wake i s
              | None => s
              end).
Proof.
  intros Ht. revert dn fuel. induction rest as [|i rest IH]; intros dn fuel Hl Hf.
  - by destruct fuel.
  - destruct fuel as [|fuel]; [simpl in Hf; lia|].
    assert (Hi : i ∈ lists s LSleep) by (rewrite Hl; set_solver).
    destruct (table_asleep _ _ _ Ht Hi) as (x & Hx & Hst).
    apply (wp_eq (for_list _ _ _)). cbn [for_list head List.find].
    unfold on_chan at 1. rewrite Hx. apply wp_bind, wp_bind.
    eapply wp_getp; [done..|]. unfold continue. apply wp_bind.
    destruct (bool_decide (p_chan x = ch)); unfold when.
    + destruct (make_runnable_run i x "wakeup1 - remove from sleep failed" s) as [Hm _]; [done..|].
      eapply wp_Ok; [exact Hm|]. apply wp_ret, wp_bind.
      eapply wp_Ok; [by apply (wake_next i x)|]. by destruct fuel.
    + apply wp_ret, wp_ret, wp_bind.
      eapply (wp_next None LSleep); [by eapply tb_lists|done..|].
      pose proof (wf_nodup _ _ (tb_lists _ _ _ Ht) LSleep eq_refl) as Hnd.
      rewrite Hl in Hnd |- *. rewrite succ_in_app.
      2:{ apply NoDup_app in Hnd as (_ & Hd & _). intros Hi'. apply (Hd i Hi'). set_solver. }
      eapply wp_Ok; [|done]. apply (IH (dn ++ [i])); [by rewrite <- app_assoc|simpl in Hf; lia].
Qed.

Lemma wakeup1_run ch s :
  table_ok None (procs s) (lists s) -> wakeup1 ch s = Ok (tt, wake_first ch s).
Proof.
  intros Ht. apply (wp_eq (wakeup1 ch)). unfold wakeup1, for_each.
  apply wp_bind, wp_bind, wp_head; [done|].
  eapply wp_Ok; [apply (wakeup1_loop ch s []); [done..|]|by apply wp_ret].
  pose proof (wf_length _ _ LSleep (tb_lists _ _ _ Ht) eq_refl). lia.
Qed.

Lemma wake_first_table ch s :
  table_ok None (procs s) (lists s) ->
  table_ok None (procs (wake_first ch s)) (lists (wake_first ch s)).
Proof.
  intros Ht. unfold wake_first. destruct (List.find _ _) as [i|] eqn:Hf; [|done].
  apply List.find_some in Hf as [Hi _]. apply list_elem_of_In in Hi.
  destruct (table_asleep _ _ _ Ht Hi) as (x & Hx & Hst).
  by eapply (make_runnable_run i x "").
Qed.

Lemma wake_first_locks ch s :
  klocks (wake_first ch s) = klocks s /\ kcpu (wake_first ch s) = kcpu s.
Proof. unfold wake_first, wake. by repeat case_match. Qed.

Lemma wakeup_run ch s :
  kinv s -> wakeup ch s = Ok (tt, set_kcpu (cpu_saved (kcpu s)) (wake_first ch s)).
Proof.
  intros [Ht Hl Hc]. apply (wp_eq (wakeup ch)). unfold wakeup.
  apply wp_bind, wp_acquire; [done|]. apply wp_bind.
  eapply wp_Ok; [by apply wakeup1_run|].
  destruct (wake_first_locks ch (acquired PTABLE s)) as [E1 E2].
  eapply wp_release; [unfold lk_held; rewrite E1, E2; kopen s; look|rewrite E2; by apply popcli_pushcli|].
  split; [done|]. rewrite E1. clear E1 E2 Hc. kopen s. unfold wake_first, wake, acquired. simpl.
  rewrite list_insert_insert_eq, (list_insert_id lks) by done.
  destruct (List.find _ _) as [i|]; [|done]. by destruct (ps !! i).
Qed.

(** Two processes asleep on the same channel: one of them stays asleep. *)
Lemma wake_first_one ch i j x y s :
  table_ok None (procs s) (lists s) -> i <> j ->
  procs s !! i = Some x -> p_state x = SLEEPING -> procs s !! j = Some y -> p_state y = SLEEPING ->
  procs (wake_first ch s) !! i = Some x \/ procs (wake_first ch s) !! j = Some y.
Proof.
  intros Ht Hne Hx Hxs Hy Hys. unfold wake_first, wake.
  destruct (List.find _ _) as [k|]; [|by left]. destruct (procs s !! k) as [z|]; [|by left].
  destruct (decide (i = k)) as [->|Hik].
  - right. by apply lookup_set_ne.
  - left. by apply lookup_set_ne.
Qed.

(** A process that is not asleep is left alone. *)
Lemma wake_first_running ch s me x : table_ok None (procs s) (lists s) -> procs s !! me = Some x -> p_state x <> SLEEPING ->
  procs (wake_first ch s) !! me = Some x.
Proof.
  intros Ht Hx Hs. unfold wake_first, wake. destruct (List.find _ _) as [i|] eqn:Hf; [|done].
  apply List.find_some in Hf as [Hi _]. apply list_elem_of_In in Hi. destruct (table_asleep _ _ _ Ht Hi) as (y & Hy & Hys).
  rewrite Hy. apply lookup_set_ne; [|done]. intros ->. congruence.
Qed.

(** Process [x] sleeps on [ch]. *)
Definition asleep_on (ch : chan) (x : proc) : Prop := p_state x = SLEEPING /\ p_chan x = ch.

#[export] Instance asleep_on_dec ch x : Decision (asleep_on ch x).
Proof. unfold asleep_on. apply _. Defined.

(** At most one process sleeps on [ch]. *)
Definition one_sleeper (ch : chan) (ps : list proc) : Prop :=
  forall i j x y, ps !! i = Some x -> asleep_on ch x -> ps !! j = Some y -> asleep_on ch y -> i = j.

(** What it is to wake all the processes that sleep on [ch]. *)
Definition awakened (ch : chan) (x : proc) : proc :=
  if decide (asleep_on ch x) then set_p_state RUNNABLE x else x.

(** The process found on the sleep list. *)
Lemma find_asleep ch s i : table_ok None (procs s) (lists s) ->
  List.find (on_chan ch (procs s)) (lists s LSleep) = Some i ->
  exists x, procs s !! i = Some x /\ asleep_on ch x.
Proof.
  intros Ht [Hi Hc]%List.find_some. apply list_elem_of_In in Hi.
  destruct (table_asleep _ _ _ Ht Hi) as (x & Hx & Hs). exists x. split; [done|]. split; [done|].
  unfold on_chan in Hc. rewrite Hx in Hc. by apply bool_decide_eq_true in Hc.
Qed.

Lemma find_sleeper ch s j y : table_ok None (procs s) (lists s) -> procs s !! j = Some y -> asleep_on ch y ->
  exists i, List.find (on_chan ch (procs s)) (lists s LSleep) = Some i.
Proof.
  intros Ht Hy [Hs Hc]. destruct (List.find _ _) as [i|] eqn:Hf; [by exists i|].
  pose proof (List.find_none _ _ Hf j) as Hn. rewrite <-list_elem_of_In in Hn. specialize (Hn (table_sleeping _ _ _ _ Ht Hy Hs)).
  unfold on_chan in Hn. rewrite Hy in Hn. by apply bool_decide_eq_false in Hn.
Qed.

(** With one sleeper, waking the first is waking all. *)
Lemma wake_first_all ch s : table_ok None (procs s) (lists s) -> one_sleeper ch (procs s) ->
  procs (wake_first ch s) = awakened ch <$> procs s.
Proof.
  intros Ht H1. apply list_eq. intros j. rewrite list_lookup_fmap. unfold wake_first, wake.
  destruct (List.find _ _) as [i|] eqn:Hf.
  - destruct (find_asleep _ _ _ Ht Hf) as (x & Hx & Hs). rewrite Hx. kproj. cbn [set_procs set_lists procs].
    destruct (decide (j = i)) as [->|Hne].
    + rewrite (lookup_set _ _ _ _ Hx), Hx. simpl. unfold awakened. by rewrite decide_True.
    + rewrite list_lookup_insert_ne by done. destruct (procs s !! j) as [y|] eqn:Hy; [|done]. simpl. f_equal.
      unfold awakened. case_decide as Hd; [|done]. destruct Hne. by eapply H1.
  - destruct (procs s !! j) as [y|] eqn:Hy; [|done]. simpl. f_equal. unfold awakened. case_decide as Hd; [|done].
    destruct (find_sleeper ch s j y Ht Hy Hd) as [i Hi]. congruence.
Qed.

Lemma wake_first_sole ch s i x : table_ok None (procs s) (lists s) -> one_sleeper ch (procs s) ->
  procs s !! i = Some x -> asleep_on ch x -> procs (wake_first ch s) !! i = Some (set_p_state RUNNABLE x).
Proof.
  intros Ht H1 Hx Hs. rewrite wake_first_all, list_lookup_fmap, Hx by done. simpl. unfold awakened. by rewrite decide_True.
Qed.

(** Waking one process leaves at most as many asleep on a channel. *)
Lemma wake_first_asleep ch ch' s j y : table_ok None (procs s) (lists s) ->
  procs (wake_first ch s) !! j = Some y -> asleep_on ch' y -> procs s !! j = Some y.
Proof.
  intros Ht. unfold wake_first, wake. destruct (List.find _ _) as [i|] eqn:Hf; [|done].
  destruct (find_asleep _ _ _ Ht Hf) as (x & Hx & _). rewrite Hx. kproj. cbn [set_procs set_lists procs].
  intros [(-> & <- & _)|[_ Hy]]%list_lookup_insert_Some; [|done]. by intros [? _].
Qed.

(** A change of the structures that does not concern sleeping. *)
Record transparent (f : proc -> proc) : Prop := {
  tr_chan x : p_chan (f x) = p_chan x;
  tr_priority x : p_priority (f x) = p_priority x;
  tr_state st x : f (set_p_state st x) = set_p_state st (f x);
}.

Lemma wake_first_lists ch s :
  lists (wake_first ch s) = match List.find (on_chan ch (procs s)) (lists s LSleep) with
    | Some i => match procs s !! i with
                | Some x => push i (LReady (Z.to_nat (p_priority x))) (rem i LSleep (lists s))
                | None => lists s
                end
    | None => lists s
    end.
Proof. unfold wake_first, wake. by repeat case_match. Qed.

(** Such a change commutes with waking. *)
Lemma wake_first_transparent ch (f : nat -> proc -> proc) s t :
  (forall j, transparent (f j)) -> lists t = lists s -> (forall j, procs t !! j = f j <$> procs s !! j) ->
  lists (wake_first ch t) = lists (wake_first ch s) /\
  forall j, procs (wake_first ch t) !! j = f j <$> procs (wake_first ch s) !! j.
Proof.
  intros Hf Hl Hp. assert (Hc : forall j, on_chan ch (procs t) j = on_chan ch (procs s) j).
  { intros j. unfold on_chan. rewrite Hp. destruct (procs s !! j); [|done]. simpl. by rewrite (tr_chan _ (Hf j)). }
  assert (He : List.find (on_chan ch (procs t)) (lists t LSleep) = List.find (on_chan ch (procs s)) (lists s LSleep)).
  { rewrite Hl. induction (lists s LSleep) as [|j l IH]; [done|]. simpl. by rewrite Hc, IH. }
  rewrite !wake_first_lists, He, Hl. unfold wake_first, wake. rewrite He. clear He Hc. destruct (List.find _ _) as [i|]; [|by split].
  rewrite Hp. destruct (procs s !! i) as [x|] eqn:Hx; [|by split]. simpl. rewrite (tr_priority _ (Hf i)). split; [done|].
  intros j. kproj. cbn [set_procs set_lists procs]. destruct (decide (j = i)) as [->|Hne].
  - rewrite (lookup_set _ _ _ _ Hx). simpl. rewrite (tr_state _ (Hf i)).
    apply list_lookup_insert_eq, lookup_lt_is_Some. by rewrite Hp, Hx.
  - by rewrite !list_lookup_insert_ne by done.
Qed.

End Run.
