(* ===== verification/ProcLife.v ===== *)
(** * The life of a process (proc.c: [allocproc], [fork], [exit], [wait])

    Specifications over the abstract lists, in the style of [ProcSpec].  The
    calls into the memory allocator, the page tables and the file system are
    those of an arbitrary [ProcEnv]; [EnvSafe E] bounds the errors they may
    stop with. *)

From stdpp Require Import base numbers list sets strings.
From S2P Require Import Prelude Strings Spinlock StateLists Proc ProcInv ProcSpec.

Open Scope Z_scope.

(** [release] of a lock that was acquired in the same routine. *)
Ltac unlock :=
  eapply wp_release;
    [held | kred; apply popcli_pushcli; eassumption |]; kred;
  try match goal with
  | H : ?lks !! ?l = Some initlock |- _ => rewrite (list_insert_id lks l initlock H)
  end.

Section Life.
Context {W : Type} {PE : ProcEnv W} {E : error -> Prop} {ES : EnvSafe (E := E)}.
Implicit Types s : kst alists W.

(** ** [allocproc] *)

(** The structure after [p->pid = nextpid++]. *)
Definition embryo (pid : Z) (x : proc) : proc :=
  set_p_pid (u32 pid) (set_p_state EMBRYO x).

(** The structure [allocproc] returns. *)
Definition allocated (pid k t : Z) (x : proc) : proc :=
  let tf := k + KSTACKSIZE - sizeof_trapframe in
  set_p_priority 0 (set_p_budget MAXBUDG (set_p_cpu_ticks_in 0 (set_p_cpu_ticks_total 0
    (set_p_start_ticks t (set_p_resume AtForkret (set_p_context (tf - 4 - sizeof_context)
      (set_p_tf tf (set_p_kstack k (embryo pid x))))))))).

(** The structure it leaves when there is no memory for the kernel stack. *)
Definition leaked (pid : Z) (x : proc) : proc :=
  set_p_state UNUSED (set_p_kstack 0 (embryo pid x)).

(** The lists after process [i] of the free list became an embryo. *)
Definition embryo_lists (i : nat) (a : alists) : alists :=
  push_front i LEmbryo (rem i LFree a).

(** The state around it: the lock is free again, the next pid is used up. *)
Definition alloc_state (ps : list proc) (b : alists) (w : W) s : kst alists W :=
  set_procs ps (set_lists b (set_kcpu (cpu_saved (kcpu s))
    (set_nextpid (s32 (nextpid s + 1)) (set_world w s)))).

Lemma free_head ps a i rest :
  table_ok None ps a -> a LFree = i :: rest ->
  exists x, ps !! i = Some x /\ p_state x = UNUSED /\ proc_ok x.
Proof.
  intros Ht Hl.
  destruct (table_lookup None ps a LFree i) as (x & Hx & Hf); [done..|rewrite Hl; set_solver|].
  exists x. split_and!; [done| |by eapply (tb_proc _ _ _ Ht)].
  unfold fits in Hf. by destruct (p_state x).
Qed.

Lemma wp_allocproc (Q : pptr -> kst alists W -> Prop) s :
  kinv s ->
  (lists s LFree = [] -> Q None (set_kcpu (cpu_saved (kcpu s)) s)) ->
  (forall i rest x k w, lists s LFree = i :: rest -> procs s !! i = Some x ->
    env_kalloc (world s) = Ok (k, w) ->
    let ps y := <[i := y]> (procs s) in
    let b := embryo_lists i (lists s) in
    if k =? 0 then Q None (alloc_state (ps (leaked (nextpid s) x)) b w s)
    else Q (Some i) (alloc_state (ps (allocated (nextpid s) k (ticks s) x)) b w s)) ->
  wp E allocproc Q s.
Proof.
  intros [Ht Hl Hc] HQ0 HQ1. kopen s. unfold allocproc, allocproc_take. wps.
  eapply wp_head; [done|]. kred. destruct (a LFree) as [|i rest] eqn:Hfree; cbn [head].
  { wps. unlock. wps. by apply HQ0. }
  destruct (free_head _ _ _ _ Ht Hfree) as (x & Hx & Hst & Hok).
  assert (Hin : i ∈ a LFree) by (rewrite Hfree; set_solver).
  wps. eapply wp_remove; [done..|]. wps.
  eapply wp_add_front; [done|by eapply tb_lists, table_remove|done|by eapply table_lt|]. wps.
  unlock. wps. eapply wp_liftW; [apply safe_kalloc|]. intros k w' Hk. wps.
  specialize (HQ1 i rest x k w' eq_refl Hx Hk). destruct (k =? 0) eqn:Hk0; wps.
  - apply Z.eqb_eq in Hk0 as ->. exact HQ1.
  - unfold allocproc_init. wps. exact HQ1.
Qed.

Lemma embryo_table ps a i rest x y :
  table_ok None ps a -> a LFree = i :: rest -> ps !! i = Some x ->
  proc_ok y -> fits y LEmbryo -> table_ok None (<[i := y]> ps) (embryo_lists i a).
Proof.
  intros Ht Hl Hx Hy Hf.
  eapply table_move_front; [done|done|done|rewrite Hl; set_solver|done..].
Qed.

Lemma allocated_ok pid k t x : proc_ok x -> proc_ok (allocated pid k t x).
Proof. intros Hok. unfold allocated, embryo, MAXPRIO. cbv zeta. eauto 15 with proc_ok lia. Qed.

(** ** [fork] *)

(** The child's [ofile]: the parent's open files over its own. *)
Definition dup_at (pf : list (option nat)) (cf : list (option nat)) (j : nat) :=
  match mjoin (pf !! j) with Some f => <[j := Some f]> cf | None => cf end.

Lemma dup_at_length pf cf j : length (dup_at pf cf j) = length cf.
Proof. unfold dup_at. destruct (mjoin (pf !! j)); [apply length_insert|done]. Qed.

Lemma dup_length pf cf js : length (foldl (dup_at pf) cf js) = length cf.
Proof.
  revert cf. induction js as [|j js IH]; intros cf; [done|]. simpl. rewrite IH.
  apply dup_at_length.
Qed.

Lemma dup_lookup pf cf n m j :
  (n <= j < n + m)%nat -> (j < length cf)%nat ->
  foldl (dup_at pf) cf (seq n m) !! j =
    match mjoin (pf !! j) with Some f => Some (Some f) | None => cf !! j end.
Proof.
  revert n cf. induction m as [|m IH]; intros n cf Hj Hl; [lia|]. simpl.
  destruct (decide (j = n)) as [->|Hne].
  - clear IH. assert (Hout : forall k cf', (n < k)%nat -> foldl (dup_at pf) cf' (seq k m) !! n = cf' !! n).
    { clear. induction m as [|m IH]; intros k cf' Hk; [done|]. simpl. rewrite IH by lia.
      unfold dup_at. destruct (mjoin _); [|done]. by rewrite list_lookup_insert_ne by lia. }
    rewrite Hout by lia. unfold dup_at. destruct (mjoin _); [|done]. by apply list_lookup_insert_eq.
  - rewrite IH; [|lia|].
    + destruct (mjoin _); [done|]. unfold dup_at. destruct (mjoin _); [|done].
      by rewrite list_lookup_insert_ne by done.
    + by rewrite dup_at_length.
Qed.

(** What happens to the files: each open one of [fs] is duplicated, in the order
    of the descriptors. *)
Fixpoint dup_open (fs : list (option nat)) (js : list nat) : M W unit :=
  match js with
  | [] => mret tt
  | j :: js =>
      match mjoin (fs !! j) with Some f => env_filedup f | None => mret tt end ;;
      dup_open fs js
  end.

(** The files and then the directory. *)
Definition inherit (fs : list (option nat)) (cw : nat) : M W unit :=
  dup_open fs (seq 0 NOFILE) ;; env_idup cw.

Lemma wp_fork_files me x i y js (Q : unit -> kst alists W -> Prop) s :
  cur s = Some me -> procs s !! me = Some x -> procs s !! i = Some y -> me <> i ->
  (forall w, dup_open (p_ofile x) js (world s) = Ok (tt, w) ->
    Q tt (set_procs (<[i := set_p_ofile (foldl (dup_at (p_ofile x)) (p_ofile y) js) y]>
    (procs s)) (set_world w s))) ->
  wp E (fork_files (Some i) js) Q s.
Proof.
  revert y s. induction js as [|j js IH]; intros y s Hc Hx Hy Hne HQ; cbn [fork_files].
  - apply wp_ret. specialize (HQ (world s) eq_refl). simpl in HQ.
    rewrite list_insert_id in HQ by (destruct y; done). by destruct s.
  - kopen s. wps. cbn [foldl dup_open] in HQ. unfold mbind, M_bind in HQ.
    destruct (mjoin (p_ofile x !! j)) as [f|] eqn:Hf.
    + wps. eapply wp_liftW; [apply safe_filedup|]. intros [] w' Hw'. kproj. cbn [world] in Hw'. rewrite Hw' in HQ. wps.
      eapply IH; [done|look|look|done|]. intros w2 Hw2. kred. cbn [p_ofile set_p_ofile].
      unfold dup_at at 2 in HQ. rewrite Hf in HQ. by apply HQ.
    + wps. apply (IH y); [done..|]. intros w2 Hw2. unfold dup_at at 2 in HQ. rewrite Hf in HQ.
      by apply HQ.
Qed.

Lemma wp_set_name p i y t (Q : unit -> kst alists W -> Prop) s :
  p = Some i -> procs s !! i = Some y -> length (p_name y) = 16%nat -> readable t 15 ->
  (forall nm, length nm = 16%nat -> cstr nm = take 15 (cstr t) ->
    Q tt (set_procs (<[i := set_p_name nm y]> (procs s)) s)) ->
  wp E (set_name p t) Q s.
Proof.
  intros -> Hy Hl Ht HQ. unfold set_name. kopen s. wps.
  destruct (safestrcpy_loop_ok (p_name y) t 15) as (r & Hr & Hlr & Hcr & _); [lia|done|].
  eapply wp_lift; [exact Hr|]. wps. apply HQ; [lia|done].
Qed.

(** What [y], the child of [me], has from its parent's structure [x]; [z] is what
    its structure was on the free list, [k] its kernel stack, [d] its page
    directory and [tk] the time. *)
Record forked (me : nat) (x z : proc) (pid k d tk : Z) (y : proc) : Prop := {
  fk_state : p_state y = RUNNABLE;
  fk_pid : p_pid y = u32 pid;
  fk_parent : p_parent y = Some me;
  fk_kstack : p_kstack y = k;
  fk_pgdir : p_pgdir y = d;
  fk_frame : p_tf y = k + KSTACKSIZE - sizeof_trapframe;
  fk_context : p_context y = k + KSTACKSIZE - sizeof_trapframe - 4 - sizeof_context;
  fk_start : p_start_ticks y = tk;
  fk_ticks : p_cpu_ticks_total y = 0;
  fk_sz : p_sz y = p_sz x;
  fk_tf : p_trapframe y = set_eax 0 (p_trapframe x);
  fk_resume : p_resume y = AtForkret;
  fk_cwd : p_cwd y = p_cwd x;
  fk_uid : p_uid y = p_uid x;
  fk_gid : p_gid y = p_gid x;
  fk_prio : p_priority y = 0;
  fk_budget : p_budget y = MAXBUDG;
  fk_ofile j f : p_ofile x !! j = Some (Some f) -> p_ofile y !! j = Some (Some f);
  fk_unopened j : p_ofile x !! j = Some None -> p_ofile y !! j = p_ofile z !! j;
  fk_name : cstr (p_name y) = take 15 (cstr (p_name x));
  fk_ok : proc_ok y;
}.

(** What of it is set before the files are duplicated. *)
Record child_of (me : nat) (x z : proc) (pid k d tk : Z) (y : proc) : Prop := {
  ch_state : p_state y = EMBRYO;
  ch_pid : p_pid y = u32 pid;
  ch_parent : p_parent y = Some me;
  ch_kstack : p_kstack y = k;
  ch_pgdir : p_pgdir y = d;
  ch_frame : p_tf y = k + KSTACKSIZE - sizeof_trapframe;
  ch_context : p_context y = k + KSTACKSIZE - sizeof_trapframe - 4 - sizeof_context;
  ch_start : p_start_ticks y = tk;
  ch_ticks : p_cpu_ticks_total y = 0;
  ch_ofile : p_ofile y = p_ofile z;
  ch_sz : p_sz y = p_sz x;
  ch_tf : p_trapframe y = set_eax 0 (p_trapframe x);
  ch_resume : p_resume y = AtForkret;
}.

(** The rest of the child's structure. *)
Definition child_final (fs : list (option nat)) (cw : nat) (nm : list Z) (x y : proc) : proc :=
  set_p_state RUNNABLE (set_p_budget MAXBUDG (set_p_priority 0 (set_p_gid (p_gid x)
    (set_p_uid (p_uid x) (set_p_name nm (set_p_cwd (Some cw) (set_p_ofile fs y))))))).

Lemma child_forked me x z pid k d tk y fs cw nm :
  child_of me x z pid k d tk y -> proc_ok y -> p_cwd x = Some cw ->
  length fs = NOFILE ->
  (forall j f, p_ofile x !! j = Some (Some f) -> fs !! j = Some (Some f)) ->
  (forall j, p_ofile x !! j = Some None -> fs !! j = p_ofile z !! j) ->
  length nm = 16%nat -> cstr nm = take 15 (cstr (p_name x)) ->
  forked me x z pid k d tk (child_final fs cw nm x y).
Proof.
  intros [] Hok Hcw Hfl Hff Hfn Hnl Hnc. assert (Hy : proc_ok (child_final fs cw nm x y)).
  { unfold child_final, MAXPRIO. eauto 12 with proc_ok lia. }
  destruct y. simpl in *. by split.
Qed.

(** The lists after process [i] of the free list became runnable. *)
Definition fork_lists (i : nat) (a : alists) : alists :=
  push i (LReady 0) (rem i LEmbryo (embryo_lists i a)).

Lemma fork_lists_at i rest a l :
  wf_lists None a -> a LFree = i :: rest -> valid_lid l = true ->
  fork_lists i a l = if decide (l = LFree) then rest
    else if decide (l = LReady 0) then a l ++ [i] else a l.
Proof.
  intros Hw Hl Hv. pose proof (wf_nodup _ _ Hw LFree eq_refl) as Hnd.
  rewrite Hl in Hnd. apply NoDup_cons in Hnd as [Hi _].
  assert (Hne : forall l', valid_lid l' = true -> l' <> LFree -> i ∉ a l').
  { intros l' Hv' Hn Hin. apply Hn, (wf_disj _ _ Hw _ _ i); [done..|]. rewrite Hl. set_solver. }
  unfold fork_lists, embryo_lists, push, push_front, rem, Abs.upd. rewrite Hl.
  assert (Hfr : filter (fun j => j <> i) (i :: rest) = rest).
  { rewrite filter_cons_False by tauto. by apply filter_ne_id. }
  destruct l as [| | | | |k]; simpl; try done.
  - rewrite filter_cons_False by tauto. by apply filter_ne_id, Hne.
  - destruct k; [|by rewrite !decide_False]. done.
Qed.

Lemma fork_table ps a i rest x y l :
  table_ok None ps a -> a LFree = i :: rest -> ps !! i = Some x -> proc_ok y ->
  valid_lid l = true -> fits y l ->
  let b := rem i LEmbryo (embryo_lists i a) in
  wf_lists (Some i) b /\
  table_ok None (<[i := y]> ps) (push i l b) /\
  table_ok None (<[i := y]> ps) (push_front i l b).
Proof.
  intros Ht Hl Hx Hy Hv Hf b.
  assert (He : table_ok None (<[i := set_p_state EMBRYO x]> ps) (embryo_lists i a)).
  { eapply embryo_table; [done..|by eapply ok_state, (tb_proc _ _ _ Ht i x)|done]. }
  assert (Hin : i ∈ embryo_lists i a LEmbryo).
  { unfold embryo_lists, push_front. rewrite upd_eq. set_solver. }
  rewrite <- (list_insert_insert_eq _ _ y (set_p_state EMBRYO x)). split_and!.
  - by eapply tb_lists, table_remove.
  - eapply table_move; [done|look|done..].
  - eapply table_move_front; [done|look|done..].
Qed.

(** Back at the head of the free list. *)
Lemma unfork_lists_at i rest a l :
  wf_lists None a -> a LFree = i :: rest -> valid_lid l = true ->
  push_front i LFree (rem i LEmbryo (embryo_lists i a)) l = a l.
Proof.
  intros Hw Hl Hv. pose proof (fork_lists_at i rest a l Hw Hl Hv) as H.
  unfold fork_lists, push in H. unfold push_front. destruct (decide (l = LFree)) as [->|Hn].
  - rewrite upd_eq, Hl. by rewrite upd_ne in H by done; rewrite H.
  - rewrite upd_ne by done. destruct (decide (l = LReady 0)) as [->|Hr].
    + rewrite upd_eq in H. by apply app_inj_2 in H as [H _].
    + by rewrite upd_ne in H by done.
Qed.

(** The entry after [copyuvm] failed. *)
Definition unforked (pid k t : Z) (z : proc) : proc :=
  set_p_state UNUSED (set_p_kstack 0 (set_p_pgdir 0 (allocated pid k t z))).

(** The outcomes of [fork], by what it gets.  No free entry. *)
Definition fork_full s (r : Z) (s' : kst alists W) : Prop :=
  r = -1 /\ procs s' = procs s /\ lists s' = lists s /\ world s' = world s /\ nextpid s' = nextpid s.

(** No memory for the kernel stack: the entry stays among the embryos. *)
Definition fork_nostack (i : nat) (z : proc) (w : W) s (r : Z) (s' : kst alists W) : Prop :=
  r = -1 /\ procs s' = <[i := leaked (nextpid s) z]> (procs s) /\
  lists s' = embryo_lists i (lists s) /\ world s' = w.

(** No memory for the copy: the stack is freed, the entry is free again. *)
Definition fork_nomemory (i : nat) (z : proc) (k : Z) (w : W) s (r : Z) (s' : kst alists W) : Prop :=
  r = -1 /\ env_kfree k w = Ok (tt, world s') /\
  procs s' = <[i := unforked (nextpid s) k (ticks s) z]> (procs s) /\
  forall l, valid_lid l = true -> lists s' l = lists s l.

(** A child, which shares the files and the directory. *)
Definition fork_done (me i : nat) (x z : proc) (cw : nat) (k d : Z) (w : W) s (r : Z) (s' : kst alists W) : Prop :=
  inherit (p_ofile x) cw w = Ok (tt, world s') /\
  exists y, r = s32 (p_pid y) /\ procs s' = <[i := y]> (procs s) /\
    forked me x z (nextpid s) k d (ticks s) y /\ lists s' = fork_lists i (lists s).

Definition fork_post (me : nat) (x : proc) (cw : nat) s (r : Z) (s' : kst alists W) : Prop :=
  kinv s' /\ cur s' = cur s /\ procs s' !! me = Some x /\
  match lists s LFree with
  | [] => fork_full s r s'
  | i :: _ =>
      nextpid s' = s32 (nextpid s + 1) /\
      exists z k w1, procs s !! i = Some z /\ env_kalloc (world s) = Ok (k, w1) /\
      if k =? 0 then fork_nostack i z w1 s r s' else
      exists d w2, env_copyuvm (p_pgdir x) (p_sz x) w1 = Ok (d, w2) /\
      if d =? 0 then fork_nomemory i z k w2 s r s'
      else fork_done me i x z cw k d w2 s r s'
  end.

Lemma fork_files_ok x y :
  proc_ok x -> proc_ok y ->
  let fs := foldl (dup_at (p_ofile x)) (p_ofile y) (seq 0 NOFILE) in
  length fs = NOFILE /\
  (forall j f, p_ofile x !! j = Some (Some f) -> fs !! j = Some (Some f)) /\
  (forall j, p_ofile x !! j = Some None -> fs !! j = p_ofile y !! j).
Proof.
  intros [_ Hx _] [_ Hy _] fs. unfold fs. rewrite dup_length. split; [done|].
  split; [intros j f Hj|intros j Hj]; pose proof (lookup_lt_Some _ _ _ Hj);
    rewrite dup_lookup by lia; by rewrite Hj.
Qed.

Lemma fork_undo me i rest x z k wc (Q : Z -> kst alists W -> Prop) s :
  kinv s -> lists s LFree = i :: rest -> procs s !! i = Some z -> cur s = Some me -> me <> i ->
  procs s !! me = Some x ->
  (forall s', kinv s' -> cur s' = cur s -> procs s' !! me = Some x -> nextpid s' = s32 (nextpid s + 1) ->
    fork_nomemory i z k wc s (-1) s' -> Q (-1) s') ->
  wp E (y ← getp (Some i);
        liftW (env_kfree (p_kstack y)) ;;
        modp (Some i) (set_p_kstack 0) ;;
        acquire_lk PTABLE ;;
        remove_or_panic LEmbryo (Some i) "fork - remove from embryo failed" ;;
        assertState (Some i) EMBRYO ;;
        modp (Some i) (set_p_state UNUSED) ;;
        liftL (stateListAddAtHead LFree (Some i)) ;;
        assertState (Some i) UNUSED ;;
        release_lk PTABLE ;;
        mret (-1)) Q
    (alloc_state (<[i := set_p_pgdir 0 (allocated (nextpid s) k (ticks s) z)]> (procs s))
      (embryo_lists i (lists s)) wc s).
Proof.
  intros [Ht Hl Hc] Hfree Hz Hcur Hne Hx HQ.
  assert (Hzok : proc_ok z) by by eapply (tb_proc _ _ _ Ht).
  assert (Hin : i ∈ embryo_lists i (lists s) LEmbryo).
  { unfold embryo_lists, push_front. rewrite upd_eq. set_solver. }
  assert (Hc3 : cpu_ok (cpu_saved (cpu_saved (kcpu s)))) by exact Hc.
  assert (Hy : proc_ok (unforked (nextpid s) k (ticks s) z)).
  { unfold unforked. eauto using allocated_ok with proc_ok. }
  kopen s. unfold alloc_state. kred. wps. eapply wp_liftW; [apply safe_kfree|]. intros [] w3 Hw3. wps.
  eapply wp_remove; [done..|]. wps.
  destruct (fork_table ps a i rest z (unforked np k tk z) LFree) as (Hw & _ & Ht');
    [done|done|done|exact Hy|done|by left|].
  eapply wp_add_front; [done|exact Hw|done|by eapply (table_lt _ ps)|]. wps.
  unlock. wps. apply HQ; [by split|done|by look|done|]. split_and!; [done|exact Hw3|done|].
  intros l Hv. eapply unfork_lists_at; [by eapply tb_lists|done|done].
Qed.

Lemma fork_run me x cw s :
  kinv s -> running me x s -> p_cwd x = Some cw -> wp E fork (fork_post me x cw s) s.
Proof.
  intros Hk [Hcur Hx Hst] Hcw. unfold fork. apply wp_bind. apply wp_allocproc; [done|..].
  { intros Hfree. apply wp_ret. destruct Hk as [Ht Hl Hc]. unfold fork_post. kopen s.
    rewrite Hfree. split_and!; [by split|done..]. }
  intros i rest z k w1 Hfree Hz Hkal. pose proof Hk as [Ht Hl Hc]. cbv zeta.
  destruct (free_head _ _ _ _ Ht Hfree) as (z' & Hz' & Hzst & Hzok). simplify_eq.
  assert (Hne : me <> i) by (intros ->; congruence). unfold fork_post. rewrite Hfree.
  destruct (k =? 0) eqn:Hk0.
  { apply wp_ret. split_and!; [split|done|by apply lookup_set_ne|done|].
    - eapply embryo_table; [done..|unfold leaked, embryo; eauto 10 with proc_ok|by right].
    - done.
    - exact Hc.
    - exists z, k, w1. by rewrite Hk0. }
  assert (Hc2 : cpu_ok (cpu_saved (kcpu s))) by exact Hc.
  assert (Hc3 : cpu_ok (cpu_saved (cpu_saved (kcpu s)))) by exact Hc.
  assert (Hin : i ∈ embryo_lists i (lists s) LEmbryo).
  { unfold embryo_lists, push_front. rewrite upd_eq. set_solver. }
  pose proof (fork_undo me i rest x z k) as Hundo.
  apply wp_bind. eapply wp_myproc; [done|by apply lookup_set_ne|].
  apply wp_bind, wp_liftW; [apply safe_copyuvm|]. intros d w2 Hd.
  apply wp_bind. eapply wp_modp; [done|by eapply lookup_set|].
  destruct (d =? 0) eqn:Hd0.
  { apply Z.eqb_eq in Hd0 as ->. unfold alloc_state in *. kproj. cbn [procs set_procs set_world world] in *.
    rewrite list_insert_insert_eq.
    apply (Hundo w2 _ s); [done..|]. intros s' H1 H2 H3 H4 H5. split_and!; [done..|].
    exists z, k, w1. split_and!; [done..|]. rewrite Hk0. by exists 0, w2. }
  pose proof (tb_proc _ _ _ Ht _ _ Hx) as Hxok. kopen s. unfold alloc_state in *. kred.
  wps. set (y0 := set_p_trapframe _ _).
  assert (Hy0 : child_of me x z np k d tk y0 /\ proc_ok y0).
  { split; [by split|]. unfold y0. eauto 6 using allocated_ok with proc_ok. }
  revert Hy0. generalize y0. clear y0. intros y0 [Hch Hok0].
  eapply wp_fork_files; [done|look|look|done|]. intros w3 Hw3. kred. rewrite Hcw. wps.
  eapply wp_liftW; [apply safe_idup|]. intros [] w4 Hw4. wps.
  destruct (fork_files_ok x y0 Hxok Hok0) as (Hfl & Hff & Hfn). assert (Hfz : forall j, p_ofile x !! j = Some None -> foldl (dup_at (p_ofile x)) (p_ofile y0) (seq 0 NOFILE) !! j = p_ofile z !! j)
    by (rewrite <- (ch_ofile _ _ _ _ _ _ _ _ Hch); exact Hfn).
  eapply wp_set_name; [done|look|eapply ok_name_length; eauto 10 with proc_ok| |].
  { right. rewrite (ok_name_length x) by done. lia. }
  intros nm Hnl Hnc. wps.
  eapply wp_remove; [done..|]. wps.
  eapply wp_assertState;
    [done|look|pose proof (ch_state _ _ _ _ _ _ _ _ Hch) as Hy; clear -Hy; by destruct y0|]. wps.
  change (set_p_state RUNNABLE _) with (child_final (foldl (dup_at (p_ofile x)) (p_ofile y0)
    (seq 0 NOFILE)) cw nm x y0).
  pose proof (child_forked me x z np k d tk y0 _ cw nm Hch Hok0 Hcw Hfl Hff Hfz Hnl Hnc) as Hfk.
  set (y := child_final _ _ _ _ _) in *.
  destruct (fork_table ps a i rest z y (LReady 0)) as (Hw & Ht' & _);
    [done|done|done|apply Hfk|done|reflexivity|].
  eapply wp_add; [done|exact Hw|done|by eapply (table_lt _ ps)|]. wps.
  unlock. wps. split_and!; [by split|done|by look|done|].
  exists z, k, w1. split_and!; [done..|]. rewrite Hk0. exists d, w2. split; [done|]. rewrite Hd0.
  split; [unfold inherit, mbind, M_bind; cbn [world] in Hw3; by rewrite Hw3|]. exists y. split; [unfold y; clear; by destruct y0|]. by split_and!.
Qed.

End Life.
