(* ===== verification/ProcExit.v ===== *)
(** * [exit] and [wait] (proc.c)

    Specifications over the abstract lists: an exiting process becomes a
    zombie whose children belong to init, and wakes its parent; a waiting parent releases the first
    of its zombies, sleeps while it has children that run, and returns -1
    otherwise. *)

From stdpp Require Import base numbers list sets strings.
From S2P Require Import Prelude Strings Spinlock StateLists Proc ProcInv ProcSpec ProcLife.

Open Scope Z_scope.

Section Exit.
Context {W : Type} {PE : ProcEnv W} {E : error -> Prop} {ES : EnvSafe (E := E)}.
Implicit Types s t : kst alists W.

(** ** Closing the files *)

Definition closed (fds : list nat) (fs : list (option nat)) : list (option nat) :=
  foldl (fun fs fd => <[fd := None]> fs) fs fds.

Lemma closed_length fds fs : length (closed fds fs) = length fs.
Proof.
  revert fs. induction fds as [|fd fds IH]; intros fs; [done|]. cbn [closed foldl].
  unfold closed in IH. rewrite IH. apply length_insert.
Qed.

Lemma closed_frame n m j fs : (j < n)%nat -> closed (seq n m) fs !! j = fs !! j.
Proof.
  revert n fs. induction m as [|m IH]; intros n fs Hj; [done|]. cbn [seq closed foldl].
  unfold closed in IH. rewrite IH by lia. by rewrite list_lookup_insert_ne by lia.
Qed.

Lemma closed_None n m fs j f :
  (n <= j < n + m)%nat -> closed (seq n m) fs !! j = Some f -> f = None.
Proof.
  revert n fs. induction m as [|m IH]; intros n fs Hj Hf; [lia|].
  destruct (decide (j = n)) as [->|Hne].
  - assert (Hl : (n < length (<[n := None]> fs))%nat).
    { apply lookup_lt_Some in Hf. rewrite closed_length in Hf. by rewrite length_insert. }
    cbn [seq closed foldl] in Hf. unfold closed in *. pose proof (closed_frame (S n) m n) as Hfr.
    unfold closed in Hfr. rewrite Hfr in Hf by lia. rewrite length_insert in Hl.
    rewrite list_lookup_insert_eq in Hf by done. congruence.
  - eapply (IH (S n)); [lia|exact Hf].
Qed.

(** What happens to the files: each open one of [fs] is closed, in the order of
    the descriptors. *)
Fixpoint close_open (fs : list (option nat)) (js : list nat) : M W unit :=
  match js with
  | [] => mret tt
  | j :: js =>
      match mjoin (fs !! j) with Some f => env_fileclose f | None => mret tt end ;;
      close_open fs js
  end.

(** The files, and then the directory, in a transaction. *)
Definition leave (fs : list (option nat)) (cw : nat) : M W unit :=
  close_open fs (seq 0 NOFILE) ;;
  env_begin_op ;;
  env_iput cw ;;
  env_end_op.

Lemma close_open_insert fs fd o js : fd ∉ js -> close_open (<[fd := o]> fs) js = close_open fs js.
Proof.
  induction js as [|j js IH]; [done|]. intros [Hj Hn]%not_elem_of_cons. cbn [close_open].
  by rewrite list_lookup_insert_ne, IH by done.
Qed.

Lemma wp_close_files me x fds (Q : unit -> kst alists W -> Prop) s :
  cur s = Some me -> procs s !! me = Some x -> NoDup fds ->
  (forall w, close_open (p_ofile x) fds (world s) = Ok (tt, w) ->
    Q tt (set_procs (<[me := set_p_ofile (closed fds (p_ofile x)) x]> (procs s)) (set_world w s))) ->
  wp E (close_files fds) Q s.
Proof.
  revert x s. induction fds as [|fd fds IH]; intros x s Hc Hx Hnd HQ; cbn [close_files].
  - apply wp_ret. specialize (HQ (world s) eq_refl). cbn [closed foldl] in HQ. simpl in HQ.
    rewrite list_insert_id in HQ by (destruct x; done). by destruct s.
  - apply NoDup_cons in Hnd as [Hfd Hnd]. kopen s. wps. cbn [closed foldl close_open] in HQ. unfold mbind, M_bind in HQ.
    destruct (mjoin (p_ofile x !! fd)) as [f|] eqn:Hf.
    + wps. eapply wp_liftW; [apply safe_fileclose|]. intros [] w' Hw'. cbn [world] in Hw'. rewrite Hw' in HQ. wps.
      eapply IH; [done|look|done|]. intros w2 Hw2. kred. cbn [p_ofile set_p_ofile world] in Hw2 |- *.
      rewrite close_open_insert in Hw2 by done. by apply HQ.
    + wps. apply (IH x); [done..|]. intros w2 Hw2.
      assert (Hid : <[fd := None]> (p_ofile x) = p_ofile x).
      { destruct (p_ofile x !! fd) as [o|] eqn:Ho.
        - destruct o; [done|]. by apply list_insert_id.
        - apply list_insert_ge. by apply lookup_ge_None. }
      rewrite Hid in HQ. by apply HQ.
Qed.

(** ** Handing the children to init *)

(** Process [j] is a child of [me]. *)
Definition kid (me : nat) (ps : list proc) (j : nat) : bool :=
  match ps !! j with Some y => bool_decide (p_parent y = Some me) | None => false end.

(** A child of [me] becomes one of [i0]. *)
Definition handed (me i0 : nat) (y : proc) : proc :=
  if decide (p_parent y = Some me) then set_p_parent (Some i0) y else y.

Lemma handed_transparent me i0 : transparent (handed me i0).
Proof.
  split; unfold handed; intros; repeat case_decide; try done.
Qed.

Lemma handed_ok me i0 y : proc_ok y -> proc_ok (handed me i0 y).
Proof. unfold handed. case_decide; eauto with proc_ok. Qed.

Lemma handed_idem me i0 y : me <> i0 -> handed me i0 (handed me i0 y) = handed me i0 y.
Proof.
  intros Hne. unfold handed. destruct (decide (p_parent y = Some me)); [|by rewrite decide_False].
  rewrite decide_False; [done|]. simpl. congruence.
Qed.

(** Several calls of [wakeup1]. *)
Fixpoint wakes (n : nat) (ch : chan) s : kst alists W :=
  match n with
  | O => s
  | S n => wake_first ch (wakes n ch s)
  end.

Lemma wakes_table n ch s :
  table_ok None (procs s) (lists s) -> table_ok None (procs (wakes n ch s)) (lists (wakes n ch s)).
Proof. induction n as [|n IH]; [done|]. intros Ht. by apply wake_first_table, IH. Qed.

Lemma wakes_transparent n ch (f : nat -> proc -> proc) s t :
  (forall j, transparent (f j)) -> lists t = lists s -> (forall j, procs t !! j = f j <$> procs s !! j) ->
  lists (wakes n ch t) = lists (wakes n ch s) /\
  forall j, procs (wakes n ch t) !! j = f j <$> procs (wakes n ch s) !! j.
Proof.
  intros Hf Hl Hp. induction n as [|n [IH1 IH2]]; [done|]. by apply wake_first_transparent.
Qed.

(** Waking changes only the process lists, and of those only the sleep list and
    the ready lists. *)
Lemma wake_first_rest ch s ps b : set_procs ps (set_lists b (wake_first ch s)) = set_procs ps (set_lists b s).
Proof. unfold wake_first, wake. by repeat case_match. Qed.

Lemma wake_first_list ch s l :
  l <> LSleep -> (forall i, l <> LReady i) -> lists (wake_first ch s) l = lists s l.
Proof.
  intros H1 H2. rewrite wake_first_lists. repeat case_match; try done. unfold push, rem.
  by rewrite !upd_ne by done.
Qed.

Lemma wakes_list n ch s l :
  l <> LSleep -> (forall i, l <> LReady i) -> lists (wakes n ch s) l = lists s l.
Proof. intros H1 H2. induction n as [|n IH]; [done|]. simpl. by rewrite wake_first_list. Qed.

(** Nor does it change whose child a process is. *)
Lemma kid_wake_first me ch s j : kid me (procs (wake_first ch s)) j = kid me (procs s) j.
Proof.
  unfold wake_first, wake. destruct (List.find _ _) as [i|]; [|done].
  destruct (procs s !! i) as [x|] eqn:Hx; [|done]. unfold kid. kproj. cbn [set_procs set_lists procs].
  destruct (decide (j = i)) as [->|Hne]; [by rewrite (lookup_set _ _ _ _ Hx), Hx|].
  by rewrite list_lookup_insert_ne by done.
Qed.

Lemma kid_wakes me n ch s j : kid me (procs (wakes n ch s)) j = kid me (procs s) j.
Proof. induction n as [|n IH]; [done|]. simpl. by rewrite kid_wake_first. Qed.

(** Process [j] when the processes [D] have been visited. *)
Definition visit (me i0 : nat) (D : list nat) (j : nat) (y : proc) : proc :=
  if decide (j ∈ D) then handed me i0 y else y.

Lemma visit_transparent me i0 D j : transparent (visit me i0 D j).
Proof. unfold visit. case_decide; [apply handed_transparent|by split]. Qed.

(** The state while [me] hands its children to [i0], from the state [s]: the
    processes [D] are visited and init was woken [n] times. *)
Record handing (me i0 : nat) s (D : list nat) (n : nat) t : Prop := {
  hd_table : table_ok None (procs t) (lists t);
  hd_rest : set_procs (procs s) (set_lists (lists s) t) = s;
  hd_lists : lists t = lists (wakes n (CProc i0) s);
  hd_procs j : procs t !! j = visit me i0 D j <$> procs (wakes n (CProc i0) s) !! j;
}.

Lemma handing_start me i0 s : table_ok None (procs s) (lists s) -> handing me i0 s [] 0 s.
Proof.
  intros Ht. split; [done|by destruct s|done|]. intros j. simpl. by destruct (procs s !! j).
Qed.

Lemma handing_cur me i0 s D n t : handing me i0 s D n t -> cur t = cur s /\ initproc t = initproc s.
Proof. intros H. split; [exact (f_equal cur (hd_rest _ _ _ _ _ _ H))|exact (f_equal initproc (hd_rest _ _ _ _ _ _ H))]. Qed.

(** The next process [j]: its parent becomes init if it is [me]. *)
Lemma handing_visit me i0 s D n j y t :
  me <> i0 -> handing me i0 s D n t -> procs t !! j = Some y ->
  handing me i0 s (D ++ [j]) n (set_procs (<[j := handed me i0 y]> (procs t)) t).
Proof.
  intros Hne [Ht Hr Hl Hp] Hy. set (ps := <[j := _]> _). split; change (procs (set_procs ps t)) with ps; [|done|done|]; unfold ps; clear ps.
  - eapply table_frame; [done..|by eapply handed_ok, (tb_proc _ _ _ Ht)|by unfold handed; case_decide|by unfold handed; case_decide].
  - intros k. destruct (decide (k = j)) as [->|Hkj].
    + rewrite (lookup_set _ _ _ _ Hy). specialize (Hp j). rewrite Hy in Hp. symmetry in Hp.
      apply fmap_Some in Hp as (z & -> & ->). simpl. f_equal. unfold visit.
      rewrite (decide_True (P := j ∈ D ++ [j])) by (apply elem_of_app; right; left).
      destruct (decide (j ∈ D)); [by apply handed_idem|done].
    + rewrite list_lookup_insert_ne, Hp by done. destruct (procs _ !! k); [|done]. simpl. f_equal. unfold visit.
      destruct (decide (k ∈ D)) as [Hk|Hk]; [rewrite decide_True; [done|]|rewrite decide_False; [done|]];
        rewrite elem_of_app, list_elem_of_singleton; tauto.
Qed.

Lemma handing_skip me i0 s D n j y t :
  handing me i0 s D n t -> procs t !! j = Some y -> p_parent y <> Some me ->
  me <> i0 -> handing me i0 s (D ++ [j]) n t.
Proof.
  intros Hh Hy Hp Hne. pose proof (handing_visit me i0 s D n j y t Hne Hh Hy) as H.
  unfold handed in H. rewrite decide_False, list_insert_id in H by done. by destruct t.
Qed.

Lemma handing_wake me i0 s D n t : handing me i0 s D n t -> handing me i0 s D (S n) (wake_first (CProc i0) t).
Proof.
  intros [Ht Hr Hl Hp].
  destruct (wake_first_transparent (CProc i0) (visit me i0 D) (wakes n (CProc i0) s) t) as [H1 H2];
    [intros j; apply visit_transparent|done..|].
  split; [by apply wake_first_table|by rewrite wake_first_rest|done|done].
Qed.

(** Whether the next process is a child. *)
Lemma handing_kid me i0 s D n j y t : handing me i0 s D n t -> procs t !! j = Some y -> j ∉ D ->
  kid me (procs s) j = bool_decide (p_parent y = Some me).
Proof.
  intros [_ _ _ Hp] Hy Hj. rewrite <- (kid_wakes me n (CProc i0)). specialize (Hp j). rewrite Hy in Hp. symmetry in Hp.
  apply fmap_Some in Hp as (z & Hz & ->). unfold kid, visit. by rewrite Hz, decide_False.
Qed.

(** One of the loops over a list, with what it does for each child besides, which
    wakes init [k] times. *)
Lemma wp_reparent_list me i0 s D n k l xs (m : M (kst alists W) unit)
    (Q : option unit -> kst alists W -> Prop) t :
  cur s = Some me -> initproc s = Some i0 -> valid_lid l = true -> me <> i0 -> handing me i0 s D n t ->
  (forall c, lists (wakes (n + k * c) (CProc i0) s) l = xs) ->
  k = 0%nat \/ NoDup (D ++ xs) ->
  (forall D' c u, handing me i0 s D' c u -> exists u', m u = Ok (tt, u') /\ handing me i0 s D' (c + k) u') ->
  (forall u, handing me i0 s (D ++ xs) (n + k * length (List.filter (kid me (procs s)) xs)) u -> Q None u) ->
  wp E (for_each l (reparent m)) Q t.
Proof.
  intros Hcur Hin Hv Hne Hh Hl Hnd Hm HQ.
  apply (wp_for_each l xs _ (fun dn u => handing me i0 s (D ++ dn) (n + k * length (List.filter (kid me (procs s)) dn)) u)).
  - done.
  - by eapply tb_lists, hd_table.
  - rewrite (hd_lists _ _ _ _ _ _ Hh). specialize (Hl 0%nat). by rewrite Nat.mul_0_r, Nat.add_0_r in Hl.
  - by rewrite app_nil_r, Nat.mul_0_r, Nat.add_0_r.
  - intros dn j rest u Hxs Hu. unfold reparent. destruct (handing_cur _ _ _ _ _ _ Hu) as [Hc Hi].
    assert (Hul : forall D' c u', handing me i0 s D' (n + k * c) u' -> lists u' l = xs).
    { intros D' c u' Hu'. rewrite (hd_lists _ _ _ _ _ _ Hu'). apply Hl. }
    assert (Hj : j ∈ lists u l) by (rewrite (Hul _ _ _ Hu), Hxs; set_solver).
    destruct (table_lookup _ _ _ l j (hd_table _ _ _ _ _ _ Hu) Hv Hj) as (y & Hy & _).
    assert (Hcount : k = 0%nat \/ kid me (procs s) j = bool_decide (p_parent y = Some me)).
    { destruct Hnd as [?|Hnd]; [by left|right]. eapply handing_kid; [exact Hu|done|].
      rewrite Hxs, app_assoc in Hnd. apply NoDup_app in Hnd as (_ & Hd & _). intros Hjd. apply (Hd j Hjd). set_solver. }
    rewrite List.filter_app, length_app, app_assoc. cbn [List.filter].
    apply wp_bind. eapply wp_getp; [done|exact Hy|]. apply wp_bind, wp_gets. rewrite Hc, Hcur.
    unfold continue. apply wp_bind, wp_when; intros Hb.
    + apply wp_bind, wp_gets. rewrite Hi, Hin. apply wp_bind. eapply wp_modp; [done|exact Hy|].
      pose proof (handing_visit _ _ _ _ _ _ _ _ Hne Hu Hy) as Hu1. unfold handed in Hu1.
      rewrite decide_True in Hu1 by by apply bool_decide_eq_true in Hb.
      destruct (Hm _ _ _ Hu1) as (u' & Hmu & Hu'). eapply wp_Ok; [exact Hmu|]. apply wp_ret.
      rewrite Hb in Hcount. split; [by eapply tb_lists, hd_table|]. split.
      { apply (Hul (( D ++ dn) ++ [j]) (S (length (List.filter (kid me (procs s)) dn)))).
        by replace (n + k * S _)%nat with (n + k * length (List.filter (kid me (procs s)) dn) + k)%nat by lia. }
      refine (eq_ind _ (fun c => handing me i0 s _ c _) Hu' _ _). destruct Hcount as [-> | ->]; simpl; lia.
    + apply wp_ret. assert (Hu' := handing_skip _ _ _ _ _ _ _ _ Hu Hy (bool_decide_eq_false_1 _ Hb) Hne).
      split; [by eapply tb_lists, hd_table|]. split; [by eapply Hul|]. rewrite Hb in Hcount.
      refine (eq_ind _ (fun c => handing me i0 s _ c _) Hu' _ _). destruct Hcount as [-> | ->]; simpl; lia.
  - intros u Hu. by apply HQ.
Qed.

Lemma wp_reparent_pure me i0 s D n l (Q : option unit -> kst alists W -> Prop) t :
  cur s = Some me -> initproc s = Some i0 -> valid_lid l = true -> me <> i0 -> handing me i0 s D n t ->
  (forall u, handing me i0 s (D ++ lists (wakes n (CProc i0) s) l) n u -> Q None u) ->
  wp E (for_each l (reparent (mret tt))) Q t.
Proof.
  intros Hc Hi Hv Hne Hh HQ.
  apply (wp_reparent_list me i0 s D n 0 l (lists (wakes n (CProc i0) s) l)); [done..| |by left| |].
  - intros c. by rewrite Nat.mul_0_l, Nat.add_0_r.
  - intros D' c u Hu. exists u. by rewrite Nat.add_0_r.
  - by rewrite Nat.mul_0_l, Nat.add_0_r.
Qed.

(** The members of the lists [reparent_all] visits. *)
Definition visited (a : alists) : list nat :=
  a LEmbryo ++ concat (map (fun i => a (LReady i)) (seq 0 (S MAXPRIO)))
  ++ a LRunning ++ a LSleep ++ a LZombie.

Lemma visited_elem a l i : valid_lid l = true -> l <> LFree -> i ∈ a l -> i ∈ visited a.
Proof.
  intros Hv Hl Hi. unfold visited. rewrite !elem_of_app. destruct l as [| | | | |k]; try tauto.
  right. left. apply list_elem_of_In, List.in_concat. exists (a (LReady k)).
  split; [|by apply list_elem_of_In]. apply List.in_map_iff. exists k. split; [done|].
  apply List.in_seq. simpl in Hv. apply Nat.leb_le in Hv. lia.
Qed.

Lemma visited_spec a i : wf_lists None a -> (i < NPROC)%nat -> i ∈ visited a <-> i ∉ a LFree.
Proof.
  intros Hw Hi. split.
  - intros Hv Hf. assert (exists l, valid_lid l = true /\ l <> LFree /\ i ∈ a l) as (l & Hl & Hn & Hin);
      [|by apply Hn, (wf_disj _ _ Hw _ _ i)].
    unfold visited in Hv. rewrite !elem_of_app in Hv.
    destruct Hv as [H|[H|[H|[H|H]]]]; [by exists LEmbryo| |by exists LRunning|by exists LSleep|by exists LZombie].
    apply list_elem_of_In, List.in_concat in H as (l & Hl & H). apply List.in_map_iff in Hl as (k & <- & Hk%List.in_seq).
    exists (LReady k). split_and!; [apply Nat.leb_le; lia|done|by apply list_elem_of_In].
  - intros Hf. destruct (wf_cover _ _ Hw i) as (l & Hv & Hin); [done..|]. eapply visited_elem; [done| |done]. by intros ->.
Qed.

(** The lists before the zombies. *)
Definition visited_alive (a : alists) : list nat :=
  ((a LEmbryo ++ concat (map (fun i => a (LReady i)) (seq 0 (S MAXPRIO)))) ++ a LRunning) ++ a LSleep.

Lemma visited_split a : visited a = visited_alive a ++ a LZombie.
Proof. unfold visited, visited_alive. by rewrite !app_assoc. Qed.

Lemma NoDup_concat_disj {A} (ls : list (list A)) :
  (forall l, l ∈ ls -> NoDup l) ->
  (forall i j l l' x, ls !! i = Some l -> ls !! j = Some l' -> x ∈ l -> x ∈ l' -> i = j) -> NoDup (concat ls).
Proof.
  induction ls as [|l ls IH]; intros H1 H2; simpl; [constructor|]. apply NoDup_app. split_and!.
  - apply H1. left.
  - intros x Hx Hc. apply list_elem_of_In, List.in_concat in Hc as (l' & Hl' & Hx'). apply list_elem_of_In in Hl', Hx'.
    apply list_elem_of_lookup in Hl' as [k Hk]. by pose proof (H2 0%nat (S k) l l' x eq_refl Hk Hx Hx').
  - apply IH; [intros l' Hl'; apply H1; by right|]. intros i j l1 l2 x Hi Hj Hx1 Hx2.
    by pose proof (H2 (S i) (S j) l1 l2 x Hi Hj Hx1 Hx2) as [= ->].
Qed.

Lemma visited_nodup a : wf_lists None a -> NoDup (visited a).
Proof.
  intros Hw. set (ids := LEmbryo :: (LReady <$> seq 0 (S MAXPRIO)) ++ [LRunning; LSleep; LZombie]).
  assert (Hids : NoDup ids) by (by refine (bool_decide_eq_true_1 _ _); vm_compute).
  assert (Hval : forall l, l ∈ ids -> valid_lid l = true).
  { apply Forall_forall. by refine (bool_decide_eq_true_1 _ _); vm_compute. }
  replace (visited a) with (concat (a <$> ids)).
  2:{ unfold ids, visited. simpl. by rewrite !app_nil_r, <-?app_assoc. }
  apply NoDup_concat_disj.
  - intros l (k & -> & Hk)%list_elem_of_fmap. apply (wf_nodup _ _ Hw), Hval. done.
  - intros i j l l' x Hi Hj Hx Hx'. rewrite list_lookup_fmap in Hi, Hj.
    apply fmap_Some in Hi as (k & Hk & ->). apply fmap_Some in Hj as (k' & Hk' & ->).
    assert (k = k') as <-; [|by eapply NoDup_lookup].
    by apply (wf_disj _ _ Hw _ _ x); [apply Hval; eapply list_elem_of_lookup_2|apply Hval; eapply list_elem_of_lookup_2|..].
Qed.

(** The number of times init is told of an orphan that is a zombie. *)
Definition orphan_zombies (me : nat) s : nat := length (List.filter (kid me (procs s)) (lists s LZombie)).

Lemma wp_reparent_all me i0 s (Q : unit -> kst alists W -> Prop) :
  cur s = Some me -> initproc s = Some i0 -> me <> i0 -> table_ok None (procs s) (lists s) ->
  (forall u, handing me i0 s (visited (lists s)) (orphan_zombies me s) u -> Q tt u) ->
  wp E reparent_all Q s.
Proof.
  intros Hc Hi Hne Ht HQ. pose proof (handing_start me i0 s Ht) as Hh. unfold reparent_all.
  apply wp_bind, (wp_reparent_pure me i0 s [] 0 LEmbryo); [done..|]. intros u1 Hu1.
  cbn [app wakes] in Hu1. apply wp_bind. unfold for_ready.
  apply (wp_for_index _ (fun i u =>
    handing me i0 s (lists s LEmbryo ++ concat (map (fun i => lists s (LReady i)) (seq 0 i))) 0 u)).
  { by rewrite app_nil_r. }
  { intros i u Hi' Hu. eapply (wp_reparent_pure me i0 s _ 0 (LReady i)); [done|done| |done|exact Hu|].
    { apply Nat.leb_le. lia. }
    intros u' Hu'. rewrite seq_S, map_app, concat_app. simpl. by rewrite app_nil_r, app_assoc. }
  intros u2 Hu2. rewrite Nat.add_0_l in Hu2.
  apply wp_bind. eapply (wp_reparent_pure me i0 s _ 0 LRunning); [done..|exact Hu2|]. intros u3 Hu3.
  apply wp_bind. eapply (wp_reparent_pure me i0 s _ 0 LSleep); [done..|exact Hu3|]. intros u4 Hu4.
  cbn [wakes] in Hu4. change (_ ++ lists s LSleep) with (visited_alive (lists s)) in Hu4.
  apply wp_bind. eapply (wp_reparent_list me i0 s _ 0 1 LZombie (lists s LZombie)); [done..|exact Hu4| | | |].
  - intros c. by rewrite wakes_list.
  - right. rewrite <-visited_split. by eapply visited_nodup, tb_lists.
  - intros D' c u Hu. destruct (handing_cur _ _ _ _ _ _ Hu) as [_ Hiu].
    exists (wake_first (CProc i0) u). split; [|rewrite Nat.add_1_r; by apply handing_wake].
    unfold mbind, M_bind, gets. rewrite Hiu, Hi. by apply wakeup1_run, (hd_table _ _ _ _ _ _ Hu).
  - intros u5 Hu5. apply wp_ret, HQ. by rewrite <-visited_split, Nat.mul_1_l in Hu5.
Qed.

(** ** [exit] *)

(** The structure of a process whose files and directory are closed. *)
Definition left_files (x : proc) : proc := set_p_cwd None (set_p_ofile (closed (seq 0 NOFILE) (p_ofile x)) x).

Lemma left_files_transparent : transparent left_files.
Proof. by split. Qed.

Lemma left_files_ok x : proc_ok x -> proc_ok (left_files x).
Proof.
  intros Hok. assert (Hl : length (p_ofile x) = NOFILE) by apply Hok.
  apply ok_cwd, ok_ofile; [by rewrite closed_length|done].
Qed.

(** The structure of an exited process: a zombie without files or directory,
    which keeps the stack and the memory that [wait] frees. *)
Definition zombie_of (me i0 : nat) (t : Z) (ie : bool) (x : proc) : proc :=
  switched t ie (set_p_state ZOMBIE (handed me i0 (left_files x))).

Record exited (x z : proc) : Prop := {
  ex_state : p_state z = ZOMBIE;
  ex_pid : p_pid z = p_pid x;
  ex_kstack : p_kstack z = p_kstack x;
  ex_pgdir : p_pgdir z = p_pgdir x;
  ex_cwd : p_cwd z = None;
  ex_ofile j f : p_ofile z !! j = Some f -> f = None;
}.

Lemma zombie_exited me i0 x tk ie : proc_ok x -> exited x (zombie_of me i0 tk ie x).
Proof.
  intros Hok. assert (Hl : length (p_ofile x) = NOFILE) by apply Hok.
  split; try (unfold zombie_of, handed; by case_decide). intros j f Hf.
  assert (Hf' : closed (seq 0 NOFILE) (p_ofile x) !! j = Some f) by (revert Hf; unfold zombie_of, handed; by case_decide).
  eapply (closed_None 0 NOFILE); [|exact Hf']. apply lookup_lt_Some in Hf'. rewrite closed_length in Hf'. lia.
Qed.

(** The end of [exit], once the children are handed over. *)
Lemma wp_exit_tail me v (Q : unit -> kst alists W -> Prop) t :
  table_ok None (procs t) (lists t) -> cur t = Some me -> procs t !! me = Some v -> p_state v = RUNNING ->
  lk_held PTABLE t -> ncli (kcpu t) = 1 -> fl_if (kcpu t) = false ->
  (let z := switched (ticks t) (intena (kcpu t)) (set_p_state ZOMBIE v) in
   let b := push me LZombie (rem me LRunning (lists t)) in
   table_ok None (<[me := z]> (procs t)) b ->
   Q tt (set_procs (<[me := z]> (procs t)) (set_lists b t))) ->
  wp E (remove_or_panic LRunning (Some me) "exit - remove from running failed\n" ;;
        assertState (Some me) RUNNING ;;
        modp (Some me) (set_p_state ZOMBIE) ;;
        liftL (stateListAdd LZombie (Some me)) ;;
        assertState (Some me) ZOMBIE ;;
        sched) Q t.
Proof.
  intros Ht Hcur Hv Hst Hh Hn Hif HQ.
  assert (Hrun : me ∈ lists t LRunning) by by eapply table_running.
  assert (Hok : proc_ok v) by by eapply (tb_proc _ _ _ Ht).
  kopen t. apply wp_bind. eapply wp_remove; [done..|]. wps.
  eapply wp_add; [done|by eapply tb_lists, table_remove|done|by eapply table_lt|]. wps.
  eapply wp_sched; [done|look|done|held|done|done|]. kred. apply HQ.
  eapply table_move; [done..| |done|done]. unfold switched. eauto 8 with proc_ok.
Qed.

(** [exit] wakes the parent, and init once for each zombie it takes over. *)
Definition exit_wakes (me i0 : nat) (x : proc) s : kst alists W :=
  wakes (orphan_zombies me s) (CProc i0) (wake_first (chan_of (p_parent x)) s).

(** The state [exit] leaves, in full. *)
Record exit_exact (me i0 : nat) (x : proc) (cw : nat) s s' : Prop := {
  ee_table : table_ok None (procs s') (lists s');
  ee_lock : lk_held PTABLE s';
  ee_world : leave (p_ofile x) cw (world s) = Ok (tt, world s');
  ee_lists : lists s' = push me LZombie (rem me LRunning (lists (exit_wakes me i0 x s)));
  ee_me : procs s' !! me = Some (zombie_of me i0 (ticks s) (fl_if (kcpu s)) x);
  ee_procs j : j <> me -> procs s' !! j =
    (fun y => if decide (j ∈ lists s LFree) then y else handed me i0 y) <$> procs (exit_wakes me i0 x s) !! j;
}.

Lemma wakes_running n ch s me x : table_ok None (procs s) (lists s) -> procs s !! me = Some x -> p_state x <> SLEEPING ->
  procs (wakes n ch s) !! me = Some x.
Proof.
  intros Ht Hx Hs. induction n as [|n IH]; [done|]. simpl. by apply wake_first_running; [apply wakes_table|..].
Qed.

Lemma exit_wakes_table me i0 x s : table_ok None (procs s) (lists s) ->
  table_ok None (procs (exit_wakes me i0 x s)) (lists (exit_wakes me i0 x s)).
Proof. intros Ht. by apply wakes_table, wake_first_table. Qed.

(** The same when the caller's files are already closed. *)
Lemma exit_wakes_left me i0 x s t : procs s !! me = Some x -> lists t = lists s ->
  procs t = <[me := left_files x]> (procs s) ->
  orphan_zombies me (wake_first (chan_of (p_parent x)) t) = orphan_zombies me s /\
  lists (wakes (orphan_zombies me s) (CProc i0) (wake_first (chan_of (p_parent x)) t)) = lists (exit_wakes me i0 x s) /\
  forall j, procs (wakes (orphan_zombies me s) (CProc i0) (wake_first (chan_of (p_parent x)) t)) !! j =
    (if decide (j = me) then left_files else id) <$> procs (exit_wakes me i0 x s) !! j.
Proof.
  intros Hx Hl Hp. set (f := fun j => if decide (j = me) then left_files else id).
  assert (Hf : forall j, transparent (f j)) by (intros j; unfold f; case_decide; [apply left_files_transparent|by split]).
  assert (Hpf : forall j, procs t !! j = f j <$> procs s !! j).
  { intros j. rewrite Hp. unfold f. case_decide as Hj; [subst; by rewrite (lookup_set _ _ _ _ Hx), Hx|].
    rewrite list_lookup_insert_ne by done. by destruct (procs s !! j). }
  destruct (wake_first_transparent (chan_of (p_parent x)) f s t Hf Hl Hpf) as [H1 H2].
  destruct (wakes_transparent (orphan_zombies me s) (CProc i0) f _ _ Hf H1 H2) as [H3 H4].
  split_and!; [|done|done]. unfold orphan_zombies. rewrite wake_first_list, Hl by done. f_equal.
  apply List.filter_ext. intros j. rewrite kid_wake_first. unfold kid. rewrite Hpf. unfold f.
  destruct (procs s !! j); simpl; [|done]. by case_decide.
Qed.

(** What [exit] does with the lock held, from the state [t] in which the files of
    the state [s] are closed. *)
Lemma wp_exit_locked me x i0 s t (Q : unit -> kst alists W -> Prop) :
  table_ok None (procs s) (lists s) -> procs s !! me = Some x -> p_state x = RUNNING -> me <> i0 ->
  lists t = lists s -> procs t = <[me := left_files x]> (procs s) -> cur t = Some me -> initproc t = Some i0 ->
  lk_held PTABLE t -> ncli (kcpu t) = 1 -> fl_if (kcpu t) = false ->
  (forall ps, let b := push me LZombie (rem me LRunning (lists (exit_wakes me i0 x s))) in
    table_ok None ps b -> ps !! me = Some (zombie_of me i0 (ticks t) (intena (kcpu t)) x) ->
    (forall j, j <> me -> ps !! j =
      (fun y => if decide (j ∈ lists s LFree) then y else handed me i0 y) <$> procs (exit_wakes me i0 x s) !! j) ->
    Q tt (set_procs ps (set_lists b t))) ->
  wp E (wakeup1 (chan_of (p_parent x))) (fun _ => wp E (reparent_all ;;
        remove_or_panic LRunning (Some me) "exit - remove from running failed\n" ;;
        assertState (Some me) RUNNING ;;
        modp (Some me) (set_p_state ZOMBIE) ;;
        liftL (stateListAdd LZombie (Some me)) ;;
        assertState (Some me) ZOMBIE ;;
        sched) Q) t.
Proof.
  intros Ht Hx Hst Hne Hlt Hpt Hcur Hi Hlk Hn Hif HQ. set (ch := chan_of (p_parent x)).
  assert (Htt : table_ok None (procs t) (lists t)).
  { rewrite Hlt, Hpt. eapply table_frame; [done..|by eapply left_files_ok, (tb_proc _ _ _ Ht)|done|done]. }
  destruct (exit_wakes_left me i0 x s t Hx Hlt Hpt) as (Hn0 & Hl0 & Hp0). fold ch in Hn0, Hl0, Hp0.
  pose proof (exit_wakes_table me i0 x s Ht) as Hte.
  assert (Hxe : procs (exit_wakes me i0 x s) !! me = Some x).
  { apply wakes_running; [by apply wake_first_table|apply wake_first_running; [done..|congruence]|congruence]. }
  pose proof (wake_first_rest ch t) as Hrest. set (base := wake_first ch t) in *.
  assert (Hpp : forall P l, set_procs P (set_lists l base) = set_procs P (set_lists l t)) by done.
  eapply wp_Ok; [by apply wakeup1_run|]. fold base. apply wp_bind, (wp_reparent_all me i0).
  { etrans; [exact (f_equal cur (Hpp [] (lists t)))|done]. }
  { etrans; [exact (f_equal initproc (Hpp [] (lists t)))|done]. }
  { done. }
  { by apply wake_first_table. }
  intros u Hu. rewrite Hn0 in Hu. destruct Hu as [Hut Hur Hul Hup]. rewrite Hl0 in Hul.
  assert (Hru : forall P l, set_procs P (set_lists l u) = set_procs P (set_lists l t)).
  { intros P l. rewrite <- Hpp, <- Hur. done. }
  assert (Hvis : forall j, (j < NPROC)%nat -> j ∈ visited (lists base) <-> j ∉ lists s LFree).
  { intros j Hj. rewrite visited_spec; [|by eapply tb_lists, wake_first_table|done].
    unfold base. by rewrite wake_first_list, Hlt. }
  assert (Hmelt : (me < NPROC)%nat) by (rewrite <- (tb_length _ _ _ Ht); by eapply lookup_lt_Some).
  assert (Hmu : procs u !! me = Some (handed me i0 (left_files x))).
  { rewrite Hup, Hp0, decide_True, Hxe by done. simpl. unfold visit. rewrite decide_True; [done|]. apply Hvis; [done|].
    intros Hf. assert (LRunning = LFree) by (eapply (wf_disj _ _ (tb_lists _ _ _ Ht) _ _ me); [done..|by eapply table_running|done]). done. }
  pose proof (Hru [] (lists t)) as He.
  apply (wp_exit_tail me (handed me i0 (left_files x))); [done|etrans; [exact (f_equal cur He)|done]|done| | | | |].
  { unfold handed. by case_decide. }
  { unfold lk_held. rewrite (f_equal klocks He : klocks u = klocks t), (f_equal kcpu He : kcpu u = kcpu t). done. }
  { by rewrite (f_equal kcpu He : kcpu u = kcpu t). }
  { by rewrite (f_equal kcpu He : kcpu u = kcpu t). }
  rewrite (f_equal kcpu He : kcpu u = kcpu t), (f_equal ticks He : ticks u = ticks t), Hul. cbv zeta. rewrite Hru. intros Hb.
  apply HQ; [done|by eapply lookup_set|]. intros j Hj. rewrite list_lookup_insert_ne, Hup, Hp0, decide_False by done.
  destruct (procs (exit_wakes me i0 x s) !! j) as [y|] eqn:Hy; [|done]. simpl. f_equal. unfold visit.
  assert (Hjlt : (j < NPROC)%nat) by (rewrite <- (tb_length _ _ _ Hte); by eapply lookup_lt_Some).
  specialize (Hvis j Hjlt). repeat case_decide; tauto.
Qed.

Lemma exit_exact_run me x i0 cw s :
  kinv s -> running me x s -> initproc s = Some i0 -> me <> i0 -> p_cwd x = Some cw ->
  ncli (kcpu s) = 0 -> wp E exit (fun _ s' => exit_exact me i0 x cw s s') s.
Proof.
  intros [Ht Hl Hc] [Hcur Hx Hst] Hi Hne Hcw Hn. pose proof (wp_exit_locked me x i0 s) as Hrest.
  unfold exit. apply wp_bind, wp_gets, wp_bind, wp_gets. rewrite Hcur, Hi, bool_decide_false by congruence. apply wp_bind, wp_ret.
  apply wp_bind. eapply wp_close_files; [done..|apply NoDup_seq|]. intros w1 Hw1.
  apply wp_bind. eapply wp_myproc; [done|by eapply lookup_set|].
  apply wp_bind, wp_liftW; [apply safe_begin_op|]. intros [] w2 Hw2.
  apply wp_bind. cbn [p_cwd set_p_ofile]. rewrite Hcw. apply wp_liftW; [apply safe_iput|]. intros [] w3 Hw3.
  apply wp_bind, wp_liftW; [apply safe_end_op|]. intros [] w4 Hw4. cbn [world set_world set_procs] in Hw2, Hw3, Hw4.
  assert (Hlv : leave (p_ofile x) cw (world s) = Ok (tt, w4)).
  { unfold leave, mbind, M_bind. by rewrite Hw1, Hw2, Hw3. }
  kopen s. wps. change (set_p_cwd None _) with (left_files x).
  eapply Hrest; [done..|by eapply lookup_set|simpl; lia|done|]. clear Hrest. intros ps' Hb Hme Hoth. split; [done| |exact Hlv|done| |done].
  - by eapply lookup_set.
  - kproj. cbn [procs set_procs]. rewrite Hme. unfold pushcli. simpl. by rewrite Hn.
Qed.

(** What [exit] leaves: [me] is a zombie without files, the last of the zombie
    list; the processes in use that were its children are init's, the others have
    the parent they had; the parent is runnable if it slept in [wait], and so is
    init when it took over a zombie. *)
Record exit_post (me i0 : nat) (x : proc) (cw : nat) s s' : Prop := {
  xp_exact : exit_exact me i0 x cw s s';
  xp_free : lists s' LFree = lists s LFree;
  xp_zombie : lists s' LZombie = lists s LZombie ++ [me];
  xp_me : exists z, procs s' !! me = Some z /\ exited x z;
  xp_orphans j y : procs s' !! j = Some y -> j ∉ lists s' LFree -> p_parent y <> Some me;
  xp_adopted j y : procs s !! j = Some y -> j ∉ lists s LFree -> p_parent y = Some me ->
    exists y', procs s' !! j = Some y' /\ p_parent y' = Some i0;
  xp_kept j y : procs s !! j = Some y -> p_parent y <> Some me ->
    exists y', procs s' !! j = Some y' /\ p_parent y' = p_parent y;
  xp_parent q y : p_parent x = Some q -> procs s !! q = Some y -> asleep_on (CProc q) y ->
    one_sleeper (CProc q) (procs s) -> exists y', procs s' !! q = Some y' /\ p_state y' = RUNNABLE;
  xp_init y : existsb (kid me (procs s)) (lists s LZombie) = true -> procs s !! i0 = Some y ->
    asleep_on (CProc i0) y -> one_sleeper (CProc i0) (procs s) ->
    exists y', procs s' !! i0 = Some y' /\ p_state y' = RUNNABLE;
}.

Lemma wake_first_cases ch s i y : procs s !! i = Some y ->
  procs (wake_first ch s) !! i = Some y \/ procs (wake_first ch s) !! i = Some (set_p_state RUNNABLE y).
Proof.
  intros Hy. unfold wake_first, wake. destruct (List.find _ _) as [j|]; [|by left].
  destruct (procs s !! j) as [z|] eqn:Hz; [|by left]. kproj. cbn [procs set_procs set_lists].
  destruct (decide (i = j)) as [->|Hne]; [right; simplify_eq; by eapply lookup_set|left; by apply lookup_set_ne].
Qed.

Lemma wakes_cases n ch s i y : procs s !! i = Some y ->
  procs (wakes n ch s) !! i = Some y \/ procs (wakes n ch s) !! i = Some (set_p_state RUNNABLE y).
Proof.
  intros Hy. induction n as [|n [IH|IH]]; [by left|..]; simpl; apply (wake_first_cases ch) in IH; [done|].
  right. by destruct IH.
Qed.

Lemma wakes_sole n ch s i y : table_ok None (procs s) (lists s) -> one_sleeper ch (procs s) ->
  procs s !! i = Some y -> asleep_on ch y -> procs (wakes (S n) ch s) !! i = Some (set_p_state RUNNABLE y).
Proof.
  intros Ht H1 Hy Hs. induction n as [|n IH]; [by apply wake_first_sole|].
  apply wake_first_running; [by apply (wakes_table (S n))|done|done].
Qed.

(** The process [exit] wakes, whoever else it wakes. *)
Lemma exit_wakes_parent me i0 x s q y : table_ok None (procs s) (lists s) -> p_parent x = Some q ->
  procs s !! q = Some y -> asleep_on (CProc q) y -> one_sleeper (CProc q) (procs s) ->
  procs (exit_wakes me i0 x s) !! q = Some (set_p_state RUNNABLE y).
Proof.
  intros Ht Hq Hy Hs H1. apply wakes_running; [by apply wake_first_table| |done]. rewrite Hq. by apply wake_first_sole.
Qed.

Lemma exit_wakes_init me i0 x s y : table_ok None (procs s) (lists s) ->
  existsb (kid me (procs s)) (lists s LZombie) = true -> procs s !! i0 = Some y ->
  asleep_on (CProc i0) y -> one_sleeper (CProc i0) (procs s) ->
  procs (exit_wakes me i0 x s) !! i0 = Some (set_p_state RUNNABLE y).
Proof.
  intros Ht Hz Hy Hs H1. unfold exit_wakes. destruct (orphan_zombies me s) as [|n] eqn:Hn.
  { unfold orphan_zombies in Hn. apply nil_length_inv in Hn. apply existsb_exists in Hz as (j & Hj & Hk).
    assert (Hf : In j (List.filter (kid me (procs s)) (lists s LZombie))) by (by apply List.filter_In). by rewrite Hn in Hf. }
  destruct (wake_first_cases (chan_of (p_parent x)) s i0 y Hy) as [H|H].
  - apply wakes_sole; [by apply wake_first_table| |done|done]. intros i j u v Hu Hsu Hv Hsv.
    eapply H1; [by eapply wake_first_asleep|done|by eapply wake_first_asleep|done].
  - by apply wakes_running; [apply wake_first_table|..].
Qed.

Lemma exit_exact_post me i0 x cw s s' : me <> i0 -> running me x s -> table_ok None (procs s) (lists s) ->
  exit_exact me i0 x cw s s' -> exit_post me i0 x cw s s'.
Proof.
  intros Hne [_ Hx Hst] Ht He. pose proof He as [Het _ _ Hl Hme Hp].
  assert (Hfree : lists s' LFree = lists s LFree).
  { rewrite Hl. unfold push, rem, exit_wakes. by rewrite !upd_ne, wakes_list, wake_first_list by done. }
  assert (Hof : forall j y, j <> me -> procs (exit_wakes me i0 x s) !! j = Some y ->
    procs s' !! j = Some (if decide (j ∈ lists s LFree) then y else handed me i0 y)) by (intros j y Hj Hy; by rewrite Hp, Hy).
  assert (Hcs : forall j y, procs s !! j = Some y -> exists y', procs (exit_wakes me i0 x s) !! j = Some y' /\ p_parent y' = p_parent y).
  { intros j y Hy. unfold exit_wakes. destruct (wake_first_cases (chan_of (p_parent x)) s j y Hy) as [H|H];
      apply (wakes_cases (orphan_zombies me s) (CProc i0)) in H as [H|H]; eauto. }
  assert (Hrun : forall j y, j <> me -> procs (exit_wakes me i0 x s) !! j = Some (set_p_state RUNNABLE y) ->
    exists y', procs s' !! j = Some y' /\ p_state y' = RUNNABLE).
  { intros j y Hj Hy. eexists. split; [by apply Hof|]. unfold handed. by repeat case_decide. }
  split; [done|done| | | | | | |].
  - rewrite Hl. unfold push, rem, exit_wakes. by rewrite upd_eq, upd_ne, wakes_list, wake_first_list by done.
  - eexists. split; [done|]. by eapply zombie_exited, (tb_proc _ _ _ Ht).
  - intros j y Hy Hj. rewrite Hfree in Hj. destruct (decide (j = me)) as [->|Hjm].
    + rewrite Hme in Hy. injection Hy as <-. unfold zombie_of, handed. case_decide as Hd; simpl in Hd |- *; congruence.
    + rewrite Hp in Hy by done. apply fmap_Some in Hy as (z & _ & ->). rewrite decide_False by done.
      unfold handed. case_decide; simpl; congruence.
  - intros j y Hy Hj Hpy. destruct (decide (j = me)) as [->|Hjm].
    + simplify_eq. eexists. split; [done|]. unfold zombie_of, handed. by rewrite decide_True.
    + destruct (Hcs j y Hy) as (y' & Hy' & Hpe). eexists. split; [by apply Hof|]. rewrite decide_False by done.
      unfold handed. rewrite decide_True by congruence. done.
  - intros j y Hy Hpy. destruct (decide (j = me)) as [->|Hjm].
    + simplify_eq. eexists. split; [done|]. unfold zombie_of, handed. by rewrite decide_False.
    + destruct (Hcs j y Hy) as (y' & Hy' & Hpe). eexists. split; [by apply Hof|].
      case_decide; [done|]. unfold handed. rewrite decide_False by congruence. done.
  - intros q y Hq Hy Hs H1. apply (Hrun q y); [intros ->; destruct Hs; congruence|by apply exit_wakes_parent].
  - intros y Hz Hy Hs H1. apply (Hrun i0 y); [done|by apply exit_wakes_init].
Qed.

Lemma wp_exit me x i0 cw s :
  kinv s -> running me x s -> initproc s = Some i0 -> me <> i0 -> p_cwd x = Some cw ->
  ncli (kcpu s) = 0 -> wp E exit (fun _ s' => exit_post me i0 x cw s s') s.
Proof.
  intros Hk Hr Hi Hne Hcw Hn. eapply wp_mono; [by eapply exit_exact_run|]. intros ? s'. by apply exit_exact_post, (ki_table _ Hk).
Qed.

(** ** [wait] *)

(** The structure of a zombie after [wait] released it. *)
Definition reaped (z : proc) : proc :=
  set_p_killed 0 (set_p_name (<[0%nat := 0]> (p_name z)) (set_p_parent None (set_p_pid 0
    (set_p_state UNUSED (set_p_kstack 0 z))))).

(** The CPU after it released the only lock it held. *)
Definition cpu_unlocked (c : cpu) : cpu := mkcpu (cpu_id c) 0 (intena c) (intena c).

Lemma popcli_one c : ncli c = 1 -> fl_if c = false -> popcli c = Ok (cpu_unlocked c).
Proof.
  intros Hn Hf. unfold popcli, cpu_unlocked. rewrite Hf, Hn. simpl. by destruct (intena c).
Qed.

Definition unlocked s : kst alists W :=
  set_kcpu (cpu_unlocked (kcpu s)) (set_klocks (<[PTABLE := initlock]> (klocks s)) s).

(** The state in which [wait] scans the lists. *)
Record scanning (me : nat) (x : proc) s : Prop := {
  sc_table : table_ok None (procs s) (lists s);
  sc_running : running me x s;
  sc_lock : lk_held PTABLE s;
  sc_ncli : ncli (kcpu s) = 1;
  sc_if : fl_if (kcpu s) = false;
}.

Lemma reaped_ok z : proc_ok z -> proc_ok (reaped z).
Proof.
  intros Hok. unfold reaped. apply ok_killed, ok_name; [|by eauto 10 with proc_ok].
  rewrite length_insert. by apply ok_name_length.
Qed.

Lemma wp_reap me x i z (Q : option Z -> kst alists W -> Prop) s :
  scanning me x s -> i ∈ lists s LZombie -> procs s !! i = Some z ->
  (forall w, let b := push i LFree (rem i LZombie (lists s)) in
    table_ok None (<[i := reaped z]> (procs s)) b ->
    Q (Some (s32 (p_pid z)))
      (set_world w (set_procs (<[i := reaped z]> (procs s)) (set_lists b (unlocked s))))) ->
  wp E (reap i) Q s.
Proof.
  intros [Ht Hr Hl Hn Hif] Hi Hz HQ.
  assert (Hst : p_state z = ZOMBIE).
  { pose proof (tb_fits _ _ _ Ht LZombie i z eq_refl Hi Hz) as Hf. unfold fits in Hf.
    destruct (p_state z); naive_solver. }
  assert (Hok : proc_ok z) by by eapply (tb_proc _ _ _ Ht).
  kopen s. unfold reap. wps. eapply wp_liftW; [apply safe_kfree|]. intros _ w1 _. wps.
  eapply wp_liftW; [apply safe_freevm|]. intros _ w2 _. wps. eapply wp_remove; [done..|]. wps.
  eapply wp_add; [done|by eapply tb_lists, table_remove|done|by eapply table_lt|]. wps.
  eapply wp_release; [held|by apply popcli_one|]. wps. apply HQ.
  eapply table_move; [done..|by apply reaped_ok|done|by left].
Qed.

(** The first zombie child, if any, is released. *)
Lemma wp_wait_zombie me x (Q : option Z -> kst alists W -> Prop) s :
  scanning me x s ->
  (forall i z w, List.find (kid me (procs s)) (lists s LZombie) = Some i ->
    procs s !! i = Some z ->
    let b := push i LFree (rem i LZombie (lists s)) in
    table_ok None (<[i := reaped z]> (procs s)) b ->
    Q (Some (s32 (p_pid z)))
      (set_world w (set_procs (<[i := reaped z]> (procs s)) (set_lists b (unlocked s))))) ->
  (List.find (kid me (procs s)) (lists s LZombie) = None -> Q None s) ->
  wp E (for_each LZombie (fun p =>
    x ← getp (Some p);
    me ← gets cur;
    if decide (p_parent x = me) then reap p else mret None)) Q s.
Proof.
  intros Hsc HQ1 HQ0. pose proof (sc_table _ _ _ Hsc) as Ht.
  apply (wp_for_each LZombie (lists s LZombie) _
    (fun dn t => t = s /\ forall rest, List.find (kid me (procs s)) (dn ++ rest)
                                     = List.find (kid me (procs s)) rest)).
  - done.
  - by eapply tb_lists.
  - done.
  - done.
  - intros dn i rest t Hxs [-> Hdn].
    assert (Hi : i ∈ lists s LZombie) by (rewrite Hxs; set_solver).
    destruct (table_lookup _ _ _ LZombie i Ht eq_refl Hi) as (z & Hz & _).
    apply wp_bind. eapply wp_getp; [done|exact Hz|]. apply wp_bind, wp_gets.
    rewrite (ru_cur _ _ _ (sc_running _ _ _ Hsc)).
    assert (Hk : kid me (procs s) i = bool_decide (p_parent z = Some me)) by (unfold kid; by rewrite Hz).
    case_decide as Hp.
    + eapply wp_reap; [done..|]. intros w b Hb. apply HQ1; [|done..].
      rewrite Hxs, Hdn. simpl. by rewrite Hk, bool_decide_true.
    + apply wp_ret. split; [by eapply tb_lists|]. split; [done|]. split; [done|].
      intros rest'. rewrite <- app_assoc, Hdn. simpl. by rewrite Hk, bool_decide_false.
  - intros t [-> Hdn]. apply HQ0. specialize (Hdn []). by rewrite app_nil_r in Hdn.
Qed.

Lemma wp_havekids me x l h (Q : bool -> kst alists W -> Prop) s :
  scanning me x s -> valid_lid l = true -> Q (h || existsb (kid me (procs s)) (lists s l)) s ->
  wp E (fold_each l h is_kid) Q s.
Proof.
  intros Hsc Hv HQ. pose proof (sc_table _ _ _ Hsc) as Ht.
  apply (wp_fold_each l (lists s l) _
    (fun dn b t => t = s /\ b = h || existsb (kid me (procs s)) dn)).
  - done.
  - by eapply tb_lists.
  - done.
  - simpl. by rewrite orb_false_r.
  - intros dn i rest b t Hxs [-> ->].
    assert (Hi : i ∈ lists s l) by (rewrite Hxs; set_solver).
    destruct (table_lookup _ _ _ l i Ht Hv Hi) as (z & Hz & _).
    unfold is_kid. apply wp_bind. eapply wp_getp; [done|exact Hz|]. apply wp_bind, wp_gets.
    rewrite (ru_cur _ _ _ (sc_running _ _ _ Hsc)). apply wp_ret.
    split; [by eapply tb_lists|]. split; [done|]. split; [done|].
    assert (Hk : kid me (procs s) i = bool_decide (p_parent z = Some me)) by (unfold kid; by rewrite Hz).
    rewrite existsb_app. cbn [existsb]. by rewrite Hk, orb_false_r, orb_assoc.
  - intros b t [-> ->]. done.
Qed.

(** A child that runs, sleeps or is ready. *)
Definition live_kid (me : nat) s : bool :=
  existsb (kid me (procs s)) (lists s LEmbryo ++
    concat (map (fun i => lists s (LReady i)) (seq 0 (S MAXPRIO))) ++
    lists s LRunning ++ lists s LSleep).

Lemma wp_wait_scan me x (Q : option Z -> kst alists W -> Prop) s :
  scanning me x s ->
  (forall i z w, List.find (kid me (procs s)) (lists s LZombie) = Some i ->
    procs s !! i = Some z ->
    let b := push i LFree (rem i LZombie (lists s)) in
    table_ok None (<[i := reaped z]> (procs s)) b ->
    Q (Some (s32 (p_pid z)))
      (set_world w (set_procs (<[i := reaped z]> (procs s)) (set_lists b (unlocked s))))) ->
  (List.find (kid me (procs s)) (lists s LZombie) = None ->
    if negb (live_kid me s) || negb (p_killed x =? 0) then Q (Some (-1)) (unlocked s)
    else Q None s) ->
  wp E wait_scan Q s.
Proof.
  intros Hsc HQ1 HQ0. unfold wait_scan. apply wp_bind.
  eapply wp_wait_zombie; [done|intros; apply wp_ret; by apply HQ1|].
  intros Hnone. specialize (HQ0 Hnone).
  apply wp_bind. eapply wp_havekids; [done..|]. simpl orb. apply wp_bind.
  apply (wp_fold_index _ (fun i b t => t = s /\ b = existsb (kid me (procs s))
    (lists s LEmbryo ++ concat (map (fun i => lists s (LReady i)) (seq 0 i))))).
  { by rewrite app_nil_r. }
  { intros i b t Hi [-> ->]. eapply wp_havekids; [done|apply Nat.leb_le; lia|].
    split; [done|]. rewrite seq_S, map_app, concat_app, app_assoc, (existsb_app _ (_ ++ _)). simpl.
    by rewrite app_nil_r. }
  intros b t [-> ->]. rewrite Nat.add_0_l. apply wp_bind. eapply wp_havekids; [done..|].
  apply wp_bind. eapply wp_havekids; [done..|]. rewrite <- !existsb_app, <- !app_assoc.
  change (existsb _ _) with (live_kid me s).
  apply wp_bind. destruct Hsc as [Ht [Hcur Hx Hst] Hl Hn Hif].
  eapply wp_myproc; [done..|]. destruct (negb (live_kid me s) || _).
  - apply wp_bind. eapply wp_release; [done|by apply popcli_one|]. apply wp_ret, HQ0.
  - apply wp_ret, HQ0.
Qed.

(** The results of [wait]: a zombie child released, -1, or asleep on itself
    with the lock held. *)
Definition wait_reaped (me : nat) s (r : option Z) s' : Prop :=
  exists i z, List.find (kid me (procs s)) (lists s LZombie) = Some i /\
    procs s !! i = Some z /\ r = Some (s32 (p_pid z)) /\
    procs s' = <[i := reaped z]> (procs s) /\
    lists s' LFree = lists s LFree ++ [i] /\
    lists s' LZombie = filter (fun j => j <> i) (lists s LZombie) /\ kinv s'.

Definition wait_childless (me : nat) (x : proc) s (r : option Z) s' : Prop :=
  List.find (kid me (procs s)) (lists s LZombie) = None /\
  (live_kid me s = false \/ p_killed x <> 0) /\
  r = Some (-1) /\ procs s' = procs s /\ lists s' = lists s /\ kinv s'.

Definition wait_sleeps (me : nat) (x : proc) s (r : option Z) s' : Prop :=
  List.find (kid me (procs s)) (lists s LZombie) = None /\ live_kid me s = true /\
  p_killed x = 0 /\ r = None /\
  lists s' LSleep = lists s LSleep ++ [me] /\ lk_held PTABLE s' /\
  table_ok None (procs s') (lists s') /\
  exists y, procs s' !! me = Some y /\ p_state y = SLEEPING /\ p_chan y = CProc me.

Definition wait_post (me : nat) (x : proc) s (r : option Z) s' : Prop :=
  wait_reaped me s r s' \/ wait_childless me x s r s' \/ wait_sleeps me x s r s'.

Lemma slept_chan tk ie ch x : p_chan (slept tk ie ch x) = ch.
Proof. unfold slept, demoted. by repeat case_match. Qed.

Lemma wp_wait me x s :
  kinv s -> running me x s -> ncli (kcpu s) = 0 -> wp E wait (wait_post me x s) s.
Proof.
  intros [Ht Hl Hc] Hr Hn. unfold wait. apply wp_bind, wp_acquire; [done|].
  set (sa := acquired PTABLE s).
  assert (Hsc : scanning me x sa).
  { destruct Hr as [Hcur Hx Hst]. split; [done|by split|kopen s; by eapply lookup_set| |done].
    simpl. lia. }
  assert (Hkl : <[PTABLE := initlock]> (klocks sa) !! PTABLE = Some initlock).
  { kopen s. simpl. by do 2 eapply lookup_set. }
  unfold wait_round. apply wp_bind, (wp_wait_scan me x); [done|..].
  - intros i z w Hfind Hz b Hb. apply wp_ret. left. exists i, z. by split_and!.
  - intros Hnone. destruct (live_kid me sa) eqn:Hk; [destruct (Z.eqb_spec (p_killed x) 0) as [Hz|Hz]|]; simpl.
    + apply wp_bind, wp_gets. rewrite (ru_cur _ _ _ (sc_running _ _ _ Hsc) : cur sa = Some me).
      destruct (sleep_ptable_run me x (CProc me) sa) as [Hs Hb]; [apply Hsc..|].
      apply wp_bind. eapply wp_Ok; [exact Hs|]. apply wp_ret. right. right.
      split_and!; try done.
      * apply (sc_lock _ _ _ Hsc).
      * eexists. split; [by eapply lookup_set, (ru_proc _ _ _ (sc_running _ _ _ Hsc))|].
        split; [apply slept_state|apply slept_chan].
    + apply wp_ret. right. left. split_and!; try done; by right.
    + apply wp_ret. right. left. split_and!; try done; by left.
Qed.

End Exit.
