(* ===== verification/ProcSched.v ===== *)
(** * Scheduling (proc.c: [promoteAll], [assertPriority], [scheduler], [kill],
      [setPriority])

    Specifications over the abstract lists: the periodic promotion moves every
    process one level up, the scheduler runs the head of each ready list, and
    the priority assertion never fires. *)

From stdpp Require Import base numbers list sets strings.
From S2P Require Import Prelude Strings Spinlock StateLists Proc ProcInv ProcSpec ProcLife.

Open Scope Z_scope.

(** ** The promoted lists *)

Lemma promoted_intro a l i :
  valid_lid l = true -> i ∈ a l ->
  exists l', valid_lid l' = true /\ i ∈ Abs.promoted a l' /\
    match l with LReady k => l' = LReady (pred k) | _ => l' = l end.
Proof.
  intros Hv Hi. destruct l as [| | | | |[|[|k]]].
  1-5: eexists; split; [exact Hv|by split].
  - exists (LReady 0). split_and!; [done| |done]. simpl. set_solver.
  - exists (LReady 0). split_and!; [done| |done]. simpl. set_solver.
  - unfold valid_lid in Hv. apply Nat.leb_le in Hv.
    exists (LReady (S k)). split_and!; [apply Nat.leb_le; lia| |done]. cbn [Abs.promoted].
    by rewrite (proj2 (Nat.ltb_lt (S k) MAXPRIO)) by lia.
Qed.

Lemma wf_promoted a : wf_lists None a -> wf_lists None (Abs.promoted a).
Proof.
  intros [Hn Hd Hb Hc Hf]. split.
  - by apply promoted_nodup.
  - intros l1 l2 i Hv1 Hv2 H1 H2.
    destruct (promoted_elem _ _ _ Hv1 H1) as (l1' & Hv1' & Hi1 & E1).
    destruct (promoted_elem _ _ _ Hv2 H2) as (l2' & Hv2' & Hi2 & E2).
    rewrite (Hd _ _ _ Hv1' Hv2' Hi1 Hi2) in E1. destruct l2'; congruence.
  - intros l i Hv Hi. destruct (promoted_elem _ _ _ Hv Hi) as (l' & Hv' & Hi' & _). eauto.
  - intros i Hi _. destruct (Hc i Hi) as (l & Hv & Hil); [done|].
    destruct (promoted_intro a l i Hv Hil) as (l' & Hv' & Hi' & _). eauto.
  - done.
Qed.

(** ** [promoteAll] *)

Section Sched.
Context {W : Type} {PE : ProcEnv W} {E : error -> Prop}.
Implicit Types s t : kst alists W.

(** A process that is ready, running or asleep moves one level up. *)
Definition promoted_proc (x : proc) : proc :=
  match p_state x with
  | RUNNABLE | RUNNING | SLEEPING =>
      set_p_budget MAXBUDG (set_p_priority (Z.max 0 (p_priority x - 1)) x)
  | _ => x
  end.

Lemma promoted_proc_ok x : proc_ok x -> proc_ok (promoted_proc x).
Proof.
  intros Hok. unfold promoted_proc. pose proof (ok_prio _ Hok) as Hp.
  destruct (p_state x); try done; apply ok_budget, ok_priority; try done; lia.
Qed.

Lemma promoted_proc_state x : p_state (promoted_proc x) = p_state x.
Proof. unfold promoted_proc. by destruct (p_state x) eqn:Hs; rewrite ?Hs. Qed.

(** The state after the processes [D] have been promoted. *)
Record promoting (b : alists) s (D : list nat) t : Prop := {
  pr_lists : lists t = b;
  pr_state : exists ps, t = set_procs ps (set_lists b s) /\
    forall j, ps !! j = (fun x => if decide (j ∈ D) then promoted_proc x else x) <$> procs s !! j;
}.

(** One of the loops: [f] promotes the processes of list [l]. *)
Lemma wp_promote_list b s D l (f : nat -> M (kst alists W) unit)
    (Q : option unit -> kst alists W -> Prop) t :
  valid_lid l = true -> wf_lists None b -> promoting b s D t ->
  (forall i, i ∈ b l -> i ∉ D) ->
  (forall i, i ∈ b l -> exists x, procs s !! i = Some x /\
     forall u, procs u !! i = Some x ->
       f i u = Ok (tt, set_procs (<[i := promoted_proc x]> (procs u)) u)) ->
  (forall u, promoting b s (D ++ b l) u -> Q None u) ->
  wp E (for_each l (fun p => continue (f p))) Q t.
Proof.
  intros Hv Hw Hp HD Hf HQ.
  pose proof (wf_nodup _ _ Hw l Hv) as Hnd.
  apply (wp_for_each l (b l) _ (fun dn u => promoting b s (D ++ dn) u)).
  - done.
  - by rewrite (pr_lists _ _ _ _ Hp).
  - by rewrite (pr_lists _ _ _ _ Hp).
  - by rewrite app_nil_r.
  - intros dn i rest u Hxs [Hl (ps & -> & Hps)].
    destruct (Hf i) as (x & Hx & Hfi); [rewrite Hxs; set_solver|].
    assert (Hidn : i ∉ D ++ dn).
    { rewrite elem_of_app. intros [Hi|Hi]; [by apply (HD i); [rewrite Hxs; set_solver|]|].
      rewrite Hxs in Hnd. apply NoDup_app in Hnd as (_ & Hdis & _). apply (Hdis i Hi). set_solver. }
    assert (Hpi : ps !! i = Some x) by (rewrite Hps, Hx; simpl; by rewrite decide_False).
    unfold continue. apply wp_bind. eapply wp_Ok; [by apply Hfi|]. apply wp_ret.
    split; [exact Hw|]. split; [reflexivity|]. rewrite app_assoc. split; [reflexivity|].
    exists (<[i := promoted_proc x]> ps). split; [done|]. intros j.
    destruct (decide (j = i)) as [->|Hne].
    + erewrite lookup_set by done. rewrite Hx. simpl. rewrite decide_True by set_solver. done.
    + rewrite list_lookup_insert_ne by done. rewrite Hps.
      assert (Hiff : j ∈ D ++ dn <-> j ∈ (D ++ dn) ++ [i]) by set_solver.
      destruct (procs s !! j); [|done]. simpl. f_equal.
      by destruct (decide (j ∈ D ++ dn)), (decide (j ∈ (D ++ dn) ++ [i])); try done; exfalso; tauto.
  - done.
Qed.

Lemma promote_ready_run (i p : nat) x s :
  procs s !! p = Some x -> p_state x = RUNNABLE -> Z.of_nat i = Z.max 0 (p_priority x - 1) ->
  (modp (Some p) (set_p_budget MAXBUDG) ;; modp (Some p) (set_p_priority (Z.of_nat i))) s
  = Ok (tt, set_procs (<[p := promoted_proc x]> (procs s)) s).
Proof.
  intros Hx Hst Hp. apply (wp_eq (_ ;; _)). kopen s. wps. split; [done|].
  unfold promoted_proc. rewrite Hst, Hp. done.
Qed.

Lemma set_priority_id v x : p_priority x = v -> set_p_priority v x = x.
Proof. destruct x. simpl. by intros ->. Qed.

Lemma promote_one_run p x s :
  procs s !! p = Some x -> (p_state x = RUNNING \/ p_state x = SLEEPING) -> proc_ok x ->
  promote_one (Some p) s = Ok (tt, set_procs (<[p := promoted_proc x]> (procs s)) s).
Proof.
  intros Hx Hst Hok. pose proof (ok_prio _ Hok) as Hp. apply (wp_eq (promote_one _)).
  unfold promote_one. kopen s.
  assert (Hpr : promoted_proc x = set_p_budget MAXBUDG (set_p_priority (Z.max 0 (p_priority x - 1)) x)).
  { unfold promoted_proc. by destruct Hst as [-> | ->]. }
  rewrite Hpr. wps. destruct (Z.ltb_spec 0 (p_priority x)).
  - wps. by rewrite Z.max_r by lia.
  - wps. by rewrite Z.max_l, set_priority_id by lia.
Qed.

Definition promoted_state s : kst alists W :=
  set_promoteAtTime (s32 (ticks s + TICKS_TO_PROMOTE))
    (set_procs (promoted_proc <$> procs s) (set_lists (Abs.promoted (lists s)) s)).

Lemma promoted_ready ps a (i j : nat) :
  table_ok None ps a -> valid_lid (LReady i) = true -> j ∈ Abs.promoted a (LReady i) ->
  exists x, ps !! j = Some x /\ p_state x = RUNNABLE /\ Z.of_nat i = Z.max 0 (p_priority x - 1).
Proof.
  intros Ht Hv Hj. destruct (promoted_elem _ _ _ Hv Hj) as (l & Hvl & Hjl & El).
  destruct (table_lookup _ _ _ _ _ Ht Hvl Hjl) as (x & Hx & Hf). exists x. split; [done|].
  destruct l as [| | | | |k]; [congruence..|]. pose proof (ok_prio _ (tb_proc _ _ _ Ht _ _ Hx)) as Hp.
  unfold fits in Hf. destruct (p_state x); simplify_eq; [naive_solver|]. split; [done|]. lia.
Qed.

(** The processes the loops visit are those in the three states. *)
Lemma promoted_all s (j : nat) x :
  table_ok None (procs s) (lists s) -> procs s !! j = Some x ->
  (p_state x = RUNNABLE \/ p_state x = SLEEPING \/ p_state x = RUNNING) ->
  j ∈ (concat (map (fun i => Abs.promoted (lists s) (LReady i)) (seq 0 MAXPRIO)) ++
       Abs.promoted (lists s) LSleep) ++ Abs.promoted (lists s) LRunning.
Proof.
  intros Ht Hx Hst. pose proof (table_home _ _ _ _ Ht Hx) as Hh.
  pose proof (tb_proc _ _ _ Ht _ _ Hx) as Hok. rewrite !elem_of_app.
  assert (Hne : p_state x <> UNUSED) by (destruct Hst as [->|[->| ->]]; done). specialize (Hh Hne).
  unfold home in Hh. destruct Hst as [Hst|[Hst|Hst]]; rewrite Hst in Hh; [|tauto|tauto].
  left. left. destruct (promoted_intro _ _ _ (ready_valid x Hok) Hh) as (l' & Hv' & Hj & ->).
  apply list_elem_of_In, List.in_concat. exists (Abs.promoted (lists s) (LReady (pred (Z.to_nat (p_priority x))))).
  split; [|by apply list_elem_of_In]. apply List.in_map_iff. eexists. split; [done|].
  apply List.in_seq. destruct Hok as [Hp _ _]. unfold MAXPRIO in *. lia.
Qed.

Lemma promoting_done s t :
  table_ok None (procs s) (lists s) ->
  promoting (Abs.promoted (lists s)) s
    ((concat (map (fun i => Abs.promoted (lists s) (LReady i)) (seq 0 MAXPRIO)) ++
       Abs.promoted (lists s) LSleep) ++ Abs.promoted (lists s) LRunning) t ->
  t = set_procs (promoted_proc <$> procs s) (set_lists (Abs.promoted (lists s)) s).
Proof.
  intros Ht [_ (ps & -> & Hps)]. f_equal. apply list_eq. intros j. rewrite Hps, list_lookup_fmap.
  destruct (procs s !! j) as [x|] eqn:Hx; [|done]. simpl. f_equal. case_decide as Hj; [done|].
  unfold promoted_proc. destruct (p_state x) eqn:Hst; try done;
    exfalso; apply Hj; eapply promoted_all; eauto.
Qed.

Lemma wp_promoteLists (Q : unit -> kst alists W -> Prop) s :
  Q tt (set_lists (Abs.promoted (lists s)) s) -> wp E (liftL promoteLists) Q s.
Proof. done. Qed.

Lemma wp_promote_procs (Q : unit -> kst alists W -> Prop) s :
  table_ok None (procs s) (lists s) ->
  Q tt (set_procs (promoted_proc <$> procs s) (set_lists (Abs.promoted (lists s)) s)) ->
  wp E promote_procs Q s.
Proof.
  intros Ht HQ. unfold promote_procs. pose proof (tb_lists _ _ _ Ht) as Hwf. apply wp_bind, wp_promoteLists.
  set (b := Abs.promoted (lists s)) in *.
  assert (Hb : wf_lists None b) by by apply wf_promoted.
  assert (Hdis : forall l l' i, valid_lid l = true -> valid_lid l' = true -> l <> l' ->
    i ∈ b l -> i ∉ b l').
  { intros l l' i Hv Hv' Hne Hi Hi'. by apply Hne, (wf_disj _ _ Hb _ _ i). }
  assert (Hcat : forall n l i, (n <= MAXPRIO)%nat -> valid_lid l = true ->
    (forall k, (k < n)%nat -> l <> LReady k) -> i ∈ b l ->
    i ∉ concat (map (fun i => b (LReady i)) (seq 0 n))).
  { intros n l i Hn Hv Hne Hi Hi'. apply list_elem_of_In, List.in_concat in Hi' as (xs & Hxs & Hix).
    apply List.in_map_iff in Hxs as (k & <- & Hk). apply List.in_seq in Hk.
    apply list_elem_of_In in Hix. revert Hix. apply (Hdis l); [done|apply Nat.leb_le; lia| |done].
    apply Hne. lia. }
  apply wp_bind. apply (wp_for_index _ (fun i u =>
    promoting b s (concat (map (fun i => b (LReady i)) (seq 0 i))) u)).
  { split; [done|]. exists (procs s). split; [by destruct s|]. intros j.
    by destruct (procs s !! j). }
  { intros i u Hi Hu. assert (Hv : valid_lid (LReady i) = true) by (apply Nat.leb_le; lia).
    eapply (wp_promote_list b s _ (LReady i)); [done|done|exact Hu|..].
    - intros j Hj. apply (Hcat i (LReady i)); [lia|done| |done]. intros k Hk [= ->]. lia.
    - intros j Hj. destruct (promoted_ready _ _ _ _ Ht Hv Hj) as (x & Hx & Hst & Hp).
      exists x. split; [done|]. intros u' Hu'. by apply promote_ready_run.
    - intros u' Hu'. rewrite seq_S, map_app, concat_app. simpl. by rewrite app_nil_r. }
  intros u Hu. rewrite Nat.add_0_l in Hu. apply wp_bind.
  eapply (wp_promote_list b s _ LSleep); [done|done|exact Hu|..].
  { intros j Hj. by apply (Hcat MAXPRIO LSleep). }
  { intros j Hj. destruct (table_asleep _ _ _ Ht Hj) as (x & Hx & Hst). exists x. split; [done|].
    intros u' Hu'. apply promote_one_run; [done|by right|by eapply tb_proc]. }
  clear u Hu. intros u Hu. apply wp_bind.
  eapply (wp_promote_list b s _ LRunning); [done|done|exact Hu|..].
  { intros j Hj. rewrite elem_of_app. intros [Hj'|Hj']; [by apply (Hcat MAXPRIO LRunning j) in Hj'|].
    by apply (Hdis LRunning LSleep j). }
  { intros j Hj. destruct (table_lookup _ _ _ LRunning _ Ht eq_refl Hj) as (x & Hx & Hf).
    exists x. split; [done|]. intros u' Hu'. apply promote_one_run; [done| |by eapply tb_proc].
    left. unfold fits in Hf. destruct (p_state x); naive_solver. }
  clear u Hu. intros u Hu. apply wp_ret. by rewrite (promoting_done s u Ht Hu).
Qed.

Lemma wp_promoteAll (Q : unit -> kst alists W -> Prop) s :
  table_ok None (procs s) (lists s) -> lk_held PTABLE s ->
  (if ticks s <? u32 (promoteAtTime s) then Q tt s else Q tt (promoted_state s)) ->
  wp E promoteAll Q s.
Proof.
  intros Ht Hl HQ. unfold promoteAll. apply wp_bind, wp_holding_held; [done|].
  apply wp_bind, wp_ret, wp_bind, wp_gets, wp_bind, wp_gets.
  destruct (ticks s <? u32 (promoteAtTime s)); [by apply wp_ret|].
  apply wp_bind, wp_promote_procs; [done|]. apply wp_bind, wp_gets, wp_bind, wp_modify.
  by apply wp_ret.
Qed.

Lemma promoted_table s :
  table_ok None (procs s) (lists s) ->
  table_ok None (procs (promoted_state s)) (lists (promoted_state s)).
Proof.
  intros Ht. destruct Ht as [Hlen Hw Hok Hfit] eqn:HT. cbn [promoted_state procs lists set_promoteAtTime
    set_procs set_lists]. split.
  - by rewrite length_fmap.
  - by apply wf_promoted.
  - intros i x Hx. rewrite list_lookup_fmap in Hx. apply fmap_Some in Hx as (y & Hy & ->).
    apply promoted_proc_ok. eauto.
  - intros l i x Hv Hi Hx. rewrite list_lookup_fmap in Hx. apply fmap_Some in Hx as (y & Hy & ->).
    destruct (promoted_elem _ _ _ Hv Hi) as (l' & Hv' & Hi' & El).
    pose proof (Hfit _ _ _ Hv' Hi' Hy) as Hf. pose proof (ok_prio _ (Hok _ _ Hy)) as Hp.
    unfold fits, promoted_proc in *. destruct (p_state y) eqn:Hst; simpl; rewrite ?Hst.
    { destruct Hf as [->| ->]; auto. }
    all: subst l'; try done. rewrite El. f_equal. lia.
Qed.

(** ** [assertPriority] *)

Lemma wp_assertPriority (Q : unit -> kst alists W -> Prop) s :
  table_ok None (procs s) (lists s) -> lk_held PTABLE s -> Q tt s -> wp E assertPriority Q s.
Proof.
  intros Ht Hl HQ. unfold assertPriority. apply wp_bind, wp_holding_held; [done|].
  apply wp_bind, wp_ret, wp_bind. unfold for_ready.
  apply (wp_for_index _ (fun _ u => u = s)); [done| |intros u ->; by apply wp_ret].
  intros i u Hi ->. assert (Hv : valid_lid (LReady i) = true) by (apply Nat.leb_le; lia).
  apply wp_for_each_id; [done|by eapply tb_lists| |done].
  intros j Hj. destruct (table_lookup _ _ _ _ _ Ht Hv Hj) as (x & Hx & Hf).
  apply (wp_eq (_ ≫= _)). apply wp_bind. eapply wp_getp; [done|exact Hx|].
  assert (Hp : p_priority x = Z.of_nat i).
  { pose proof (ok_prio _ (tb_proc _ _ _ Ht _ _ Hx)). unfold fits in Hf.
    destruct (p_state x); simplify_eq; [naive_solver|lia]. }
  rewrite Hp, Z.eqb_refl. by apply wp_ret.
Qed.

(** ** [scheduler] *)

(** The structure of the process the scheduler switches to. *)
Definition dispatched (t : Z) (x : proc) : proc :=
  set_p_state RUNNING (set_p_cpu_ticks_in t x).

Lemma cpu_saved_id c : 0 < ncli c -> cpu_saved c = c.
Proof.
  intros Hn. unfold cpu_saved. destruct (Z.eqb_spec (ncli c) 0); [lia|]. by destruct c.
Qed.

Lemma wp_switchuvm p i x (Q : unit -> kst alists W -> Prop) s :
  p = Some i -> procs s !! i = Some x -> p_pgdir x <> 0 -> cpu_ok (kcpu s) -> 0 < ncli (kcpu s) ->
  Q tt s -> wp E (switchuvm p) Q s.
Proof.
  intros -> Hx Hd Hc Hn HQ. unfold switchuvm. kopen s. wps.
  rewrite (proj2 (Z.eqb_neq (p_pgdir x) 0) Hd). wps.
  eapply wp_lift; [by apply popcli_pushcli|]. wps. by rewrite cpu_saved_id.
Qed.

Lemma wp_scheduler_level (i : nat) (Q : bool -> kst alists W -> Prop) s :
  table_ok None (procs s) (lists s) -> lk_held PTABLE s -> cpu_ok (kcpu s) ->
  0 < ncli (kcpu s) -> (i <= MAXPRIO)%nat ->
  (lists s (LReady i) = [] -> Q false s) ->
  (forall p rest x, lists s (LReady i) = p :: rest -> procs s !! p = Some x ->
    p_pgdir x <> 0 /\
    (let y := dispatched (ticks s) x in
     let b := push_front p LRunning (rem p (LReady i) (lists s)) in
     table_ok None (<[p := y]> (procs s)) b ->
     Q true (set_cur (Some p) (set_procs (<[p := y]> (procs s)) (set_lists b s))))) ->
  wp E (scheduler_level i) Q s.
Proof.
  intros Ht Hl Hc Hn Hi HQ0 HQ1.
  assert (Hv : valid_lid (LReady i) = true) by by apply Nat.leb_le.
  kopen s. unfold scheduler_level. apply wp_bind.
  eapply (wp_Ok _ _ _ (head (a (LReady i)))).
  { unfold liftL. simpl. unfold Abs.ready_. by rewrite (proj2 (Nat.leb_le i MAXPRIO) Hi). }
  destruct (a (LReady i)) as [|p rest] eqn:Hr; cbn [head].
  { kred. wps. by apply HQ0. }
  assert (Hin : p ∈ a (LReady i)) by (rewrite Hr; set_solver).
  destruct (table_lookup _ _ _ _ _ Ht Hv Hin) as (x & Hx & Hf).
  destruct (HQ1 p rest x eq_refl Hx) as [Hd HQ]. kred. wps.
  assert (Hst : p_state x = RUNNABLE /\ Z.to_nat (p_priority x) = i).
  { unfold fits in Hf. destruct (p_state x); simplify_eq; [naive_solver|done]. }
  destruct Hst as [Hst Hp].
  assert (Hok : proc_ok x) by by eapply (tb_proc _ _ _ Ht).
  eapply wp_switchuvm; [done|look|done|done|done|]. wps.
  eapply wp_assertPriority; [|held|].
  { kred. eapply table_frame; [done..|by apply ok_cpu_ticks_in|done|done]. }
  wps. cbn [p_priority set_p_cpu_ticks_in]. rewrite Hp. eapply wp_remove; [done..|]. wps.
  eapply wp_add_front; [done|by eapply tb_lists, table_remove|done|by eapply table_lt|]. wps.
  apply HQ. eapply table_move_front; [done..|by apply ok_state, ok_cpu_ticks_in|done|done].
Qed.

(** ** [kill] *)

(** A loop that searches list [l] for the first process with property [f]. *)
Lemma wp_search {R} l (f : nat -> bool) (body : nat -> M (kst alists W) (option R))
    (Q : option R -> kst alists W -> Prop) s :
  valid_lid l = true -> wf_lists None (lists s) ->
  (forall j, j ∈ lists s l -> f j = false -> body j s = Ok (None, s)) ->
  (forall j, List.find f (lists s l) = Some j ->
    wp E (body j) (fun r t => is_Some r /\ Q r t) s) ->
  (List.find f (lists s l) = None -> Q None s) ->
  wp E (for_each l body) Q s.
Proof.
  intros Hv Hw Hno Hyes HQ.
  apply (wp_for_each l (lists s l) _
    (fun dn t => t = s /\ forall rest, List.find f (dn ++ rest) = List.find f rest)); try done.
  - intros dn i rest t Hxs [-> Hdn]. destruct (f i) eqn:Hf.
    + eapply wp_mono; [apply Hyes; rewrite Hxs, Hdn; simpl; by rewrite Hf|].
      by intros [r|] t [[? ?] HQt].
    + eapply wp_Ok; [apply Hno; [rewrite Hxs; set_solver|done]|].
      split; [done|]. split; [done|]. split; [done|].
      intros rest'. rewrite <- app_assoc, Hdn. simpl. by rewrite Hf.
  - intros t [-> Hdn]. apply HQ. specialize (Hdn []). by rewrite app_nil_r in Hdn.
Qed.

Definition has_pid (pid : Z) (ps : list proc) (j : nat) : bool :=
  match ps !! j with Some y => p_pid y =? u32 pid | None => false end.

(** The processes [kill] can find, in the order it looks at them. *)
Definition kill_order (a : alists) : list nat :=
  a LEmbryo ++ concat (map (fun i => a (LReady i)) (seq 0 (S MAXPRIO))) ++ a LRunning ++ a LSleep.

(** Process [i] is marked, and woken when it sleeps. *)
Definition mark_killed (i : nat) s : kst alists W :=
  match procs s !! i with
  | Some x =>
      let s1 := set_procs (<[i := set_p_killed 1 x]> (procs s)) s in
      if decide (p_state x = SLEEPING) then wake i s1 else s1
  | None => s
  end.

Lemma find_app {A} (f : A -> bool) xs ys :
  List.find f (xs ++ ys) = match List.find f xs with Some x => Some x | None => List.find f ys end.
Proof. induction xs as [|x xs IH]; simpl; [done|]. by destruct (f x). Qed.

(** One search loop of [kill] with the lock held. *)
Lemma wp_kill_list pid l (k : nat -> M (kst alists W) unit)
    (Q : option Z -> kst alists W -> Prop) s :
  table_ok None (procs s) (lists s) -> valid_lid l = true -> lk_held PTABLE s ->
  forall c, popcli (kcpu s) = Ok c ->
  (forall i x, List.find (has_pid pid (procs s)) (lists s l) = Some i -> procs s !! i = Some x ->
    exists s2, k i (set_procs (<[i := set_p_killed 1 x]> (procs s)) s) = Ok (tt, s2) /\
      klocks s2 = klocks s /\ kcpu s2 = kcpu s /\
      Q (Some 0) (set_kcpu c (set_klocks (<[PTABLE := initlock]> (klocks s)) s2))) ->
  (List.find (has_pid pid (procs s)) (lists s l) = None -> Q None s) ->
  wp E (for_each l (kill_if pid k)) Q s.
Proof.
  intros Ht Hv Hl c Hc Hyes HQ. apply (wp_search l (has_pid pid (procs s))); [done|by eapply tb_lists|..|done].
  - intros j Hj Hf. destruct (table_lookup _ _ _ _ _ Ht Hv Hj) as (x & Hx & _).
    unfold has_pid in Hf. rewrite Hx in Hf. apply (wp_eq (kill_if _ _ _)). unfold kill_if.
    apply wp_bind. eapply wp_getp; [done|exact Hx|]. rewrite Hf. by apply wp_ret.
  - intros j Hj. pose proof Hj as [Hin Hf]%List.find_some. apply list_elem_of_In in Hin.
    destruct (table_lookup _ _ _ _ _ Ht Hv Hin) as (x & Hx & _).
    destruct (Hyes j x Hj Hx) as (s2 & Hk & Hlk & Hcp & HQ').
    unfold has_pid in Hf. rewrite Hx in Hf. unfold kill_if.
    apply wp_bind. eapply wp_getp; [done|exact Hx|]. rewrite Hf.
    apply wp_bind. eapply wp_modp; [done|exact Hx|]. apply wp_bind.
    eapply wp_Ok; [exact Hk|]. apply wp_bind. eapply wp_release.
    + unfold lk_held. by rewrite Hlk, Hcp.
    + by rewrite Hcp.
    + apply wp_ret. rewrite Hlk. eauto.
Qed.

(** [acquire] and [release] around a change that leaves the lock alone. *)
Definition released (c : cpu) s : kst alists W :=
  set_kcpu c (set_klocks (<[PTABLE := initlock]> (klocks s)) s).

Lemma mark_killed_locks i s :
  klocks (mark_killed i s) = klocks s /\ kcpu (mark_killed i s) = kcpu s.
Proof.
  unfold mark_killed, wake. destruct (procs s !! i) as [x|] eqn:Hx; [|done].
  destruct (decide _); [|done]. cbn [procs set_procs]. by erewrite lookup_set by done.
Qed.

Lemma released_acquired i c s :
  lk_free PTABLE s -> released c (mark_killed i (acquired PTABLE s)) = set_kcpu c (mark_killed i s).
Proof.
  intros Hl. unfold lk_free in Hl. destruct s as [ps a pt lks c' cu ip np tk fi w]. simpl in Hl.
  unfold released, mark_killed, wake, acquired. simpl.
  destruct (ps !! i) as [x|] eqn:Hx; simpl;
    [destruct (decide _); simpl; [erewrite lookup_set by done; simpl|]|];
    by rewrite list_insert_insert_eq, list_insert_id.
Qed.

(** The marking, as the search loops run it. *)
Lemma mark_awake_run i x s :
  procs s !! i = Some x -> p_state x <> SLEEPING ->
  mret (M := M (kst alists W)) tt (set_procs (<[i := set_p_killed 1 x]> (procs s)) s) = Ok (tt, mark_killed i s).
Proof. intros Hx Hst. unfold mark_killed. by rewrite Hx, decide_False. Qed.

Lemma mark_asleep_run i x msg s :
  table_ok None (procs s) (lists s) -> procs s !! i = Some x -> p_state x = SLEEPING ->
  make_runnable i msg (set_procs (<[i := set_p_killed 1 x]> (procs s)) s)
  = Ok (tt, mark_killed i s).
Proof.
  intros Ht Hx Hst. unfold mark_killed. rewrite Hx, decide_True by done.
  eapply (make_runnable_run i (set_p_killed 1 x)); [|by eapply lookup_set|done].
  eapply table_frame; [done..|by eapply ok_killed, tb_proc|done|done].
Qed.

Lemma not_sleeping ps a l i x :
  table_ok None ps a -> valid_lid l = true -> l <> LSleep -> i ∈ a l -> ps !! i = Some x ->
  p_state x <> SLEEPING.
Proof.
  intros Ht Hv Hl Hi Hx Hst. apply Hl, (wf_disj _ _ (tb_lists _ _ _ Ht) _ _ i); [done..|].
  by eapply table_sleeping.
Qed.

Lemma wp_kill pid (Q : Z -> kst alists W -> Prop) s :
  kinv s ->
  match List.find (has_pid pid (procs s)) (kill_order (lists s)) with
  | Some i => Q 0 (set_kcpu (cpu_saved (kcpu s)) (mark_killed i s))
  | None => Q (-1) (set_kcpu (cpu_saved (kcpu s)) s)
  end -> wp E (kill pid) Q s.
Proof.
  intros [Ht Hl Hc] HQ. unfold kill. apply wp_bind, wp_acquire; [done|].
  set (sa := acquired PTABLE s).
  assert (Hta : table_ok None (procs sa) (lists sa)) by done.
  assert (Hla : lk_held PTABLE sa) by (kopen s; by eapply lookup_set).
  assert (Hca : popcli (kcpu sa) = Ok (cpu_saved (kcpu s))) by by apply popcli_pushcli.
  unfold kill_order in HQ. rewrite !find_app in HQ.
  assert (Hdone : forall i, Q 0 (set_kcpu (cpu_saved (kcpu s)) (mark_killed i s)) ->
    Q 0 (set_kcpu (cpu_saved (kcpu s))
      (set_klocks (<[PTABLE := initlock]> (klocks sa)) (mark_killed i sa)))).
  { intros i. rewrite <- (released_acquired i _ s Hl). unfold released.
    by rewrite (proj1 (mark_killed_locks i (acquired PTABLE s))). }
  assert (Hawake : forall l (P : option Z -> kst alists W -> Prop),
    valid_lid l = true -> l <> LSleep -> (forall t, Q 0 t -> P (Some 0) t) ->
    match List.find (has_pid pid (procs s)) (lists s l) with
    | Some i => Q 0 (set_kcpu (cpu_saved (kcpu s)) (mark_killed i s))
    | None => P None sa
    end -> wp E (for_each l (kill_if pid (fun _ => mret tt))) P sa).
  { intros l P Hv Hne HP Hfind.
    eapply wp_kill_list; [done..| |intros Hn; simpl in Hn; by rewrite Hn in Hfind].
    intros i x Hi Hx. pose proof Hi as [Hin _]%List.find_some. apply list_elem_of_In in Hin.
    exists (mark_killed i sa). split; [|split; [|split]]; [|apply mark_killed_locks..|].
    - apply mark_awake_run; [done|]. by eapply not_sleeping.
    - apply HP, Hdone. simpl in Hi. by rewrite Hi in Hfind. }
  apply wp_bind, Hawake; [done..|]. destruct (List.find _ (lists s LEmbryo)); [done|].
  apply wp_bind. unfold for_ready.
  apply (wp_for_index _ (fun i t => t = sa /\ List.find (has_pid pid (procs s))
    (concat (map (fun i => lists s (LReady i)) (seq 0 i))) = None)); [done|..].
  { intros i t Hi [-> Hn]. apply Hawake; [apply Nat.leb_le; lia|done|done|].
    destruct (List.find _ (lists s (LReady i))) as [j|] eqn:Hj.
    - replace (List.find _ (concat _)) with (Some j) in HQ; [done|]. symmetry.
      replace (S MAXPRIO) with (i + S (MAXPRIO - i))%nat by lia.
      rewrite seq_app, map_app, concat_app, find_app, Hn. simpl. by rewrite find_app, Hj.
    - split; [done|]. rewrite seq_S, map_app, concat_app, find_app, Hn. simpl.
      by rewrite app_nil_r. }
  intros t [-> Hn]. rewrite Nat.add_0_l in Hn. rewrite Hn in HQ.
  apply wp_bind, Hawake; [done..|]. destruct (List.find _ (lists s LRunning)); [done|].
  apply wp_bind. eapply wp_kill_list; [done|done|done|done| |].
  - intros i x Hi Hx. pose proof Hi as [Hin _]%List.find_some. apply list_elem_of_In in Hin.
    exists (mark_killed i sa). split; [|split; [|split]]; [|apply mark_killed_locks..|].
    + apply mark_asleep_run; [done..|]. destruct (table_asleep _ _ _ Hta Hin) as (y & Hy & Hst).
      by simplify_eq.
    + apply wp_ret, Hdone. simpl in Hi. by rewrite Hi in HQ.
  - intros Hn'. simpl in Hn'. rewrite Hn' in HQ. apply wp_bind. eapply wp_release; [done..|].
    apply wp_ret. unfold sa. clear -HQ Hl. kopen s. kred. by rewrite list_insert_id.
Qed.

Lemma mark_killed_table i x s :
  table_ok None (procs s) (lists s) -> procs s !! i = Some x ->
  table_ok None (procs (mark_killed i s)) (lists (mark_killed i s)).
Proof.
  intros Ht Hx. unfold mark_killed. rewrite Hx.
  assert (Ht1 : table_ok None (<[i := set_p_killed 1 x]> (procs s)) (lists s)).
  { eapply table_frame; [done..|by eapply ok_killed, tb_proc|done|done]. }
  case_decide as Hst; [|done].
  eapply (make_runnable_run i (set_p_killed 1 x) ""); [done|by eapply lookup_set|done].
Qed.

(** ** [setPriority] *)

Definition ready_order (a : alists) : list nat :=
  concat (map (fun i => a (LReady i)) (seq 0 (S MAXPRIO))).

(** The loop over the ready lists: a process that is found there is on the
    list of its priority, so the loop returns at once. *)
Lemma wp_setPriority_ready h pid pr (Q : option Z -> kst alists W -> Prop) s :
  table_ok None (procs s) (lists s) ->
  match List.find (has_pid pid (procs s)) (ready_order (lists s)) with
  | Some j => forall x, procs s !! j = Some x -> Q (Some (p_priority x)) s
  | None => Q None s
  end -> wp E (for_ready (setPriority_ready h pid pr)) Q s.
Proof.
  intros Ht HQ. unfold for_ready, ready_order in *.
  apply (wp_for_index _ (fun i t => t = s /\ List.find (has_pid pid (procs s))
    (concat (map (fun i => lists s (LReady i)) (seq 0 i))) = None)); [done|..].
  { intros i t Hi [-> Hn]. assert (Hv : valid_lid (LReady i) = true) by (apply Nat.leb_le; lia).
    apply (wp_search _ (has_pid pid (procs s))); [done|by eapply tb_lists|..].
    - intros j Hj Hf. destruct (table_lookup _ _ _ _ _ Ht Hv Hj) as (x & Hx & _).
      unfold has_pid in Hf. rewrite Hx in Hf. apply (wp_eq (setPriority_ready _ _ _ _ _)).
      unfold setPriority_ready. apply wp_bind. eapply wp_getp; [done|exact Hx|]. rewrite Hf.
      by apply wp_ret.
    - intros j Hj. pose proof Hj as [Hin Hf]%List.find_some. apply list_elem_of_In in Hin.
      destruct (table_lookup _ _ _ _ _ Ht Hv Hin) as (x & Hx & Hfit).
      unfold has_pid in Hf. rewrite Hx in Hf. unfold setPriority_ready.
      apply wp_bind. eapply wp_getp; [done|exact Hx|]. rewrite Hf.
      assert (Hp : p_priority x = Z.of_nat i).
      { pose proof (ok_prio _ (tb_proc _ _ _ Ht _ _ Hx)). unfold fits in Hfit.
        destruct (p_state x); simplify_eq; [naive_solver|lia]. }
      rewrite Hp, Z.eqb_refl. apply wp_ret. split; [done|]. rewrite <- Hp.
      replace (List.find _ (concat _)) with (Some j) in HQ; [by apply HQ|]. symmetry.
      replace (S MAXPRIO) with (i + S (MAXPRIO - i))%nat by lia.
      rewrite seq_app, map_app, concat_app, find_app, Hn. simpl. by rewrite find_app, Hj.
    - intros Hn'. split; [done|]. rewrite seq_S, map_app, concat_app, find_app, Hn. simpl.
      by rewrite app_nil_r. }
  intros t [-> Hn]. rewrite Nat.add_0_l in Hn. by rewrite Hn in HQ.
Qed.

Lemma wp_setPriority_other h pid pr l (Q : option Z -> kst alists W -> Prop) s :
  table_ok None (procs s) (lists s) -> valid_lid l = true -> good_priority pr = true ->
  (forall j x, List.find (has_pid pid (procs s)) (lists s l) = Some j -> procs s !! j = Some x ->
    let y := set_p_budget MAXBUDG (set_p_priority pr x) in
    wp E (when (negb h) (release_lk PTABLE)) (fun _ => Q (Some pr))
      (set_procs (<[j := y]> (procs s)) s)) ->
  (List.find (has_pid pid (procs s)) (lists s l) = None -> Q None s) ->
  wp E (for_each l (setPriority_other h pid pr)) Q s.
Proof.
  intros Ht Hv Hg Hyes HQ. apply (wp_search l (has_pid pid (procs s))); [done|by eapply tb_lists|..|done].
  - intros j Hj Hf. destruct (table_lookup _ _ _ _ _ Ht Hv Hj) as (x & Hx & _).
    unfold has_pid in Hf. rewrite Hx in Hf. apply (wp_eq (setPriority_other _ _ _ _)).
    unfold setPriority_other. apply wp_bind. eapply wp_getp; [done|exact Hx|]. rewrite Hf.
    by apply wp_ret.
  - intros j Hj. pose proof Hj as [Hin Hf]%List.find_some. apply list_elem_of_In in Hin.
    destruct (table_lookup _ _ _ _ _ Ht Hv Hin) as (x & Hx & _).
    specialize (Hyes j x Hj Hx). unfold has_pid in Hf. rewrite Hx in Hf. unfold setPriority_other.
    apply wp_bind. eapply wp_getp; [done|exact Hx|]. rewrite Hf, Hg.
    apply wp_bind. eapply wp_modp; [done|exact Hx|].
    apply wp_bind. eapply wp_modp; [done|by eapply lookup_set|].
    cbn [procs set_procs]. rewrite list_insert_insert_eq. apply wp_bind.
    eapply wp_mono; [exact Hyes|]. intros [] t Hq. by apply wp_ret.
Qed.

End Sched.

Section Exact.
Context {W : Type} {PE : ProcEnv W}.
Implicit Types s t : kst alists W.

(** A ready process: its level is returned, nothing is changed, and the lock
    stays taken. *)
Lemma setPriority_ready_run pid pr j x s :
  kinv s -> List.find (has_pid pid (procs s)) (ready_order (lists s)) = Some j ->
  procs s !! j = Some x -> setPriority pid pr s = Ok (p_priority x, acquired PTABLE s).
Proof.
  intros [Ht Hl Hc] Hj Hx. apply (wp_eq (setPriority _ _)). unfold setPriority.
  apply wp_bind, wp_holding_free; [done|]. apply wp_bind, wp_acquire; [done|].
  apply wp_bind, wp_setPriority_ready; [done|]. simpl. rewrite Hj. intros y Hy.
  simplify_eq. by apply wp_ret.
Qed.

(** A running or sleeping process gets the priority and a fresh budget. *)
Lemma setPriority_other_run pid pr j x s :
  kinv s -> good_priority pr = true ->
  List.find (has_pid pid (procs s)) (ready_order (lists s)) = None ->
  List.find (has_pid pid (procs s)) (lists s LRunning ++ lists s LSleep) = Some j ->
  procs s !! j = Some x ->
  setPriority pid pr s = Ok (pr, set_kcpu (cpu_saved (kcpu s))
    (set_procs (<[j := set_p_budget MAXBUDG (set_p_priority pr x)]> (procs s)) s)).
Proof.
  intros [Ht Hl Hc] Hg Hr Hj Hx. apply (wp_eq (setPriority _ _)). unfold setPriority.
  apply wp_bind, wp_holding_free; [done|]. apply wp_bind, wp_acquire; [done|].
  apply wp_bind, wp_setPriority_ready; [done|]. simpl. rewrite Hr. rewrite find_app in Hj.
  apply wp_bind, wp_setPriority_other; [done..| |].
  - intros j' x' Hj' Hx'. simpl in *. rewrite Hj' in Hj. simplify_eq.
    eapply wp_release; [kopen s; look|by apply popcli_pushcli|]. apply wp_ret.
    kopen s. kred. by rewrite (list_insert_id lks).
  - intros Hn. simpl in Hn. rewrite Hn in Hj. apply wp_bind, wp_setPriority_other; [done..| |].
    + intros j' x' Hj' Hx'. simpl in *. rewrite Hj' in Hj. simplify_eq.
      eapply wp_release; [kopen s; look|by apply popcli_pushcli|]. apply wp_ret.
      kopen s. kred. by rewrite (list_insert_id lks).
    + intros Hn'. simpl in Hn'. congruence.
Qed.

End Exact.
