(* ===== verification/ProcBoot.v ===== *)
(** * Creating the first process (proc.c: [userinit])

    From a table in any state, [userinit] establishes the invariant of
    [ProcInv]: process 0 is ready, its own parent and [initproc], and every
    other process is on the free list. *)

From stdpp Require Import base numbers list sets strings.
From S2P Require Import Prelude Strings Spinlock StateLists Proc ProcInv ProcSpec ProcLife.

Open Scope Z_scope.

Section Boot.
Context {W : Type} {PE : ProcEnv W} {E : error -> Prop} {ES : EnvSafe (E := E)}.
Implicit Types s : kst alists W.

(** The lists after the first [n] processes were freed. *)
Definition freed_lists (n : nat) (a : alists) : Prop :=
  forall l, valid_lid l = true -> a l = if decide (l = LFree) then seq 0 n else [].

Lemma wp_free_all n m (Q : unit -> kst alists W -> Prop) s :
  (n + m <= NPROC)%nat -> length (procs s) = NPROC -> freed_lists n (lists s) ->
  (forall i x, procs s !! i = Some x -> (i < n)%nat -> p_state x = UNUSED) ->
  (forall i x, procs s !! i = Some x -> proc_ok x) ->
  (forall ps a, length ps = NPROC -> freed_lists (n + m) a ->
     (forall i x, ps !! i = Some x -> (i < n + m)%nat -> p_state x = UNUSED) ->
     (forall i x, ps !! i = Some x -> proc_ok x) ->
     Q tt (set_procs ps (set_lists a s))) ->
  wp E (free_all (seq n m)) Q s.
Proof.
  revert n s. induction m as [|m IH]; intros n s Hn Hlen Hfr Hun Hok HQ; cbn [seq free_all].
  - apply wp_ret. rewrite Nat.add_0_r in HQ. specialize (HQ (procs s) (lists s) Hlen Hfr Hun Hok).
    by destruct s.
  - destruct (lookup_lt_is_Some_2 (procs s) n) as [x Hx]; [lia|].
    apply wp_bind. eapply wp_modp; [done|exact Hx|]. apply wp_bind.
    assert (Hadd : Abs.addable LFree n (lists s) = true).
    { apply addable_spec. split_and!; [done|lia|]. intros l Hv. rewrite (Hfr l Hv).
      case_decide; [rewrite elem_of_seq; lia|apply not_elem_of_nil]. }
    eapply wp_Ok.
    { unfold liftL. simpl. rewrite Hadd. reflexivity. }
    apply IH; cbn [procs lists set_procs set_lists].
    + lia.
    + by rewrite length_insert.
    + intros l Hv. unfold Abs.upd. rewrite (Hfr LFree eq_refl : lists s LFree = seq 0 n).
      destruct (decide (LFree = l)) as [<-|Hne].
      * rewrite decide_True by done. by rewrite seq_S.
      * rewrite (Hfr l Hv). by rewrite !decide_False by congruence.
    + intros i y Hy Hi. apply list_lookup_insert_Some in Hy as [(_ & <- & _)|[Hne Hy]]; [done|].
      apply (Hun i y Hy). lia.
    + intros i y Hy. apply list_lookup_insert_Some in Hy as [(_ & <- & _)|[Hne Hy]]; [|by eauto].
      apply ok_state. eauto.
    + intros ps a Hl Hf Hu Ho. replace (S n + m)%nat with (n + S m)%nat in * by lia.
      specialize (HQ ps a Hl Hf Hu Ho). by destruct s.
Qed.

Lemma freed_table ps a :
  length ps = NPROC -> freed_lists NPROC a ->
  (forall i x, ps !! i = Some x -> p_state x = UNUSED) ->
  (forall i x, ps !! i = Some x -> proc_ok x) -> table_ok None ps a.
Proof.
  intros Hlen Hfr Hun Hok. split; [done| |done|].
  - split.
    + intros l Hv. rewrite (Hfr l Hv). case_decide; [apply NoDup_seq|constructor].
    + intros l l' i Hv Hv'. rewrite (Hfr l Hv), (Hfr l' Hv').
      do 2 case_decide; subst; try done; intros H1 H2;
        first [by apply not_elem_of_nil in H1|by apply not_elem_of_nil in H2].
    + intros l i Hv. rewrite (Hfr l Hv). case_decide; [rewrite elem_of_seq; lia|].
      by intros ?%not_elem_of_nil.
    + intros i Hi _. exists LFree. split; [done|]. rewrite (Hfr LFree eq_refl).
      rewrite decide_True by done. apply elem_of_seq. lia.
    + done.
  - intros l i x Hv Hi Hx. rewrite (Hfr l Hv) in Hi. unfold fits. rewrite (Hun i x Hx).
    case_decide; [by left|]. by apply not_elem_of_nil in Hi.
Qed.

(** The state in which the processes run for the first time. *)
Record booted s : Prop := {
  bt_inv : kinv s;
  bt_init : initproc s = Some 0%nat;
  bt_free : lists s LFree = seq 1 (NPROC - 1);
  bt_ready : lists s (LReady 0) = [0%nat];
  bt_rest l : valid_lid l = true -> l <> LFree -> l <> LReady 0 -> lists s l = [];
  bt_proc : exists y, procs s !! 0%nat = Some y /\ p_state y = RUNNABLE /\
    p_parent y = Some 0%nat /\ p_uid y = PROC_UID /\ p_gid y = PROC_GID /\
    p_trapframe y = initcode_tf /\ p_sz y = PGSIZE;
}.

(** The part of [userinit] that prepares the lists. *)
Lemma wp_userinit_lists (Q : unit -> kst alists W -> Prop) s :
  length (procs s) = NPROC -> (forall i x, procs s !! i = Some x -> proc_ok x) ->
  lk_free PTABLE s -> cpu_ok (kcpu s) ->
  (forall ps a, let t := set_procs ps (set_lists a (set_kcpu (cpu_saved (kcpu s)) s)) in
    kinv t -> freed_lists NPROC a -> Q tt t) ->
  wp E userinit_lists Q s.
Proof.
  intros Hlen Hok Hl Hc HQ. kopen s. unfold userinit_lists. wps.
  eapply (wp_Ok (liftL initProcessLists)); [reflexivity|]. kred. wps. unfold initFreeList. wps.
  apply (wp_free_all 0 NPROC); try done.
  { intros l _. by case_decide. }
  { intros i x _ Hi. lia. }
  intros ps' a' Hlen' Hfr Hun Hok'. kred. unlock. apply HQ; [|done]. split; [|done|done].
  apply freed_table; try done. intros i x Hx. eapply Hun; [done|].
  rewrite Nat.add_0_l, <- Hlen'. exact (lookup_lt_Some _ _ _ Hx).
Qed.

Lemma wp_userinit s :
  length (procs s) = NPROC -> (forall i x, procs s !! i = Some x -> proc_ok x) ->
  lk_free PTABLE s -> cpu_ok (kcpu s) ->
  (forall w k w', env_kalloc w = Ok (k, w') -> k <> 0) ->
  (forall w d w', env_setupkvm w = Ok (d, w') -> d <> 0) ->
  wp E userinit (fun _ s' => booted s') s.
Proof.
  intros Hlen Hok Hl Hc Hkal Hkvm. unfold userinit. apply wp_bind.
  apply wp_userinit_lists; [done..|]. intros ps0 a0 t Hk Hfr0. apply wp_bind.
  assert (Hfr : freed_lists NPROC (lists t)) by exact Hfr0.
  clear Hlen Hok Hl Hc Hfr0. revert Hk Hfr. generalize t. clear t ps0 a0 s. intros t Hk Hfr.
  assert (Hfree : lists t LFree = 0%nat :: seq 1 (NPROC - 1)) by exact (Hfr LFree eq_refl).
  apply wp_allocproc; [done|rewrite Hfree; done|].
  intros i rest z k w' Hfree' Hz Hkz. rewrite Hfree in Hfree'. simplify_eq. cbv zeta.
  rewrite (proj2 (Z.eqb_neq k 0) (Hkal _ _ _ Hkz)).
  destruct Hk as [Ht Hl Hc]. pose proof (tb_proc _ _ _ Ht _ _ Hz) as Hzok.
  assert (Hc2 : cpu_ok (cpu_saved (kcpu t))) by exact Hc.
  pose proof (allocated_ok (nextpid t) k (ticks t) z Hzok) as Hyok.
  kopen t. unfold alloc_state. kred.
  assert (Hyst : p_state (allocated np k tk z) = EMBRYO /\ p_priority (allocated np k tk z) = 0) by done.
  abstract_as (allocated np k tk z) y. wps.
  eapply wp_liftW; [apply safe_setupkvm|]. intros d w2 Hd. wps.
  rewrite (proj2 (Z.eqb_neq d 0) (Hkvm _ _ _ Hd)). wps.
  eapply wp_liftW; [apply safe_inituvm|]. intros _ w3 _. wps.
  eapply wp_set_name; [done|look|eapply ok_name_length; eauto 10 with proc_ok| |].
  { left. by apply (bool_decide_unpack (0 ∈ initcode_name)). }
  intros nm Hnl _. wps.
  eapply wp_liftW; [apply safe_namei_root|]. intros cw w4 _. wps.
  set (v := set_p_parent _ _).
  assert (Hv : proc_ok v) by (unfold v; eauto 12 with proc_ok).
  assert (Hvs : p_state v = EMBRYO /\ p_priority v = 0 /\ p_parent v = Some 0%nat /\
    p_uid v = PROC_UID /\ p_gid v = PROC_GID /\ p_trapframe v = initcode_tf /\ p_sz v = PGSIZE).
  { clear -Hyst. unfold v. destruct y. simpl in *. by destruct Hyst as [-> ->]. }
  revert Hv Hvs. generalize v. clear v. intros v Hv Hvs. destruct Hvs as (Hvst & Hvp & Hvr).
  assert (Hin : 0%nat ∈ embryo_lists 0 a LEmbryo).
  { unfold embryo_lists, push_front. rewrite upd_eq. set_solver. }
  eapply wp_remove; [done..|]. wps.
  assert (Hvp' : p_priority (set_p_state RUNNABLE v) = 0) by exact Hvp. rewrite Hvp'.
  destruct (fork_table ps a 0 (seq 1 (NPROC - 1)) z (set_p_state RUNNABLE v) (LReady 0))
    as (Hw & Ht' & _); [done|done|done|by apply ok_state|done| |].
  { unfold fits. cbn [p_state set_p_state p_priority]. by rewrite Hvp. }
  eapply wp_add; [done|exact Hw|done|by eapply (table_lt _ ps)|]. wps. unlock.
  assert (Hat : forall l, valid_lid l = true -> push 0 (LReady 0) (rem 0 LEmbryo (embryo_lists 0 a)) l =
    if decide (l = LFree) then seq 1 (NPROC - 1) else if decide (l = LReady 0) then a l ++ [0%nat] else a l).
  { intros l Hvl. by apply fork_lists_at; [eapply tb_lists|..]. }
  split.
  - by split.
  - done.
  - exact (Hat LFree eq_refl).
  - etrans; [exact (Hat (LReady 0) eq_refl)|]. simpl. by rewrite (Hfr (LReady 0)).
  - intros l Hvl H1 H2. etrans; [exact (Hat l Hvl)|]. rewrite !decide_False by done.
    rewrite (Hfr l Hvl). by rewrite decide_False.
  - exists (set_p_state RUNNABLE v). split; [by eapply lookup_set|]. split; [done|]. exact Hvr.
Qed.

End Boot.
