(* ===== verification/ProcDemo.v ===== *)
(** * A concrete process table

    Process 0 runs; 1 and 2 sleep on the same channel; 3 is ready at level 1;
    4 is a zombie whose parent is 0; 5 is [init], asleep; the others are free.
    The table satisfies the invariant and its pointers represent its lists:
    the state at which the theorems about processes are instantiated. *)

From stdpp Require Import base numbers list sets strings.
From S2P Require Import Prelude Strings Spinlock StateLists Proc ProcRefine ProcInv ProcSpec.

Open Scope Z_scope.

(** An environment whose calls succeed. *)
#[export] Instance demo_env : ProcEnv unit := {|
  env_kalloc := mret 4096;
  env_kfree _ := mret tt;
  env_setupkvm := mret 8192;
  env_inituvm _ := mret tt;
  env_copyuvm _ _ := mret 12288;
  env_freevm _ := mret tt;
  env_allocuvm _ _ n := mret n;
  env_deallocuvm _ _ n := mret n;
  env_filedup _ := mret tt;
  env_fileclose _ := mret tt;
  env_idup _ := mret tt;
  env_iput _ := mret tt;
  env_namei_root := mret (Some 1%nat);
  env_begin_op := mret tt;
  env_end_op := mret tt;
  env_fs_init := mret tt;
|}.

#[export] Instance demo_env_safe : EnvSafe (PE := demo_env) (E := no_error).
Proof. by split. Qed.

(** The same, but out of memory. *)
Definition demo_env_full : ProcEnv unit := {|
  env_kalloc := mret 0;
  env_kfree _ := mret tt;
  env_setupkvm := mret 0;
  env_inituvm _ := mret tt;
  env_copyuvm _ _ := mret 0;
  env_freevm _ := mret tt;
  env_allocuvm _ _ n := mret 0;
  env_deallocuvm _ _ n := mret n;
  env_filedup _ := mret tt;
  env_fileclose _ := mret tt;
  env_idup _ := mret tt;
  env_iput _ := mret tt;
  env_namei_root := mret (Some 1%nat);
  env_begin_op := mret tt;
  env_end_op := mret tt;
  env_fs_init := mret tt;
|}.

Lemma demo_full_safe : EnvSafe (PE := demo_env_full) (E := no_error).
Proof. by split. Qed.

Definition demo_proc (st : procstate) (pid : Z) (parent : pptr) (ch : chan) (prio : Z) : proc :=
  mkproc 4096 8192 4096 st pid parent 0 tf_zero 0 InSched ch 0 (replicate NOFILE None) (Some 1%nat)
    (replicate 16 0) 0 0 0 0 0 prio MAXBUDG true.

Definition demo_procs : list proc :=
  [demo_proc RUNNING 2 (Some 5%nat) CNull 0;
   demo_proc SLEEPING 3 (Some 0%nat) CTicks 0;
   demo_proc SLEEPING 4 (Some 0%nat) CTicks 2;
   demo_proc RUNNABLE 5 (Some 5%nat) CNull 1;
   demo_proc ZOMBIE 6 (Some 0%nat) CNull 0;
   demo_proc SLEEPING 1 (Some 5%nat) (CProc 5) 0]
  ++ replicate 58 (demo_proc UNUSED 0 None CNull 0).

Definition demo_lists : alists := fun l =>
  match l with
  | LFree => seq 6 58
  | LRunning => [0]
  | LSleep => [1; 2; 5]
  | LReady 1 => [3]
  | LZombie => [4]
  | _ => []
  end%nat.

(** [next] of every process: the free list is threaded in order. *)
Definition demo_plists : plists :=
  (mkplists [None; Some 3; None; None; None; None; None] [None; Some 3; None; None; None; None; None]
    (Some 6) (Some 63) (Some 1) (Some 5) (Some 4) (Some 4) (Some 0) (Some 0) None None
    ([None; Some 2; Some 5; None; None; None] ++ (Some <$> seq 7 57) ++ [None]))%nat.

Definition demo_cpu : cpu := mkcpu 0 0 true true.

Definition demo_state {L : Type} (l : L) : kst L unit :=
  mkkst demo_procs l 4000 [initlock] demo_cpu (Some 0%nat) (Some 5%nat) 7 10 false tt.

(** ** The invariant, by evaluation *)

Definition okb (x : proc) : bool :=
  (0 <=? p_priority x) && (p_priority x <=? Z.of_nat MAXPRIO) &&
  (length (p_ofile x) =? NOFILE)%nat && (length (p_name x) =? 16)%nat.

Lemma okb_ok x : okb x = true -> proc_ok x.
Proof.
  unfold okb. rewrite !andb_true_iff, !Z.leb_le, !Nat.eqb_eq. intros [[[? ?] ?] ?]. by split.
Qed.

Definition fitsb (x : proc) (l : lid) : bool :=
  match p_state x with
  | UNUSED => bool_decide (l = LFree) || bool_decide (l = LEmbryo)
  | _ => bool_decide (l = home x)
  end.

Lemma fitsb_fits x l : fitsb x l = true -> fits x l.
Proof.
  unfold fitsb, fits, home. destruct (p_state x); rewrite ?orb_true_iff, ?bool_decide_eq_true; done.
Qed.

(** Every process is on exactly one list. *)
Definition once (a : alists) (i : nat) : bool :=
  match filter (fun l => i ∈ a l) all_lids with [_] => true | _ => false end.

Definition tableb (ps : list proc) (a : alists) : bool :=
  (length ps =? NPROC)%nat && forallb okb ps &&
  forallb (once a) (seq 0 NPROC) &&
  forallb (fun l => bool_decide (NoDup (a l)) &&
    forallb (fun i => match ps !! i with Some x => fitsb x l | None => false end) (a l)) all_lids.

Lemma once_disj a l l' i :
  once a i = true -> valid_lid l = true -> valid_lid l' = true -> i ∈ a l -> i ∈ a l' -> l = l'.
Proof.
  unfold once. intros Ho Hv Hv' Hi Hi'.
  assert (H1 : l ∈ filter (fun l => i ∈ a l) all_lids).
  { apply list_elem_of_filter. split; [done|by apply elem_all_lids]. }
  assert (H2 : l' ∈ filter (fun l => i ∈ a l) all_lids).
  { apply list_elem_of_filter. split; [done|by apply elem_all_lids]. }
  destruct (filter _ _) as [|l0 [|]]; [done| |done].
  apply list_elem_of_singleton in H1, H2. congruence.
Qed.

Lemma tableb_ok ps a : tableb ps a = true -> table_ok None ps a.
Proof.
  unfold tableb. rewrite !andb_true_iff, Nat.eqb_eq, !forallb_forall.
  intros [[[Hl Hok] Ho] Hf].
  assert (Hb : forall l i, valid_lid l = true -> i ∈ a l ->
    exists x, ps !! i = Some x /\ fits x l /\ (i < NPROC)%nat).
  { intros l i Hv Hi. specialize (Hf l). rewrite <- list_elem_of_In, elem_all_lids in Hf.
    specialize (Hf Hv). rewrite andb_true_iff, forallb_forall in Hf. destruct Hf as [_ Hf].
    specialize (Hf i). rewrite <- list_elem_of_In in Hf. specialize (Hf Hi).
    destruct (ps !! i) as [x|] eqn:Hx; [|done]. exists x. split; [done|].
    split; [by apply fitsb_fits|]. rewrite <- Hl. by eapply lookup_lt_Some. }
  split; [done|split|..].
  - intros l Hv. specialize (Hf l). rewrite <- list_elem_of_In, elem_all_lids in Hf.
    specialize (Hf Hv). rewrite andb_true_iff, bool_decide_eq_true in Hf. by destruct Hf.
  - intros l l' i Hv Hv' Hi Hi'. eapply (once_disj a _ _ i); [|done..].
    apply Ho, List.in_seq. destruct (Hb l i Hv Hi) as (x & _ & _ & ?). lia.
  - intros l i Hv Hi. by destruct (Hb l i Hv Hi) as (x & _ & _ & ?).
  - intros i Hi _. assert (Hoi : once a i = true) by (apply Ho, List.in_seq; lia).
    unfold once in Hoi. destruct (filter _ _) as [|l [|]] eqn:E; [done| |done].
    assert (Hl' : l ∈ filter (fun l => i ∈ a l) all_lids) by (rewrite E; set_solver).
    apply list_elem_of_filter in Hl' as [? Hl']. exists l. by rewrite <- elem_all_lids.
  - done.
  - intros i x Hx. apply okb_ok, Hok, list_elem_of_In. by eapply list_elem_of_lookup_2.
  - intros l i x Hv Hi Hx. destruct (Hb l i Hv Hi) as (y & Hy & Hfit & _). by simplify_eq.
Qed.

Lemma demo_kinv : kinv (demo_state demo_lists).
Proof. split; [by apply tableb_ok; vm_compute|done|split; simpl; [lia|done]]. Qed.

Lemma demo_running : running 0 (demo_proc RUNNING 2 (Some 5%nat) CNull 0) (demo_state demo_lists).
Proof. by split. Qed.

(** ** The pointers *)

Fixpoint lsegb (nx : list pptr) (h : pptr) (xs : list nat) (t : pptr) : bool :=
  match xs with
  | [] => bool_decide (h = t)
  | i :: xs => bool_decide (h = Some i) &&
      match nx !! i with Some n => lsegb nx n xs t | None => false end
  end.

Lemma lsegb_lseg nx h xs t : lsegb nx h xs t = true -> lseg nx h xs t.
Proof.
  revert h. induction xs as [|i xs IH]; intros h; simpl.
  - by rewrite bool_decide_eq_true.
  - rewrite andb_true_iff, bool_decide_eq_true. intros [-> H]. split; [done|].
    destruct (nx !! i) as [n|]; [|done]. eauto.
Qed.

Definition representsb (s : plists) (a : alists) : bool :=
  forallb (fun l => match Ptr.get_head l s, Ptr.get_tail l s with
    | Some h, Some t => lsegb (pnext s) h (a l) None && bool_decide (t = last (a l))
    | _, _ => false end) all_lids.

Lemma representsb_ok s a ps :
  length (pl_ready s) = S MAXPRIO -> length (pl_ready_tail s) = S MAXPRIO ->
  length (pnext s) = NPROC -> table_ok None ps a -> representsb s a = true -> represents s a.
Proof.
  intros H1 H2 H3 Ht Hb. unfold representsb in Hb. rewrite forallb_forall in Hb. split; try done.
  - intros l Hv. specialize (Hb l). rewrite <- list_elem_of_In, elem_all_lids in Hb.
    specialize (Hb Hv). destruct (Ptr.get_head l s) as [h|], (Ptr.get_tail l s) as [t|]; try done.
    rewrite andb_true_iff, bool_decide_eq_true in Hb. destruct Hb as [Hs Hl].
    exists h, t. split; [done|]. split; [done|]. split; [by apply lsegb_lseg|done].
  - apply (wf_nodup _ _ (tb_lists _ _ _ Ht)).
  - apply (wf_disj _ _ (tb_lists _ _ _ Ht)).
Qed.

Lemma demo_represents : represents demo_plists demo_lists.
Proof.
  apply (representsb_ok _ _ demo_procs); [done..|apply demo_kinv|by vm_compute].
Qed.

Lemma demo_krel : krel represents (demo_state demo_plists) (demo_state demo_lists).
Proof. exists demo_plists. split; [done|apply demo_represents]. Qed.

(** The same table in the scheduler: the lock is held, nobody runs on this
    CPU, and a promotion is due. *)
Definition demo_locked {L : Type} (l : L) : kst L unit :=
  mkkst demo_procs l 4 [mkspinlock 1 (Some 0%nat)] (mkcpu 0 1 true false) None (Some 5%nat)
    7 10 false tt.

Lemma demo_locked_krel : krel represents (demo_locked demo_plists) (demo_locked demo_lists).
Proof. exists demo_plists. split; [done|apply demo_represents]. Qed.

Lemma demo_locked_table : table_ok None (procs (demo_locked demo_lists)) (lists (demo_locked demo_lists)).
Proof. exact (ki_table _ demo_kinv). Qed.
