(* ===== verification/ProcTheorems.v ===== *)
(** * Theorems about processes, over the pointers of the source

    The specifications of [ProcSpec], [ProcLife], [ProcExit], [ProcSched] and
    [ProcBoot] carried to the pointer-level lists by [ProcRefine]: [c] is the
    state of the program, with its [next] fields and head and tail pointers,
    and [a] the same state with the lists those pointers represent. *)

From stdpp Require Import base numbers list sets strings.
From S2P Require Import Prelude Strings Spinlock StateLists Proc ProcRefine ProcInv ProcSpec ProcLife ProcExit ProcSched ProcBoot ProcDemo.

Open Scope Z_scope.

(** ** The list routines *)

(** [stateListAdd] of a process that is on no list appends it to the list
    its arguments denote and leaves every other list alone. *)
Theorem stateListAdd_appends l i s a :
  represents s a -> valid_lid l = true -> (i < NPROC)%nat ->
  (forall l', valid_lid l' = true -> i ∉ a l') ->
  exists s', Ptr.stateListAdd l (Some i) s = Ok (tt, s') /\
    represents s' (Abs.upd l (a l ++ [i]) a).
Proof.
  intros Hr Hv Hi Hno. pose proof (add_refines l (Some i) s a Hr) as H. simpl in H.
  by rewrite (proj2 (addable_spec l i a)) in H.
Qed.

(** [stateListRemove] from a non-empty list takes the process out of it,
    wherever it is in the list, and returns 0; it returns -1 and changes
    nothing when the process is not on the list. *)
Theorem stateListRemove_removes l i s a :
  represents s a -> valid_lid l = true -> a l <> [] ->
  if decide (i ∈ a l) then
    exists s', Ptr.stateListRemove l (Some i) s = Ok (0, s') /\
      represents s' (Abs.upd l (filter (fun x => x <> i) (a l)) a)
  else exists s', Ptr.stateListRemove l (Some i) s = Ok (-1, s') /\ represents s' a.
Proof.
  intros Hr Hv Hne. pose proof (remove_refines l (Some i) s a Hr) as H. simpl in H.
  rewrite Hv, bool_decide_true in H by done. simpl in H. by case_decide.
Qed.

(** [countList] of the head of a list returns its length, whatever the
    list: the walk ends. *)
Theorem countList_length l s a :
  represents s a -> valid_lid l = true ->
  exists h, Ptr.get_head l s = Some h /\
    Ptr.countList NPROC h s = Ok (Z.of_nat (length (a l)), s).
Proof.
  intros Hr Hv. destruct (rep_list _ _ Hr l Hv) as (h & t & Hh & _ & Hs & _).
  exists h. split; [done|]. apply countList_lseg; [done|]. by eapply rep_length.
Qed.

(** ** The routines of proc.c *)

Section Theorems.
Context {W : Type} {PE : ProcEnv W} {E : error -> Prop} {ES : EnvSafe (E := E)}.
Implicit Types (c : kst plists W) (a : kst alists W).

(** C38. [userinit]: from a process table in any state, with every [proc] in
    range and memory available, the pointer code builds lists that represent
    the booted state: process 0 alone is runnable, its own parent and
    [initproc], the other 63 are on the free list, and the table invariant
    holds.  It does not panic or fault. *)
Theorem userinit_boots c a :
  soft E -> krel represents c a -> length (procs a) = NPROC ->
  (forall i x, procs a !! i = Some x -> proc_ok x) -> lk_free PTABLE a -> cpu_ok (kcpu a) ->
  (forall w k w', env_kalloc w = Ok (k, w') -> k <> 0) ->
  (forall w d w', env_setupkvm w = Ok (d, w') -> d <> 0) ->
  wp E userinit (fun _ c' => exists a', krel represents c' a' /\ booted a') c.
Proof.
  intros HE Hca Hlen Hok Hl Hc Hk Hd.
  eapply wp_transfer; [done|apply sim_userinit|exact Hca|]. by apply wp_userinit.
Qed.


(** C19. [exit] of a process other than init: it closes each open file once and
    puts its directory, and reaches the scheduler holding exactly ptable.lock, as
    a zombie that keeps its stack and memory, last on the zombie list.  Every
    process in use that was its child is now init's, the others keep their
    parents.  It wakes its parent, when that waits for it, and init, when it
    leaves it a zombie; nothing else of the other processes changes, and the
    table invariant holds. *)
Theorem exit_correct me x i0 cw c a :
  soft E -> krel represents c a -> kinv a -> running me x a -> initproc a = Some i0 ->
  me <> i0 -> p_cwd x = Some cw -> ncli (kcpu a) = 0 ->
  wp E exit (fun _ c' => exists a', krel represents c' a' /\ exit_post me i0 x cw a a') c.
Proof.
  intros HE Hca Hk Hr Hi Hne Hcw Hn.
  eapply wp_transfer; [done|apply sim_exit|exact Hca|]. by eapply wp_exit.
Qed.

(** C20. [wait]: if the caller has a zombie child, the first one on the zombie
    list is released to the free list, cleared, and its pid returned; if it
    has no live child either, or is killed, it returns -1 and changes nothing;
    otherwise it goes to sleep on its own address with the lock held.  In
    each case the table invariant holds. *)
Theorem wait_correct me x c a :
  soft E -> krel represents c a -> kinv a -> running me x a -> ncli (kcpu a) = 0 ->
  wp E wait (fun r c' => exists a', krel represents c' a' /\ wait_post me x a r a') c.
Proof.
  intros HE Hca Hk Hr Hn.
  eapply wp_transfer; [done|apply sim_wait|exact Hca|]. by apply wp_wait.
Qed.

(** [yield] reaches the scheduler: the process is ready at the end of the
    list of its (possibly demoted) priority, its budget is charged for the
    ticks it ran, and the table invariant holds. *)
Theorem yield_correct me x c a :
  krel represents c a -> kinv a -> running me x a -> ncli (kcpu a) = 0 ->
  let y := yielded (ticks a) (fl_if (kcpu a)) x in
  let b := push me (LReady (Z.to_nat (p_priority y))) (rem me LRunning (lists a)) in
  exists c', yield c = Ok (tt, c') /\
    krel represents c' (set_procs (<[me := y]> (procs a)) (set_lists b (acquired PTABLE a))) /\
    table_ok None (<[me := y]> (procs a)) b.
Proof.
  intros Hca Hk Hr Hn y b. destruct (yield_run me x a Hk Hr Hn) as [Hy Ht].
  destruct (run_transfer _ _ _ _ _ _ sim_yield Hca Hy) as (c' & Hc' & Hr'). eauto.
Qed.

(** [sleep] without a lock reaches the scheduler: the process is asleep on
    [ch] at the end of the sleep list, charged and demoted as [yield] does. *)
Theorem sleep_correct me x ch c a :
  krel represents c a -> kinv a -> running me x a -> ncli (kcpu a) = 0 ->
  let y := slept (ticks a) (fl_if (kcpu a)) ch x in
  let b := push me LSleep (rem me LRunning (lists a)) in
  exists c', sleep ch None c = Ok (tt, c') /\
    krel represents c' (set_procs (<[me := y]> (procs a)) (set_lists b (acquired PTABLE a))) /\
    table_ok None (<[me := y]> (procs a)) b.
Proof.
  intros Hca Hk Hr Hn y b. destruct (sleep_nolock_run me x ch a Hk Hr Hn) as [Hy Ht].
  destruct (run_transfer _ _ _ _ _ _ (sim_sleep ch None) Hca Hy) as (c' & Hc' & Hr'). eauto.
Qed.

(** [wakeup] makes exactly the first process of the sleep list that sleeps
    on the channel runnable, at the end of the ready list of its priority, and
    keeps the table invariant. *)
Theorem wakeup_wakes_first ch c a :
  krel represents c a -> kinv a ->
  exists c', wakeup ch c = Ok (tt, c') /\
    krel represents c' (set_kcpu (cpu_saved (kcpu a)) (wake_first ch a)) /\
    table_ok None (procs (wake_first ch a)) (lists (wake_first ch a)).
Proof.
  intros Hca Hk.
  destruct (run_transfer _ _ _ _ _ _ (sim_wakeup ch) Hca (wakeup_run ch a Hk)) as (c' & Hc' & Hr').
  exists c'. split_and!; [done..|]. by apply wake_first_table, ki_table.
Qed.

(** When two processes sleep on the channel, [wakeup] leaves one of them
    asleep: it does not wake all of them. *)
Theorem wakeup_not_all ch c a i j x y :
  krel represents c a -> kinv a -> i <> j ->
  procs c !! i = Some x -> p_state x = SLEEPING -> p_chan x = ch ->
  procs c !! j = Some y -> p_state y = SLEEPING -> p_chan y = ch ->
  exists c', wakeup ch c = Ok (tt, c') /\
    (procs c' !! i = Some x \/ procs c' !! j = Some y).
Proof.
  intros Hca Hk Hne Hx Hxs _ Hy Hys _. pose proof Hca as (l & -> & _).
  destruct (run_transfer _ _ _ _ _ _ (sim_wakeup ch) Hca (wakeup_run ch a Hk)) as (c' & Hc' & (l' & -> & _)).
  eexists. split; [done|]. by apply (wake_first_one ch i j x y a); [apply ki_table|..].
Qed.

(** [kill] marks the first process with the pid among the embryo, ready,
    running and sleeping ones, makes it runnable if it sleeps, and returns 0;
    if there is none it returns -1 and changes nothing. *)
Theorem kill_correct pid c a :
  krel represents c a -> kinv a ->
  let found := List.find (has_pid pid (procs a)) (kill_order (lists a)) in
  exists c', kill pid c = Ok (if found then 0 else -1, c') /\
    krel represents c' (set_kcpu (cpu_saved (kcpu a))
      (match found with Some i => mark_killed i a | None => a end)).
Proof.
  intros Hca Hk found.
  assert (Hrun : kill pid a = Ok (if found then 0 else -1, set_kcpu (cpu_saved (kcpu a))
    (match found with Some i => mark_killed i a | None => a end))).
  { apply (wp_eq (kill pid)), wp_kill; [done|]. unfold found. by destruct (List.find _ _). }
  destruct (run_transfer _ _ _ _ _ _ (sim_kill pid) Hca Hrun) as (c' & Hc' & Hr'). eauto.
Qed.

(** One level of the scheduler's loop, entered with ptable.lock held: an
    empty ready list is skipped; otherwise its head runs next: it is RUNNING,
    first on the running list, the current process, with its slice start
    recorded, and the priority assertion in between never fires. *)
Theorem scheduler_runs_head (i : nat) c a :
  soft E -> krel represents c a -> table_ok None (procs a) (lists a) -> lk_held PTABLE a ->
  cpu_ok (kcpu a) -> 0 < ncli (kcpu a) -> (i <= MAXPRIO)%nat ->
  (forall p x, p ∈ lists a (LReady i) -> procs a !! p = Some x -> p_pgdir x <> 0) ->
  wp E (scheduler_level i) (fun r c' => exists a', krel represents c' a' /\
    match lists a (LReady i) with
    | [] => r = false /\ a' = a
    | p :: _ => r = true /\ cur a' = Some p /\
        lists a' = push_front p LRunning (rem p (LReady i) (lists a)) /\
        (exists x, procs a !! p = Some x /\ procs a' = <[p := dispatched (ticks a) x]> (procs a)) /\
        table_ok None (procs a') (lists a')
    end) c.
Proof.
  intros HE Hca Ht Hl Hc Hn Hi Hpg.
  eapply wp_transfer; [done|apply sim_scheduler_level|exact Hca|].
  apply wp_scheduler_level; [done..| |].
  - intros Hr. by rewrite Hr.
  - intros p rest x Hr Hx. split; [apply (Hpg p x); [rewrite Hr; set_solver|done]|].
    intros y b Htb. rewrite Hr. split_and!; eauto.
Qed.

(** C31. [promoteAll], when the promotion time has come: every ready, running
    and sleeping process moves up one priority level (the highest stays) with
    a full budget, the ready lists move with them, the two highest joined in
    order, the timer is set again, and the table invariant holds. *)
Theorem promoteAll_promotes c a :
  soft E -> krel represents c a -> table_ok None (procs a) (lists a) -> lk_held PTABLE a ->
  u32 (promoteAtTime a) <= ticks a ->
  wp E promoteAll (fun _ c' => krel represents c' (promoted_state a) /\
    table_ok None (procs (promoted_state a)) (lists (promoted_state a))) c.
Proof.
  intros HE Hca Ht Hl Htk. eapply wp_mono.
  - eapply wp_transfer; [done|apply sim_promoteAll|exact Hca|].
    apply (wp_promoteAll (fun _ a' => a' = promoted_state a)); [done..|].
    destruct (Z.ltb_spec (ticks a) (u32 (promoteAtTime a))); [lia|done].
  - intros _ c' (a' & Hr & ->). split; [done|by apply promoted_table].
Qed.

(** [setPriority] on a ready process changes nothing, returns the internal
    level, and returns with ptable.lock still held: the next [acquire] of the
    lock by the same CPU panics. *)
Theorem setPriority_ready_leaks pid pr j x c a :
  krel represents c a -> kinv a ->
  List.find (has_pid pid (procs a)) (ready_order (lists a)) = Some j -> procs a !! j = Some x ->
  exists c', setPriority pid pr c = Ok (p_priority x, c') /\
    procs c' = procs c /\ krel represents c' (acquired PTABLE a) /\
    acquire_lk PTABLE c' = Err (Panic "acquire").
Proof.
  intros Hca Hk Hj Hx. pose proof Hca as (l & -> & _).
  destruct (run_transfer _ _ _ _ _ _ (sim_setPriority pid pr) Hca
    (setPriority_ready_run pid pr j x a Hk Hj Hx)) as (c' & Hc' & Hr').
  exists c'. pose proof Hr' as (l' & -> & _). split_and!; [done..|].
  destruct Hk as [_ Hl _]. clear -Hl. kopen a. unfold acquire_lk, with_lock. simpl.
  rewrite (lookup_set _ _ initlock) by done. unfold acquire, holding. simpl.
  by rewrite bool_decide_true.
Qed.

(** [setPriority] on a running or sleeping process, with a priority from 0
    to MAXPRIO, sets it, refills the budget and releases the lock. *)
Theorem setPriority_sets pid pr j x c a :
  krel represents c a -> kinv a -> good_priority pr = true ->
  List.find (has_pid pid (procs a)) (ready_order (lists a)) = None ->
  List.find (has_pid pid (procs a)) (lists a LRunning ++ lists a LSleep) = Some j ->
  procs a !! j = Some x ->
  exists c', setPriority pid pr c = Ok (pr, c') /\
    krel represents c' (set_kcpu (cpu_saved (kcpu a))
      (set_procs (<[j := set_p_budget MAXBUDG (set_p_priority pr x)]> (procs a)) a)).
Proof.
  intros Hca Hk Hg Hr Hj Hx.
  destruct (run_transfer _ _ _ _ _ _ (sim_setPriority pid pr) Hca
    (setPriority_other_run pid pr j x a Hk Hg Hr Hj Hx)) as (c' & Hc' & Hr'). eauto.
Qed.

(** [allocproc] without memory for a kernel stack returns null but leaves
    the process on the embryo list although its state is UNUSED: it is lost
    to the free list. *)
Theorem allocproc_leaks i rest c a :
  soft E -> krel represents c a -> kinv a -> lists a LFree = i :: rest ->
  (forall w k w', env_kalloc w = Ok (k, w') -> k = 0) ->
  wp E allocproc (fun r c' => exists a', krel represents c' a' /\ r = None /\
    i ∈ lists a' LEmbryo /\ i ∉ lists a' LFree /\
    exists y, procs a' !! i = Some y /\ p_state y = UNUSED) c.
Proof.
  intros HE Hca Hk Hfree Hfull.
  eapply wp_transfer; [done|apply sim_allocproc|exact Hca|].
  apply wp_allocproc; [done|rewrite Hfree; done|].
  intros j rest' x k w Hf Hx Hkal ps b. rewrite Hfree in Hf. simplify_eq.
  rewrite (Hfull _ _ _ Hkal). simpl. unfold b, embryo_lists, push_front, rem, Abs.upd. simpl.
  split_and!; [done|set_solver| |].
  - rewrite elem_filter_ne. tauto.
  - eexists. split; [by eapply lookup_set|done].
Qed.

End Theorems.

(** ** Instances *)

Definition demo_without_0 : alists := Abs.upd LRunning [] demo_lists.

Lemma stateListAdd_appends_witness :
  exists s s', represents s demo_without_0 /\ Ptr.stateListAdd LZombie (Some 0%nat) s = Ok (tt, s') /\
    represents s' (Abs.upd LZombie [4; 0]%nat demo_without_0).
Proof.
  destruct (remove_refines LRunning (Some 0%nat) demo_plists demo_lists demo_represents)
    as (s & _ & Hs).
  exists s. destruct (stateListAdd_appends LZombie 0 s demo_without_0) as (s' & Hadd & Hs').
  - exact Hs.
  - reflexivity.
  - unfold NPROC. lia.
  - intros l Hv Hin. destruct l as [| | | | |[|[|k]]]; cbv in Hin; set_solver.
  - exists s'. by split_and!.
Defined.

Lemma stateListRemove_removes_witness :
  exists s', Ptr.stateListRemove LSleep (Some 2%nat) demo_plists = Ok (0, s') /\
    represents s' (Abs.upd LSleep [1; 5]%nat demo_lists).
Proof.
  apply (stateListRemove_removes LSleep 2 demo_plists demo_lists).
  - exact demo_represents.
  - reflexivity.
  - done.
Defined.

Lemma countList_length_witness :
  exists h, Ptr.get_head LFree demo_plists = Some h /\
    Ptr.countList NPROC h demo_plists = Ok (58, demo_plists).
Proof. apply (countList_length LFree demo_plists demo_lists); [exact demo_represents|reflexivity]. Defined.

Lemma userinit_boots_witness :
  wp no_error userinit (fun _ c' => exists a', krel represents c' a' /\ booted a')
    (demo_state demo_plists).
Proof.
  apply (userinit_boots _ (demo_state demo_lists)).
  - exact no_error_soft.
  - exact demo_krel.
  - reflexivity.
  - exact (tb_proc _ _ _ (ki_table _ demo_kinv)).
  - reflexivity.
  - exact (ki_cpu _ demo_kinv).
  - intros w k w' Hk. cbv in Hk. congruence.
  - intros w d w' Hd. cbv in Hd. congruence.
Defined.


Lemma exit_correct_witness :
  wp no_error exit (fun _ c' => exists a', krel represents c' a' /\
    exit_post 0 5 (demo_proc RUNNING 2 (Some 5%nat) CNull 0) 1 (demo_state demo_lists) a')
    (demo_state demo_plists).
Proof.
  apply (exit_correct 0 _ 5 1 _ (demo_state demo_lists)).
  - exact no_error_soft.
  - exact demo_krel.
  - exact demo_kinv.
  - exact demo_running.
  - reflexivity.
  - done.
  - reflexivity.
  - reflexivity.
Defined.

Lemma wait_correct_witness :
  wp no_error wait (fun r c' => exists a', krel represents c' a' /\
    wait_post 0 (demo_proc RUNNING 2 (Some 5%nat) CNull 0) (demo_state demo_lists) r a')
    (demo_state demo_plists).
Proof.
  apply (wait_correct 0 _ _ (demo_state demo_lists)).
  - exact no_error_soft.
  - exact demo_krel.
  - exact demo_kinv.
  - exact demo_running.
  - reflexivity.
Defined.

Lemma yield_correct_witness :
  let x := demo_proc RUNNING 2 (Some 5%nat) CNull 0 in
  let a := demo_state demo_lists in
  let y := yielded (ticks a) (fl_if (kcpu a)) x in
  let b := push 0 (LReady (Z.to_nat (p_priority y))) (rem 0 LRunning (lists a)) in
  exists c', yield (demo_state demo_plists) = Ok (tt, c') /\
    krel represents c' (set_procs (<[0%nat := y]> (procs a)) (set_lists b (acquired PTABLE a))) /\
    table_ok None (<[0%nat := y]> (procs a)) b.
Proof.
  apply (yield_correct 0).
  - exact demo_krel.
  - exact demo_kinv.
  - exact demo_running.
  - reflexivity.
Defined.

Lemma sleep_correct_witness :
  let x := demo_proc RUNNING 2 (Some 5%nat) CNull 0 in
  let a := demo_state demo_lists in
  let y := slept (ticks a) (fl_if (kcpu a)) CTicks x in
  let b := push 0 LSleep (rem 0 LRunning (lists a)) in
  exists c', sleep CTicks None (demo_state demo_plists) = Ok (tt, c') /\
    krel represents c' (set_procs (<[0%nat := y]> (procs a)) (set_lists b (acquired PTABLE a))) /\
    table_ok None (<[0%nat := y]> (procs a)) b.
Proof.
  apply (sleep_correct 0).
  - exact demo_krel.
  - exact demo_kinv.
  - exact demo_running.
  - reflexivity.
Defined.

Lemma wakeup_wakes_first_witness :
  let a := demo_state demo_lists in
  exists c', wakeup CTicks (demo_state demo_plists) = Ok (tt, c') /\
    krel represents c' (set_kcpu (cpu_saved (kcpu a)) (wake_first CTicks a)) /\
    table_ok None (procs (wake_first CTicks a)) (lists (wake_first CTicks a)).
Proof.
  apply wakeup_wakes_first.
  - exact demo_krel.
  - exact demo_kinv.
Defined.

Lemma wakeup_not_all_witness :
  exists c', wakeup CTicks (demo_state demo_plists) = Ok (tt, c') /\
    (procs c' !! 1%nat = Some (demo_proc SLEEPING 3 (Some 0%nat) CTicks 0) \/
     procs c' !! 2%nat = Some (demo_proc SLEEPING 4 (Some 0%nat) CTicks 2)).
Proof.
  apply (wakeup_not_all CTicks _ (demo_state demo_lists)).
  - exact demo_krel.
  - exact demo_kinv.
  - done.
  - reflexivity.
  - reflexivity.
  - reflexivity.
  - reflexivity.
  - reflexivity.
  - reflexivity.
Defined.

Lemma kill_correct_witness :
  exists c', kill 3 (demo_state demo_plists) = Ok (0, c') /\
    krel represents c' (set_kcpu (cpu_saved demo_cpu) (mark_killed 1 (demo_state demo_lists))).
Proof.
  apply (kill_correct 3 _ (demo_state demo_lists)).
  - exact demo_krel.
  - exact demo_kinv.
Defined.

Lemma scheduler_runs_head_witness :
  wp no_error (scheduler_level 1) (fun r c' => exists a', krel represents c' a' /\
    r = true /\ cur a' = Some 3%nat /\
    lists a' = push_front 3 LRunning (rem 3 (LReady 1) demo_lists) /\
    (exists x, demo_procs !! 3%nat = Some x /\ procs a' = <[3%nat := dispatched 10 x]> demo_procs) /\
    table_ok None (procs a') (lists a')) (demo_locked demo_plists).
Proof.
  apply (scheduler_runs_head 1 _ (demo_locked demo_lists)).
  - exact no_error_soft.
  - exact demo_locked_krel.
  - exact demo_locked_table.
  - reflexivity.
  - split; simpl; [lia|done].
  - simpl. lia.
  - unfold MAXPRIO. lia.
  - intros p x Hp Hx. apply list_elem_of_singleton in Hp as ->. by injection Hx as <-.
Defined.

Lemma promoteAll_promotes_witness :
  wp no_error promoteAll (fun _ c' => krel represents c' (promoted_state (demo_locked demo_lists)) /\
    table_ok None (procs (promoted_state (demo_locked demo_lists)))
      (lists (promoted_state (demo_locked demo_lists)))) (demo_locked demo_plists).
Proof.
  apply (promoteAll_promotes _ (demo_locked demo_lists)).
  - exact no_error_soft.
  - exact demo_locked_krel.
  - exact demo_locked_table.
  - reflexivity.
  - vm_compute. discriminate.
Defined.

Lemma setPriority_ready_leaks_witness :
  exists c', setPriority 5 3 (demo_state demo_plists) = Ok (1, c') /\
    procs c' = demo_procs /\ krel represents c' (acquired PTABLE (demo_state demo_lists)) /\
    acquire_lk PTABLE c' = Err (Panic "acquire").
Proof.
  apply (setPriority_ready_leaks 5 3 3 (demo_proc RUNNABLE 5 (Some 5%nat) CNull 1)
    (demo_state demo_plists) (demo_state demo_lists)).
  - exact demo_krel.
  - exact demo_kinv.
  - reflexivity.
  - reflexivity.
Defined.

Lemma setPriority_sets_witness :
  exists c', setPriority 4 3 (demo_state demo_plists) = Ok (3, c') /\
    krel represents c' (set_kcpu (cpu_saved demo_cpu)
      (set_procs (<[2%nat := set_p_budget MAXBUDG (set_p_priority 3
         (demo_proc SLEEPING 4 (Some 0%nat) CTicks 2))]> demo_procs) (demo_state demo_lists))).
Proof.
  apply (setPriority_sets 4 3 2 (demo_proc SLEEPING 4 (Some 0%nat) CTicks 2)
    (demo_state demo_plists) (demo_state demo_lists)).
  - exact demo_krel.
  - exact demo_kinv.
  - reflexivity.
  - reflexivity.
  - reflexivity.
  - reflexivity.
Defined.

Lemma allocproc_leaks_witness :
  wp no_error (allocproc (PE := demo_env_full)) (fun r c' => exists a', krel represents c' a' /\ r = None /\
    6%nat ∈ lists a' LEmbryo /\ 6%nat ∉ lists a' LFree /\
    exists y, procs a' !! 6%nat = Some y /\ p_state y = UNUSED) (demo_state demo_plists).
Proof.
  apply (allocproc_leaks (PE := demo_env_full) (ES := demo_full_safe) 6 (seq 7 57) _ (demo_state demo_lists)).
  - exact no_error_soft.
  - exact demo_krel.
  - exact demo_kinv.
  - reflexivity.
  - intros w k w' Hk. cbv in Hk. congruence.
Defined.
