(* ===== verification/BufSleep.v ===== *)
(** * Buffers as sleep channels

    [Ide] keeps, of the processes that sleep, those that sleep on a buffer
    ([bwait]).  Here that list is read off the process table of [Proc]: the
    entries of the sleep list whose channel is a buffer.  [wakeup] of the table
    changes it as [wake_buf] does and [sleep] as [sleep_b] does, so the two
    models agree on which process a wake-up reaches. *)

From stdpp Require Import base numbers list strings.
From S2P Require Import Prelude Spinlock Machine Ide StateLists Proc ProcInv ProcSpec.

(** ** Lists *)

Section sleepers.
Context (me : nat) (f : nat -> option nat).

Definition sleepers (l : list nat) : list (bool * nat) :=
  omap (fun p => (fun i => (bool_decide (p = me), i)) <$> f p) l.

Lemma sleepers_absent p (l : list nat) : p ∉ l -> filter (fun x : nat => x <> p) l = l.
Proof.
  induction l as [|q l IH]; intros Hp; [done|]. apply not_elem_of_cons in Hp as [Hne Hp].
  rewrite filter_cons, decide_True by done. by rewrite IH.
Qed.

(** Taking the first process with channel [i] from the list. *)
Lemma sleepers_wake i l : NoDup l ->
  match List.find (fun p => bool_decide (f p = Some i)) l with
  | Some p => sleepers (filter (fun x : nat => x <> p) l)
  | None => sleepers l
  end = wake_buf i (sleepers l).
Proof.
  induction 1 as [|p l Hp _ IH]; [done|]. cbn [List.find]. unfold sleepers in *. cbn [omap list_omap].
  case_bool_decide as Hf.
  - rewrite Hf. cbn [fmap option_fmap option_map wake_buf snd]. rewrite Nat.eqb_refl.
    rewrite filter_cons, decide_False by tauto. by rewrite sleepers_absent.
  - assert (Hw : forall l', wake_buf i (match (fun k => (bool_decide (p = me), k)) <$> f p with Some y => y :: l' | None => l' end) =
      match (fun k => (bool_decide (p = me), k)) <$> f p with Some y => y :: wake_buf i l' | None => wake_buf i l' end).
    { intros l'. destruct (f p) as [k|]; [|done]. cbn [fmap option_fmap option_map wake_buf snd].
      by rewrite (proj2 (Nat.eqb_neq k i)) by congruence. }
    rewrite Hw, <-IH. destruct (List.find _ l) as [q|] eqn:Hq; [|done].
    apply List.find_some in Hq as [Hq _]. apply list_elem_of_In in Hq.
    rewrite filter_cons, decide_True by (intros ->; done). cbn [omap list_omap]. done.
Qed.
End sleepers.

Lemma find_ext {A} (f g : A -> bool) l : (forall x, f x = g x) -> List.find f l = List.find g l.
Proof. intros H. induction l as [|x l IH]; [done|]. simpl. by rewrite H, IH. Qed.

Lemma sleepers_ext me f g l : (forall p, p ∈ l -> f p = g p) -> sleepers me f l = sleepers me g l.
Proof.
  induction l as [|p l IH]; intros H; [done|]. unfold sleepers in *. cbn [omap list_omap].
  rewrite (H p) by left. rewrite IH; [done|]. intros q Hq. apply H. by right.
Qed.

(** ** The process table *)

Section table.
Context {W : Type}.
Implicit Types s : kst alists W.
(** The address of buffer [i] as a channel. *)
Context (buf_chan : nat -> chan) (chan_buf : chan -> option nat).
Context (chan_buf_spec : forall ch i, chan_buf ch = Some i <-> ch = buf_chan i).

Definition proc_buf (ps : list proc) (p : nat) : option nat := x ← ps !! p; chan_buf (p_chan x).

(** The processes that sleep on a buffer, [me] marked. *)
Definition buf_sleepers (me : nat) (ps : list proc) (a : alists) : list (bool * nat) :=
  sleepers me (proc_buf ps) (a LSleep).

Lemma on_chan_buf ps i p : on_chan (buf_chan i) ps p = bool_decide (proc_buf ps p = Some i).
Proof.
  unfold on_chan, proc_buf. destruct (ps !! p) as [x|]; [|done]. simpl. apply bool_decide_ext.
  split; [intros ->; by apply chan_buf_spec|apply chan_buf_spec].
Qed.

(** [wakeup] of a buffer. *)
Lemma buf_sleepers_wakeup me i s : table_ok None (procs s) (lists s) ->
  wakeup1 (buf_chan i) s = Ok (tt, wake_first (buf_chan i) s) /\
  buf_sleepers me (procs (wake_first (buf_chan i) s)) (lists (wake_first (buf_chan i) s)) =
    wake_buf i (buf_sleepers me (procs s) (lists s)).
Proof.
  intros Ht. split; [by apply wakeup1_run|]. unfold buf_sleepers.
  rewrite <-(sleepers_wake me (proc_buf (procs s)) i (lists s LSleep) (wf_nodup _ _ (tb_lists _ _ _ Ht) LSleep eq_refl)).
  rewrite wake_first_lists. unfold wake_first, ProcSpec.wake.
  replace (List.find (on_chan (buf_chan i) (procs s)) (lists s LSleep))
    with (List.find (fun p => bool_decide (proc_buf (procs s) p = Some i)) (lists s LSleep))
    by (apply find_ext; intros p; by rewrite on_chan_buf).
  destruct (List.find _ _) as [p|] eqn:Hf; [|done]. apply List.find_some in Hf as [Hp _].
  apply list_elem_of_In in Hp. destruct (table_asleep _ _ _ Ht Hp) as (x & Hx & _). rewrite Hx.
  cbn [procs set_procs set_lists]. unfold push, rem. rewrite upd_ne, upd_eq by done.
  apply sleepers_ext. intros q _. unfold proc_buf. destruct (decide (q = p)) as [->|Hne].
  - rewrite list_lookup_insert_eq, Hx by (by eapply lookup_lt_Some). done.
  - by rewrite list_lookup_insert_ne.
Qed.

(** [sleep] on a buffer: the caller is the last sleeper. *)
Lemma buf_sleepers_sleep me x i s : kinv s -> running me x s -> ncli (kcpu s) = 0 ->
  let y := slept (ticks s) (fl_if (kcpu s)) (buf_chan i) x in
  let b := push me LSleep (rem me LRunning (lists s)) in
  sleep (buf_chan i) None s = Ok (tt, set_procs (<[me := y]> (procs s)) (set_lists b (acquired PTABLE s))) /\
  buf_sleepers me (<[me := y]> (procs s)) b = buf_sleepers me (procs s) (lists s) ++ [(true, i)].
Proof.
  intros Hk Hr Hn y b. split; [by apply sleep_nolock_run|]. destruct Hk as [Ht _ _], Hr as [_ Hx Hst].
  unfold buf_sleepers, b, push, rem. rewrite upd_eq, upd_ne by done. unfold sleepers. rewrite omap_app. f_equal.
  - apply sleepers_ext. intros q Hq. unfold proc_buf. rewrite list_lookup_insert_ne; [done|]. intros <-.
    destruct (table_asleep _ _ _ Ht Hq) as (x' & Hx' & Hs). congruence.
  - assert (Hc : p_chan y = buf_chan i) by (unfold y, slept, switched, demoted, charged; repeat case_match; done).
    assert (Hb : proc_buf (<[me := y]> (procs s)) me = Some i).
    { unfold proc_buf. rewrite list_lookup_insert_eq by (by eapply lookup_lt_Some).
      apply chan_buf_spec in Hc. exact Hc. }
    cbn [omap list_omap]. rewrite Hb. simpl. by rewrite bool_decide_true.
Qed.
End table.
