(* ===== verification/Trap.v ===== *)
(** * Traps (trap.c, traps.h)

    [trap] on the state of [Proc].  The handlers of the devices and the system call
    are routines of the kernel given as arguments; the interrupt controller and the
    console are in the rest of the kernel.  [trap] may give up the CPU in [exit], in
    [yield] or inside the system call; what it does when it is resumed there is a
    definition of its own. *)

From stdpp Require Import base numbers list strings.
From S2P Require Import Prelude Strings Spinlock StateLists Proc ProcRefine ProcInv ProcSpec ProcLife ProcExit ProcDemo.

Open Scope Z_scope.

Definition T_SYSCALL : Z := 64.
Definition T_IRQ0 : Z := 32.
Definition IRQ_TIMER : Z := 0.
Definition IRQ_KBD : Z := 1.
Definition IRQ_COM1 : Z := 4.
Definition IRQ_IDE : Z := 14.
Definition IRQ_SPURIOUS : Z := 31.
Definition TPS : Z := 1000.
Definition SCHED_INTERVAL : Z := TPS / 100.

(** An argument of [cprintf]. *)
Inductive parg := PInt (n : Z) | PStr (s : list Z).

(** What [trap] calls of the devices. *)
Class TrapEnv (W : Type) := {
  env_lapiceoi : M W unit;
  env_cprintf : string -> list parg -> M W unit;
  env_rcr2 : M W Z;
}.

(** How a trap ends: it returns to what was interrupted, or the process is in the
    scheduler, in [yield], in the system call or for good. *)
Inductive trap_end := Returned | Yielded | InSyscall | Exiting.

Section Trap.
Context {L W : Type} {SL : StateLists L} {PE : ProcEnv W} {TE : TrapEnv W}.
#[local] Abbreviation K := (M (kst L W)).
(** The handlers; [syscall] tells whether the system call has returned. *)
Context (ideintr kbdintr uartintr : K unit) (syscall : K bool).

(** [(tf->cs & 3) == DPL_USER] *)
Definition from_user (tf : trapframe) : bool := Z.land (cs tf) 3 =? DPL_USER.

(** [if(proc && proc->killed && (tf->cs&3) == DPL_USER) exit();] *)
Definition exit_if_killed (tf : trapframe) (k : K trap_end) : K trap_end :=
  p ← gets cur;
  match p with
  | None => k
  | Some _ =>
      x ← getp p;
      if negb (p_killed x =? 0) && from_user tf then exit ;; mret Exiting else k
  end.

(** [if(proc->killed) exit();] around a system call. *)
Definition exit_if_dead (k : K trap_end) : K trap_end :=
  x ← myproc;
  if negb (p_killed x =? 0) then exit ;; mret Exiting else k.

(** After the system call. *)
Definition trap_syscall_exit : K trap_end := exit_if_dead (mret Returned).

(** [proc->tf = tf]; [a] is the address of the frame. *)
Definition trap_syscall (a : Z) (tf : trapframe) : K trap_end :=
  exit_if_dead (
    modmy (set_p_tf a) ;;
    modmy (set_p_trapframe tf) ;;
    r ← syscall;
    if r : bool then trap_syscall_exit else mret InSyscall).

Definition trap_timer : K unit :=
  c ← gets kcpu;
  when (Nat.eqb (cpu_id c) 0)
    (modify (fun s => set_ticks (u32 (ticks s + 1)) s) ;; wakeup CTicks) ;;
  liftW env_lapiceoi.

(** The default case: a fault, of the kernel or of the process. *)
Definition trap_fault (tf : trapframe) : K unit :=
  p ← gets cur;
  c ← gets kcpu;
  cr2 ← liftW env_rcr2;
  if bool_decide (p = None) || (Z.land (cs tf) 3 =? 0) then
    liftW (env_cprintf "unexpected trap %d from cpu %d eip %x (cr2=0x%x)
"
             [PInt (trapno tf); PInt (Z.of_nat (cpu_id c)); PInt (eip tf); PInt cr2]) ;;
    panic "trap"
  else
    x ← getp p;
    liftW (env_cprintf "pid %d %s: trap %d err %d on cpu %d eip 0x%x addr 0x%x--kill proc
"
             [PInt (p_pid x); PStr (p_name x); PInt (trapno tf); PInt (err tf); PInt (Z.of_nat (cpu_id c)); PInt (eip tf); PInt cr2]) ;;
    modp p (set_p_killed 1).

(** The switch on the trap number. *)
Definition trap_switch (tf : trapframe) : K unit :=
  let n := trapno tf in
  if n =? T_IRQ0 + IRQ_TIMER then trap_timer
  else if n =? T_IRQ0 + IRQ_IDE then ideintr ;; liftW env_lapiceoi
  else if n =? T_IRQ0 + IRQ_IDE + 1 then mret tt
  else if n =? T_IRQ0 + IRQ_KBD then kbdintr ;; liftW env_lapiceoi
  else if n =? T_IRQ0 + IRQ_COM1 then uartintr ;; liftW env_lapiceoi
  else if (n =? T_IRQ0 + 7) || (n =? T_IRQ0 + IRQ_SPURIOUS) then
    c ← gets kcpu;
    liftW (env_cprintf "cpu%d: spurious interrupt at %x:%x
" [PInt (Z.of_nat (cpu_id c)); PInt (cs tf); PInt (eip tf)]) ;;
    liftW env_lapiceoi
  else trap_fault tf.

(** The check after [yield]. *)
Definition trap_last (tf : trapframe) : K trap_end := exit_if_killed tf (mret Returned).
Definition trap_yield_exit (tf : trapframe) : K trap_end := yield_exit ;; trap_last tf.

(** The part of [trap] after the switch. *)
Definition trap_tail (tf : trapframe) : K trap_end :=
  exit_if_killed tf (
    p ← gets cur;
    match p with
    | None => mret Returned
    | Some _ =>
        x ← getp p;
        t ← gets ticks;
        if bool_decide (p_state x = RUNNING) && (trapno tf =? T_IRQ0 + IRQ_TIMER) && (t mod SCHED_INTERVAL =? 0)
        then yield ;; mret Yielded
        else trap_last tf
    end).

Definition trap (a : Z) (tf : trapframe) : K trap_end :=
  if trapno tf =? T_SYSCALL then trap_syscall a tf
  else trap_switch tf ;; trap_tail tf.
End Trap.

(** ** Refinement *)

Section Refine.
Context {C D W : Type} {LC : StateLists C} {LD : StateLists D} {PE : ProcEnv W} {TE : TrapEnv W}.
Context {R : C -> D -> Prop} {LR : ListRefinement LC LD R}.
#[local] Abbreviation sim := (refines (krel (W := W) R)).

Lemma sim_exit_if_killed tf k k' : sim k k' -> sim (exit_if_killed tf k) (exit_if_killed tf k').
Proof.
  intros Hk. unfold exit_if_killed. apply sim_bind; [by apply sim_gets|]. intros [i|]; [|done].
  apply sim_bind; [apply sim_getp|]. intros x. destruct (_ && _); [|done]. apply sim_bind; [apply sim_exit|]. intros _. apply sim_ret.
Qed.

Lemma sim_trap_tail tf : sim (trap_tail tf) (trap_tail tf).
Proof.
  apply sim_exit_if_killed, sim_bind; [by apply sim_gets|]. intros [i|]; [|apply sim_ret].
  apply sim_bind; [apply sim_getp|]. intros x. apply sim_bind; [by apply sim_gets|]. intros t. destruct (_ && _).
  - apply sim_bind; [apply sim_yield|]. intros _. apply sim_ret.
  - apply sim_exit_if_killed, sim_ret.
Qed.

Lemma sim_trap_timer : sim trap_timer trap_timer.
Proof.
  unfold trap_timer. apply sim_bind; [by apply sim_gets|]. intros c. apply sim_bind; [|intros _; apply sim_liftW].
  apply sim_when, sim_bind; [by apply sim_modify|]. intros _. apply sim_wakeup.
Qed.

Lemma sim_trap_fault tf : sim (trap_fault tf) (trap_fault tf).
Proof.
  unfold trap_fault. apply sim_bind; [by apply sim_gets|]. intros p. apply sim_bind; [by apply sim_gets|]. intros c.
  apply sim_bind; [apply sim_liftW|]. intros cr2. destruct (_ || _).
  - apply sim_bind; [apply sim_liftW|]. intros _. apply sim_panic.
  - apply sim_bind; [apply sim_getp|]. intros x. apply sim_bind; [apply sim_liftW|]. intros _. apply sim_modp.
Qed.
End Refine.

(** ** Results *)

Section Abstract.
Context {W : Type} {PE : ProcEnv W} {TE : TrapEnv W}.
Implicit Types s : kst alists W.

(** The state after a tick on the first CPU. *)
Definition ticked (w : W) s : kst alists W :=
  set_world w (set_kcpu (cpu_saved (kcpu s)) (wake_first CTicks (set_ticks (u32 (ticks s + 1)) s))).
Lemma ticked_fields w s : klocks (ticked w s) = klocks s /\ kcpu (ticked w s) = cpu_saved (kcpu s) /\ cur (ticked w s) = cur s /\
  ticks (ticked w s) = u32 (ticks s + 1).
Proof. unfold ticked, wake_first, wake. destruct s. simpl. by repeat case_match. Qed.

Lemma ticked_inv w s : kinv s -> kinv (ticked w s).
Proof.
  intros [Ht Hl Hc]. destruct (ticked_fields w s) as (E1 & E2 & _). split.
  - exact (wake_first_table CTicks (set_ticks (u32 (ticks s + 1)) s) Ht).
  - unfold lk_free. by rewrite E1.
  - rewrite E2. exact Hc.
Qed.

Lemma ticked_running w s me x : kinv s -> running me x s -> running me x (ticked w s).
Proof.
  intros Hk [Hc Hx Hs]. destruct (ticked_fields w s) as (_ & _ & E3 & _). split; [by rewrite E3| |done].
  apply (wake_first_running CTicks (set_ticks (u32 (ticks s + 1)) s)); [apply Hk|done|congruence].
Qed.

Lemma trap_timer_run w s : kinv s -> cpu_id (kcpu s) = 0%nat -> env_lapiceoi (world s) = Ok (tt, w) ->
  trap_timer s = Ok (tt, ticked w s).
Proof.
  intros Hk Hid Hw. apply (wp_eq trap_timer). unfold trap_timer. apply wp_bind, wp_gets. rewrite Hid. cbn [Nat.eqb when].
  apply wp_bind, wp_bind, wp_modify. set (s1 := set_ticks _ s).
  assert (Hk1 : kinv s1) by (destruct Hk; by split). eapply wp_Ok; [by apply wakeup_run|]. unfold wp, liftW.
  assert (He : world (set_kcpu (cpu_saved (kcpu s1)) (wake_first CTicks s1)) = world s).
  { unfold wake_first, wake. destruct s. simpl. by repeat case_match. }
  rewrite He, Hw. done.
Qed.

(** What is left of [trap] after the tick. *)
Definition preempted (me : nat) (x : proc) s : kst alists W :=
  let y := yielded (ticks s) (fl_if (kcpu s)) x in
  set_procs (<[me := y]> (procs s))
    (set_lists (push me (LReady (Z.to_nat (p_priority y))) (rem me LRunning (lists s))) (acquired PTABLE s)).

Lemma wp_alive {E} tf k Q me x s : cur s = Some me -> procs s !! me = Some x -> p_killed x = 0 -> wp E k Q s ->
  wp E (exit_if_killed tf k) Q s.
Proof.
  intros Hc Hp Hx HQ. unfold exit_if_killed. apply wp_bind, wp_gets. rewrite Hc. apply wp_bind. eapply wp_getp; [done|exact Hp|].
  by rewrite Hx.
Qed.

Lemma trap_tail_tick tf me x s : kinv s -> running me x s -> ncli (kcpu s) = 0 -> p_killed x = 0 ->
  trapno tf = T_IRQ0 + IRQ_TIMER ->
  trap_tail tf s = Ok (if ticks s mod SCHED_INTERVAL =? 0 then (Yielded, preempted me x s) else (Returned, s)).
Proof.
  intros Hk Hr Hn Hx Htf. pose proof Hr as [Hc Hp Hs]. destruct (yield_run me x s Hk Hr Hn) as [Hy _].
  assert (Hw : wp no_error (trap_tail tf) (fun r s' => (r, s') = if ticks s mod SCHED_INTERVAL =? 0 then (Yielded, preempted me x s) else (Returned, s)) s).
  { unfold trap_tail. eapply wp_alive; [done..|]. apply wp_bind, wp_gets. rewrite Hc. apply wp_bind. eapply wp_getp; [done|exact Hp|].
    apply wp_bind, wp_gets. rewrite bool_decide_true, Htf, Z.eqb_refl by done. cbn [andb].
    destruct (ticks s mod SCHED_INTERVAL =? 0); [apply wp_bind; eapply wp_Ok; [exact Hy|]; by apply wp_ret|].
    eapply wp_alive; [done..|]. by apply wp_ret. }
  apply wp_no_error in Hw as (r & s' & Hrun & He). by rewrite Hrun, He.
Qed.

End Abstract.

Section Results.
Context {W : Type} {PE : ProcEnv W} {TE : TrapEnv W} {E : error -> Prop} {ES : EnvSafe (E := E)}.
Context (ideintr kbdintr uartintr : M (kst plists W) unit) (syscall : M (kst plists W) bool).
Implicit Types (c : kst plists W) (a : kst alists W).
Local Notation trap := (trap ideintr kbdintr uartintr syscall).

(** C18. A timer interrupt on the first CPU while a process runs, when at most one
    process waits for the clock: the clock advances, modulo 2^32, every process
    that waits for it becomes runnable and no other process changes, and every
    tenth tick the running process gives up the CPU as in [yield]; otherwise it
    goes on.  The table invariant holds. *)
Theorem trap_preempts me x addr tf w c a :
  krel represents c a -> kinv a -> running me x a -> ncli (kcpu a) = 0 -> cpu_id (kcpu a) = 0%nat -> p_killed x = 0 ->
  trapno tf = T_IRQ0 + IRQ_TIMER -> env_lapiceoi (world a) = Ok (tt, w) -> one_sleeper CTicks (procs a) ->
  let b := ticked w a in
  ticks b = u32 (ticks a + 1) /\ procs b = awakened CTicks <$> procs a /\
  if u32 (ticks a + 1) mod SCHED_INTERVAL =? 0 then
    exists c', trap addr tf c = Ok (Yielded, c') /\ krel represents c' (preempted me x b) /\
      table_ok None (procs (preempted me x b)) (lists (preempted me x b))
  else exists c', trap addr tf c = Ok (Returned, c') /\ krel represents c' b /\ kinv b.
Proof.
  intros Hca Hk Hr Hn Hid Hx Htf Hw H1 b. destruct (ticked_fields w a) as (_ & E2 & _ & E4). fold b in E2, E4.
  pose proof (ticked_inv w a Hk) as Hkb. pose proof (ticked_running w a me x Hk Hr) as Hrb. fold b in Hkb, Hrb.
  assert (Hnb : ncli (kcpu b) = 0) by by rewrite E2.
  split; [done|]. split; [exact (wake_first_all CTicks (set_ticks (u32 (ticks a + 1)) a) (ki_table _ Hk) H1)|].
  destruct (run_transfer _ _ _ _ _ _ sim_trap_timer Hca (trap_timer_run w a Hk Hid Hw)) as (c1 & Hc1 & Hca1).
  pose proof (trap_tail_tick tf me x b Hkb Hrb Hnb Hx Htf) as Htail. rewrite E4 in Htail.
  assert (Htrap : trap addr tf c = trap_tail tf c1).
  { unfold Trap.trap. rewrite Htf. change (T_IRQ0 + IRQ_TIMER =? T_SYSCALL) with false. cbn iota.
    rewrite (bind_Ok _ _ c tt c1); [done|]. unfold trap_switch. rewrite Htf, Z.eqb_refl. exact Hc1. }
  destruct (_ =? 0); destruct (run_transfer _ _ _ _ _ _ (sim_trap_tail tf) Hca1 Htail) as (c' & Hc' & Hca'); exists c'; rewrite Htrap.
  - split_and!; [done|done|]. by apply (yield_run me x b Hkb Hrb Hnb).
  - done.
Qed.

Lemma trap_exception addr tf : 0 <= trapno tf < T_IRQ0 -> trap addr tf = (trap_fault tf ;; trap_tail tf).
Proof.
  unfold Trap.trap, trap_switch, T_IRQ0, T_SYSCALL, IRQ_TIMER, IRQ_IDE, IRQ_KBD, IRQ_COM1, IRQ_SPURIOUS. intros Hn.
  by repeat (match goal with |- context [trapno tf =? ?k] => destruct (Z.eqb_spec (trapno tf) k); [lia|] end).
Qed.

Lemma sim_trap_end tf : refines (krel represents) (trap_fault tf ;; trap_tail tf : M (kst plists W) trap_end)
  (trap_fault tf ;; trap_tail tf : M (kst alists W) trap_end).
Proof. apply sim_bind; [apply sim_trap_fault|]. intros _. apply sim_trap_tail. Qed.

(** The kernel's own fault. *)
Lemma trap_kernel_run tf cr2 w1 w2 a :
  cur a = None \/ Z.land (cs tf) 3 = 0 -> env_rcr2 (world a) = Ok (cr2, w1) ->
  env_cprintf "unexpected trap %d from cpu %d eip %x (cr2=0x%x)
" [PInt (trapno tf); PInt (Z.of_nat (cpu_id (kcpu a))); PInt (eip tf); PInt cr2] w1 = Ok (tt, w2) ->
  (trap_fault tf ;; trap_tail tf) a = Err (Panic "trap").
Proof.
  intros Hk Hcr2 Hpr. assert (Hb : bool_decide (cur a = None) || (Z.land (cs tf) 3 =? 0) = true).
  { destruct Hk as [->| ->]; [done|apply orb_true_r]. }
  unfold trap_fault, mbind, M_bind, gets, liftW. rewrite Hcr2, Hb. cbn [world set_world]. by rewrite Hpr.
Qed.

(** The fault of a process marks it. *)
Lemma trap_fault_run tf me x cr2 w1 w2 a : cur a = Some me -> procs a !! me = Some x -> Z.land (cs tf) 3 <> 0 ->
  env_rcr2 (world a) = Ok (cr2, w1) ->
  env_cprintf "pid %d %s: trap %d err %d on cpu %d eip 0x%x addr 0x%x--kill proc
" [PInt (p_pid x); PStr (p_name x); PInt (trapno tf); PInt (err tf); PInt (Z.of_nat (cpu_id (kcpu a))); PInt (eip tf); PInt cr2] w1 = Ok (tt, w2) ->
  trap_fault tf a = Ok (tt, set_procs (<[me := set_p_killed 1 x]> (procs a)) (set_world w2 a)).
Proof.
  intros Hc Hx Hcs Hcr2 Hpr. apply (wp_eq (trap_fault tf)). unfold trap_fault. apply wp_bind, wp_gets, wp_bind, wp_gets, wp_bind.
  unfold wp at 1, liftW at 1. rewrite Hcr2, (proj2 (Z.eqb_neq _ _) Hcs), Hc. cbn [orb bool_decide]. apply wp_bind.
  eapply wp_getp; [done|exact Hx|]. apply wp_bind. unfold wp at 1, liftW at 1. cbn [world set_world]. rewrite Hpr.
  by eapply wp_modp.
Qed.

(** It then exits. *)
Lemma trap_tail_killed tf me x (a : kst alists W) : cur a = Some me -> procs a !! me = Some x -> p_killed x <> 0 -> from_user tf = true ->
  trap_tail tf a = (exit ;; mret Exiting) a.
Proof.
  intros Hc Hx Hk Hu. unfold trap_tail, exit_if_killed. rewrite (bind_Ok _ _ a (Some me) a) by (unfold gets; by rewrite Hc). cbn beta iota.
  rewrite (bind_Ok _ _ a x a); [|unfold getp; simpl; by rewrite Hx]. by rewrite (proj2 (Z.eqb_neq _ _) Hk), Hu.
Qed.

(** C28. A processor exception.  Where no process runs, or in kernel mode, it is
    reported with the CPU's number and is a panic.  In user mode it is reported
    with the process, which is marked as killed and ends as in [exit]; the end of
    init is a panic. *)
Theorem trap_exception_ends addr tf cr2 w1 c a :
  soft E -> krel represents c a -> kinv a -> 0 <= trapno tf < T_IRQ0 -> env_rcr2 (world a) = Ok (cr2, w1) ->
  (forall w2, cur a = None \/ Z.land (cs tf) 3 = 0 ->
    env_cprintf "unexpected trap %d from cpu %d eip %x (cr2=0x%x)
" [PInt (trapno tf); PInt (Z.of_nat (cpu_id (kcpu a))); PInt (eip tf); PInt cr2] w1 = Ok (tt, w2) ->
    trap addr tf c = Err (Panic "trap")) /\
  (forall me x i0 cw w2, running me x a -> Z.land (cs tf) 3 = DPL_USER -> ncli (kcpu a) = 0 -> initproc a = Some i0 ->
    p_cwd x = Some cw ->
    env_cprintf "pid %d %s: trap %d err %d on cpu %d eip 0x%x addr 0x%x--kill proc
" [PInt (p_pid x); PStr (p_name x); PInt (trapno tf); PInt (err tf); PInt (Z.of_nat (cpu_id (kcpu a))); PInt (eip tf); PInt cr2] w1 = Ok (tt, w2) ->
    if decide (me = i0) then trap addr tf c = Err (Panic "init exiting")
    else wp E (trap addr tf) (fun r c' => r = Exiting /\ exists a', krel represents c' a' /\
      exit_post me i0 (set_p_killed 1 x) cw (set_procs (<[me := set_p_killed 1 x]> (procs a)) (set_world w2 a)) a') c).
Proof.
  intros HE Hca Hk Htf Hcr2. rewrite trap_exception by done. pose proof (sim_trap_end tf c a Hca) as Hsim. unfold refines_o in Hsim. split.
  { intros w2 Hm Hpr. by rewrite (trap_kernel_run tf cr2 w1 w2 a Hm Hcr2 Hpr) in Hsim. }
  intros me x i0 cw w2 [Hc Hp Hs] Hcs Hn Hi Hcw Hpr.
  pose proof (trap_fault_run tf me x cr2 w1 w2 a Hc Hp ltac:(by rewrite Hcs) Hcr2 Hpr) as Hf. set (b := set_procs _ _) in Hf |- *.
  assert (Hb : running me (set_p_killed 1 x) b) by (split; [done|by eapply lookup_set|done]).
  assert (Hrun : (trap_fault tf ;; trap_tail tf) a = (exit ;; mret Exiting) b).
  { rewrite (bind_Ok _ _ _ _ _ Hf). apply (trap_tail_killed tf me (set_p_killed 1 x)); [done|apply Hb|done|].
    unfold from_user. by rewrite Hcs. }
  rewrite Hrun in Hsim. case_decide as Hd.
  - assert (He : (exit ;; mret Exiting) b = Err (Panic "init exiting")); [|by rewrite He in Hsim].
    unfold exit, mbind, M_bind, gets, when. cbn [cur initproc set_procs set_world b]. by rewrite Hc, Hi, bool_decide_true by congruence.
  - eapply wp_mono; [eapply (wp_transfer E _ _ (fun r a' => r = Exiting /\ exit_post me i0 (set_p_killed 1 x) cw b a')); [done|apply sim_trap_end|exact Hca|]
      |intros r c' (a' & ? & ? & ?); split; [done|]; by exists a'].
    unfold wp. rewrite Hrun. apply wp_bind. eapply wp_mono; [|intros r s' Hpost; apply wp_ret; split; [done|exact Hpost]].
    eapply (wp_exit me (set_p_killed 1 x) i0 cw b); [|done..]. destruct Hk as [Ht Hl Hcpu]. split; [|done|done].
    eapply table_frame; [exact Ht|exact Hp|apply ok_killed; by eapply (tb_proc _ _ _ Ht)|done|done].
Qed.
End Results.

(** ** A small machine *)

#[export] Instance demo_trap_env : TrapEnv unit := {|
  env_lapiceoi := mret tt;
  env_cprintf _ _ := mret tt;
  env_rcr2 := mret 0;
|}.

(** Trap number [n] from user code. *)
Definition demo_tf (n : Z) : trapframe := mktf 0 0 0 0 0 0 0 0 0 0 0 0 n 0 0 35 0 0 0.

Local Notation demo_trap := (trap (mret tt) (mret tt) (mret tt) (mret true) 0).

(** The clock stands at 99 and one process waits for it. *)
Definition demo_ticking {L : Type} (l : L) : kst L unit :=
  set_ticks 99 (set_procs (<[2%nat := demo_proc SLEEPING 4 (Some 0%nat) (CProc 2) 2]> demo_procs) (demo_state l)).

Lemma demo_ticking_kinv : kinv (demo_ticking demo_lists).
Proof. split; [by apply tableb_ok; vm_compute|done|split; simpl; [lia|done]]. Qed.

Lemma demo_ticking_one : one_sleeper CTicks (procs (demo_ticking demo_lists)).
Proof.
  assert (H : forall i x, procs (demo_ticking demo_lists) !! i = Some x -> asleep_on CTicks x -> i = 1%nat).
  { intros i x Hx Hs. assert (Hf : forallb (fun i => match procs (demo_ticking demo_lists) !! i with
      | Some x => bool_decide (asleep_on CTicks x -> i = 1%nat) | None => true end) (seq 0 NPROC) = true) by by vm_compute.
    rewrite forallb_forall in Hf. specialize (Hf i). rewrite Hx in Hf. apply bool_decide_eq_true in Hf; [by apply Hf|].
    apply in_seq. apply lookup_lt_Some in Hx. change (length _) with NPROC in Hx. lia. }
  intros i j x y Hx Hsx Hy Hsy. by rewrite (H i x Hx Hsx), (H j y Hy Hsy).
Qed.

Lemma trap_preempts_witness :
  let x := demo_proc RUNNING 2 (Some 5%nat) CNull 0 in
  let a := demo_ticking demo_lists in
  let b := ticked tt a in
  ticks b = u32 (ticks a + 1) /\ procs b = awakened CTicks <$> procs a /\
  if u32 (ticks a + 1) mod SCHED_INTERVAL =? 0 then
    exists c', demo_trap (demo_tf 32) (demo_ticking demo_plists) = Ok (Yielded, c') /\ krel represents c' (preempted 0 x b) /\
      table_ok None (procs (preempted 0 x b)) (lists (preempted 0 x b))
  else exists c', demo_trap (demo_tf 32) (demo_ticking demo_plists) = Ok (Returned, c') /\ krel represents c' b /\ kinv b.
Proof.
  apply (trap_preempts (mret tt) (mret tt) (mret tt) (mret true) 0 (demo_proc RUNNING 2 (Some 5%nat) CNull 0) 0 (demo_tf 32) tt
    (demo_ticking demo_plists) (demo_ticking demo_lists)).
  - exists demo_plists. split; [reflexivity|exact demo_represents].
  - exact demo_ticking_kinv.
  - destruct demo_running as [H1 H2 H3]. split; assumption.
  - reflexivity.
  - reflexivity.
  - reflexivity.
  - reflexivity.
  - reflexivity.
  - exact demo_ticking_one.
Defined.

(** A page fault. *)
Lemma trap_exception_ends_witness :
  let x := demo_proc RUNNING 2 (Some 5%nat) CNull 0 in
  let a := demo_state demo_lists in
  if decide (0 = 5)%nat then demo_trap (demo_tf 14) (demo_state demo_plists) = Err (Panic "init exiting")
  else wp no_error (demo_trap (demo_tf 14)) (fun r c' => r = Exiting /\ exists a', krel represents c' a' /\
    exit_post 0 5 (set_p_killed 1 x) 1 (set_procs (<[0%nat := set_p_killed 1 x]> (procs a)) (set_world tt a)) a') (demo_state demo_plists).
Proof.
  refine (proj2 (trap_exception_ends (mret tt) (mret tt) (mret tt) (mret true) 0 (demo_tf 14) 0 tt
    (demo_state demo_plists) (demo_state demo_lists) _ _ _ _ _)
    0%nat (demo_proc RUNNING 2 (Some 5%nat) CNull 0) 5%nat 1%nat tt _ _ _ _ _ _).
  - exact no_error_soft.
  - exact demo_krel.
  - exact demo_kinv.
  - split; [discriminate|reflexivity].
  - reflexivity.
  - exact demo_running.
  - reflexivity.
  - reflexivity.
  - reflexivity.
  - reflexivity.
  - reflexivity.
Defined.
