(* ===== verification/Sysproc.v ===== *)
(** * Process system calls (sysproc.c)

    Each call fetches its arguments from the memory of the process, as [Syscall]
    does, and works on the state of [Proc].  The value it returns is an [int]; a call
    that stores to the memory of the process also returns what it stores and where.
    [sys_sleep] gives up the CPU in [sleep]; what it does when it is resumed is a
    definition of its own. *)

From stdpp Require Import base numbers list strings.
From S2P Require Import Prelude Strings Bytes Syscall Spinlock StateLists Proc ProcRefine ProcInv ProcSpec ProcLife ProcDemo Trap.

Open Scope Z_scope.

(** [struct rtcdate] *)
Record rtcdate := mkrtcdate {
  rtc_second : Z;
  rtc_minute : Z;
  rtc_hour : Z;
  rtc_day : Z;
  rtc_month : Z;
  rtc_year : Z;
}.
Definition sizeof_rtcdate : Z := 24.
Definition sizeof_uproc : Z := 96.

(** The clock and the port that turns the machine off. *)
Class SysprocEnv (W : Type) := {
  env_cmostime : M W rtcdate;
  env_outw : Z -> Z -> M W unit;
}.

Section Sysproc.
Context {L W : Type} {SL : StateLists L} {PE : ProcEnv W} {TE : TrapEnv W} {YE : SysprocEnv W}.
#[local] Abbreviation K := (M (kst L W)).

(** [if(argint(i, &n) < 0) return r;] *)
Definition int_arg {A} (p : uctx) (i : Z) (r : A) (k : Z -> K A) : K A :=
  n ← lift (argint p i);
  match n with
  | None => mret r
  | Some n => k n
  end.

(** [n < 0 || n > 32767] *)
Definition out_of_range (n : Z) : bool := (n <? 0) || (32767 <? n).

Definition sys_fork : K Z := fork.
Definition sys_exit : K unit := exit.
Definition sys_wait : K (option Z) := wait.
Definition sys_kill (p : uctx) : K Z := int_arg p 0 (-1) kill.
Definition sys_getpid : K Z := x ← myproc; mret (s32 (p_pid x)).

Definition sys_sbrk (p : uctx) : K Z :=
  int_arg p 0 (-1) (fun n =>
    x ← myproc;
    let addr := s32 (p_sz x) in
    r ← growproc n;
    mret (if r <? 0 then -1 else addr)).

(** One turn of [while(ticks - ticks0 < n)]: the value returned, or nothing when the
    process is asleep. *)
Definition sys_sleep_round (n ticks0 : Z) : K (option Z) :=
  t ← gets ticks;
  if u32 (t - ticks0) <? u32 n then
    x ← myproc;
    if negb (p_killed x =? 0) then mret (Some (-1))
    else sleep CTicks None ;; mret None
  else mret (Some 0).

Definition sys_sleep (p : uctx) : K (option Z) :=
  int_arg p 0 (Some (-1)) (fun n =>
    ticks0 ← gets ticks;
    sys_sleep_round n ticks0).
Definition sys_sleep_resumed (n ticks0 : Z) : K (option Z) := sleep_exit None ;; sys_sleep_round n ticks0.

Definition sys_uptime : K Z := t ← gets ticks; mret (s32 t).

Definition sys_halt : K Z :=
  liftW (env_cprintf "Shutting down ...
" []) ;;
  liftW (env_outw 1540 (Z.lor 0 8192)) ;;
  mret 0.

(** The date, and the address it goes to. *)
Definition sys_date (p : uctx) : K (Z * option (Z * rtcdate)) :=
  d ← lift (argptr p 0 sizeof_rtcdate);
  match d with
  | None => mret (-1, None)
  | Some d => r ← liftW env_cmostime; mret (0, Some (d, r))
  end.

Definition sys_getuid : K Z := x ← myproc; mret (s32 (p_uid x)).
Definition sys_getgid : K Z := x ← myproc; mret (s32 (p_gid x)).
Definition sys_getppid : K Z := x ← myproc; y ← getp (p_parent x); mret (s32 (p_pid y)).

Definition sys_setuid (p : uctx) : K Z :=
  int_arg p 0 (-1) (fun n => if out_of_range n then mret (-2) else modmy (set_p_uid n) ;; mret 0).
Definition sys_setgid (p : uctx) : K Z :=
  int_arg p 0 (-1) (fun n => if out_of_range n then mret (-2) else modmy (set_p_gid n) ;; mret 0).

(** [t] is the array of the process; the entries, and the address they go to. *)
Definition sys_getprocs (p : uctx) (t : list uproc) : K (Z * option (Z * list uproc)) :=
  int_arg p 0 (-1, None) (fun n =>
    if out_of_range n then mret (-1, None) else
    a ← lift (argptr p 1 (u32 (sizeof_uproc * n)));
    match a with
    | None => mret (-2, None)
    | Some a => r ← getprocs n t; mret (r.1, Some (a, r.2))
    end).

Definition sys_getPriority (p : uctx) : K Z :=
  int_arg p 0 (-1) (fun pid => if out_of_range pid then mret (-1) else getPriority pid).

Definition sys_setPriority (p : uctx) : K Z :=
  int_arg p 0 (-1) (fun pid => int_arg p 1 (-1) (fun nprio =>
    if out_of_range pid then mret (-1) else
    if out_of_range nprio then mret (-1) else
    setPriority pid nprio)).
End Sysproc.

(** ** Refinement *)

Section Refine.
Context {C D W : Type} {LC : StateLists C} {LD : StateLists D} {PE : ProcEnv W}.
Context {R : C -> D -> Prop} {LR : ListRefinement LC LD R}.
#[local] Abbreviation sim := (refines (krel (W := W) R)).

Lemma sim_sys_sleep_round n t0 : sim (sys_sleep_round n t0) (sys_sleep_round n t0).
Proof.
  unfold sys_sleep_round. apply sim_bind; [by apply sim_gets|]. intros t. destruct (_ <? _); [|apply sim_ret].
  apply sim_bind; [apply sim_myproc|]. intros x. destruct (negb _); [apply sim_ret|].
  apply sim_bind; [apply sim_sleep|]. intros _. apply sim_ret.
Qed.
End Refine.

(** ** Results *)

(** The time since [T0], on a counter of 32 bits. *)
Lemma elapsed_wraps T T0 : 0 <= T - T0 < 2 ^ 32 -> u32 (u32 T - u32 T0) = T - T0.
Proof. intros H. unfold u32. rewrite <- Zminus_mod. by apply Z.mod_small. Qed.

Section Results.
Context {W : Type} {PE : ProcEnv W}.
Implicit Types (c : kst plists W) (a : kst alists W).

(** The state in which process [me] is asleep on the clock. *)
Definition dozing (me : nat) (x : proc) a : kst alists W :=
  set_procs (<[me := slept (ticks a) (fl_if (kcpu a)) CTicks x]> (procs a))
    (set_lists (push me LSleep (rem me LRunning (lists a))) (acquired PTABLE a)).

Lemma sys_sleep_round_run me x n T0 T a :
  kinv a -> running me x a -> ncli (kcpu a) = 0 -> 0 <= n < 2 ^ 31 -> 0 <= T - T0 < 2 ^ 32 -> ticks a = u32 T ->
  sys_sleep_round n (u32 T0) a
    = Ok (if T - T0 <? n then if p_killed x =? 0 then (None, dozing me x a) else (Some (-1), a) else (Some 0, a)).
Proof.
  intros Hk Hr Hn Hb HT Ht. pose proof Hr as [Hc Hp _]. destruct (sleep_nolock_run me x CTicks a Hk Hr Hn) as [Hs _].
  unfold sys_sleep_round. rewrite (bind_Ok _ _ a (ticks a) a) by done. rewrite Ht, elapsed_wraps, (u32_small n) by lia.
  destruct (_ <? _); [|done].
  assert (Hm : myproc a = Ok (x, a)).
  { apply (wp_eq myproc). unfold myproc. apply wp_bind, wp_gets. eapply wp_getp; [exact Hc|exact Hp|done]. }
  rewrite (bind_Ok _ _ a x a) by done. destruct (p_killed x =? 0); cbn [negb]; [|done]. by rewrite (bind_Ok _ _ _ _ _ Hs).
Qed.

(** C29. A turn of the loop of [sys_sleep] at time [T], for a sleep of [n] ticks that
    began at time [T0], on a clock of 32 bits that may have wrapped around in between:
    the call returns 0 if and only if [n] ticks have passed; before that it returns -1
    when the process has been killed, and otherwise puts the process to sleep on the
    clock.  The table invariant holds. *)
Theorem sys_sleep_waits me x n T0 T c a :
  krel represents c a -> kinv a -> running me x a -> ncli (kcpu a) = 0 ->
  0 <= n < 2 ^ 31 -> 0 <= T - T0 < 2 ^ 32 -> ticks a = u32 T ->
  if T - T0 <? n then
    if p_killed x =? 0 then
      exists c', sys_sleep_round n (u32 T0) c = Ok (None, c') /\ krel represents c' (dozing me x a) /\
        table_ok None (procs (dozing me x a)) (lists (dozing me x a))
    else exists c', sys_sleep_round n (u32 T0) c = Ok (Some (-1), c') /\ krel represents c' a
  else exists c', sys_sleep_round n (u32 T0) c = Ok (Some 0, c') /\ krel represents c' a.
Proof.
  intros Hca Hk Hr Hn Hb HT Ht. pose proof (sys_sleep_round_run me x n T0 T a Hk Hr Hn Hb HT Ht) as Hrun.
  destruct (T - T0 <? n); [destruct (p_killed x =? 0)|];
    destruct (run_transfer _ _ _ _ _ _ (sim_sys_sleep_round n (u32 T0)) Hca Hrun) as (c' & Hc' & Hca'); exists c'; [|done..].
  split_and!; [done|done|]. by apply (sleep_nolock_run me x CTicks a Hk Hr Hn).
Qed.
End Results.

(** A sleep of ten ticks that began five ticks before the clock wrapped around, three
    ticks after. *)
Lemma sys_sleep_waits_witness :
  let x := demo_proc RUNNING 2 (Some 5%nat) CNull 0 in
  let a := set_ticks 3 (demo_state demo_lists) in
  let c := set_ticks 3 (demo_state demo_plists) in
  if (2 ^ 32 + 3) - (2 ^ 32 - 5) <? 10 then
    if p_killed x =? 0 then
      exists c', sys_sleep_round 10 (u32 (2 ^ 32 - 5)) c = Ok (None, c') /\ krel represents c' (dozing 0 x a) /\
        table_ok None (procs (dozing 0 x a)) (lists (dozing 0 x a))
    else exists c', sys_sleep_round 10 (u32 (2 ^ 32 - 5)) c = Ok (Some (-1), c') /\ krel represents c' a
  else exists c', sys_sleep_round 10 (u32 (2 ^ 32 - 5)) c = Ok (Some 0, c') /\ krel represents c' a.
Proof.
  apply (sys_sleep_waits 0 (demo_proc RUNNING 2 (Some 5%nat) CNull 0) 10 (2 ^ 32 - 5) (2 ^ 32 + 3)
    (set_ticks 3 (demo_state demo_plists)) (set_ticks 3 (demo_state demo_lists))).
  - exists demo_plists. split; [reflexivity|exact demo_represents].
  - destruct demo_kinv as [H1 H2 H3]. split; assumption.
  - destruct demo_running as [H1 H2 H3]. split; assumption.
  - reflexivity.
  - split; [discriminate|reflexivity].
  - split; [discriminate|reflexivity].
  - reflexivity.
Defined.
