(* ===== verification/Mkfs.v ===== *)
(** * The file system image maker (mkfs.c)

    A program of the host that lays out the initial disk.  Its state is the image file
    and its global variables.  The image is a file of 512-byte sectors: a write at or
    past its end extends it, and a read past its end is short.  [perror] with [exit(1)]
    and a failed [assert] are errors.  What opening and reading the other files of the
    host gives is an argument; [printf] to the terminal is left out. *)

From stdpp Require Import base numbers list strings.
From S2P Require Import Prelude Strings Bytes Ide Log Fs.

Open Scope Z_scope.

Definition NINODES : Z := 200.
Definition FILE_UID : Z := 0.
Definition FILE_GID : Z := 0.
Definition FILE_MODE : Z := 493.

Definition nbitmap : Z := FSSIZE / (Z.of_nat BSIZE * 8) + 1.
Definition ninodeblocks : Z := NINODES / IPB + 1.
Definition nlog : Z := LOGSIZE.
Definition nmeta : Z := 2 + nlog + ninodeblocks + nbitmap.
Definition nblocks : Z := FSSIZE - nmeta.

Record mkst := mkmk {
  m_img : Z -> list Z;
  m_len : Z;
  m_freeinode : Z;
  m_freeblock : Z;
  m_sb : superblock;
}.
Definition set_image (f : Z -> list Z) (n : Z) (s : mkst) : mkst := mkmk f n (m_freeinode s) (m_freeblock s) (m_sb s).
Definition set_freeinode (n : Z) (s : mkst) : mkst := mkmk (m_img s) (m_len s) n (m_freeblock s) (m_sb s).
Definition set_freeblock (n : Z) (s : mkst) : mkst := mkmk (m_img s) (m_len s) (m_freeinode s) n (m_sb s).
Definition set_m_sb (sb : superblock) (s : mkst) : mkst := mkmk (m_img s) (m_len s) (m_freeinode s) (m_freeblock s) sb.

Definition zeroes : list Z := replicate BSIZE 0.

(** Intel byte order, read on an Intel host. *)
Definition xshort (x : Z) : Z := le_val (le_bytes 2 x).
Definition xint (x : Z) : Z := le_val (le_bytes 4 x).

Definition assert {S} (b : bool) (msg : string) : M S unit := if b then mret tt else panic msg.

(** The sector at the [uint] offset [sec * BSIZE]. *)
Definition sector (sec : Z) : Z := u32 (sec * Z.of_nat BSIZE) / Z.of_nat BSIZE.

Definition wsect (sec : Z) (buf : list Z) : M mkst unit :=
  modify (fun s => set_image (upd (m_img s) (sector sec) buf) (Z.max (m_len s) (sector sec + 1)) s).

Definition rsect (sec : Z) : M mkst (list Z) :=
  s ← get;
  if sector sec <? m_len s then mret (m_img s (sector sec)) else panic "read".

Definition winode (inum : Z) (ip : dinode) : M mkst unit :=
  sb ← gets m_sb;
  let bn := IBLOCK inum sb in
  buf ← rsect bn;
  buf ← or_fault (encode_dinode buf (dinode_off inum) ip);
  wsect bn buf.

Definition rinode (inum : Z) : M mkst dinode :=
  sb ← gets m_sb;
  let bn := IBLOCK inum sb in
  buf ← rsect bn;
  or_fault (decode_dinode buf (dinode_off inum)).

Definition ialloc (type : Z) : M mkst Z :=
  inum ← gets m_freeinode;
  modify (set_freeinode (u32 (inum + 1))) ;;
  winode inum (mkdinode (s16 (xshort type)) 0 0 (s16 (xshort 1)) FILE_MODE FILE_UID FILE_GID (xint 0) (replicate 11 0)) ;;
  mret inum.

(** [buf[i/8] = buf[i/8] | (0x1 << (i%8))] for [i] below [used] *)
Definition balloc_bits (used : Z) : list Z :=
  foldl (fun buf i => alter (fun x => Z.lor x (Z.shiftl 1 (i mod 8))) (Z.to_nat (i / 8)) buf) zeroes (seqZ 0 used).

Definition balloc (used : Z) : M mkst unit :=
  assert (used <? Z.of_nat BSIZE * 8) "used < BSIZE*8" ;;
  sb ← gets m_sb;
  wsect (sb_bmapstart sb) (balloc_bits used).

(** [freeblock++] *)
Definition next_block : M mkst Z :=
  b ← gets m_freeblock;
  modify (set_freeblock (u32 (b + 1))) ;;
  mret b.

(** An address of the inode, with a block put there if it has none. *)
Definition iappend_addr (din : dinode) (i : nat) : M mkst (Z * dinode) :=
  a ← or_fault (di_addrs din !! i);
  if xint a =? 0 then
    b ← next_block;
    mret (xint (xint b), set_di_addrs (<[i := xint b]> (di_addrs din)) din)
  else mret (xint a, din).

(** The block [x] of the file at [fbn], and the inode. *)
Definition iappend_block (din : dinode) (fbn : Z) : M mkst (Z * dinode) :=
  if fbn <? NDIRECT then iappend_addr din (Z.to_nat fbn)
  else
    '(a, din) ← iappend_addr din (Z.to_nat NDIRECT);
    indirect ← rsect a;
    let k := (4 * Z.to_nat (fbn - NDIRECT))%nat in
    e ← or_fault (get32 indirect k);
    if e =? 0 then
      b ← next_block;
      indirect ← or_fault (put32 indirect k (xint b));
      wsect a indirect ;;
      e ← or_fault (get32 indirect k);
      mret (xint e, din)
    else mret (xint e, din).

(** [while(n > 0)], with the bytes still to append in [p]; the inode and the offset. *)
Fixpoint iappend_loop (fuel : nat) (din : dinode) (off : Z) (p : list Z) : M mkst (dinode * Z) :=
  match p with
  | [] => mret (din, off)
  | _ =>
      match fuel with
      | O => fail NoFuel
      | S fuel =>
          let fbn := off / Z.of_nat BSIZE in
          assert (fbn <? MAXFILE) "fbn < MAXFILE" ;;
          '(x, din) ← iappend_block din fbn;
          let n1 := Z.min (Z.of_nat (length p)) ((fbn + 1) * Z.of_nat BSIZE - off) in
          buf ← rsect x;
          buf ← or_fault (wr_bytes buf (Z.to_nat (off - fbn * Z.of_nat BSIZE)) (take (Z.to_nat n1) p));
          wsect x buf ;;
          iappend_loop fuel din (off + n1) (drop (Z.to_nat n1) p)
      end
  end.

Definition iappend (inum : Z) (xp : list Z) : M mkst unit :=
  din ← rinode inum;
  '(din, off) ← iappend_loop (S (length xp)) din (xint (di_size din)) xp;
  winode inum (set_di_size (xint off) din).

(** [struct dirent] *)
Definition dirent (inum : Z) (name : list Z) : list Z := le_bytes 2 (xshort inum) ++ name.

(** [strncpy(de.name, s, DIRSIZ)] over zeroes *)
Definition de_name (s : list Z) : list Z := take DIRSIZ (s ++ replicate DIRSIZ 0).

Definition encode_super (sb : superblock) : list Z :=
  mjoin (le_bytes 4 <$> [sb_size sb; sb_nblocks sb; sb_ninodes sb; sb_nlog sb; sb_logstart sb; sb_inodestart sb; sb_bmapstart sb]).

Definition main_sb : superblock :=
  mksuper (xint FSSIZE) (xint nblocks) (xint NINODES) (xint nlog) (xint 2) (xint (2 + nlog)) (xint (2 + nlog + ninodeblocks)).

Fixpoint wzeroes (l : list Z) : M mkst unit :=
  match l with
  | [] => mret tt
  | i :: l => wsect i zeroes ;; wzeroes l
  end.

(** [while((cc = read(fd, buf, sizeof(buf))) > 0) iappend(inum, buf, cc);], for the
    results of [read] *)
Fixpoint append_reads (inum : Z) (reads : list (list Z)) : M mkst unit :=
  match reads with
  | [] | [] :: _ => mret tt
  | buf :: reads => iappend inum buf ;; append_reads inum reads
  end.

Section Main.
(** Whether the image file can be made, and the results of reading a file of the host
    after it is opened. *)
Context (creat : list Z -> bool) (open : list Z -> option (list (list Z))).

(** [if(argv[i][0] == '_') ++argv[i];] *)
Definition skip_underscore (name : list Z) : list Z :=
  match name with
  | c :: rest => if c =? 95 then rest else name
  | [] => []
  end.

Definition add_file (rootino : Z) (name : list Z) : M mkst unit :=
  assert (bool_decide (47 ∉ name)) "index(argv[i], '/') == 0" ;;
  match open name with
  | None => panic "open"
  | Some reads =>
      inum ← ialloc T_FILE;
      iappend rootino (dirent inum (de_name (skip_underscore name))) ;;
      append_reads inum reads
  end.

Fixpoint add_files (rootino : Z) (names : list (list Z)) : M mkst unit :=
  match names with
  | [] => mret tt
  | name :: names => add_file rootino name ;; add_files rootino names
  end.

(** The end of [main]: the size of the root directory and the free map. *)
Definition main_end (rootino : Z) : M mkst unit :=
  din ← rinode rootino;
  let off := (xint (di_size din) / Z.of_nat BSIZE + 1) * Z.of_nat BSIZE in
  winode rootino (set_di_size (xint off) din) ;;
  b ← gets m_freeblock;
  balloc b.

Definition main (argv : list (list Z)) : M mkst unit :=
  match argv with
  | _ :: img :: names =>
      if negb (creat img) then panic "open" else
      modify (set_image (fun _ => zeroes) 0) ;;
      modify (set_m_sb main_sb) ;;
      modify (set_freeblock nmeta) ;;
      wzeroes (seqZ 0 FSSIZE) ;;
      wsect 1 (encode_super main_sb ++ drop 28 zeroes) ;;
      rootino ← ialloc T_DIR;
      assert (rootino =? ROOTINO) "rootino == ROOTINO" ;;
      iappend rootino (dirent rootino (de_name [46])) ;;
      iappend rootino (dirent rootino (de_name [46; 46])) ;;
      add_files rootino names ;;
      main_end rootino
  | _ => panic "Usage: mkfs fs.img files..."
  end.
End Main.

(** The program as it is loaded. *)
Definition loaded : mkst := mkmk (fun _ => zeroes) 0 1 0 (mksuper 0 0 0 0 0 0 0).
