(* ===== verification/MkfsSpec.v ===== *)
(** * Appending to a file of the image (mkfs.c: rsect, wsect, rinode, winode, iappend)

    The image is read as the kernel will read it: with the free map that [balloc]
    writes at the end already in place.  A block taken from [freeblock] is then the
    first free block of the map, and the vocabulary of [FsFile] describes what
    [iappend] does to a file. *)

From stdpp Require Import base numbers list strings.
From S2P Require Import Prelude Strings Bytes Ide Store Log Fs FsTxn FsAlloc FsInode FsFile Mkfs.

Open Scope Z_scope.

(** ** The image *)

Definition view (s : mkst) : Z -> list Z := upd (m_img s) (sb_bmapstart main_sb) (balloc_bits (m_freeblock s)).

Record image_ok (s : mkst) : Prop := {
  io_sb : m_sb s = main_sb;
  io_len : m_len s = FSSIZE;
  io_block b : 0 <= b < FSSIZE -> length (m_img s b) = BSIZE;
  io_next : nmeta <= m_freeblock s <= FSSIZE;
  io_zero b : m_freeblock s <= b < FSSIZE -> m_img s b = zero_block;
}.

(** [s] with [d] in block [b]. *)
Definition put (b : Z) (d : list Z) (s : mkst) : mkst := set_image (upd (m_img s) b d) (m_len s) s.

(** Arithmetic on the constants of the image. *)
Ltac mk_lia :=
  change nmeta with 59 in *; change FSSIZE with 2000 in *; change (sb_bmapstart main_sb) with 58 in *;
  change (sb_size main_sb) with 2000 in *; change (sb_ninodes main_sb) with 200 in *; fs_lia.

Lemma main_layout : layout 2 30 main_sb.
Proof. split; vm_compute; congruence. Qed.

Lemma xint_u32 x : xint x = u32 x.
Proof. unfold xint. by rewrite le_val_bytes. Qed.

Lemma xint_small x : 0 <= x < 2 ^ 32 -> xint x = x.
Proof. intros H. rewrite xint_u32. by apply u32_small. Qed.

Lemma sector_id b : 0 <= b < FSSIZE -> sector b = b.
Proof.
  intros Hb. unfold sector. rewrite u32_small by (change (Z.of_nat BSIZE) with 512; unfold FSSIZE in *; lia).
  by apply Z.div_mul.
Qed.

Lemma rsect_run b s : image_ok s -> 0 <= b < FSSIZE -> rsect b s = Ok (m_img s b, s).
Proof.
  intros Hs Hb. apply (wp_eq (rsect b)). unfold rsect. apply wp_bind, wp_get.
  rewrite sector_id, (io_len _ Hs) by done. destruct (Z.ltb_spec b FSSIZE); [by apply wp_ret|lia].
Qed.

Lemma wsect_run b d s : image_ok s -> 0 <= b < FSSIZE -> wsect b d s = Ok (tt, put b d s).
Proof.
  intros Hs Hb. unfold wsect, modify, put. rewrite sector_id, (io_len _ Hs), Z.max_l by (done || lia). done.
Qed.

Lemma put_ok b d s : image_ok s -> 0 <= b < m_freeblock s -> length d = BSIZE -> image_ok (put b d s).
Proof.
  intros [Hsb Hl Hb Hn Hz] Hr Hd. split; try done; cbn [m_img put set_image m_freeblock].
  - intros c Hc. unfold upd. destruct (c =? b); [done|by apply Hb].
  - intros c Hc. rewrite upd_other by lia. by apply Hz.
Qed.

Lemma view_img s b : b <> sb_bmapstart main_sb -> view s b = m_img s b.
Proof. intros H. unfold view. by rewrite upd_other. Qed.

Lemma view_put s b d c : b <> sb_bmapstart main_sb -> view (put b d s) c = upd (view s) b d c.
Proof.
  intros Hb. unfold view, put, upd. cbn [m_img set_image m_freeblock].
  destruct (Z.eqb_spec c (sb_bmapstart main_sb)), (Z.eqb_spec c b); congruence.
Qed.

(** ** The free map *)

Lemma balloc_bits_next n : 0 <= n -> balloc_bits (n + 1) = set_bit (balloc_bits n) n.
Proof. intros Hn. unfold balloc_bits. rewrite seqZ_app, foldl_app by lia. done. Qed.

Lemma length_balloc_bits n : length (balloc_bits n) = BSIZE.
Proof.
  unfold balloc_bits. assert (H : forall l b, length (foldl (fun buf i => alter (fun x => Z.lor x (Z.shiftl 1 (i mod 8))) (Z.to_nat (i / 8)) buf) b l) = length b).
  { induction l as [|i l IH]; intros b; [done|]. cbn [foldl]. by rewrite IH, length_alter. }
  rewrite H. apply length_replicate.
Qed.

Lemma bit_zero c : 0 <= c < 8 * Z.of_nat BSIZE -> bit zeroes c = false.
Proof.
  intros Hc. unfold bit, zeroes. rewrite lookup_replicate_2; [apply Z.bits_0|].
  pose proof (Z.div_pos c 8). pose proof (Z.div_lt_upper_bound c 8 (Z.of_nat BSIZE)). lia.
Qed.

(** Exactly the blocks below [n] are in use. *)
Lemma bit_balloc_bits n c : 0 <= n <= 8 * Z.of_nat BSIZE -> 0 <= c < 8 * Z.of_nat BSIZE -> bit (balloc_bits n) c = (c <? n).
Proof.
  intros [Hn Hm] Hc. revert Hm. pattern n. apply natlike_ind; [| |done].
  - intros _. rewrite (proj2 (Z.ltb_ge c 0)) by lia. by apply bit_zero.
  - intros k Hk IH Hb. unfold Z.succ in *. rewrite balloc_bits_next by done.
    rewrite bit_set_bit, IH by (rewrite ?length_balloc_bits; lia).
    destruct (Z.eqb_spec c k), (Z.ltb_spec c k), (Z.ltb_spec c (k + 1)); simpl; (done || lia).
Qed.

Lemma view_used s c : image_ok s -> 0 <= c < FSSIZE -> used (view s) main_sb c = (c <? m_freeblock s).
Proof.
  intros Hs Hc. pose proof (io_next _ Hs). unfold used, view. rewrite upd_same. apply bit_balloc_bits; mk_lia.
Qed.

Lemma view_meta s : image_ok s -> meta_used (view s) main_sb.
Proof.
  intros Hs b Hb. pose proof (io_next _ Hs). rewrite view_used by (done || mk_lia). apply Z.ltb_lt. mk_lia.
Qed.

Lemma view_first s : image_ok s -> m_freeblock s < FSSIZE -> first_free (view s) main_sb (m_freeblock s).
Proof.
  intros Hs Hb. pose proof (io_next _ Hs). split; [mk_lia| |].
  - rewrite view_used by (done || mk_lia). by apply Z.ltb_ge.
  - intros c Hc. rewrite view_used by (done || mk_lia). apply Z.ltb_lt. lia.
Qed.

(** ** Images that agree *)

Section Ext.
Context (sb : superblock) (v w : Z -> list Z) (Hvw : forall c, w c = v c).

Lemma slot_ext di p : slot w di p = slot v di p.
Proof. unfold slot. by rewrite Hvw. Qed.

Lemma used_ext c : used w sb c = used v sb c.
Proof. unfold used. by rewrite Hvw. Qed.

Lemma byte_ext di o : byte_at w di o = byte_at v di o.
Proof. unfold byte_at. by rewrite slot_ext, Hvw. Qed.

Lemma file_ok_ext di : file_ok v sb di -> file_ok w sb di.
Proof.
  intros [Hd Hs Hi]. split; [done| |].
  - intros p. rewrite slot_ext, used_ext. apply Hs.
  - intros p q. rewrite !slot_ext. apply Hi.
Qed.

Lemma grows_ext u di di' p b : grows sb u di v di' p b -> grows sb u di w di' p b.
Proof.
  intros []. split; try done.
  - intros q. rewrite slot_ext. auto.
  - intros c. rewrite used_ext. auto.
  - by rewrite Hvw.
  - intros c. rewrite Hvw. auto.
Qed.

Lemma wrote_ext u di di' off d : wrote sb u di v di' off d -> wrote sb u di w di' off d.
Proof.
  intros []. split; try done.
  - by apply file_ok_ext.
  - intros o. rewrite byte_ext. auto.
  - intros o. rewrite slot_ext. auto.
  - intros p. rewrite slot_ext. auto.
  - intros p. rewrite slot_ext. auto.
  - intros c. rewrite used_ext. auto.
  - intros c. rewrite Hvw. auto.
Qed.
End Ext.

(** ** A block for a file *)

(** From [s], [di] to [s'], [di']: the file keeps its bytes and gets a block in
    each slot of [P] that had none. *)
Record extends (P : Z -> Prop) (s : mkst) (di : dinode) (s' : mkst) (di' : dinode) : Prop := {
  ex_ok : image_ok s';
  ex_mapped : mapped main_sb (view s) di (view s') di';
  ex_slot q : 0 <= q < NSLOT -> slot (view s') di' q <> 0 <-> slot (view s) di q <> 0 \/ P q;
  ex_inode : m_freeinode s' = m_freeinode s;
  ex_low c : c < sb_bmapstart main_sb -> m_img s' c = m_img s c;
  ex_same : (forall q, P q -> slot (view s) di q <> 0) -> di' = di;
}.

Lemma extends_refl (P : Z -> Prop) s di : image_ok s -> file_ok (view s) main_sb di ->
  (forall q, P q -> slot (view s) di q <> 0) -> extends P s di s di.
Proof. intros Hs Hf HP. split; try done; [by apply mapped_refl|]. intros q _. naive_solver. Qed.

Lemma extends_trans (P Q R : Z -> Prop) s di s1 di1 s2 di2 : extends P s di s1 di1 -> extends Q s1 di1 s2 di2 ->
  (forall q, R q <-> P q \/ Q q) -> (forall q, Q q -> 0 <= q < NSLOT) -> extends R s di s2 di2.
Proof.
  intros [? Hm1 Hs1 Hi1 Hl1 He1] [? Hm2 Hs2 Hi2 Hl2 He2] HR HPQ. split; [done| | |congruence| |].
  - by eapply mapped_trans; [exact main_layout|exact Hm1|exact Hm2].
  - intros q Hq. rewrite Hs2, Hs1, HR by done. tauto.
  - intros c Hc. by rewrite Hl2, Hl1.
  - intros H. assert (di1 = di) as -> by (apply He1; intros q Hq; apply H, HR; by left). apply He2. intros q Hq.
    assert (Hq0 : slot (view s) di q <> 0) by (apply H, HR; by right).
    rewrite (mp_keep _ _ _ _ _ Hm1); [done| |done]. by apply HPQ.
Qed.

(** The blocks a slot without one takes. *)
Definition need (s : mkst) (di : dinode) (p : Z) : Z := if slot (view s) di p =? 0 then 1 else 0.

Lemma need_range s di p : 0 <= need s di p <= 1.
Proof. unfold need. destruct (_ =? _); lia. Qed.

Definition taken (s : mkst) : mkst := set_freeblock (m_freeblock s + 1) s.

Lemma next_block_run s : image_ok s -> m_freeblock s < FSSIZE -> next_block s = Ok (m_freeblock s, taken s).
Proof.
  intros Hs Hb. pose proof (io_next _ Hs). unfold next_block, taken, mbind, M_bind, gets, modify. cbn.
  rewrite u32_small by mk_lia. done.
Qed.

Lemma taken_ok s : image_ok s -> m_freeblock s < FSSIZE -> image_ok (taken s).
Proof.
  intros [Hsb Hl Hb Hn Hz] Hf. split; try done; cbn [taken set_freeblock m_freeblock m_img]; [lia|].
  intros b Hr. apply Hz. lia.
Qed.

Abbreviation tview_of s := (mktv (view s) ∅ [] 0).

Lemma view_taken s c : image_ok s -> m_freeblock s < FSSIZE ->
  view (taken s) c = tv (alloc_view main_sb (m_freeblock s) (tview_of s)) c.
Proof.
  intros Hs Hf. pose proof (io_next _ Hs). unfold alloc_view. cbn [tv put_log]. unfold view, taken. cbn [m_img m_freeblock set_freeblock].
  rewrite upd_same, balloc_bits_next by mk_lia. unfold upd.
  destruct (Z.eqb_spec c (m_freeblock s)) as [->|]; [|by destruct (c =? _)].
  destruct (Z.eqb_spec (m_freeblock s) (sb_bmapstart main_sb)); [mk_lia|]. by apply (io_zero _ Hs).
Qed.

Lemma grows_extends s di s' di' p b : file_ok (view s) main_sb di -> grows main_sb (view s) di (view s') di' p b ->
  image_ok s' -> m_freeinode s' = m_freeinode s -> (forall c, c < sb_bmapstart main_sb -> m_img s' c = m_img s c) ->
  extends (fun q => q = p) s di s' di'.
Proof.
  intros Hf Hg Hs Hi Hl. split; try done;
    [by eapply grows_mapped; [exact main_layout|done|exact Hg]| |intros H; exfalso; apply (H p eq_refl), (gr_was _ _ _ _ _ _ _ Hg)].
  intros q Hq. rewrite (gr_slot _ _ _ _ _ _ _ Hg) by done. pose proof (gr_data _ _ _ _ _ _ _ Hg) as Hd. unfold data in Hd.
  destruct (Z.eqb_spec q p) as [->|]; [|naive_solver]. split; [by right|]. intros _. mk_lia.
Qed.

Lemma view_length s : image_ok s -> length (view s (sb_bmapstart main_sb)) = BSIZE.
Proof. intros _. unfold view. rewrite upd_same. apply length_balloc_bits. Qed.

Lemma iappend_addr_run s di p : image_ok s -> file_ok (view s) main_sb di -> 0 <= p <= NDIRECT ->
  m_freeblock s + need s di p <= FSSIZE ->
  exists s' di', iappend_addr di (Z.to_nat p) s = Ok ((slot (view s') di' p, di'), s') /\
    extends (fun q => q = p) s di s' di' /\ m_freeblock s' = m_freeblock s + need s di p.
Proof.
  intros Hs Hf Hp Hroom. pose proof (fo_di _ _ _ Hf) as Hdi. pose proof (io_next _ Hs) as Hnx.
  assert (Ha : di_addrs di !! Z.to_nat p = Some (slot (view s) di p)).
  { rewrite slot_addr by done. unfold slot. by destruct (Z.leb_spec p NDIRECT); [|lia]. }
  assert (Hx : 0 <= slot (view s) di p < 2 ^ 32).
  { eapply (Forall_lookup_1 _ _ _ _ (do_addrs _ Hdi)). exact Ha. }
  unfold iappend_addr. rewrite Ha. cbn [or_fault]. rewrite (bind_Ok _ _ s (slot (view s) di p) s) by done. rewrite xint_small by done.
  unfold need in *. destruct (Z.eqb_spec (slot (view s) di p) 0) as [H0|H0].
  - rewrite (bind_Ok _ _ _ _ _ (next_block_run s Hs ltac:(lia))). rewrite !xint_small by (rewrite ?xint_small; mk_lia).
    set (di' := set_di_addrs _ _). exists (taken s), di'.
    assert (Hg : grows main_sb (view s) di (view (taken s)) di' p (m_freeblock s)).
    { eapply grows_ext; [intros c; apply view_taken; [done|lia]|].
      apply (grow_direct 2 30 main_sb (tview_of s) di (m_freeblock s));
        [exact main_layout|done|by apply view_first; [|lia]|by apply view_meta|by apply view_length|done|done]. }
    split_and!; [|by eapply grows_extends; [..|apply taken_ok; [|lia]| |]|done].
    rewrite (gr_slot _ _ _ _ _ _ _ Hg) by fs_lia. by rewrite Z.eqb_refl.
  - exists s, di. split_and!; [done| |lia]. apply extends_refl; [done|done|]. by intros q ->.
Qed.

(** The second half of [iappend_block], for entry [k] of the indirect block. *)
Definition iappend_entry (a : Z) (din : dinode) (k : nat) : M mkst (Z * dinode) :=
  indirect ← rsect a;
  e ← or_fault (get32 indirect k);
  if e =? 0 then
    b ← next_block;
    indirect ← or_fault (put32 indirect k (xint b));
    wsect a indirect ;;
    e ← or_fault (get32 indirect k);
    mret (xint e, din)
  else mret (xint e, din).

(** A block number in use, as it is read. *)
Lemma slot_small s di p : file_ok (view s) main_sb di -> 0 <= p < NSLOT -> slot (view s) di p <> 0 ->
  sb_bmapstart main_sb < slot (view s) di p < FSSIZE.
Proof. intros Hf Hp H0. destruct (fo_data _ _ _ Hf p Hp H0) as [Hd _]. exact Hd. Qed.

Lemma iappend_entry_run s di k : image_ok s -> file_ok (view s) main_sb di -> 0 <= k < NINDIRECT ->
  slot (view s) di NDIRECT <> 0 -> let p := NDIRECT + 1 + k in m_freeblock s + need s di p <= FSSIZE ->
  exists s', iappend_entry (slot (view s) di NDIRECT) di (4 * Z.to_nat k) s = Ok ((slot (view s') di p, di), s') /\
    extends (fun q => q = p) s di s' di /\ m_freeblock s' = m_freeblock s + need s di p.
Proof.
  intros Hs Hf Hk Hi p Hroom. pose proof (io_next _ Hs) as Hnx. set (a := slot (view s) di NDIRECT) in *.
  assert (Har : sb_bmapstart main_sb < a < FSSIZE) by (apply slot_small; done).
  destruct (fo_data _ _ _ Hf NDIRECT ltac:(done) Hi) as [_ Hau]. fold a in Hau. rewrite view_used in Hau by (done || mk_lia).
  apply Z.ltb_lt in Hau. assert (Hal : length (m_img s a) = BSIZE) by (apply (io_block _ Hs); mk_lia).
  assert (Hva : view s a = m_img s a) by (apply view_img; mk_lia).
  assert (Hsl : get32 (m_img s a) (4 * Z.to_nat k) = Some (slot (view s) di p)).
  { unfold slot. destruct (Z.leb_spec p NDIRECT); [subst p; lia|].
    change (default 0 (di_addrs di !! Z.to_nat NDIRECT)) with a. destruct (Z.eqb_spec a 0); [done|]. rewrite Hva.
    replace (p - NDIRECT - 1) with k by (subst p; lia). unfold get32. rewrite rd_bytes_Some by (rewrite Hal; fs_lia). done. }
  unfold iappend_entry. rewrite (bind_Ok _ _ _ _ _ (rsect_run a s Hs ltac:(mk_lia))), Hsl. cbn [or_fault].
  rewrite (bind_Ok _ _ s (slot (view s) di p) s) by done. unfold need in *.
  assert (Hp : 0 <= p < NSLOT) by (subst p; fs_lia).
  destruct (Z.eqb_spec (slot (view s) di p) 0) as [H0|H0].
  - rewrite (bind_Ok _ _ _ _ _ (next_block_run s Hs ltac:(lia))). rewrite xint_small by mk_lia.
    destruct (put32_Some (m_img s a) (4 * Z.to_nat k) (m_freeblock s)) as [d Hd]; [rewrite Hal; fs_lia|].
    pose proof (put32_length _ _ _ _ Hd) as Hdl. rewrite Hd. cbn [or_fault].
    assert (Ht : image_ok (taken s)) by (apply taken_ok; [done|lia]).
    rewrite (bind_Ok _ _ (taken s) d (taken s)), (bind_Ok _ _ _ _ _ (wsect_run a d (taken s) Ht ltac:(mk_lia))) by done.
    rewrite (get32_put32 _ _ _ _ Hd), Z.mod_small by mk_lia. cbn [or_fault]. set (s' := put a d (taken s)).
    rewrite (bind_Ok _ _ s' (m_freeblock s) s') by done. rewrite xint_small by mk_lia.
    assert (Hg : grows main_sb (view s) di (view s') di p (m_freeblock s)).
    { eapply grows_ext; [|apply (grow_indirect 2 30 main_sb (tview_of s) di (m_freeblock s)) with (k := k) (a' := d)];
        [|exact main_layout|done|by apply view_first; [|lia]|by apply view_meta|by apply view_length|done|done|done|].
      - intros c. cbn [tv]. fold a. unfold s'. rewrite view_put by mk_lia. unfold upd at 1 2. destruct (c =? a); [done|].
        apply view_taken; [done|lia].
      - cbn [tv]. fold a. rewrite <-view_taken by (done || lia). rewrite view_img by mk_lia. exact Hd. }
    exists s'. split_and!.
    + rewrite (gr_slot _ _ _ _ _ _ _ Hg) by done. by rewrite Z.eqb_refl.
    + eapply grows_extends; [done|exact Hg| |done|].
      * apply put_ok; [done|cbn [m_freeblock taken set_freeblock]; mk_lia|congruence].
      * intros c Hc. unfold s'. cbn [m_img put set_image taken set_freeblock]. rewrite upd_other by lia. done.
    + done.
  - pose proof (slot_small s di p Hf Hp H0). rewrite xint_small by mk_lia.
    exists s. split_and!; [done| |lia]. apply extends_refl; [done|done|]. by intros q ->.
Qed.

(** The blocks that a turn of the loop at block [fbn] takes. *)
Definition cost (s : mkst) (di : dinode) (fbn : Z) : Z :=
  need s di (pos fbn) + (if fbn <? NDIRECT then 0 else need s di NDIRECT).

(** The slots that have a block after it. *)
Definition reached (fbn q : Z) : Prop := q = pos fbn \/ (NDIRECT <= fbn /\ q = NDIRECT).

Lemma iappend_block_run s di fbn : image_ok s -> file_ok (view s) main_sb di -> 0 <= fbn < MAXFILE ->
  m_freeblock s + cost s di fbn <= FSSIZE ->
  exists s' di', iappend_block di fbn s = Ok ((slot (view s') di' (pos fbn), di'), s') /\
    extends (reached fbn) s di s' di' /\ m_freeblock s' = m_freeblock s + cost s di fbn.
Proof.
  intros Hs Hf Hb Hroom. unfold iappend_block, cost, reached, pos in *. destruct (Z.ltb_spec fbn NDIRECT) as [Hd|Hd].
  - destruct (iappend_addr_run s di fbn Hs Hf) as (s' & di' & Hrun & Hx & Hn); [lia|lia|].
    exists s', di'. split_and!; [done| |lia]. eapply extends_trans; [exact Hx|apply (extends_refl (fun _ => False))| |].
    + apply Hx.
    + apply Hx.
    + done.
    + intros q. naive_solver lia.
    + done.
  - pose proof (need_range s di (fbn + 1)).
    destruct (iappend_addr_run s di NDIRECT Hs Hf) as (s1 & di1 & Hrun & Hx & Hn); [done|lia|].
    rewrite (bind_Ok _ _ _ _ _ Hrun).
    assert (Hi : slot (view s1) di1 NDIRECT <> 0) by (apply (ex_slot _ _ _ _ _ Hx); [done|by right]).
    assert (Hnd : need s1 di1 (fbn + 1) = need s di (fbn + 1)).
    { unfold need. pose proof (ex_slot _ _ _ _ _ Hx (fbn + 1) ltac:(fs_lia)).
      destruct (Z.eqb_spec (slot (view s1) di1 (fbn + 1)) 0), (Z.eqb_spec (slot (view s) di (fbn + 1)) 0); [done| | |done]; exfalso; naive_solver lia. }
    destruct (iappend_entry_run s1 di1 (fbn - NDIRECT)) as (s2 & Hrun2 & Hx2 & Hn2);
      [apply Hx|apply Hx|fs_lia|done| |].
    { replace (NDIRECT + 1 + (fbn - NDIRECT)) with (fbn + 1) by lia. lia. }
    replace (NDIRECT + 1 + (fbn - NDIRECT)) with (fbn + 1) in Hrun2, Hx2, Hn2 by lia.
    exists s2, di1. split_and!; [exact Hrun2| |lia]. eapply extends_trans; [exact Hx|exact Hx2| |].
    + intros q. naive_solver lia.
    + intros q ->. fs_lia.
Qed.

(** ** Files without holes *)

(** The blocks of a file of [n] bytes, the indirect one included. *)
Definition nblk (n : Z) : Z := (n + 511) / 512 + (if n <=? 5120 then 0 else 1).

(** A file has exactly the blocks its first [n] bytes take. *)
Record compact (v : Z -> list Z) (di : dinode) (n : Z) : Prop := {
  co_block bn : 0 <= bn < MAXFILE -> slot v di (pos bn) <> 0 <-> bn * Z.of_nat BSIZE < n;
  co_ind : slot v di NDIRECT <> 0 <-> NDIRECT * Z.of_nat BSIZE < n;
}.

Lemma nblk_mono a b : a <= b -> nblk a <= nblk b.
Proof.
  intros H. unfold nblk. pose proof (Z.div_le_mono (a + 511) (b + 511) 512).
  destruct (Z.leb_spec a 5120), (Z.leb_spec b 5120); lia.
Qed.

Section Turn.
Context (off m : Z) (Hoff : 0 <= off) (Hm : 0 < m <= Z.of_nat BSIZE - off mod Z.of_nat BSIZE).
Context (Hmax : off + m <= MAXFILE * Z.of_nat BSIZE).

Lemma turn_div : off = 512 * (off / 512) + off mod 512 /\ 0 <= off mod 512 < 512 /\ 0 < m <= 512 - off mod 512 /\ 0 <= off / 512 < 138.
Proof.
  pose proof (Z.div_mod off 512). pose proof (Z.mod_pos_bound off 512). change (Z.of_nat BSIZE) with 512 in *. fs_lia.
Qed.

Lemma cost_compact s di : compact (view s) di off -> cost s di (off / Z.of_nat BSIZE) = nblk (off + m) - nblk off.
Proof.
  intros [Hb Hi]. pose proof turn_div as (Hd & Hr & Hmm & Hq). change (Z.of_nat BSIZE) with 512 in *.
  specialize (Hb (off / 512) ltac:(fs_lia)). unfold cost, need, nblk.
  assert (E1 : (off + m + 511) / 512 = off / 512 + 1) by (symmetry; apply Z.div_unique with (off mod 512 + m - 1); lia).
  assert (E2 : (off + 511) / 512 = off / 512 + (if off mod 512 =? 0 then 0 else 1)).
  { destruct (Z.eqb_spec (off mod 512) 0); symmetry; [apply Z.div_unique with 511|apply Z.div_unique with (off mod 512 - 1)]; lia. }
  rewrite E1, E2. change NDIRECT with 10 in *.
  destruct (Z.eqb_spec (slot (view s) di (pos (off / 512))) 0), (Z.eqb_spec (slot (view s) di 10) 0), (Z.eqb_spec (off mod 512) 0),
    (Z.ltb_spec (off / 512) 10), (Z.leb_spec (off + m) 5120), (Z.leb_spec off 5120); lia.
Qed.

Lemma compact_turn s di s' di' : compact (view s) di off -> extends (reached (off / Z.of_nat BSIZE)) s di s' di' ->
  compact (view s') di' (off + m).
Proof.
  intros [Hb Hi] Hx. pose proof turn_div as (Hd & Hr & Hmm & Hq). change (Z.of_nat BSIZE) with 512 in *. split.
  - intros bn Hbn. destruct (pos_range bn Hbn) as [Hp Hpn]. rewrite (ex_slot _ _ _ _ _ Hx) by done. rewrite (Hb bn Hbn).
    unfold reached. assert (Hinj : pos bn = pos (off / 512) <-> bn = off / 512) by (split; [apply pos_inj|congruence]).
    change (Z.of_nat BSIZE) with 512 in *. rewrite Hinj. split; [intros [?|[?|[? ?]]]; [lia|lia|done]|]. intros Hlt.
    destruct (decide (bn = off / 512)); [by right; left|left; lia].
  - rewrite (ex_slot _ _ _ _ _ Hx) by done. rewrite Hi. unfold reached. change (Z.of_nat BSIZE) with 512 in *.
    destruct (pos_range (off / 512) ltac:(fs_lia)) as [_ Hpn]. change NDIRECT with 10 in *. split; [intros [?|[?|?]]; [lia|done|lia]|].
    intros Hlt. destruct (decide (10 <= off / 512)); [by right; right|lia].
Qed.
End Turn.
