(* ===== verification/MkfsAppend.v ===== *)
(** * The loop of iappend, and inodes of the image (mkfs.c)

    [iappend] on a file without holes: it always succeeds when there is room, takes
    exactly the blocks the longer file needs, and changes no other file. *)

From stdpp Require Import base numbers list strings.
From S2P Require Import Prelude Strings Bytes Ide Store Log Fs FsTxn FsAlloc FsInode FsFile Mkfs MkfsSpec.

Open Scope Z_scope.

(** From [s], [di] to [s'], [di']: [p] has been put at [off]. *)
Record appended (s : mkst) (di : dinode) (off : Z) (p : list Z) (s' : mkst) (di' : dinode) : Prop := {
  ap_ok : image_ok s';
  ap_wrote : wrote main_sb (view s) di (view s') di' off p;
  ap_compact : compact (view s') di' (off + Z.of_nat (length p));
  ap_next : m_freeblock s' = m_freeblock s + nblk (off + Z.of_nat (length p)) - nblk off;
  ap_inode : m_freeinode s' = m_freeinode s;
  ap_low c : c < sb_bmapstart main_sb -> m_img s' c = m_img s c;
}.

Lemma appended_nil s di off : image_ok s -> file_ok (view s) main_sb di -> compact (view s) di off ->
  appended s di off [] s di.
Proof.
  intros Hs Hf Hc. cbn [length]. split; try done; [by apply wrote_refl| |]; cbn [length]; rewrite Z.add_0_r; [done|lia].
Qed.

Lemma appended_trans s di off p1 p2 s1 di1 s2 di2 : 0 <= off -> off + Z.of_nat (length (p1 ++ p2)) <= MAXFILE * Z.of_nat BSIZE ->
  appended s di off p1 s1 di1 -> appended s1 di1 (off + Z.of_nat (length p1)) p2 s2 di2 -> appended s di off (p1 ++ p2) s2 di2.
Proof.
  intros Ho Hm [? Hw1 Hc1 Hn1 Hi1 Hl1] [? Hw2 Hc2 Hn2 Hi2 Hl2].
  assert (He : off + Z.of_nat (length (p1 ++ p2)) = off + Z.of_nat (length p1) + Z.of_nat (length p2)) by (rewrite length_app; lia).
  split; [done| |by rewrite He|rewrite He; lia|congruence|].
  - by eapply wrote_trans; [exact main_layout|exact Hw1|exact Hw2|..].
  - intros c Hc. by rewrite Hl2, Hl1.
Qed.

(** The chunk of a turn, once its block is there. *)
Lemma appended_chunk s di s1 di1 off chunk : image_ok s -> 0 <= off -> compact (view s) di off -> chunk <> [] ->
  Z.of_nat (length chunk) <= Z.of_nat BSIZE - off mod Z.of_nat BSIZE ->
  off + Z.of_nat (length chunk) <= MAXFILE * Z.of_nat BSIZE ->
  extends (reached (off / Z.of_nat BSIZE)) s di s1 di1 ->
  m_freeblock s1 = m_freeblock s + cost s di (off / Z.of_nat BSIZE) ->
  let x := slot (view s1) di1 (pos (off / Z.of_nat BSIZE)) in
  exists d, wr_bytes (m_img s1 x) (Z.to_nat (off mod Z.of_nat BSIZE)) chunk = Some d /\
    0 <= x < FSSIZE /\ appended s di off chunk (put x d s1) di1.
Proof.
  intros Hs Ho Hc Hne Hlen Hmax Hx Hn x.
  assert (Hcl : 0 < Z.of_nat (length chunk)) by (destruct chunk; [done|cbn [length]; lia]).
  assert (Hbn : 0 <= off / Z.of_nat BSIZE < MAXFILE) by (apply bn_range; lia). destruct (pos_range _ Hbn) as [Hp _].
  pose proof (mp_ok _ _ _ _ _ (ex_mapped _ _ _ _ _ Hx)) as Hf1. pose proof (ex_ok _ _ _ _ _ Hx) as Hs1.
  assert (Hx0 : x <> 0) by (apply (ex_slot _ _ _ _ _ Hx); [done|right; by left]).
  pose proof (slot_small s1 di1 _ Hf1 Hp Hx0) as Hxr. fold x in Hxr.
  destruct (fo_data _ _ _ Hf1 _ Hp Hx0) as [_ Hu]. fold x in Hu. rewrite view_used in Hu by (done || mk_lia). apply Z.ltb_lt in Hu.
  assert (Hxl : length (m_img s1 x) = BSIZE) by (apply (io_block _ Hs1); mk_lia).
  pose proof (Z.mod_pos_bound off (Z.of_nat BSIZE) eq_refl) as Hmb.
  destruct (wr_bytes (m_img s1 x) (Z.to_nat (off mod Z.of_nat BSIZE)) chunk) as [d|] eqn:Hd;
    [|rewrite wr_bytes_Some in Hd by lia; done].
  exists d. split_and!; [done|mk_lia|mk_lia|]. split.
  - apply put_ok; [done|mk_lia|]. by rewrite (wr_bytes_length _ _ _ _ Hd).
  - eapply wrote_ext; [intros c; apply view_put; mk_lia|].
    eapply wrote_chunk; [exact main_layout|apply Hx|done|done|done|done|done|done| |].
    + rewrite view_img by mk_lia. exact Hd.
    + intros H0. apply (ex_same _ _ _ _ _ Hx). intros q [->|[Hq ->]]; [done|].
      apply (co_ind _ _ _ Hc). apply (co_block _ _ _ Hc _ Hbn) in H0. fs_lia.
  - assert (Hct : compact (view s1) di1 (off + Z.of_nat (length chunk))) by (eapply compact_turn; [done|lia|done|done|done]).
    assert (Hsl : forall q, slot (view (put x d s1)) di1 q = slot (view s1) di1 q).
    { intros q. rewrite (slot_ext (upd (view s1) x d)) by (intros c; apply view_put; mk_lia).
      apply (slot_upd main_sb); [done|done|by apply pos_range|done]. }
    destruct Hct as [H1 H2]. split; [intros bn|]; rewrite Hsl; [apply H1|apply H2].
  - cbn [m_freeblock put set_image]. rewrite Hn, (cost_compact off (Z.of_nat (length chunk))); [lia|done|lia|done|done].
  - exact (ex_inode _ _ _ _ _ Hx).
  - intros c Hcc. cbn [m_img put set_image]. rewrite upd_other by mk_lia. by apply (ex_low _ _ _ _ _ Hx).
Qed.

Lemma iappend_loop_run fuel s di off p : image_ok s -> file_ok (view s) main_sb di -> compact (view s) di off -> 0 <= off ->
  off + Z.of_nat (length p) <= MAXFILE * Z.of_nat BSIZE ->
  m_freeblock s + nblk (off + Z.of_nat (length p)) - nblk off <= FSSIZE -> (length p <= fuel)%nat ->
  exists s' di', iappend_loop fuel di off p s = Ok ((di', off + Z.of_nat (length p)), s') /\ appended s di off p s' di'.
Proof.
  revert s di off p. induction fuel as [|fuel IH]; intros s di off p Hs Hf Hc Ho Hmax Hroom Hfuel.
  { destruct p; [|cbn in Hfuel; lia]. exists s, di. split; [by rewrite Z.add_0_r|by apply appended_nil]. }
  destruct (decide (p = [])) as [->|Hne].
  { exists s, di. split; [by rewrite Z.add_0_r|by apply appended_nil]. }
  assert (Hpl : 0 < Z.of_nat (length p)) by (destruct p; [done|cbn [length]; lia]).
  set (fbn := off / Z.of_nat BSIZE). set (m := Z.min (Z.of_nat (length p)) ((fbn + 1) * Z.of_nat BSIZE - off)).
  pose proof (Z.div_mod off (Z.of_nat BSIZE) ltac:(done)) as Hdm. pose proof (Z.mod_pos_bound off (Z.of_nat BSIZE) eq_refl) as Hmb.
  fold fbn in Hdm. assert (Hm : 0 < m <= Z.of_nat BSIZE - off mod Z.of_nat BSIZE /\ m <= Z.of_nat (length p)) by lia.
  set (chunk := take (Z.to_nat m) p). set (rest := drop (Z.to_nat m) p).
  assert (Hcl : Z.of_nat (length chunk) = m) by (unfold chunk; rewrite length_take; lia).
  assert (Hrl : Z.of_nat (length rest) = Z.of_nat (length p) - m) by (unfold rest; rewrite length_drop; lia).
  assert (Hbn : 0 <= fbn < MAXFILE) by (apply bn_range; lia).
  assert (Hcost : cost s di fbn = nblk (off + m) - nblk off) by (apply cost_compact; [done|lia|lia|done]).
  pose proof (nblk_mono (off + m) (off + Z.of_nat (length p)) ltac:(lia)).
  destruct (iappend_block_run s di fbn Hs Hf Hbn ltac:(lia)) as (s1 & di1 & Hrun & Hx & Hn).
  destruct (appended_chunk s di s1 di1 off chunk) as (d & Hd & Hxr & Hap); [done|done|done| |lia|lia|done|done|].
  { intros Hz. rewrite Hz in Hcl. cbn in Hcl. lia. }
  fold fbn in Hd, Hxr, Hap. set (x := slot (view s1) di1 (pos fbn)) in *. set (s2 := put x d s1) in *.
  destruct (IH s2 di1 (off + m) rest) as (s3 & di3 & Hrun3 & Hap3).
  - apply Hap.
  - apply (ap_wrote _ _ _ _ _ _ Hap).
  - rewrite <-Hcl. apply Hap.
  - lia.
  - lia.
  - rewrite (ap_next _ _ _ _ _ _ Hap), Hcl, Hrl. replace (off + m + (Z.of_nat (length p) - m)) with (off + Z.of_nat (length p)) by lia. lia.
  - lia.
  - exists s3, di3. split.
    + destruct p as [|c p]; [done|]. cbn [iappend_loop]. fold fbn. unfold assert.
      rewrite (proj2 (Z.ltb_lt fbn MAXFILE)) by lia. rewrite (bind_Ok _ _ s tt s) by done. rewrite (bind_Ok _ _ _ _ _ Hrun).
      fold m chunk rest x. rewrite (bind_Ok _ _ _ _ _ (rsect_run x s1 (ex_ok _ _ _ _ _ Hx) Hxr)).
      replace (off - fbn * Z.of_nat BSIZE) with (off mod Z.of_nat BSIZE) by lia. rewrite Hd. cbn [or_fault].
      rewrite (bind_Ok _ _ s1 d s1), (bind_Ok _ _ _ _ _ (wsect_run x d s1 (ex_ok _ _ _ _ _ Hx) Hxr)) by done.
      fold s2. rewrite Hrun3. do 3 f_equal. lia.
    + rewrite <-(take_drop (Z.to_nat m) p). fold chunk rest. apply (appended_trans s di off chunk rest s2 di1); [done| |done|by rewrite Hcl].
      rewrite length_app. lia.
Qed.

(** ** Inodes *)

Lemma iblock_low inum : 0 < inum < sb_ninodes main_sb -> 1 < IBLOCK inum main_sb < sb_bmapstart main_sb.
Proof.
  intros Hi. unfold IBLOCK. change IPB with 8. change (sb_inodestart main_sb) with 32. change (sb_ninodes main_sb) with 200 in Hi.
  change (sb_bmapstart main_sb) with 58. pose proof (Z.div_pos inum 8). pose proof (Z.div_lt_upper_bound inum 8 25). lia.
Qed.

Lemma rinode_run s inum di : image_ok s -> 0 < inum < sb_ninodes main_sb -> dinode_at (view s) main_sb inum = Some di ->
  rinode inum s = Ok (di, s).
Proof.
  intros Hs Hi Hd. pose proof (iblock_low inum Hi). unfold rinode. rewrite (bind_Ok _ _ s main_sb s) by (unfold gets; by rewrite (io_sb _ Hs)).
  cbv zeta. rewrite (bind_Ok _ _ _ _ _ (rsect_run (IBLOCK inum main_sb) s Hs ltac:(mk_lia))).
  unfold dinode_at in Hd. rewrite view_img in Hd by lia. by rewrite Hd.
Qed.

(** [s'] is [s] with the inode [inum] set to [di]. *)
Record inode_put (s : mkst) (inum : Z) (di : dinode) (s' : mkst) : Prop := {
  ip_ok : image_ok s';
  ip_this : dinode_at (view s') main_sb inum = Some di;
  ip_other j : 0 < j -> j <> inum -> dinode_at (view s') main_sb j = dinode_at (view s) main_sb j;
  ip_data c : sb_bmapstart main_sb <= c -> view s' c = view s c;
  ip_super : m_img s' 1 = m_img s 1;
  ip_next : m_freeblock s' = m_freeblock s;
  ip_inode : m_freeinode s' = m_freeinode s;
}.

Lemma winode_run s inum di : image_ok s -> 0 < inum < sb_ninodes main_sb -> dinode_ok di ->
  exists s', winode inum di s = Ok (tt, s') /\ inode_put s inum di s'.
Proof.
  intros Hs Hi Hdi. pose proof (iblock_low inum Hi) as Hb. pose proof (io_next _ Hs). set (b := IBLOCK inum main_sb) in *.
  assert (Hl : length (m_img s b) = BSIZE) by (apply (io_block _ Hs); mk_lia). pose proof (dinode_off_bound inum).
  destruct (decode_encode_dinode (m_img s b) (dinode_off inum) di) as (d & Hd & Hdl & _); [lia|done|].
  assert (Hv : view s b = m_img s b) by (apply view_img; lia).
  destruct (dinode_at_put 2 30 (view s) main_sb inum di d main_layout Hi Hdi) as [H1 H2]; fold b; [by rewrite Hv|by rewrite Hv|].
  fold b in H1, H2.
  assert (He : forall c, view (put b d s) c = upd (view s) b d c) by (intros c; apply view_put; lia).
  exists (put b d s). split.
  - unfold winode. rewrite (bind_Ok _ _ s main_sb s) by (unfold gets; by rewrite (io_sb _ Hs)). cbv zeta. fold b.
    rewrite (bind_Ok _ _ _ _ _ (rsect_run b s Hs ltac:(mk_lia))), Hd. cbn [or_fault].
    rewrite (bind_Ok _ _ s d s) by done. apply wsect_run; [done|mk_lia].
  - split; try done.
    + apply put_ok; [done|mk_lia|congruence].
    + unfold dinode_at in *. by rewrite He.
    + intros j Hj Hne. rewrite <-H2 by done. unfold dinode_at. by rewrite He.
    + intros c Hc. rewrite He. apply upd_other. lia.
    + cbn [m_img put set_image]. apply upd_other. lia.
Qed.
