(* ===== verification/MkfsImage.v ===== *)
(** * The files of the image (mkfs.c: ialloc, iappend)

    The image as a list of files, one for each inode: [ialloc] adds an empty one and
    [iappend] makes one longer; the others stay as they are. *)

From stdpp Require Import base numbers list strings.
From S2P Require Import Prelude Strings Bytes Ide Store Log Fs FsTxn FsAlloc FsInode FsFile Mkfs MkfsSpec MkfsAppend.

Open Scope Z_scope.

(** ** A file that keeps its blocks *)

Section Frame.
Context (v w : Z -> list Z) (di : dinode).
Context (Hkeep : forall p, 0 <= p < NSLOT -> slot v di p <> 0 -> w (slot v di p) = v (slot v di p)).

Lemma slot_frame p : slot w di p = slot v di p.
Proof.
  unfold slot. destruct (p <=? NDIRECT); [done|].
  change (default 0 (di_addrs di !! Z.to_nat NDIRECT)) with (slot v di NDIRECT).
  destruct (Z.eqb_spec (slot v di NDIRECT) 0); [done|]. by rewrite Hkeep.
Qed.

Lemma byte_frame o : 0 <= o < MAXFILE * Z.of_nat BSIZE -> byte_at w di o = byte_at v di o.
Proof.
  intros Ho. unfold byte_at. rewrite slot_frame. destruct (Z.eqb_spec (slot v di (pos (o / Z.of_nat BSIZE))) 0); [done|].
  rewrite Hkeep; [done| |done]. by apply pos_range, bn_range.
Qed.

Lemma compact_frame n : compact v di n -> compact w di n.
Proof. intros [H1 H2]. split; [intros bn|]; rewrite slot_frame; [apply H1|done]. Qed.

Lemma file_ok_frame sb : (forall c, data sb c -> used v sb c = true -> used w sb c = true) -> file_ok v sb di -> file_ok w sb di.
Proof.
  intros Hu [Hd Hs Hi]. split; [done| |].
  - intros p Hp. rewrite slot_frame. intros Hne. destruct (Hs p Hp Hne). auto.
  - intros p q. rewrite !slot_frame. apply Hi.
Qed.
End Frame.

(** ** Files *)

(** A file of type [ty] with the contents [c], at [di]. *)
Record file_is (v : Z -> list Z) (ty : Z) (c : list Z) (di : dinode) : Prop := {
  fi_type : di_type di = ty;
  fi_nlink : di_nlink di = 1;
  fi_size : di_size di = Z.of_nat (length c);
  fi_max : Z.of_nat (length c) <= MAXFILE * Z.of_nat BSIZE;
  fi_ok : file_ok v main_sb di;
  fi_compact : compact v di (Z.of_nat (length c));
  fi_bytes i x : c !! i = Some x -> byte_at v di (Z.of_nat i) = x;
  fi_tail o : Z.of_nat (length c) <= o < MAXFILE * Z.of_nat BSIZE -> byte_at v di o = 0;
}.

Lemma file_is_frame v w ty c di :
  (forall p, 0 <= p < NSLOT -> slot v di p <> 0 -> w (slot v di p) = v (slot v di p)) ->
  (forall b, data main_sb b -> used v main_sb b = true -> used w main_sb b = true) ->
  file_is v ty c di -> file_is w ty c di.
Proof.
  intros Hk Hu []. split; try done; [by apply (file_ok_frame v)|by apply (compact_frame v)| |].
  - intros i x Hi. rewrite (byte_frame v); [by apply fi_bytes0|done|]. apply lookup_lt_Some in Hi. lia.
  - intros o Ho. rewrite (byte_frame v); [by apply fi_tail0|done|lia].
Qed.

Lemma file_is_full v ty c di : file_is v ty c di -> full v di.
Proof.
  intros []. rewrite <-fi_size0 in *. split; [done|]. intros o Ho. apply (co_block _ _ _ fi_compact0); [apply bn_range; lia|].
  pose proof (Z.mul_div_le o (Z.of_nat BSIZE) ltac:(done)). lia.
Qed.

Lemma file_is_bytes v ty c di : file_is v ty c di -> file_bytes v di 0 (di_size di) = c.
Proof.
  intros []. apply list_eq. intros i. unfold file_bytes. rewrite list_lookup_fmap.
  destruct (c !! i) as [x|] eqn:Hi.
  - pose proof (lookup_lt_Some _ _ _ Hi). rewrite lookup_seqZ_lt by lia. cbn. f_equal. rewrite Z.add_0_l. by apply fi_bytes0.
  - apply lookup_ge_None in Hi. by rewrite lookup_seqZ_ge by lia.
Qed.

(** A free inode. *)
Definition free_dinode : dinode := mkdinode 0 0 0 0 0 0 0 0 (replicate 11 0).

(** The blocks of two inodes are different. *)
Definition apart (v : Z -> list Z) (di dj : dinode) : Prop :=
  forall p q, 0 <= p < NSLOT -> 0 <= q < NSLOT -> slot v di p <> 0 -> slot v di p <> slot v dj q.

Definition ino (i : nat) : Z := Z.of_nat i + 1.
Definition blocks (fs : list (Z * list Z)) : Z := foldr (fun f n => nblk (Z.of_nat (length f.2)) + n) 0 fs.

(** The image holds the files [fs], at the inodes [ds] numbered from 1. *)
Record built (s : mkst) (fs : list (Z * list Z)) (ds : list dinode) : Prop := {
  bu_ok : image_ok s;
  bu_len : length ds = length fs;
  bu_max : (length fs < 200)%nat;
  bu_inode : m_freeinode s = ino (length fs);
  bu_next : m_freeblock s = nmeta + blocks fs;
  bu_at i di : ds !! i = Some di -> dinode_at (view s) main_sb (ino i) = Some di;
  bu_file i ty c di : fs !! i = Some (ty, c) -> ds !! i = Some di -> file_is (view s) ty c di;
  bu_free j : m_freeinode s <= j < sb_ninodes main_sb -> dinode_at (view s) main_sb j = Some free_dinode;
  bu_apart i j di dj : i <> j -> ds !! i = Some di -> ds !! j = Some dj -> apart (view s) di dj;
  bu_super : m_img s 1 = encode_super main_sb ++ drop 28 zeroes;
}.

Lemma blocks_insert fs i f g : fs !! i = Some f ->
  blocks (<[i := g]> fs) = blocks fs - nblk (Z.of_nat (length f.2)) + nblk (Z.of_nat (length g.2)).
Proof.
  revert i. induction fs as [|h fs IH]; intros [|i] Hi; [done|done| |].
  - injection Hi as ->. cbn. lia.
  - change (blocks (<[S i := g]> (h :: fs))) with (nblk (Z.of_nat (length h.2)) + blocks (<[i := g]> fs)).
    change (blocks (h :: fs)) with (nblk (Z.of_nat (length h.2)) + blocks fs). rewrite (IH i Hi). lia.
Qed.

Lemma blocks_snoc fs f : blocks (fs ++ [f]) = blocks fs + nblk (Z.of_nat (length f.2)).
Proof. unfold blocks. induction fs as [|h fs IH]; cbn [app foldr]; [lia|]. rewrite IH. lia. Qed.

(** ** Appending *)

Section Append.
Context (s : mkst) (fs : list (Z * list Z)) (ds : list dinode) (i : nat) (ty : Z) (c : list Z) (di : dinode) (p : list Z).
Context (Hb : built s fs ds) (Hi : fs !! i = Some (ty, c)) (Hd : ds !! i = Some di).
Context (s1 : mkst) (di1 : dinode) (Hap : appended s di (Z.of_nat (length c)) p s1 di1).
Context (Hmax : Z.of_nat (length c) + Z.of_nat (length p) <= MAXFILE * Z.of_nat BSIZE).

Let Hw := ap_wrote _ _ _ _ _ _ Hap.

(** A block of another file is kept. *)
Lemma append_kept j dj q : j <> i -> ds !! j = Some dj -> 0 <= q < NSLOT -> slot (view s) dj q <> 0 ->
  view s1 (slot (view s) dj q) = view s (slot (view s) dj q).
Proof.
  intros Hne Hj Hq H0. assert (is_Some (fs !! j)) as [[tj cj] Hcj].
  { apply lookup_lt_is_Some. rewrite <-(bu_len _ _ _ Hb). by eapply lookup_lt_Some. }
  pose proof (bu_file _ _ _ Hb _ _ _ _ Hcj Hj) as Hfj. destruct (fo_data _ _ _ (fi_ok _ _ _ _ Hfj) q Hq H0) as [Hdt Hu].
  unfold data in Hdt. apply (wr_frame _ _ _ _ _ _ _ Hw); [mk_lia|done|lia|].
  intros r Hr Hr0. exact (bu_apart _ _ _ Hb i j di dj (not_eq_sym Hne) Hd Hj r q Hr Hq Hr0).
Qed.

Lemma append_used b : data main_sb b -> used (view s) main_sb b = true -> used (view s1) main_sb b = true.
Proof. intros Hdt. unfold data in Hdt. apply (wr_used _ _ _ _ _ _ _ Hw). mk_lia. Qed.

Lemma append_apart j dj : j <> i -> ds !! j = Some dj -> apart (view s1) di1 dj /\ apart (view s1) dj di1.
Proof.
  intros Hne Hj. assert (Hsl : forall q, slot (view s1) dj q = slot (view s) dj q).
  { intros q. apply slot_frame. intros r. by apply (append_kept j). }
  assert (is_Some (fs !! j)) as [[tj cj] Hcj].
  { apply lookup_lt_is_Some. rewrite <-(bu_len _ _ _ Hb). by eapply lookup_lt_Some. }
  pose proof (bu_file _ _ _ Hb _ _ _ _ Hcj Hj) as Hfj.
  assert (H : forall r q, 0 <= r < NSLOT -> 0 <= q < NSLOT -> slot (view s1) di1 r <> 0 -> slot (view s1) di1 r <> slot (view s) dj q).
  { intros r q Hr Hq Hr0. destruct (decide (slot (view s) di r = 0)) as [H0|H0].
    - intros He. pose proof (wr_new _ _ _ _ _ _ _ Hw r Hr H0 Hr0) as Hu. rewrite He in Hu, Hr0.
      destruct (fo_data _ _ _ (fi_ok _ _ _ _ Hfj) q Hq Hr0) as [_ Hu']. congruence.
    - rewrite (wr_keep _ _ _ _ _ _ _ Hw) by done. by apply (bu_apart _ _ _ Hb i j di dj (not_eq_sym Hne)). }
  split; intros r q Hr Hq; rewrite Hsl.
  - by apply H.
  - intros H0 He. apply (H q r Hq Hr); congruence.
Qed.

Lemma append_file : file_is (view s1) ty (c ++ p) (set_di_size (Z.of_nat (length (c ++ p))) di1).
Proof.
  pose proof (bu_file _ _ _ Hb _ _ _ _ Hi Hd) as Hf. pose proof (wr_ok _ _ _ _ _ _ _ Hw) as Hok. pose proof (wr_meta _ _ _ _ _ _ _ Hw) as Hme.
  assert (Hlen : Z.of_nat (length (c ++ p)) = Z.of_nat (length c) + Z.of_nat (length p)) by (rewrite length_app; lia).
  split.
  - rewrite Hme. apply (fi_type _ _ _ _ Hf).
  - rewrite Hme. apply (fi_nlink _ _ _ _ Hf).
  - done.
  - lia.
  - destruct Hok as [Hdi Hs Hj]. split; [|exact Hs|exact Hj]. destruct Hdi. split; try done. cbn [di_size set_di_size]. fs_lia.
  - rewrite Hlen. destruct (ap_compact _ _ _ _ _ _ Hap) as [H1 H2]. split; [exact H1|exact H2].
  - intros k x Hk. pose proof (lookup_lt_Some _ _ _ Hk). change (byte_at (view s1) di1 (Z.of_nat k) = x).
    rewrite (wr_bytes_at _ _ _ _ _ _ _ Hw) by lia. unfold overlay. apply lookup_app_Some in Hk as [Hk|[Hge Hk]].
    + pose proof (lookup_lt_Some _ _ _ Hk). destruct (Z.leb_spec (Z.of_nat (length c)) (Z.of_nat k)); [lia|].
      by apply (fi_bytes _ _ _ _ Hf).
    + pose proof (lookup_lt_Some _ _ _ Hk). destruct (Z.leb_spec (Z.of_nat (length c)) (Z.of_nat k)); [|lia].
      destruct (Z.ltb_spec (Z.of_nat k) (Z.of_nat (length c) + Z.of_nat (length p))); [|lia].
      replace (Z.to_nat (Z.of_nat k - Z.of_nat (length c))) with (k - length c)%nat by lia. by rewrite Hk.
  - intros o Ho. change (byte_at (view s1) di1 o = 0). rewrite Hlen in Ho.
    rewrite (wr_bytes_at _ _ _ _ _ _ _ Hw) by lia. unfold overlay.
    destruct (Z.ltb_spec o (Z.of_nat (length c) + Z.of_nat (length p))); [lia|]. rewrite andb_false_r.
    apply (fi_tail _ _ _ _ Hf). lia.
Qed.
End Append.

Lemma ino_inj i j : ino i = ino j -> i = j.
Proof. unfold ino. lia. Qed.

Lemma built_ino s fs ds i : built s fs ds -> (i < length fs)%nat -> 0 < ino i < sb_ninodes main_sb.
Proof. intros Hb Hi. pose proof (bu_max _ _ _ Hb). unfold ino. mk_lia. Qed.

(** Inodes are kept by an append, and by a change to blocks of files. *)
Lemma dinode_low s s1 j : (forall c, c < sb_bmapstart main_sb -> m_img s1 c = m_img s c) -> 0 < j < sb_ninodes main_sb ->
  dinode_at (view s1) main_sb j = dinode_at (view s) main_sb j.
Proof.
  intros Hl Hj. pose proof (iblock_low j Hj). unfold dinode_at. rewrite !view_img by lia. by rewrite Hl by lia.
Qed.

(** A file after its inode, or that of another file, is written. *)
Lemma file_is_put s s' inum dn ty c di : inode_put s inum dn s' -> file_is (view s) ty c di -> file_is (view s') ty c di.
Proof.
  intros Hp Hf. apply (file_is_frame (view s)); [| |done].
  - intros q Hq H0. apply (ip_data _ _ _ _ Hp). pose proof (slot_small s di q (fi_ok _ _ _ _ Hf) Hq H0). lia.
  - intros b _. unfold used. by rewrite (ip_data _ _ _ _ Hp) by lia.
Qed.

Lemma slot_put s s' inum dn di q : inode_put s inum dn s' -> file_ok (view s) main_sb di -> slot (view s') di q = slot (view s) di q.
Proof.
  intros Hp Hf. apply slot_frame. intros r Hr H0. apply (ip_data _ _ _ _ Hp). pose proof (slot_small s di r Hf Hr H0). lia.
Qed.

Lemma apart_put s s' inum dn di dj : inode_put s inum dn s' -> file_ok (view s) main_sb di -> file_ok (view s) main_sb dj ->
  apart (view s) di dj -> apart (view s') di dj.
Proof. intros Hp Hi Hj H p q. rewrite !(slot_put s s' inum dn) by done. apply H. Qed.

Lemma lookup_insert_case {A} (l : list A) i j x y : <[i := x]> l !! j = Some y ->
  (j = i /\ y = x) \/ (j <> i /\ l !! j = Some y).
Proof. intros [(-> & -> & _)|(? & ?)]%list_lookup_insert_Some; [by left|by right]. Qed.

Section Appended.
Context (s : mkst) (fs : list (Z * list Z)) (ds : list dinode) (i : nat) (ty : Z) (c : list Z) (di : dinode) (p : list Z).
Context (Hb : built s fs ds) (Hi : fs !! i = Some (ty, c)) (Hd : ds !! i = Some di).
Context (s1 : mkst) (di1 : dinode) (Hap : appended s di (Z.of_nat (length c)) p s1 di1).
Context (Hmax : Z.of_nat (length c) + Z.of_nat (length p) <= MAXFILE * Z.of_nat BSIZE).
Let di2 := set_di_size (Z.of_nat (length (c ++ p))) di1.
Context (s2 : mkst) (Hput : inode_put s1 (ino i) di2 s2).

Lemma appended_file j tj cj dj : <[i := (ty, c ++ p)]> fs !! j = Some (tj, cj) -> <[i := di2]> ds !! j = Some dj ->
  file_is (view s1) tj cj dj.
Proof.
  intros [(-> & [= -> ->])|(Hne & Hj)]%lookup_insert_case [(Hij & ->)|(Hne' & Hdj)]%lookup_insert_case; [|done|done|].
  - by apply (append_file s fs ds i ty c di p).
  - apply (file_is_frame (view s)); [|intros b; by apply (append_used s c di p s1 di1 Hap)|by apply (bu_file _ _ _ Hb j)].
    intros q. by apply (append_kept s fs ds i c di p Hb Hd s1 di1 Hap j).
Qed.

Lemma appended_apart j k dj dk : j <> k -> <[i := di2]> ds !! j = Some dj -> <[i := di2]> ds !! k = Some dk -> apart (view s1) dj dk.
Proof.
  intros Hjk [(-> & ->)|(Hj & Hdj)]%lookup_insert_case [(-> & ->)|(Hk & Hdk)]%lookup_insert_case; [done| | |].
  - by apply (append_apart s fs ds i c di p Hb Hd s1 di1 Hap k).
  - by apply (append_apart s fs ds i c di p Hb Hd s1 di1 Hap j).
  - assert (Hsl : forall m dm, m <> i -> ds !! m = Some dm -> forall q, slot (view s1) dm q = slot (view s) dm q).
    { intros m dm Hm Hdm q. apply slot_frame. intros r. by apply (append_kept s fs ds i c di p Hb Hd s1 di1 Hap m). }
    intros q r. rewrite (Hsl j dj), (Hsl k dk) by done. exact (bu_apart _ _ _ Hb j k dj dk Hjk Hdj Hdk q r).
Qed.

Lemma appended_built : built s2 (<[i := (ty, c ++ p)]> fs) (<[i := di2]> ds).
Proof.
  pose proof (lookup_lt_Some _ _ _ Hi) as Hlt. pose proof (ap_low _ _ _ _ _ _ Hap) as Hlow.
  assert (Hone : forall j dj, <[i := di2]> ds !! j = Some dj -> file_ok (view s1) main_sb dj).
  { intros j dj Hj. assert (is_Some (<[i := (ty, c ++ p)]> fs !! j)) as [[tj cj] Hcj].
    { apply lookup_lt_is_Some. rewrite length_insert, <-(bu_len _ _ _ Hb), <-(length_insert ds i di2). by eapply lookup_lt_Some. }
    by apply (fi_ok _ _ _ _ (appended_file j tj cj dj Hcj Hj)). }
  split.
  - apply Hput.
  - rewrite !length_insert. apply Hb.
  - rewrite length_insert. apply Hb.
  - rewrite length_insert, (ip_inode _ _ _ _ Hput), (ap_inode _ _ _ _ _ _ Hap). apply Hb.
  - rewrite (ip_next _ _ _ _ Hput), (ap_next _ _ _ _ _ _ Hap), (bu_next _ _ _ Hb), (blocks_insert _ _ _ _ Hi). cbn [snd].
    rewrite length_app, Nat2Z.inj_add. lia.
  - intros j dj [(-> & ->)|(Hne & Hj)]%lookup_insert_case; [apply Hput|].
    assert (Hjr : 0 < ino j < sb_ninodes main_sb).
    { apply (built_ino s fs ds); [done|]. rewrite <-(bu_len _ _ _ Hb). by eapply lookup_lt_Some. }
    rewrite (ip_other _ _ _ _ Hput), (dinode_low s) by (done || lia || (intros ?%ino_inj; done)). by apply (bu_at _ _ _ Hb).
  - intros j tj cj dj Hcj Hdj. eapply file_is_put; [exact Hput|]. by apply (appended_file j).
  - intros j Hj. pose proof (built_ino _ _ _ _ Hb Hlt).
    rewrite (ip_inode _ _ _ _ Hput), (ap_inode _ _ _ _ _ _ Hap) in Hj. pose proof (bu_inode _ _ _ Hb) as Hn.
    rewrite (ip_other _ _ _ _ Hput), (dinode_low s) by (done || (unfold ino in *; lia)). by apply (bu_free _ _ _ Hb).
  - intros j k dj dk Hjk Hj Hk. eapply apart_put; [exact Hput|by eapply Hone|by eapply Hone|by eapply appended_apart].
  - rewrite (ip_super _ _ _ _ Hput), Hlow by mk_lia. apply Hb.
Qed.
End Appended.

(** [iappend] makes the file longer, and takes the blocks that needs. *)
Lemma iappend_built s fs ds i ty c p : built s fs ds -> fs !! i = Some (ty, c) ->
  Z.of_nat (length c) + Z.of_nat (length p) <= MAXFILE * Z.of_nat BSIZE ->
  nmeta + blocks (<[i := (ty, c ++ p)]> fs) <= FSSIZE ->
  exists s' di', iappend (ino i) p s = Ok (tt, s') /\ built s' (<[i := (ty, c ++ p)]> fs) (<[i := di']> ds).
Proof.
  intros Hb Hi Hmax Hroom. pose proof (lookup_lt_Some _ _ _ Hi) as Hlt. pose proof (built_ino _ _ _ _ Hb Hlt) as Hin.
  assert (is_Some (ds !! i)) as [di Hd] by (apply lookup_lt_is_Some; by rewrite (bu_len _ _ _ Hb)).
  pose proof (bu_file _ _ _ Hb _ _ _ _ Hi Hd) as Hf. rewrite (blocks_insert _ _ _ _ Hi) in Hroom. cbn [snd] in Hroom.
  rewrite length_app, Nat2Z.inj_add in Hroom.
  destruct (iappend_loop_run (S (length p)) s di (Z.of_nat (length c)) p) as (s1 & di1 & Hrun & Hap);
    [apply Hb|apply Hf|apply Hf|lia|done|rewrite (bu_next _ _ _ Hb); lia|lia|].
  set (di2 := set_di_size (Z.of_nat (length (c ++ p))) di1).
  assert (Hok : dinode_ok di2) by (eapply fo_di, fi_ok, (append_file s fs ds i ty c di p); done).
  destruct (winode_run s1 (ino i) di2 (ap_ok _ _ _ _ _ _ Hap) Hin Hok) as (s2 & Hw & Hput).
  exists s2, di2. split; [|by apply (appended_built s fs ds i ty c di p Hb Hi Hd s1 di1)].
  unfold iappend. rewrite (bind_Ok _ _ _ _ _ (rinode_run s (ino i) di (bu_ok _ _ _ Hb) Hin (bu_at _ _ _ Hb _ _ Hd))).
  rewrite (fi_size _ _ _ _ Hf), xint_small by fs_lia. rewrite (bind_Ok _ _ _ _ _ Hrun).
  rewrite xint_small by fs_lia. rewrite <-Nat2Z.inj_add, <-length_app. exact Hw.
Qed.

(** ** New files *)

Definition new_dinode (ty : Z) : dinode := mkdinode ty 0 0 1 FILE_MODE FILE_UID FILE_GID 0 (replicate 11 0).

Lemma new_slot v ty p : slot v (new_dinode ty) p = 0.
Proof.
  unfold slot. cbn [new_dinode di_addrs]. destruct (p <=? NDIRECT); [|done].
  destruct (replicate 11 0 !! Z.to_nat p) as [x|] eqn:H; [|done]. by apply lookup_replicate in H as [-> _].
Qed.

Lemma new_dinode_ok ty : 0 <= ty < 2 ^ 15 -> dinode_ok (new_dinode ty).
Proof.
  intros Ht. split; cbn [new_dinode di_type di_major di_minor di_nlink di_mode di_uid di_gid di_size di_addrs];
    unfold FILE_MODE, FILE_UID, FILE_GID; try lia; [done|]. apply Forall_replicate. lia.
Qed.

Lemma new_file v ty : 0 <= ty < 2 ^ 15 -> file_is v ty [] (new_dinode ty).
Proof.
  intros Ht. split; try done.
  - split; [by apply new_dinode_ok| |]; intros p; rewrite new_slot; done.
  - split; [intros bn Hbn|]; rewrite new_slot; cbn [length]; fs_lia.
  - intros o _. unfold byte_at. by rewrite new_slot.
Qed.

Lemma lookup_snoc_case {A} (l : list A) j x y : (l ++ [x]) !! j = Some y -> l !! j = Some y \/ (j = length l /\ y = x).
Proof. intros [[_ ?]|[-> <-]]%lookup_snoc_Some; auto. Qed.

(** The files after a new one. *)
Lemma alloc_file s fs ds ty : built s fs ds -> 0 <= ty < 2 ^ 15 -> forall j tj cj dj,
  (fs ++ [(ty, [])]) !! j = Some (tj, cj) -> (ds ++ [new_dinode ty]) !! j = Some dj -> file_is (view s) tj cj dj.
Proof.
  intros Hb Ht j tj cj dj [Hj|(-> & [= -> ->])]%lookup_snoc_case [Hdj|(Hj' & ->)]%lookup_snoc_case.
  - by apply (bu_file _ _ _ Hb j).
  - apply lookup_lt_Some in Hj. rewrite (bu_len _ _ _ Hb) in Hj'. lia.
  - apply lookup_lt_Some in Hdj. rewrite (bu_len _ _ _ Hb) in Hdj. lia.
  - by apply new_file.
Qed.

Lemma alloc_ok s fs ds ty : built s fs ds -> 0 <= ty < 2 ^ 15 -> forall j dj,
  (ds ++ [new_dinode ty]) !! j = Some dj -> file_ok (view s) main_sb dj.
Proof.
  intros Hb Ht j dj Hj. assert (is_Some ((fs ++ [(ty, [])]) !! j)) as [[tj cj] Hcj].
  { apply lookup_lt_is_Some. apply lookup_lt_Some in Hj. rewrite length_app in *. rewrite <-(bu_len _ _ _ Hb). done. }
  by apply (fi_ok _ _ _ _ (alloc_file s fs ds ty Hb Ht j tj cj dj Hcj Hj)).
Qed.

Lemma ialloc_built s fs ds ty : built s fs ds -> (S (length fs) < 200)%nat -> 0 <= ty < 2 ^ 15 ->
  exists s', ialloc ty s = Ok (ino (length fs), s') /\ built s' (fs ++ [(ty, [])]) (ds ++ [new_dinode ty]).
Proof.
  intros Hb Hn Ht. pose proof (bu_inode _ _ _ Hb) as Hi. pose proof (bu_ok _ _ _ Hb) as Hok.
  set (s0 := set_freeinode (ino (S (length fs))) s).
  assert (Hs0 : image_ok s0) by (by destruct Hok).
  assert (Hr : 0 < ino (length fs) < sb_ninodes main_sb) by (unfold ino; mk_lia).
  destruct (winode_run s0 (ino (length fs)) (new_dinode ty) Hs0 Hr (new_dinode_ok ty Ht)) as (s1 & Hw & Hp).
  exists s1. split.
  - unfold ialloc. rewrite (bind_Ok _ _ s (ino (length fs)) s) by (unfold gets; by rewrite Hi).
    rewrite (bind_Ok _ _ s tt s0).
    2:{ unfold modify, s0. do 2 f_equal. rewrite u32_small by (unfold ino in *; mk_lia). unfold ino. f_equal. lia. }
    assert (Hx : s16 (xshort ty) = ty) by (unfold xshort; rewrite le_val_bytes; by apply s16_mod; lia).
    rewrite Hx. change (s16 (xshort 1)) with 1. change (xint 0) with 0. by rewrite (bind_Ok _ _ _ _ _ Hw).
  - pose proof (alloc_file s fs ds ty Hb Ht) as Hf. pose proof (alloc_ok s fs ds ty Hb Ht) as Hok1. change (view s) with (view s0) in Hf, Hok1.
    split.
    + apply Hp.
    + rewrite !length_app, (bu_len _ _ _ Hb). done.
    + rewrite length_app. cbn [length]. lia.
    + rewrite (ip_inode _ _ _ _ Hp), length_app. cbn [length]. unfold s0. cbn [m_freeinode set_freeinode]. f_equal. lia.
    + rewrite (ip_next _ _ _ _ Hp), blocks_snoc. change (nblk _) with 0. rewrite Z.add_0_r. apply Hb.
    + intros j dj [Hj|(-> & ->)]%lookup_snoc_case; [|rewrite (bu_len _ _ _ Hb); apply Hp].
      rewrite (ip_other _ _ _ _ Hp); [by apply (bu_at _ _ _ Hb)|unfold ino; lia|].
      intros He%ino_inj. apply lookup_lt_Some in Hj. rewrite (bu_len _ _ _ Hb) in Hj. lia.
    + intros j tj cj dj Hj Hdj. eapply file_is_put; [exact Hp|by eapply Hf].
    + intros j Hj. rewrite (ip_inode _ _ _ _ Hp) in Hj. unfold s0 in Hj. cbn [m_freeinode set_freeinode] in Hj. unfold ino in Hj, Hi, Hp.
      rewrite (ip_other _ _ _ _ Hp) by lia. apply (bu_free _ _ _ Hb). lia.
    + intros j k dj dk Hjk Hj Hk. eapply apart_put; [exact Hp|by eapply Hok1|by eapply Hok1|]. intros p q Hpr Hqr.
      apply lookup_snoc_case in Hj as [Hj|(-> & ->)]; [|by rewrite new_slot].
      apply lookup_snoc_case in Hk as [Hk|(-> & ->)]; [|by rewrite (new_slot _ ty q)].
      by apply (bu_apart _ _ _ Hb j k dj dk Hjk Hj Hk).
    + rewrite (ip_super _ _ _ _ Hp). apply Hb.
Qed.
