(* ===== verification/MkfsTheorems.v ===== *)
(** * The image main makes (mkfs.c: main, balloc)

    [main] with enough room makes an image that the kernel can use: the superblock it
    reads at boot, a free map that marks exactly the blocks in use, and a root
    directory in which each file is found under its name, with the bytes read from
    the host. *)

From stdpp Require Import base numbers list strings.
From S2P Require Import Prelude Strings Bytes Ide Store Log Fs FsTxn FsAlloc FsInode FsFile FsDir FsPath Mkfs MkfsSpec MkfsAppend MkfsImage.

Open Scope Z_scope.

(** ** The blank image *)

Lemma wzeroes_run n s : 0 <= m_len s -> m_len s + Z.of_nat n <= FSSIZE -> (forall c, m_img s c = zeroes) ->
  exists s', wzeroes (seqZ (m_len s) (Z.of_nat n)) s = Ok (tt, s') /\ (forall c, m_img s' c = zeroes) /\
    m_len s' = m_len s + Z.of_nat n /\ m_freeinode s' = m_freeinode s /\ m_freeblock s' = m_freeblock s /\ m_sb s' = m_sb s.
Proof.
  revert s. induction n as [|n IH]; intros s H0 Hn Hz.
  - exists s. split_and!; try done. lia.
  - rewrite seqZ_cons by lia. cbn [wzeroes]. set (s1 := set_image (upd (m_img s) (m_len s) zeroes) (m_len s + 1) s).
    assert (Hw : wsect (m_len s) zeroes s = Ok (tt, s1)).
    { unfold wsect, modify, s1. rewrite sector_id, Z.max_r by lia. done. }
    rewrite (bind_Ok _ _ _ _ _ Hw). replace (Z.pred (Z.of_nat (S n))) with (Z.of_nat n) by lia.
    change (Z.succ (m_len s)) with (m_len s + 1). destruct (IH s1) as (s' & Hr & Hz' & Hl & Hrest).
    + cbn. lia.
    + cbn. lia.
    + intros c. cbn [m_img s1 set_image]. unfold upd. by destruct (c =? _).
    + exists s'. split_and!; [exact Hr|done|cbn in Hl; lia|apply Hrest..].
Qed.

Lemma get16_zero off : (off + 2 <= BSIZE)%nat -> get16 zero_block off = Some 0.
Proof.
  intros Ho. unfold get16, zero_block. rewrite rd_bytes_Some by (rewrite length_replicate; lia).
  rewrite drop_replicate, take_replicate. by replace (2 `min` (BSIZE - off))%nat with 2%nat by lia.
Qed.

Lemma get_addrs_zero off k : (off + 4 * k <= BSIZE)%nat -> get_addrs zero_block off k = Some (replicate k 0).
Proof.
  revert off. induction k as [|k IH]; intros off Ho; [done|]. cbn [get_addrs]. rewrite get32_zero by lia. cbn [mbind option_bind].
  rewrite IH by lia. done.
Qed.

Lemma decode_zero off : (off + 64 <= BSIZE)%nat -> decode_dinode zero_block off = Some free_dinode.
Proof.
  intros Ho. unfold decode_dinode. rewrite !get16_zero, !get32_zero, get_addrs_zero by (change (Z.to_nat NDIRECT) with 10%nat; lia). done.
Qed.

(** The superblock is read back. *)
Lemma decode_main : decode_super (encode_super main_sb ++ drop 28 zeroes) = Some main_sb.
Proof. by vm_compute. Qed.

Lemma length_super : length (encode_super main_sb ++ drop 28 zeroes) = BSIZE.
Proof. by vm_compute. Qed.

(** The state in which [main] begins to make files. *)
Lemma blank_built s : (forall c, m_img s c = zeroes) -> m_len s = FSSIZE -> m_freeinode s = 1 -> m_freeblock s = nmeta -> m_sb s = main_sb ->
  built (put 1 (encode_super main_sb ++ drop 28 zeroes) s) [] [].
Proof.
  intros Hz Hl Hi Hf Hsb.
  assert (Hs : image_ok s).
  { split; [done|done| |rewrite Hf; split; vm_compute; congruence|intros b _; apply Hz].
    intros b _. rewrite Hz. apply length_replicate. }
  split; try done.
  - apply put_ok; [done|rewrite Hf; mk_lia|exact length_super].
  - cbn [length]. lia.
  - intros j Hj. cbn [m_freeinode put set_image] in Hj. rewrite Hi in Hj. pose proof (iblock_low j ltac:(lia)) as Hb. pose proof (dinode_off_bound j).
    unfold dinode_at. rewrite view_img by lia. cbn [m_img put set_image]. rewrite upd_other, Hz by lia. by apply decode_zero.
Qed.

(** ** Reading a file of the host *)

Lemma append_reads_built s fs ds i ty c reads : built s fs ds -> fs !! i = Some (ty, c) -> Forall (fun r => r <> []) reads ->
  Z.of_nat (length (c ++ mjoin reads)) <= MAXFILE * Z.of_nat BSIZE ->
  nmeta + blocks (<[i := (ty, c ++ mjoin reads)]> fs) <= FSSIZE ->
  exists s' ds', append_reads (ino i) reads s = Ok (tt, s') /\ built s' (<[i := (ty, c ++ mjoin reads)]> fs) ds'.
Proof.
  revert s fs ds c. induction reads as [|r reads IH]; intros s fs ds c Hb Hi Hne Hmax Hroom.
  - exists s, ds. split; [done|]. cbn [mjoin list_join]. rewrite app_nil_r. by rewrite list_insert_id.
  - apply Forall_cons in Hne as [Hr Hne]. change (mjoin (r :: reads)) with (r ++ mjoin reads) in *.
    rewrite (assoc_L (++)) in Hmax, Hroom |- *. pose proof (lookup_lt_Some _ _ _ Hi) as Hlt.
    assert (Hle : nmeta + blocks (<[i := (ty, c ++ r)]> fs) <= FSSIZE).
    { rewrite (blocks_insert _ _ _ _ Hi) in Hroom. rewrite (blocks_insert _ _ _ _ Hi). cbn [snd] in Hroom |- *.
      pose proof (nblk_mono (Z.of_nat (length (c ++ r))) (Z.of_nat (length ((c ++ r) ++ mjoin reads))) ltac:(rewrite (length_app (c ++ r)); lia)). lia. }
    destruct (iappend_built s fs ds i ty c r Hb Hi) as (s1 & d1 & Hrun & Hb1); [rewrite !length_app in Hmax; lia|done|].
    destruct (IH s1 _ _ (c ++ r) Hb1) as (s2 & ds2 & Hrun2 & Hb2); [by apply list_lookup_insert_eq|done|done|by rewrite list_insert_insert_eq|].
    rewrite list_insert_insert_eq in Hb2. exists s2, ds2. split; [|done].
    destruct r as [|x r]; [done|]. cbn [append_reads]. by rewrite (bind_Ok _ _ _ _ _ Hrun).
Qed.

(** ** Adding the files *)

Lemma blocks_app f g : blocks (f ++ g) = blocks f + blocks g.
Proof. unfold blocks. induction f as [|h f IH]; cbn [app foldr]; [lia|]. rewrite IH. lia. Qed.

Lemma nblk_pos n : 0 <= n -> 0 <= nblk n.
Proof. intros H. unfold nblk. pose proof (Z.div_pos (n + 511) 512). destruct (_ <=? _); lia. Qed.

Lemma blocks_pos f : 0 <= blocks f.
Proof.
  unfold blocks. induction f as [|h f IH]; cbn [foldr]; [lia|]. pose proof (nblk_pos (Z.of_nat (length h.2))). lia.
Qed.

Lemma blocks_cons ty c f : blocks ((ty, c) :: f) = nblk (Z.of_nat (length c)) + blocks f.
Proof. done. Qed.

(** The directory entries of [names], for the inodes from [k] on. *)
Fixpoint dents (k : Z) (names : list (list Z)) : list Z :=
  match names with
  | [] => []
  | name :: names => dirent k (de_name (skip_underscore name)) ++ dents (k + 1) names
  end.

Lemma length_de_name n : length (de_name n) = DIRSIZ.
Proof. unfold de_name. rewrite length_take, length_app, length_replicate. lia. Qed.

Lemma length_dirent k n : length (dirent k (de_name n)) = 16%nat.
Proof. unfold dirent. by rewrite length_app, length_le_bytes, length_de_name. Qed.

Lemma length_dents k names : length (dents k names) = (16 * length names)%nat.
Proof. revert k. induction names as [|n names IH]; intros k; [done|]. cbn [dents length]. rewrite length_app, length_dirent, IH. lia. Qed.

Section Files.
Context (open : list Z -> option (list (list Z))).

(** The file [name] of the host has the contents [c]. *)
Definition host (name c : list Z) : Prop :=
  47 ∉ name /\ Z.of_nat (length c) <= MAXFILE * Z.of_nat BSIZE /\
  exists reads, open name = Some reads /\ Forall (fun r => r <> []) reads /\ mjoin reads = c.

Lemma add_file_built s root files ds name c :
  built s ((T_DIR, root) :: files) ds -> host name c -> (S (S (length files)) < 200)%nat ->
  let k := ino (S (length files)) in
  let root' := root ++ dirent k (de_name (skip_underscore name)) in
  Z.of_nat (length root') <= MAXFILE * Z.of_nat BSIZE ->
  nmeta + blocks ((T_DIR, root') :: files ++ [(T_FILE, c)]) <= FSSIZE ->
  exists s' ds', add_file open ROOTINO name s = Ok (tt, s') /\ built s' ((T_DIR, root') :: files ++ [(T_FILE, c)]) ds'.
Proof.
  intros Hb (Hsl & Hmax & reads & Hop & Hne & Hj) Hn k root' Hrl Hroom. rewrite blocks_cons, blocks_snoc in Hroom. cbn [snd] in Hroom.
  pose proof (nblk_pos (Z.of_nat (length c)) ltac:(lia)).
  destruct (ialloc_built s _ _ T_FILE Hb) as (s1 & H1 & Hb1); [cbn [length]; lia|unfold T_FILE; lia|]. cbn [length] in H1. fold k in H1.
  destruct (iappend_built s1 _ _ 0 T_DIR root (dirent k (de_name (skip_underscore name))) Hb1) as (s2 & d2 & H2 & Hb2); [done| | |].
  { unfold root' in Hrl. rewrite length_app in Hrl. lia. }
  { cbn [insert list_insert app]. fold root'. rewrite blocks_cons, blocks_snoc. change (nblk (Z.of_nat (length (T_FILE, []).2))) with 0. lia. }
  cbn [insert list_insert app] in Hb2. fold root' in Hb2.
  destruct (append_reads_built s2 _ _ (S (length files)) T_FILE [] reads Hb2) as (s3 & ds3 & H3 & Hb3).
  { exact (list_lookup_middle files [] (T_FILE, []) (length files) eq_refl). }
  { done. }
  { by rewrite Hj. }
  all: assert (Hins : <[S (length files) := (T_FILE, [] ++ mjoin reads)]> ((T_DIR, root') :: files ++ [(T_FILE, [])]) = (T_DIR, root') :: files ++ [(T_FILE, c)])
    by (change ((T_DIR, root') :: <[length files := (T_FILE, mjoin reads)]> (files ++ [(T_FILE, [])]) = (T_DIR, root') :: files ++ [(T_FILE, c)]);
        rewrite insert_app_r_alt, Nat.sub_diag, Hj by lia; done).
  { rewrite Hins, blocks_cons, blocks_snoc. cbn [snd]. lia. }
  exists s3, ds3. split; [|by rewrite <-Hins]. unfold add_file, assert. rewrite bool_decide_true by done.
  rewrite (bind_Ok _ _ s tt s), Hop by done. rewrite (bind_Ok _ _ _ _ _ H1). change ROOTINO with (ino 0). by rewrite (bind_Ok _ _ _ _ _ H2).
Qed.

Lemma add_files_built names cs s root files ds :
  built s ((T_DIR, root) :: files) ds -> Forall2 host names cs -> (S (length files) + length names < 200)%nat ->
  let root' := root ++ dents (ino (S (length files))) names in
  Z.of_nat (length root') <= MAXFILE * Z.of_nat BSIZE ->
  nmeta + blocks ((T_DIR, root') :: files ++ (pair T_FILE <$> cs)) <= FSSIZE ->
  exists s' ds', add_files open ROOTINO names s = Ok (tt, s') /\ built s' ((T_DIR, root') :: files ++ (pair T_FILE <$> cs)) ds'.
Proof.
  intros Hb Hh. revert s root files ds Hb. induction Hh as [|name c names cs Hn Hh IH]; intros s root files ds Hb Hlen root' Hrl Hroom.
  - exists s, ds. split; [done|]. subst root'. cbn [dents fmap list_fmap]. by rewrite !app_nil_r.
  - cbn [length] in Hlen. set (k := ino (S (length files))) in *. set (e := dirent k (de_name (skip_underscore name))).
    assert (Hr : root' = (root ++ e) ++ dents (k + 1) names) by (unfold root'; cbn [dents]; by rewrite (assoc_L (++))).
    assert (Hf : files ++ (pair T_FILE <$> c :: cs) = (files ++ [(T_FILE, c)]) ++ (pair T_FILE <$> cs)) by by rewrite <-(assoc_L (++)).
    assert (Hk : k + 1 = ino (S (length (files ++ [(T_FILE, c)])))) by (unfold k, ino; rewrite length_app; cbn [length]; lia).
    rewrite Hf, Hr in *. rewrite length_app in Hrl. rewrite blocks_cons, blocks_app, length_app, Nat2Z.inj_add in Hroom.
    pose proof (blocks_pos (pair T_FILE <$> cs)).
    pose proof (nblk_mono (Z.of_nat (length (root ++ e))) (Z.of_nat (length (root ++ e)) + Z.of_nat (length (dents (k + 1) names))) ltac:(lia)).
    destruct (add_file_built s root files ds name c Hb Hn) as (s1 & ds1 & H1 & Hb1); [lia|fold k e; lia|fold k e; rewrite blocks_cons; lia|].
    fold k e in Hb1. rewrite Hk in *. destruct (IH s1 (root ++ e) (files ++ [(T_FILE, c)]) ds1 Hb1) as (s2 & ds2 & H2 & Hb2).
    + rewrite length_app. cbn [length]. lia.
    + rewrite length_app. lia.
    + rewrite blocks_cons, blocks_app, length_app, Nat2Z.inj_add. lia.
    + exists s2, ds2. split; [|done]. cbn [add_files]. by rewrite (bind_Ok _ _ _ _ _ H1).
Qed.
End Files.

(** ** The end of main *)

(** The size [main] gives the root directory. *)
Definition root_size (n : Z) : Z := (n / Z.of_nat BSIZE + 1) * Z.of_nat BSIZE.

Lemma main_end_run s root files ds dr : built s ((T_DIR, root) :: files) ds -> ds !! 0%nat = Some dr ->
  exists s1 s', main_end ROOTINO s = Ok (tt, s') /\
    inode_put s ROOTINO (set_di_size (root_size (Z.of_nat (length root))) dr) s1 /\
    (forall c, m_img s' c = view s1 c) /\ m_len s' = FSSIZE.
Proof.
  intros Hb Hd. set (n := Z.of_nat (length root)). pose proof (bu_file _ _ _ Hb 0%nat _ _ _ eq_refl Hd) as Hf.
  pose proof (fi_max _ _ _ _ Hf) as Hm. fold n in Hm. pose proof (fo_di _ _ _ (fi_ok _ _ _ _ Hf)) as Hdi.
  assert (Hsz : 0 <= root_size n < 2 ^ 32).
  { unfold root_size. pose proof (Z.div_pos n (Z.of_nat BSIZE)). pose proof (Z.mul_div_le n (Z.of_nat BSIZE)). fs_lia. }
  assert (Hr : 0 < ROOTINO < sb_ninodes main_sb) by (unfold ROOTINO; mk_lia).
  destruct (winode_run s ROOTINO (set_di_size (root_size n) dr) (bu_ok _ _ _ Hb) Hr) as (s1 & Hw & Hp); [by destruct Hdi|].
  pose proof (ip_ok _ _ _ _ Hp) as Hs1. pose proof (io_next _ Hs1) as Hn.
  exists s1, (put (sb_bmapstart main_sb) (balloc_bits (m_freeblock s1)) s1). split_and!; [|exact Hp|done|apply Hs1].
  unfold main_end. rewrite (bind_Ok _ _ _ _ _ (rinode_run s ROOTINO dr (bu_ok _ _ _ Hb) Hr (bu_at _ _ _ Hb 0%nat dr Hd))).
  rewrite (fi_size _ _ _ _ Hf). fold n. rewrite (xint_small n) by fs_lia. fold (root_size n). rewrite xint_small by done.
  rewrite (bind_Ok _ _ _ _ _ Hw), (bind_Ok _ _ s1 (m_freeblock s1) s1) by done. unfold balloc, assert.
  rewrite (proj2 (Z.ltb_lt (m_freeblock s1) (Z.of_nat BSIZE * 8))) by mk_lia.
  rewrite (bind_Ok _ _ s1 tt s1), (bind_Ok _ _ s1 main_sb s1) by (done || (unfold gets; by rewrite (io_sb _ Hs1))).
  apply wsect_run; [done|mk_lia].
Qed.

(** ** Directory entries *)

Definition dirents (l : list (Z * list Z)) : list Z := mjoin ((fun e => dirent e.1 (de_name e.2)) <$> l).

(** The entries of the root directory. *)
Definition root_ents (names : list (list Z)) : list (Z * list Z) :=
  (1, [46]) :: (1, [46; 46]) :: zip (seqZ 2 (Z.of_nat (length names))) (skip_underscore <$> names).

Lemma dents_dirents k names : dents k names = dirents (zip (seqZ k (Z.of_nat (length names))) (skip_underscore <$> names)).
Proof.
  revert k. induction names as [|n names IH]; intros k; [done|]. cbn [length dents]. rewrite seqZ_cons by lia.
  replace (Z.pred (Z.of_nat (S (length names)))) with (Z.of_nat (length names)) by lia. rewrite IH. done.
Qed.

Lemma length_dirents l : length (dirents l) = (16 * length l)%nat.
Proof.
  induction l as [|e l IH]; [done|]. change (dirents (e :: l)) with (dirent e.1 (de_name e.2) ++ dirents l).
  rewrite length_app, length_dirent, IH. cbn [length]. lia.
Qed.

Lemma dirents_lookup l k e : l !! k = Some e -> take 16 (drop (16 * k) (dirents l)) = dirent e.1 (de_name e.2).
Proof.
  revert k. induction l as [|h l IH]; intros [|k] Hk; [done|done| |]; change (dirents (h :: l)) with (dirent h.1 (de_name h.2) ++ dirents l).
  - injection Hk as ->. rewrite drop_0, take_app_length' by by rewrite length_dirent. done.
  - replace (16 * S k)%nat with (length (dirent h.1 (de_name h.2)) + 16 * k)%nat by (rewrite length_dirent; lia).
    rewrite drop_app_add. by apply IH.
Qed.

Lemma cstr_id n : 0 ∉ n -> cstr n = n.
Proof.
  induction n as [|c n IH]; [done|]. rewrite not_elem_of_cons. intros [Hc Hn]. cbn [cstr].
  destruct (Z.eqb_spec c 0); [congruence|]. by rewrite IH.
Qed.

Lemma cstr_pad n k : 0 ∉ n -> cstr (n ++ replicate k 0) = n.
Proof.
  induction n as [|c n IH]; [by destruct k|]. rewrite not_elem_of_cons. intros [Hc Hn]. cbn [cstr app].
  destruct (Z.eqb_spec c 0); [congruence|]. by rewrite IH.
Qed.

Lemma fname_de_name n : 0 ∉ n -> fname (de_name n) = fname n.
Proof.
  intros Hn. unfold fname, de_name. rewrite (cstr_id n) by done.
  rewrite take_app, take_replicate, cstr_pad; [by rewrite take_take, Nat.min_id|].
  intros Hin. apply Hn. rewrite <-(take_drop DIRSIZ n). apply elem_of_app. by left.
Qed.

(** ** The root directory *)

Section Root.
Context (v : Z -> list Z) (l : list (Z * list Z)) (dr : dinode).
Context (Hroot : file_is v T_DIR (dirents l) dr) (Hl : (length l <= 201)%nat).
Context (Hnum : Forall (fun e => 0 < e.1 < 2 ^ 16 /\ 0 ∉ e.2) l).
Let size := root_size (16 * Z.of_nat (length l)).
Let dr' := set_di_size size dr.

Lemma root_size_range : 16 * Z.of_nat (length l) < size <= 16 * Z.of_nat (length l) + 512 /\ size mod 512 = 0.
Proof.
  unfold size, root_size. change (Z.of_nat BSIZE) with 512. set (n := 16 * Z.of_nat (length l)).
  pose proof (Z.div_mod n 512). pose proof (Z.mod_pos_bound n 512). split; [lia|]. by apply Z.mod_mul.
Qed.

Lemma root_entries : 16 * Z.of_nat (entries dr') = size.
Proof.
  pose proof root_size_range as [Hr Hm]. unfold entries. cbn [di_size dr' set_di_size].
  rewrite Z2Nat.id by (apply Z.div_pos; lia). pose proof (Z.div_mod size 16). pose proof (Z.div_mod size 512). pose proof (Z.mod_pos_bound size 16). lia.
Qed.

Lemma dent_entry k e : l !! k = Some e -> dent v dr' (Z.of_nat k) = dirent e.1 (de_name e.2).
Proof.
  intros Hk. pose proof (lookup_lt_Some _ _ _ Hk). rewrite <-(dirents_lookup _ _ _ Hk). apply list_eq. intros i.
  unfold dent, file_bytes. rewrite list_lookup_fmap. destruct (decide (i < 16)%nat) as [Hi|Hi].
  - rewrite lookup_seqZ_lt, lookup_take_lt, lookup_drop by lia. cbn [fmap option_fmap option_map].
    destruct (lookup_lt_is_Some_2 (dirents l) (16 * k + i)) as [x Hx]; [rewrite length_dirents; lia|]. rewrite Hx. f_equal.
    replace (16 * Z.of_nat k + Z.of_nat i) with (Z.of_nat (16 * k + i)) by lia. by apply (fi_bytes _ _ _ _ Hroot).
  - rewrite lookup_seqZ_ge by lia. symmetry. apply lookup_ge_None. rewrite length_take. lia.
Qed.

Lemma dent_inum_entry k e : l !! k = Some e -> dent_inum v dr' (Z.of_nat k) = e.1.
Proof.
  intros Hk. destruct (Forall_lookup_1 _ _ _ _ Hnum Hk) as [Hr _]. unfold dent_inum, get16. rewrite (dent_entry _ _ Hk).
  unfold dirent. rewrite rd_bytes_Some by (rewrite length_app, length_le_bytes; lia). cbn [fmap option_fmap option_map default].
  rewrite drop_0, take_app_length' by by rewrite length_le_bytes. unfold xshort. rewrite !le_val_bytes. change (256 ^ Z.of_nat 2) with (2 ^ 16).
  by rewrite Z.mod_mod, Z.mod_small by lia.
Qed.

Lemma dent_inum_tail k : Z.of_nat (length l) <= k < Z.of_nat (entries dr') -> dent_inum v dr' k = 0.
Proof.
  intros Hk. pose proof root_size_range as [Hr _]. pose proof root_entries as He.
  assert (Hz : dent v dr' k = replicate 16 0); [|unfold dent_inum; by rewrite Hz].
  apply list_eq. intros i. unfold dent, file_bytes. rewrite list_lookup_fmap. destruct (decide (i < 16)%nat).
  - rewrite lookup_seqZ_lt, lookup_replicate_2 by lia. cbn [fmap option_fmap option_map]. f_equal.
    apply (fi_tail _ _ _ _ Hroot). rewrite length_dirents. fs_lia.
  - rewrite lookup_seqZ_ge by lia. symmetry. apply lookup_ge_None. rewrite length_replicate. lia.
Qed.

Lemma matches_entry k e name : l !! k = Some e -> matches v dr' name (Z.of_nat k) = bool_decide (fname name = fname e.2).
Proof.
  intros Hk. destruct (Forall_lookup_1 _ _ _ _ Hnum Hk) as [Hr H0]. unfold matches. rewrite (dent_inum_entry _ _ Hk).
  destruct (Z.eqb_spec e.1 0); [lia|]. unfold dent_name. rewrite (dent_entry _ _ Hk). unfold dirent.
  rewrite drop_app_length' by by rewrite length_le_bytes. by rewrite fname_de_name.
Qed.

(** An entry is found under its name, if no other has it. *)
Lemma dir_find_entry k e : l !! k = Some e -> (forall j e', l !! j = Some e' -> fname e'.2 = fname e.2 -> j = k) ->
  dir_find v dr' e.2 = Some (16 * Z.of_nat k, e.1).
Proof.
  intros Hk Hu. pose proof (lookup_lt_Some _ _ _ Hk) as Hlt. pose proof root_size_range as [Hr _]. pose proof root_entries as He.
  rewrite <-(dent_inum_entry _ _ Hk). apply dir_scan_first; [lia| |].
  - rewrite (matches_entry _ _ _ Hk). by apply bool_decide_true.
  - intros j Hj. destruct (lookup_lt_is_Some_2 l (Z.to_nat j)) as [e' He']; [lia|]. rewrite <-(Z2Nat.id j), (matches_entry _ _ _ He') by lia.
    apply bool_decide_false. intros Hn. pose proof (Hu _ _ He' (eq_sym Hn)). lia.
Qed.

Lemma root_dir_ok : (16 * Z.of_nat (length l)) mod 512 <> 0 -> dir_ok v main_sb dr'.
Proof.
  intros Hm. pose proof root_size_range as [Hr Hs]. pose proof (fi_ok _ _ _ _ Hroot) as Hok. split.
  - destruct Hok as [Hdi H1 H2]. split; [|exact H1|exact H2]. destruct Hdi. split; try done. cbn [di_size dr' set_di_size]. lia.
  - split; cbn [di_size dr' set_di_size]; [fs_lia|]. intros o Ho. change (slot v dr (pos (o / Z.of_nat BSIZE)) <> 0).
    apply (co_block _ _ _ (fi_compact _ _ _ _ Hroot)); [apply bn_range; fs_lia|]. rewrite length_dirents. change (Z.of_nat BSIZE) with 512.
    unfold size, root_size in Ho. change (Z.of_nat BSIZE) with 512 in Ho. set (n := 16 * Z.of_nat (length l)) in *.
    pose proof (Z.div_mod n 512). pose proof (Z.mod_pos_bound n 512). pose proof (Z.div_lt_upper_bound o 512 (n / 512 + 1)). lia.
  - apply (fi_type _ _ _ _ Hroot).
  - cbn [di_size dr' set_di_size]. pose proof root_entries as He. rewrite <-He, Z.mul_comm. by apply Z.mod_mul.
Qed.

(** When the entries fill their blocks, the size of the directory covers a block that it does not have. *)
Lemma root_hole : (16 * Z.of_nat (length l)) mod 512 = 0 -> ~ full v dr'.
Proof.
  intros Hm [_ Hf]. set (n := 16 * Z.of_nat (length l)) in *. pose proof root_size_range as [Hr _]. fold n in Hr.
  pose proof (Z.div_mod n 512 ltac:(lia)) as Hd. apply (Hf n); [cbn [di_size dr' set_di_size]; lia|].
  change (slot v dr (pos (n / Z.of_nat BSIZE)) = 0). change (Z.of_nat BSIZE) with 512.
  destruct (decide (slot v dr (pos (n / 512)) = 0)) as [|H0]; [done|]. exfalso.
  apply (co_block _ _ _ (fi_compact _ _ _ _ Hroot)) in H0; [|split; [by apply Z.div_pos; lia|apply Z.div_lt_upper_bound; fs_lia]].
  rewrite length_dirents in H0. change (Z.of_nat BSIZE) with 512 in H0. lia.
Qed.
End Root.

(** ** The image *)

(** The image [v] holds the files [cs] of the host under [names]. *)
Record image_made (v : Z -> list Z) (names cs : list (list Z)) (dr : dinode) : Prop := {
  ma_super : decode_super (v 1) = Some main_sb;
  ma_meta : meta_used v main_sb;
  ma_root : file_is v T_DIR (dirents (root_ents names)) dr;
  ma_root_at : dinode_at v main_sb ROOTINO = Some (set_di_size (root_size (16 * Z.of_nat (length names + 2))) dr);
  ma_file i c : cs !! i = Some c -> exists di, dinode_at v main_sb (Z.of_nat i + 2) = Some di /\ file_is v T_FILE c di;
  ma_free j : Z.of_nat (length cs) + 2 <= j < sb_ninodes main_sb -> dinode_at v main_sb j = Some free_dinode;
}.

Lemma length_root_ents names : length (root_ents names) = (length names + 2)%nat.
Proof. unfold root_ents. cbn [length]. rewrite length_zip_with, length_seqZ, length_fmap. lia. Qed.

Section Made.
Context (s : mkst) (names cs : list (list Z)) (ds : list dinode) (dr : dinode) (s1 : mkst) (v : Z -> list Z).
Context (Hb : built s ((T_DIR, dirents (root_ents names)) :: (pair T_FILE <$> cs)) ds) (Hd : ds !! 0%nat = Some dr).
Context (Hp : inode_put s ROOTINO (set_di_size (root_size (16 * Z.of_nat (length names + 2))) dr) s1) (Hv : forall c, v c = view s1 c).

Lemma made_at j : dinode_at v main_sb j = dinode_at (view s1) main_sb j.
Proof. unfold dinode_at. by rewrite Hv. Qed.

Lemma made_file i ty c di : ((T_DIR, dirents (root_ents names)) :: (pair T_FILE <$> cs)) !! i = Some (ty, c) -> ds !! i = Some di -> file_is v ty c di.
Proof.
  intros Hi Hdi. apply (file_is_frame (view s1)); [intros; apply Hv|intros b _; unfold used; by rewrite Hv|].
  eapply file_is_put; [exact Hp|]. by apply (bu_file _ _ _ Hb i).
Qed.

Lemma made_image : image_made v names cs dr.
Proof.
  pose proof (ip_ok _ _ _ _ Hp) as Hs1. pose proof (bu_len _ _ _ Hb) as Hlen. cbn [length] in Hlen. rewrite length_fmap in Hlen. split.
  - rewrite Hv, view_img by mk_lia. rewrite (ip_super _ _ _ _ Hp), (bu_super _ _ _ Hb). exact decode_main.
  - intros b Hbr. rewrite (used_ext main_sb (view s1)) by done. by apply view_meta.
  - by apply (made_file 0).
  - rewrite made_at. apply Hp.
  - intros i c Hi. destruct (lookup_lt_is_Some_2 ds (S i)) as [di Hdi]; [rewrite Hlen; apply lookup_lt_Some in Hi; lia|].
    exists di. rewrite made_at, (ip_other _ _ _ _ Hp) by (unfold ROOTINO; lia).
    replace (Z.of_nat i + 2) with (ino (S i)) by (unfold ino; lia). split; [by apply (bu_at _ _ _ Hb)|].
    apply (made_file (S i)); [|done]. change ((pair T_FILE <$> cs) !! i = Some (T_FILE, c)). by rewrite list_lookup_fmap, Hi.
  - intros j Hj. rewrite made_at, (ip_other _ _ _ _ Hp) by (unfold ROOTINO; lia). apply (bu_free _ _ _ Hb).
    rewrite (bu_inode _ _ _ Hb). unfold ino. cbn [length]. rewrite length_fmap. lia.
Qed.
End Made.

(** The bytes of the root directory before the first file. *)
Definition dots : list Z := dirent ROOTINO (de_name [46]) ++ dirent ROOTINO (de_name [46; 46]).

Lemma root_run s : built s [] [] ->
  exists s1 s2 s3 ds, ialloc T_DIR s = Ok (ROOTINO, s1) /\ iappend ROOTINO (dirent ROOTINO (de_name [46])) s1 = Ok (tt, s2) /\
    iappend ROOTINO (dirent ROOTINO (de_name [46; 46])) s2 = Ok (tt, s3) /\ built s3 [(T_DIR, dots)] ds.
Proof.
  intros Hb. destruct (ialloc_built s [] [] T_DIR Hb) as (s1 & H1 & Hb1); [cbn; lia|unfold T_DIR; lia|].
  destruct (iappend_built s1 _ _ 0 T_DIR [] (dirent ROOTINO (de_name [46])) Hb1 eq_refl) as (s2 & d2 & H2 & Hb2);
    [cbn [length]; rewrite length_dirent; fs_lia|by vm_compute|].
  destruct (iappend_built s2 _ _ 0 T_DIR (dirent ROOTINO (de_name [46])) (dirent ROOTINO (de_name [46; 46])) Hb2 eq_refl) as (s3 & d3 & H3 & Hb3);
    [rewrite !length_dirent; fs_lia|by vm_compute|].
  eexists s1, s2, s3, _. split_and!; [exact H1|exact H2|exact H3|exact Hb3].
Qed.

Lemma dots_dents names : dots ++ dents 2 names = dirents (root_ents names).
Proof. rewrite dents_dirents. unfold dots. by rewrite <-(assoc_L (++)). Qed.

Section Main.
Context (creat : list Z -> bool) (open : list Z -> option (list (list Z))).

Lemma main_makes prog img names cs : creat img = true -> Forall2 (host open) names cs -> (length names <= 198)%nat ->
  nmeta + nblk (16 * Z.of_nat (length names + 2)) + blocks (pair T_FILE <$> cs) <= FSSIZE ->
  exists s dr, main creat open (prog :: img :: names) loaded = Ok (tt, s) /\ m_len s = FSSIZE /\ image_made (m_img s) names cs dr.
Proof.
  intros Hcr Hh Hn Hroom. set (s0 := set_freeblock nmeta (set_m_sb main_sb (set_image (fun _ => zeroes) 0 loaded))).
  destruct (wzeroes_run (Z.to_nat FSSIZE) s0) as (s1 & H1 & Hz & Hl & Hi & Hf & Hsb); [done|done|done|].
  pose proof (blank_built s1 Hz Hl Hi Hf Hsb) as Hb1. set (s2 := put 1 _ s1) in Hb1.
  assert (Hw : wsect 1 (encode_super main_sb ++ drop 28 zeroes) s1 = Ok (tt, s2)).
  { unfold wsect, modify, s2, put. change (sector 1) with 1. rewrite Hl. done. }
  destruct (root_run s2 Hb1) as (s3 & s4 & s5 & ds5 & H3 & H4 & H5 & Hb5).
  assert (Hrl : Z.of_nat (length (dots ++ dents 2 names)) = 16 * Z.of_nat (length names + 2)).
  { rewrite dots_dents, length_dirents, length_root_ents. lia. }
  destruct (add_files_built open names cs s5 dots [] _ Hb5 Hh) as (s6 & ds6 & H6 & Hb6); change (ino (S (length []))) with 2;
    [cbn [length]; lia|rewrite Hrl; fs_lia|cbn [app]; rewrite blocks_cons, Hrl; lia|].
  change (ino (S (length []))) with 2 in Hb6. rewrite dots_dents in Hb6. cbn [app] in Hb6.
  destruct (lookup_lt_is_Some_2 ds6 0) as [dr Hdr]; [rewrite (bu_len _ _ _ Hb6); cbn; lia|].
  destruct (main_end_run _ _ _ _ _ Hb6 Hdr) as (s7 & s8 & H8 & Hp & Hv & Hlen). rewrite length_dirents, length_root_ents in Hp.
  replace (Z.of_nat (16 * (length names + 2))) with (16 * Z.of_nat (length names + 2)) in Hp by lia.
  exists s8, dr. split_and!; [|done|by eapply made_image]. unfold main. rewrite Hcr. cbn [negb].
  rewrite (bind_Ok _ _ loaded tt (set_image (fun _ => zeroes) 0 loaded)) by done.
  rewrite (bind_Ok _ _ _ tt (set_m_sb main_sb (set_image (fun _ => zeroes) 0 loaded))) by done. rewrite (bind_Ok _ _ _ tt s0) by done.
  rewrite (bind_Ok _ _ _ _ _ H1), (bind_Ok _ _ _ _ _ Hw), (bind_Ok _ _ _ _ _ H3). unfold assert.
  rewrite Z.eqb_refl, (bind_Ok _ _ s3 tt s3) by done. by rewrite (bind_Ok _ _ _ _ _ H4), (bind_Ok _ _ _ _ _ H5), (bind_Ok _ _ _ _ _ H6).
Qed.

(** The entries of the root directory name inodes, under strings. *)
Lemma root_ents_ok names : (length names <= 198)%nat -> Forall (fun n => 0 ∉ n) names ->
  Forall (fun e => 0 < e.1 < 2 ^ 16 /\ 0 ∉ e.2) (root_ents names).
Proof.
  intros Hn H0. apply Forall_lookup_2. intros [|[|k]] e; [intros [= <-]; cbn [fst snd]; split; [lia|apply (bool_decide_unpack _); by vm_compute]..|].
  cbn [root_ents lookup list_lookup]. intros (k' & n & -> & Hk & Hm)%lookup_zip_with_Some. cbn [fst snd].
  apply lookup_seqZ in Hk as [-> Hk]. rewrite list_lookup_fmap in Hm. apply fmap_Some in Hm as (name & Hname & ->).
  pose proof (Forall_lookup_1 _ _ _ _ H0 Hname) as Hz. split; [lia|]. unfold skip_underscore. destruct name as [|c name]; [done|].
  apply not_elem_of_cons in Hz as [? ?]. destruct (c =? 95); [done|]. by apply not_elem_of_cons.
Qed.

Lemma root_ents_file names i name : names !! i = Some name -> root_ents names !! S (S i) = Some (Z.of_nat i + 2, skip_underscore name).
Proof.
  intros Hi. pose proof (lookup_lt_Some _ _ _ Hi). cbn [root_ents lookup list_lookup]. apply lookup_zip_with_Some.
  exists (Z.of_nat i + 2), (skip_underscore name). split_and!; [done|apply lookup_seqZ; lia|]. by rewrite list_lookup_fmap, Hi.
Qed.

Section Tree.
Context (v : Z -> list Z) (names cs : list (list Z)) (dr : dinode) (Hm : image_made v names cs dr).
Context (Hn : (length names <= 198)%nat) (Hcs : length names = length cs) (H0 : Forall (fun n => 0 ∉ n) names).
Context (Hmod : (Z.of_nat (length names) + 2) mod 32 <> 0).
Let dr' := set_di_size (root_size (16 * Z.of_nat (length names + 2))) dr.

Lemma made_ents : (length (root_ents names) <= 201)%nat.
Proof. rewrite length_root_ents. lia. Qed.

Lemma made_dir_ok : dir_ok v main_sb dr'.
Proof.
  pose proof (root_dir_ok v (root_ents names) dr (ma_root _ _ _ _ Hm)) as H. rewrite length_root_ents in H. apply H; [lia|].
  intros Hz. apply Hmod. pose proof (Z.div_mod (16 * Z.of_nat (length names + 2)) 512 ltac:(lia)) as Hd. rewrite Hz in Hd.
  replace (Z.of_nat (length names) + 2) with (16 * Z.of_nat (length names + 2) / 512 * 32) by lia. by apply Z.mod_mul.
Qed.

(** An inode in use. *)
Lemma made_linked j : 0 < j < Z.of_nat (length names) + 2 -> linked_inode v main_sb j.
Proof.
  intros Hj. split; [mk_lia|]. destruct (decide (j = 1)) as [->|Hj1].
  - eexists. split; [apply (ma_root_at _ _ _ _ Hm)|]. cbn [di_type di_nlink set_di_size].
    by rewrite (fi_type _ _ _ _ (ma_root _ _ _ _ Hm)), (fi_nlink _ _ _ _ (ma_root _ _ _ _ Hm)).
  - destruct (lookup_lt_is_Some_2 cs (Z.to_nat (j - 2))) as [c Hc]; [lia|]. destruct (ma_file _ _ _ _ Hm _ _ Hc) as (di & Hat & Hf).
    replace (Z.of_nat (Z.to_nat (j - 2)) + 2) with j in Hat by lia. exists di. split; [done|].
    by rewrite (fi_type _ _ _ _ Hf), (fi_nlink _ _ _ _ Hf).
Qed.

(** The only directory is the root. *)
Lemma made_only_dir j di : 0 < j < sb_ninodes main_sb -> dinode_at v main_sb j = Some di -> di_type di = T_DIR -> di = dr'.
Proof.
  intros Hj Hat Hty. destruct (decide (j = 1)) as [->|Hj1]; [pose proof (ma_root_at _ _ _ _ Hm) as H1; unfold ROOTINO in H1; unfold dr'; congruence|].
  destruct (decide (j < Z.of_nat (length cs) + 2)) as [Hlt|Hge].
  - destruct (lookup_lt_is_Some_2 cs (Z.to_nat (j - 2))) as [c Hc]; [lia|]. destruct (ma_file _ _ _ _ Hm _ _ Hc) as (d & Hd & Hf).
    replace (Z.of_nat (Z.to_nat (j - 2)) + 2) with j in Hd by lia. rewrite Hat in Hd. injection Hd as <-.
    rewrite (fi_type _ _ _ _ Hf) in Hty. done.
  - rewrite (ma_free _ _ _ _ Hm) in Hat by lia. injection Hat as <-. done.
Qed.

Lemma made_tree : tree_ok v main_sb.
Proof.
  split.
  - apply made_linked. unfold ROOTINO. lia.
  - intros j di Hj Hat Hty. rewrite (made_only_dir j di) by done. exact made_dir_ok.
  - intros j di k Hj Hat Hty. rewrite (made_only_dir j di) by done. intros Hk Hne. apply made_linked.
    pose proof (root_ents_ok names Hn H0) as Hok. unfold dr' in *. rewrite <-length_root_ents in Hk, Hne |- *.
    destruct (decide (k < Z.of_nat (length (root_ents names)))) as [Hlt|Hge].
    + destruct (lookup_lt_is_Some_2 (root_ents names) (Z.to_nat k)) as [e He]; [lia|]. rewrite <-(Z2Nat.id k) by lia.
      rewrite (dent_inum_entry v (root_ents names) dr (ma_root _ _ _ _ Hm) made_ents Hok _ e) by done.
      destruct (Z.to_nat k) as [|[|i]]; [injection He as <-; cbn; lia..|]. cbn [root_ents lookup list_lookup] in He.
      apply lookup_zip_with_Some in He as (x & n & -> & Hx & _). apply lookup_seqZ in Hx as [-> Hx]. cbn [fst]. lia.
    + destruct Hne. apply (dent_inum_tail v (root_ents names) dr (ma_root _ _ _ _ Hm)); [exact made_ents|lia].
Qed.

(** A file is found under its name. *)
Lemma made_walk i name : NoDup (fname <$> (root_ents names).*2) -> names !! i = Some name ->
  walk v main_sb false ROOTINO [skip_underscore name] = Some (Z.of_nat i + 2).
Proof.
  intros Hnd Hi. pose proof (root_ents_file names i name Hi) as He. cbn [walk]. rewrite (ma_root_at _ _ _ _ Hm).
  cbn [di_type set_di_size]. rewrite (fi_type _ _ _ _ (ma_root _ _ _ _ Hm)). cbn [negb Z.eqb T_DIR andb]. rewrite <-length_root_ents.
  assert (Hfind : dir_find v (set_di_size (root_size (16 * Z.of_nat (length (root_ents names)))) dr) (skip_underscore name)
    = Some (16 * Z.of_nat (S (S i)), Z.of_nat i + 2)); [|by rewrite Hfind].
  apply (dir_find_entry v (root_ents names) dr (ma_root _ _ _ _ Hm) made_ents (root_ents_ok names Hn H0) _ _ He).
  intros j e' Hj Heq. eapply (NoDup_lookup _ _ _ (fname (skip_underscore name)) Hnd); rewrite !list_lookup_fmap; [rewrite Hj; exact (f_equal Some Heq)|by rewrite He].
Qed.
End Tree.

(** C9. [mkfs], given files of the host that fit, makes an image the kernel can use: the
    superblock it reads at boot describes a disk whose areas do not overlap, the free
    map has the blocks before the data in use, the directory tree is well formed, and
    each file is found from the root under its name, without a leading underscore, with
    exactly the bytes that were read from the host. *)
Theorem mkfs_builds prog img names cs :
  creat img = true -> Forall2 (host open) names cs -> (length names <= 198)%nat ->
  nmeta + nblk (16 * Z.of_nat (length names + 2)) + blocks (pair T_FILE <$> cs) <= FSSIZE ->
  (Z.of_nat (length names) + 2) mod 32 <> 0 -> Forall (fun n => 0 ∉ n) names -> NoDup (fname <$> (root_ents names).*2) ->
  exists s, main creat open (prog :: img :: names) loaded = Ok (tt, s) /\ m_len s = FSSIZE /\
    decode_super (m_img s 1) = Some main_sb /\ layout 2 30 main_sb /\ meta_used (m_img s) main_sb /\ tree_ok (m_img s) main_sb /\
    forall i name c, names !! i = Some name -> cs !! i = Some c ->
      walk (m_img s) main_sb false ROOTINO [skip_underscore name] = Some (Z.of_nat i + 2) /\
      exists di, dinode_at (m_img s) main_sb (Z.of_nat i + 2) = Some di /\ di_type di = T_FILE /\
        file_ok (m_img s) main_sb di /\ full (m_img s) di /\ file_bytes (m_img s) di 0 (di_size di) = c.
Proof.
  intros Hcr Hh Hn Hroom Hmod H0 Hnd. destruct (main_makes prog img names cs Hcr Hh Hn Hroom) as (s & dr & Hrun & Hlen & Hm).
  pose proof (Forall2_length _ _ _ Hh) as Hcs. exists s. split_and!; [done|done|apply Hm|exact main_layout|apply Hm|by eapply made_tree|].
  intros i name c Hi Hc. split; [by eapply made_walk|]. destruct (ma_file _ _ _ _ Hm _ _ Hc) as (di & Hat & Hf).
  exists di. split_and!; [done|apply Hf|apply Hf|by eapply file_is_full|by eapply file_is_bytes].
Qed.

(** C39. When the entries of the root directory fill their blocks exactly, that is with 30,
    62, 94, ... files, [mkfs] gives the root directory a size that covers a block it does
    not have. *)
Theorem mkfs_root_hole prog img names cs :
  creat img = true -> Forall2 (host open) names cs -> (length names <= 198)%nat ->
  nmeta + nblk (16 * Z.of_nat (length names + 2)) + blocks (pair T_FILE <$> cs) <= FSSIZE ->
  (Z.of_nat (length names) + 2) mod 32 = 0 ->
  exists s dr, main creat open (prog :: img :: names) loaded = Ok (tt, s) /\
    dinode_at (m_img s) main_sb ROOTINO = Some dr /\ di_type dr = T_DIR /\ ~ full (m_img s) dr.
Proof.
  intros Hcr Hh Hn Hroom Hmod. destruct (main_makes prog img names cs Hcr Hh Hn Hroom) as (s & dr & Hrun & _ & Hm).
  eexists s, _. split_and!; [done|apply (ma_root_at _ _ _ _ Hm)|apply (fi_type _ _ _ _ (ma_root _ _ _ _ Hm))|].
  rewrite <-length_root_ents. apply (root_hole _ _ _ (ma_root _ _ _ _ Hm)); rewrite length_root_ents; [lia|].
  pose proof (Z.div_mod (Z.of_nat (length names) + 2) 32 ltac:(lia)) as Hd. rewrite Hmod in Hd.
  replace (16 * Z.of_nat (length names + 2)) with ((Z.of_nat (length names) + 2) / 32 * 512) by lia. by apply Z.mod_mul.
Qed.
End Main.

(** ** Two small images *)

(** Every file of the host holds "hi", read in two parts. *)
Definition demo_open (name : list Z) : option (list (list Z)) := Some [[104]; [105]].
(** "README" and "_sh" *)
Definition demo_names : list (list Z) := [[82; 69; 65; 68; 77; 69]; [95; 115; 104]].

Lemma demo_host name : 47 ∉ name -> host demo_open name [104; 105].
Proof. intros H. split_and!; [done|by vm_compute|]. exists [[104]; [105]]. split_and!; [done| |done]. by repeat constructor. Qed.

Lemma mkfs_builds_witness :
  exists s, main (fun _ => true) demo_open ([] :: [] :: demo_names) loaded = Ok (tt, s) /\ m_len s = FSSIZE /\
    decode_super (m_img s 1) = Some main_sb /\ layout 2 30 main_sb /\ meta_used (m_img s) main_sb /\ tree_ok (m_img s) main_sb /\
    forall i name c, demo_names !! i = Some name -> [[104; 105]; [104; 105]] !! i = Some c ->
      walk (m_img s) main_sb false ROOTINO [skip_underscore name] = Some (Z.of_nat i + 2) /\
      exists di, dinode_at (m_img s) main_sb (Z.of_nat i + 2) = Some di /\ di_type di = T_FILE /\
        file_ok (m_img s) main_sb di /\ full (m_img s) di /\ file_bytes (m_img s) di 0 (di_size di) = c.
Proof.
  apply (mkfs_builds (fun _ => true) demo_open [] [] demo_names [[104; 105]; [104; 105]]).
  - reflexivity.
  - apply Forall2_cons; split; [apply demo_host|apply Forall2_cons; split; [apply demo_host|apply Forall2_nil; exact I]];
      apply (bool_decide_unpack _); vm_compute; reflexivity.
  - vm_compute. lia.
  - vm_compute. discriminate.
  - vm_compute. discriminate.
  - repeat constructor; apply (bool_decide_unpack _); vm_compute; reflexivity.
  - apply (bool_decide_unpack _). vm_compute. reflexivity.
Defined.

(** Thirty files. *)
Lemma mkfs_root_hole_witness :
  exists s dr, main (fun _ => true) demo_open ([] :: [] :: replicate 30 [97]) loaded = Ok (tt, s) /\
    dinode_at (m_img s) main_sb ROOTINO = Some dr /\ di_type dr = T_DIR /\ ~ full (m_img s) dr.
Proof.
  apply (mkfs_root_hole (fun _ => true) demo_open [] [] (replicate 30 [97]) (replicate 30 [104; 105])).
  - reflexivity.
  - apply Forall2_replicate, demo_host. apply (bool_decide_unpack _). vm_compute. reflexivity.
  - vm_compute. lia.
  - vm_compute. discriminate.
  - reflexivity.
Defined.
